(* ===== verification/_CoqProject ===== *)
-Q . S2P
Prelude.v
OpMonad.v
RustMap.v
RustStr.v
F64.v
Json.v
Common.v
Lease.v
Heartbeat.v
Lww.v
Merkle.v
Handshake.v
ClusterState.v
ClusterStore.v
ClusterStoreFacts.v
ClusterLocal.v
ClusterInvariant.v
ClusterServe.v
Replication.v
AntiEntropy.v
Membership.v
MembershipFacts.v
Reachability.v
ClusterExamples.v
Sse.v
JsonRpc.v
A4PUtil.v
IntentScope.v
UsageStore.v
Canonical.v
A4PCrypto.v
WebAuthnData.v
CredentialStore.v
Mandate.v
Ticket.v
Ed25519.v
WebAuthn.v
IntentMandate.v
IntentToken.v
IntentService.v
IntentFlow.v
OperationService.v
A4PServer.v
A4PHttp.v
Serde.v
McpTypes.v
McpProtocol.v
McpSchema.v
McpServer.v
McpSession.v
McpHttp.v
McpReplies.v
McpManager.v
McpClient.v
McpEndToEnd.v
A4PExamples.v
AuthTokens.v
AuthStore.v
AuthAccess.v
AuthGate.v
AuthRouter.v
AuthExamples.v
A2AData.v
A2AWireFacts.v
A2ATasks.v
A2AHandler.v
A2AServerReach.v
A2AServerFacts.v
A2AAnswers.v
A2AServer.v
A2APush.v
A2AClient.v
A2AEndToEnd.v
A2AClientRun.v
A2AExamples.v
