(* ===== verification/Prelude.v ===== *)
(** A verification library for the Rust SDKs of Ai.js: the agent registry's
    cluster module, its leases and its authorization, the authorization protocol
    A4P, the servers and the clients of A2A and of MCP, and the wire formats the
    SDKs share.

    * The program

    The repository is a Rust workspace of SDKs for agent protocols.  The parts
    with a logic of their own that this library models are

    - a2x-common: the caller's identity, atomic file replacement and the TTL
      lease table;
    - a2x-registry (the heartbeat of a dataset): lease policies, the lease
      store, the sweeper that hard-deletes expired services; and its
      authorization: principals and keys in two files, tokens that are stored as
      hashes, the gate of a dataset and the endpoints that administer them;
    - a2x-cluster: registries that replicate each other.  A node stamps its own
      records with versions and keeps an overlay of its peers' records, a
      last-writer-wins register per key.  Peers open sessions by a handshake
      that authorizes namespaces, broadcast writes, and repair what they missed
      by anti-entropy rounds over a bucketed Merkle digest; a membership plane,
      itself a last-writer-wins overlay, decides who is a peer;
    - A4P: what lets an agent act for a user.  The server prepares a mandate, a
      JSON object it signs over a canonical text; the user signs the same text
      with a registered Ed25519 key or a WebAuthn credential; completing
      compares what comes back with what is pending, checks both signatures
      and the validity, and issues a token for the mandate's scope whose
      executions a usage store counts, or approves one exact operation once;
    - A2A: agents that work for each other.  A server takes up a message as a
      task, hands it to its executor, and processes the events of the execution
      under the lock of the task: it applies them to the stored task and calls
      the callbacks of the connections that wait, which answer once or stream.
      A client keeps the requests that wait for an answer, reads JSON bodies and
      event streams, follows the task of a stream and ends each request;
    - MCP: tools, resources and prompts that a server offers to a model.  A
      manager holds one session per client; a session is created by an
      initialize request and ends with a DELETE.  The HTTP transport decides
      what a request is answered (JSON, an event stream, an error status) and
      keeps a sink per request; the session correlates requests, answers,
      cancellations and progress both ways, and serves the registries once the
      client has said it is initialized.  The client mirrors it: requests that
      wait for an answer, a transport that posts and reads back, checks of
      tool results and sampling messages;
    - ap-jsonrpc: the JSON-RPC 2.0 message model and the Server-Sent Events
      parser the MCP and A2A SDKs read their streams with.

    * The files

    Shared ground.  [Prelude]: results and the [?] operator, 64-bit integers
    with their wrap-around, Rust's [Ord] as a class of total orders, sorting,
    automation.  [RustMap]: insertion-ordered and sorted association lists for
    IndexMap, serde_json's Map and BTreeMap, [gmap] for HashMap with the class
    [HashIter] for its iteration order.  [RustStr]: the [str] methods used,
    integer parsing, UTF-8.  [F64]: binary64 numbers.  [Json]: JSON values.

    Leases.  [Common] (auth_context.rs, atomic.rs), [Lease] (lease.rs) and
    [Heartbeat] (heartbeat/*.rs, the lease policy of register/store.rs and
    register/service.rs).  The abstract machine [Lease.lease_step] says what
    one lease does, whatever happens to the others.

    The cluster, bottom up.  [Lww] (the register, as a class of replicated
    entries, and envelope.rs), [Merkle] (merkle.rs), [Handshake]
    (registry_view.rs, auth_handshake.rs), [ClusterState] (config.rs,
    errors.rs, state.rs), [ClusterStore] (store.rs and peer.rs, every operation
    that calls no peer), [Replication] (transport.rs: the trait, as a class over
    the state of the network, and the network of one live peer; the operations
    of store.rs that call peers, the keepalive of sweepers.rs),
    [Membership] (membership.rs, the anti-entropy tick).  The facts are in
    [ClusterStoreFacts] (the overlay implements the register; two replicas
    converge), [ClusterLocal] (the version clock, durable local writes,
    tombstone collection, eviction), [ClusterServe] (what a peer is shown),
    [AntiEntropy] (what one round between two nodes achieves),
    [MembershipFacts], [ClusterInvariant] and [Reachability] (the step relation
    of store and node, and the invariant of everything they reach).
    [ClusterExamples] is a concrete cluster on which the theorems apply.

    Wire formats.  [Sse] (ap-jsonrpc/src/sse.rs, and a stream of data events in
    any chunks) and [JsonRpc] (ap-jsonrpc/src/lib.rs).

    The authorization of the registry (a2x-registry/src/auth).  [OpMonad] is
    state with errors and its predicate transformer; [AuthTokens] (tokens.rs,
    models.rs, errors.rs, util/pyjson.rs), [AuthStore] (store.rs, cli.rs),
    [AuthGate] (backend/errors.rs, extractors.rs and the flag of a dataset),
    [AuthRouter] (router.rs, with its facts).  [AuthAccess] holds the step
    relation of the store, its failing writes included, the invariant, and who
    gets in; [AuthExamples] is a concrete store.

    A2A (A2A/rust-sdk/src), bottom up.  [A2AData] (types.rs without agent cards,
    protocol.rs; every reader and writer), [A2AWireFacts] (their laws, as the
    class [WireLaws]), [A2ATasks] (error.rs, server/task_manager.rs,
    task_store.rs, task_updater.rs and the helpers of utils), [A2AHandler]
    (server/request_handler.rs, request_context.rs, push_notification.rs),
    [A2AServer] (server/server_impl.rs, jsonrpc_handler.rs, emitter.rs,
    http_transport.rs) and [A2AClient] (client/default_client.rs,
    task_manager.rs, transport.rs, config.rs, jsonrpc_transport.rs,
    interceptor.rs).  The facts are in [A2AServerReach] and
    [A2AServerFacts] (the step relation of the server and its invariant),
    [A2AAnswers] (what a connection is answered; what a body is served is in
    [A2AServer]), [A2APush], [A2AEndToEnd] (what a client hears of a stream; client
    and server together) and [A2AClientRun] (a client in any interleaving).
    [A2AExamples] is a concrete server and client; [Canonical] is the JSON text
    codec that it and [A4PExamples] use.

    A4P (A4P/rust-sdk/src), bottom up.  [A4PUtil] (errors.rs, the value helpers
    of util.rs), [IntentScope] (intent/scope.rs), [UsageStore]
    (intent/usage_store.rs), [Canonical] (canonical.rs),
    [A4PCrypto] (security.rs, the rest of util.rs), [WebAuthnData]
    (user_signature/webauthn.rs up to the method),
    [CredentialStore] (credential_store.rs), [Mandate] (mandate_security.rs,
    authorization_common.rs, user_signature/contracts.rs, the signing modules,
    normal forms), [Ed25519] (user_signature/ed25519.rs), [WebAuthn]
    (the method of webauthn.rs), [IntentMandate]
    (creating and verifying, intent/mandate.rs and
    operation/mandate.rs), [IntentToken] (intent/token.rs), [IntentService]
    (intent/service.rs), [IntentFlow] (prepare, sign
    and complete together), [OperationService] (operation/service.rs),
    [A4PServer] (server.rs, user_authorizer.rs) and
    [A4PHttp] (the wire form of types.rs, http_server.rs, client.rs).
    [Ticket] is the abstract machine of one-time authorizations, and
    [UsageStore.counter_step] the abstract counter of a token.
    [A4PExamples] is a concrete server on which the theorems apply.

    MCP (MCP/rust-sdk/src), bottom up.  [Serde] (the codecs that serde derives,
    with their laws), [McpTypes] (types.rs), [McpProtocol] (error.rs,
    protocol.rs), [McpSchema] (schema.rs, sampling_validation.rs), [McpServer]
    (server/tool_manager.rs, resource_manager.rs, prompt_manager.rs and the
    dispatch of server/mod.rs), [McpSession] (session.rs, transport/mod.rs,
    server/session.rs and the sending side of
    transport/streamable_http_server.rs), [McpHttp] (auth.rs, the rest of
    streamable_http_server.rs, server/manager.rs) and [McpClient]
    (client/session.rs, client/mod.rs, transport/streamable_http_client.rs).
    The facts are in [McpReplies] (the invariant of a session and its
    transport, and what a posted request is answered), [McpManager] (the table
    of sessions, their isolation and their life; a concrete server) and
    [McpEndToEnd] (requests are settled once; a client and a server together;
    a concrete client).

    * How the code is rendered

    Structs are records and enums inductive types, with the source's names
    where they do not clash.  Fallible code returns [result], and [let?] is the
    [?] operator.  What a mutex protects is a record that the operations take
    and return; one locked operation is one step, and operations interleave as
    steps of [store_step] and [node_step].  The wall clock, the monotonic
    clock, random tokens and the answers of the file system are sequences in
    the environment, read one after the other by a counter ([ticks]), so that
    no theorem assumes a clock that stands still or only moves forward; the
    environment may change from one step to the next.  Integers of 64 bits
    wrap; clock readings are IEEE numbers.  Code outside the repository is an
    interface: SHA-256 and hex ([Digest]), the JSON text codecs of serde_json
    ([StateFile], [RecordCodec], [SerdeJson], [AuthCodec], [A2AText]), HashMap's
    iteration order
    ([HashIter]), the peers ([Transport]); for A4P the keys, signatures, hashes
    and encodings ([Crypto]), the calendar ([Chrono]), JSON strings and float
    digits ([JsonText], [JsonDisplay]), CBOR, P-256 and RSA ([WebAuthnCrates]),
    files ([CredentialFile]) and the HTTP layer's JSON ([HttpJson]).  What a
    theorem needs of them is a class of laws beside them ([CryptoLaws] and the
    like).  Each has a concrete instance, used where a theorem is applied to a
    closed example.  A4P's traits are records of operations over the state
    behind them; what their clients rely on is a class
    ([CredentialStoreSpec]) that the in-memory store fulfils.  Clock readings
    and random bytes of an A4P call are its arguments, one per reading, in the
    order the code makes them.

    In A2A an executor is the list of calls it makes on its updater and the
    result it returns; its calls are steps of [server_step] like those of any
    other request, so theorems on reachable servers speak of all interleavings.
    What a connection is sent is a log.  A request up to the call of its
    executor is one step, and so is the processing of an event; where the code
    takes its locks one after the other and that matters, the operation has a
    hole for what other threads do ([begin_send_amid]) or is cut in two
    ([process_found]).  The task store is the in-memory one.  A client is one
    state for [Inner] of the client and of its transport; callbacks shared by
    [Arc] are looked up again where the code still holds them ([release]), a
    sender that is dropped ends its request as abandoned, and an HTTP exchange
    is its answer: a failure, or a status with a body in chunks.

    In MCP the state of one server session with its transport is a [World], and
    [world_step] is what the scheduler may do next: an HTTP request arrives
    (one step, for it has no suspension point that another request sees), a
    task hands its next message to the session, a handler returns.  Handlers
    are functions of the application, or answers that come later; [quiet] says
    of a run that nothing is cancelled in it.  A [Manager] is the table of
    worlds.  A [Client] is the client object with its session and its
    transport; each message sent is a [Post], a task that goes to the network,
    takes the answer and hands what it carries to the session.  The text of
    JSON ([JsonReader], McpTypes' [JsonText]), regular expressions and the
    printing of floats ([SchemaLib]) and the validity of a header ([HttpLib])
    are interfaces.  A client that initializes again gets a new session at
    once; what tasks still await of the old one is not followed.

    Some recursions run on fuel.  [strip_all] (trimming) removes at least one
    byte per round and gets the string's length; [feed_loop] (the parser's
    [while let]) consumes at least one byte per round and gets one more than
    the buffer's length, and a theorem of [Sse] proves that this is enough;
    glob matching ([match_here]) consumes at least one character of the pattern
    per call and gets one more than the pattern's length, and [IntentScope] proves
    that it decides the pattern's language; the schema check ([validate_at])
    goes into a part of the schema per call and gets one more than its depth,
    and [validate_enough] proves that more changes nothing; splitting a list of
    scopes removes at least one byte per round.  Everything else is structural.

    * What the theorems show

    Replication: a batch of envelopes moves every key as the register says, in
    any order, batching or redelivery, so replicas that saw the same envelopes
    agree; no batch takes a key back or writes outside the caller's namespaces;
    one anti-entropy round leaves both sides with the newer version of every
    shared third-party record, up to SHA-256 collisions; every reachable node
    is well formed.  Local writes: versions minted are strictly increasing and
    newer than everything remembered, also after a restart from the file;
    expiry forgets only tombstones past the retention.  Access: what a caller
    without the session secret is shown, may write, or may do to the
    membership; which namespaces a handshake grants.  Membership: merging is
    the register plus self-eviction, removals outversion what they remove,
    sessions follow the roster, the roster survives a restart.  Leases: each
    lease follows its machine and lives until its grace deadline.  Wire
    formats: parsing inverts printing, and streaming does not depend on
    chunking; two theorems pin down where the code falls short (a CR at the end
    of a chunk, a [null] result).  A4P: signed texts are injective, so what is
    signed is what was meant; an accepted signature is the registered user's,
    for this mandate, and a WebAuthn assertion is accepted once; a prepared
    mandate that the user signs in time goes through, and the token it yields
    authorizes exactly the mandate's scope until its end; no mandate or
    operation is approved twice and no token executes more often than its
    limit; matching decides the scope language; published keys verify what the
    server signs; over HTTP the client reads what the server answered.  Registry
    authorization: every reachable store is well formed in memory and on disk;
    a token enters exactly as the principal of its live key, never again after
    the key is revoked, and an endpoint or a dataset is open to nobody else.
    A2A: a final task stays as it is; a message is answered at most once, and
    with what the call that ends it leaves; a stream is served every event up
    to the one that ends the turn; the readers accept exactly what the writers
    write; the client's handler hears the execution in order, however the
    stream is cut, and ends with the stored task; every request of a client
    ends once in any interleaving.  MCP: every value of the wire types is read
    back as it was written; a request that is posted to a session is answered
    with what its handler returned, once, in every interleaving without
    cancellations, and the application sees no request before the client is
    initialized; a request reaches the session it names and no other, sessions
    start with an initialize and end with a DELETE; paging through a registry
    lists everything once; the schema check is what the schema says; a call of
    the client is settled at most once, and with the answer of the server's
    application; no tool result that breaks the tool's schema is handed on.
    Theorems that pin down where these fall
    short: a revocation whose write failed is lost ([AuthAccess]),
    a task that ends while a message for it is on its way comes back,
    and so does one whose event waited for the lock ([A2AAnswers]), a stream that continues a task
    waiting for input ends after its snapshot ([A2AServer]), one push
    configuration is asked for and the first is answered
    ([A2APush]), a body that does not parse is answered as an
    internal error ([A2AServer]), a stream answered with a JSON document
    is left open ([left_open] of [A2AClientRun]), a request that fails after
    it was cancelled takes the sink of a later one with its id ([McpManager]), a
    page size of zero never advances ([McpServer]).  Five
    theorems pin down where A4P falls short: [limit_void_at_expiry],
    [padded_user_never_completes], [registration_takes_over],
    [json_store_save_overwrites] and null entries lost over HTTP.

    * What is not modelled

    The axum routers, the HTTP transport, the command line, thread scheduling
    beyond the interleaving of locked operations, environment-variable parsing
    and logging are glue.  Of A4P, the SQLite usage store (the same table in a
    third-party database), sockets and timeouts, typed requests and the
    cryptographic algorithms themselves are left out.  Of A2A, agent cards (plain
    data with derived codecs, a parameter here), builders, call contexts, the
    headers and timeouts of HTTP requests and the helpers of utils that nothing
    calls are left out.  Of MCP, the stdio transports, sockets, TLS, listeners
    and logging are left out.  The dataset services of a2x-registry and its
    HTTP backend, the LLM-driven search of a2x-search and the registry client
    are not modelled; nor are the C++ and Python originals. *)
From stdpp Require Export base option list strings numbers gmap pretty sorting.
From Stdlib Require Export ZArith Lia.
From Stdlib Require Import Ascii.

(** * Notation scope of the development *)

Declare Scope rust_scope.
Delimit Scope rust_scope with rust.
Open Scope rust_scope.

#[global] Arguments String.append !_ _ / : simpl nomatch.

(** * [Result<T, E>] *)

(** Rust's [Result]: fallible operations return the error as a value. *)
Inductive result (A E : Type) : Type :=
| Ok (a : A)
| Err (e : E).
Arguments Ok {A E} a.
Arguments Err {A E} e.

(** Rust's [?] operator: return early with the error. *)
Notation "'let?' x := m 'in' k" :=
  (match m with Ok x => k | Err e => Err e end)
  (at level 10, x pattern, m at level 200, k at level 200)
  : rust_scope.

(** [Result::map_err]. *)
Definition map_err {A E F} (f : E → F) (r : result A E) : result A F :=
  match r with Ok a => Ok a | Err e => Err (f e) end.

Definition is_ok {A E} (r : result A E) : Prop := match r with Ok _ => True | Err _ => False end.

(** [Option::ok_or]. *)
Definition ok_or {A E} (o : option A) (e : E) : result A E :=
  match o with Some a => Ok a | None => Err e end.

(** [iter.map(f).collect::<Result<Vec<_>, _>>()]: the first error wins. *)
Fixpoint collect_results {A B E} (f : A → result B E) (l : list A) : result (list B) E :=
  match l with
  | [] => Ok []
  | a :: l' => let? b := f a in let? bs := collect_results f l' in Ok (b :: bs)
  end.

(** * Machine integers *)

(** Signed 64-bit integers are integers of [Z]; arithmetic that the code does
    on them wraps around as a release build does. *)
Definition i64_min : Z := - 2 ^ 63.
Definition i64_max : Z := 2 ^ 63 - 1.
Definition u64_max : Z := 2 ^ 64 - 1.
Definition u32_max : Z := 2 ^ 32 - 1.
Definition wrap_i64 (z : Z) : Z := ((z + 2 ^ 63) mod 2 ^ 64 - 2 ^ 63)%Z.
Definition in_i64 (z : Z) : Prop := (i64_min ≤ z ≤ i64_max)%Z.
Definition i64_add (a b : Z) : Z := wrap_i64 (a + b).
Definition i64_sub (a b : Z) : Z := wrap_i64 (a - b).

Lemma wrap_i64_id z : in_i64 z → wrap_i64 z = z.
Proof. unfold in_i64, i64_min, i64_max, wrap_i64. intros. rewrite Z.mod_small; lia. Qed.

Lemma wrap_i64_range z : in_i64 (wrap_i64 z).
Proof.
  unfold in_i64, i64_min, i64_max, wrap_i64.
  pose proof (Z.mod_pos_bound (z + 2 ^ 63) (2 ^ 64) ltac:(lia)). lia.
Qed.

Lemma i64_add_id a b : in_i64 (a + b) → i64_add a b = (a + b)%Z.
Proof. apply wrap_i64_id. Qed.

(** * Automation *)

(** Decide the equalities of literals a lookup leaves behind. *)
Ltac decide_literals :=
  repeat first [rewrite decide_True by done | rewrite decide_False by done].

(** Split the first [if] of the goal, turning integer comparisons into facts. *)
Ltac case_if :=
  match goal with
  | |- context [if (?a <? ?b)%Z then _ else _] => destruct (Z.ltb_spec a b)
  | |- context [if (?a <=? ?b)%Z then _ else _] => destruct (Z.leb_spec a b)
  | |- context [if (?a =? ?b)%Z then _ else _] => destruct (Z.eqb_spec a b)
  | |- context [if decide ?P then _ else _] => destruct (decide P)
  | |- context [if ?b then _ else _] => destruct b eqn:?
  end.

(** Destruct the scrutinee of the first [match] of the goal or of [H]. *)
Ltac case_match_goal :=
  match goal with |- context [match ?x with _ => _ end] => destruct x eqn:? end.

Create HintDb rust.
#[export] Hint Extern 1 (in_i64 _) => (unfold in_i64, i64_min, i64_max in *; lia) : rust.
#[export] Hint Resolve wrap_i64_id wrap_i64_range i64_add_id : rust.

(** * Rust's [Ord]: total orders given by a comparison function *)

Class Ord (A : Type) := cmp : A → A → comparison.
#[export] Hint Mode Ord ! : typeclass_instances.

Class OrdLaws (A : Type) `{!Ord A} : Prop := {
  cmp_eq_iff (x y : A) : cmp x y = Eq ↔ x = y;
  cmp_opp (x y : A) : cmp y x = CompOpp (cmp x y);
  cmp_lt_trans (x y z : A) : cmp x y = Lt → cmp y z = Lt → cmp x z = Lt
}.

(** [a < b], [a > b] as the operators derived from [Ord::cmp]. *)
Definition ltb {A} `{!Ord A} (x y : A) : bool :=
  match cmp x y with Lt => true | _ => false end.
Definition gtb {A} `{!Ord A} (x y : A) : bool :=
  match cmp x y with Gt => true | _ => false end.
Definition cmp_le {A} `{!Ord A} (x y : A) : Prop := cmp x y ≠ Gt.

#[export] Instance cmp_le_dec {A} `{!Ord A} (x y : A) : Decision (cmp_le x y).
Proof. unfold cmp_le. destruct (cmp x y); [left|left|right]; congruence. Defined.

Section ord_laws.
Context {A : Type} `{!Ord A, !OrdLaws A}.
Implicit Types x y z : A.

Lemma cmp_refl x : cmp x x = Eq.
Proof. by apply cmp_eq_iff. Qed.

Lemma ltb_irrefl x : ltb x x = false.
Proof. unfold ltb. by rewrite cmp_refl. Qed.

Lemma gtb_ltb x y : gtb x y = ltb y x.
Proof. unfold gtb, ltb. rewrite (cmp_opp x y). by destruct (cmp x y). Qed.

Lemma ltb_trans x y z : ltb x y = true → ltb y z = true → ltb x z = true.
Proof.
  unfold ltb. destruct (cmp x y) eqn:?, (cmp y z) eqn:?; try done.
  intros _ _. by rewrite (cmp_lt_trans x y z).
Qed.

Lemma ltb_asym x y : ltb x y = true → ltb y x = false.
Proof. unfold ltb. rewrite (cmp_opp x y). by destruct (cmp x y). Qed.

Lemma ltb_total x y : ltb x y = false → ltb y x = false → x = y.
Proof.
  unfold ltb. rewrite (cmp_opp x y).
  destruct (cmp x y) eqn:E; try done. intros _ _. by apply cmp_eq_iff.
Qed.

Lemma ltb_ge_trans x y z : ltb y x = false → ltb y z = true → ltb x z = true.
Proof.
  intros H1 H2. destruct (ltb x y) eqn:E; [by apply (ltb_trans x y z)|].
  by rewrite (ltb_total x y).
Qed.

#[export] Instance cmp_le_total : Total (cmp_le (A := A)).
Proof.
  intros x y. unfold cmp_le. rewrite (cmp_opp x y). destruct (cmp x y); naive_solver.
Qed.

#[export] Instance cmp_le_trans : Transitive (cmp_le (A := A)).
Proof.
  intros x y z. unfold cmp_le. intros H1 H2 H3.
  assert (H3' : cmp z x = Lt) by (rewrite (cmp_opp x z), H3; done).
  destruct (cmp x y) eqn:E1; [|clear H1|done].
  - apply cmp_eq_iff in E1 as ->. done.
  - apply H2. rewrite (cmp_opp z y). rewrite (cmp_lt_trans z x y); done.
Qed.

#[export] Instance cmp_le_antisymm : AntiSymm (=) (cmp_le (A := A)).
Proof.
  intros x y. unfold cmp_le. rewrite (cmp_opp x y). intros H1 H2.
  destruct (cmp x y) eqn:E; [|done..]. by apply cmp_eq_iff.
Qed.
End ord_laws.

#[export] Instance Ord_Z : Ord Z := Z.compare.
#[export] Instance OrdLaws_Z : OrdLaws Z.
Proof.
  split; unfold cmp, Ord_Z.
  - apply Z.compare_eq_iff.
  - apply Z.compare_antisym.
  - intros x y z. rewrite !Z.compare_lt_iff. lia.
Qed.

(** Strings are UTF-8 byte sequences: [str]'s order is the bytewise
    lexicographic one. *)
#[export] Instance Ord_string : Ord string := String.compare.

Lemma string_compare_lt_trans (x y z : string) :
  String.compare x y = Lt → String.compare y z = Lt → String.compare x z = Lt.
Proof.
  revert y z. induction x as [|a x IH]; intros [|b y] [|c z]; simpl; try done.
  unfold Ascii.compare.
  destruct (N.compare_spec (N_of_ascii a) (N_of_ascii b)) as [Hab|Hab|Hab]; try done;
  destruct (N.compare_spec (N_of_ascii b) (N_of_ascii c)) as [Hbc|Hbc|Hbc]; try done;
  destruct (N.compare_spec (N_of_ascii a) (N_of_ascii c)) as [Hac|Hac|Hac];
  try done; try (exfalso; lia). apply IH.
Qed.

#[export] Instance OrdLaws_string : OrdLaws string.
Proof.
  split; unfold cmp, Ord_string.
  - intros x y. split; [apply String.compare_eq_iff|intros ->].
    induction y as [|a y IH]; simpl; [done|].
    unfold Ascii.compare. by rewrite N.compare_refl.
  - intros x y. apply String.compare_antisym.
  - apply string_compare_lt_trans.
Qed.

(** [a.cmp(&b).then_with(..)]: tuples are compared lexicographically. *)
#[export] Instance Ord_prod {A B} `{!Ord A, !Ord B} : Ord (A * B) := λ p q,
  match cmp p.1 q.1 with Eq => cmp p.2 q.2 | c => c end.
#[export] Instance OrdLaws_prod {A B} `{!Ord A, !Ord B, !OrdLaws A, !OrdLaws B} :
  OrdLaws (A * B).
Proof.
  split; unfold cmp, Ord_prod.
  - intros [a b] [a' b']; simpl. destruct (cmp a a') eqn:E.
    + apply cmp_eq_iff in E as ->. rewrite cmp_eq_iff. naive_solver.
    + split; [done|]. intros [= -> ->]. by rewrite cmp_refl in E.
    + split; [done|]. intros [= -> ->]. by rewrite cmp_refl in E.
  - intros [a b] [a' b']; simpl. rewrite (cmp_opp a a').
    destruct (cmp a a'); simpl; [apply cmp_opp|done..].
  - intros [a b] [a' b'] [a'' b'']; simpl.
    destruct (cmp a a') eqn:E1, (cmp a' a'') eqn:E2; try done.
    + apply cmp_eq_iff in E1 as ->, E2 as ->. rewrite cmp_refl. apply cmp_lt_trans.
    + apply cmp_eq_iff in E1 as ->. by rewrite E2.
    + apply cmp_eq_iff in E2 as ->. by rewrite E1.
    + by rewrite (cmp_lt_trans a a' a'').
Qed.

(** [slice::sort]. *)
Definition sort {A} `{!Ord A} (l : list A) : list A := merge_sort cmp_le l.

Section sort.
Context {A : Type} `{!Ord A, !OrdLaws A}.

Lemma sort_Permutation (l : list A) : sort l ≡ₚ l.
Proof. apply merge_sort_Permutation. Qed.

Lemma sort_Sorted (l : list A) : StronglySorted cmp_le (sort l).
Proof. apply (StronglySorted_merge_sort cmp_le). Qed.

Lemma sort_perm_eq (l1 l2 : list A) : l1 ≡ₚ l2 → sort l1 = sort l2.
Proof.
  intros Hp. apply (StronglySorted_unique cmp_le); [apply sort_Sorted..|].
  by rewrite !sort_Permutation.
Qed.

Lemma elem_of_sort (x : A) l : x ∈ sort l ↔ x ∈ l.
Proof. by rewrite sort_Permutation. Qed.
End sort.

(** * Lists *)

Section filter.
Context {A : Type} (P : A → Prop) `{!∀ x, Decision (P x)}.

Lemma list_filter_all l : Forall P l → filter P l = l.
Proof.
  induction 1 as [|x l Hx Hl IH]; [done|]. rewrite filter_cons, decide_True by done. by rewrite IH.
Qed.

End filter.
