(* ===== verification/OpMonad.v ===== *)
(** Operations on a state that may fail: the result is paired with the state
    left behind, on failure too.  [wp m Q F s] says what an operation does
    from [s]: it returns with [Q], or fails with [F] of the state. *)
From S2P Require Import Prelude.

Definition Op (S E A : Type) : Type := S → result A E * S.

Section op.
Context {S : Type}.

#[export] Instance op_ret {E} : MRet (Op S E) := λ A x s, (Ok x, s).
#[export] Instance op_bind {E} : MBind (Op S E) := λ A B f m s,
  match m s with (Ok x, s) => f x s | (Err e, s) => (Err e, s) end.

Definition op_fail {E A} (e : E) : Op S E A := λ s, (Err e, s).
Definition op_lift {E A} (r : result A E) : Op S E A := λ s, (r, s).
(** Reading a part of the state, and changing the state. *)
Definition op_gets {E A} (f : S → A) : Op S E A := λ s, (Ok (f s), s).
Definition op_modify {E} (f : S → S) : Op S E () := λ s, (Ok (), f s).
(** [map_err] on the answer. *)
Definition op_map_err {E F A} (f : E → F) (m : Op S E A) : Op S F A := λ s,
  let '(r, s) := m s in (map_err f r, s).
(** Dropping the error, as [if let Err(e)] with a log line does. *)
Definition op_ignore {E F A} (m : Op S E A) : Op S F () := λ s, (Ok (), (m s).2).

Definition wp {E A} (m : Op S E A) (Q : A → S → Prop) (F : S → Prop) (s : S) : Prop :=
  match m s with (Ok x, s) => Q x s | (Err _, s) => F s end.

Lemma wp_bind {E A B} (m : Op S E A) (f : A → Op S E B) Q F s :
  wp m (λ x, wp (f x) Q F) F s → wp (m ≫= f) Q F s.
Proof. unfold wp, mbind, op_bind. by destruct (m s) as [[] ?]. Qed.
Lemma wp_ret {E A} (x : A) (Q : A → S → Prop) F s : Q x s → wp (mret x : Op S E A) Q F s.
Proof. done. Qed.
Lemma wp_fail {E A} (e : E) (Q : A → S → Prop) (F : S → Prop) s : F s → wp (op_fail e) Q F s.
Proof. done. Qed.
Lemma wp_lift {E A} (r : result A E) (Q : A → S → Prop) (F : S → Prop) s :
  (∀ x, r = Ok x → Q x s) → (∀ e, r = Err e → F s) → wp (op_lift r) Q F s.
Proof. unfold wp, op_lift. destruct r; naive_solver. Qed.
Lemma wp_gets {E A} (f : S → A) (Q : A → S → Prop) F s : Q (f s) s → wp (E := E) (op_gets f) Q F s.
Proof. done. Qed.
Lemma wp_modify {E} (f : S → S) (Q : () → S → Prop) F s : Q () (f s) → wp (E := E) (op_modify f) Q F s.
Proof. done. Qed.
Lemma wp_map_err {E E' A} (f : E → E') (m : Op S E A) Q F s :
  wp m Q F s → wp (op_map_err f m) Q F s.
Proof. unfold wp, op_map_err. by destruct (m s) as [[] ?]. Qed.
Lemma wp_mono {E A} (m : Op S E A) (Q Q' : A → S → Prop) (F F' : S → Prop) s :
  wp m Q F s → (∀ x s, Q x s → Q' x s) → (∀ s, F s → F' s) → wp m Q' F' s.
Proof. unfold wp. destruct (m s) as [[] ?]; auto. Qed.
Lemma wp_any {E A} (m : Op S E A) (Q : A → S → Prop) (F : S → Prop) s :
  (∀ x s, Q x s) → (∀ s, F s) → wp m Q F s.
Proof. unfold wp. destruct (m s) as [[] ?]; auto. Qed.
Lemma wp_state {E A} (m : Op S E A) I s : wp m (λ _, I) I s → I (m s).2.
Proof. unfold wp. by destruct (m s) as [[] ?]. Qed.
Lemma wp_Ok {E A} (m : Op S E A) Q F s x s' : wp m Q F s → m s = (Ok x, s') → Q x s'.
Proof. unfold wp. intros Hw Hm. by rewrite Hm in Hw. Qed.
Lemma wp_Err {E A} (m : Op S E A) Q F s e s' : wp m Q F s → m s = (Err e, s') → F s'.
Proof. unfold wp. intros Hw Hm. by rewrite Hm in Hw. Qed.

(** Running after a common prefix. *)
Lemma bind_same {E A B} (m : Op S E A) (f g : A → Op S E B) s :
  (∀ x s, (f x s).2 = (g x s).2) → ((m ≫= f) s).2 = ((m ≫= g) s).2.
Proof. unfold mbind, op_bind. destruct (m s) as [[] ?]; auto. Qed.
End op.

(** An operation on a part of the state. *)
Definition op_zoom {S T E A} (get : S → T) (set : T → S → S) (m : Op T E A) : Op S E A := λ s,
  let '(r, t) := m (get s) in (r, set t s).

Ltac wp_op :=
  lazymatch goal with
  | |- wp (@mbind _ _ _ _ _ _) _ _ _ => apply wp_bind
  | |- wp (@mret _ _ _ _) _ _ _ => apply wp_ret
  | |- wp (op_fail _) _ _ _ => apply wp_fail
  | |- wp (op_lift _) _ _ _ => apply wp_lift; [intros ? ?|intros ? Hfail]
  | |- wp (op_gets _) _ _ _ => apply wp_gets
  | |- wp (op_modify _) _ _ _ => apply wp_modify
  | |- wp (op_map_err _ _) _ _ _ => apply wp_map_err
  end.
