(* ===== verification/RustMap.v ===== *)
(** The collections of the Rust code.

    [IndexMap] (crate indexmap) and [serde_json::Map] (built with its
    preserve_order feature) keep insertion order; [BTreeMap] keeps key order;
    both are association lists here, with one insertion function each, so that
    every iteration the code does has the order the code sees.  [BTreeSet] is
    the sorted list of its elements.  [HashMap] is stdpp's [gmap]; its
    iteration order is unspecified, and code that iterates over one goes
    through the class [HashIter], an arbitrary permutation. *)
From S2P Require Import Prelude.

(** * Association lists *)

Section assoc.
Context {K V : Type} `{!EqDecision K}.
Implicit Types (m : list (K * V)) (k : K) (v : V).

(** [map.get(&k)]. *)
Fixpoint aget (k : K) (m : list (K * V)) : option V :=
  match m with
  | [] => None
  | (k', v) :: m' => if decide (k = k') then Some v else aget k m'
  end.

(** [map.contains_key(&k)]. *)
Definition ahas (k : K) (m : list (K * V)) : bool :=
  match aget k m with Some _ => true | None => false end.

Definition akeys (m : list (K * V)) : list K := m.*1.
Definition avalues (m : list (K * V)) : list V := m.*2.

(** [map.shift_remove(&k)] / [BTreeMap::remove]: order of the rest kept. *)
Definition aremove (k : K) (m : list (K * V)) : list (K * V) :=
  filter (λ p, p.1 ≠ k) m.

(** [map.retain(|k, v| f(k, v))]. *)
Definition aretain (f : K → V → bool) (m : list (K * V)) : list (K * V) :=
  filter (λ p, f p.1 p.2 = true) m.

(** [IndexMap::insert]: replace in place, else append. *)
Fixpoint im_insert (k : K) (v : V) (m : list (K * V)) : list (K * V) :=
  match m with
  | [] => [(k, v)]
  | (k', v') :: m' =>
      if decide (k = k') then (k, v) :: m' else (k', v') :: im_insert k v m'
  end.

(** Two association lists that answer every lookup alike. *)
Definition aeq (m1 m2 : list (K * V)) : Prop := ∀ k, aget k m1 = aget k m2.

#[export] Instance aeq_equiv : Equivalence aeq.
Proof.
  split; unfold aeq.
  - done.
  - intros m1 m2 H k. by rewrite H.
  - intros m1 m2 m3 H1 H2 k. by rewrite H1, H2.
Qed.

#[export] Instance aget_proper k : Proper (aeq ==> eq) (aget k).
Proof. intros m1 m2 H. apply H. Qed.

#[export] Instance ahas_proper k : Proper (aeq ==> eq) (ahas k).
Proof. intros m1 m2 H. unfold ahas. by rewrite H. Qed.

Lemma aget_Some_elem k v m : aget k m = Some v → (k, v) ∈ m.
Proof.
  induction m as [|[k' v'] m IH]; simpl; [done|].
  case_decide; intros; simplify_eq; set_solver.
Qed.

Lemma aget_None_keys k m : aget k m = None ↔ k ∉ akeys m.
Proof.
  unfold akeys. induction m as [|[k' v'] m IH]; simpl; [set_solver|].
  rewrite not_elem_of_cons. case_decide; naive_solver.
Qed.

Lemma aget_elem k v m : NoDup (akeys m) → (k, v) ∈ m → aget k m = Some v.
Proof.
  unfold akeys. induction m as [|[k' v'] m IH]; simpl; [set_solver|].
  rewrite NoDup_cons, elem_of_cons. intros [Hnk Hnd] [[= -> ->]|Hin].
  - by rewrite decide_True.
  - rewrite decide_False; [by apply IH|]. intros ->.
    apply Hnk. apply list_elem_of_fmap. by exists (k', v).
Qed.

Lemma aget_elem_iff k v m : NoDup (akeys m) → aget k m = Some v ↔ (k, v) ∈ m.
Proof. split; [apply aget_Some_elem|by apply aget_elem]. Qed.

Lemma ahas_true k m : ahas k m = true ↔ is_Some (aget k m).
Proof. unfold ahas. destruct (aget k m); split; intros H; [eauto|done..|by destruct H]. Qed.

Lemma ahas_false k m : ahas k m = false ↔ aget k m = None.
Proof. unfold ahas. destruct (aget k m); naive_solver. Qed.

Lemma aget_im_insert k k' v m :
  aget k (im_insert k' v m) = if decide (k = k') then Some v else aget k m.
Proof.
  induction m as [|[k1 v1] m IH]; simpl; [done|].
  destruct (decide (k' = k1)) as [->|]; simpl.
  - by destruct (decide (k = k1)).
  - rewrite IH. repeat case_decide; congruence.
Qed.

Lemma im_insert_fresh k v m : aget k m = None → im_insert k v m = m ++ [(k, v)].
Proof.
  induction m as [|[k1 v1] m IH]; simpl; [done|]. case_decide; [done|]. intros. by rewrite IH.
Qed.

Lemma aget_im_insert_eq k v m : aget k (im_insert k v m) = Some v.
Proof. rewrite aget_im_insert. by rewrite decide_True. Qed.

Lemma aget_im_insert_ne k k' v m :
  k ≠ k' → aget k (im_insert k' v m) = aget k m.
Proof. intros. rewrite aget_im_insert. by rewrite decide_False. Qed.

Lemma aget_aremove k k' m :
  aget k (aremove k' m) = if decide (k = k') then None else aget k m.
Proof.
  unfold aremove. induction m as [|[k1 v1] m IH]; [by case_decide|].
  rewrite filter_cons; simpl. destruct (decide (k1 ≠ k')) as [Hne|Heq]; simpl.
  - rewrite IH. repeat case_decide; congruence.
  - rewrite IH. assert (k1 = k') as -> by (by destruct (decide (k1 = k'))).
    repeat case_decide; congruence.
Qed.

Lemma aget_aretain f k m :
  NoDup (akeys m) →
  aget k (aretain f m) =
    match aget k m with
    | Some v => if f k v then Some v else None
    | None => None
    end.
Proof.
  unfold aretain, akeys. induction m as [|[k1 v1] m IH]; simpl; [done|].
  rewrite NoDup_cons. intros [Hnk Hnd]. specialize (IH Hnd).
  rewrite filter_cons; simpl.
  destruct (decide (k = k1)) as [->|Hne].
  - destruct (decide (f k1 v1 = true)) as [Hf|Hf]; simpl.
    + by rewrite decide_True, Hf by done.
    + rewrite IH. apply aget_None_keys in Hnk. unfold akeys in Hnk. rewrite Hnk.
      by destruct (f k1 v1).
  - case_decide; simpl; [rewrite decide_False by done|]; done.
Qed.

Lemma elem_of_aretain f k v m : (k, v) ∈ aretain f m ↔ f k v = true ∧ (k, v) ∈ m.
Proof. unfold aretain. by rewrite list_elem_of_filter. Qed.

Lemma akeys_im_insert k v m :
  akeys (im_insert k v m) = if ahas k m then akeys m else akeys m ++ [k].
Proof.
  unfold akeys, ahas. induction m as [|[k1 v1] m IH]; simpl; [done|].
  case_decide; simplify_eq/=; [done|]. rewrite IH. by destruct (aget k m).
Qed.

Lemma im_insert_same k v m : aget k m = Some v → im_insert k v m = m.
Proof.
  induction m as [|[k1 v1] m IH]; simpl; [done|]. destruct (decide (k = k1)) as [->|Hne].
  - by intros [= ->].
  - intros Hk. by rewrite IH.
Qed.

Lemma im_insert_twice k v w m : im_insert k v (im_insert k w m) = im_insert k v m.
Proof.
  induction m as [|[k1 v1] m IH]; simpl; [by rewrite decide_True|].
  destruct (decide (k = k1)) as [->|Hne]; simpl; [by rewrite decide_True|].
  by rewrite decide_False, IH.
Qed.

(** A key that is there keeps its place, so inserting at others commutes. *)
Lemma im_insert_commute j k v w m :
  j ≠ k → is_Some (aget k m) → im_insert j v (im_insert k w m) = im_insert k w (im_insert j v m).
Proof.
  intros Hjk. induction m as [|[k1 v1] m IH]; simpl; [by intros []|].
  destruct (decide (k = k1)) as [<-|Hk]; intros Hm; simpl.
  - do 2 (rewrite (decide_False (P := j = k)) by done; simpl). by rewrite decide_True.
  - destruct (decide (j = k1)) as [<-|Hj]; simpl; rewrite decide_False by done; [done|].
    by rewrite IH.
Qed.

Lemma NoDup_im_insert k v m : NoDup (akeys m) → NoDup (akeys (im_insert k v m)).
Proof.
  intros Hnd. rewrite akeys_im_insert. destruct (ahas k m) eqn:E; [done|].
  apply NoDup_app. apply ahas_false, aget_None_keys in E.
  split; [done|]. split; [set_solver|apply NoDup_singleton].
Qed.

Lemma NoDup_aretain f m : NoDup (akeys m) → NoDup (akeys (aretain f m)).
Proof.
  unfold akeys, aretain. induction m as [|[k1 v1] m IH]; simpl; [done|].
  rewrite NoDup_cons, filter_cons. intros [Hnk Hnd].
  case_decide; simpl; [|by apply IH]. apply NoDup_cons. split; [|by apply IH].
  intros Hin. apply Hnk. apply list_elem_of_fmap in Hin as ([k v] & -> & Hin).
  apply list_elem_of_filter in Hin as [_ Hin]. apply list_elem_of_fmap. by exists (k, v).
Qed.

Lemma NoDup_keys_filter (P : K * V → Prop) `{!∀ x, Decision (P x)} m :
  NoDup (akeys m) → NoDup (akeys (filter P m)).
Proof. intros Hnd. eapply sublist_NoDup; [exact Hnd|]. apply (fmap_sublist fst), sublist_filter. Qed.

Lemma aremove_retain k m : aremove k m = aretain (λ k' _, bool_decide (k' ≠ k)) m.
Proof.
  unfold aremove, aretain. apply list_filter_iff. intros [k' v']; simpl.
  by rewrite bool_decide_eq_true.
Qed.

Lemma NoDup_aremove k m : NoDup (akeys m) → NoDup (akeys (aremove k m)).
Proof. rewrite aremove_retain. apply NoDup_aretain. Qed.

#[export] Instance im_insert_proper k v : Proper (aeq ==> aeq) (im_insert k v).
Proof. intros m1 m2 H k'. rewrite !aget_im_insert. by rewrite (H k'). Qed.

#[export] Instance aremove_proper k : Proper (aeq ==> aeq) (aremove k).
Proof. intros m1 m2 H k'. rewrite !aget_aremove. by rewrite (H k'). Qed.

Lemma elem_of_im_insert k v k' v' m :
  (k, v) ∈ im_insert k' v' m → (k = k' ∧ v = v') ∨ (k, v) ∈ m.
Proof.
  induction m as [|[k1 v1] m IH]; simpl; [set_solver|].
  case_decide; rewrite !elem_of_cons; naive_solver.
Qed.

End assoc.

(** * [BTreeMap]: association lists in key order *)

Section btree.
Context {K V : Type} `{!EqDecision K, !Ord K, !OrdLaws K}.
Implicit Types (m : list (K * V)) (k : K) (v : V).

(** [BTreeMap::insert]. *)
Fixpoint bm_insert (k : K) (v : V) (m : list (K * V)) : list (K * V) :=
  match m with
  | [] => [(k, v)]
  | (k', v') :: m' =>
      match cmp k k' with
      | Lt => (k, v) :: (k', v') :: m'
      | Eq => (k, v) :: m'
      | Gt => (k', v') :: bm_insert k v m'
      end
  end.

Definition bm_sorted (m : list (K * V)) : Prop :=
  StronglySorted (λ x y, cmp x y = Lt) (akeys m).

Lemma aget_bm_insert k k' v m :
  aget k (bm_insert k' v m) = if decide (k = k') then Some v else aget k m.
Proof.
  induction m as [|[k1 v1] m IH]; simpl; [done|].
  destruct (cmp k' k1) eqn:E; simpl.
  - apply cmp_eq_iff in E as ->. by destruct (decide (k = k1)).
  - done.
  - rewrite IH. destruct (decide (k = k1)) as [->|]; [|done].
    rewrite decide_False; [done|]. intros ->. by rewrite cmp_refl in E.
Qed.

Lemma elem_of_keys_bm_insert k k' v m :
  k ∈ akeys (bm_insert k' v m) → k = k' ∨ k ∈ akeys m.
Proof.
  unfold akeys. induction m as [|[k1 v1] m IH]; simpl; [set_solver|].
  destruct (cmp k' k1); simpl; set_solver.
Qed.

Lemma bm_sorted_insert k v m : bm_sorted m → bm_sorted (bm_insert k v m).
Proof.
  unfold bm_sorted. induction m as [|[k1 v1] m IH]; simpl.
  - intros _. repeat constructor.
  - intros Hs. apply StronglySorted_inv in Hs as [Hs Hall].
    destruct (cmp k k1) eqn:E; simpl.
    + apply cmp_eq_iff in E as ->. by constructor.
    + constructor; [by constructor|]. constructor; [done|].
      eapply Forall_impl; [exact Hall|]. intros z. by apply cmp_lt_trans.
    + constructor; [by apply IH|]. apply Forall_forall. intros z Hz.
      apply elem_of_keys_bm_insert in Hz as [->|Hz].
      * rewrite (cmp_opp k k1), E. done.
      * by apply (proj1 (Forall_forall _ _) Hall).
Qed.

Lemma bm_sorted_NoDup m : bm_sorted m → NoDup (akeys m).
Proof.
  unfold bm_sorted, akeys. induction m as [|[k1 v1] m IH]; simpl; [constructor|].
  intros Hs. apply StronglySorted_inv in Hs as [Hs Hall]. constructor; [|by apply IH].
  intros Hin. apply (proj1 (Forall_forall _ _) Hall) in Hin. by rewrite cmp_refl in Hin.
Qed.

Lemma bm_sorted_retain f m : bm_sorted m → bm_sorted (aretain f m).
Proof.
  unfold bm_sorted, aretain, akeys. induction m as [|[k1 v1] m IH]; simpl; [done|].
  intros Hs. apply StronglySorted_inv in Hs as [Hs Hall]. rewrite filter_cons.
  case_decide; [|by apply IH]. simpl. constructor; [by apply IH|].
  apply Forall_forall. intros k Hk. apply list_elem_of_fmap in Hk as (kv & -> & Hin).
  apply list_elem_of_filter in Hin as [_ Hin].
  apply (proj1 (Forall_forall _ _) Hall). apply list_elem_of_fmap. by exists kv.
Qed.

Lemma bm_sorted_remove k m : bm_sorted m → bm_sorted (aremove k m).
Proof. rewrite aremove_retain. apply bm_sorted_retain. Qed.

(** Sorted maps with the same lookups are the same map. *)
Lemma bm_ext m1 m2 : bm_sorted m1 → bm_sorted m2 → aeq m1 m2 → m1 = m2.
Proof.
  unfold bm_sorted. revert m2.
  induction m1 as [|[k1 v1] m1 IH]; intros [|[k2 v2] m2] Hs1 Hs2 Heq.
  - done.
  - specialize (Heq k2). simpl in Heq. by rewrite decide_True in Heq.
  - specialize (Heq k1). simpl in Heq. by rewrite decide_True in Heq.
  - simpl in *. apply StronglySorted_inv in Hs1 as [Hs1 Ha1], Hs2 as [Hs2 Ha2].
    assert (Hout : ∀ k (m : list (K * V)), Forall (λ y, cmp k y = Lt) (akeys m) → aget k m = None).
    { intros k m Hall. apply aget_None_keys. intros Hin.
      apply (proj1 (Forall_forall _ _) Hall) in Hin. by rewrite cmp_refl in Hin. }
    assert (k1 = k2) as ->.
    { destruct (cmp k1 k2) eqn:E; [by apply cmp_eq_iff in E|exfalso..].
      - specialize (Heq k1). simpl in Heq. rewrite decide_True in Heq by done.
        rewrite decide_False in Heq by (intros ->; by rewrite cmp_refl in E).
        rewrite Hout in Heq; [done|]. eapply Forall_impl; [exact Ha2|].
        intros z. by apply cmp_lt_trans.
      - assert (E' : cmp k2 k1 = Lt) by (by rewrite (cmp_opp k1 k2), E).
        specialize (Heq k2). simpl in Heq. rewrite (decide_True (P := k2 = k2)) in Heq by done.
        rewrite decide_False in Heq by (intros ->; by rewrite cmp_refl in E).
        rewrite Hout in Heq; [done|]. eapply Forall_impl; [exact Ha1|].
        intros z. by apply cmp_lt_trans. }
    pose proof (Heq k2) as Hv. simpl in Hv. rewrite !decide_True in Hv by done.
    injection Hv as ->. f_equal. apply IH; [done..|]. intros k.
    specialize (Heq k). simpl in Heq. case_decide; [|done].
    subst. by rewrite !Hout.
Qed.
End btree.

(** * [BTreeSet]: strictly sorted lists *)

Section bset.
Context {A : Type} `{!Ord A, !OrdLaws A}.

(** [BTreeSet::insert]. *)
Fixpoint bs_insert (x : A) (s : list A) : list A :=
  match s with
  | [] => [x]
  | y :: s' =>
      match cmp x y with
      | Lt => x :: y :: s'
      | Eq => y :: s'
      | Gt => y :: bs_insert x s'
      end
  end.

(** [iter.collect::<BTreeSet<_>>()] and [set.extend(iter)]. *)
Definition bs_extend (s l : list A) : list A := foldl (λ s x, bs_insert x s) s l.
Definition bs_of_list (l : list A) : list A := bs_extend [] l.

Lemma elem_of_bs_insert x y s : x ∈ bs_insert y s ↔ x = y ∨ x ∈ s.
Proof.
  induction s as [|z s IH]; simpl; [set_solver|].
  destruct (cmp y z) eqn:E; [apply cmp_eq_iff in E as ->|..]; set_solver.
Qed.

Lemma elem_of_bs_extend x s l : x ∈ bs_extend s l ↔ x ∈ s ∨ x ∈ l.
Proof.
  unfold bs_extend. revert s. induction l as [|y l IH]; intros s; simpl; [set_solver|].
  rewrite IH, elem_of_bs_insert. set_solver.
Qed.

Lemma elem_of_bs_of_list x l : x ∈ bs_of_list l ↔ x ∈ l.
Proof. unfold bs_of_list. rewrite elem_of_bs_extend. set_solver. Qed.

Definition bs_sorted (s : list A) : Prop := StronglySorted (λ x y, cmp x y = Lt) s.

Lemma bs_sorted_insert x s : bs_sorted s → bs_sorted (bs_insert x s).
Proof.
  unfold bs_sorted. induction s as [|y s IH]; simpl.
  - intros _. repeat constructor.
  - intros Hs. pose proof Hs as Hs'. apply StronglySorted_inv in Hs as [Hs Hall].
    destruct (cmp x y) eqn:E; [done| |].
    + constructor; [done|]. constructor; [done|].
      eapply Forall_impl; [exact Hall|]. intros z. by apply cmp_lt_trans.
    + constructor; [by apply IH|]. apply Forall_forall. intros z.
      rewrite elem_of_bs_insert. intros [->|Hz].
      * by rewrite (cmp_opp x y), E.
      * by apply (proj1 (Forall_forall _ _) Hall).
Qed.

Lemma bs_sorted_extend s l : bs_sorted s → bs_sorted (bs_extend s l).
Proof.
  unfold bs_extend. revert s. induction l as [|y l IH]; intros s Hs; simpl; [done|].
  apply IH. by apply bs_sorted_insert.
Qed.

End bset.

(** * [HashMap] iteration *)

(** The order in which a [HashMap] yields its entries is unspecified: any
    permutation of them. *)
Class HashIter := {
  hash_order : ∀ {A : Type}, list A → list A;
  hash_order_perm : ∀ {A : Type} (l : list A), hash_order l ≡ₚ l
}.

Definition hm_iter `{!HashIter} {K V} `{!EqDecision K, !Countable K} (m : gmap K V) : list (K * V) :=
  hash_order (map_to_list m).

(** One concrete order, for evaluating examples. *)
#[export] Instance hash_iter_id : HashIter | 100 :=
  {| hash_order := λ A l, l; hash_order_perm := λ A l, reflexivity l |}.

Lemma elem_of_hm_iter `{!HashIter} {K V} `{!EqDecision K, !Countable K} (m : gmap K V) k v :
  (k, v) ∈ hm_iter m ↔ m !! k = Some v.
Proof. unfold hm_iter. rewrite hash_order_perm. apply elem_of_map_to_list. Qed.

Lemma hm_iter_perm `{!HashIter} {K V} `{!EqDecision K, !Countable K} (m : gmap K V) :
  hm_iter m ≡ₚ map_to_list m.
Proof. apply hash_order_perm. Qed.
