(* ===== verification/RustStr.v ===== *)
(** The [str] methods of the Rust standard library that the modelled code
    calls, on UTF-8 byte strings. *)
From S2P Require Import Prelude.
From Stdlib Require Import Ascii.

(** * Splitting and joining *)

(** [s.split_once(c)]. *)
Fixpoint split_once (c : ascii) (s : string) : option (string * string) :=
  match s with
  | EmptyString => None
  | String a s' =>
      if decide (a = c) then Some (EmptyString, s')
      else '(l, r) ← split_once c s'; Some (String a l, r)
  end.

(** [s.split(c)]: never empty. *)
Fixpoint split_on (c : ascii) (s : string) : list string :=
  match s with
  | EmptyString => [EmptyString]
  | String a s' =>
      if decide (a = c) then EmptyString :: split_on c s'
      else match split_on c s' with
           | [] => [String a EmptyString]
           | x :: xs => String a x :: xs
           end
  end.

(** [parts.join(sep)]. *)
Fixpoint str_join (sep : string) (l : list string) : string :=
  match l with
  | [] => ""
  | [x] => x
  | x :: l' => x +:+ sep +:+ str_join sep l'
  end.

(** [s.contains(c)] for a character [c]. *)
Fixpoint contains_char (c : ascii) (s : string) : bool :=
  match s with
  | EmptyString => false
  | String a s' => bool_decide (a = c) || contains_char c s'
  end.

(** [s.strip_prefix(p)] and [s.starts_with(p)]. *)
Fixpoint strip_prefix (p s : string) : option string :=
  match p, s with
  | EmptyString, _ => Some s
  | String a p', String b s' => if decide (a = b) then strip_prefix p' s' else None
  | _, EmptyString => None
  end.
Definition starts_with (p s : string) : bool :=
  match strip_prefix p s with Some _ => true | None => false end.

(** [s.is_empty()]. *)
Definition str_is_empty (s : string) : bool :=
  match s with EmptyString => true | _ => false end.

(** * [str::trim] *)

Definition byte_str (l : list nat) : string := String.string_of_list_ascii (ascii_of_nat <$> l).

(** The UTF-8 encodings of the Unicode White_Space characters. *)
Definition white_space : list string :=
  byte_str <$>
  [[9]; [10]; [11]; [12]; [13]; [32]; [194; 133]; [194; 160]; [225; 154; 128];
   [226; 128; 128]; [226; 128; 129]; [226; 128; 130]; [226; 128; 131]; [226; 128; 132];
   [226; 128; 133]; [226; 128; 134]; [226; 128; 135]; [226; 128; 136]; [226; 128; 137];
   [226; 128; 138]; [226; 128; 168]; [226; 128; 169]; [226; 128; 175]; [226; 129; 159];
   [227; 128; 128]].

Fixpoint strip_first (pats : list string) (s : string) : option string :=
  match pats with
  | [] => None
  | p :: pats => match strip_prefix p s with Some r => Some r | None => strip_first pats s end
  end.

Fixpoint strip_all (fuel : nat) (pats : list string) (s : string) : string :=
  match fuel with
  | O => s
  | S n => match strip_first pats s with Some r => strip_all n pats r | None => s end
  end.

(** One byte goes with every white space removed: the length is enough fuel. *)
Definition trim_start (s : string) : string := strip_all (String.length s) white_space s.
Definition trim_end (s : string) : string :=
  String.rev (strip_all (String.length s) (String.rev <$> white_space) (String.rev s)).
Definition trim (s : string) : string := trim_end (trim_start s).

(** * Integer parsing: [str::parse::<u32>] and its kin *)

Definition digit_val (a : ascii) : option Z :=
  let n := Z.of_N (N_of_ascii a) in
  if (48 <=? n)%Z && (n <=? 57)%Z then Some (n - 48)%Z else None.

Fixpoint digits_acc (s : string) (acc : Z) : option Z :=
  match s with
  | EmptyString => Some acc
  | String a s' => d ← digit_val a; digits_acc s' (acc * 10 + d)%Z
  end.

(** At least one digit. *)
Definition parse_digits (s : string) : option Z :=
  match s with EmptyString => None | _ => digits_acc s 0 end.

Definition check_range (lo hi : Z) (o : option Z) : option Z :=
  z ← o; if (lo <=? z)%Z && (z <=? hi)%Z then Some z else None.

(** Unsigned: an optional [+], digits, no overflow. *)
Definition parse_unsigned (max : Z) (s : string) : option Z :=
  check_range 0 max (parse_digits (default s (strip_prefix "+" s))).
Definition parse_u32 : string → option Z := parse_unsigned u32_max.
Definition parse_u64 : string → option Z := parse_unsigned u64_max.

(** [i64]: an optional sign. *)
Definition parse_i64 (s : string) : option Z :=
  check_range i64_min i64_max
    (match strip_prefix "-" s with
     | Some r => Z.opp <$> parse_digits r
     | None => parse_digits (default s (strip_prefix "+" s))
     end).

(** * Lemmas *)

Lemma str_app_nil_r (s : string) : s +:+ "" = s.
Proof. induction s as [|a s IH]; simpl; [done|]. by rewrite IH. Qed.

Lemma str_app_assoc (a b c : string) : a +:+ (b +:+ c) = (a +:+ b) +:+ c.
Proof. induction a as [|x a IH]; simpl; [done|]. by rewrite IH. Qed.

Lemma split_once_Some c s l r :
  split_once c s = Some (l, r) → s = l +:+ String c r ∧ contains_char c l = false.
Proof.
  revert l. induction s as [|a s IH]; intros l; simpl; [done|].
  case_decide; [intros [= <- <-]; by subst|].
  destruct (split_once c s) as [[l' r']|]; simpl; [|done].
  intros [= <- <-]. destruct (IH l' eq_refl) as [-> Hl]. split; [done|].
  simpl. rewrite Hl, orb_false_r. by apply bool_decide_eq_false.
Qed.

Lemma split_once_None c s : split_once c s = None ↔ contains_char c s = false.
Proof.
  induction s as [|a s IH]; simpl; [done|]. case_decide.
  - rewrite bool_decide_true by done. done.
  - rewrite bool_decide_false by done. simpl. rewrite <-IH.
    destruct (split_once c s) as [[]|]; done.
Qed.

Lemma split_once_app c l r :
  contains_char c l = false → split_once c (l +:+ String c r) = Some (l, r).
Proof.
  induction l as [|a l IH]; simpl.
  - by rewrite decide_True.
  - intros [Ha Hl]%orb_false_iff. apply bool_decide_eq_false in Ha.
    rewrite decide_False, IH by done. done.
Qed.

Lemma str_length_app (s1 s2 : string) :
  String.length (s1 +:+ s2) = (String.length s1 + String.length s2)%nat.
Proof. induction s1 as [|a s1 IH]; simpl; [done|]. by rewrite IH. Qed.

Lemma contains_char_app c s1 s2 :
  contains_char c (s1 +:+ s2) = contains_char c s1 || contains_char c s2.
Proof. induction s1 as [|a s1 IH]; simpl; [done|]. by rewrite IH, orb_assoc. Qed.

Lemma strip_prefix_app p s : strip_prefix p (p +:+ s) = Some s.
Proof. induction p as [|a p IH]; simpl; [done|]. by rewrite decide_True. Qed.

Lemma strip_prefix_Some p s r : strip_prefix p s = Some r ↔ s = p +:+ r.
Proof.
  split; [|intros ->; apply strip_prefix_app].
  revert s. induction p as [|a p IH]; intros [|b s]; simpl; try by intros [=].
  case_decide; [|done]. intros ->%IH. by subst.
Qed.

Lemma split_on_nonempty c s : split_on c s ≠ [].
Proof. destruct s as [|a s]; simpl; [done|]. case_decide; [done|]. by destruct (split_on c s). Qed.

(** Splitting and joining on the separator is the identity. *)
Lemma join_split_on c s : str_join (String c "") (split_on c s) = s.
Proof.
  induction s as [|a s IH]; simpl; [done|]. pose proof (split_on_nonempty c s).
  case_decide; subst; simpl.
  - destruct (split_on c s) as [|x xs] eqn:E; [done|]. by rewrite <-IH.
  - destruct (split_on c s) as [|x xs] eqn:E; [done|]. rewrite <-IH. by destruct xs.
Qed.

Lemma split_on_no_sep c s : Forall (λ x, contains_char c x = false) (split_on c s).
Proof.
  induction s as [|a s IH]; simpl; [by repeat constructor|]. case_decide; [by constructor|].
  pose proof (split_on_nonempty c s).
  destruct (split_on c s) as [|x xs]; simpl; [done|].
  apply Forall_cons in IH as [Hx Hxs]. constructor; [|done]. simpl.
  rewrite Hx, orb_false_r. by apply bool_decide_eq_false.
Qed.

Lemma digit_val_pretty n :
  (n < 10)%N → digit_val (pretty_N_char n) = Some (Z.of_N n).
Proof.
  intros. assert (n = 0 ∨ n = 1 ∨ n = 2 ∨ n = 3 ∨ n = 4 ∨ n = 5 ∨ n = 6 ∨ n = 7 ∨ n = 8 ∨ n = 9)%N
    as H' by lia. repeat (destruct H' as [->|H']; [done|]). by subst.
Qed.

Lemma digits_acc_pretty_go x s : digits_acc (pretty_N_go x s) 0 = digits_acc s (Z.of_N x).
Proof.
  revert s. induction (N.lt_wf_0 x) as [x _ IH]; intros s.
  assert (x = 0 ∨ 0 < x)%N as [->|Hx] by lia; [by rewrite pretty_N_go_0|].
  rewrite pretty_N_go_step by done. rewrite IH by (by apply N.div_lt). simpl.
  rewrite digit_val_pretty by (by apply N.mod_lt). simpl. f_equal.
  rewrite <-(N2Z.inj_mul _ 10), <-N2Z.inj_add. f_equal.
  rewrite N.mul_comm. symmetry. by apply N.div_mod.
Qed.

Lemma pretty_N_go_nonempty x s : (0 < x)%N → pretty_N_go x s ≠ "".
Proof.
  revert s. induction (N.lt_wf_0 x) as [x _ IH]; intros s Hx.
  rewrite pretty_N_go_step by done.
  destruct (decide (x `div` 10 = 0)%N) as [->|Hd]; [by rewrite pretty_N_go_0|].
  apply N.neq_0_lt_0 in Hd. apply IH; [by apply N.div_lt|done].
Qed.

Lemma parse_digits_pretty (n : N) : parse_digits (pretty n) = Some (Z.of_N n).
Proof.
  unfold pretty, pretty_N. case_decide as Hn; [by subst|].
  pose proof (digits_acc_pretty_go n "") as H'. simpl in H'.
  assert (0 < n)%N as Hpos by lia. pose proof (pretty_N_go_nonempty n "" Hpos).
  unfold parse_digits. by destruct (pretty_N_go n "").
Qed.

Lemma pretty_N_no_plus (n : N) : strip_prefix "+" (pretty n) = None.
Proof.
  destruct (strip_prefix "+" (pretty n)) as [r|] eqn:E; [|done].
  apply strip_prefix_Some in E. pose proof (parse_digits_pretty n) as H.
  by rewrite E in H.
Qed.

(** Numbers print to what they parse from. *)
Lemma parse_unsigned_pretty max z :
  (0 ≤ z ≤ max)%Z → parse_unsigned max (pretty z) = Some z.
Proof.
  intros Hz. assert (pretty z = pretty (Z.to_N z)) as ->.
  { destruct z as [|p|p]; [done|done|lia]. }
  unfold parse_unsigned. rewrite pretty_N_no_plus. simpl. rewrite parse_digits_pretty. simpl.
  rewrite Z2N.id by lia.
  by rewrite (proj2 (Z.leb_le _ _) (proj1 Hz)), (proj2 (Z.leb_le _ _) (proj2 Hz)).
Qed.

(** * UTF-8 *)

Definition byte_of (a : ascii) : N := N_of_ascii a.
Definition byte_in (lo hi : N) (a : ascii) : bool := (lo <=? byte_of a)%N && (byte_of a <=? hi)%N.
Definition continuation : ascii → bool := byte_in 128 191.

(** The second byte a three- or four-byte sequence may have after its first. *)
Definition second_of_3 (a b : ascii) : bool :=
  let n := byte_of a in
  if (n =? 224)%N then byte_in 160 191 b
  else if (n =? 237)%N then byte_in 128 159 b
  else continuation b.
Definition second_of_4 (a b : ascii) : bool :=
  let n := byte_of a in
  if (n =? 240)%N then byte_in 144 191 b
  else if (n =? 244)%N then byte_in 128 143 b
  else continuation b.

(** U+FFFD REPLACEMENT CHARACTER. *)
Definition replacement : string := byte_str [239; 191; 189].

(** [String::from_utf8_lossy]: every maximal prefix of an ill-formed sequence
    becomes one replacement character. *)
Fixpoint from_utf8_lossy (s : string) : string :=
  match s with
  | EmptyString => EmptyString
  | String a s1 =>
      if byte_in 0 127 a then String a (from_utf8_lossy s1)
      else if byte_in 194 223 a then
        match s1 with
        | String b s2 =>
            if continuation b then String a (String b (from_utf8_lossy s2))
            else replacement +:+ from_utf8_lossy s1
        | EmptyString => replacement
        end
      else if byte_in 224 239 a then
        match s1 with
        | String b s2 =>
            if second_of_3 a b then
              match s2 with
              | String c s3 =>
                  if continuation c then String a (String b (String c (from_utf8_lossy s3)))
                  else replacement +:+ from_utf8_lossy s2
              | EmptyString => replacement
              end
            else replacement +:+ from_utf8_lossy s1
        | EmptyString => replacement
        end
      else if byte_in 240 244 a then
        match s1 with
        | String b s2 =>
            if second_of_4 a b then
              match s2 with
              | String c s3 =>
                  if continuation c then
                    match s3 with
                    | String d s4 =>
                        if continuation d then
                          String a (String b (String c (String d (from_utf8_lossy s4))))
                        else replacement +:+ from_utf8_lossy s3
                    | EmptyString => replacement
                    end
                  else replacement +:+ from_utf8_lossy s2
              | EmptyString => replacement
              end
            else replacement +:+ from_utf8_lossy s1
        | EmptyString => replacement
        end
      else replacement +:+ from_utf8_lossy s1
  end.

(** The invariant of every [String]: its bytes are well-formed UTF-8. *)
Inductive utf8 : string → Prop :=
| utf8_nil : utf8 EmptyString
| utf8_1 a s : byte_in 0 127 a = true → utf8 s → utf8 (String a s)
| utf8_2 a b s :
    byte_in 194 223 a = true → continuation b = true → utf8 s → utf8 (String a (String b s))
| utf8_3 a b c s :
    byte_in 224 239 a = true → second_of_3 a b = true → continuation c = true → utf8 s →
    utf8 (String a (String b (String c s)))
| utf8_4 a b c d s :
    byte_in 240 244 a = true → second_of_4 a b = true → continuation c = true →
    continuation d = true → utf8 s → utf8 (String a (String b (String c (String d s)))).
#[export] Hint Constructors utf8 : rust.

Lemma byte_in_spec lo hi a : byte_in lo hi a = true ↔ (lo ≤ byte_of a ≤ hi)%N.
Proof. unfold byte_in. rewrite andb_true_iff, !N.leb_le. done. Qed.

Lemma byte_in_disjoint lo hi lo' hi' a :
  byte_in lo hi a = true → (hi < lo' ∨ hi' < lo)%N → byte_in lo' hi' a = false.
Proof.
  intros Ha Hd. apply not_true_is_false. rewrite !byte_in_spec in *. lia.
Qed.

(** Decoding a [String]'s bytes gives the string back. *)
Lemma from_utf8_lossy_utf8 s : utf8 s → from_utf8_lossy s = s.
Proof.
  induction 1 as [|a s Ha Hs IH|a b s Ha Hb Hs IH|a b c s Ha Hb Hc Hs IH
                  |a b c d s Ha Hb Hc Hd Hs IH]; cbn [from_utf8_lossy]; [done|..];
    repeat match goal with
    | Ha : byte_in ?lo ?hi ?a = true |- context [byte_in ?lo' ?hi' ?a] =>
        first [rewrite Ha | rewrite (byte_in_disjoint lo hi lo' hi' a Ha) by lia]
    end; rewrite ?Hb, ?Hc, ?Hd, IH; done.
Qed.

Definition is_ascii (a : ascii) : Prop := byte_in 0 127 a = true.

(** An ASCII byte is never inside a multi-byte sequence. *)
Lemma second_of_3_high a b : second_of_3 a b = true → (128 ≤ byte_of b)%N.
Proof.
  unfold second_of_3, continuation. repeat case_match; rewrite byte_in_spec; lia.
Qed.
Lemma second_of_4_high a b : second_of_4 a b = true → (128 ≤ byte_of b)%N.
Proof.
  unfold second_of_4, continuation. repeat case_match; rewrite byte_in_spec; lia.
Qed.

(** Splitting at an ASCII character leaves strings. *)
Lemma utf8_split_on c s : is_ascii c → utf8 s → Forall utf8 (split_on c s).
Proof.
  unfold is_ascii. rewrite byte_in_spec. intros Hc.
  assert (Hne : ∀ a, (128 ≤ byte_of a)%N → a ≠ c) by (intros a Ha ->; lia).
  assert (Hcons : ∀ a t l, (∀ t, utf8 t → utf8 (a +:+ t)) → split_on c t = l → Forall utf8 l →
    Forall utf8 (match l with [] => [a] | x :: xs => (a +:+ x) :: xs end)).
  { intros a t l Ha <- Hl. pose proof (split_on_nonempty c t).
    destruct (split_on c t); [done|]. apply Forall_cons in Hl as [??]. constructor; auto. }
  induction 1 as [|a s Ha Hs IH|a b s Ha Hb Hs IH|a b d s Ha Hb Hd Hs IH
                  |a b d e s Ha Hb Hd He Hs IH]; cbn [split_on]; [by repeat constructor|..];
    pose proof (split_on_nonempty c s) as Hne'.
  - case_decide; [by repeat constructor|].
    apply (Hcons (String a "") s); auto. intros; by apply utf8_1.
  - rewrite (decide_False (P := a = c)), (decide_False (P := b = c))
      by (apply Hne; unfold continuation in *; rewrite byte_in_spec in *; lia).
    destruct (split_on c s) as [|x xs] eqn:E; [done|].
    apply (Hcons (String a (String b "")) s (x :: xs)); auto. intros; by apply utf8_2.
  - rewrite (decide_False (P := a = c)), (decide_False (P := b = c)), (decide_False (P := d = c))
      by (apply Hne; unfold continuation in *; rewrite ?byte_in_spec in *;
          first [by eapply second_of_3_high|lia]).
    destruct (split_on c s) as [|x xs] eqn:E; [done|].
    apply (Hcons (String a (String b (String d ""))) s (x :: xs)); auto.
    intros; by apply utf8_3.
  - rewrite (decide_False (P := a = c)), (decide_False (P := b = c)), (decide_False (P := d = c)),
      (decide_False (P := e = c))
      by (apply Hne; unfold continuation in *; rewrite ?byte_in_spec in *;
          first [by eapply second_of_4_high|lia]).
    destruct (split_on c s) as [|x xs] eqn:E; [done|].
    apply (Hcons (String a (String b (String d (String e "")))) s (x :: xs)); auto.
    intros; by apply utf8_4.
Qed.

(** * The characters of a printed integer *)

Lemma pretty_N_go_no_char c x s :
  bool_decide (c ∈ pretty_N_char <$> [0; 1; 2; 3; 4; 5; 6; 7; 8; 9]%N) = false →
  contains_char c s = false → contains_char c (pretty_N_go x s) = false.
Proof.
  intros Hc. revert s. induction (N.lt_wf_0 x) as [x _ IH]; intros s Hs.
  assert (x = 0 ∨ 0 < x)%N as [->|Hx] by lia; [by rewrite pretty_N_go_0|].
  rewrite pretty_N_go_step by done. apply IH; [by apply N.div_lt|]. cbn [contains_char].
  rewrite bool_decide_false; [done|]. intros <-. apply bool_decide_eq_false in Hc. apply Hc.
  apply list_elem_of_fmap_2. pose proof (N.mod_lt x 10 ltac:(done)).
  generalize dependent (x `mod` 10)%N. intros n ? ? ? ?.
  assert (n = 0 ∨ n = 1 ∨ n = 2 ∨ n = 3 ∨ n = 4 ∨ n = 5 ∨ n = 6 ∨ n = 7 ∨ n = 8 ∨ n = 9)%N by lia.
  rewrite !elem_of_cons. tauto.
Qed.

Lemma pretty_no_char c (z : Z) :
  bool_decide (c ∈ ("-"%char :: "0"%char :: (pretty_N_char <$> [0; 1; 2; 3; 4; 5; 6; 7; 8; 9]%N))) = false →
  contains_char c (pretty z) = false.
Proof.
  intros Hc. apply bool_decide_eq_false in Hc. rewrite !not_elem_of_cons in Hc.
  destruct Hc as (Hm & H0 & Hd). assert (HN : ∀ n : N, contains_char c (pretty n) = false).
  { intros n. unfold pretty, pretty_N. case_decide.
    - simpl. by rewrite bool_decide_false by (intros <-; done).
    - apply pretty_N_go_no_char; [by apply bool_decide_eq_false|done]. }
  destruct z as [|p|p]; unfold pretty, pretty_Z; [apply (HN 0%N)|apply HN|].
  simpl. rewrite bool_decide_false by (intros <-; done). apply HN.
Qed.

Lemma pretty_N_go_utf8 x s : utf8 s → utf8 (pretty_N_go x s).
Proof.
  revert s. induction (N.lt_wf_0 x) as [x _ IH]; intros s Hs.
  assert (x = 0 ∨ 0 < x)%N as [->|Hx] by lia; [by rewrite pretty_N_go_0|].
  rewrite pretty_N_go_step by done. apply IH; [by apply N.div_lt|]. apply utf8_1; [|done].
  unfold pretty_N_char. by repeat case_match.
Qed.

Lemma pretty_utf8 (z : Z) : utf8 (pretty z).
Proof.
  assert (HN : ∀ n : N, utf8 (pretty n)).
  { intros n. unfold pretty, pretty_N. case_decide; [by repeat constructor|].
    apply pretty_N_go_utf8. constructor. }
  destruct z as [|p|p]; unfold pretty, pretty_Z; [apply (HN 0%N)|apply HN|].
  apply utf8_1; [done|apply HN].
Qed.

(** * Byte slices: [&buf[..n]] and [&buf[n..]] *)

Fixpoint str_take (n : nat) (s : string) : string :=
  match n, s with
  | S n, String a s => String a (str_take n s)
  | _, _ => EmptyString
  end.
Fixpoint str_drop (n : nat) (s : string) : string :=
  match n, s with
  | S n, String _ s => str_drop n s
  | _, _ => s
  end.

(** The byte at an index, as a number. *)
Definition byte_at (i : nat) (d : string) : Z :=
  match String.get i d with Some c => Z.of_N (N_of_ascii c) | None => 0 end.

(** [u32::from_be_bytes] of the first four bytes. *)
Definition head_u32 (d : string) : Z :=
  (((byte_at 0 d * 256 + byte_at 1 d) * 256 + byte_at 2 d) * 256 + byte_at 3 d)%Z.

(** [&buf[i..i + n]]. *)
Definition slice (i n : nat) (s : string) : string := str_take n (str_drop i s).

(** * [str::chars] *)

(** The payload bits of a continuation byte. *)
Definition tail6 (a : ascii) : N := N.land (byte_of a) 63.

(** The code points of a string; on bytes that no [String] holds, the
    replacement character. *)
Fixpoint chars (s : string) : list N :=
  match s with
  | EmptyString => []
  | String a s1 =>
      if byte_in 0 127 a then byte_of a :: chars s1
      else if byte_in 194 223 a then
        match s1 with
        | String b s2 => (N.land (byte_of a) 31 * 64 + tail6 b)%N :: chars s2
        | EmptyString => [65533%N]
        end
      else if byte_in 224 239 a then
        match s1 with
        | String b (String c s3) =>
            (N.land (byte_of a) 15 * 4096 + tail6 b * 64 + tail6 c)%N :: chars s3
        | _ => [65533%N]
        end
      else if byte_in 240 244 a then
        match s1 with
        | String b (String c (String d s4)) =>
            (N.land (byte_of a) 7 * 262144 + tail6 b * 4096 + tail6 c * 64 + tail6 d)%N :: chars s4
        | _ => [65533%N]
        end
      else 65533%N :: chars s1
  end.

(** * What trimming leaves *)

Lemma strip_first_Some pats s r : strip_first pats s = Some r → ∃ p, p ∈ pats ∧ s = p +:+ r.
Proof.
  induction pats as [|p pats IH]; simpl; [done|].
  destruct (strip_prefix p s) as [r'|] eqn:E.
  - intros [= ->]. apply strip_prefix_Some in E. exists p. split; [left|done].
  - intros (q & ? & ?)%IH. exists q. split; [by right|done].
Qed.

Lemma strip_first_None pats s : strip_first pats s = None ↔ ∀ p r, p ∈ pats → s ≠ p +:+ r.
Proof.
  split.
  - induction pats as [|p pats IH]; simpl; [set_solver|].
    destruct (strip_prefix p s) as [r'|] eqn:E; [done|].
    intros H q r [->|Hq]%elem_of_cons; [|by apply IH].
    intros Hs. apply strip_prefix_Some in Hs. congruence.
  - destruct (strip_first pats s) as [r|] eqn:E; [|done].
    apply strip_first_Some in E as (p & Hp & ->). intros H. by destruct (H p r Hp).
Qed.

(** With the length for fuel, nothing more can be stripped. *)
Lemma strip_all_done pats fuel s :
  "" ∉ pats → (String.length s ≤ fuel)%nat → strip_first pats (strip_all fuel pats s) = None.
Proof.
  intros Hne. assert (Hnil : strip_first pats "" = None).
  { apply strip_first_None. intros p r Hp Heq. destruct p; [done|done]. }
  revert s. induction fuel as [|fuel IH]; intros s Hs; cbn [strip_all].
  - destruct s; [done|simpl in Hs; lia].
  - destruct (strip_first pats s) as [r|] eqn:E; [|done]. apply IH.
    apply strip_first_Some in E as (p & Hp & ->). rewrite str_length_app in Hs.
    destruct p; [done|simpl in Hs; lia].
Qed.

Lemma strip_all_id pats fuel s : strip_first pats s = None → strip_all fuel pats s = s.
Proof. intros H. destruct fuel; cbn [strip_all]; [done|]. by rewrite H. Qed.

(** What is stripped is a prefix. *)
Lemma strip_all_suffix pats fuel s : ∃ p, s = p +:+ strip_all fuel pats s.
Proof.
  revert s. induction fuel as [|fuel IH]; intros s; cbn [strip_all]; [by exists ""|].
  destruct (strip_first pats s) as [r|] eqn:E; [|by exists ""].
  apply strip_first_Some in E as (p & _ & ->). destruct (IH r) as [q Hq].
  exists (p +:+ q). rewrite <-str_app_assoc. by rewrite <-Hq.
Qed.

Lemma rev_app_spec (s acc : string) : String.rev_app s acc = String.rev s +:+ acc.
Proof.
  unfold String.rev. revert acc. induction s as [|c s IH]; intros acc; simpl; [done|].
  rewrite (IH (String c acc)), (IH (String c "")). by rewrite <-str_app_assoc.
Qed.

Lemma str_rev_cons c (s : string) : String.rev (String c s) = String.rev s +:+ String c "".
Proof. unfold String.rev at 1. simpl. apply rev_app_spec. Qed.

Lemma str_rev_app (a b : string) : String.rev (a +:+ b) = String.rev b +:+ String.rev a.
Proof.
  induction a as [|c a IH]; simpl; [by rewrite str_app_nil_r|].
  by rewrite !str_rev_cons, IH, str_app_assoc.
Qed.

Lemma str_rev_involutive (s : string) : String.rev (String.rev s) = s.
Proof. induction s as [|c s IH]; [done|]. rewrite str_rev_cons, str_rev_app, IH. done. Qed.

Lemma str_rev_length (s : string) : String.length (String.rev s) = String.length s.
Proof.
  induction s as [|c s IH]; [done|]. rewrite str_rev_cons, str_length_app, IH. simpl. lia.
Qed.

Lemma white_space_nonempty : "" ∉ white_space.
Proof. by apply (bool_decide_unpack _). Qed.

Lemma white_space_rev_nonempty : "" ∉ String.rev <$> white_space.
Proof. by apply (bool_decide_unpack _). Qed.

(** A trimmed string starts and ends with no white space: trimming again
    changes nothing. *)
Lemma trim_idem s : trim (trim s) = trim s.
Proof.
  unfold trim. set (t := trim_start s).
  assert (Ht : strip_first white_space t = None)
    by (by apply strip_all_done, Nat.le_refl; apply white_space_nonempty).
  assert (Hend : strip_first (String.rev <$> white_space) (String.rev (trim_end t)) = None).
  { unfold trim_end. rewrite str_rev_involutive. apply strip_all_done.
    - apply white_space_rev_nonempty.
    - by rewrite str_rev_length. }
  assert (trim_start (trim_end t) = trim_end t) as ->.
  { apply strip_all_id, strip_first_None. intros p r Hp Heq.
    destruct (strip_all_suffix (String.rev <$> white_space) (String.length t) (String.rev t))
      as [q Hq].
    apply (proj1 (strip_first_None _ _) Ht p (r +:+ String.rev q)); [done|].
    rewrite <-(str_rev_involutive t), Hq, str_rev_app, str_app_assoc. by rewrite <-Heq. }
  unfold trim_end at 1. rewrite strip_all_id by done. by rewrite str_rev_involutive.
Qed.

(** * Searching *)

(** [s.contains(p)] for a string [p]. *)
Fixpoint str_contains (p s : string) : bool :=
  starts_with p s || match s with EmptyString => false | String _ s => str_contains p s end.

(** [s.to_lowercase()] on the ASCII letters; other characters stay as they
    are.  The code compares lowercased text with ASCII keywords only, none of
    them with a k, and no other character's lowercase form is one of their
    letters. *)
Definition lower_ascii (a : ascii) : ascii :=
  if byte_in 65 90 a then ascii_of_N (byte_of a + 32) else a.
Fixpoint to_lowercase (s : string) : string :=
  match s with EmptyString => EmptyString | String a s => String (lower_ascii a) (to_lowercase s) end.

(** [s.trim_end_matches(c)]. *)
Fixpoint trim_end_char (c : ascii) (s : string) : string :=
  match s with
  | EmptyString => EmptyString
  | String a s =>
      match trim_end_char c s with
      | EmptyString => if decide (a = c) then EmptyString else String a EmptyString
      | s => String a s
      end
  end.

(** * Trimming what follows a separator *)

(** A pattern without the separator matches before it or not at all. *)
Lemma strip_prefix_before c w a b :
  contains_char c w = false → strip_prefix w a = None → strip_prefix w (a +:+ String c b) = None.
Proof.
  revert a. induction w as [|x w IH]; intros a; [by destruct a|]. cbn [contains_char].
  intros [Hx Hw]%orb_false_iff. apply bool_decide_eq_false in Hx. destruct a as [|y a]; simpl.
  - by rewrite decide_False.
  - case_decide; [by apply IH|done].
Qed.

Lemma strip_first_before c pats a b :
  Forall (λ w, contains_char c w = false) pats → strip_first pats a = None →
  strip_first pats (a +:+ String c b) = None.
Proof.
  induction 1 as [|w pats Hw Hpats IH]; [done|]. simpl.
  destruct (strip_prefix w a) eqn:E; [done|]. intros Hn.
  by rewrite strip_prefix_before, IH.
Qed.

(** Text that starts with no white space, a separator, then trimmed text. *)
Lemma trim_separated c p s :
  Forall (λ w, contains_char c w = false) (String.rev <$> white_space) →
  strip_first white_space (p +:+ String c s) = None → trim s = s →
  trim (p +:+ String c s) = p +:+ String c s.
Proof.
  intros Hc Hp Hs. unfold trim, trim_start. rewrite strip_all_id by done.
  unfold trim_end. rewrite strip_all_id; [by rewrite str_rev_involutive|].
  rewrite str_rev_app, str_rev_cons, <-str_app_assoc. apply strip_first_before; [done|].
  rewrite <-Hs. unfold trim, trim_end at 1. rewrite str_rev_involutive.
  apply strip_all_done; [apply white_space_rev_nonempty|]. by rewrite str_rev_length.
Qed.
