(* ===== verification/F64.v ===== *)
(** IEEE 754 binary64 numbers, the [f64] of the Rust code.

    Monotonic clock readings, lease deadlines and timeouts are [f64] seconds in
    the source.  They are binary64 values here too, on the executable
    specification of the Standard Library ([spec_float] with 53 bits of
    precision), so sums round and comparisons with a NaN are false as they are
    when the code runs. *)
From S2P Require Import Prelude.
From Stdlib Require Export SpecFloat.

Notation f64 := spec_float.

Definition f64_add : f64 → f64 → f64 := SFadd 53 1024.
Definition f64_sub : f64 → f64 → f64 := SFsub 53 1024.
Definition f64_mul : f64 → f64 → f64 := SFmul 53 1024.
Definition f64_ltb : f64 → f64 → bool := SFltb.
Definition f64_gtb (a b : f64) : bool := SFltb b a.
Definition f64_geb (a b : f64) : bool := SFleb b a.

(** [n as f64] for an integer [n]: round to nearest, ties to even. *)
Definition f64_of_Z (z : Z) : f64 := binary_normalize 53 1024 z 0 false.

(** [x as i64]: truncate toward zero, saturate, NaN is 0. *)
Definition f64_as_i64 (x : f64) : Z :=
  match x with
  | S754_zero _ | S754_nan => 0
  | S754_infinity s => if s then i64_min else i64_max
  | S754_finite s m e =>
      let a := (if 0 <=? e then Zpos m * 2 ^ e else Zpos m / 2 ^ (- e))%Z in
      Z.max i64_min (Z.min i64_max (if s then - a else a))%Z
  end.

#[export] Instance f64_eq_dec : EqDecision f64.
Proof. solve_decision. Defined.

Definition f64_is_nan (x : f64) : bool := match x with S754_nan => true | _ => false end.

(** [x.is_finite()] and [x.is_sign_negative()]. *)
Definition f64_is_finite (x : f64) : bool :=
  match x with S754_zero _ | S754_finite _ _ _ => true | _ => false end.
Definition f64_is_negative (x : f64) : bool :=
  match x with S754_zero s | S754_infinity s | S754_finite s _ _ => s | S754_nan => false end.

Lemma SFcompare_opp x y :
  SFcompare y x = option_map CompOpp (SFcompare x y).
Proof.
  assert (Hp : ∀ m1 m2, Pos.compare_cont Eq m2 m1 = CompOpp (Pos.compare_cont Eq m1 m2)).
  { intros. apply (Pos.compare_antisym m1 m2). }
  destruct x as [s|s| |s m e], y as [s'|s'| |s' m' e']; try destruct s; try destruct s'; simpl; try done;
    rewrite (Z.compare_antisym e e'), (Hp m m'); destruct (e ?= e')%Z; simpl; try done;
    by rewrite CompOpp_involutive.
Qed.

