(* ===== verification/Json.v ===== *)
(** JSON values as serde_json holds them, and the accessors the crates use.

    An object is an association list in insertion order (the workspace builds
    serde_json with preserve_order, Cargo.toml line 51), while [==] on values
    ignores the order of object entries.  Parsing and printing JSON text is
    serde_json's and is not modelled. *)
From S2P Require Import Prelude F64 RustMap.

(** [serde_json::Number]: a [u64], a negative [i64] or a finite [f64]. *)
Inductive number := PosInt (n : Z) | NegInt (z : Z) | NFloat (f : f64).

Inductive Value :=
| JNull
| JBool (b : bool)
| JNumber (n : number)
| JString (s : string)
| JArray (l : list Value)
| JObject (m : list (string * Value)).

(** A JSON object: [Map<String, Value>]. *)
Notation JsonDict := (list (string * Value)).

Section value_ind.
Variable P : Value → Prop.
Hypothesis Pnull : P JNull.
Hypothesis Pbool : ∀ b, P (JBool b).
Hypothesis Pnumber : ∀ n, P (JNumber n).
Hypothesis Pstring : ∀ s, P (JString s).
Hypothesis Parray : ∀ l, Forall P l → P (JArray l).
Hypothesis Pobject : ∀ m, Forall (λ p, P p.2) m → P (JObject m).

Fixpoint value_ind' (v : Value) : P v :=
  match v with
  | JNull => Pnull
  | JBool b => Pbool b
  | JNumber n => Pnumber n
  | JString s => Pstring s
  | JArray l =>
      Parray l ((fix go l : Forall P l :=
                   match l with
                   | [] => List.Forall_nil P
                   | v :: l => @List.Forall_cons _ P v l (value_ind' v) (go l)
                   end) l)
  | JObject m =>
      Pobject m ((fix go m : Forall (λ p, P p.2) m :=
                    match m with
                    | [] => List.Forall_nil (λ p, P p.2)
                    | kv :: m => @List.Forall_cons _ (λ p, P p.2) kv m (value_ind' kv.2) (go m)
                    end) m)
  end.
End value_ind.

#[export] Instance number_eq_dec : EqDecision number.
Proof. solve_decision. Defined.

(** [PartialEq] of numbers: floats compare as IEEE numbers. *)
Definition number_eqb (a b : number) : bool :=
  match a, b with
  | PosInt x, PosInt y | NegInt x, NegInt y => (x =? y)%Z
  | NFloat x, NFloat y => SFeqb x y
  | _, _ => false
  end.

(** [PartialEq] of values: objects are equal when they have as many entries
    and every entry of one is in the other. *)
Fixpoint value_eqb (a b : Value) {struct a} : bool :=
  match a, b with
  | JNull, JNull => true
  | JBool x, JBool y => eqb x y
  | JNumber x, JNumber y => number_eqb x y
  | JString x, JString y => bool_decide (x = y)
  | JArray x, JArray y =>
      (fix go x y := match x, y with
                     | [], [] => true
                     | v :: x, w :: y => value_eqb v w && go x y
                     | _, _ => false
                     end) x y
  | JObject x, JObject y =>
      (length x =? length y)%nat &&
      (fix go x := match x with
                   | [] => true
                   | kv :: x =>
                       match aget kv.1 y with
                       | Some w => value_eqb kv.2 w
                       | None => false
                       end && go x
                   end) x
  | _, _ => false
  end.

(** Accessors of [serde_json::Value]. *)
Definition as_str (v : Value) : option string := match v with JString s => Some s | _ => None end.
Definition as_bool (v : Value) : option bool := match v with JBool b => Some b | _ => None end.
Definition as_object (v : Value) : option JsonDict := match v with JObject m => Some m | _ => None end.
Definition as_i64 (v : Value) : option Z :=
  match v with
  | JNumber (PosInt n) => if (n <=? i64_max)%Z then Some n else None
  | JNumber (NegInt n) => Some n
  | _ => None
  end.
Definition as_u64 (v : Value) : option Z := match v with JNumber (PosInt n) => Some n | _ => None end.
(** [number.as_f64()]. *)
Definition number_as_f64 (n : number) : f64 :=
  match n with PosInt z | NegInt z => f64_of_Z z | NFloat f => f end.
Definition is_null (v : Value) : bool := match v with JNull => true | _ => false end.
Definition is_string (v : Value) : bool := match v with JString _ => true | _ => false end.

(** [Value::from(n : i64)]. *)
Definition value_of_i64 (n : Z) : Value :=
  JNumber (if (n <? 0)%Z then NegInt n else PosInt n).

(** [value.get(key)] on a value that should be an object. *)
Definition vget (k : string) (v : Value) : option Value :=
  match v with JObject m => aget k m | _ => None end.

Lemma as_i64_value_of_i64 n : in_i64 n → as_i64 (value_of_i64 n) = Some n.
Proof.
  unfold value_of_i64, in_i64. intros. destruct (Z.ltb_spec n 0); simpl; [done|].
  destruct (Z.leb_spec n i64_max); [done|lia].
Qed.

(** * Well-formed values: the invariant of the types *)

(** A [Number] holds a [u64], a negative [i64] or a finite float. *)
Definition wf_number (n : number) : Prop :=
  match n with
  | PosInt z => 0 ≤ z ≤ u64_max
  | NegInt z => i64_min ≤ z < 0
  | NFloat f => f64_is_finite f = true
  end%Z.

(** A [Map] has one entry per key. *)
Inductive wf_value : Value → Prop :=
| wf_null : wf_value JNull
| wf_bool b : wf_value (JBool b)
| wf_num n : wf_number n → wf_value (JNumber n)
| wf_string s : wf_value (JString s)
| wf_array l : Forall wf_value l → wf_value (JArray l)
| wf_object m : NoDup (akeys m) → Forall (λ kv, wf_value kv.2) m → wf_value (JObject m).
#[export] Hint Constructors wf_value : rust.

Lemma wf_value_of_i64 n : in_i64 n → wf_value (value_of_i64 n).
Proof.
  unfold value_of_i64, in_i64, i64_min, i64_max. intros. constructor.
  destruct (Z.ltb_spec n 0); simpl; unfold i64_min, u64_max; lia.
Qed.

Lemma as_i64_range v n : wf_value v → as_i64 v = Some n → in_i64 n.
Proof.
  unfold in_i64. intros Hwf. destruct Hwf as [| |[z|z|]| | |]; simpl; try done.
  - destruct (Z.leb_spec z i64_max); [|done]. intros [= <-]. simpl in *.
    unfold i64_min, i64_max in *. lia.
  - intros [= <-]. simpl in *. unfold i64_max. lia.
Qed.

Lemma wf_aget k m v : wf_value (JObject m) → aget k m = Some v → wf_value v.
Proof.
  inversion 1 as [| | | | |? _ Hall]; subst. intros Hk%aget_Some_elem.
  by apply (proj1 (Forall_forall _ _) Hall _ Hk).
Qed.

Lemma wf_im_insert k v m : wf_value (JObject m) → wf_value v → wf_value (JObject (im_insert k v m)).
Proof.
  inversion 1 as [| | | | |? Hnd Hall]; subst. intros Hv. constructor; [by apply NoDup_im_insert|].
  apply Forall_forall. intros [k' v'] Hin. apply elem_of_im_insert in Hin as [[-> ->]|Hm]; [done|].
  by apply (proj1 (Forall_forall _ _) Hall _ Hm).
Qed.

Lemma SFeqb_refl_finite f : f64_is_finite f = true → SFeqb f f = true.
Proof.
  intros Hf. unfold SFeqb. destruct f as [[]|[]| |[] m e]; try done; simpl;
    by rewrite Z.compare_refl, Pos.compare_refl.
Qed.

Lemma number_eqb_refl n : wf_number n → number_eqb n n = true.
Proof. destruct n; simpl; [by rewrite Z.eqb_refl..|apply SFeqb_refl_finite]. Qed.

(** A well-formed value equals itself. *)
Lemma value_eqb_refl v : wf_value v → value_eqb v v = true.
Proof.
  induction v as [|b|n|s|l IH|m IH] using value_ind'; inversion_clear 1 as [| | | |? Hall|? Hnd Hall];
    cbn [value_eqb]; [done|by destruct b|by apply number_eqb_refl|by apply bool_decide_true|..].
  - induction IH as [|v l Hv IH IHl]; [done|]. inversion_clear Hall. by rewrite Hv, IHl.
  - rewrite Nat.eqb_refl. cbn [andb].
    assert (Hin : ∀ kv, kv ∈ m → aget kv.1 m = Some kv.2) by (intros []; by apply aget_elem).
    match goal with |- ?go m = true => cut (∀ x, (∀ kv, kv ∈ x → aget kv.1 m = Some kv.2) →
      Forall (λ p, wf_value p.2 → value_eqb p.2 p.2 = true) x → Forall (λ p, wf_value p.2) x → go x = true) end.
    { intros Hgo. by apply Hgo. }
    clear Hnd Hin IH Hall. intros x. induction x as [|kv x IHx]; intros Hin IH Hall; [done|].
    inversion_clear IH as [|? ? Hkv IH']. inversion_clear Hall as [|? ? Hw Hall'].
    rewrite (Hin kv) by left. rewrite Hkv by done. cbn [andb].
    apply IHx; [|done..]. intros. apply Hin. by right.
Qed.
