(* ===== verification/Common.v ===== *)
(** The caller identity of a2x-common (src/auth_context.rs).

    Atomic file replacement (a2x-common/src/atomic.rs): write a temporary file
    next to the target and rename it over; a second failed rename falls back
    to overwriting the target. *)
From S2P Require Import Prelude.

Inductive Role := Admin | Provider | User.
#[export] Instance Role_eq_dec : EqDecision Role.
Proof. solve_decision. Defined.

(** [Role::as_str] and [Role::parse]. *)
Definition role_as_str (r : Role) : string :=
  match r with Admin => "admin" | Provider => "provider" | User => "user" end.
Definition role_parse (s : string) : option Role :=
  if decide (s = "admin") then Some Admin
  else if decide (s = "provider") then Some Provider
  else if decide (s = "user") then Some User
  else None.

Record AuthContext := mkAuthContext {
  principal_id : string;
  role : Role;
  namespaces : option (gset string)
}.

(** [AuthContext::admin]. *)
Definition auth_admin (id : string) : AuthContext := mkAuthContext id Admin None.

(** [AuthContext::is_admin]. *)
Definition is_admin (c : AuthContext) : bool := bool_decide (role c = Admin).

(** [AuthContext::allows_namespace]. *)
Definition allows_namespace (c : AuthContext) (dataset : string) : bool :=
  match namespaces c with
  | None => is_admin c
  | Some ns => bool_decide (dataset ∈ ns)
  end.

Lemma role_roundtrip r : role_parse (role_as_str r) = Some r.
Proof. by destruct r. Qed.

Lemma role_parse_inv s r : role_parse s = Some r → s = role_as_str r.
Proof. unfold role_parse. repeat case_decide; intros; simplify_eq; done. Qed.

Section atomic.
Context {C : Type}.

(** The answers of the file system during one call: creating, filling and
    syncing the temporary file, the two renames, the fallback write and what
    a failed fallback write leaves behind. *)
Record AtomicIo := mkAtomicIo {
  tmp_io : result unit string;
  rename_io : bool;
  rename_again_io : bool;
  direct_io : result unit string;
  direct_wreck : option C
}.

(** [atomic_write_bytes], on the contents of the target file. *)
Definition atomic_write_bytes (io : AtomicIo) (content : C) (target : option C)
    : result unit string * option C :=
  match tmp_io io with
  | Err e => (Err e, target)
  | Ok _ =>
      if rename_io io then (Ok (), Some content)
      else if rename_again_io io then (Ok (), Some content)
      else
        match direct_io io with
        | Err e => (Err e, direct_wreck io)
        | Ok _ => (Ok (), Some content)
        end
  end.

(** Only the fallback can damage the target. *)
Definition renames (io : AtomicIo) : bool := rename_io io || rename_again_io io.

Lemma atomic_write_Ok io content target u target' :
  atomic_write_bytes io content target = (Ok u, target') → target' = Some content.
Proof.
  unfold atomic_write_bytes. destruct (tmp_io io); [|done].
  destruct (rename_io io); [by intros [=]|]. destruct (rename_again_io io); [by intros [=]|].
  by destruct (direct_io io); intros [=].
Qed.

Lemma atomic_write_Err io content target e target' :
  renames io = true → atomic_write_bytes io content target = (Err e, target') → target' = target.
Proof.
  unfold atomic_write_bytes, renames. destruct (tmp_io io); [|by intros _ [=]].
  destruct (rename_io io); simpl; [done|]. by intros ->.
Qed.
End atomic.
Arguments AtomicIo C : clear implicits.

(** The file system of the examples: the rename works. *)
Definition rename_works {C} : AtomicIo C := mkAtomicIo (Ok ()) true false (Ok ()) None.
