(* ===== verification/Lease.v ===== *)
(** The TTL lease state machine of a2x-common (src/lease.rs), shared by the
    heartbeat store: the [Lease] record, the operations of [LeaseTable], and
    the theorems about their two-stage expiry. *)
From S2P Require Import Prelude F64 RustMap.

Inductive LeaseState := Healthy | Unhealthy.
#[export] Instance LeaseState_eq_dec : EqDecision LeaseState.
Proof. solve_decision. Defined.

Record Lease := mkLease {
  ttl_seconds : Z;
  grace_period_seconds : Z;
  expires_at : f64;
  grace_deadline : f64;
  last_renew_at : f64;
  state : LeaseState
}.
#[export] Instance Lease_eq_dec : EqDecision Lease.
Proof. solve_decision. Defined.

(** [Lease::expires_at_wall]. *)
Definition expires_at_wall (l : Lease) (now_wall now_monotonic : f64) : f64 :=
  f64_add now_wall (f64_sub (expires_at l) now_monotonic).

(** [now.unwrap_or_else(monotonic_now)], [mono] being the clock reading. *)
Definition now_or (now : option f64) (mono : f64) : f64 := default mono now.

Section table.
Context {K : Type} `{!EqDecision K, !Countable K, !HashIter}.
Implicit Types (t : gmap K Lease) (key : K).

(** The lease [LeaseTable::install] creates. *)
Definition new_lease (ttl grace : Z) (expired : bool) (now : f64) : Lease :=
  if expired then
    mkLease ttl grace now (f64_add now (f64_of_Z grace)) now Unhealthy
  else
    mkLease ttl grace
      (f64_add now (f64_of_Z ttl))
      (f64_add (f64_add now (f64_of_Z ttl)) (f64_of_Z grace))
      now Healthy.

(** [LeaseTable::install]. *)
Definition install key ttl grace expired (now : option f64) (mono : f64) t
  : Lease * gmap K Lease :=
  let now := now_or now mono in
  let lease := new_lease ttl grace expired now in
  (lease, <[key := lease]> t).

(** The update [LeaseTable::renew] makes to the lease it finds. *)
Definition renewed (now : f64) (l : Lease) : Lease :=
  let expires := f64_add now (f64_of_Z (ttl_seconds l)) in
  mkLease (ttl_seconds l) (grace_period_seconds l)
    expires (f64_add expires (f64_of_Z (grace_period_seconds l))) now Healthy.

(** [LeaseTable::renew]. *)
Definition renew key (now : option f64) (mono : f64) t : option Lease * gmap K Lease :=
  let now := now_or now mono in
  match t !! key with
  | None => (None, t)
  | Some l => let l' := renewed now l in (Some l', <[key := l']> t)
  end.

(** [LeaseTable::revoke]. *)
Definition revoke key (permanent : bool) (now : option f64) (mono : f64) t : bool * gmap K Lease :=
  let now := now_or now mono in
  match t !! key with
  | None => (false, t)
  | Some l =>
      if permanent then (true, delete key t)
      else
        (true, <[key := mkLease (ttl_seconds l) (grace_period_seconds l) now
                  (f64_add now (f64_of_Z (grace_period_seconds l))) (last_renew_at l) Unhealthy]> t)
  end.

(** [LeaseTable::drop_key]. *)
Definition drop_key key t : gmap K Lease := delete key t.

(** [LeaseTable::get]. *)
Definition get_lease key t : option Lease := t !! key.

(** [LeaseTable::is_unhealthy]. *)
Definition is_unhealthy key t : bool :=
  match t !! key with Some l => bool_decide (state l = Unhealthy) | None => false end.

(** [LeaseTable::contains], [len] and [items]. *)
Definition contains key t : bool := bool_decide (is_Some (t !! key)).
Definition len t : nat := size t.
Definition items t : list (K * Lease) := hm_iter t.

(** The loop body of [LeaseTable::sweep_tick]: the lease afterwards, whether
    its key is pushed on [newly_unhealthy], and whether on [to_delete]. *)
Definition sweep_lease (now : f64) (l : Lease) : Lease * bool * bool :=
  let newly := bool_decide (state l = Healthy) && f64_geb now (expires_at l) in
  let l := if newly then
             mkLease (ttl_seconds l) (grace_period_seconds l) (expires_at l)
               (grace_deadline l) (last_renew_at l) Unhealthy
           else l in
  let del := bool_decide (state l = Unhealthy) && f64_geb now (grace_deadline l) in
  (l, newly, del).
#[global] Arguments sweep_lease : simpl never.

(** [LeaseTable::sweep_tick]: [(newly_unhealthy, to_delete)] and the table. *)
Definition sweep_tick (now : option f64) (mono : f64) t : list K * list K * gmap K Lease :=
  let now := now_or now mono in
  let visited := (λ p, (p.1, sweep_lease now p.2)) <$> hm_iter t in
  let newly_unhealthy := (filter (λ p, p.2.1.2 = true) visited).*1 in
  let to_delete := (filter (λ p, p.2.2 = true) visited).*1 in
  let t := (λ l, (sweep_lease now l).1.1) <$> t in
  (newly_unhealthy, to_delete, foldl (λ t key, delete key t) t to_delete).

(** ** Lemmas *)

(** When the lease of a key leaves [Healthy], when it leaves the table. *)
Definition due (now : f64) (l : Lease) : bool :=
  bool_decide (state l = Healthy) && f64_geb now (expires_at l).
Definition dead (now : f64) (l : Lease) : bool :=
  (bool_decide (state l = Unhealthy) || due now l) && f64_geb now (grace_deadline l).
Definition mark_unhealthy (l : Lease) : Lease :=
  mkLease (ttl_seconds l) (grace_period_seconds l) (expires_at l)
    (grace_deadline l) (last_renew_at l) Unhealthy.

Lemma sweep_lease_eq now l :
  sweep_lease now l = (if due now l then mark_unhealthy l else l, due now l, dead now l).
Proof.
  unfold sweep_lease, dead, due.
  destruct (state l) eqn:E; simpl; [|by rewrite E; simpl].
  destruct (f64_geb now (expires_at l)); simpl; [done|by rewrite E].
Qed.

Lemma foldl_delete_lookup (l : list K) t key :
  foldl (λ t key, delete key t) t l !! key = if decide (key ∈ l) then None else t !! key.
Proof.
  revert t. induction l as [|k l IH]; intros t; simpl; [done|].
  rewrite IH, lookup_delete.
  destruct (decide (key ∈ l)), (decide (key ∈ k :: l)), (decide (k = key)); set_solver.
Qed.

Lemma elem_of_visited (f : Lease → Lease * bool * bool) (P : Lease * bool * bool → bool) t key :
  key ∈ (filter (λ p, P p.2 = true) ((λ p, (p.1, f p.2)) <$> hm_iter t)).*1 ↔
  ∃ l, t !! key = Some l ∧ P (f l) = true.
Proof.
  rewrite list_elem_of_fmap. setoid_rewrite list_elem_of_filter.
  setoid_rewrite list_elem_of_fmap. split.
  - intros ([k r] & -> & Hf & [k' l] & [= -> ->] & Hin). simpl in *.
    apply elem_of_hm_iter in Hin. eauto.
  - intros (l & Hl & Hf). exists (key, f l). split; [done|]. split; [done|].
    exists (key, l). split; [done|]. by apply elem_of_hm_iter.
Qed.

Lemma elem_of_newly now mono t key :
  key ∈ (sweep_tick now mono t).1.1 ↔
  ∃ l, t !! key = Some l ∧ due (now_or now mono) l = true.
Proof.
  etrans; [apply (elem_of_visited (sweep_lease (now_or now mono)) (λ r, r.1.2))|].
  by setoid_rewrite sweep_lease_eq.
Qed.

Lemma elem_of_deleted now mono t key :
  key ∈ (sweep_tick now mono t).1.2 ↔
  ∃ l, t !! key = Some l ∧ dead (now_or now mono) l = true.
Proof.
  etrans; [apply (elem_of_visited (sweep_lease (now_or now mono)) snd)|].
  by setoid_rewrite sweep_lease_eq.
Qed.

Lemma sweep_tick_lookup now mono t key :
  (sweep_tick now mono t).2 !! key =
    match t !! key with
    | None => None
    | Some l =>
        if dead (now_or now mono) l then None
        else Some (if due (now_or now mono) l then mark_unhealthy l else l)
    end.
Proof.
  assert (Htab : (sweep_tick now mono t).2 =
    foldl (λ t key, delete key t)
      ((λ l, (sweep_lease (now_or now mono) l).1.1) <$> t) (sweep_tick now mono t).1.2) by done.
  rewrite Htab, foldl_delete_lookup, lookup_fmap.
  pose proof (elem_of_deleted now mono t key) as Hd.
  destruct (t !! key) as [l|] eqn:Hl; [|by case_decide].
  change ((λ l, (sweep_lease (now_or now mono) l).1.1) <$> Some l)
    with (Some (sweep_lease (now_or now mono) l).1.1).
  rewrite sweep_lease_eq. case_decide as Hin.
  - by apply Hd in Hin as (l0 & [= <-] & ->).
  - destruct (dead (now_or now mono) l) eqn:E; [|done]. exfalso. apply Hin, Hd. eauto.
Qed.

(** A swept table holds no lease the same instant would sweep again. *)
Lemma sweep_tick_settled now mono t key l :
  (sweep_tick (Some now) mono t).2 !! key = Some l → due now l = false ∧ dead now l = false.
Proof.
  rewrite sweep_tick_lookup. simpl. destruct (t !! key) as [l0|]; [|done].
  destruct (dead now l0) eqn:Hd; [done|]. intros [= <-].
  unfold dead in *. destruct (due now l0) eqn:Hdue.
  - split; [done|]. rewrite orb_true_r in Hd. simpl in Hd |- *. by rewrite Hd, ?andb_false_r.
  - by rewrite Hdue.
Qed.
End table.

(** * The life cycle of one lease *)

(** The mutating operations of a [LeaseTable]. *)
Inductive lease_op (K : Type) :=
| OInstall (key : K) (ttl grace : Z) (expired : bool) (now : option f64)
| ORenew (key : K) (now : option f64)
| ORevoke (key : K) (permanent : bool) (now : option f64)
| ODrop (key : K)
| OSweep (now : option f64).
Arguments OInstall {K}. Arguments ORenew {K}. Arguments ORevoke {K}.
Arguments ODrop {K}. Arguments OSweep {K}.

Definition lease_exec {K} `{!EqDecision K, !Countable K, !HashIter}
    (op : lease_op K) (mono : f64) (t : gmap K Lease) : gmap K Lease :=
  match op with
  | OInstall key ttl grace expired now => (install key ttl grace expired now mono t).2
  | ORenew key now => (renew key now mono t).2
  | ORevoke key permanent now => (revoke key permanent now mono t).2
  | ODrop key => drop_key key t
  | OSweep now => (sweep_tick now mono t).2
  end.

(** The key an operation names; a sweep names none. *)
Definition op_key {K} (op : lease_op K) : option K :=
  match op with
  | OInstall k _ _ _ _ | ORenew k _ | ORevoke k _ _ | ODrop k => Some k
  | OSweep _ => None
  end.

(** The abstract machine every key follows, whatever the other keys do:
    absent, healthy with a deadline, unhealthy with a grace deadline.  An
    operation on another key changes nothing; the rules for the key's own
    operations and for sweeps exclude each other, so each state has one
    successor. *)
Inductive lease_step {K} (key : K) (mono : f64) : lease_op K → option Lease → option Lease → Prop :=
| ls_other op k o :
    op_key op = Some k → k ≠ key → lease_step key mono op o o
| ls_install ttl grace now o :
    let n := now_or now mono in
    let expires := f64_add n (f64_of_Z ttl) in
    lease_step key mono (OInstall key ttl grace false now) o
      (Some (mkLease ttl grace expires (f64_add expires (f64_of_Z grace)) n Healthy))
| ls_install_expired ttl grace now o :
    let n := now_or now mono in
    lease_step key mono (OInstall key ttl grace true now) o
      (Some (mkLease ttl grace n (f64_add n (f64_of_Z grace)) n Unhealthy))
| ls_renew now l :
    let n := now_or now mono in
    let expires := f64_add n (f64_of_Z (ttl_seconds l)) in
    lease_step key mono (ORenew key now) (Some l)
      (Some (mkLease (ttl_seconds l) (grace_period_seconds l) expires
               (f64_add expires (f64_of_Z (grace_period_seconds l))) n Healthy))
| ls_renew_absent now : lease_step key mono (ORenew key now) None None
| ls_revoke now l :
    let n := now_or now mono in
    lease_step key mono (ORevoke key false now) (Some l)
      (Some (mkLease (ttl_seconds l) (grace_period_seconds l) n
               (f64_add n (f64_of_Z (grace_period_seconds l))) (last_renew_at l) Unhealthy))
| ls_revoke_permanent now l :
    lease_step key mono (ORevoke key true now) (Some l) None
| ls_revoke_absent permanent now : lease_step key mono (ORevoke key permanent now) None None
| ls_drop o : lease_step key mono (ODrop key) o None
| ls_within_term now l :
    (state l = Healthy → f64_geb (now_or now mono) (expires_at l) = false) →
    (state l = Unhealthy → f64_geb (now_or now mono) (grace_deadline l) = false) →
    lease_step key mono (OSweep now) (Some l) (Some l)
| ls_ttl_elapsed now l :
    state l = Healthy → f64_geb (now_or now mono) (expires_at l) = true →
    f64_geb (now_or now mono) (grace_deadline l) = false →
    lease_step key mono (OSweep now) (Some l)
      (Some (mkLease (ttl_seconds l) (grace_period_seconds l) (expires_at l)
               (grace_deadline l) (last_renew_at l) Unhealthy))
| ls_grace_elapsed now l :
    f64_geb (now_or now mono) (grace_deadline l) = true →
    (state l = Unhealthy ∨ f64_geb (now_or now mono) (expires_at l) = true) →
    lease_step key mono (OSweep now) (Some l) None
| ls_sweep_absent now : lease_step key mono (OSweep now) None None.

(** Applying a list of operations, each with its clock reading. *)
Fixpoint lease_run {K} `{!EqDecision K, !Countable K, !HashIter}
    (ops : list (lease_op K * f64)) (t : gmap K Lease) : gmap K Lease :=
  match ops with
  | [] => t
  | (op, mono) :: ops => lease_run ops (lease_exec op mono t)
  end.

(** An operation that leaves the current term of [key]'s lease alone: it names
    another key, or it sweeps before the instant [d]. *)
Definition spares {K} (key : K) (d : f64) (om : lease_op K * f64) : Prop :=
  match om.1 with
  | OInstall k _ _ _ _ | ORenew k _ | ORevoke k _ _ | ODrop k => k ≠ key
  | OSweep now => f64_geb (now_or now om.2) d = false
  end.

(** * Theorems *)

Section theorems.
Context {K : Type} `{!EqDecision K, !Countable K, !HashIter}.
Implicit Types (t : gmap K Lease) (key : K).

(** A sweep reports exactly the leases that became due and exactly those it
    removes, and does to each lease what its own deadlines say. *)
Theorem sweep_tick_spec now mono t key :
  let n := now_or now mono in
  let '(newly, gone, t') := sweep_tick now mono t in
  (key ∈ newly ↔ ∃ l, t !! key = Some l ∧ due n l = true) ∧
  (key ∈ gone ↔ ∃ l, t !! key = Some l ∧ dead n l = true) ∧
  t' !! key = match t !! key with
              | None => None
              | Some l => if dead n l then None
                          else Some (if due n l then mark_unhealthy l else l)
              end.
Proof.
  pose proof (elem_of_newly now mono t key) as H1.
  pose proof (elem_of_deleted now mono t key) as H2.
  pose proof (sweep_tick_lookup now mono t key) as H3.
  by destruct (sweep_tick now mono t) as [[newly gone] t'].
Qed.

(** Sweeping twice at one instant is sweeping once. *)
Theorem sweep_tick_idempotent now mono t :
  let t1 := (sweep_tick (Some now) mono t).2 in
  sweep_tick (Some now) mono t1 = ([], [], t1).
Proof.
  cbv zeta. pose proof (sweep_tick_settled now mono t) as Hs.
  generalize dependent ((sweep_tick (Some now) mono t).2). intros t1 Hs.
  pose proof (elem_of_newly (Some now) mono t1) as H1.
  pose proof (elem_of_deleted (Some now) mono t1) as H2.
  pose proof (sweep_tick_lookup (Some now) mono t1) as H3.
  destruct (sweep_tick (Some now) mono t1) as [[nw gone] t2]. simpl in H1, H2, H3.
  assert (nw = []) as ->.
  { apply elem_of_nil_inv. intros k Hk. apply H1 in Hk as (l & Hl & ?).
    apply Hs in Hl as [??]. congruence. }
  assert (gone = []) as ->.
  { apply elem_of_nil_inv. intros k Hk. apply H2 in Hk as (l & Hl & ?).
    apply Hs in Hl as [??]. congruence. }
  f_equal. apply map_eq. intros k. rewrite H3.
  destruct (t1 !! k) as [l|] eqn:Hl; [|done]. by apply Hs in Hl as [-> ->].
Qed.

Lemma sweep_step now mono t key :
  lease_step key mono (OSweep now) (t !! key) ((sweep_tick now mono t).2 !! key).
Proof.
  rewrite sweep_tick_lookup. destruct (t !! key) as [l|]; [|by constructor].
  unfold dead, due. destruct (state l) eqn:Hst; simpl.
  - destruct (f64_geb (now_or now mono) (expires_at l)) eqn:He; simpl.
    + destruct (f64_geb (now_or now mono) (grace_deadline l)) eqn:Hg; simpl.
      * apply ls_grace_elapsed; auto.
      * by apply ls_ttl_elapsed.
    + apply ls_within_term; congruence.
  - destruct (f64_geb (now_or now mono) (grace_deadline l)) eqn:Hg; simpl.
    + apply ls_grace_elapsed; auto.
    + apply ls_within_term; congruence.
Qed.

(** The machine is deterministic. *)
Lemma lease_step_det op mono key o o1 o2 :
  lease_step key mono op o o1 → lease_step key mono op o o2 → o1 = o2.
Proof.
  intros H1 H2. inversion H1; subst; inversion H2; subst; simpl in *; try congruence;
    repeat match goal with
    | Hst : state ?l = ?x → _, Hst' : state ?l = ?x |- _ => specialize (Hst Hst')
    | Hor : _ ∨ _ |- _ => destruct Hor
    end; try congruence; try done;
    match goal with l : Lease |- _ => destruct (state l) eqn:?; intuition congruence end.
Qed.

Lemma lease_exec_step op mono t key :
  lease_step key mono op (t !! key) (lease_exec op mono t !! key).
Proof.
  destruct op as [k ttl grace expired now|k now|k permanent now|k|now]; simpl;
    [| | | |apply sweep_step]; destruct (decide (k = key)) as [->|Hne].
  - rewrite lookup_insert_eq. unfold new_lease. destruct expired; constructor.
  - rewrite lookup_insert_ne by done. by eapply ls_other.
  - unfold renew. destruct (t !! key) as [l|] eqn:E; simpl; [|rewrite E; by constructor].
    rewrite lookup_insert_eq. constructor.
  - unfold renew. destruct (t !! k); simpl; [rewrite lookup_insert_ne by done|]; by eapply ls_other.
  - unfold revoke. destruct (t !! key) as [l|] eqn:E; simpl; [|rewrite E; by constructor].
    destruct permanent; simpl; rewrite ?lookup_delete_eq, ?lookup_insert_eq; constructor.
  - unfold revoke. destruct (t !! k), permanent; simpl;
      rewrite ?lookup_insert_ne, ?lookup_delete_ne by done; by eapply ls_other.
  - unfold drop_key. rewrite lookup_delete_eq. constructor.
  - unfold drop_key. rewrite lookup_delete_ne by done. by eapply ls_other.
Qed.

(** Every operation on the table moves every key as the abstract machine
    does, and the machine has one successor per state, so what happens to a
    key is decided by the operations on it and the sweeps alone. *)
Theorem lease_exec_refines op mono t key :
  lease_step key mono op (t !! key) (lease_exec op mono t !! key) ∧
  ∀ o, lease_step key mono op (t !! key) o → o = lease_exec op mono t !! key.
Proof.
  pose proof (lease_exec_step op mono t key). split; [done|]. intros o Ho. by eapply lease_step_det.
Qed.

(** A lease outlives everything that is not about it and every sweep before
    its grace deadline: its deadlines stay, and it does not come back to life
    without a renewal. *)
Theorem lease_survives_until_grace ops t key l :
  t !! key = Some l → Forall (spares key (grace_deadline l)) ops →
  ∃ l', lease_run ops t !! key = Some l' ∧ grace_deadline l' = grace_deadline l ∧
        expires_at l' = expires_at l ∧ (state l = Unhealthy → state l' = Unhealthy).
Proof.
  revert t l. induction ops as [|[op mono] ops IH]; intros t l Hl Hall; simpl; [by eauto|].
  apply Forall_cons in Hall as [Hop Hall].
  pose proof (lease_exec_step op mono t key) as Hstep. rewrite Hl in Hstep.
  unfold spares in Hop. simpl in Hop.
  destruct (lease_exec op mono t !! key) as [l1|] eqn:E;
    inversion Hstep; subst; simpl in Hop; try done; try congruence; try (by apply IH).
  destruct (IH _ _ E Hall) as (l' & ? & ? & ? & Hu). exists l'. naive_solver.
Qed.
End theorems.

(** A lease of ten seconds with five of grace, and what may happen to it
    before second fifteen. *)
Lemma lease_survives_until_grace_witness :
  let t := (install "a" 10 5 false (Some (f64_of_Z 0)) (f64_of_Z 0) (∅ : gmap string Lease)).2 in
  let ops := [(OSweep (Some (f64_of_Z 12)), f64_of_Z 0); (ODrop "b", f64_of_Z 13);
              (OSweep None, f64_of_Z 14)] in
  ∃ l', lease_run ops t !! "a" = Some l' ∧ state l' = Unhealthy.
Proof.
  set (t := (install "a" 10 5 false (Some (f64_of_Z 0)) (f64_of_Z 0) (∅ : gmap string Lease)).2).
  set (ops := [(OSweep (Some (f64_of_Z 12)), f64_of_Z 0); (ODrop "b", f64_of_Z 13);
              (OSweep None, f64_of_Z 14)]).
  destruct (lease_survives_until_grace ops t "a" (new_lease 10 5 false (f64_of_Z 0)))
    as (l' & Hl & _); [done|by repeat constructor|].
  exists l'. split; [done|]. vm_compute in Hl. injection Hl as <-. done.
Defined.
