(* ===== verification/Heartbeat.v ===== *)
(** Heartbeat leases of the registry backend: the per-namespace policy
    (LeaseConfig and lease_config.json, register/store.rs and
    register/service.rs), the store over the lease table (heartbeat/store.rs)
    and the sweeper that hard-deletes expired services
    (heartbeat/sweeper.rs). *)
From S2P Require Import Prelude F64 RustMap RustStr Json Common Lease.

(** * Python coercions used when the policy file is read (util/mod.rs) *)

(** [util::py_truthy]. *)
Definition py_truthy (v : Value) : bool :=
  match v with
  | JNull => false
  | JBool b => b
  | JNumber n => negb (SFeqb (number_as_f64 n) (S754_zero false))
  | JString s => negb (str_is_empty s)
  | JArray a => bool_decide (a ≠ [])
  | JObject o => bool_decide (o ≠ [])
  end.

(** [util::py_int]. *)
Definition py_int (v : Value) : option Z :=
  match v with
  | JBool b => Some (if b then 1 else 0)%Z
  | JNumber n =>
      match as_i64 v with
      | Some i => Some i
      | None => Some (f64_as_i64 (number_as_f64 n))
      end
  | JString s => parse_i64 (trim s)
  | _ => None
  end.

(** * The policy of a namespace *)

Record LeaseConfig := mkLeaseConfig {
  enabled : bool;
  min_ttl : Z;
  max_ttl : Z;
  grace_period : Z;
  schema_version : Z
}.

(** [LeaseConfig::default]. *)
Definition default_lease_config : LeaseConfig := mkLeaseConfig false 10 3600 300 1.

(** [LeaseConfig::to_json]: the on-disk key order. *)
Definition lease_config_to_json (c : LeaseConfig) : JsonDict :=
  [("enabled", JBool (enabled c)); ("min_ttl", value_of_i64 (min_ttl c));
   ("max_ttl", value_of_i64 (max_ttl c)); ("grace_period", value_of_i64 (grace_period c));
   ("schema_version", value_of_i64 (schema_version c))].

(** The closure [int_or] of [load_lease_config]. *)
Definition int_or (data : JsonDict) (key : string) (dflt : Z) : option Z :=
  match aget key data with None => Some dflt | Some v => py_int v end.

(** [RegistryStore::load_lease_config], from what [read_json] answers: [None]
    when the file does not exist. *)
Definition load_lease_config (file : option (result Value string)) : LeaseConfig :=
  match file with
  | None => default_lease_config
  | Some (Ok (JObject data)) =>
      let d := default_lease_config in
      let parsed :=
        let enabled := match aget "enabled" data with Some v => py_truthy v | None => false end in
        min_ttl ← Z.max 1 <$> int_or data "min_ttl" (min_ttl d);
        max_ttl ← Z.max min_ttl <$> int_or data "max_ttl" (max_ttl d);
        grace ← Z.max 0 <$> int_or data "grace_period" (grace_period d);
        schema_version ← int_or data "schema_version" 1;
        Some (mkLeaseConfig enabled min_ttl max_ttl grace schema_version) in
      default default_lease_config parsed
  | Some (Ok _) => default_lease_config
  | Some (Err _) => default_lease_config
  end.

(** register/errors.rs. *)
Inductive RegistryError :=
| RegNotFound (msg : string)
| RegInvalid (msg : string)
| RegPermission (msg : string)
| RegFileNotFound (msg : string)
| RegFetch (msg : string)
| RegIo (msg : string).

(** The file of a dataset's policy: absent, unreadable or a value. *)
Notation LeaseFile := (option (result Value string)).

(** [RegistryStore::write_lease_config]: the bounds are checked, then the file
    is replaced atomically. *)
Definition write_lease_config (io : AtomicIo (result Value string)) (enabled : bool)
    (min_ttl max_ttl grace_period : Z) (file : LeaseFile) : result unit RegistryError * LeaseFile :=
  if (min_ttl <? 1)%Z then
    (Err (RegInvalid ("min_ttl must be >= 1, got " +:+ pretty min_ttl)), file)
  else if (max_ttl <? min_ttl)%Z then
    (Err (RegInvalid ("max_ttl (" +:+ pretty max_ttl +:+ ") must be >= min_ttl (" +:+ pretty min_ttl +:+ ")")),
     file)
  else if (grace_period <? 0)%Z then
    (Err (RegInvalid ("grace_period must be >= 0, got " +:+ pretty grace_period)), file)
  else
    let '(r, file) := atomic_write_bytes io
      (Ok (JObject (lease_config_to_json (mkLeaseConfig enabled min_ttl max_ttl grace_period 1)))) file in
    (map_err RegIo r, file).

(** What the registry service keeps of lease policies: the dataset
    directories with their lease_config.json, and the cache in front. *)
Record LeaseConfigs := mkLeaseConfigs {
  dataset_dirs : gmap string (option (result Value string));
  lease_config_cache : gmap string LeaseConfig
}.

(** [RegistryService::get_lease_config]; [open_ok] is whether [get_store]
    succeeds. *)
Definition get_lease_config (open_ok : bool) (dataset : string) (s : LeaseConfigs)
    : LeaseConfig * LeaseConfigs :=
  match lease_config_cache s !! dataset with
  | Some c => (c, s)
  | None =>
      match dataset_dirs s !! dataset with
      | None => (default_lease_config, s)
      | Some file =>
          let cfg := if open_ok then load_lease_config file else default_lease_config in
          (cfg, mkLeaseConfigs (dataset_dirs s) (<[dataset := cfg]> (lease_config_cache s)))
      end
  end.

(** [RegistryService::set_lease_config]; [open] is the outcome of
    [get_store]. *)
Definition set_lease_config (open : result unit RegistryError) (io : AtomicIo (result Value string))
    (dataset : string) (enabled : bool) (min_ttl max_ttl grace_period : Z) (s : LeaseConfigs)
    : result LeaseConfig RegistryError * LeaseConfigs :=
  match dataset_dirs s !! dataset with
  | None => (Err (RegInvalid ("Dataset '" +:+ dataset +:+ "' does not exist")), s)
  | Some file =>
      match open with
      | Err e => (Err e, s)
      | Ok _ =>
          let '(r, file) := write_lease_config io enabled min_ttl max_ttl grace_period file in
          let dirs := <[dataset := file]> (dataset_dirs s) in
          match r with
          | Err e => (Err e, mkLeaseConfigs dirs (lease_config_cache s))
          | Ok _ =>
              let cfg := mkLeaseConfig enabled min_ttl max_ttl grace_period 1 in
              (Ok cfg, mkLeaseConfigs dirs (<[dataset := cfg]> (lease_config_cache s)))
          end
      end
  end.

(** * The heartbeat store *)

Inductive HeartbeatErrorCode := NotSupported | TtlRequired | TtlOutOfRange.

(** [HeartbeatErrorCode::as_str]. *)
Definition code_as_str (c : HeartbeatErrorCode) : string :=
  match c with
  | NotSupported => "heartbeat_not_supported"
  | TtlRequired => "ttl_required"
  | TtlOutOfRange => "ttl_out_of_range"
  end.

Record HeartbeatError := mkHeartbeatError {
  he_code : HeartbeatErrorCode;
  he_message : string;
  he_min_ttl : option Z;
  he_max_ttl : option Z
}.

(** [HeartbeatError::not_supported] and [body]. *)
Definition not_supported (message : string) : HeartbeatError :=
  mkHeartbeatError NotSupported message None None.
Definition he_body (e : HeartbeatError) : JsonDict :=
  let m := im_insert "code" (JString (code_as_str (he_code e))) [] in
  let m := im_insert "detail" (JString (he_message e)) m in
  let m := match he_min_ttl e with Some v => im_insert "min_ttl" (value_of_i64 v) m | None => m end in
  match he_max_ttl e with Some v => im_insert "max_ttl" (value_of_i64 v) m | None => m end.

(** [LeaseKey]: [(dataset, service_id)]. *)
Notation LeaseKey := (string * string)%type.

(** The trait [LeaseConfigProvider]: where the store reads policies. *)
Class LeaseConfigProvider := lease_config : string → LeaseConfig.

Section heartbeat_store.
Context `{!LeaseConfigProvider, !HashIter}.
Implicit Types (table : gmap LeaseKey Lease).

(** [HeartbeatStore::validate]: the four corner matrix. *)
Definition validate (dataset : string) (client_ttl : option Z) : result (option Z) HeartbeatError :=
  let cfg := lease_config dataset in
  if negb (enabled cfg) then
    match client_ttl with
    | None => Ok None
    | Some _ =>
        Err (not_supported ("Namespace '" +:+ dataset +:+
          "' does not enable heartbeat leases. Remove 'lease_ttl' from the request or ask admin to enable it."))
    end
  else
    let lo := min_ttl cfg in
    let hi := max_ttl cfg in
    match client_ttl with
    | None =>
        Err (mkHeartbeatError TtlRequired
          ("Namespace '" +:+ dataset +:+ "' requires 'lease_ttl' on registration; allowed range ["
            +:+ pretty lo +:+ ", " +:+ pretty hi +:+ "].") (Some lo) (Some hi))
    | Some ttl =>
        if (ttl <? lo)%Z || (hi <? ttl)%Z then
          Err (mkHeartbeatError TtlOutOfRange
            ("lease_ttl=" +:+ pretty ttl +:+ " out of range [" +:+ pretty lo +:+ ", " +:+ pretty hi
              +:+ "] for namespace '" +:+ dataset +:+ "'.") (Some lo) (Some hi))
        else Ok (Some ttl)
    end.

(** [HeartbeatStore::grace]. *)
Definition hb_grace (dataset : string) : Z := Z.max 0 (grace_period (lease_config dataset)).

(** [HeartbeatStore::install]. *)
Definition hb_install (dataset service_id : string) (ttl : Z) (mono : f64) table
    : Lease * gmap LeaseKey Lease :=
  install (dataset, service_id) (Z.max 0 ttl) (hb_grace dataset) false None mono table.

(** [HeartbeatStore::grant]. *)
Definition grant (dataset service_id : string) (client_ttl : option Z) (mono : f64) table
    : result (option Lease) HeartbeatError * gmap LeaseKey Lease :=
  match validate dataset client_ttl with
  | Err e => (Err e, table)
  | Ok None => (Ok None, table)
  | Ok (Some ttl) =>
      let '(lease, table) := hb_install dataset service_id ttl mono table in
      (Ok (Some lease), table)
  end.

(** [HeartbeatStore::heartbeat_at]; [heartbeat] passes [None]. *)
Definition heartbeat_at (dataset service_id : string) (now : option f64) (mono : f64) table
    : option Lease * gmap LeaseKey Lease :=
  renew (dataset, service_id) now mono table.

(** [HeartbeatStore::revoke]. *)
Definition hb_revoke (dataset service_id : string) (permanent : bool) (mono : f64) table
    : bool * gmap LeaseKey Lease :=
  revoke (dataset, service_id) permanent None mono table.

(** [HeartbeatStore::drop_lease]. *)
Definition drop_lease (dataset service_id : string) table : gmap LeaseKey Lease :=
  drop_key (dataset, service_id) table.

(** [HeartbeatStore::is_unhealthy]. *)
Definition hb_is_unhealthy (dataset service_id : string) table : bool :=
  is_unhealthy (dataset, service_id) table.

(** [HeartbeatStore::recover_from_persisted]. *)
Definition recover_from_persisted (entries : list (string * string * Z)) (mono : f64) table
    : gmap LeaseKey Lease :=
  foldl (λ table e,
           let '(dataset, sid, ttl) := e in
           (install (dataset, sid) (Z.max 0 ttl) (hb_grace dataset) true None mono table).2)
        table entries.
End heartbeat_store.

(** * The sweeper *)

(** The trait [HardDeleter], over the state [W] its implementation acts on. *)
Class HardDeleter (W : Type) := hard_delete : string → string → W → result unit string * W.

Section sweeper.
Context {W : Type} `{!HardDeleter W, !HashIter}.

(** [HeartbeatSweeper::sweep_once_at]: failures are logged and dropped. *)
Definition sweep_once_at (now : option f64) (mono : f64) (table : gmap LeaseKey Lease) (w : W)
    : gmap LeaseKey Lease * W :=
  let '(newly_unhealthy, to_hard_delete, table) := sweep_tick now mono table in
  (table, foldl (λ w key, (hard_delete key.1 key.2 w).2) w to_hard_delete).
End sweeper.

(** A deleter that records the calls it gets, answering as [answer] says. *)
Definition recording_deleter (answer : string → string → result unit string) :
    HardDeleter (list LeaseKey) := λ ds sid calls, (answer ds sid, calls ++ [(ds, sid)]).

(** * Theorems *)

(** The bounds [write_lease_config] checks and [load_lease_config] restores. *)
Definition sane (c : LeaseConfig) : Prop :=
  (1 ≤ min_ttl c)%Z ∧ (min_ttl c ≤ max_ttl c)%Z ∧ (0 ≤ grace_period c)%Z.

(** Whatever the file holds (nothing, unreadable text, a policy with absurd
    bounds), the policy loaded from it is one that could have been written. *)
Theorem load_lease_config_sane file : sane (load_lease_config file).
Proof.
  assert (Hd : sane default_lease_config) by (unfold sane; simpl; lia).
  destruct file as [[[| | | | |data]|]|]; simpl; try done.
  destruct (int_or data "min_ttl" 10); simpl; [|done].
  destruct (int_or data "max_ttl" 3600); simpl; [|done].
  destruct (int_or data "grace_period" 300); simpl; [|done].
  destruct (int_or data "schema_version" 1); simpl; [|done].
  unfold sane; simpl. lia.
Qed.

Lemma load_written enabled min_ttl max_ttl grace :
  in_i64 min_ttl → in_i64 max_ttl → in_i64 grace →
  (1 ≤ min_ttl)%Z → (min_ttl ≤ max_ttl)%Z → (0 ≤ grace)%Z →
  load_lease_config (Some (Ok (JObject (lease_config_to_json
    (mkLeaseConfig enabled min_ttl max_ttl grace 1))))) = mkLeaseConfig enabled min_ttl max_ttl grace 1.
Proof.
  intros H1 H2 H3 ???.
  assert (Hi : ∀ z, in_i64 z → py_int (value_of_i64 z) = Some z).
  { intros z Hz. pose proof (as_i64_value_of_i64 z Hz) as H'.
    unfold py_int, value_of_i64 in *. by rewrite H'. }
  unfold load_lease_config, lease_config_to_json, int_or. cbn -[value_of_i64 py_int].
  decide_literals. rewrite !Hi by done. simpl. f_equal; lia.
Qed.

(** A policy that is accepted is the policy in force, from the cache now and
    from the file after a restart; one that is refused or cannot be written
    while renames work changes nothing. *)
Theorem set_lease_config_spec open io dataset enabled min_ttl max_ttl grace s :
  in_i64 min_ttl → in_i64 max_ttl → in_i64 grace → renames io = true →
  let '(r, s') := set_lease_config open io dataset enabled min_ttl max_ttl grace s in
  match r with
  | Ok cfg =>
      cfg = mkLeaseConfig enabled min_ttl max_ttl grace 1 ∧ sane cfg ∧
      (get_lease_config true dataset s').1 = cfg ∧
      (get_lease_config true dataset (mkLeaseConfigs (dataset_dirs s') ∅)).1 = cfg
  | Err _ => s' = s
  end.
Proof.
  intros H1 H2 H3 Hren. unfold set_lease_config.
  destruct (dataset_dirs s !! dataset) as [file|] eqn:Ed; [|done]. destruct open as [[]|]; [|done].
  assert (Hkeep : ∀ cache, mkLeaseConfigs (<[dataset := file]> (dataset_dirs s)) cache =
                           mkLeaseConfigs (dataset_dirs s) cache) by (intros; by rewrite insert_id).
  assert (Hs : mkLeaseConfigs (dataset_dirs s) (lease_config_cache s) = s) by (by destruct s).
  unfold write_lease_config.
  destruct (Z.ltb_spec min_ttl 1); [by rewrite Hkeep|].
  destruct (Z.ltb_spec max_ttl min_ttl); [by rewrite Hkeep|].
  destruct (Z.ltb_spec grace 0); [by rewrite Hkeep|].
  destruct (atomic_write_bytes _ _ _) as [[[]|e] file'] eqn:Ew; simpl.
  - apply atomic_write_Ok in Ew as ->. split; [done|]. split; [unfold sane; simpl; lia|].
    unfold get_lease_config; simpl. rewrite lookup_insert_eq. split; [done|].
    rewrite lookup_empty, lookup_insert_eq. by apply load_written.
  - apply atomic_write_Err in Ew as ->; [|done]. by rewrite Hkeep.
Qed.

Lemma set_lease_config_spec_witness :
  let s := mkLeaseConfigs {["ds" := None]} ∅ in
  let '(r, s') := set_lease_config (Ok ()) rename_works "ds" true 5 60 30 s in
  r = Ok (mkLeaseConfig true 5 60 30 1) ∧
  (get_lease_config true "ds" (mkLeaseConfigs (dataset_dirs s') ∅)).1 = mkLeaseConfig true 5 60 30 1.
Proof.
  pose proof (set_lease_config_spec (Ok ()) rename_works "ds" true 5 60 30
    (mkLeaseConfigs {["ds" := None]} ∅) ltac:(done) ltac:(done) ltac:(done) eq_refl) as Hs.
  vm_compute in Hs. destruct Hs as (Hc & _ & _ & Hf). vm_compute. split; [done|exact Hf].
Defined.

(** A requested lifetime is accepted exactly when leases are enabled and it is
    within the policy's bounds; each refusal names its cause. *)
Theorem validate_spec `{!LeaseConfigProvider} dataset client_ttl :
  let cfg := lease_config dataset in
  match validate dataset client_ttl with
  | Ok None => enabled cfg = false ∧ client_ttl = None
  | Ok (Some ttl) => enabled cfg = true ∧ client_ttl = Some ttl ∧ (min_ttl cfg ≤ ttl ≤ max_ttl cfg)%Z
  | Err e =>
      match he_code e with
      | NotSupported => enabled cfg = false ∧ is_Some client_ttl
      | TtlRequired => enabled cfg = true ∧ client_ttl = None
      | TtlOutOfRange =>
          enabled cfg = true ∧ ∃ ttl, client_ttl = Some ttl ∧ ¬ (min_ttl cfg ≤ ttl ≤ max_ttl cfg)%Z
      end
  end.
Proof.
  unfold validate. destruct (enabled (lease_config dataset)); simpl; [|by destruct client_ttl].
  destruct client_ttl as [ttl|]; simpl; [|done].
  destruct (Z.ltb_spec ttl (min_ttl (lease_config dataset))); simpl.
  { split; [done|]. exists ttl. split; [done|lia]. }
  destruct (Z.ltb_spec (max_ttl (lease_config dataset)) ttl); simpl; [|by repeat split].
  split; [done|]. exists ttl. split; [done|lia].
Qed.

(** One sweep calls the hard deleter exactly once for every lease it removes
    and for no other, whatever the deleter answers. *)
Theorem sweep_hard_deletes `{!HashIter} answer now mono table calls :
  let '(gone, table') := ((sweep_tick now mono table).1.2, (sweep_tick now mono table).2) in
  @sweep_once_at _ (recording_deleter answer) _ now mono table calls = (table', calls ++ gone) ∧
  NoDup gone ∧ ∀ key, key ∈ gone ↔ is_Some (table !! key) ∧ table' !! key = None.
Proof.
  split_and!.
  - unfold sweep_once_at.
    destruct (sweep_tick now mono table) as [[nw gone] t'] eqn:E. simpl. f_equal.
    clear E. revert calls. induction gone as [|[ds sid] gone IH]; intros calls; simpl.
    + by rewrite app_nil_r.
    + by rewrite IH, <-app_assoc.
  - unfold sweep_tick. simpl. apply (NoDup_aretain (λ _ r, r.2)).
    unfold akeys. rewrite <-list_fmap_compose. unfold hm_iter, compose; simpl.
    rewrite hash_order_perm. apply NoDup_fst_map_to_list.
  - intros key. rewrite elem_of_deleted, sweep_tick_lookup. split.
    + intros (l & -> & ->). eauto.
    + intros [[l Hl] Hn]. rewrite Hl in Hn. exists l. split; [done|].
      by destruct (dead (now_or now mono) l).
Qed.
