(* ===== verification/Lww.v ===== *)
(** Last-writer-wins versions (a2x-cluster/src/envelope.rs) and the abstract
    LWW register that the replicated overlays, of records and of membership,
    implement.

    The replicated record of the cluster (a2x-cluster/src/envelope.rs): its
    identity and the LWW register of an overlay of such records. *)
From S2P Require Import Prelude RustMap Json.

(** * Versions *)

(** [Version(ms, node_id)]. *)
Record Version := mkVersion { v_ms : Z; v_node : string }.
#[export] Instance Version_eq_dec : EqDecision Version.
Proof. solve_decision. Defined.

(** [impl Ord for Version]. *)
#[export] Instance Ord_Version : Ord Version := λ a b,
  match cmp (v_ms a) (v_ms b) with Eq => cmp (v_node a) (v_node b) | c => c end.

#[export] Instance OrdLaws_Version : OrdLaws Version.
Proof.
  assert (Hp : ∀ a b : Version, cmp a b = cmp (v_ms a, v_node a) (v_ms b, v_node b)) by done.
  split.
  - intros [m n] [m' n']. rewrite Hp, cmp_eq_iff. simpl. naive_solver.
  - intros a b. rewrite !Hp. apply cmp_opp.
  - intros a b c. rewrite !Hp. apply cmp_lt_trans.
Qed.

(** [version_newer]. *)
Definition version_newer (a : Version) (b : option Version) : bool :=
  match b with None => true | Some b => gtb a b end.

Lemma version_newer_irrefl v : version_newer v (Some v) = false.
Proof. unfold version_newer. by rewrite gtb_ltb, ltb_irrefl. Qed.

Lemma version_newer_trans a b o :
  version_newer a (Some b) = true → version_newer b o = true → version_newer a o = true.
Proof.
  destruct o as [c|]; simpl; [|done]. rewrite !gtb_ltb. intros Hab Hbc. by apply (ltb_trans c b a).
Qed.

Lemma version_newer_ms a b : (v_ms b < v_ms a)%Z → version_newer a (Some b) = true.
Proof.
  intros H. unfold version_newer, gtb, cmp, Ord_Version, cmp, Ord_Z.
  by rewrite (proj2 (Z.compare_gt_iff _ _)).
Qed.

Lemma version_newer_total a b :
  version_newer a (Some b) = false → version_newer b (Some a) = false → a = b.
Proof. simpl. rewrite !gtb_ltb. intros. by apply ltb_total. Qed.

(** [a] is at least as new as [b]. *)
Definition version_ge (a b : option Version) : Prop :=
  match b with
  | None => True
  | Some b => match a with None => False | Some a => version_newer b (Some a) = false end
  end.

#[export] Instance version_ge_preorder : PreOrder version_ge.
Proof.
  split.
  - intros [a|]; simpl; [apply version_newer_irrefl|done].
  - intros [a|] [b|] [c|]; simpl; try done. rewrite !gtb_ltb. intros H1 H2.
    destruct (ltb a c) eqn:E; [|done]. exfalso.
    pose proof (ltb_ge_trans b a c H1 E). congruence.
Qed.

Lemma version_newer_ge a o : version_newer a o = true → version_ge (Some a) o.
Proof.
  destruct o as [b|]; simpl; [|done]. rewrite !gtb_ltb. apply ltb_asym.
Qed.

(** * The LWW register *)

(** A replicated record: what identifies it and its version. *)
Class Replicated (E K : Type) := { lww_key : E → K; lww_version : E → Version }.
#[export] Hint Mode Replicated ! - : typeclass_instances.

Section lww.
Context {E K : Type} `{!Replicated E K, !EqDecision K}.
Implicit Types (k : K) (cur : option E) (l : list E).

(** Of the records of a list with key [k], the newest (the first of equals):
    what a replica should hold for [k]. *)
Definition lww_step (k : K) (cur : option E) (e : E) : option E :=
  if decide (lww_key e = k) then
    if version_newer (lww_version e) (lww_version <$> cur) then Some e else cur
  else cur.
Definition lww (k : K) (cur : option E) (l : list E) : option E :=
  foldl (lww_step k) cur l.

(** One record per key and version: an owner stamps every write anew. *)
Definition lww_consistent (l : list E) : Prop :=
  ∀ e1 e2, e1 ∈ l → e2 ∈ l →
    lww_key e1 = lww_key e2 → lww_version e1 = lww_version e2 → e1 = e2.

Lemma lww_spec k cur l :
  match lww k cur l with
  | None => cur = None ∧ ∀ e, e ∈ l → lww_key e ≠ k
  | Some r =>
      (cur = Some r ∨ (r ∈ l ∧ lww_key r = k)) ∧
      version_ge (Some (lww_version r)) (lww_version <$> cur) ∧
      ∀ e, e ∈ l → lww_key e = k → version_newer (lww_version e) (Some (lww_version r)) = false
  end.
Proof.
  unfold lww. induction l as [|e l IH] using rev_ind; simpl.
  - destruct cur as [r|]; simpl; [|set_solver]. split; [by left|].
    split; [apply version_newer_irrefl|]. set_solver.
  - rewrite foldl_app. simpl. generalize dependent (foldl (lww_step k) cur l). intros acc IH. unfold lww_step.
    destruct (decide (lww_key e = k)) as [Hk|Hk].
    + destruct (version_newer (lww_version e) (lww_version <$> acc)) eqn:Hn.
      * split; [right; set_solver|]. destruct acc as [r|]; simpl in *.
        -- destruct IH as (_ & Hge & Hall). rewrite gtb_ltb in Hn.
           assert (He : version_newer (lww_version r) (Some (lww_version e)) = false).
           { simpl. rewrite gtb_ltb. by apply ltb_asym. }
           split; [by trans (Some (lww_version r))|].
           intros e' [He'| ->%list_elem_of_singleton]%elem_of_app Hk';
             [|apply version_newer_irrefl].
           specialize (Hall e' He' Hk'). simpl in *. rewrite gtb_ltb in *.
           destruct (ltb (lww_version e) (lww_version e')) eqn:Elt; [|done].
           by rewrite (ltb_trans _ _ _ Hn Elt) in Hall.
        -- destruct IH as [-> Hall]. split; [done|].
           intros e' [He'| ->%list_elem_of_singleton]%elem_of_app Hk';
             [by destruct (Hall e')|apply version_newer_irrefl].
      * destruct acc as [r|]; simpl in *; [|done]. destruct IH as (Hr & Hge & Hall).
        split; [destruct Hr as [?|[? ?]]; [by left|right; rewrite elem_of_app; auto]|].
        split; [done|].
        intros e' [He'| ->%list_elem_of_singleton]%elem_of_app Hk'; [exact (Hall e' He' Hk')|done].
    + destruct acc as [r|].
      * destruct IH as (Hr & Hge & Hall). split; [destruct Hr as [?|[? ?]]; [by left|right; rewrite elem_of_app; auto]|].
        split; [done|].
        intros e' He' Hk'. apply elem_of_app in He' as [He'| ->%list_elem_of_singleton]; [exact (Hall e' He' Hk')|done].
      * destruct IH as [-> Hall]. split; [done|].
        intros e' He'. apply elem_of_app in He' as [He'| ->%list_elem_of_singleton]; [by apply Hall|done].
Qed.

(** The register depends on the set of records delivered, not on their
    order or multiplicity. *)
Lemma lww_set_eq k l1 l2 :
  lww_consistent l1 → (∀ e, e ∈ l1 ↔ e ∈ l2) → lww k None l1 = lww k None l2.
Proof.
  intros Hc Heq. pose proof (lww_spec k None l1) as H1. pose proof (lww_spec k None l2) as H2.
  destruct (lww k None l1) as [r1|] eqn:Er1, (lww k None l2) as [r2|] eqn:Er2; [|exfalso..|done].
  - destruct H1 as ([?|[Hin1 Hk1]] & _ & Hall1); [done|].
    destruct H2 as ([?|[Hin2 Hk2]] & _ & Hall2); [done|]. f_equal.
    apply Hc; [done|by apply Heq|congruence|].
    apply version_newer_total; [apply Hall2|apply Hall1]; try done; by apply Heq.
  - destruct H1 as ([?|[Hin1 Hk1]] & _), H2 as [_ H2]; [done|].
    apply (H2 r1); [by apply Heq|done].
  - destruct H2 as ([?|[Hin2 Hk2]] & _), H1 as [_ H1]; [done|].
    apply (H1 r2); [by apply Heq|done].
Qed.

Lemma lww_cons k cur e l :
  lww k cur (e :: l) =
    lww k (if decide (lww_key e = k) then
             if version_newer (lww_version e) (lww_version <$> cur) then Some e else cur
           else cur) l.
Proof. done. Qed.

Lemma lww_app k cur l1 l2 : lww k cur (l1 ++ l2) = lww k (lww k cur l1) l2.
Proof. apply foldl_app. Qed.

(** On batches with at most one candidate for the key. *)
Lemma lww_stable k cur l :
  (∀ e, e ∈ l → lww_key e = k → version_newer (lww_version e) (lww_version <$> cur) = false) →
  lww k cur l = cur.
Proof.
  unfold lww. induction l as [|e l IH] using rev_ind; intros Hn; [done|].
  rewrite foldl_app, IH by (intros e' ?; apply Hn; set_solver). simpl. unfold lww_step.
  case_decide as Hk; [|done]. rewrite (Hn e); [done|set_solver|done].
Qed.

Lemma lww_only k cur l e0 :
  (∀ e, e ∈ l → lww_key e = k → e = e0) → e0 ∈ l → lww_key e0 = k →
  lww k cur l = if version_newer (lww_version e0) (lww_version <$> cur) then Some e0 else cur.
Proof.
  intros Hu Hin Hk. destruct (version_newer _ _) eqn:Hn.
  2: { apply lww_stable. intros e He Hek. by rewrite (Hu e). }
  revert Hu Hin. induction l as [|e l IH]; intros Hu Hin; [by apply elem_of_nil in Hin|].
  assert (Hstep : lww k cur (e :: l) = lww k (lww_step k cur e) l) by done.
  rewrite Hstep. unfold lww_step. case_decide as Hek.
  - assert (e = e0) as -> by (apply Hu; set_solver). rewrite Hn. apply lww_stable.
    intros e' He' Hk'. rewrite (Hu e') by set_solver. apply version_newer_irrefl.
  - apply IH; [intros e' ?; apply Hu; set_solver|]. apply elem_of_cons in Hin as [->|?]; done.
Qed.

Lemma lww_absent k cur l : (∀ e, e ∈ l → lww_key e ≠ k) → lww k cur l = cur.
Proof. intros Hn. apply lww_stable. intros e He Hk. by destruct (Hn e). Qed.


End lww.

(** * Envelopes *)

(** [Key]: [(dataset, origin_id, service_id)]. *)
Notation Key := (string * string * string)%type.
Definition k_dataset (k : Key) : string := k.1.1.
Definition k_origin (k : Key) : string := k.1.2.
Definition k_service (k : Key) : string := k.2.

Record SyncEnvelope := mkEnvelope {
  env_dataset : string;
  env_service_id : string;
  env_origin_id : string;
  env_version : Version;
  env_tombstone : bool;
  env_payload : option Value
}.

(** [SyncEnvelope::key]. *)
Definition env_key (e : SyncEnvelope) : Key :=
  (env_dataset e, env_origin_id e, env_service_id e).

(** [SyncEnvelope::wrapped]. *)
Definition env_wrapped (e : SyncEnvelope) : option JsonDict :=
  p ← env_payload e; w ← vget "wrapped" p; as_object w.

(** [SyncEnvelope::entry]. *)
Definition env_entry (e : SyncEnvelope) : option Value :=
  p ← env_payload e; vget "entry" p.

(** An envelope is replicated under its key. *)
#[export] Instance envelope_replicated : Replicated SyncEnvelope Key :=
  {| lww_key := env_key; lww_version := env_version |}.
