(* ===== verification/Merkle.v ===== *)
(** Bucketed Merkle digest of the version index
    (a2x-cluster/src/merkle.rs): records are partitioned by a hash of their
    key, one hash per bucket, and only buckets whose hashes differ exchange
    rows.

    SHA-256 (crate sha2) and hex encoding (crate hex) are not code of the
    repository: they are the operations of the class [Digest], with the output
    length of the first and the injectivity of the second as laws. *)
From S2P Require Import Prelude RustMap RustStr Lww.
From Stdlib Require Import Ascii.

Class Digest := {
  sha256 : string → string;
  hex_encode : string → string;
  sha256_length (s : string) : String.length (sha256 s) = 32%nat;
  hex_encode_inj (a b : string) : hex_encode a = hex_encode b → a = b
}.

(** [SEP], the unit separator. *)
Definition SEP : ascii := "031"%char.
Definition SEP_str : string := String SEP "".

(** The index of versions the two sides compare: [HashMap<Key, Version>]. *)
Notation Index := (gmap Key Version).

(** [key_str]. *)
Definition key_str (key : Key) : string :=
  k_dataset key +:+ SEP_str +:+ k_origin key +:+ SEP_str +:+ k_service key.

Section merkle.
Context `{!Digest, !HashIter}.
Implicit Types (index : Index) (key : Key) (version : Version).

(** [bucket_of]. *)
Definition bucket_of key (n_buckets : Z) : Z :=
  let n := Z.max n_buckets 1 in
  let digest := sha256 (key_str key) in
  (head_u32 digest mod n)%Z.

(** The bytes [entry_digest] hashes, and [entry_digest]. *)
Definition entry_raw key version : string :=
  key_str key +:+ SEP_str +:+ pretty (v_ms version) +:+ SEP_str +:+ v_node version.
Definition entry_digest key version : string := sha256 (entry_raw key version).

(** The loop that fills the buckets: [entry(..).or_default().push(..)]. *)
Definition push_bucket (n_buckets : Z) (buckets : gmap Z (list (Key * Version)))
    (e : Key * Version) : gmap Z (list (Key * Version)) :=
  let b := bucket_of e.1 n_buckets in
  <[b := default [] (buckets !! b) ++ [e]]> buckets.

(** The bytes a bucket's hasher is fed, and the hash. *)
Definition bucket_raw (entries : list (Key * Version)) : string :=
  str_join "" ((λ e, entry_digest e.1 e.2) <$> sort entries).
Definition bucket_hash (entries : list (Key * Version)) : string :=
  hex_encode (sha256 (bucket_raw entries)).

(** [bucket_hashes]. *)
Definition bucket_hashes index (n_buckets : Z) : list (string * string) :=
  let buckets := foldl (push_bucket n_buckets) ∅ (hm_iter index) in
  foldl (λ out be, bm_insert (pretty be.1) (bucket_hash be.2) out) [] (hm_iter buckets).

(** [differing_buckets]: labels that do not parse are ignored. *)
Definition differing_buckets (local remote : list (string * string)) : list Z :=
  foldl (λ diff b,
           if decide (aget b local = aget b remote) then diff
           else match parse_u32 b with
                | Some idx => bs_insert idx diff
                | None => diff
                end)
        [] (akeys local ++ akeys remote).

(** [keys_in_buckets]. *)
Definition keys_in_buckets (keys : list Key) (buckets : list Z) (n_buckets : Z) : list Key :=
  filter (λ k, bucket_of k n_buckets ∈ buckets) keys.
End merkle.

(** * Lemmas *)

Section merkle_lemmas.
Context `{!Digest, !HashIter}.
Implicit Types (index : Index) (key : Key) (version : Version).

Lemma bucket_of_range key n : (0 ≤ bucket_of key n < Z.max n 1)%Z.
Proof. apply Z.mod_pos_bound. lia. Qed.

(** The entries of an index that fall in a bucket. *)
Definition bucket_entries index (n b : Z) : list (Key * Version) :=
  filter (λ e, bucket_of e.1 n = b) (map_to_list index).

Lemma push_bucket_lookup n l (acc : gmap Z (list (Key * Version))) b :
  foldl (push_bucket n) acc l !! b =
    match acc !! b, filter (λ e, bucket_of e.1 n = b) l with
    | None, [] => None
    | o, es => Some (default [] o ++ es)
    end.
Proof.
  revert acc. induction l as [|e l IH]; intros acc; simpl.
  - destruct (acc !! b); simpl; [by rewrite app_nil_r|done].
  - rewrite IH, filter_cons. unfold push_bucket at 1.
    destruct (decide (bucket_of e.1 n = b)) as [<-|Hne].
    + rewrite lookup_insert_eq. simpl.
      destruct (acc !! bucket_of e.1 n); simpl; by rewrite <-?app_assoc.
    + by rewrite lookup_insert_ne.
Qed.

Lemma bucket_hash_perm l1 l2 : l1 ≡ₚ l2 → bucket_hash l1 = bucket_hash l2.
Proof. intros Hp. unfold bucket_hash, bucket_raw. by rewrite (sort_perm_eq l1 l2). Qed.

Lemma pretty_bucket_inj (a b : Z) : pretty a = pretty b → a = b.
Proof. apply (inj (pretty (A := Z))). Qed.

Lemma aget_bucket_fold (l : list (Z * list (Key * Version))) out b :
  NoDup l.*1 →
  aget (pretty b) (foldl (λ out be, bm_insert (pretty be.1) (bucket_hash be.2) out) out l) =
    match aget b l with Some es => Some (bucket_hash es) | None => aget (pretty b) out end.
Proof.
  revert out. induction l as [|[b' es] l IH]; intros out; simpl; [done|].
  rewrite NoDup_cons. intros [Hn Hnd]. rewrite IH by done. rewrite aget_bm_insert.
  destruct (decide (b = b')) as [->|Hne].
  - apply aget_None_keys in Hn. rewrite Hn. by rewrite decide_True.
  - rewrite (decide_False (P := pretty b = pretty b'));
      [done|by intros ?%pretty_bucket_inj].
Qed.

Lemma aget_hm_iter {V} (m : gmap Z V) b : aget b (hm_iter m) = m !! b.
Proof.
  assert (Hnd : NoDup (akeys (hm_iter m))).
  { unfold akeys. rewrite hm_iter_perm. apply NoDup_fst_map_to_list. }
  destruct (m !! b) as [v|] eqn:E.
  - apply aget_elem; [done|]. by apply elem_of_hm_iter.
  - destruct (aget b (hm_iter m)) as [v|] eqn:E'; [|done].
    apply aget_Some_elem, elem_of_hm_iter in E'. congruence.
Qed.

(** What the map of bucket hashes holds, whatever the iteration orders. *)
Lemma bucket_hashes_lookup index n b :
  aget (pretty b) (bucket_hashes index n) =
    match bucket_entries index n b with [] => None | es => Some (bucket_hash es) end.
Proof.
  unfold bucket_hashes. rewrite aget_bucket_fold.
  2: { rewrite hm_iter_perm. apply NoDup_fst_map_to_list. }
  rewrite aget_hm_iter, push_bucket_lookup, lookup_empty. simpl.
  assert (Hp : filter (λ e, bucket_of e.1 n = b) (hm_iter index) ≡ₚ bucket_entries index n b).
  { unfold bucket_entries. by rewrite hm_iter_perm. }
  destruct (filter (λ e, bucket_of e.1 n = b) (hm_iter index)) as [|e l] eqn:E.
  - apply Permutation_nil_l in Hp. by rewrite <-?Hp.
  - destruct (bucket_entries index n b) as [|e' l'].
    + symmetry in Hp. by apply Permutation_nil_cons in Hp.
    + f_equal. by apply bucket_hash_perm.
Qed.

Lemma bucket_hashes_keys index n s :
  s ∈ akeys (bucket_hashes index n) → ∃ b, s = pretty b ∧ (0 ≤ b < Z.max n 1)%Z.
Proof.
  unfold bucket_hashes.
  assert (Hgen : ∀ (l : list (Z * list (Key * Version))) out,
    s ∈ akeys (foldl (λ out be, bm_insert (pretty be.1) (bucket_hash be.2) out) out l) →
    s ∈ akeys out ∨ ∃ be, be ∈ l ∧ s = pretty be.1).
  { induction l as [|be l IH]; intros out; simpl; [by left|].
    intros [Hs|Hs]%IH.
    - apply elem_of_keys_bm_insert in Hs as [->|Hs]; [|by left].
      right. exists be. set_solver.
    - right. destruct Hs as (be' & ? & ->). exists be'. set_solver. }
  intros [Hs|([b es] & Hin & ->)]%Hgen; [by apply elem_of_nil in Hs|].
  exists b. split; [done|]. apply elem_of_hm_iter in Hin.
  rewrite push_bucket_lookup, lookup_empty in Hin.
  destruct (filter (λ e, bucket_of e.1 n = b) (hm_iter index)) as [|e l] eqn:E; [done|].
  assert (He : e ∈ filter (λ e, bucket_of e.1 n = b) (hm_iter index))
    by (rewrite E; set_solver).
  apply list_elem_of_filter in He as [<- _]. apply bucket_of_range.
Qed.

Lemma elem_of_differing local remote idx :
  idx ∈ differing_buckets local remote ↔
  ∃ b, (b ∈ akeys local ∨ b ∈ akeys remote) ∧ aget b local ≠ aget b remote ∧ parse_u32 b = Some idx.
Proof.
  unfold differing_buckets. setoid_rewrite <-elem_of_app.
  generalize (akeys local ++ akeys remote). intros l.
  induction l as [|b l IH] using rev_ind; simpl; [set_solver|].
  rewrite foldl_app. simpl. destruct (decide (aget b local = aget b remote)) as [He|Hne].
  - rewrite IH. split; [set_solver|]. intros (b' & Hin & Hd & Hp).
    apply elem_of_app in Hin as [Hin| ->%list_elem_of_singleton]; [eauto|done].
  - destruct (parse_u32 b) as [i|] eqn:E.
    + rewrite elem_of_bs_insert, IH. split.
      * intros [->|(b' & ? & ? & ?)]; [exists b|exists b']; rewrite elem_of_app;
          split_and!; auto; right; set_solver.
      * intros (b' & Hin & Hd & Hp).
        apply elem_of_app in Hin as [Hin| ->%list_elem_of_singleton]; [eauto|].
        left. congruence.
    + rewrite IH. split; [set_solver|]. intros (b' & Hin & Hd & Hp).
      apply elem_of_app in Hin as [Hin| ->%list_elem_of_singleton]; [eauto|congruence].
Qed.

(** A label printed from a bucket index in [u32] range parses back to it. *)
Lemma parse_pretty_bucket b n :
  (0 ≤ b < Z.max n 1)%Z → (n ≤ u32_max)%Z → parse_u32 (pretty b) = Some b.
Proof. intros. apply parse_unsigned_pretty. unfold u32_max in *. lia. Qed.

End merkle_lemmas.

(** A bucket is reported iff the two sides' hashes for it differ. *)
Lemma elem_of_differing_hashes `{!Digest} (o1 o2 : HashIter) i1 i2 n b :
  (n ≤ u32_max)%Z →
  b ∈ differing_buckets (@bucket_hashes _ o1 i1 n) (@bucket_hashes _ o2 i2 n) ↔
  aget (pretty b) (@bucket_hashes _ o1 i1 n) ≠ aget (pretty b) (@bucket_hashes _ o2 i2 n).
Proof.
  intros Hn. rewrite elem_of_differing. split.
  - intros (s & Hin & Hd & Hp).
    assert (∃ b', s = pretty b' ∧ (0 ≤ b' < Z.max n 1)%Z) as (b' & -> & Hr)
      by (destruct Hin as [Hin|Hin]; exact (bucket_hashes_keys _ _ _ Hin)).
    rewrite (parse_pretty_bucket b' n) in Hp by done. by injection Hp as ->.
  - intros Hd.
    assert (Hin : pretty b ∈ akeys (@bucket_hashes _ o1 i1 n) ∨ pretty b ∈ akeys (@bucket_hashes _ o2 i2 n)).
    { destruct (decide (pretty b ∈ akeys (@bucket_hashes _ o1 i1 n))) as [|H1]; [by left|].
      destruct (decide (pretty b ∈ akeys (@bucket_hashes _ o2 i2 n))) as [|H2]; [by right|].
      apply aget_None_keys in H1, H2. congruence. }
    exists (pretty b). split_and!; [done..|].
    assert (∃ b', pretty b = pretty b' ∧ (0 ≤ b' < Z.max n 1)%Z) as (b' & ->%pretty_bucket_inj & Hr)
      by (destruct Hin as [Hin|Hin]; exact (bucket_hashes_keys _ _ _ Hin)).
    by apply (parse_pretty_bucket b' n).
Qed.

(** ** Injectivity of what is hashed *)

(** Ids never contain the separator. *)
Definition sep_free (k : Key) : Prop :=
  contains_char SEP (k_dataset k) = false ∧ contains_char SEP (k_origin k) = false ∧
  contains_char SEP (k_service k) = false.

Lemma sep_split a b r r' :
  contains_char SEP a = false → contains_char SEP b = false →
  a +:+ SEP_str +:+ r = b +:+ SEP_str +:+ r' → a = b ∧ r = r'.
Proof.
  intros Ha Hb Heq. pose proof (split_once_app SEP a r Ha) as H1.
  pose proof (split_once_app SEP b r' Hb) as H2. unfold SEP_str in Heq. simpl in Heq.
  rewrite Heq, H2 in H1. by simplify_eq.
Qed.

Lemma entry_raw_inj k v k' v' :
  sep_free k → sep_free k' → entry_raw k v = entry_raw k' v' → (k, v) = (k', v').
Proof.
  destruct k as [[d o] s], k' as [[d' o'] s'], v as [m n], v' as [m' n'].
  intros (Hd & Ho & Hs) (Hd' & Ho' & Hs'). unfold entry_raw, key_str.
  unfold k_dataset, k_origin, k_service in *. cbn [fst snd v_ms v_node] in *.
  rewrite <-!str_app_assoc.
  intros Heq. apply sep_split in Heq as [-> Heq]; [|done..].
  apply sep_split in Heq as [-> Heq]; [|done..].
  apply sep_split in Heq as [-> Heq]; [|done..].
  apply sep_split in Heq as [Hm ->]; [|by apply pretty_no_char..].
  by apply pretty_bucket_inj in Hm as ->.
Qed.

Lemma str_app_inj_length a a' b b' :
  String.length a = String.length a' → a +:+ b = a' +:+ b' → a = a' ∧ b = b'.
Proof.
  revert a'. induction a as [|c a IH]; intros [|c' a']; simpl; try done.
  intros [= Hl] [= -> Heq]. by destruct (IH _ Hl Heq) as [-> ->].
Qed.

Lemma str_join_nil x l : str_join "" (x :: l) = x +:+ str_join "" l.
Proof. destruct l; simpl; [by rewrite str_app_nil_r|done]. Qed.

Section merkle_collisions.
Context `{!Digest}.

Lemma join_digests_inj {A} (f : A → string) (l l' : list A) :
  (∀ x, String.length (f x) = 32%nat) →
  str_join "" (f <$> l) = str_join "" (f <$> l') → f <$> l = f <$> l'.
Proof.
  intros Hlen. revert l'. induction l as [|x l IH]; intros [|x' l']; [done|..].
  - rewrite fmap_cons, str_join_nil. intros Heq. apply (f_equal String.length) in Heq.
    rewrite str_length_app, Hlen in Heq. by simpl in Heq.
  - rewrite fmap_cons, str_join_nil. intros Heq. apply (f_equal String.length) in Heq.
    rewrite str_length_app, Hlen in Heq. by simpl in Heq.
  - rewrite !fmap_cons, !str_join_nil. intros Heq.
    apply str_app_inj_length in Heq as [-> Heq]; [|by rewrite !Hlen]. f_equal. by apply IH.
Qed.

(** The strings that hashing an index into [n] buckets feeds to SHA-256. *)
Definition hashed (index : Index) (n : Z) (s : string) : Prop :=
  (∃ k v, index !! k = Some v ∧ s = entry_raw k v) ∨
  (∃ b, bucket_entries index n b ≠ [] ∧ s = bucket_raw (bucket_entries index n b)).

(** Two different strings that were hashed, one on each side, to one digest. *)
Definition collision (i1 i2 : Index) (n : Z) : Prop :=
  ∃ a b, hashed i1 n a ∧ hashed i2 n b ∧ a ≠ b ∧ sha256 a = sha256 b.

Lemma NoDup_bucket_entries (index : Index) n b : NoDup (bucket_entries index n b).
Proof. apply NoDup_filter, NoDup_map_to_list. Qed.

Lemma elem_of_bucket_entries (index : Index) n b k v :
  (k, v) ∈ bucket_entries index n b ↔ index !! k = Some v ∧ bucket_of k n = b.
Proof. unfold bucket_entries. rewrite list_elem_of_filter, elem_of_map_to_list. naive_solver. Qed.

(** Equal digests, entry by entry, of entries that really are equal, or a
    collision. *)
Lemma digests_eq_or_collision i1 i2 n (l1 l2 : list (Key * Version)) :
  (∀ k v, i1 !! k = Some v → sep_free k) → (∀ k v, i2 !! k = Some v → sep_free k) →
  (∀ e, e ∈ l1 → i1 !! e.1 = Some e.2) → (∀ e, e ∈ l2 → i2 !! e.1 = Some e.2) →
  (λ e, entry_digest e.1 e.2) <$> l1 = (λ e, entry_digest e.1 e.2) <$> l2 →
  l1 = l2 ∨ collision i1 i2 n.
Proof.
  intros Hs1 Hs2. revert l2. induction l1 as [|[k v] l1 IH]; intros [|[k' v'] l2] Hin1 Hin2; simpl;
    [by left|done|done|]. intros [= Hd Hds].
  assert (Hk : i1 !! k = Some v) by (apply (Hin1 (k, v)); set_solver).
  assert (Hk' : i2 !! k' = Some v') by (apply (Hin2 (k', v')); set_solver).
  destruct (decide (entry_raw k v = entry_raw k' v')) as [Heq|Hne].
  - apply entry_raw_inj in Heq as [= <- <-]; [|by eauto..].
    destruct (IH l2) as [->|Hc];
      [intros e ?; apply Hin1; set_solver|intros e ?; apply Hin2; set_solver|done|by left|by right].
  - right. exists (entry_raw k v), (entry_raw k' v').
    split; [left; eauto|]. split; [left; eauto|]. done.
Qed.

Lemma bucket_hash_eq i1 i2 n b :
  (∀ k v, i1 !! k = Some v → sep_free k) → (∀ k v, i2 !! k = Some v → sep_free k) →
  bucket_entries i1 n b ≠ [] → bucket_entries i2 n b ≠ [] →
  bucket_hash (bucket_entries i1 n b) = bucket_hash (bucket_entries i2 n b) →
  bucket_entries i1 n b ≡ₚ bucket_entries i2 n b ∨ collision i1 i2 n.
Proof.
  intros Hs1 Hs2 Hn1 Hn2 Heq. unfold bucket_hash in Heq. apply hex_encode_inj in Heq.
  destruct (decide (bucket_raw (bucket_entries i1 n b) = bucket_raw (bucket_entries i2 n b)))
    as [Hraw|Hraw].
  - unfold bucket_raw in Hraw. apply join_digests_inj in Hraw;
      [|intros; apply sha256_length].
    apply (digests_eq_or_collision i1 i2 n) in Hraw as [Hs|Hc]; [|by right|done..| |].
    + left. by rewrite <-(sort_Permutation (bucket_entries i1 n b)), Hs, sort_Permutation.
    + intros [k v] Hin. rewrite elem_of_sort in Hin. by apply elem_of_bucket_entries in Hin as [? _].
    + intros [k v] Hin. rewrite elem_of_sort in Hin. by apply elem_of_bucket_entries in Hin as [? _].
  - right. eexists _, _. split; [by right; eauto|]. split; [by right; eauto|]. done.
Qed.
End merkle_collisions.

Lemma differing_locates `{!Digest} (o1 o2 : HashIter) (i1 i2 : Index) n k :
  (n ≤ u32_max)%Z →
  (∀ k v, i1 !! k = Some v → sep_free k) → (∀ k v, i2 !! k = Some v → sep_free k) →
  i1 !! k ≠ i2 !! k →
  bucket_of k n ∈ differing_buckets (@bucket_hashes _ o1 i1 n) (@bucket_hashes _ o2 i2 n) ∨
  collision i1 i2 n.
Proof.
  intros Hn Hs1 Hs2 Hne. set (b := bucket_of k n).
  destruct (decide (aget (pretty b) (@bucket_hashes _ o1 i1 n) =
                    aget (pretty b) (@bucket_hashes _ o2 i2 n))) as [Heq|Hd];
    [|left; by apply elem_of_differing_hashes].
  right. rewrite !bucket_hashes_lookup in Heq.
  assert (Hperm : bucket_entries i1 n b ≡ₚ bucket_entries i2 n b ∨ collision i1 i2 n).
  { destruct (bucket_entries i1 n b) as [|e1 l1] eqn:E1,
      (bucket_entries i2 n b) as [|e2 l2] eqn:E2; try done; [by left|].
    rewrite <-E1, <-E2 in *. apply bucket_hash_eq; [done|done|congruence..]. }
  destruct Hperm as [Hp|]; [exfalso|done]. apply Hne. apply option_eq. intros v.
  split; intros Hv; apply (elem_of_bucket_entries _ n b); [rewrite <-Hp|rewrite Hp];
    by apply elem_of_bucket_entries.
Qed.

(** A digest function for evaluating examples: the first 32 bytes, padded. *)
Fixpoint take_pad (n : nat) (s : string) : string :=
  match n, s with
  | O, _ => ""
  | S n, EmptyString => String "000" (take_pad n "")
  | S n, String c s => String c (take_pad n s)
  end.

Lemma take_pad_length n s : String.length (take_pad n s) = n.
Proof. revert s. induction n as [|n IH]; intros [|c s]; simpl; [done..| |]; by rewrite IH. Qed.

Definition prefix_digest : Digest := {|
  sha256 := take_pad 32;
  hex_encode := λ s, s;
  sha256_length := take_pad_length 32;
  hex_encode_inj := λ a b H, H
|}.

(** * Theorems *)

(** The digest of a replica is a function of its records: neither the order in
    which the index is iterated nor that of the bucket map shows. *)
Theorem bucket_hashes_order_independent `{!Digest} (o1 o2 : HashIter) (index : Index) n :
  @bucket_hashes _ o1 index n = @bucket_hashes _ o2 index n.
Proof.
  assert (Hs : ∀ o : HashIter, bm_sorted (@bucket_hashes _ o index n)).
  { intros o. unfold bucket_hashes. generalize (hm_iter (foldl (push_bucket n) ∅ (hm_iter index))).
    intros l. induction l as [|be l IH] using rev_ind; [constructor|].
    rewrite foldl_app. by apply bm_sorted_insert. }
  apply bm_ext; [apply Hs..|]. intros s.
  assert (Hkey : ∀ o : HashIter, s ∈ akeys (@bucket_hashes _ o index n) → ∃ b : Z, s = pretty b).
  { intros o (b & -> & _)%bucket_hashes_keys. by exists b. }
  destruct (aget s (@bucket_hashes _ o1 index n)) as [h|] eqn:E1.
  - destruct (Hkey o1) as [b ->]; [|by rewrite <-E1, !bucket_hashes_lookup].
    destruct (decide (s ∈ akeys (@bucket_hashes _ o1 index n))) as [|Hn]; [done|].
    apply aget_None_keys in Hn. congruence.
  - destruct (decide (s ∈ akeys (@bucket_hashes _ o2 index n))) as [Hin|Hn].
    + destruct (Hkey o2 Hin) as [b ->]. by rewrite <-E1, !bucket_hashes_lookup.
    + apply aget_None_keys in Hn. by rewrite Hn.
Qed.

(** The iteration order that reverses. *)
Definition hash_iter_rev : HashIter :=
  {| hash_order := λ A l, reverse l; hash_order_perm := λ A l, reverse_Permutation l |}.

Lemma bucket_hashes_order_independent_witness :
  let index : Index := {[("d", "a", "x") := mkVersion 1 "a"; ("d", "b", "y") := mkVersion 2 "b"]} in
  @bucket_hashes prefix_digest hash_iter_id index 4 = @bucket_hashes prefix_digest hash_iter_rev index 4.
Proof. intros index. exact (@bucket_hashes_order_independent prefix_digest _ _ index 4). Defined.

(** The buckets two replicas report are the buckets in which they differ: no
    bucket is reported whose records agree, and the bucket of every key whose
    versions differ is reported, unless SHA-256 collided on two of the strings
    the two sides hashed. *)
Theorem differing_buckets_exact `{!Digest} (o1 o2 : HashIter) (i1 i2 : Index) n :
  (n ≤ u32_max)%Z →
  (∀ k v, i1 !! k = Some v → sep_free k) → (∀ k v, i2 !! k = Some v → sep_free k) →
  let diff := differing_buckets (@bucket_hashes _ o1 i1 n) (@bucket_hashes _ o2 i2 n) in
  (∀ b, b ∈ diff → ¬ ∀ k, bucket_of k n = b → i1 !! k = i2 !! k) ∧
  (∀ k, i1 !! k ≠ i2 !! k → bucket_of k n ∈ diff ∨ collision i1 i2 n).
Proof.
  intros Hn Hs1 Hs2 diff. split; [|intros k Hk; by apply differing_locates].
  intros b Hb Hall. apply elem_of_differing_hashes in Hb; [|done]. apply Hb.
  rewrite !bucket_hashes_lookup.
  assert (Hp : bucket_entries i1 n b ≡ₚ bucket_entries i2 n b).
  { apply NoDup_Permutation; [apply NoDup_bucket_entries..|]. intros [k v].
    rewrite !elem_of_bucket_entries. split; intros [Hv Hk]; (split; [|done]); by rewrite <-Hv, Hall. }
  destruct (bucket_entries i1 n b) as [|e1 l1], (bucket_entries i2 n b) as [|e2 l2].
  - done.
  - by apply Permutation_nil_l in Hp.
  - by apply Permutation_nil_r in Hp.
  - f_equal. by apply bucket_hash_perm.
Qed.

(** Two replicas that differ in one record: its bucket is reported. *)
Lemma differing_buckets_exact_witness :
  let i1 : Index := {[("data", "a", "x") := mkVersion 1 "a"; ("datb", "b", "y") := mkVersion 2 "b"]} in
  let i2 : Index := {[("data", "a", "x") := mkVersion 1 "a"; ("datb", "b", "y") := mkVersion 3 "b"]} in
  let diff := differing_buckets (@bucket_hashes prefix_digest _ i1 4) (@bucket_hashes prefix_digest _ i2 4) in
  length diff = 1%nat ∧
  ((∀ b, b ∈ diff → ¬ ∀ k, @bucket_of prefix_digest k 4 = b → i1 !! k = i2 !! k) ∧
   (∀ k, i1 !! k ≠ i2 !! k → @bucket_of prefix_digest k 4 ∈ diff ∨ @collision prefix_digest i1 i2 4)).
Proof.
  intros i1 i2. split; [done|].
  apply (differing_buckets_exact (H := prefix_digest) hash_iter_id hash_iter_id i1 i2 4); [done|..];
    intros k v Hk; apply lookup_insert_Some in Hk as [[<- _]|[_ Hk]]; try done;
    apply lookup_singleton_Some in Hk as [<- _]; done.
Defined.
