(* ===== verification/Handshake.v ===== *)
(** The seams between the cluster module and the registry backend
    (a2x-cluster/src/registry_view.rs) and the per-namespace authorization of
    the OPEN handshake (a2x-cluster/src/auth_handshake.rs).

    The backend's traits are records of their methods' answers: during one
    call of the cluster module the backend is a snapshot. *)
From S2P Require Import Prelude RustMap RustStr Json Common.

(** * The backend's traits *)

Record LocalEntry := mkLocalEntry {
  le_service_id : string;
  le_source : string;
  le_entry : Value;
  le_wrapped : option Value
}.

(** [LocalEntry::is_ephemeral]. *)
Definition is_ephemeral (e : LocalEntry) : bool := bool_decide (le_source e = "ephemeral").

(** The trait [LocalRegistryView]. *)
Record LocalRegistryView := mkRegistryView {
  list_datasets : list string;
  list_entries : string → list LocalEntry;
  get_entry : string → string → option LocalEntry;
  is_auth_required : string → bool
}.

(** The default body of [LocalRegistryView::get_entry]. *)
Definition default_get_entry (list_entries : string → list LocalEntry)
    (dataset service_id : string) : option LocalEntry :=
  snd <$> list_find (λ e, le_service_id e = service_id) (list_entries dataset).

(** The trait [PeerAuthVerifier]. *)
Record PeerAuthVerifier := mkPeerAuth {
  auth_enabled : bool;
  authenticate : string → option AuthContext
}.

(** [AllowAll]. *)
Definition allow_all : PeerAuthVerifier := mkPeerAuth false (λ _, None).

(** * [authorize_namespaces] *)

Record Authorized := mkAuthorized { accepted : list string; ephemeral : list string }.

(** The context the token resolves to. *)
Definition caller_context (auth : PeerAuthVerifier) (token : option string) : option AuthContext :=
  match auth_enabled auth, token with
  | true, Some t => if str_is_empty t then None else authenticate auth t
  | _, _ => None
  end.

Definition push_accepted (ns : string) (out : Authorized) : Authorized :=
  mkAuthorized (accepted out ++ [ns]) (ephemeral out).
Definition push_ephemeral (ns : string) (out : Authorized) : Authorized :=
  mkAuthorized (accepted out) (ephemeral out ++ [ns]).

(** [authorize_namespaces]. *)
Definition authorize_namespaces (registry : option LocalRegistryView) (auth : PeerAuthVerifier)
    (requested : list string) (token : option string) : Authorized :=
  let auth_on := auth_enabled auth in
  let ctx := caller_context auth token in
  let existing := match registry with Some r => list_datasets r | None => [] end in
  foldl (λ out ns,
    if bool_decide (ns ∈ existing) then
      let required := match registry with Some r => is_auth_required r ns | None => false end in
      if negb auth_on || negb required then push_accepted ns out
      else
        match ctx with
        | Some c =>
            let scoped := match namespaces c with Some s => bool_decide (ns ∈ s) | None => false end in
            if is_admin c || scoped then push_accepted ns out else out
        | None => out
        end
    else
      let admin := match ctx with Some c => is_admin c | None => false end in
      if negb auth_on || admin then push_ephemeral ns (push_accepted ns out) else out)
  (mkAuthorized [] []) requested.

(** * Specification *)

(** The policy the module header states: which namespaces a caller gets. *)
Definition has_namespace (registry : option LocalRegistryView) (ns : string) : Prop :=
  ∃ r, registry = Some r ∧ ns ∈ list_datasets r.

Definition may_sync (registry : option LocalRegistryView) (auth : PeerAuthVerifier)
    (token : option string) (ns : string) : Prop :=
  auth_enabled auth = false ∨
  (∃ r, registry = Some r ∧ ns ∈ list_datasets r ∧ is_auth_required r ns = false) ∨
  (∃ t c, token = Some t ∧ t ≠ "" ∧ authenticate auth t = Some c ∧
     (role c = Admin ∨ has_namespace registry ns ∧ ∃ s, namespaces c = Some s ∧ ns ∈ s)).

Lemma caller_context_Some auth token c :
  auth_enabled auth = true →
  caller_context auth token = Some c ↔
  ∃ t, token = Some t ∧ t ≠ "" ∧ authenticate auth t = Some c.
Proof.
  unfold caller_context. intros ->. destruct token as [t|]; [|naive_solver].
  destruct t; simpl; [naive_solver|]. split; [eauto|]. by intros (? & [= <-] & _ & ?).
Qed.

(** The decision the loop takes for one namespace. *)
Definition ns_accepted (registry : option LocalRegistryView) (auth : PeerAuthVerifier)
    (token : option string) (ns : string) : bool :=
  negb (auth_enabled auth) ||
  match caller_context auth token with Some c => is_admin c | None => false end ||
  match registry with
  | Some r =>
      bool_decide (ns ∈ list_datasets r) &&
      (negb (is_auth_required r ns) ||
       match caller_context auth token with
       | Some c => match namespaces c with Some s => bool_decide (ns ∈ s) | None => false end
       | None => false
       end)
  | None => false
  end.

Definition ns_existing (registry : option LocalRegistryView) (ns : string) : bool :=
  match registry with Some r => bool_decide (ns ∈ list_datasets r) | None => false end.

Lemma authorize_filter registry auth requested token :
  authorize_namespaces registry auth requested token =
    mkAuthorized
      (filter (λ ns, ns_accepted registry auth token ns = true) requested)
      (filter (λ ns, ns_accepted registry auth token ns = true ∧ ns_existing registry ns = false)
         requested).
Proof.
  unfold authorize_namespaces.
  induction requested as [|ns l IH] using rev_ind; [done|].
  rewrite foldl_app, IH, !filter_app. cbn [foldl]. rewrite !filter_cons, !filter_nil.
  unfold ns_accepted, ns_existing, push_accepted, push_ephemeral.
  destruct registry as [r|].
  - destruct (bool_decide (ns ∈ list_datasets r)), (auth_enabled auth) eqn:Ha,
      (is_auth_required r ns) eqn:Hr, (caller_context auth token) as [c|] eqn:Hc; simpl;
      rewrite ?Ha, ?Hr, ?Hc; simpl; try destruct (is_admin c); simpl;
      try destruct (namespaces c) as [s|]; simpl; try destruct (bool_decide (ns ∈ s)); simpl;
      by rewrite ?app_nil_r.
  - rewrite (bool_decide_false (ns ∈ [])) by set_solver.
    destruct (auth_enabled auth), (caller_context auth token) as [c|]; simpl;
      try destruct (is_admin c); simpl; by rewrite ?app_nil_r.
Qed.

Lemma ns_accepted_spec registry auth token ns :
  ns_accepted registry auth token ns = true ↔ may_sync registry auth token ns.
Proof.
  unfold ns_accepted, may_sync, has_namespace.
  destruct (auth_enabled auth) eqn:Ha; simpl; [|naive_solver].
  rewrite orb_true_iff. split.
  - intros [Hadm|Hreg].
    + destruct (caller_context auth token) as [c|] eqn:Hc; [|done].
      apply caller_context_Some in Hc as (t & -> & Ht & Hau); [|done].
      right; right. exists t, c. split_and!; [done..|]. left. by apply bool_decide_eq_true in Hadm.
    + destruct registry as [r|]; [|done]. apply andb_true_iff in Hreg as [Hin Hreg].
      apply bool_decide_eq_true in Hin. apply orb_true_iff in Hreg as [Hreg|Hreg].
      * right; left. exists r. by rewrite <-negb_true_iff.
      * destruct (caller_context auth token) as [c|] eqn:Hc; [|done].
        destruct (namespaces c) as [s|] eqn:Hs; [|done]. apply bool_decide_eq_true in Hreg.
        apply caller_context_Some in Hc as (t & -> & Ht & Hau); [|done].
        right; right. exists t, c. split_and!; [done..|]. right. eauto 10.
  - intros [?|[(r & -> & Hin & Hr)|(t & c & Ht & Hne & Hau & Hor)]]; [done|..].
    + right. rewrite bool_decide_true by done. by rewrite Hr.
    + assert (Hc : caller_context auth token = Some c) by (apply caller_context_Some; eauto).
      rewrite Hc. destruct Hor as [Hadm|((r & -> & Hin) & s & Hs & Hns)].
      * left. by apply bool_decide_eq_true.
      * right. rewrite Hs, !bool_decide_true by done. by rewrite orb_true_r.
Qed.

(** * Theorems *)

(** The handshake accepts exactly the requested namespaces the policy allows,
    in the order requested, and marks as ephemeral those of them the receiver
    does not have. *)
Theorem authorize_namespaces_spec registry auth requested token :
  let out := authorize_namespaces registry auth requested token in
  sublist (accepted out) requested ∧ sublist (ephemeral out) (accepted out) ∧
  (∀ ns, ns ∈ accepted out ↔ ns ∈ requested ∧ may_sync registry auth token ns) ∧
  (∀ ns, ns ∈ ephemeral out ↔ ns ∈ accepted out ∧ ¬ has_namespace registry ns).
Proof.
  rewrite authorize_filter; simpl. split_and!.
  - apply sublist_filter.
  - induction requested as [|ns l IH]; simpl; [done|]. rewrite !filter_cons.
    destruct (ns_accepted registry auth token ns), (ns_existing registry ns); simpl;
      by repeat constructor.
  - intros ns. rewrite list_elem_of_filter, ns_accepted_spec. naive_solver.
  - intros ns. rewrite !list_elem_of_filter.
    assert (Hex : ns_existing registry ns = false ↔ ¬ has_namespace registry ns).
    { unfold ns_existing, has_namespace. destruct registry as [r|]; [|naive_solver].
      rewrite bool_decide_eq_false. naive_solver. }
    rewrite Hex. naive_solver.
Qed.

(** The header says an [auth_required] namespace needs a provider or admin
    token; the code asks for the scope only, so a [user] token syncs it too. *)
Theorem user_token_syncs_protected_namespace :
  let auth := mkPeerAuth true (λ t, if decide (t = "tok") then
                Some (mkAuthContext "u1" User (Some {["ds"]})) else None) in
  let reg := mkRegistryView ["ds"] (λ _, []) (λ _ _, None) (λ _, true) in
  accepted (authorize_namespaces (Some reg) auth ["ds"] (Some "tok")) = ["ds"].
Proof. done. Qed.
