(* ===== verification/ClusterState.v ===== *)
(** Cluster configuration (a2x-cluster/src/config.rs), errors (errors.rs) and
    the persisted state with its file operations (state.rs).

    The file's text and serde_json's codec for it are the class [StateFile]:
    what a state serialises to, with [path] skipped, parses back. *)
From S2P Require Import Prelude F64 RustMap RustStr Json Common Lww.
From Stdlib Require Import Ascii.

(** * Configuration *)

Record ClusterConfig := mkClusterConfig {
  keepalive_interval : f64;
  hold_timeout : f64;
  anti_entropy_interval : f64;
  http_timeout : f64;
  broadcast_workers : Z;
  merkle_buckets : Z
}.

(** [ClusterConfig::default]. *)
Definition default_cluster_config : ClusterConfig :=
  mkClusterConfig (f64_of_Z 10) (f64_of_Z 30) (f64_of_Z 20) (f64_of_Z 5) 32 256.

(** [ClusterConfig::tombstone_retention]. *)
Definition tombstone_retention (c : ClusterConfig) : f64 :=
  f64_add (hold_timeout c) (keepalive_interval c).

(** * Composite keys *)

(** [SEP], a NUL character. *)
Definition KEY_SEP : ascii := "000"%char.

(** [make_key]. *)
Definition make_key (dataset service_id : string) : string :=
  dataset +:+ String KEY_SEP service_id.

(** [split_key]. *)
Definition split_key (key : string) : string * string :=
  match split_once KEY_SEP key with
  | Some (ds, sid) => (ds, sid)
  | None => (key, "")
  end.

(** * Errors *)

Inductive ClusterError :=
| AlreadyInitialized (path : string)
| IoError (path source : string)
| JsonError (path source : string)
| TransportFailed (message : string).

(** * State *)

Record Tombstone := mkTombstone { t_version : Version; deleted_at_ms : Z }.
#[export] Instance Tombstone_eq_dec : EqDecision Tombstone.
Proof. solve_decision. Defined.

Record ClusterState := mkClusterState {
  node_id : string;
  version_clock : Z;
  local_versions : list (string * Version);
  tombstones : list (string * Tombstone);
  cluster_id : option string;
  last_roster : list Value;
  my_membership_version : option Version;
  path : option string
}.

(** [ClusterState::new]. *)
Definition new_state (node_id : string) (path : option string) : ClusterState :=
  mkClusterState node_id 0 [] [] None [] None path.

Definition set_path (p : option string) (s : ClusterState) : ClusterState :=
  mkClusterState (node_id s) (version_clock s) (local_versions s) (tombstones s)
    (cluster_id s) (last_roster s) (my_membership_version s) p.

(** Field updates of [&mut state]. *)
Definition set_version_clock (z : Z) (s : ClusterState) : ClusterState :=
  mkClusterState (node_id s) z (local_versions s) (tombstones s)
    (cluster_id s) (last_roster s) (my_membership_version s) (path s).
Definition set_local_versions (m : list (string * Version)) (s : ClusterState) : ClusterState :=
  mkClusterState (node_id s) (version_clock s) m (tombstones s)
    (cluster_id s) (last_roster s) (my_membership_version s) (path s).
Definition set_tombstones (m : list (string * Tombstone)) (s : ClusterState) : ClusterState :=
  mkClusterState (node_id s) (version_clock s) (local_versions s) m
    (cluster_id s) (last_roster s) (my_membership_version s) (path s).
Definition set_membership (cid : option string) (roster : list Value) (v : option Version)
    (s : ClusterState) : ClusterState :=
  mkClusterState (node_id s) (version_clock s) (local_versions s) (tombstones s)
    cid roster v (path s).

(** * The state file *)

Class StateFile := {
  file_text : Type;
  state_to_text : ClusterState → file_text;
  state_of_text : file_text → result ClusterState string;
  state_text_roundtrip (s : ClusterState) :
    state_of_text (state_to_text s) = Ok (set_path None s)
}.

(** The file at the state's path: absent, unreadable or with a text. *)
Notation Disk := (option (result file_text string)).

Section state_file.
Context `{!StateFile}.

(** [ClusterState::load_from]. *)
Definition load_from (p : string) (disk : Disk) : result (option ClusterState) ClusterError :=
  match disk with
  | None => Ok None
  | Some content =>
      let? text := map_err (IoError p) content in
      let? state := map_err (JsonError p) (state_of_text text) in
      Ok (Some (set_path (Some p) state))
  end.

(** What the file system answers while a state is saved: creating the
    directory, and the atomic write of the file. *)
Record SaveIo := mkSaveIo { dir_io : result unit string; file_io : AtomicIo (result file_text string) }.

(** [ClusterState::save]; [dflt] is [state_path()]. *)
Definition save (dflt : string) (io : SaveIo) (s : ClusterState) (disk : Disk)
    : result unit ClusterError * Disk :=
  let p := default dflt (path s) in
  match map_err (IoError p) (dir_io io) with
  | Err e => (Err e, disk)
  | Ok _ =>
      let '(r, disk) := atomic_write_bytes (file_io io) (Ok (state_to_text s)) disk in
      (map_err (IoError p) r, disk)
  end.

(** [ClusterState::init_at]; [fresh] is what [generate_node_id] answers and
    [parent_io] the outcome of creating the directory. *)
Definition init_at (requested : option string) (fresh p : string) (parent_io : result unit string)
    (io : SaveIo) (disk : Disk) : result ClusterState ClusterError * Disk :=
  match disk with
  | Some _ => (Err (AlreadyInitialized p), disk)
  | None =>
      match map_err (IoError p) parent_io with
      | Err e => (Err e, disk)
      | Ok _ =>
          let state := new_state (default fresh requested) (Some p) in
          let '(r, disk) := save p io state disk in
          (match r with Ok _ => Ok state | Err e => Err e end, disk)
      end
  end.

Lemma save_Ok dflt io s disk u disk' :
  save dflt io s disk = (Ok u, disk') → disk' = Some (Ok (state_to_text s)).
Proof.
  unfold save. destruct (dir_io io); simpl; [|done].
  destruct (atomic_write_bytes _ _ disk) as [[]d'] eqn:E; simpl; [|done].
  intros [= _ <-]. by apply atomic_write_Ok in E.
Qed.

Lemma save_Err dflt io s disk e disk' :
  renames (file_io io) = true → save dflt io s disk = (Err e, disk') → disk' = disk.
Proof.
  intros Hr. unfold save. destruct (dir_io io); simpl; [|by intros [=]].
  destruct (atomic_write_bytes _ _ disk) as [[]d'] eqn:E; simpl; [done|].
  intros [= _ <-]. by apply atomic_write_Err in E.
Qed.

Lemma load_saved p s : load_from p (Some (Ok (state_to_text s))) = Ok (Some (set_path (Some p) s)).
Proof. simpl. by rewrite state_text_roundtrip. Qed.
End state_file.

(** A text that is the record itself, for evaluating examples. *)
Definition record_file : StateFile := {|
  file_text := ClusterState;
  state_to_text := λ s, set_path None s;
  state_of_text := λ s, Ok s;
  state_text_roundtrip := λ s, eq_refl
|}.

(** * Lemmas *)

Lemma split_make_key ds sid :
  contains_char KEY_SEP ds = false → split_key (make_key ds sid) = (ds, sid).
Proof. intros H. unfold split_key, make_key. by rewrite (split_once_app _ _ _ H). Qed.

Lemma make_split_key k :
  contains_char KEY_SEP k = true → make_key (split_key k).1 (split_key k).2 = k.
Proof.
  intros H. unfold split_key. destruct (split_once KEY_SEP k) as [[ds sid]|] eqn:E; simpl.
  - by apply split_once_Some in E as [-> _].
  - apply split_once_None in E. congruence.
Qed.

(** * Theorems *)

(** Composite keys are faithful exactly for datasets without a NUL character:
    the key splits back into its parts iff the dataset has none. *)
Theorem key_roundtrip ds sid :
  split_key (make_key ds sid) = (ds, sid) ↔ contains_char KEY_SEP ds = false.
Proof.
  split; [|apply split_make_key]. unfold split_key, make_key.
  destruct (split_once KEY_SEP (ds +:+ String KEY_SEP sid)) as [[a b]|] eqn:E.
  - intros [= -> ->]. by apply split_once_Some in E as [_ ?].
  - apply split_once_None in E. rewrite contains_char_app in E.
    by apply orb_false_iff in E as [? _].
Qed.

(** What [save] wrote, [load_from] reads back, bound to the path; a failed
    save whose renames worked leaves the previous file; [init_at] never
    touches an existing file, and what it creates loads as the state it
    returned. *)
Theorem state_file_spec `{!StateFile} dflt p io s disk fresh requested parent_io :
  (∀ disk', save dflt io s disk = (Ok (), disk') →
     load_from p disk' = Ok (Some (set_path (Some p) s))) ∧
  (∀ e disk', renames (file_io io) = true → save dflt io s disk = (Err e, disk') → disk' = disk) ∧
  (disk ≠ None →
     init_at requested fresh p parent_io io disk = (Err (AlreadyInitialized p), disk)) ∧
  (∀ s' disk', init_at requested fresh p parent_io io disk = (Ok s', disk') →
     disk = None ∧ node_id s' = default fresh requested ∧ load_from p disk' = Ok (Some s')).
Proof.
  split_and!.
  - intros disk' ->%save_Ok. apply load_saved.
  - intros e disk' Hr. by apply save_Err.
  - by destruct disk.
  - intros s' disk'. unfold init_at. destruct disk; [done|]. destruct parent_io; simpl; [|done].
    destruct (save p io _ None) as [[[]|] d] eqn:E; [|done]. intros [= <- <-].
    apply save_Ok in E as ->. split; [done|]. split; [done|]. apply load_saved.
Qed.

Lemma state_file_spec_witness :
  ∃ s d, @init_at record_file (Some "n1") "fresh" "/p" (Ok ()) (mkSaveIo (Ok ()) rename_works) None =
    (Ok s, d) ∧ node_id s = "n1" ∧ @load_from record_file "/p" d = Ok (Some s).
Proof.
  eexists _, _. split; [vm_compute; reflexivity|].
  destruct (@state_file_spec record_file "/p" "/p" (mkSaveIo (Ok ()) rename_works)
    (new_state "n1" None) None "fresh" (Some "n1") (Ok ())) as (_ & _ & _ & Hi).
  by destruct (Hi _ _ eq_refl) as (_ & Hn & Hl).
Defined.
