(* ===== verification/ClusterStore.v ===== *)
(** The cluster store (a2x-cluster/src/store.rs, peer.rs): the session table,
    the overlay of foreign records, the local version map and tombstones, and
    every operation on them that does not call a peer.

    [Store] is what the mutex of the source protects, with the state file and
    the log of eviction callbacks beside it.  An operation is one atomic step:
    it takes the store and returns its answer with the new store.  What it
    reads from outside (configuration, backend snapshot, clocks, random tokens,
    the file system) is the class [ClusterEnv]; the clocks, tokens and file
    answers are sequences indexed by [ticks], the number of readings so far, so
    no property assumes that a clock stands still or moves forward. *)
From S2P Require Import Prelude F64 RustMap RustStr Json Common Lww Merkle Handshake ClusterState.
From Stdlib Require Import Ascii.

(** * Data *)

(** [Peer]. *)
Record Peer := mkPeer {
  peer_node_id : string;
  peer_address : string;
  peer_namespaces : list string;
  last_seen : f64;
  peer_token : option string
}.

(** [PeerSummary] and [Peer::to_summary]. *)
Record PeerSummary := mkPeerSummary {
  ps_node_id : string; ps_address : string; ps_namespaces : list string
}.
Definition to_summary (p : Peer) : PeerSummary :=
  mkPeerSummary (peer_node_id p) (peer_address p) (peer_namespaces p).

(** [Peer::new]. *)
Definition new_peer (node_id address : string) (namespaces : list string) : Peer :=
  mkPeer node_id address namespaces (S754_zero false) None.

Inductive MutationOp := Register | Update | Deregister.

(** [MutationOp::parse]. *)
Definition mutation_parse (op : string) : option MutationOp :=
  if decide (op = "register") then Some Register
  else if decide (op = "update") then Some Update
  else if decide (op = "deregister") then Some Deregister
  else None.

(** [OpenRequest], [OpenResponse], [UpdatesResponse], [DigestRow]. *)
Record OpenRequest := mkOpenRequest {
  or_node_id : string; or_address : string; or_namespaces : list string; or_token : option string
}.
Record OpenResponse := mkOpenResponse {
  os_node_id : string; os_accepted : list string; os_ephemeral : list string;
  os_session_token : option string
}.
Record UpdatesResponse := mkUpdatesResponse {
  ur_accepted : nat; ur_received : nat; ur_rejected : nat
}.
Notation DigestRow := (Key * Version)%type.

Record ForeignRow := mkForeignRow { fr_entry : Value; fr_wrapped : Value }.

Record StateSummary := mkStateSummary {
  ss_node_id : string;
  ss_advertise : string;
  ss_peers : list PeerSummary;
  ss_foreign_records : nat;
  ss_foreign_by_namespace : list (string * nat);
  ss_local_records : nat;
  ss_tombstones : nat
}.

(** What the store reads from outside. *)
Class ClusterEnv `{!StateFile} := mkClusterEnv {
  config : ClusterConfig;
  registry : option LocalRegistryView;
  auth : PeerAuthVerifier;
  advertise : string;
  eviction_sink : bool;
  default_state_path : string;
  clock_at : nat → f64;
  now_ms_at : nat → Z;
  token_at : nat → string;
  save_io_at : nat → SaveIo
}.

(** [Inner], with the state file, the calls the eviction sink got and the
    number of readings taken from the environment. *)
Record Store `{!StateFile} := mkStore {
  state : ClusterState;
  foreign : list (Key * SyncEnvelope);
  sessions : list (string * Peer);
  evicted_until : gmap string f64;
  disk : Disk;
  evictions : list (string * list (string * string));
  ticks : nat
}.

Section store.
Context `{!StateFile}.
Implicit Types s : Store.

Definition set_state (x : ClusterState) s : Store :=
  mkStore _ x (foreign s) (sessions s) (evicted_until s) (disk s) (evictions s) (ticks s).
Definition set_foreign (x : list (Key * SyncEnvelope)) s : Store :=
  mkStore _ (state s) x (sessions s) (evicted_until s) (disk s) (evictions s) (ticks s).
Definition set_sessions (x : list (string * Peer)) s : Store :=
  mkStore _ (state s) (foreign s) x (evicted_until s) (disk s) (evictions s) (ticks s).
Definition set_evicted_until (x : gmap string f64) s : Store :=
  mkStore _ (state s) (foreign s) (sessions s) x (disk s) (evictions s) (ticks s).
Definition set_disk (x : Disk) s : Store :=
  mkStore _ (state s) (foreign s) (sessions s) (evicted_until s) x (evictions s) (ticks s).
Definition set_evictions (x : list (string * list (string * string))) s : Store :=
  mkStore _ (state s) (foreign s) (sessions s) (evicted_until s) (disk s) x (ticks s).
Definition tick s : Store :=
  mkStore _ (state s) (foreign s) (sessions s) (evicted_until s) (disk s) (evictions s) (S (ticks s)).

(** [ClusterStoreBuilder::build]: the store around a state, everything else
    empty. *)
Definition build (st : ClusterState) (d : Disk) : Store := mkStore _ st [] [] ∅ d [] 0.

(** [ClusterStoreBuilder::load_or_none_at]: an unreadable file is logged and
    leaves the node standalone. *)
Definition load_or_none_at (p : string) (d : Disk) : option Store :=
  match load_from p d with
  | Ok (Some st) => Some (build st d)
  | Ok None => None
  | Err _ => None
  end.
End store.
Arguments mkStore {_}.

Section cluster_store.
Context `{!StateFile, !ClusterEnv, !Digest, !HashIter}.
Implicit Types s : Store.

(** * Readings *)

(** [clock_now], [now_ms] and the random session secret. *)
Definition clock_now s : f64 * Store := (clock_at (ticks s), tick s).
Definition now_ms s : Z * Store := (now_ms_at (ticks s), tick s).
Definition random_token s : string * Store := (token_at (ticks s), tick s).
Definition save_state s : result unit ClusterError * Store :=
  let '(r, d) := save default_state_path (save_io_at (ticks s)) (state s) (disk s) in
  (r, set_disk d (tick s)).
(** [save_logged]: the error is logged. *)
Definition save_logged s : Store := (save_state s).2.

(** [node_id]. *)
Definition me s : string := node_id (state s).

(** * Versions *)

(** [next_ts_locked]. *)
Definition next_ts_locked s : Z * Store :=
  let '(now, s) := now_ms s in
  let ts := Z.max now (i64_add (version_clock (state s)) 1) in
  (ts, set_state (set_version_clock ts (state s)) s).

(** [next_version]. *)
Definition next_version s : Version * Store :=
  let '(ts, s) := next_ts_locked s in
  (mkVersion ts (me s), s).

(** [next_version_after]. *)
Definition next_version_after (floor_ms : Z) s : Version * Store :=
  let '(now, s) := now_ms s in
  let ts := Z.max (Z.max now (i64_add (version_clock (state s)) 1)) (i64_add floor_ms 1) in
  (mkVersion ts (me s), set_state (set_version_clock ts (state s)) s).

(** [observe_version]. *)
Definition observe_version (ms : Z) s : Store :=
  if (version_clock (state s) <? ms)%Z then set_state (set_version_clock ms (state s)) s else s.

(** [persist_membership]. *)
Definition persist_membership (cid : option string) (roster : list Value) (v : option Version) s
    : result unit ClusterError * Store :=
  save_state (set_state (set_membership cid roster v (state s)) s).

(** The records the backend holds that are replicated: the [present] list of
    [ensure_local_versions]. *)
Definition replicated_ids (reg : LocalRegistryView) (dataset : string) : list string :=
  le_service_id <$> filter (λ e, is_ephemeral e = false) (list_entries reg dataset).
Definition present_records (reg : LocalRegistryView) : list (string * string) :=
  ds ← list_datasets reg; (λ sid, (ds, sid)) <$> replicated_ids reg ds.

(** The loop body of [ensure_local_versions]. *)
Definition ensure_version (acc : bool * Store) (r : string * string) : bool * Store :=
  let '(changed, s) := acc in
  let k := make_key r.1 r.2 in
  if negb (ahas k (local_versions (state s))) && negb (ahas k (tombstones (state s))) then
    let '(ts, s) := next_ts_locked s in
    (true, set_state (set_local_versions
             (bm_insert k (mkVersion ts (me s)) (local_versions (state s))) (state s)) s)
  else (changed, s).

(** [ensure_local_versions]. *)
Definition ensure_local_versions s : Store :=
  match registry with
  | None => s
  | Some reg =>
      let '(changed, s) := foldl ensure_version (false, s) (present_records reg) in
      if changed then save_logged s else s
  end.

(** * Index and envelopes *)

(** [scope]: [None] and the empty list mean every dataset. *)
Definition in_scope (namespaces : option (list string)) (ds : string) : bool :=
  match namespaces with
  | Some ((_ :: _) as ns) => bool_decide (ds ∈ ns)
  | _ => true
  end.

(** [local_index]. *)
Definition index_record s (idx : Index) (r : string * string) : Index :=
  match aget (make_key r.1 r.2) (local_versions (state s)) with
  | Some v => <[(r.1, me s, r.2) := v]> idx
  | None => idx
  end.
Definition index_tombstone (namespaces : option (list string)) s (idx : Index)
    (kt : string * Tombstone) : Index :=
  let '(ds, sid) := split_key kt.1 in
  if negb (in_scope namespaces ds) then idx
  else <[(ds, me s, sid) := t_version kt.2]> idx.
Definition local_index (namespaces : option (list string)) s : Index * Store :=
  let s := ensure_local_versions s in
  match registry with
  | None => (∅, s)
  | Some reg =>
      let datasets := filter (λ d, in_scope namespaces d = true) (list_datasets reg) in
      let entries := ds ← datasets; (λ sid, (ds, sid)) <$> replicated_ids reg ds in
      let idx := foldl (index_record s) ∅ entries in
      (foldl (index_tombstone namespaces s) idx (tombstones (state s)), s)
  end.

(** [full_index]. *)
Definition index_foreign (namespaces : option (list string)) (idx : Index)
    (ke : Key * SyncEnvelope) : Index :=
  if negb (in_scope namespaces (k_dataset ke.1)) then idx
  else <[ke.1 := env_version ke.2]> idx.
Definition full_index (namespaces : option (list string)) s : Index * Store :=
  let '(idx, s) := local_index namespaces s in
  (foldl (index_foreign namespaces) idx (foreign s), s).

(** The payload of a live record. *)
Definition record_payload (entry : Value) (wrapped : option Value) : Value :=
  JObject [("entry", entry); ("wrapped", default JNull wrapped)].

(** [build_local_envelope]. *)
Definition build_local_envelope (dataset sid : string) s : option SyncEnvelope :=
  let k := make_key dataset sid in
  match aget k (tombstones (state s)) with
  | Some tomb => Some (mkEnvelope dataset sid (me s) (t_version tomb) true None)
  | None =>
      version ← aget k (local_versions (state s));
      reg ← registry;
      entry ← get_entry reg dataset sid;
      Some (mkEnvelope dataset sid (me s) version false
              (Some (record_payload (le_entry entry) (le_wrapped entry))))
  end.

(** [build_envelope_for_key]. *)
Definition build_envelope_for_key (key : Key) s : option SyncEnvelope :=
  if decide (k_origin key = me s) then build_local_envelope (k_dataset key) (k_service key) s
  else aget key (foreign s).

(** * Inbound *)

(** [apply_inbound]. *)
Definition apply_inbound (env : SyncEnvelope) s : bool * Store :=
  let '(now, s) := clock_now s in
  if decide (env_origin_id env = me s) then (false, s)
  else if match evicted_until s !! env_origin_id env with
          | Some until => f64_ltb now until
          | None => false
          end then (false, s)
  else
    let key := env_key env in
    let cur := env_version <$> aget key (foreign s) in
    if negb (version_newer (env_version env) cur) then (false, s)
    else (true, set_foreign (im_insert key env (foreign s)) s).

(** [handle_open]. *)
Definition handle_open (req : OpenRequest) s : OpenResponse * Store :=
  let candidate := bs_of_list (or_namespaces req) in
  let candidate := match registry with
                   | Some reg => bs_extend candidate (list_datasets reg)
                   | None => candidate
                   end in
  let out := authorize_namespaces registry auth candidate (or_token req) in
  let '(session_token, s) :=
    if auth_enabled auth then let '(t, s) := random_token s in (Some t, s) else (None, s) in
  let '(now, s) := clock_now s in
  let peer := mkPeer (or_node_id req) (or_address req) (bs_of_list (accepted out)) now session_token in
  let s := set_sessions (im_insert (or_node_id req) peer (sessions s)) s in
  let s := set_evicted_until (delete (or_node_id req) (evicted_until s)) s in
  (mkOpenResponse (me s) (accepted out) (ephemeral out) session_token, s).

(** [touch_peer]. *)
Definition touch_peer (node : string) s : Store :=
  let '(now, s) := clock_now s in
  match aget node (sessions s) with
  | Some p =>
      set_sessions (im_insert node
        (mkPeer (peer_node_id p) (peer_address p) (peer_namespaces p) now (peer_token p))
        (sessions s)) s
  | None => s
  end.

(** [public_namespaces]. *)
Definition public_namespaces : list string :=
  match registry with
  | None => []
  | Some reg =>
      bs_of_list (filter (λ ds, negb (auth_enabled auth) || negb (is_auth_required reg ds) = true)
                         (list_datasets reg))
  end.

(** [is_authed]. *)
Definition is_authed (from_node : string) (token : option string) s : bool :=
  if negb (auth_enabled auth) then true
  else
    match aget from_node (sessions s) with
    | Some sess =>
        match peer_token sess, token with
        | Some t, Some given => bool_decide (t = given)
        | _, _ => false
        end
    | None => false
    end.

(** [allowed_for]. *)
Definition allowed_for (from_node : string) (requested : option (list string))
    (token : option string) s : list string :=
  let authed := is_authed from_node token s in
  let sess_ns := peer_namespaces <$> aget from_node (sessions s) in
  let base := match authed, sess_ns with
              | true, Some ns => ns
              | _, _ => public_namespaces
              end in
  match requested with
  | Some ((_ :: _) as req) => filter (λ ns, bool_decide (ns ∈ req) = true) base
  | _ => base
  end.

(** The closure of [serve_digest] that keeps the requested buckets. *)
Definition in_buckets (buckets : option (list Z)) (k : Key) : bool :=
  match buckets with
  | Some b => bool_decide (bucket_of k (merkle_buckets config) ∈ b)
  | None => true
  end.

(** [serve_digest]. *)
Definition serve_digest (from_node : string) (namespaces : option (list string))
    (token : option string) (buckets : option (list Z)) s : list DigestRow * Store :=
  let s := touch_peer from_node s in
  let allowed := allowed_for from_node namespaces token s in
  let '(idx, s) := full_index (Some allowed) s in
  let rows := hm_iter idx in
  let rows := filter (λ kv, k_dataset kv.1 ∈ allowed) rows in
  let rows := filter (λ kv, in_buckets buckets kv.1 = true) rows in
  (sort rows, s).

(** [serve_merkle]. *)
Definition serve_merkle (from_node : string) (namespaces : option (list string))
    (token : option string) s : list (string * string) * Store :=
  let s := touch_peer from_node s in
  let allowed := allowed_for from_node namespaces token s in
  let '(idx, s) := full_index (Some allowed) s in
  let idx := filter (λ kv, k_dataset kv.1 ∈ allowed) idx in
  (bucket_hashes idx (merkle_buckets config), s).

(** [serve_pull]. *)
Definition serve_pull (from_node : string) (keys : list Key) (token : option string) s
    : list SyncEnvelope * Store :=
  let s := touch_peer from_node s in
  let allowed := allowed_for from_node None token s in
  (omap (λ k, build_envelope_for_key k s) (filter (λ k, k_dataset k ∈ allowed) keys), s).

(** [may_accept]. *)
Definition may_accept (from_node dataset : string) (token : option string) s : bool :=
  if negb (auth_enabled auth) then true
  else if is_authed from_node token s &&
          match aget from_node (sessions s) with
          | Some sess => bool_decide (dataset ∈ peer_namespaces sess)
          | None => false
          end then true
  else
    match registry with
    | Some reg =>
        if bool_decide (dataset ∈ list_datasets reg) then negb (is_auth_required reg dataset) else false
    | None => false
    end.

(** The loop body of [serve_updates]: the counters [accepted], [rejected]. *)
Definition serve_update (from_node : string) (token : option string)
    (acc : nat * nat * Store) (env : SyncEnvelope) : nat * nat * Store :=
  let '(accepted, rejected, s) := acc in
  if negb (may_accept from_node (env_dataset env) token s) then (accepted, S rejected, s)
  else
    let '(stored, s) := apply_inbound env s in
    (if stored then S accepted else accepted, rejected, s).

(** [serve_updates]. *)
Definition serve_updates (from_node : string) (envelopes : list SyncEnvelope)
    (token : option string) s : UpdatesResponse * Store :=
  let s := touch_peer from_node s in
  let received := length envelopes in
  let '(accepted, rejected, s) := foldl (serve_update from_node token) (0, 0, s)%nat envelopes in
  (mkUpdatesResponse accepted received rejected, s).

(** [handle_keepalive]: the [ok] of the response. *)
Definition handle_keepalive (from_node : string) (token : option string) s : bool * Store :=
  if negb (is_authed from_node token s) then (false, s)
  else (true, touch_peer from_node s).

(** * Eviction *)

(** [disconnect_peer]. *)
Definition disconnect_peer (node : string) s : bool * Store :=
  let '(now, s) := clock_now s in
  let deadline := f64_add now (tombstone_retention config) in
  let existed := ahas node (sessions s) in
  let s := set_sessions (aremove node (sessions s)) s in
  let evicted := (λ ke, (k_dataset ke.1, k_service ke.1)) <$>
                   filter (λ ke, k_origin ke.1 = node) (foreign s) in
  let s := set_foreign (aretain (λ k _, negb (bool_decide (k_origin k = node))) (foreign s)) s in
  let s := set_evicted_until (<[node := deadline]> (evicted_until s)) s in
  let s := if eviction_sink then set_evictions (evictions s ++ [(node, evicted)]) s else s in
  (existed, s).

(** [check_hold]. *)
Definition check_hold (now : option f64) s : list string * Store :=
  let '(now, s) := match now with Some t => (t, s) | None => clock_now s end in
  let stale := peer_node_id <$>
    filter (λ p, f64_gtb (f64_sub now (last_seen p)) (hold_timeout config) = true)
           (avalues (sessions s)) in
  (stale, foldl (λ s node, (disconnect_peer node s).2) s stale).

(** [prune_suppression] and [suppressed_origins]. *)
Definition prune_suppression (now : option f64) s : Store :=
  let '(now, s) := match now with Some t => (t, s) | None => clock_now s end in
  set_evicted_until (filter (λ kt, f64_ltb now kt.2 = true) (evicted_until s)) s.
Definition suppressed_origins s : list string := (hm_iter (evicted_until s)).*1.

(** [list_peers] and [get_peer]. *)
Definition list_peers s : list Peer := avalues (sessions s).
Definition get_peer (node : string) s : option Peer := aget node (sessions s).

(** [gc_tombstones]. *)
Definition retention_ms : Z := f64_as_i64 (f64_mul (tombstone_retention config) (f64_of_Z 1000)).
Definition gc_tombstones (now_ms_override : option Z) s : nat * Store :=
  let '(now, s) := match now_ms_override with Some t => (t, s) | None => now_ms s end in
  let before := length (tombstones (state s)) in
  let kept := aretain (λ _ t, (i64_sub now (deleted_at_ms t) <=? retention_ms)%Z)
                      (tombstones (state s)) in
  let s := set_state (set_tombstones kept (state s)) s in
  let removed := (before - length kept)%nat in
  let s := if (0 <? removed)%nat then save_logged s else s in
  let before_f := length (foreign s) in
  let kept_f := aretain (λ _ env, negb (env_tombstone env &&
                           (retention_ms <? i64_sub now (v_ms (env_version env)))%Z)) (foreign s) in
  let s := set_foreign kept_f s in
  (removed + (before_f - length kept_f), s)%nat.

(** * Read seams *)

(** The display id of a replicated record. *)
Definition display_id (key : Key) : string := k_origin key +:+ ":" +:+ k_service key.
Definition foreign_row (w : JsonDict) (key : Key) : Value :=
  JObject (im_insert "origin_id" (JString (k_origin key))
            (im_insert "id" (JString (display_id key)) w)).

(** [foreign_wrapped]. *)
Definition foreign_wrapped (dataset : string) s : list Value :=
  omap (λ ke : Key * SyncEnvelope,
          if negb (bool_decide (k_dataset ke.1 = dataset)) || env_tombstone ke.2 then None
          else w ← env_wrapped ke.2;
               match w with [] => None | _ => Some (foreign_row w ke.1) end)
       (foreign s).

(** [foreign_rows]. *)
Definition foreign_rows (dataset : string) s : list ForeignRow :=
  omap (λ ke : Key * SyncEnvelope,
          if negb (bool_decide (k_dataset ke.1 = dataset)) || env_tombstone ke.2 ||
             negb (bool_decide (is_Some (env_payload ke.2))) then None
          else w ← env_wrapped ke.2;
               Some (mkForeignRow (default JNull (env_entry ke.2)) (foreign_row w ke.1)))
       (foreign s).

(** [foreign_entry]. *)
Definition foreign_entry (dataset display : string) s : option Value :=
  '(origin, sid) ← split_once ":"%char display;
  env ← aget (dataset, origin, sid) (foreign s);
  if env_tombstone env then None
  else w ← env_wrapped env;
       Some (JObject (im_insert "origin_id" (JString origin)
                       (im_insert "id" (JString display) w))).

(** * Local mutations *)

(** [stamp_local]. *)
Definition stamp_local (dataset service_id : string) (op : MutationOp) s
    : result Version ClusterError * Store :=
  let '(ts, s) := next_ts_locked s in
  let version := mkVersion ts (me s) in
  let k := make_key dataset service_id in
  let st := state s in
  let st :=
    match op with
    | Deregister =>
        let st := set_tombstones (bm_insert k (mkTombstone version ts) (tombstones st)) st in
        set_local_versions (aremove k (local_versions st)) st
    | Register | Update =>
        let st := set_local_versions (bm_insert k version (local_versions st)) st in
        set_tombstones (aremove k (tombstones st)) st
    end in
  let '(r, s) := save_state (set_state st s) in
  (match r with Ok _ => Ok version | Err e => Err e end, s).

(** * Observability *)

(** The counting loop of [state_summary]. *)
Definition count_namespace (m : list (string * nat)) (ke : Key * SyncEnvelope) : list (string * nat) :=
  if env_tombstone ke.2 then m
  else bm_insert (k_dataset ke.1) (S (default 0%nat (aget (k_dataset ke.1) m))) m.

(** [state_summary]. *)
Definition state_summary s : StateSummary :=
  let by_ns := foldl count_namespace [] (foreign s) in
  mkStateSummary (me s) advertise (to_summary <$> avalues (sessions s))
    (foldr Nat.add 0%nat (avalues by_ns)) by_ns
    (length (local_versions (state s))) (length (tombstones (state s))).
End cluster_store.
