(* ===== verification/ClusterStoreFacts.v ===== *)
(** What the operations of the cluster store do to the overlay of foreign
    records: one envelope, one batch, many batches; the overlay implements the
    LWW register and replicas that received the same envelopes converge. *)
From S2P Require Import Prelude F64 RustMap RustStr Json Common Lww Merkle Handshake ClusterState ClusterStore.
From Stdlib Require Import Ascii.

Section facts.
Context `{!StateFile, !ClusterEnv, !Digest, !HashIter}.
Implicit Types s : Store.

(** * Frame lemmas *)

Lemma touch_peer_frame node s :
  state (touch_peer node s) = state s ∧ foreign (touch_peer node s) = foreign s ∧
  evicted_until (touch_peer node s) = evicted_until s ∧ disk (touch_peer node s) = disk s.
Proof. unfold touch_peer. simpl. by destruct (aget node (sessions s)). Qed.

(** Touching a peer moves its timer and nothing the session checks read. *)
Lemma touch_peer_sessions node n s :
  aget n (sessions (touch_peer node s)) =
    match aget n (sessions s) with
    | Some p => Some (if decide (n = node) then
        mkPeer (peer_node_id p) (peer_address p) (peer_namespaces p) (clock_at (ticks s)) (peer_token p)
        else p)
    | None => None
    end.
Proof.
  unfold touch_peer. simpl. destruct (aget node (sessions s)) as [p|] eqn:E; simpl.
  - rewrite aget_im_insert. destruct (decide (n = node)) as [->|]; [by rewrite E|].
    by destruct (aget n (sessions s)).
  - destruct (decide (n = node)) as [->|]; [by rewrite E|]. by destruct (aget n (sessions s)).
Qed.

Lemma is_authed_touch node from tok s :
  is_authed from tok (touch_peer node s) = is_authed from tok s.
Proof.
  unfold is_authed. rewrite touch_peer_sessions. destruct (negb _); [done|].
  destruct (aget from (sessions s)) as [p|]; [|done]. by case_decide.
Qed.

Lemma session_namespaces_touch node from s :
  peer_namespaces <$> aget from (sessions (touch_peer node s)) =
  peer_namespaces <$> aget from (sessions s).
Proof.
  rewrite touch_peer_sessions. destruct (aget from (sessions s)) as [p|]; [|done].
  simpl. by case_decide.
Qed.

Lemma allowed_for_touch node from req tok s :
  allowed_for from req tok (touch_peer node s) = allowed_for from req tok s.
Proof. unfold allowed_for. by rewrite is_authed_touch, session_namespaces_touch. Qed.

(** [may_accept] reads the session's namespaces and the backend. *)
Lemma may_accept_sessions from ds tok s s' :
  is_authed from tok s' = is_authed from tok s →
  peer_namespaces <$> aget from (sessions s') = peer_namespaces <$> aget from (sessions s) →
  may_accept from ds tok s' = may_accept from ds tok s.
Proof.
  intros Ha Hn. unfold may_accept. rewrite Ha.
  destruct (aget from (sessions s)), (aget from (sessions s')); try done; by simplify_eq/=;
    rewrite ?Hn.
Qed.

Lemma may_accept_touch node from ds tok s :
  may_accept from ds tok (touch_peer node s) = may_accept from ds tok s.
Proof. apply may_accept_sessions; [apply is_authed_touch|apply session_namespaces_touch]. Qed.

(** * The overlay *)

(** Whether the cooldown of an origin is still running at a clock reading. *)
Definition suppressed (now : f64) (origin : string) s : bool :=
  match evicted_until s !! origin with Some until => f64_ltb now until | None => false end.

Definition admits (env : SyncEnvelope) s : bool :=
  negb (bool_decide (env_origin_id env = me s)) &&
  negb (suppressed (clock_at (ticks s)) (env_origin_id env) s).

Lemma apply_inbound_eq env s :
  apply_inbound env s =
    if admits env s && version_newer (env_version env) (env_version <$> aget (env_key env) (foreign s))
    then (true, set_foreign (im_insert (env_key env) env (foreign s)) (tick s))
    else (false, tick s).
Proof.
  unfold apply_inbound, admits, suppressed, me. simpl.
  destruct (decide (env_origin_id env = node_id (state s))) as [He|He].
  - rewrite bool_decide_true by done. done.
  - rewrite bool_decide_false by done. simpl.
    destruct (match evicted_until s !! env_origin_id env with
              | Some until => f64_ltb (clock_at (ticks s)) until | None => false end); simpl; [done|].
    by destruct (version_newer _ _).
Qed.

Lemma apply_inbound_frame env s :
  let s' := (apply_inbound env s).2 in
  state s' = state s ∧ sessions s' = sessions s ∧ evicted_until s' = evicted_until s ∧
  disk s' = disk s ∧ ticks s' = S (ticks s).
Proof. rewrite apply_inbound_eq. by destruct (_ && _). Qed.

(** One delivery is one step of the LWW register of every key. *)
Lemma apply_inbound_lookup env s k :
  aget k (foreign (apply_inbound env s).2) =
    if admits env s then lww_step k (aget k (foreign s)) env else aget k (foreign s).
Proof.
  rewrite apply_inbound_eq. unfold lww_step. cbn [lww_key lww_version envelope_replicated]. destruct (admits env s); simpl; [|done].
  destruct (version_newer (env_version env) (env_version <$> aget (env_key env) (foreign s))) eqn:E;
    simpl.
  - rewrite aget_im_insert. destruct (decide (env_key env = k)) as [<-|Hne].
    + rewrite decide_True by done. by rewrite E.
    + by rewrite decide_False.
  - destruct (decide (env_key env = k)) as [<-|]; [|done]. by rewrite E.
Qed.

(** What a batch puts before the register. *)
Definition batch_admits (from : string) (tok : option string) s (e : SyncEnvelope) : bool :=
  may_accept from (env_dataset e) tok s && negb (bool_decide (env_origin_id e = me s)).

Definition unsuppressed s (l : list SyncEnvelope) : Prop :=
  ∀ e, e ∈ l → evicted_until s !! env_origin_id e = None.

(** The loop of [serve_updates]: counters, what it leaves alone, the overlay. *)
Lemma serve_update_fold from tok l a r s :
  let '(a', r', s') := foldl (serve_update from tok) (a, r, s) l in
  state s' = state s ∧ sessions s' = sessions s ∧ evicted_until s' = evicted_until s ∧
  disk s' = disk s ∧
  r' = (r + length (filter (λ e, may_accept from (env_dataset e) tok s = false) l))%nat ∧
  (a' + r' ≤ a + r + length l)%nat ∧
  (unsuppressed s l → ∀ k,
     aget k (foreign s') =
       lww k (aget k (foreign s)) (filter (λ e, batch_admits from tok s e = true) l)).
Proof.
  revert a r s. induction l as [|e l IH]; intros a r s.
  { cbn. split_and!; try done; lia. }
  cbn [foldl]. unfold serve_update at 2.
  destruct (may_accept from (env_dataset e) tok s) eqn:Hm; simpl.
  - pose proof (apply_inbound_frame e s) as (Hst & Hse & Hev & Hdi & _).
    pose proof (λ k, apply_inbound_lookup e s k) as Hlk.
    destruct (apply_inbound e s) as [stored s1]. simpl in *.
    specialize (IH (if stored then S a else a) r s1).
    destruct (foldl (serve_update from tok) _ l) as [[a' r'] s'].
    destruct IH as (-> & -> & -> & -> & -> & Hc & Hl).
    assert (Hma : ∀ ds, may_accept from ds tok s1 = may_accept from ds tok s).
    { intros ds. apply may_accept_sessions; unfold is_authed; by rewrite Hse. }
    assert (Hfilter : filter (λ e0, may_accept from (env_dataset e0) tok s1 = false) l =
                      filter (λ e0, may_accept from (env_dataset e0) tok s = false) l).
    { apply list_filter_iff. intros. by rewrite Hma. }
    split_and!; try done.
    + rewrite filter_cons, decide_False by congruence. by rewrite Hfilter.
    + destruct stored; lia.
    + intros Hun k. rewrite Hl; [|unfold unsuppressed in *; rewrite Hev; set_solver].
      rewrite Hlk. assert (Hsame : filter (λ e0, batch_admits from tok s1 e0 = true) l =
                                   filter (λ e0, batch_admits from tok s e0 = true) l).
      { apply list_filter_iff. intros. unfold batch_admits, me. by rewrite Hma, Hst. }
      rewrite Hsame, filter_cons.
      assert (Hadm : batch_admits from tok s e = admits e s).
      { unfold batch_admits, admits, suppressed. rewrite Hm, (Hun e) by set_solver.
        simpl. by rewrite andb_true_r. }
      rewrite Hadm. by destruct (admits e s).
  - specialize (IH a (S r) s).
    destruct (foldl (serve_update from tok) _ l) as [[a' r'] s'].
    destruct IH as (-> & -> & -> & -> & -> & Hc & Hl). split_and!; try done.
    + rewrite filter_cons, decide_True by done. simpl. lia.
    + lia.
    + intros Hun k. rewrite Hl by (unfold unsuppressed in *; set_solver).
      rewrite filter_cons, decide_False; [done|]. unfold batch_admits. by rewrite Hm.
Qed.

(** What the loop can write, suppression or not. *)
Lemma serve_update_fold_writes from tok l a r s k :
  let s' := (foldl (serve_update from tok) (a, r, s) l).2 in
  version_ge (env_version <$> aget k (foreign s')) (env_version <$> aget k (foreign s)) ∧
  (aget k (foreign s') = aget k (foreign s) ∨
   ∃ e, e ∈ l ∧ env_key e = k ∧ aget k (foreign s') = Some e ∧
        batch_admits from tok s e = true ∧
        version_newer (env_version e) (env_version <$> aget k (foreign s)) = true).
Proof.
  revert a r s. induction l as [|e l IH]; intros a r s.
  { cbn. split; [done|by left]. }
  cbn [foldl]. unfold serve_update at 2 4 6.
  destruct (may_accept from (env_dataset e) tok s) eqn:Hm; simpl.
  2: { destruct (IH a (S r) s) as [Hge [Heq|(e' & ? & ? & ? & ? & ?)]]; (split; [done|]);
         [by left|right; exists e'; set_solver]. }
  pose proof (apply_inbound_frame e s) as (Hst & Hse & _).
  pose proof (apply_inbound_lookup e s k) as Hlk.
  destruct (apply_inbound e s) as [stored s1]. simpl in *.
  specialize (IH (if stored then S a else a) r s1).
  assert (Hadm : ∀ e', batch_admits from tok s1 e' = batch_admits from tok s e').
  { intros e'. unfold batch_admits, me. rewrite Hst. f_equal.
    apply may_accept_sessions; unfold is_authed; by rewrite Hse. }
  assert (Hstep : aget k (foreign s1) = aget k (foreign s) ∨
    env_key e = k ∧ aget k (foreign s1) = Some e ∧ batch_admits from tok s e = true ∧
    version_newer (env_version e) (env_version <$> aget k (foreign s)) = true).
  { rewrite Hlk. destruct (admits e s) eqn:Ha; [|by left]. unfold lww_step. cbn [lww_key lww_version envelope_replicated].
    destruct (decide (env_key e = k)); [|by left].
    destruct (version_newer _ _) eqn:Hn; [|by left]. right. split_and!; try done.
    unfold batch_admits. rewrite Hm. simpl. by apply andb_true_iff in Ha as [? _]. }
  assert (Hge1 : version_ge (env_version <$> aget k (foreign s1)) (env_version <$> aget k (foreign s))).
  { destruct Hstep as [->|(_ & -> & _ & Hn)]; [done|]. by apply version_newer_ge. }
  destruct IH as [Hge IH]. split; [by etrans|].
  destruct IH as [Heq|(e' & Hin & Hk & Hv & Had & Hn)].
  - rewrite Heq. destruct Hstep as [?|(? & ? & ? & ?)]; [by left|].
    right. exists e. set_solver.
  - right. exists e'. rewrite Hadm in Had. split_and!; try done; [set_solver|].
    destruct Hstep as [Heq|(_ & Heq & _ & Hn0)]; rewrite Heq in Hn; [done|].
    by eapply version_newer_trans.
Qed.

(** * Theorems: replication *)


(** Cooldown or not, a batch never takes a record back to an older version,
    and a record it changes is an envelope of the batch that the caller may
    write, from another origin, strictly newer than what was stored. *)
Theorem serve_updates_gated from envs tok s k :
  let s' := (serve_updates from envs tok s).2 in
  version_ge (env_version <$> aget k (foreign s')) (env_version <$> aget k (foreign s)) ∧
  (aget k (foreign s') = aget k (foreign s) ∨
   ∃ e, e ∈ envs ∧ env_key e = k ∧ aget k (foreign s') = Some e ∧
        may_accept from (env_dataset e) tok s = true ∧ env_origin_id e ≠ me s ∧
        version_newer (env_version e) (env_version <$> aget k (foreign s)) = true).
Proof.
  unfold serve_updates. pose proof (touch_peer_frame from s) as (Hst & Hfo & _).
  pose proof (serve_update_fold_writes from tok envs 0 0 (touch_peer from s) k) as H'.
  destruct (foldl _ _ envs) as [[a r] s']. simpl in *. rewrite Hfo in H'.
  destruct H' as [Hge H']. split; [done|].
  destruct H' as [|(e & ? & ? & ? & Had & ?)]; [by left|]. right. exists e.
  apply andb_true_iff in Had as [Hm Hne]. rewrite may_accept_touch in Hm.
  apply negb_true_iff, bool_decide_eq_false in Hne. unfold me in *. rewrite Hst in Hne.
  split_and!; done.
Qed.
End facts.

(** * Convergence of two replicas *)

Section convergence.
Context `{!StateFile, !Digest}.

(** A node receives batches of envelopes, each from some peer. *)
Definition deliver (env : ClusterEnv) (o : HashIter) (batches : list (string * list SyncEnvelope))
    (s : Store) : Store :=
  foldl (λ s b, (@serve_updates _ env b.1 b.2 None s).2) s batches.

Definition delivered (batches : list (string * list SyncEnvelope)) : list SyncEnvelope :=
  b ← batches; b.2.

Lemma deliver_lww env o batches s k :
  auth_enabled (@auth _ env) = false → evicted_until s = ∅ →
  (∀ e, e ∈ delivered batches → env_origin_id e ≠ me s) →
  aget k (foreign (deliver env o batches s)) = lww k (aget k (foreign s)) (delivered batches).
Proof.
  intros Hauth. unfold deliver, delivered. revert s.
  induction batches as [|[from l] batches IH]; intros s Hev Hne; [done|].
  cbn [foldl]. rewrite bind_cons, lww_app in *. cbn [fst snd] in *.
  unfold serve_updates. pose proof (touch_peer_frame (H0 := env) from s) as (Hst & Hfo & Hev' & _).
  pose proof (serve_update_fold (H0 := env) from None l 0 0 (touch_peer from s)) as H'.
  destruct (foldl (serve_update from None) _ l) as [[a r] s']. cbn [snd].
  destruct H' as (Hst1 & _ & Hev1 & _ & _ & _ & Hl).
  rewrite IH.
  - f_equal. rewrite Hl by (intros e _; by rewrite Hev', Hev, lookup_empty). rewrite Hfo. f_equal.
    rewrite list_filter_all; [done|]. apply Forall_forall. intros e He.
    unfold batch_admits, may_accept, me. rewrite Hauth, Hst. simpl.
    rewrite bool_decide_false; [done|]. apply Hne. set_solver.
  - by rewrite Hev1, Hev', Hev.
  - intros e He. unfold me in *. rewrite Hst1, Hst. apply Hne. set_solver.
Qed.
End convergence.

(** C10: Two nodes of an open cluster, each with its own environment, clocks and
    identity, that have received the same envelopes of other origins hold the
    same overlay: batch boundaries, order, senders and redeliveries do not
    matter, provided no two different envelopes carry one key and version. *)
Theorem replicas_converge `{!StateFile, !Digest} (env1 env2 : ClusterEnv) (o1 o2 : HashIter)
    (d1 d2 : Disk) (st1 st2 : ClusterState) (batches1 batches2 : list (string * list SyncEnvelope)) :
  auth_enabled (@auth _ env1) = false → auth_enabled (@auth _ env2) = false →
  lww_consistent (delivered batches1) →
  (∀ e, e ∈ delivered batches1 ↔ e ∈ delivered batches2) →
  (∀ e, e ∈ delivered batches1 → env_origin_id e ≠ node_id st1 ∧ env_origin_id e ≠ node_id st2) →
  aeq (foreign (deliver env1 o1 batches1 (build st1 d1)))
      (foreign (deliver env2 o2 batches2 (build st2 d2))).
Proof.
  intros Ha1 Ha2 Hc Heq Hne k. rewrite !deliver_lww; try done; simpl.
  - by apply lww_set_eq.
  - intros e He. apply Hne. by apply Heq.
  - intros e He. by apply Hne.
Qed.
