(* ===== verification/ClusterLocal.v ===== *)
(** Local writes of the cluster store: the version clock, stamping and
    durability, tombstone collection; and eviction with its cooldown. *)
From S2P Require Import Prelude F64 RustMap RustStr Json Common Lww Merkle Handshake ClusterState ClusterStore.
From Stdlib Require Import Ascii.

Section local.
Context `{!StateFile, !ClusterEnv, !Digest, !HashIter}.
Implicit Types s : Store.

(** * The version clock *)

(** The version clock covers a version: the node will not mint below it. *)
Definition covers (s : Store) (v : Version) : Prop := (v_ms v ≤ version_clock (state s))%Z.

Lemma next_ts_spec s :
  let '(ts, s') := next_ts_locked s in
  s' = set_state (set_version_clock ts (state s)) (tick s) ∧
  (in_i64 (version_clock (state s)) → (version_clock (state s) < i64_max)%Z →
   (version_clock (state s) < ts)%Z ∧ (now_ms_at (ticks s) ≤ ts)%Z ∧
   ts = Z.max (now_ms_at (ticks s)) (version_clock (state s) + 1)).
Proof.
  unfold next_ts_locked. simpl. split; [done|]. intros Hr Hlt.
  rewrite i64_add_id by (unfold in_i64 in *; lia). lia.
Qed.

(** [n] calls of [next_version]. *)
Fixpoint mint (n : nat) s : list Version * Store :=
  match n with
  | O => ([], s)
  | S n => let '(v, s) := next_version s in let '(vs, s) := mint n s in (v :: vs, s)
  end.

Lemma next_version_clock s :
  in_i64 (version_clock (state s)) → (version_clock (state s) < i64_max)%Z →
  let '(v, s') := next_version s in
  v_ms v = version_clock (state s') ∧ v_node v = me s ∧ me s' = me s ∧
  (version_clock (state s) < version_clock (state s') ≤
     Z.max (now_ms_at (ticks s)) (version_clock (state s) + 1))%Z.
Proof.
  intros Hr Hlt. unfold next_version. pose proof (next_ts_spec s) as H'.
  destruct (next_ts_locked s) as [ts s']. destruct H' as [-> H'].
  destruct (H' Hr Hlt) as (? & ? & ->). unfold me; simpl. split_and!; try done; lia.
Qed.

Lemma mint_sorted n s lim :
  in_i64 (version_clock (state s)) → (∀ t, now_ms_at t ≤ lim)%Z →
  (Z.max lim (version_clock (state s)) + Z.of_nat n ≤ i64_max)%Z →
  let '(vs, s') := mint n s in
  length vs = n ∧ Forall (λ v, (version_clock (state s) < v_ms v)%Z ∧ covers s' v) vs ∧
  StronglySorted (λ a b, version_newer b (Some a) = true) vs ∧
  (version_clock (state s) ≤ version_clock (state s'))%Z.
Proof.
  revert s. induction n as [|n IH]; intros s Hr Hnow Hlim; cbn [mint].
  { split_and!; [done|constructor|constructor|lia]. }
  pose proof (next_version_clock s Hr ltac:(lia)) as H'.
  destruct (next_version s) as [v s1]. destruct H' as (Hv & _ & _ & Hlt & Hle).
  assert (Hc : (version_clock (state s1) ≤ Z.max lim (version_clock (state s)) + 1)%Z)
    by (specialize (Hnow (ticks s)); lia).
  specialize (IH s1 ltac:(unfold in_i64, i64_min, i64_max in *; lia) Hnow ltac:(lia)).
  destruct (mint n s1) as [vs s']. destruct IH as (Hlen & Hall & Hs & Hmono).
  split_and!; [by f_equal/=| | |lia].
  - constructor; [unfold covers; lia|]. eapply Forall_impl; [exact Hall|].
    intros w [??]. split; [lia|done].
  - constructor; [done|]. eapply Forall_impl; [exact Hall|].
    intros w [??]. apply version_newer_ms. lia.
Qed.

(** * Local writes *)

(** The newest the node remembers of one of its records: a version or a
    tombstone. *)
Definition local_version (k : string) (st : ClusterState) : option Version :=
  match aget k (tombstones st) with
  | Some t => Some (t_version t)
  | None => aget k (local_versions st)
  end.

Definition clock_covers_local (st : ClusterState) : Prop :=
  ∀ k v, aget k (local_versions st) = Some v ∨ t_version <$> aget k (tombstones st) = Some v →
    (v_ms v ≤ version_clock st)%Z.

(** The state [stamp_local] saves. *)
Definition stamped (k : string) (op : MutationOp) (v : Version) (st : ClusterState) : ClusterState :=
  match op with
  | Deregister =>
      let st := set_tombstones (bm_insert k (mkTombstone v (v_ms v)) (tombstones st)) st in
      set_local_versions (aremove k (local_versions st)) st
  | Register | Update =>
      let st := set_local_versions (bm_insert k v (local_versions st)) st in
      set_tombstones (aremove k (tombstones st)) st
  end.

Lemma stamp_local_eq ds sid op s :
  let '(v, s1) := next_version s in
  let '(r, s2) := save_state (set_state (stamped (make_key ds sid) op v (state s1)) s1) in
  stamp_local ds sid op s = (match r with Ok _ => Ok v | Err e => Err e end, s2).
Proof.
  unfold stamp_local, next_version. destruct (next_ts_locked s) as [ts s1].
  destruct op; cbn [stamped v_ms]; by destruct (save_state _).
Qed.

Lemma save_state_spec s :
  let '(r, s') := save_state s in
  state s' = state s ∧ foreign s' = foreign s ∧ sessions s' = sessions s ∧
  evicted_until s' = evicted_until s ∧
  (r = Ok () → disk s' = Some (Ok (state_to_text (state s)))).
Proof.
  unfold save_state. destruct (save _ _ _ _) as [r d] eqn:E. simpl. split_and!; try done.
  intros ->. by apply save_Ok in E.
Qed.

Lemma stamped_lookup k op v st k' :
  (aget k' (local_versions (stamped k op v st)) =
     if decide (k' = k) then match op with Deregister => None | _ => Some v end
     else aget k' (local_versions st)) ∧
  (aget k' (tombstones (stamped k op v st)) =
     if decide (k' = k) then match op with Deregister => Some (mkTombstone v (v_ms v)) | _ => None end
     else aget k' (tombstones st)) ∧
  version_clock (stamped k op v st) = version_clock st ∧ node_id (stamped k op v st) = node_id st.
Proof.
  destruct op; simpl; rewrite ?aget_bm_insert, ?aget_aremove; by destruct (decide (k' = k)).
Qed.

Lemma stamped_covered k op v st :
  (v_ms v ≤ version_clock st)%Z → clock_covers_local st → clock_covers_local (stamped k op v st).
Proof.
  intros Hv Hc k' w. destruct (stamped_lookup k op v st k') as (-> & -> & -> & _).
  case_decide; [|apply Hc]. destruct op; simpl; intros [?|?]; by simplify_eq/=.
Qed.

(** What a stamp does to memory, whether or not the save succeeds. *)
Lemma stamp_local_state ds sid op s :
  in_i64 (version_clock (state s)) → (version_clock (state s) < i64_max)%Z →
  let '(r, s') := stamp_local ds sid op s in
  let k := make_key ds sid in
  ∃ v, state s' = stamped k op v (set_version_clock (v_ms v) (state s)) ∧
    v_node v = me s ∧ (version_clock (state s) < v_ms v)%Z ∧
    foreign s' = foreign s ∧ sessions s' = sessions s ∧
    match r with
    | Ok w => w = v ∧ disk s' = Some (Ok (state_to_text (state s')))
    | Err _ => True
    end.
Proof.
  intros Hr Hlt. pose proof (stamp_local_eq ds sid op s) as H'.
  pose proof (next_version_clock s Hr Hlt) as Hc.
  unfold next_version in *. destruct (next_ts_locked s) as [ts s1] eqn:E1.
  pose proof (next_ts_spec s) as Hs. rewrite E1 in Hs. destruct Hs as [-> _].
  destruct Hc as (_ & Hn & _ & Hlt' & _). simpl in *.
  set (s2 := set_state (stamped _ op _ _) _) in *.
  pose proof (save_state_spec s2) as Hsv.
  destruct (save_state s2) as [r s3]. destruct Hsv as (Hst & Hfo & Hse & _ & Hd). rewrite H'. exists (mkVersion ts (me s)).
  split_and!; simpl; try done.
  destruct r as [[]|]; [|done]. split; [done|]. rewrite Hst. by apply Hd.
Qed.

(** A tombstone is collected when it is older than the retention window. *)
Definition expired_tombstone (now : Z) (t : Tombstone) : bool :=
  (retention_ms <? i64_sub now (deleted_at_ms t))%Z.
Definition expired_replica (now : Z) (e : SyncEnvelope) : bool :=
  env_tombstone e && (retention_ms <? i64_sub now (v_ms (env_version e)))%Z.

Definition gc_now (o : option Z) s : Z := default (now_ms_at (ticks s)) o.

Lemma gc_tombstones_spec o s :
  let '(n, s') := gc_tombstones o s in
  local_versions (state s') = local_versions (state s) ∧
  node_id (state s') = node_id (state s) ∧ version_clock (state s') = version_clock (state s) ∧
  sessions s' = sessions s ∧ evicted_until s' = evicted_until s ∧
  tombstones (state s') =
    aretain (λ _ t, negb (expired_tombstone (gc_now o s) t)) (tombstones (state s)) ∧
  foreign s' = aretain (λ _ e, negb (expired_replica (gc_now o s) e)) (foreign s).
Proof.
  unfold gc_tombstones, gc_now, expired_tombstone, expired_replica.
  assert (Hle : ∀ a b, (a <=? b)%Z = negb (b <? a)%Z).
  { intros. destruct (Z.leb_spec a b), (Z.ltb_spec b a); simpl; lia || done. }
  assert (Hsame : ∀ now,
    aretain (λ (_ : string) t, (i64_sub now (deleted_at_ms t) <=? retention_ms)%Z) (tombstones (state s)) =
    aretain (λ _ t, negb (retention_ms <? i64_sub now (deleted_at_ms t))%Z) (tombstones (state s))).
  { intros now. unfold aretain. apply list_filter_iff. intros. by rewrite Hle. }
  destruct o as [now|]; simpl; rewrite Hsame; destruct (0 <? _)%nat; simpl;
    unfold save_logged, save_state; simpl; repeat (destruct (save _ _ _ _); simpl); done.
Qed.
End local.

(** * Theorems *)

Section local_theorems.
Context `{!StateFile, !ClusterEnv, !Digest, !HashIter}.
Implicit Types s : Store.

(** C35: Versions minted in a row are strictly increasing under LWW and newer than
    the clock before, whatever the wall clock reads (it may stand still or
    step back), as long as the clock does not run out of 64 bits. *)
Theorem next_version_monotonic n s lim :
  in_i64 (version_clock (state s)) → (∀ t, now_ms_at t ≤ lim)%Z →
  (Z.max lim (version_clock (state s)) + Z.of_nat n ≤ i64_max)%Z →
  let '(vs, s') := mint n s in
  length vs = n ∧
  StronglySorted (λ a b, version_newer b (Some a) = true) vs ∧
  (∀ v w, v ∈ vs → covers s w → version_newer v (Some w) = true) ∧
  (∀ v, v ∈ vs → covers s' v).
Proof.
  intros Hr Hnow Hlim. pose proof (mint_sorted n s lim Hr Hnow Hlim) as H'.
  destruct (mint n s) as [vs s']. destruct H' as (Hlen & Hall & Hs & _).
  rewrite Forall_forall in Hall. split_and!; [done|done| |].
  - intros v w Hv Hw. apply version_newer_ms. unfold covers in Hw. specialize (Hall v Hv). lia.
  - intros v Hv. by apply Hall.
Qed.

(** [next_version_after] outversions its floor, except a floor at the top of
    the 64-bit range, where [floor_ms + 1] wraps and the floor is not
    respected. *)
Theorem next_version_after_floor floor node s :
  in_i64 (version_clock (state s)) → in_i64 floor →
  let '(v, s') := next_version_after floor s in
  ((floor < i64_max)%Z → version_newer v (Some (mkVersion floor node)) = true) ∧
  ((version_clock (state s) < i64_max)%Z → ∀ w, covers s w → version_newer v (Some w) = true) ∧
  covers s' v ∧
  (floor = i64_max → (version_clock (state s) < i64_max)%Z → (now_ms_at (ticks s) < i64_max)%Z →
   v_ms v = Z.max (now_ms_at (ticks s)) (version_clock (state s) + 1) ∧ (v_ms v ≤ floor)%Z).
Proof.
  intros Hr Hf. unfold next_version_after. simpl. split_and!.
  - intros Hlt. apply version_newer_ms. cbn [v_ms].
    rewrite (i64_add_id floor) by (unfold in_i64 in *; lia). lia.
  - intros Hlt w Hw. unfold covers in Hw. apply version_newer_ms. cbn [v_ms].
    rewrite (i64_add_id (version_clock _)) by (unfold in_i64 in *; lia). lia.
  - unfold covers. simpl. lia.
  - intros -> Hlt Hnow. rewrite (i64_add_id (version_clock _)) by (unfold in_i64 in *; lia).
    assert (i64_add i64_max 1 = i64_min) as -> by done.
    unfold in_i64 in Hr. cbn [v_ms]. split; lia.
Qed.

(** A local write stamps the record with a version newer than every version
    the node remembers, flips it between live and tombstone and leaves every
    other record alone; when it reports success, the file holds it, and a
    node restarted from that file mints only newer versions, whatever its
    wall clock says. *)
Theorem stamp_local_spec ds sid op s :
  in_i64 (version_clock (state s)) → (version_clock (state s) < i64_max)%Z →
  clock_covers_local (state s) →
  let '(r, s') := stamp_local ds sid op s in
  let k := make_key ds sid in
  clock_covers_local (state s') ∧
  (∃ v, local_version k (state s') = Some v ∧ v_node v = me s ∧ covers s' v ∧
     (∀ k' w, local_version k' (state s) = Some w → version_newer v (Some w) = true) ∧
     (op = Deregister ↔ is_Some (aget k (tombstones (state s')))) ∧
     ∀ w, r = Ok w → w = v) ∧
  (∀ k', k' ≠ k → local_version k' (state s') = local_version k' (state s)) ∧
  (∀ w p env', r = Ok w →
     ∃ s0, load_or_none_at p (disk s') = Some s0 ∧ local_version k (state s0) = Some w ∧
       (in_i64 (version_clock (state s0)) → (version_clock (state s0) < i64_max)%Z →
        version_newer (@next_version _ env' s0).1 (Some w) = true)).
Proof.
  intros Hr Hlt Hc. pose proof (stamp_local_state ds sid op s Hr Hlt) as H'.
  destruct (stamp_local ds sid op s) as [r s']. cbn zeta in H' |- *.
  set (k := make_key ds sid) in *. destruct H' as (v & Hst & Hn & Hv & _ & _ & Hr').
  pose proof (λ k', stamped_lookup k op v (set_version_clock (v_ms v) (state s)) k') as Hlk.
  assert (Hlocal : local_version k (state s') = Some v).
  { unfold local_version. rewrite Hst. destruct (Hlk k) as (-> & -> & _ & _).
    rewrite !decide_True by done. by destruct op. }
  split_and!.
  - rewrite Hst. apply stamped_covered; [simpl; lia|].
    intros k' w Hw. specialize (Hc k' w Hw). simpl. lia.
  - exists v. split_and!; [done|done| | | |].
    + unfold covers. rewrite Hst. destruct (Hlk k) as (_ & _ & -> & _). simpl. lia.
    + intros k' w Hw. apply version_newer_ms.
      enough (v_ms w ≤ version_clock (state s))%Z by lia. apply (Hc k'). unfold local_version in Hw.
      destruct (aget k' (tombstones (state s))) as [t|]; [right; by simplify_eq/=|by left].
    + rewrite Hst. destruct (Hlk k) as (_ & -> & _ & _). rewrite decide_True by done.
      destruct op; split; intros Hop; try done; by destruct Hop.
    + intros w ->. by destruct Hr'.
  - intros k' Hne. unfold local_version. rewrite Hst. destruct (Hlk k') as (-> & -> & _ & _).
    by rewrite !decide_False by done.
  - intros w p env' ->. destruct Hr' as [-> Hd]. rewrite Hd. unfold load_or_none_at.
    rewrite load_saved. eexists. split; [done|]. split; [exact Hlocal|].
    intros Hr0 Hlt0.
    set (s0 := build _ _) in *.
    pose proof (next_version_clock (H0 := env') s0 Hr0 Hlt0) as Hnv.
    destruct (next_version s0) as [v0 s1]. destruct Hnv as (Hv0 & _ & _ & Hlt1 & _).
    apply version_newer_ms. cbn [fst]. rewrite Hv0.
    assert (version_clock (state s0) = v_ms v) as Heq; [|lia].
    unfold s0; simpl. rewrite Hst. by destruct (Hlk k) as (_ & _ & -> & _).
Qed.

(** Collection forgets exactly the tombstones older than the retention
    window, our own and replicated ones; live records, ours or replicated,
    are never touched. *)
Theorem gc_tombstones_only_expired o s :
  NoDup (akeys (tombstones (state s))) → NoDup (akeys (foreign s)) →
  let s' := (gc_tombstones o s).2 in
  (∀ k, aget k (local_versions (state s')) = aget k (local_versions (state s))) ∧
  (∀ k t, aget k (tombstones (state s)) = Some t →
     aget k (tombstones (state s')) = if expired_tombstone (gc_now o s) t then None else Some t) ∧
  (∀ k e, aget k (foreign s) = Some e → env_tombstone e = false → aget k (foreign s') = Some e) ∧
  (∀ k e, aget k (foreign s) = Some e → env_tombstone e = true →
     aget k (foreign s') = if expired_replica (gc_now o s) e then None else Some e) ∧
  (∀ k, aget k (foreign s) = None → aget k (foreign s') = None) ∧
  (∀ k, aget k (tombstones (state s)) = None → aget k (tombstones (state s')) = None).
Proof.
  intros Hn1 Hn2. pose proof (gc_tombstones_spec o s) as H'.
  destruct (gc_tombstones o s) as [n s']. cbn [snd].
  destruct H' as (-> & _ & _ & _ & _ & -> & ->).
  split_and!; [done|..]; intros k; rewrite ?aget_aretain by done.
  - intros t ->. by destruct (expired_tombstone _ _).
  - intros e -> Hl. unfold expired_replica. by rewrite Hl.
  - intros e -> _. by destruct (expired_replica _ _).
  - by intros ->.
  - by intros ->.
Qed.

(** Eviction is complete and exact: the session and every record of the
    origin are gone, everything else is as it was, the sink hears exactly
    what was dropped, and until the deadline passes no delivery brings a
    record of the origin back. *)
Theorem disconnect_peer_spec node s :
  NoDup (akeys (foreign s)) → NoDup (akeys (sessions s)) →
  let deadline := f64_add (clock_at (ticks s)) (tombstone_retention config) in
  let '(existed, s') := disconnect_peer node s in
  existed = ahas node (sessions s) ∧
  (∀ n, aget n (sessions s') = if decide (n = node) then None else aget n (sessions s)) ∧
  (∀ k, aget k (foreign s') = if decide (k_origin k = node) then None else aget k (foreign s)) ∧
  state s' = state s ∧ disk s' = disk s ∧
  (eviction_sink = true → ∃ l, evictions s' = evictions s ++ [(node, l)] ∧
     ∀ d i, (d, i) ∈ l ↔ is_Some (aget (d, node, i) (foreign s))) ∧
  (∀ s1 e, evicted_until s1 = evicted_until s' → env_origin_id e = node →
     f64_ltb (clock_at (ticks s1)) deadline = true →
     apply_inbound e s1 = (false, tick s1)).
Proof.
  intros Hnf Hns. unfold disconnect_peer. cbn [fst snd clock_now].
  set (l := (λ ke : Key * SyncEnvelope, (k_dataset ke.1, k_service ke.1)) <$> _).
  assert (Hl : ∀ d i, (d, i) ∈ l ↔ is_Some (aget (d, node, i) (foreign s))).
  { intros d i. unfold l. rewrite list_elem_of_fmap. split.
    - intros ([[[d' o'] i'] e] & [= -> ->] & Hin). apply list_elem_of_filter in Hin as [Ho Hin].
      unfold k_origin in Ho; simpl in *; subst. exists e. by apply aget_elem.
    - intros [e He]. exists ((d, node, i), e). split; [done|].
      apply list_elem_of_filter. split; [done|]. by apply aget_Some_elem. }
  split_and!.
  - done.
  - intros n. destruct eviction_sink; simpl; apply aget_aremove.
  - intros k. assert (Hk : aget k (aretain (λ k _, negb (bool_decide (k_origin k = node))) (foreign s)) =
      if decide (k_origin k = node) then None else aget k (foreign s)).
    { rewrite aget_aretain by done. destruct (decide (k_origin k = node)) as [Heq|Hne].
      - rewrite bool_decide_true by done. by destruct (aget k (foreign s)).
      - rewrite bool_decide_false by done. by destruct (aget k (foreign s)). }
    by destruct eviction_sink; simpl.
  - by destruct eviction_sink.
  - by destruct eviction_sink.
  - intros ->. by exists l.
  - intros s1 e Hev Ho Hlt. unfold apply_inbound. cbn [clock_now].
    case_decide; [done|].
    assert (Hl1 : evicted_until (tick s1) !! env_origin_id e =
                  Some (f64_add (clock_at (ticks s)) (tombstone_retention config))).
    { simpl. rewrite Hev, Ho. destruct eviction_sink; simpl; apply lookup_insert_eq. }
    by rewrite Hl1, Hlt.
Qed.
End local_theorems.
