(* ===== verification/ClusterInvariant.v ===== *)
(** The step relation of the cluster store and the invariant every reachable
    store satisfies.  A step is one operation, in an environment of its own:
    between two steps the backend, the clocks, the configuration and the file
    system may answer anything. *)
From S2P Require Import Prelude F64 RustMap RustStr Json Common Lww Merkle Handshake ClusterState ClusterStore ClusterStoreFacts ClusterLocal.

(** * Well-formed stores *)

Record state_wf (st : ClusterState) : Prop := {
  wf_local_sorted : bm_sorted (local_versions st);
  wf_tombs_sorted : bm_sorted (tombstones st);
  wf_disjoint : ∀ k, is_Some (aget k (tombstones st)) → aget k (local_versions st) = None
}.

Record store_inv `{!StateFile} (s : Store) : Prop := {
  inv_state : state_wf (state s);
  inv_foreign_nodup : NoDup (akeys (foreign s));
  inv_foreign_key : ∀ k e, (k, e) ∈ foreign s → env_key e = k;
  inv_foreign_origin : ∀ k e, (k, e) ∈ foreign s → k_origin k ≠ me s;
  inv_sessions_nodup : NoDup (akeys (sessions s));
  inv_sessions_key : ∀ n p, (n, p) ∈ sessions s → peer_node_id p = n
}.

(** The session [connect_peer] records. *)
Definition record_session `{!StateFile} (peer : Peer) (s : Store) : Store :=
  set_evicted_until (delete (peer_node_id peer) (evicted_until s))
    (set_sessions (im_insert (peer_node_id peer) peer (sessions s)) s).

Inductive store_step `{!StateFile, !Digest} : Store → Store → Prop :=
| step_clock (env : ClusterEnv) s : store_step s (clock_now s).2
| step_next_version (env : ClusterEnv) s : store_step s (next_version s).2
| step_next_version_after (env : ClusterEnv) f s : store_step s (next_version_after f s).2
| step_observe ms s : store_step s (observe_version ms s)
| step_save (env : ClusterEnv) s : store_step s (save_state s).2
| step_persist_membership (env : ClusterEnv) c r v s : store_step s (persist_membership c r v s).2
| step_ensure (env : ClusterEnv) s : store_step s (ensure_local_versions s)
| step_apply (env : ClusterEnv) e s : store_step s (apply_inbound e s).2
| step_open (env : ClusterEnv) req s : store_step s (handle_open req s).2
| step_touch (env : ClusterEnv) n s : store_step s (touch_peer n s)
| step_disconnect (env : ClusterEnv) n s : store_step s (disconnect_peer n s).2
| step_prune (env : ClusterEnv) t s : store_step s (prune_suppression t s)
| step_gc (env : ClusterEnv) t s : store_step s (gc_tombstones t s).2
| step_stamp (env : ClusterEnv) d i op s : store_step s (stamp_local d i op s).2
| step_session peer s : store_step s (record_session peer s).

Notation store_steps := (rtc store_step).

Section preservation.
Context `{!StateFile, !Digest}.
Implicit Types s : Store.

Lemma new_state_wf n p : state_wf (new_state n p).
Proof. split; simpl; [constructor|constructor|by intros k [? ?]]. Qed.

Lemma build_inv st d : state_wf st → store_inv (build st d).
Proof. intros Hwf. split; simpl; try done; [constructor|set_solver..|constructor|set_solver]. Qed.

(** The invariant reads these four components. *)
Lemma store_inv_frame s s' :
  state s' = state s → foreign s' = foreign s → sessions s' = sessions s →
  store_inv s → store_inv s'.
Proof. intros H1 H2 H3 []. split; unfold me in *; rewrite ?H1, ?H2, ?H3; done. Qed.

Lemma set_state_inv s st :
  state_wf st → node_id st = me s → store_inv s → store_inv (set_state st s).
Proof. intros Hwf Hn []. split; simpl; unfold me in *; simpl; rewrite ?Hn; done. Qed.

Lemma save_state_inv (env : ClusterEnv) s : store_inv s → store_inv (save_state s).2.
Proof.
  pose proof (save_state_spec s) as H'. destruct (save_state s) as [r s'].
  destruct H' as (? & ? & ? & _). by apply store_inv_frame.
Qed.

Lemma set_clock_wf z st : state_wf st → state_wf (set_version_clock z st).
Proof. intros []. by split. Qed.

Lemma stamped_wf k op v st : state_wf st → state_wf (stamped k op v st).
Proof.
  intros [Hl Ht Hd]. split.
  - destruct op; simpl; [by apply bm_sorted_insert..|by apply bm_sorted_remove].
  - destruct op; simpl; [by apply bm_sorted_remove..|by apply bm_sorted_insert].
  - intros k'. destruct (stamped_lookup k op v st k') as (-> & -> & _).
    case_decide; [|apply Hd]. destruct op; intros [? ?]; done.
Qed.

Lemma ensure_version_inv (env : ClusterEnv) c s r :
  store_inv s → store_inv (ensure_version (c, s) r).2 ∧ me (ensure_version (c, s) r).2 = me s.
Proof.
  intros Hinv. unfold ensure_version.
  destruct (ahas _ (local_versions (state s))) eqn:Hl; simpl; [done|].
  destruct (ahas _ (tombstones (state s))) eqn:Ht; simpl; [done|]. split; [|done].
  apply set_state_inv; [|done|]; [|apply set_state_inv; [by apply set_clock_wf, Hinv|done|];
    by apply (store_inv_frame s)].
  destruct (inv_state _ Hinv) as [Hls Hts Hd]. apply ahas_false in Ht. split; simpl; [|done|].
  - by apply bm_sorted_insert.
  - intros k Hk. rewrite aget_bm_insert. case_decide; [|by apply Hd].
    subst. rewrite Ht in Hk. by destruct Hk.
Qed.

Lemma ensure_local_versions_inv (env : ClusterEnv) s :
  store_inv s → store_inv (ensure_local_versions s).
Proof.
  intros Hinv. unfold ensure_local_versions. destruct registry as [reg|]; [|done].
  assert (Hf : ∀ l c s, store_inv s → store_inv (foldl ensure_version (c, s) l).2).
  { intros l. induction l as [|r l IH]; intros c s0 Hi0; [done|]. cbn [foldl].
    destruct (ensure_version_inv env c s0 r Hi0) as [H' _].
    destruct (ensure_version (c, s0) r) as [c' s']. by apply IH. }
  specialize (Hf (present_records reg) false s Hinv).
  destruct (foldl _ _ _) as [c s']. destruct c; [by apply save_state_inv|done].
Qed.

Lemma apply_inbound_inv (env : ClusterEnv) e s : store_inv s → store_inv (apply_inbound e s).2.
Proof.
  intros Hinv. rewrite apply_inbound_eq. destruct (admits e s && _) eqn:E; simpl;
    [|by apply (store_inv_frame s)].
  apply andb_true_iff in E as [Ha _]. apply andb_true_iff in Ha as [Hne _].
  apply negb_true_iff, bool_decide_eq_false in Hne. destruct Hinv. split; simpl; try done.
  - by apply NoDup_im_insert.
  - intros k e' [[-> ->]|Hin]%elem_of_im_insert; [done|by apply inv_foreign_key0].
  - intros k e' [[-> ->]|Hin]%elem_of_im_insert; [done|by eapply inv_foreign_origin0].
Qed.

Lemma sessions_insert_inv s p :
  store_inv s → store_inv (set_sessions (im_insert (peer_node_id p) p (sessions s)) s).
Proof.
  intros []. split; simpl; try done; [by apply NoDup_im_insert|].
  intros n q [[-> ->]|Hin]%elem_of_im_insert; [done|by apply inv_sessions_key0].
Qed.

Lemma touch_peer_inv (env : ClusterEnv) n s : store_inv s → store_inv (touch_peer n s).
Proof.
  intros Hinv. unfold touch_peer. cbn [clock_now].
  destruct (aget n (sessions s)) as [p|] eqn:E; simpl; rewrite E;
    [|by apply (store_inv_frame s)].
  assert (peer_node_id p = n) as <-
    by (apply (inv_sessions_key _ Hinv); by apply aget_Some_elem).
  set (p' := mkPeer _ _ _ _ _). apply (sessions_insert_inv (tick s) p').
  by apply (store_inv_frame s).
Qed.

Lemma disconnect_peer_inv (env : ClusterEnv) n s : store_inv s → store_inv (disconnect_peer n s).2.
Proof.
  intros Hinv. unfold disconnect_peer. simpl.
  enough (store_inv (set_foreign (aretain (λ k _, negb (bool_decide (k_origin k = n))) (foreign s))
    (set_sessions (aremove n (sessions s)) s))) as Hi
    by (destruct eviction_sink; (eapply store_inv_frame; [..|exact Hi]; reflexivity)).
  destruct Hinv. split; simpl; try done.
  - by apply NoDup_aretain.
  - intros k e [_ Hin]%elem_of_aretain. by apply inv_foreign_key0.
  - intros k e [_ Hin]%elem_of_aretain. by eapply inv_foreign_origin0.
  - by apply NoDup_aremove.
  - intros m p. rewrite aremove_retain. intros [_ Hin]%elem_of_aretain. by apply inv_sessions_key0.
Qed.

Lemma gc_tombstones_inv (env : ClusterEnv) o s : store_inv s → store_inv (gc_tombstones o s).2.
Proof.
  intros Hinv. pose proof (gc_tombstones_spec o s) as H'.
  destruct (gc_tombstones o s) as [n s']. destruct H' as (Hl & Hn & _ & Hse & _ & Ht & Hf). simpl.
  destruct Hinv as [[Hls Hts Hd]]. split; unfold me in *; rewrite ?Hf, ?Hse, ?Hn; try done.
  - split; rewrite ?Hl, ?Ht; [done|by apply bm_sorted_retain|].
    intros k. rewrite aget_aretain by (by apply bm_sorted_NoDup). intros [t Hk]. apply Hd.
    by destruct (aget k (tombstones (state s))); eauto.
  - by apply NoDup_aretain.
  - intros k e [_ Hin]%elem_of_aretain. by apply inv_foreign_key0.
  - intros k e [_ Hin]%elem_of_aretain. by eapply inv_foreign_origin0.
Qed.

Lemma stamp_local_inv (env : ClusterEnv) d i op s : store_inv s → store_inv (stamp_local d i op s).2.
Proof.
  intros Hinv. pose proof (stamp_local_eq d i op s) as H'.
  unfold next_version, next_ts_locked in H'. simpl in H'.
  set (s1 := set_state (stamped _ _ _ _) _) in H'.
  pose proof (save_state_inv env s1) as Hs. destruct (save_state s1) as [r s2]. rewrite H'.
  apply Hs. apply set_state_inv; [by apply stamped_wf, set_clock_wf, Hinv| |].
  - by destruct op.
  - apply set_state_inv; [by apply set_clock_wf, Hinv|done|]. by apply (store_inv_frame s).
Qed.

Lemma handle_open_inv (env : ClusterEnv) req s : store_inv s → store_inv (handle_open req s).2.
Proof.
  intros Hinv. unfold handle_open.
  destruct (auth_enabled auth); cbn [random_token clock_now fst snd];
    (eapply store_inv_frame; [..|eapply (sessions_insert_inv s (mkPeer _ _ _ _ _)); exact Hinv];
     reflexivity).
Qed.

Lemma store_step_inv s s' : store_step s s' → store_inv s → store_inv s'.
Proof.
  intros Hstep Hinv. destruct Hstep.
  - by apply (store_inv_frame s).
  - apply set_state_inv; [by apply set_clock_wf, Hinv|done|by apply (store_inv_frame s)].
  - apply set_state_inv; [by apply set_clock_wf, Hinv|done|by apply (store_inv_frame s)].
  - unfold observe_version. case_if; [|done]. apply set_state_inv; [by apply set_clock_wf, Hinv|done..].
  - by apply save_state_inv.
  - apply save_state_inv, set_state_inv; [|done..]. destruct (inv_state _ Hinv). by split.
  - by apply ensure_local_versions_inv.
  - by apply apply_inbound_inv.
  - by apply handle_open_inv.
  - by apply touch_peer_inv.
  - by apply disconnect_peer_inv.
  - unfold prune_suppression. destruct t; simpl; by apply (store_inv_frame s).
  - by apply gc_tombstones_inv.
  - by apply stamp_local_inv.
  - eapply store_inv_frame; [..|exact (sessions_insert_inv s peer Hinv)]; done.
Qed.

Lemma store_steps_inv s s' : store_steps s s' → store_inv s → store_inv s'.
Proof. induction 1; eauto using store_step_inv. Qed.
End preservation.
