(* ===== verification/ClusterServe.v ===== *)
(** What the cluster store shows: the version index, the rows and envelopes
    served to a peer, and the read seams of the dataset router. *)
From S2P Require Import Prelude F64 RustMap RustStr Json Common Lww Merkle Handshake ClusterState ClusterStore ClusterStoreFacts ClusterLocal ClusterInvariant.
From Stdlib Require Import Ascii.

Section serve.
Context `{!StateFile, !ClusterEnv, !Digest, !HashIter}.
Implicit Types s : Store.

(** * The index *)

Lemma in_scope_elem l d : d ∈ l → in_scope (Some l) d = true.
Proof. destruct l as [|a l]; [done|]. intros Hd. unfold in_scope. by apply bool_decide_eq_true. Qed.

Lemma ensure_version_frame c s r :
  let s' := (ensure_version (c, s) r).2 in
  tombstones (state s') = tombstones (state s) ∧ foreign s' = foreign s ∧
  sessions s' = sessions s ∧ me s' = me s ∧ evicted_until s' = evicted_until s.
Proof. unfold ensure_version. by destruct (_ && _). Qed.

Lemma ensure_fold_frame l c s :
  let s' := (foldl ensure_version (c, s) l).2 in
  tombstones (state s') = tombstones (state s) ∧ foreign s' = foreign s ∧
  sessions s' = sessions s ∧ me s' = me s ∧ evicted_until s' = evicted_until s.
Proof.
  revert c s. induction l as [|r l IH]; intros c s; [done|]. cbn [foldl].
  pose proof (ensure_version_frame c s r) as (Ht & Hf & Hs & Hm & He).
  destruct (ensure_version (c, s) r) as [c' s']. cbn [snd] in *.
  destruct (IH c' s') as (-> & -> & -> & -> & ->). done.
Qed.

Lemma ensure_frame s :
  let s' := ensure_local_versions s in
  tombstones (state s') = tombstones (state s) ∧ foreign s' = foreign s ∧
  sessions s' = sessions s ∧ me s' = me s ∧ evicted_until s' = evicted_until s.
Proof.
  unfold ensure_local_versions. destruct registry as [reg|]; [|done].
  pose proof (ensure_fold_frame (present_records reg) false s) as H'.
  destruct (foldl _ _ _) as [c s']. cbn [snd] in H'. destruct c; [|done].
  unfold save_logged. pose proof (save_state_spec s') as H''.
  destruct (save_state s') as [r s'']. destruct H'' as (Hst & Hfo & Hse & Hev & _). simpl.
  unfold me in *. rewrite Hst, Hfo, Hse, Hev. done.
Qed.

Definition local_key (s : Store) (k : Key) : Prop := k_origin k = me s.

(** A row of the local index: the record's own version, in scope. *)
Definition local_row (ns : option (list string)) s (k : Key) (v : Version) : Prop :=
  local_key s k ∧ in_scope ns (k_dataset k) = true ∧
  ((∃ kt t, (kt, t) ∈ tombstones (state s) ∧ split_key kt = (k_dataset k, k_service k) ∧
            v = t_version t) ∨
   aget (make_key (k_dataset k) (k_service k)) (local_versions (state s)) = Some v).

Lemma index_record_rows (ns : option (list string)) s (l : list (string * string)) (idx : Index) :
  (∀ r, r ∈ l → in_scope ns r.1 = true) →
  (∀ k v, idx !! k = Some v → local_row ns s k v) →
  ∀ k v, foldl (index_record s) idx l !! k = Some v → local_row ns s k v.
Proof.
  intros Hsc. revert idx. induction l as [|r l IH]; intros idx Hidx; [done|].
  cbn [foldl]. apply IH; [set_solver|]. unfold index_record.
  destruct (aget _ _) as [v0|] eqn:E; [|done]. intros k v.
  rewrite lookup_insert_Some. intros [[<- <-]|[_ ?]]; [|by apply Hidx].
  split; [done|]. split; [apply (Hsc r); set_solver|by right].
Qed.

Lemma index_tombstone_rows (ns : option (list string)) s (l : list (string * Tombstone)) (idx : Index) :
  (∀ kt, kt ∈ l → kt ∈ tombstones (state s)) →
  (∀ k v, idx !! k = Some v → local_row ns s k v) →
  ∀ k v, foldl (index_tombstone ns s) idx l !! k = Some v → local_row ns s k v.
Proof.
  intros Hsub. revert idx. induction l as [|[kt t] l IH]; intros idx Hidx; [done|].
  cbn [foldl]. apply IH; [set_solver|]. unfold index_tombstone. cbn [fst snd].
  destruct (split_key kt) as [ds sid] eqn:E. destruct (in_scope ns ds) eqn:Hs; simpl; [|done].
  intros k v. rewrite lookup_insert_Some. intros [[<- <-]|[_ ?]]; [|by apply Hidx].
  split; [done|]. split; [done|]. left. exists kt, t.
  split; [apply Hsub; set_solver|done].
Qed.

Lemma local_index_rows (ns : option (list string)) s :
  let '(idx, s') := local_index ns s in
  s' = ensure_local_versions s ∧ ∀ k v, idx !! k = Some v → local_row ns s' k v.
Proof.
  unfold local_index. destruct registry as [reg|] eqn:E; (split; [done|]); [|set_solver].
  set (s' := ensure_local_versions s). apply index_tombstone_rows; [done|].
  apply index_record_rows; [|set_solver].
  intros r Hr. apply list_elem_of_bind in Hr as (ds & Hr & Hds).
  apply list_elem_of_filter in Hds as [Hds _].
  apply list_elem_of_fmap in Hr as (sid & -> & _). done.
Qed.

Lemma index_foreign_lookup (ns : option (list string)) (l : list (Key * SyncEnvelope)) (idx : Index) k :
  NoDup (akeys l) →
  foldl (index_foreign ns) idx l !! k =
    match aget k l with
    | Some e => if in_scope ns (k_dataset k) then Some (env_version e) else idx !! k
    | None => idx !! k
    end.
Proof.
  unfold akeys. revert idx. induction l as [|[k' e] l IH]; intros idx; simpl; [done|].
  rewrite NoDup_cons. intros [Hn Hnd]. rewrite IH by done.
  destruct (decide (k = k')) as [->|Hne].
  - apply aget_None_keys in Hn. rewrite Hn. unfold index_foreign. simpl.
    destruct (in_scope ns (k_dataset k')); simpl; [by rewrite lookup_insert_eq|done].
  - unfold index_foreign. simpl. destruct (in_scope ns (k_dataset k')); simpl; [|done].
    by rewrite lookup_insert_ne.
Qed.

(** Composite keys of tombstones are built by [make_key]. *)
Definition tomb_keys_wf s : Prop :=
  ∀ kt, kt ∈ akeys (tombstones (state s)) → contains_char KEY_SEP kt = true.

(** A local row shows the version the node remembers for the record. *)
Lemma local_row_version (ns : option (list string)) s k v :
  state_wf (state s) → tomb_keys_wf s → local_row ns s k v →
  local_version (make_key (k_dataset k) (k_service k)) (state s) = Some v.
Proof.
  intros [_ Hts Hd] Hk (_ & _ & [(kt & t & Hin & Hsp & ->)|Hl]); unfold local_version.
  - assert (make_key (k_dataset k) (k_service k) = kt) as ->.
    { rewrite <-(make_split_key kt), Hsp; [done|]. apply Hk. unfold akeys.
      apply list_elem_of_fmap. by exists (kt, t). }
    by rewrite (aget_elem _ _ _ (bm_sorted_NoDup _ Hts) Hin).
  - destruct (aget _ (tombstones _)) as [t|] eqn:E; [|done].
    rewrite Hd in Hl by eauto. done.
Qed.

Lemma full_index_spec (ns : option (list string)) s :
  store_inv s →
  let '(idx, s') := full_index ns s in
  s' = ensure_local_versions s ∧
  (∀ k, k_origin k ≠ me s →
     idx !! k = if in_scope ns (k_dataset k) then env_version <$> aget k (foreign s) else None) ∧
  (∀ k v, k_origin k = me s → idx !! k = Some v → local_row ns s' k v).
Proof.
  intros Hinv. unfold full_index. pose proof (local_index_rows ns s) as Hrows.
  destruct (local_index ns s) as [idx s']. destruct Hrows as [-> Hrows].
  pose proof (ensure_frame s) as (_ & Hfo & _ & Hme & _). rewrite Hfo.
  assert (Hlk := λ k, index_foreign_lookup ns (foreign s) idx k (inv_foreign_nodup _ Hinv)).
  split_and!; [done|..].
  - intros k Hne. rewrite Hlk.
    assert (Hn : idx !! k = None).
    { destruct (idx !! k) as [v|] eqn:E; [|done]. apply Hrows in E as (Ho & _).
      unfold local_key in Ho. congruence. }
    rewrite Hn. destruct (aget k (foreign s)); simpl; by destruct (in_scope ns _).
  - intros k v Ho. rewrite Hlk. destruct (aget k (foreign s)) as [e|] eqn:E; [|apply Hrows].
    apply aget_Some_elem, (inv_foreign_origin _ Hinv) in E. done.
Qed.

(** * Namespaces shown to a caller *)

Lemma allowed_for_sub from ns tok s d :
  d ∈ allowed_for from ns tok s →
  (is_authed from tok s = true ∧ ∃ p, aget from (sessions s) = Some p ∧ d ∈ peer_namespaces p) ∨
  d ∈ public_namespaces.
Proof.
  unfold allowed_for. intros Hd.
  assert (Hd' : d ∈ match is_authed from tok s, peer_namespaces <$> aget from (sessions s) with
                    | true, Some ns => ns | _, _ => public_namespaces end).
  { destruct ns as [[|n ns]|]; try done. by apply list_elem_of_filter in Hd as [_ Hd]. }
  destruct (is_authed from tok s), (aget from (sessions s)) as [p|]; simpl in Hd'; eauto.
Qed.

Lemma elem_of_public d :
  d ∈ public_namespaces ↔
  ∃ reg, registry = Some reg ∧ d ∈ list_datasets reg ∧
         (auth_enabled auth = false ∨ is_auth_required reg d = false).
Proof.
  unfold public_namespaces. destruct registry as [reg|]; [|set_solver].
  rewrite elem_of_bs_of_list, list_elem_of_filter, orb_true_iff, !negb_true_iff.
  split; [intros []; eauto|]. by intros (? & [= <-] & ? & ?).
Qed.

Lemma NoDup_fst_hm_iter {K V} `{!EqDecision K, !Countable K} (m : gmap K V) : NoDup (hm_iter m).*1.
Proof. rewrite hm_iter_perm. apply NoDup_fst_map_to_list. Qed.
End serve.

(** * Theorems *)

Section serve_theorems.
Context `{!StateFile, !ClusterEnv, !Digest, !HashIter}.
Implicit Types s : Store.

(** A digest lists, sorted and once each, exactly the records of the
    namespaces the caller may see: own records with the version the node
    remembers (a tombstone's after a deletion), and every replicated record
    of those namespaces and buckets with its stored version. *)
Theorem serve_digest_spec from ns tok buckets s :
  store_inv s → tomb_keys_wf s →
  let allowed := allowed_for from ns tok s in
  let '(rows, s') := serve_digest from ns tok buckets s in
  StronglySorted cmp_le rows ∧ NoDup rows.*1 ∧
  (∀ k v, (k, v) ∈ rows →
     k_dataset k ∈ allowed ∧ in_buckets buckets k = true ∧
     if decide (k_origin k = me s)
     then local_version (make_key (k_dataset k) (k_service k)) (state s') = Some v
     else env_version <$> aget k (foreign s) = Some v) ∧
  (∀ k e, aget k (foreign s) = Some e → k_dataset k ∈ allowed → in_buckets buckets k = true →
     (k, env_version e) ∈ rows).
Proof.
  intros Hinv Htk. unfold serve_digest. cbn zeta. rewrite allowed_for_touch.
  set (allowed := allowed_for from ns tok s). set (s1 := touch_peer from s).
  pose proof (touch_peer_frame from s) as (Hst & Hfo & _). fold s1 in Hst, Hfo.
  assert (Hinv1 : store_inv s1) by (by apply touch_peer_inv).
  pose proof (full_index_spec (Some allowed) s1 Hinv1) as Hidx.
  destruct (full_index (Some allowed) s1) as [idx s2]. destruct Hidx as (-> & Hf & Hl).
  assert (Hme : me s1 = me s) by (unfold me; by rewrite Hst).
  rewrite Hme in Hf, Hl. split_and!.
  - apply sort_Sorted.
  - rewrite sort_Permutation. do 2 apply NoDup_keys_filter. apply NoDup_fst_hm_iter.
  - intros k v Hin. rewrite elem_of_sort, !list_elem_of_filter in Hin.
    destruct Hin as (Hb & Hd & Hin). cbn [fst] in Hb, Hd. apply elem_of_hm_iter in Hin.
    split_and!; [done..|]. destruct (decide (k_origin k = me s)) as [Ho|Ho].
    + apply (local_row_version (Some allowed)); [| |by apply Hl].
      * apply ensure_local_versions_inv, Hinv1.
      * unfold tomb_keys_wf. destruct (ensure_frame s1) as (-> & _). by rewrite Hst.
    + rewrite Hf, Hfo in Hin by done. by destruct (in_scope _ _).
  - intros k e He Hd Hb. rewrite elem_of_sort, !list_elem_of_filter.
    split; [done|]. split; [done|]. apply elem_of_hm_iter.
    rewrite Hf, Hfo, He by exact (inv_foreign_origin _ Hinv k e (aget_Some_elem _ _ _ He)).
    by rewrite in_scope_elem.
Qed.

(** C22: Without the session secret a caller learns nothing of a protected
    namespace: with auth on, every row and every envelope served to a caller
    that does not authenticate belongs to a dataset the backend has and does
    not protect. *)
Theorem unauthenticated_sees_public_only from ns tok buckets keys s :
  store_inv s → auth_enabled auth = true → is_authed from tok s = false →
  let public d := ∃ reg, registry = Some reg ∧ d ∈ list_datasets reg ∧ is_auth_required reg d = false in
  (∀ k v, (k, v) ∈ (serve_digest from ns tok buckets s).1 → public (k_dataset k)) ∧
  (∀ e, e ∈ (serve_pull from keys tok s).1 → public (env_dataset e) ∧ env_key e ∈ keys).
Proof.
  intros Hinv Hon Hauth public.
  assert (Hpub : ∀ req d, d ∈ allowed_for from req tok s → public d).
  { intros req d Hd. apply allowed_for_sub in Hd as [[? _]|Hd]; [congruence|].
    apply elem_of_public in Hd as (reg & ? & ? & [?|?]); [congruence|]. by exists reg. }
  split.
  - intros k v. unfold serve_digest. cbn zeta. rewrite allowed_for_touch.
    destruct (full_index _ _) as [idx s2]. cbn [fst].
    rewrite elem_of_sort, !list_elem_of_filter. intros (_ & Hd & _). by eapply Hpub.
  - intros e. unfold serve_pull. cbn zeta. rewrite allowed_for_touch. cbn [fst].
    rewrite list_elem_of_omap. intros (k & Hk & Hb). apply list_elem_of_filter in Hk as [Hd Hk].
    assert (Hek : env_key e = k).
    { unfold build_envelope_for_key in Hb. case_decide as Ho.
      - destruct k as [[d o] i]. unfold k_dataset, k_origin, k_service in *. simpl in *.
        unfold build_local_envelope in Hb.
        destruct (aget _ (tombstones _)); [by simplify_eq/=|].
        destruct (aget _ (local_versions _)); [|done]. simpl in Hb.
        destruct registry as [reg|]; [|done]. simpl in Hb.
        destruct (get_entry reg d i); [|done]. by simplify_eq/=.
      - apply aget_Some_elem in Hb. by apply (inv_foreign_key _ (touch_peer_inv _ from s Hinv)). }
    subst k. split; [by eapply Hpub|done].
Qed.

(** Display ids resolve: every row of [foreign_wrapped] whose origin has no
    colon is found again by [foreign_entry] under the id it displays, and
    what [foreign_entry] finds is listed, unless its row is empty. *)
Theorem foreign_entry_resolves dataset s k e w :
  aget k (foreign s) = Some e → k_dataset k = dataset →
  env_tombstone e = false → env_wrapped e = Some w → contains_char ":"%char (k_origin k) = false →
  foreign_entry dataset (display_id k) s = Some (foreign_row w k) ∧
  (w ≠ [] → foreign_row w k ∈ foreign_wrapped dataset s) ∧
  vget "id" (foreign_row w k) = Some (JString (display_id k)) ∧
  vget "origin_id" (foreign_row w k) = Some (JString (k_origin k)).
Proof.
  intros Hk <- Ht Hw Hc. split_and!.
  - unfold foreign_entry, display_id.
    change (":" +:+ k_service k) with (String ":"%char (k_service k)).
    rewrite split_once_app by done. simpl.
    replace (k_dataset k, k_origin k, k_service k) with k by (by destruct k as [[??]?]).
    rewrite Hk. simpl. by rewrite Ht, Hw.
  - intros Hne. unfold foreign_wrapped. apply list_elem_of_omap. exists (k, e).
    split; [by apply aget_Some_elem|]. simpl. rewrite bool_decide_true, Ht, Hw by done. simpl.
    by destruct w.
  - simpl. rewrite aget_im_insert_ne by done. apply aget_im_insert_eq.
  - simpl. apply aget_im_insert_eq.
Qed.
End serve_theorems.
