(* ===== verification/Replication.v ===== *)
(** The messages of the cluster RPCs and the trait that sends them
    (a2x-cluster/src/transport.rs, and the record of membership.rs they carry).

    [Transport] has one method per RPC, acting on a state [W] that stands for
    everything behind the network; [peer_transport] is the network of one peer
    that answers with its own handlers.

    Outbound replication of the cluster store (a2x-cluster/src/store.rs, the
    [KeepaliveMonitor] of sweepers.rs): what the store does through the peers'
    RPCs.  A fan-out runs its calls in an arbitrary order and drops their
    answers. *)
From S2P Require Import Prelude RustMap RustStr F64 Json Common Lww Merkle Handshake ClusterState ClusterStore ClusterStoreFacts ClusterLocal ClusterInvariant ClusterServe.

(** * The transport *)

(** [TransportError]. *)
Notation TransportError := string (only parsing).

(** [MembershipRecord]: one node's entry of the roster. *)
Record MembershipRecord := mkMember {
  m_node_id : string;
  m_cluster_id : option string;
  m_address : string;
  m_version : Version;
  m_removed : bool
}.

(** Bodies and answers of the membership RPCs. *)
Record JoinRequest := mkJoinRequest {
  jr_cluster_id : option string; jr_roster : list Value; jr_token : option string;
  jr_from_node : string; jr_from_address : string
}.
Record JoinResponse := mkJoinResponse {
  jp_accepted : bool; jp_node_id : option string; jp_cluster_id : option string;
  jp_version : option Version; jp_error : option string
}.
Record EvictRequest := mkEvictRequest {
  er_from_node : string; er_cluster_id : option string; er_token : option string
}.
Record LeaveRequest := mkLeaveRequest { lr_from_node : string; lr_token : option string }.

Class Transport (W : Type) := mkTransport {
  t_open : string → OpenRequest → W → result OpenResponse TransportError * W;
  t_merkle : string → string → list string → option string → W →
    result (list (string * string)) TransportError * W;
  t_digest : string → string → list string → option string → option (list Z) → W →
    result (list DigestRow) TransportError * W;
  t_pull : string → string → list Key → option string → W →
    result (list SyncEnvelope) TransportError * W;
  t_updates : string → string → list SyncEnvelope → option string → W →
    result UpdatesResponse TransportError * W;
  t_keepalive : string → string → option string → W → result bool TransportError * W;
  t_join : string → JoinRequest → W → result JoinResponse TransportError * W;
  t_evict : string → EvictRequest → W → result bool TransportError * W;
  t_evict_self : string → LeaveRequest → W → result bool TransportError * W;
  t_set_digest : string → string → option string → W →
    result (list (string * Version)) TransportError * W;
  t_set_pull : string → string → list string → option string → W →
    result (list Value) TransportError * W;
  t_set_sync : string → string → list MembershipRecord → option string → W → result bool TransportError * W
}.

(** One reachable peer without a membership plane: every RPC runs the peer's
    handler on the peer's store. *)
Definition peer_transport `{!StateFile, !Digest} (env : ClusterEnv) (o : HashIter) : Transport Store := {|
  t_open := λ _ body w, let '(r, w) := handle_open body w in (Ok r, w);
  t_merkle := λ _ from ns tok w, let '(r, w) := serve_merkle from (Some ns) tok w in (Ok r, w);
  t_digest := λ _ from ns tok b w, let '(r, w) := serve_digest from (Some ns) tok b w in (Ok r, w);
  t_pull := λ _ from keys tok w, let '(r, w) := serve_pull from keys tok w in (Ok r, w);
  t_updates := λ _ from envs tok w, let '(r, w) := serve_updates from envs tok w in (Ok r, w);
  t_keepalive := λ _ from tok w, let '(r, w) := handle_keepalive from tok w in (Ok r, w);
  t_join := λ _ _ w, (Err "no membership plane", w);
  t_evict := λ _ _ w, (Err "no membership plane", w);
  t_evict_self := λ _ _ w, (Err "no membership plane", w);
  t_set_digest := λ _ _ _ w, (Err "no membership plane", w);
  t_set_pull := λ _ _ _ _ w, (Err "no membership plane", w);
  t_set_sync := λ _ _ _ _ w, (Err "no membership plane", w)
|}.

(** [ReconcileResult]. *)
Record ReconcileResult := mkReconcileResult { pulled : nat; pushed : nat }.

Section replication.
Context `{!StateFile, !ClusterEnv, !Digest, !HashIter} {W : Type} `{!Transport W}.
Implicit Types (s : Store) (w : W).

(** [fan_out]: errors are swallowed. *)
Definition fan_out (tasks : list (W → W)) w : W :=
  foldl (λ w task, task w) w (hash_order tasks).

(** [broadcast]. *)
Definition broadcast (env : SyncEnvelope) s w : W :=
  let peers := filter (λ p, env_dataset env ∈ peer_namespaces p) (avalues (sessions s)) in
  fan_out ((λ p w, (t_updates (peer_address p) (me s) [env] (peer_token p) w).2) <$> peers) w.

(** [emit_keepalive]. *)
Definition emit_keepalive s w : W :=
  fan_out ((λ p w, (t_keepalive (peer_address p) (me s) (peer_token p) w).2) <$> avalues (sessions s)) w.

(** [iter().map(..).collect::<HashMap<_, _>>()] of digest rows. *)
Definition index_of_rows (rows : list DigestRow) : Index :=
  foldl (λ (idx : Index) row, <[row.1 := row.2]> idx) ∅ rows.

(** The loop [for env in envs { if self.apply_inbound(env) { pulled += 1 } }]. *)
Definition apply_pulled (acc : nat * Store) (env : SyncEnvelope) : nat * Store :=
  let '(pulled, s) := acc in
  let '(stored, s) := apply_inbound env s in
  (if stored then S pulled else pulled, s).

(** The pull half of [reconcile]: what the remote side has newer. *)
Definition pull_newer (peer : Peer) (remote local_sub : Index) s w
    : result nat TransportError * Store * W :=
  let to_pull := (filter (λ kv, version_newer kv.2 (local_sub !! kv.1) = true) (hm_iter remote)).*1 in
  match to_pull with
  | [] => (Ok 0%nat, s, w)
  | _ =>
      let '(r, w) := t_pull (peer_address peer) (me s) to_pull (peer_token peer) w in
      match r with
      | Err e => (Err e, s, w)
      | Ok envs => let '(pulled, s) := foldl apply_pulled (0%nat, s) envs in (Ok pulled, s, w)
      end
  end.

(** The push half: what we have newer. *)
Definition push_newer (peer : Peer) (remote local_sub : Index) s w
    : result nat TransportError * W :=
  let push_envs := omap (λ kv : DigestRow, build_envelope_for_key kv.1 s)
    (filter (λ kv, version_newer kv.2 (remote !! kv.1) = true) (hm_iter local_sub)) in
  match push_envs with
  | [] => (Ok 0%nat, w)
  | _ =>
      let '(r, w) := t_updates (peer_address peer) (me s) push_envs (peer_token peer) w in
      (match r with Err e => Err e | Ok res => Ok (ur_accepted res) end, w)
  end.

(** [reconcile]. *)
Definition reconcile (peer : Peer) s w : result ReconcileResult TransportError * Store * W :=
  let ns := peer_namespaces peer in
  let '(local_index, s) := full_index (Some ns) s in
  let n := merkle_buckets config in
  let local_buckets := bucket_hashes local_index n in
  let '(r, w) := t_merkle (peer_address peer) (me s) ns (peer_token peer) w in
  match r with
  | Err e => (Err e, s, w)
  | Ok remote_buckets =>
      match differing_buckets local_buckets remote_buckets with
      | [] => (Ok (mkReconcileResult 0 0), s, w)
      | diff =>
          let '(r, w) := t_digest (peer_address peer) (me s) ns (peer_token peer) (Some diff) w in
          match r with
          | Err e => (Err e, s, w)
          | Ok remote_rows =>
              let remote_index := index_of_rows remote_rows in
              let local_sub := filter (λ kv, bucket_of kv.1 n ∈ diff) local_index in
              let '(r, s, w) := pull_newer peer remote_index local_sub s w in
              match r with
              | Err e => (Err e, s, w)
              | Ok pulled =>
                  let '(r, w) := push_newer peer remote_index local_sub s w in
                  match r with
                  | Err e => (Err e, s, w)
                  | Ok pushed => (Ok (mkReconcileResult pulled pushed), s, w)
                  end
              end
          end
      end
  end.

(** [connect_peer]. *)
Definition connect_peer (address : string) (namespaces : option (list string))
    (token : option string) s w : result Peer TransportError * Store * W :=
  let offered := match namespaces with
                 | Some ((_ :: _) as ns) => ns
                 | _ => match registry with Some r => list_datasets r | None => [] end
                 end in
  let body := mkOpenRequest (me s) advertise offered token in
  let '(r, w) := t_open address body w in
  match r with
  | Err e => (Err e, s, w)
  | Ok resp =>
      let '(now, s) := clock_now s in
      let peer := mkPeer (os_node_id resp) address (bs_of_list (os_accepted resp)) now
                    (os_session_token resp) in
      let s := record_session peer s in
      let '(r, s, w) := reconcile peer s w in
      (match r with Err e => Err e | Ok _ => Ok peer end, s, w)
  end.

(** [on_local_mutation]. *)
Definition on_local_mutation (dataset service_id : string) (op : MutationOp) s w
    : result unit ClusterError * Store * W :=
  let '(r, s) := stamp_local dataset service_id op s in
  match r with
  | Err e => (Err e, s, w)
  | Ok _ =>
      let w := match build_local_envelope dataset service_id s with
               | Some env => broadcast env s w
               | None => w
               end in
      (Ok (), s, w)
  end.

(** [on_local_upsert]. *)
Definition on_local_upsert (dataset service_id : string) (entry : Value) (wrapped : option Value)
    s w : result unit ClusterError * Store * W :=
  let '(r, s) := stamp_local dataset service_id Update s in
  match r with
  | Err e => (Err e, s, w)
  | Ok version =>
      let env := mkEnvelope dataset service_id (me s) version false
                   (Some (record_payload entry wrapped)) in
      (Ok (), s, broadcast env s w)
  end.

(** [on_local_delete]. *)
Definition on_local_delete (dataset service_id : string) s w
    : result unit ClusterError * Store * W :=
  on_local_mutation dataset service_id Deregister s w.

(** [KeepaliveMonitor::tick] (sweepers.rs). *)
Definition keepalive_tick s w : Store * W :=
  let w := emit_keepalive s w in
  ((check_hold None s).2, w).
End replication.
