(* ===== verification/AntiEntropy.v ===== *)
(** What one anti-entropy round between two nodes achieves: [reconcile] run
    against a peer that answers with its own handlers brings both overlays to
    the newest version either side had of every third-party record. *)
From S2P Require Import Prelude F64 RustMap RustStr Json Common Lww Merkle Handshake ClusterState ClusterStore ClusterStoreFacts ClusterLocal ClusterInvariant ClusterServe Replication.

(** * Handlers that only read *)

Section quiet.
Context `{!StateFile, !ClusterEnv, !Digest, !HashIter}.
Implicit Types s : Store.

(** No id the node knows contains the digest's separator. *)
Definition key_clean (k : string) : Prop := contains_char SEP k = false.
Record clean s : Prop := {
  clean_me : key_clean (me s);
  clean_local : ∀ k, k ∈ akeys (local_versions (state s)) → key_clean k;
  clean_tombs : ∀ k, k ∈ akeys (tombstones (state s)) → key_clean k;
  clean_foreign : ∀ k, k ∈ akeys (foreign s) → sep_free k;
  clean_backend : ∀ reg r, registry = Some reg → r ∈ present_records reg →
    key_clean (make_key r.1 r.2)
}.

(** A step that leaves the overlay, the cooldowns and what sessions may see
    as they are. *)
Record quiet s s' : Prop := {
  quiet_foreign : foreign s' = foreign s;
  quiet_me : me s' = me s;
  quiet_evicted : evicted_until s' = evicted_until s;
  quiet_sessions : ∀ n, peer_namespaces <$> aget n (sessions s') =
                        peer_namespaces <$> aget n (sessions s);
  quiet_inv : store_inv s → store_inv s';
  quiet_clean : clean s → clean s';
  quiet_tombs : tomb_keys_wf s → tomb_keys_wf s'
}.

#[export] Instance quiet_preorder : PreOrder quiet.
Proof.
  split.
  - intros s. by split.
  - intros s1 s2 s3 [] []. split; try congruence; auto; intros n; congruence.
Qed.

Lemma clean_frame s s' :
  state s' = state s → foreign s' = foreign s → clean s → clean s'.
Proof. intros Hs Hf []. split; unfold me in *; rewrite ?Hs, ?Hf; done. Qed.

Lemma touch_quiet n s : quiet s (touch_peer n s).
Proof.
  pose proof (touch_peer_frame n s) as (Hst & Hfo & Hev & _). split; [done|unfold me; by rewrite Hst|done| | | |].
  - intros m. apply session_namespaces_touch.
  - apply touch_peer_inv.
  - by apply clean_frame.
  - unfold tomb_keys_wf. by rewrite Hst.
Qed.

Lemma ensure_version_clean c s r :
  key_clean (make_key r.1 r.2) → clean s → clean (ensure_version (c, s) r).2.
Proof.
  intros Hr []. unfold ensure_version. destruct (_ && _); simpl; [|done].
  split; simpl; try done. intros k [->|Hk]%elem_of_keys_bm_insert; [done|by apply clean_local0].
Qed.

Lemma ensure_quiet s : quiet s (ensure_local_versions s).
Proof.
  pose proof (ensure_frame s) as (Hto & Hfo & Hse & Hme & Hev).
  split; [done..| | | |]; [by rewrite Hse|by apply ensure_local_versions_inv| |
    unfold tomb_keys_wf; by rewrite Hto].
  intros Hc. unfold ensure_local_versions. destruct registry as [reg|] eqn:E; [|done].
  assert (Hf : ∀ l c s, (∀ r, r ∈ l → r ∈ present_records reg) → clean s →
    clean (foldl ensure_version (c, s) l).2).
  { intros l. induction l as [|r l IH]; intros c s0 Hl Hc0; [done|]. cbn [foldl].
    pose proof (ensure_version_clean c s0 r) as Hs0.
    destruct (ensure_version (c, s0) r) as [c' s']. apply IH; [set_solver|].
    apply Hs0; [|done]. apply (clean_backend _ Hc reg); [done|]. apply Hl. set_solver. }
  specialize (Hf (present_records reg) false s ltac:(done) Hc).
  destruct (foldl _ _ _) as [c s']. destruct c; [|done].
  pose proof (save_state_spec s') as Hsv. unfold save_logged.
  destruct (save_state s') as [r s'']. destruct Hsv as (? & ? & _). by apply (clean_frame s').
Qed.

Lemma key_clean_parts ds sid :
  key_clean (make_key ds sid) → contains_char SEP ds = false ∧ contains_char SEP sid = false.
Proof.
  unfold key_clean, make_key. rewrite contains_char_app. cbn [contains_char].
  intros [? Hs]%orb_false_iff. by apply orb_false_iff in Hs as [_ ?].
Qed.

(** Third-party rows of the index are the overlay's; every key is clean. *)
Lemma full_index_third ns s :
  store_inv s →
  let '(idx, s') := full_index ns s in
  quiet s s' ∧
  (∀ k, k_origin k ≠ me s →
     idx !! k = if in_scope ns (k_dataset k) then env_version <$> aget k (foreign s) else None) ∧
  (clean s → tomb_keys_wf s → ∀ k v, idx !! k = Some v → sep_free k).
Proof.
  intros Hinv. pose proof (full_index_spec ns s Hinv) as Hidx.
  destruct (full_index ns s) as [idx s']. destruct Hidx as (-> & Hth & Hloc).
  split; [apply ensure_quiet|]. split; [done|]. intros Hc Htk k v Hk.
  destruct (decide (k_origin k = me s)) as [Ho|Ho].
  - pose proof (quiet_clean _ _ (ensure_quiet s) Hc) as Hc'.
    pose proof (ensure_frame s) as (Htomb & _).
    apply Hloc in Hk as (_ & _ & Hrow); [|done].
    assert (Hkey : key_clean (make_key (k_dataset k) (k_service k))).
    { destruct Hrow as [(kt & t & Hin & Hsp & _)|Hl].
      - assert (Hkt : kt ∈ akeys (tombstones (state (ensure_local_versions s)))).
        { apply list_elem_of_fmap. by exists (kt, t). }
        replace (make_key _ _) with kt; [by apply (clean_tombs _ Hc')|].
        rewrite <-(make_split_key kt), Hsp; [done|]. apply Htk. by rewrite <-Htomb.
      - apply (clean_local _ Hc'). destruct (decide (make_key (k_dataset k) (k_service k)
          ∈ akeys (local_versions (state (ensure_local_versions s))))) as [|Hn]; [done|].
        apply aget_None_keys in Hn. congruence. }
    apply key_clean_parts in Hkey as [Hd Hs].
    split; [done|]. split; [|done]. rewrite Ho. apply (clean_me _ Hc).
  - rewrite Hth in Hk by done. destruct (in_scope _ _); [|done].
    destruct (aget k (foreign s)) as [e|] eqn:E; [|done].
    apply (clean_foreign _ Hc). destruct (decide (k ∈ akeys (foreign s))) as [|Hn]; [done|].
    apply aget_None_keys in Hn. congruence.
Qed.
End quiet.

(** * The remote side of a round *)

Section remote.
Context `{!StateFile, !ClusterEnv, !Digest, !HashIter}.
Implicit Types s : Store.

(** What a third-party key shows in a filtered index. *)
Definition shown (ds : list string) s (k : Key) : option Version :=
  if decide (k_dataset k ∈ ds) then env_version <$> aget k (foreign s) else None.

Lemma shown_quiet ds s s' k : quiet s s' → shown ds s' k = shown ds s k.
Proof. intros []. unfold shown. by rewrite quiet_foreign0. Qed.

Lemma allowed_quiet from ns tok s s' :
  auth_enabled auth = false → quiet s s' → allowed_for from ns tok s' = allowed_for from ns tok s.
Proof. intros Ha []. unfold allowed_for, is_authed. by rewrite Ha, quiet_sessions0. Qed.

Lemma serve_merkle_third from ns tok s :
  store_inv s → clean s → tomb_keys_wf s →
  let '(h, s') := serve_merkle from (Some ns) tok s in
  quiet s s' ∧ ∃ idx : Index, h = bucket_hashes idx (merkle_buckets config) ∧
    (∀ k, k_origin k ≠ me s → idx !! k = shown (allowed_for from (Some ns) tok s) s k) ∧
    (∀ k v, idx !! k = Some v → sep_free k).
Proof.
  intros Hinv Hc Htk. unfold serve_merkle. cbn zeta. rewrite allowed_for_touch.
  set (al := allowed_for from (Some ns) tok s).
  pose proof (touch_quiet from s) as Hq. set (s1 := touch_peer from s) in *.
  pose proof (full_index_third (Some al) s1 (quiet_inv _ _ Hq Hinv)) as Hidx.
  destruct (full_index (Some al) s1) as [idx s2]. destruct Hidx as (Hq2 & Hth & Hcl).
  split; [by trans s1|]. eexists. split; [done|]. split.
  - intros k Hk. rewrite <-(shown_quiet al s s1 k Hq). unfold shown.
    destruct (decide (k_dataset k ∈ al)) as [Hin|Hin].
    + rewrite map_lookup_filter, Hth by (by rewrite (quiet_me _ _ Hq)).
      rewrite in_scope_elem by done.
      destruct (aget k (foreign s1)); simpl; [|done]. by rewrite option_guard_True.
    + rewrite map_lookup_filter. destruct (idx !! k); simpl; [|done].
      by rewrite option_guard_False.
  - intros k v. rewrite map_lookup_filter_Some. intros [Hk _].
    eapply Hcl; [by apply (quiet_clean _ _ Hq)|by apply (quiet_tombs _ _ Hq)|exact Hk].
Qed.

Lemma serve_digest_third from ns tok d s :
  store_inv s →
  let '(rows, s') := serve_digest from (Some ns) tok (Some d) s in
  quiet s s' ∧ NoDup rows.*1 ∧
  (∀ k, k_origin k ≠ me s →
     aget k rows = if decide (bucket_of k (merkle_buckets config) ∈ d)
                   then shown (allowed_for from (Some ns) tok s) s k else None).
Proof.
  intros Hinv. unfold serve_digest. cbn zeta. rewrite allowed_for_touch.
  set (al := allowed_for from (Some ns) tok s).
  pose proof (touch_quiet from s) as Hq. set (s1 := touch_peer from s) in *.
  pose proof (full_index_third (Some al) s1 (quiet_inv _ _ Hq Hinv)) as Hidx.
  destruct (full_index (Some al) s1) as [idx s2]. destruct Hidx as (Hq2 & Hth & _).
  assert (Hnd : NoDup (akeys (sort (filter (λ kv, in_buckets (Some d) kv.1 = true)
    (filter (λ kv, k_dataset kv.1 ∈ al) (hm_iter idx)))))).
  { unfold akeys. rewrite sort_Permutation. do 2 apply NoDup_keys_filter. apply NoDup_fst_hm_iter. }
  split; [by trans s1|]. split; [exact Hnd|]. intros k Hk.
  assert (Hrow : ∀ v, aget k (sort (filter (λ kv, in_buckets (Some d) kv.1 = true)
    (filter (λ kv, k_dataset kv.1 ∈ al) (hm_iter idx)))) = Some v ↔
    (if decide (bucket_of k (merkle_buckets config) ∈ d) then shown al s k else None) = Some v).
  { intros v. rewrite aget_elem_iff by exact Hnd.
    rewrite elem_of_sort, !list_elem_of_filter, elem_of_hm_iter. cbn [fst in_buckets].
    rewrite bool_decide_eq_true, Hth by (by rewrite (quiet_me _ _ Hq)).
    rewrite <-(shown_quiet al s s1 k Hq). unfold shown.
    destruct (decide (bucket_of k (merkle_buckets config) ∈ d)); [|naive_solver].
    destruct (decide (k_dataset k ∈ al)) as [Hin|]; [|naive_solver].
    rewrite in_scope_elem by done. naive_solver. }
  apply option_eq, Hrow.
Qed.

Lemma build_envelope_key k s e : store_inv s → build_envelope_for_key k s = Some e → env_key e = k.
Proof.
  intros Hinv. unfold build_envelope_for_key. case_decide as Ho; intros Hb.
  - destruct k as [[d o] i]. unfold k_dataset, k_origin, k_service in *. simpl in *.
    unfold build_local_envelope in Hb.
    destruct (aget _ (tombstones _)); [by simplify_eq/=|].
    destruct (aget _ (local_versions _)); [|done]. simpl in Hb.
    destruct registry as [reg|]; [|done]. simpl in Hb.
    destruct (get_entry reg d i); [|done]. by simplify_eq/=.
  - apply aget_Some_elem in Hb. by apply (inv_foreign_key _ Hinv).
Qed.

(** Candidates for a third-party key among the envelopes built for a list of
    keys: the stored replica, if the key is listed. *)
Lemma built_candidates (keys : list Key) s k e :
  store_inv s → k_origin k ≠ me s →
  e ∈ omap (λ k, build_envelope_for_key k s) keys → env_key e = k →
  k ∈ keys ∧ aget k (foreign s) = Some e.
Proof.
  intros Hinv Ho He Hk. apply list_elem_of_omap in He as (k' & Hin & Hb).
  pose proof (build_envelope_key _ _ _ Hinv Hb) as Hk'. rewrite Hk in Hk'. subst k'.
  split; [done|]. unfold build_envelope_for_key in Hb. by rewrite decide_False in Hb.
Qed.

Lemma built_present (keys : list Key) s k e :
  k_origin k ≠ me s → k ∈ keys → aget k (foreign s) = Some e →
  e ∈ omap (λ k, build_envelope_for_key k s) keys.
Proof.
  intros Ho Hin He. apply list_elem_of_omap. exists k. split; [done|].
  unfold build_envelope_for_key. by rewrite decide_False.
Qed.

(** Merging the envelopes built elsewhere for [keys] moves a third-party key
    to the candidate iff it is listed and newer. *)
Lemma lww_built (keys : list Key) s k cur (P : SyncEnvelope → Prop) `{!∀ e, Decision (P e)} :
  store_inv s → k_origin k ≠ me s → (∀ e, env_key e = k → P e) →
  lww k cur (filter P (omap (λ k, build_envelope_for_key k s) keys)) =
    match aget k (foreign s) with
    | Some e => if decide (k ∈ keys) then
                  if version_newer (env_version e) (env_version <$> cur) then Some e else cur
                else cur
    | None => cur
    end.
Proof.
  intros Hinv Ho HP.
  assert (Hcand : ∀ e, e ∈ filter P (omap (λ k, build_envelope_for_key k s) keys) → env_key e = k →
    k ∈ keys ∧ aget k (foreign s) = Some e).
  { intros e [_ He]%list_elem_of_filter. by apply built_candidates. }
  destruct (aget k (foreign s)) as [e|] eqn:E.
  - assert (Hek : env_key e = k) by (by apply (inv_foreign_key _ Hinv), aget_Some_elem).
    destruct (decide (k ∈ keys)) as [Hin|Hn].
    + etrans; [apply (lww_only k cur _ e)|done]; [|apply list_elem_of_filter; split; [by apply HP|by apply built_present with k]|done].
      intros e' He' Hk'. destruct (Hcand e' He' Hk') as [_ Heq]. by simplify_eq.
    + apply lww_absent. intros e' He' Hk'. by destruct (Hcand e' He' Hk').
  - apply lww_absent. intros e' He' Hk'. by destruct (Hcand e' He' Hk').
Qed.

(** Applying pulled envelopes with no cooldown running. *)
Lemma apply_pulled_fold l n s :
  evicted_until s = ∅ →
  let s' := (foldl apply_pulled (n, s) l).2 in
  state s' = state s ∧ evicted_until s' = ∅ ∧
  ∀ k, aget k (foreign s') = lww k (aget k (foreign s)) (filter (λ e, env_origin_id e ≠ me s) l).
Proof.
  revert n s. induction l as [|e l IH]; intros n s Hev; [done|]. cbn [foldl].
  unfold apply_pulled at 2 4 6.
  pose proof (apply_inbound_frame e s) as (Hst & _ & Hev1 & _).
  pose proof (λ k, apply_inbound_lookup e s k) as Hlk.
  destruct (apply_inbound e s) as [stored s1]. cbn [snd] in *. rewrite Hev in Hev1.
  destruct (IH (if stored then S n else n) s1 Hev1) as (-> & -> & Hl).
  split; [done|]. split; [done|]. intros k. rewrite Hl, Hlk, filter_cons.
  unfold admits, suppressed, me. rewrite Hev, Hst, lookup_empty. simpl. rewrite andb_true_r.
  destruct (decide (env_origin_id e ≠ node_id (state s))) as [Hne|He]; simpl.
  - by rewrite bool_decide_false.
  - rewrite bool_decide_true; [done|]. by destruct (decide (env_origin_id e = node_id (state s))).
Qed.
End remote.

(** * One round between two nodes *)

Section round.
Context `{!StateFile, !Digest} (env1 env2 : ClusterEnv) (o1 o2 : HashIter).
#[local] Existing Instance env1 | 0.
#[local] Existing Instance o1 | 0.

Lemma index_of_rows_lookup (rows : list DigestRow) k :
  NoDup rows.*1 → index_of_rows rows !! k = aget k rows.
Proof.
  unfold index_of_rows. intros Hnd.
  assert (Hgen : ∀ idx : Index, foldl (λ (idx : Index) row, <[row.1:=row.2]> idx) idx rows !! k =
    match aget k rows with Some v => Some v | None => idx !! k end).
  { induction rows as [|[k' v] rows IH]; intros idx; [done|]. simpl in *.
    apply NoDup_cons in Hnd as [Hn Hnd]. rewrite IH by done.
    destruct (decide (k = k')) as [->|].
    - apply aget_None_keys in Hn. rewrite Hn. by rewrite lookup_insert_eq.
    - by rewrite lookup_insert_ne. }
  rewrite Hgen, lookup_empty. by destruct (aget k rows).
Qed.

(** Both stores as the round needs them, seen from the initiator. *)
Record round_ready (peer : Peer) (s w : Store) : Prop := {
  rr_inv1 : store_inv s;
  rr_inv2 : store_inv w;
  rr_open1 : auth_enabled (@auth _ env1) = false;
  rr_open2 : auth_enabled (@auth _ env2) = false;
  rr_cool1 : evicted_until s = ∅;
  rr_cool2 : evicted_until w = ∅;
  rr_clean1 : @clean _ env1 s;
  rr_clean2 : @clean _ env2 w;
  rr_tombs1 : tomb_keys_wf s;
  rr_tombs2 : tomb_keys_wf w;
  rr_buckets : merkle_buckets (@config _ env1) = merkle_buckets (@config _ env2);
  rr_u32 : (merkle_buckets (@config _ env1) ≤ u32_max)%Z
}.

(** A key of a third node in a namespace both sides sync. *)
Definition third_party (peer : Peer) (s w : Store) (k : Key) : Prop :=
  k_origin k ≠ me s ∧ k_origin k ≠ me w ∧ k_dataset k ∈ peer_namespaces peer ∧
  ∃ p, aget (me s) (sessions w) = Some p ∧ k_dataset k ∈ peer_namespaces p.

Lemma third_party_allowed peer s w k tok :
  auth_enabled (@auth _ env2) = false → third_party peer s w k →
  k_dataset k ∈ @allowed_for _ env2 (me s) (Some (peer_namespaces peer)) tok w ∧
  k_dataset k ∈ @allowed_for _ env2 (me s) None tok w.
Proof.
  intros Ha (_ & _ & Hns & p & Hp & Hin). unfold allowed_for, is_authed. rewrite Ha, Hp. simpl.
  split; [|done]. destruct (peer_namespaces peer) as [|a l]; [done|].
  apply list_elem_of_filter. split; [|done]. by apply bool_decide_eq_true.
Qed.

Definition stored (k : Key) (s : Store) : option Version := env_version <$> aget k (foreign s).

Lemma round_ready_quiet peer s s' w w' :
  @quiet _ env1 s s' → @quiet _ env2 w w' → round_ready peer s w → round_ready peer s' w'.
Proof. intros [] [] []. split; try congruence; auto. Qed.

Lemma third_party_quiet peer s s' w w' k :
  @quiet _ env1 s s' → @quiet _ env2 w w' → third_party peer s' w' k ↔ third_party peer s w k.
Proof.
  intros Hq1 Hq2. unfold third_party. rewrite (quiet_me _ _ Hq1), (quiet_me _ _ Hq2).
  pose proof (quiet_sessions _ _ Hq2 (me s)) as Hse.
  assert (Hex : ∀ d, (∃ p, aget (me s) (sessions w') = Some p ∧ d ∈ peer_namespaces p) ↔
                     (∃ p, aget (me s) (sessions w) = Some p ∧ d ∈ peer_namespaces p)).
  { intros d. split; intros (p & Hp & Hd); rewrite Hp in Hse; simpl in Hse.
    - destruct (aget (me s) (sessions w)) as [q|]; [|done]. exists q. split; [done|].
      injection Hse as Hse. by rewrite <-Hse.
    - destruct (aget (me s) (sessions w')) as [q|]; [|done]. exists q. split; [done|].
      injection Hse as Hse. by rewrite Hse. }
  by rewrite Hex.
Qed.

(** The newer of two versions. *)
Definition newest (a b : option Version) : option Version :=
  match b with Some v => if version_newer v a then b else a | None => a end.

(** The pull half brings in what the peer has newer, and nothing changes at
    the peer that a third-party key can see. *)
Lemma pull_newer_third (peer : Peer) (remote local_sub : Index) (s w : Store) (k : Key) :
  round_ready peer s w → third_party peer s w k →
  (remote !! k = None ∨ remote !! k = stored k w) → (remote !! k = None ∨ local_sub !! k = stored k s) →
  let '(r, s', w') := @pull_newer _ env1 o1 _ (peer_transport env2 o2) peer remote local_sub s w in
  is_ok r ∧ state s' = state s ∧ @quiet _ env2 w w' ∧
  stored k s' = newest (stored k s) (remote !! k) ∧
  (remote !! k = None → aget k (foreign s') = aget k (foreign s)).
Proof.
  intros Hr Hth Hrem Hloc. unfold pull_newer.
  set (to_pull := (filter _ (hm_iter remote)).*1).
  assert (Hpull : k ∈ to_pull ↔ ∃ v, remote !! k = Some v ∧ version_newer v (local_sub !! k) = true).
  { unfold to_pull. rewrite list_elem_of_fmap. setoid_rewrite list_elem_of_filter. split.
    - intros ([k' v] & -> & Hn & Hin). apply elem_of_hm_iter in Hin. eauto.
    - intros (v & Hv & Hn). exists (k, v). split; [done|]. split; [done|]. by apply elem_of_hm_iter. }
  assert (Hnone : to_pull = [] → stored k s = newest (stored k s) (remote !! k)).
  { intros Hnil. rewrite Hnil in Hpull. unfold newest. destruct (remote !! k) as [v|] eqn:E; [|done].
    destruct Hloc as [?|Hloc]; [done|]. rewrite <-Hloc.
    destruct (version_newer v (local_sub !! k)) eqn:Hn; [|done].
    exfalso. apply (not_elem_of_nil k), Hpull. eauto. }
  destruct to_pull as [|k0 to_pull'] eqn:Etp; [by split_and!; auto|]. rewrite <-Etp in *.
  clear Etp Hnone. cbn [t_pull peer_transport].
  unfold serve_pull. cbn zeta. cbn [fst snd].
  pose proof (@touch_quiet _ env2 (me s) w) as Hq. set (w1 := touch_peer (me s) w) in *.
  set (keys := filter _ _).
  pose proof (apply_pulled_fold (omap (λ k, @build_envelope_for_key _ env2 k w1) keys) 0 s
    (rr_cool1 _ _ _ Hr)) as Hf.
  destruct (foldl apply_pulled _ _) as [n s']. cbn [snd] in Hf. destruct Hf as (Hst & _ & Hl).
  assert (Hk1 : k_origin k ≠ me w1) by (rewrite (quiet_me _ _ Hq); apply Hth).
  specialize (Hl k). rewrite (lww_built (H0 := env2) keys w1 k) in Hl;
    [|exact (quiet_inv _ _ Hq (rr_inv2 _ _ _ Hr))|done|].
  2: { intros e <-. by destruct Hth as (? & _). }
  rewrite (quiet_foreign _ _ Hq) in Hl.
  assert (Hkeys : k ∈ keys ↔ k ∈ to_pull).
  { unfold keys. rewrite list_elem_of_filter. split; [by intros []|]. intros ?. split; [|done].
    unfold w1. rewrite allowed_for_touch.
    by apply (third_party_allowed peer s w k (peer_token peer) (rr_open2 _ _ _ Hr) Hth). }
  split_and!; [done|done|done|..].
  - unfold stored in *. rewrite Hl. unfold newest.
    destruct (remote !! k) as [v|] eqn:Erem.
    + destruct Hrem as [?|Hrem]; [done|]. destruct (aget k (foreign w)) as [e|]; [|done].
      simpl in Hrem. injection Hrem as ->. destruct Hloc as [?|Hloc]; [done|].
      rewrite <-Hloc in *. destruct (version_newer (env_version e) (local_sub !! k)) eqn:Hn.
      * by rewrite decide_True by (apply Hkeys, Hpull; eauto).
      * rewrite decide_False; [by rewrite Hloc|]. intros Hin%Hkeys%Hpull.
        destruct Hin as (v & [= <-] & ?). congruence.
    + destruct (aget k (foreign w)); [|done]. rewrite decide_False; [done|].
      by intros (v & ? & _)%Hkeys%Hpull.
  - intros Hno. rewrite Hl. destruct (aget k (foreign w)); [|done]. rewrite decide_False; [done|].
    intros (v & ? & _)%Hkeys%Hpull. congruence.
Qed.

Lemma apply_pulled_inv l n s : store_inv s → store_inv (foldl apply_pulled (n, s) l).2.
Proof.
  revert n s. induction l as [|e l IH]; intros n s Hinv; [done|]. cbn [foldl].
  unfold apply_pulled at 2. pose proof (apply_inbound_inv env1 e s Hinv) as Hs.
  destruct (apply_inbound e s) as [stored s1]. by apply IH.
Qed.

Lemma pull_newer_ok (peer : Peer) (remote local_sub : Index) (s w : Store) :
  store_inv s →
  let '(r, s', w') := @pull_newer _ env1 o1 _ (peer_transport env2 o2) peer remote local_sub s w in
  is_ok r ∧ store_inv s' ∧ @quiet _ env2 w w' ∧ (evicted_until s = ∅ → me s' = me s).
Proof.
  intros Hinv. unfold pull_newer. destruct (filter _ (hm_iter remote)).*1 as [|k0 ks]; [done|].
  cbn [t_pull peer_transport]. unfold serve_pull. cbn zeta. cbn [fst snd].
  set (l := omap _ _).
  pose proof (apply_pulled_inv l 0 s Hinv) as Hi. pose proof (apply_pulled_fold l 0 s) as Hf.
  destruct (foldl apply_pulled _ _) as [n s']. split_and!; [done|done|apply touch_quiet|].
  intros Hev. destruct (Hf Hev) as (Hst & _). cbn [snd] in Hst. unfold me. by rewrite Hst.
Qed.

Lemma push_newer_ok (peer : Peer) (remote local_sub : Index) (s w : Store) :
  is_ok (@push_newer _ env1 o1 _ (peer_transport env2 o2) peer remote local_sub s w).1.
Proof.
  unfold push_newer. destruct (omap _ _) as [|e es]; [done|].
  cbn [t_updates peer_transport]. by destruct (serve_updates _ _ _ w).
Qed.

(** The push half takes to the peer what we have newer. *)
Lemma push_newer_third (peer : Peer) (remote local_sub : Index) (s w : Store) (k : Key) :
  store_inv s → auth_enabled (@auth _ env2) = false → evicted_until w = ∅ →
  third_party peer s w k →
  (∀ v, local_sub !! k = Some v → version_newer v (remote !! k) = true → stored k s = Some v) →
  (local_sub !! k = None ∨ remote !! k = stored k w) →
  let '(r, w') := @push_newer _ env1 o1 _ (peer_transport env2 o2) peer remote local_sub s w in
  is_ok r ∧ stored k w' = newest (stored k w) (local_sub !! k).
Proof.
  intros Hinv Hopen Hcool Hth Hloc Hrem. unfold push_newer.
  set (keys := (filter (λ kv : DigestRow, version_newer kv.2 (remote !! kv.1) = true)
                  (hm_iter local_sub)).*1).
  assert (Henvs : omap (λ kv : DigestRow, build_envelope_for_key kv.1 s)
    (filter (λ kv : DigestRow, version_newer kv.2 (remote !! kv.1) = true) (hm_iter local_sub)) =
    omap (λ k, build_envelope_for_key k s) keys).
  { unfold keys. generalize (filter (λ kv : DigestRow, version_newer kv.2 (remote !! kv.1) = true)
      (hm_iter local_sub)). intros l. induction l as [|kv l IH]; [done|].
    cbn. destruct (build_envelope_for_key kv.1 s); [f_equal|]; exact IH. }
  rewrite Henvs. clear Henvs.
  assert (Hkeys : k ∈ keys ↔ ∃ v, local_sub !! k = Some v ∧ version_newer v (remote !! k) = true).
  { unfold keys. rewrite list_elem_of_fmap. setoid_rewrite list_elem_of_filter. split.
    - intros ([k' v] & -> & Hn & Hin). apply elem_of_hm_iter in Hin. eauto.
    - intros (v & Hv & Hn). exists (k, v). split; [done|]. split; [done|]. by apply elem_of_hm_iter. }
  assert (Hmerge : env_version <$> lww k (aget k (foreign w))
      (filter (λ e, @batch_admits _ env2 (me s) (peer_token peer) w e = true)
        (omap (λ k, build_envelope_for_key k s) keys)) = newest (stored k w) (local_sub !! k)).
  { rewrite (lww_built keys s k); [|done|apply Hth|].
    2: { intros e <-. unfold batch_admits, may_accept. rewrite Hopen. simpl.
         rewrite bool_decide_false; [done|]. apply Hth. }
    unfold newest, stored in *. destruct (local_sub !! k) as [v|] eqn:E.
    - destruct Hrem as [?|Hrem]; [done|]. rewrite <-Hrem in *.
      destruct (version_newer v (remote !! k)) eqn:Hn.
      + specialize (Hloc v eq_refl Hn). destruct (aget k (foreign s)) as [e|]; [|done].
        simpl in Hloc. injection Hloc as <-. rewrite decide_True by (apply Hkeys; eauto).
        by rewrite Hn.
      + destruct (aget k (foreign s)); [|done]. rewrite decide_False; [done|].
        intros (v' & [= <-] & ?)%Hkeys. congruence.
    - destruct (aget k (foreign s)); [|done]. rewrite decide_False; [done|].
      intros (v & ? & _)%Hkeys. congruence. }
  destruct (omap _ keys) as [|e0 envs] eqn:Eenvs; [done|]. rewrite <-Eenvs in *. clear Eenvs.
  cbn [t_updates peer_transport]. unfold serve_updates.
  pose proof (touch_peer_frame (H0 := env2) (me s) w) as (_ & Hfo & Hev & _).
  pose proof (serve_update_fold (H0 := env2) (me s) (peer_token peer)
    (omap (λ k, build_envelope_for_key k s) keys) 0 0 (@touch_peer _ env2 (me s) w)) as Hf.
  destruct (foldl _ _ _) as [[a r] w']. destruct Hf as (_ & _ & _ & _ & _ & _ & Hl).
  split; [done|]. rewrite <-Hmerge. unfold stored.
  rewrite Hl by (intros e _; by rewrite Hev, Hcool, lookup_empty). rewrite Hfo. do 2 f_equal.
  apply list_filter_iff. intros e. unfold batch_admits.
  by rewrite may_accept_touch, (quiet_me _ _ (@touch_quiet _ env2 (me s) w)).
Qed.

Lemma newest_comm a b : newest a b = newest b a.
Proof.
  unfold newest. destruct a as [a|], b as [b|]; simpl; try done.
  rewrite !gtb_ltb. destruct (ltb a b) eqn:E1, (ltb b a) eqn:E2; try done.
  - by rewrite (ltb_asym _ _ E1) in E2.
  - by rewrite (ltb_total a b).
Qed.

Lemma newest_idemp a : newest a a = a.
Proof. destruct a as [a|]; [|done]. unfold newest. by rewrite version_newer_irrefl. Qed.
End round.


(** Both halves together: where the exchanged indexes show the two overlays,
    both sides end with the newer version; elsewhere nothing moves. *)
Lemma exchange_third `{!StateFile, !Digest} (env1 env2 : ClusterEnv) (o1 o2 : HashIter)
    (peer : Peer) (remote local_sub : Index) (s w : Store) :
  round_ready env1 env2 peer s w →
  let '(r, s', w1) := @pull_newer _ env1 o1 _ (peer_transport env2 o2) peer remote local_sub s w in
  let '(r', w') := @push_newer _ env1 o1 _ (peer_transport env2 o2) peer remote local_sub s' w1 in
  is_ok r ∧ is_ok r' ∧
  ∀ k (b : bool), third_party peer s w k →
    remote !! k = (if b then stored k w else None) →
    local_sub !! k = (if b then stored k s else None) →
    stored k s' = (if b then newest (stored k s) (stored k w) else stored k s) ∧
    stored k w' = (if b then newest (stored k w) (stored k s) else stored k w).
Proof.
  intros Hr. pose proof (pull_newer_ok env1 env2 o1 o2 peer remote local_sub s w (rr_inv1 _ _ _ _ _ Hr)) as Hok.
  assert (Hpull := λ k, pull_newer_third env1 env2 o1 o2 peer remote local_sub s w k Hr).
  destruct (@pull_newer _ env1 o1 _ _ peer remote local_sub s w) as [[r s'] w1].
  destruct Hok as (Hok & Hinv & Hq & Hme). specialize (Hme (rr_cool1 _ _ _ _ _ Hr)).
  pose proof (push_newer_ok env1 env2 o1 o2 peer remote local_sub s' w1) as Hok'.
  pose proof (round_ready_quiet _ _ _ _ _ _ _ (reflexivity s) Hq Hr) as Hr1.
  assert (Hpush := λ k, push_newer_third env1 env2 o1 o2 peer remote local_sub s' w1 k Hinv
    (rr_open2 _ _ _ _ _ Hr) (rr_cool2 _ _ _ _ _ Hr1)).
  destruct (@push_newer _ env1 o1 _ _ peer remote local_sub s' w1) as [r' w'].
  split; [done|]. split; [done|]. intros k b Hk Hrem Hsub.
  assert (Hk1 : third_party peer s' w1 k).
  { apply (third_party_quiet env1 env2 peer s s w w1 k (reflexivity s) Hq) in Hk.
    unfold third_party in *. by rewrite Hme. }
  assert (Hw1 : stored k w1 = stored k w) by (unfold stored; by rewrite (quiet_foreign _ _ Hq)).
  specialize (Hpull k Hk). specialize (Hpush k Hk1). rewrite Hw1, Hrem, Hsub in *.
  destruct b.
  - destruct Hpull as (_ & _ & _ & Hs & _); [by right..|]. split; [done|].
    apply Hpush; [|by right]. intros v Hv Hn. rewrite Hs. unfold newest. rewrite Hv.
    destruct (stored k w) as [c|]; [|done].
    destruct (version_newer c (Some v)) eqn:Hc; [|done].
    simpl in Hn, Hc. rewrite gtb_ltb in Hn, Hc. by rewrite (ltb_asym _ _ Hn) in Hc.
  - destruct Hpull as (_ & _ & _ & -> & _); [by left..|]. split; [done|].
    by apply Hpush; [|left].
Qed.

Lemma stored_quiet `{!StateFile} (env : ClusterEnv) s s' k :
  @quiet _ env s s' → stored k s' = stored k s.
Proof. intros Hq. unfold stored. by rewrite (quiet_foreign _ _ Hq). Qed.

(** What a round leaves of a key: the newer version on both sides. *)
Definition agreed `{!StateFile} (k : Key) (s w s' w' : Store) : Prop :=
  stored k s' = newest (stored k s) (stored k w) ∧ stored k w' = stored k s'.

(** Repairing the buckets that differ is enough: a key outside them is the
    same on both sides already, unless hashes collided. *)
Lemma repair_or_collision `{!StateFile, !Digest} (o1 o2 : HashIter) (T : Key → Prop)
    (s w : Store) (i1 i2 : Index) n k (s' w' : Store) :
  (n ≤ u32_max)%Z →
  (∀ k v, i1 !! k = Some v → sep_free k) → (∀ k v, i2 !! k = Some v → sep_free k) →
  (∀ k, T k → i1 !! k = stored k s) → (∀ k, T k → i2 !! k = stored k w) → T k →
  let d := differing_buckets (@bucket_hashes _ o1 i1 n) (@bucket_hashes _ o2 i2 n) in
  (bucket_of k n ∈ d → stored k s' = newest (stored k s) (stored k w) ∧
                       stored k w' = newest (stored k w) (stored k s)) →
  (bucket_of k n ∉ d → stored k s' = stored k s ∧ stored k w' = stored k w) →
  agreed k s w s' w' ∨ ∃ i1 i2 : Index, collision i1 i2 n ∧
    (∀ k', T k' → i1 !! k' = stored k' s ∧ i2 !! k' = stored k' w).
Proof.
  intros Hn Hc1 Hc2 Hi1 Hi2 Hk d Hin Hout. unfold agreed.
  destruct (decide (bucket_of k n ∈ d)) as [Hd|Hd].
  { left. destruct (Hin Hd) as [-> ->]. split; [done|]. apply newest_comm. }
  destruct (Hout Hd) as [-> ->]. destruct (decide (i1 !! k = i2 !! k)) as [Heq|Hne].
  - left. rewrite <-(Hi1 k Hk), <-(Hi2 k Hk), Heq. by rewrite newest_idemp.
  - destruct (differing_locates o1 o2 i1 i2 n k) as [?|?]; try done. right. exists i1, i2. auto.
Qed.

(** The rows of the reported buckets, as the initiator holds them. *)
Lemma remote_rows `{!StateFile, !Digest} (env2 : ClusterEnv) peer (s w w1 : Store)
    (rows : list DigestRow) k n (d : list Z) tok :
  @quiet _ env2 w w1 → auth_enabled (@auth _ env2) = false → third_party peer s w k →
  NoDup rows.*1 →
  (∀ k, k_origin k ≠ me w1 → aget k rows =
     if decide (bucket_of k n ∈ d)
     then shown (@allowed_for _ env2 (me s) (Some (peer_namespaces peer)) tok w1) w1 k else None) →
  index_of_rows rows !! k = if decide (bucket_of k n ∈ d) then stored k w else None.
Proof.
  intros Hq Ha Hk Hnd Hrows. rewrite index_of_rows_lookup by done.
  rewrite Hrows by (rewrite (quiet_me _ _ Hq); apply Hk).
  destruct (decide (bucket_of k n ∈ d)); [|done]. unfold shown.
  rewrite (allowed_quiet _ _ _ _ _ Ha Hq), (quiet_foreign _ _ Hq).
  by rewrite decide_True by (by apply third_party_allowed).
Qed.

Lemma local_rows `{!Digest} (i1 : Index) n (d : list Z) k o :
  i1 !! k = o →
  filter (λ kv : Key * Version, bucket_of kv.1 n ∈ d) i1 !! k =
  if decide (bucket_of k n ∈ d) then o else None.
Proof.
  intros Hi. rewrite map_lookup_filter, Hi. destruct o; simpl; [|by destruct (decide _)].
  destruct (decide (bucket_of k n ∈ d)); [by rewrite option_guard_True|by rewrite option_guard_False].
Qed.

(** * Theorems *)

