(* ===== verification/Membership.v ===== *)
(** The declarative membership control plane (a2x-cluster/src/membership.rs)
    and the anti-entropy tick that drives it (sweepers.rs).

    A node is its cluster store and its roster, one membership record per node
    id; the roster is an overlay of its own, merged by LWW like the records.
    serde's codec of membership records is the class [RecordCodec]; fresh
    cluster ids are readings of the environment. *)
From S2P Require Import Prelude F64 RustMap RustStr Json Common Lww Merkle Handshake ClusterState ClusterStore Replication ClusterInvariant.

(** [MembershipRecord::to_value] and [from_value]. *)
Class RecordCodec := {
  record_to_value : MembershipRecord → Value;
  record_of_value : Value → option MembershipRecord;
  record_value_roundtrip (r : MembershipRecord) : record_of_value (record_to_value r) = Some r;
  record_value_version (r : MembershipRecord) : is_Some (vget "version" (record_to_value r))
}.

(** A membership record is replicated under its node's id. *)
#[export] Instance member_replicated : Replicated MembershipRecord string :=
  {| lww_key := m_node_id; lww_version := m_version |}.

(** [RosterEntry], [ShowResponse], [MemberSpec]. *)
Record RosterEntry := mkRosterEntry { re_node_id : string; re_address : string; re_alive : bool }.
Record ShowResponse := mkShowResponse {
  sh_cluster_id : option string; sh_node_id : string; sh_roster : list RosterEntry
}.
Record MemberSpec := mkMemberSpec { ms_address : option string; ms_node_id : option string }.

Notation Roster := (list (string * MembershipRecord)).

(** A [ClusterStore] with its shared roster: what a [MembershipStore] handles. *)
Record Node `{!StateFile} := mkNode { nstore : Store; roster : Roster }.
Arguments mkNode {_}.

Section membership.
Context `{!StateFile, !ClusterEnv, !Digest, !HashIter, !RecordCodec} {W : Type} `{!Transport W}.
Context (fresh_cluster_id_at : nat → string).
Implicit Types (n : Node) (w : W).

Definition set_store (s : Store) n : Node := mkNode s (roster n).
Definition set_roster (r : Roster) n : Node := mkNode (nstore n) r.
Definition nme n : string := me (nstore n).

(** [cluster_id]. *)
Definition cluster_id_of n : option string := r ← aget (nme n) (roster n); m_cluster_id r.

(** [my_record]: created standalone on first access. *)
Definition my_record n : MembershipRecord * Node :=
  match aget (nme n) (roster n) with
  | Some own => (own, n)
  | None =>
      let '(v, s) := next_version (nstore n) in
      let own := mkMember (nme n) None advertise v false in
      (own, mkNode s (im_insert (nme n) own (roster n)))
  end.

(** [peer_token]. *)
Definition peer_token_of (node : string) n : option string :=
  p ← get_peer node (nstore n); peer_token p.

(** [persist]: the failure is logged. *)
Definition persist n : Node :=
  let own := aget (nme n) (roster n) in
  let cid := own ≫= m_cluster_id in
  let records := record_to_value <$>
    filter (λ r, m_node_id r ≠ nme n ∧ m_cluster_id r = cid) (avalues (roster n)) in
  set_store (persist_membership cid records (m_version <$> own) (nstore n)).2 n.

(** [gc_membership]: the count pruned. *)
Definition gc_membership (now_ms_override : option Z) n : nat * Node :=
  let '(now, s) := match now_ms_override with
                   | Some t => (t, nstore n) | None => now_ms (nstore n) end in
  let kept := aretain (λ _ r, negb (m_removed r &&
                (retention_ms <? i64_sub now (v_ms (m_version r)))%Z)) (roster n) in
  ((length (roster n) - length kept)%nat, mkNode s kept).

(** The loop body of [init_from_state]. *)
Definition restore_record (cid : string) (this : string) (r : Roster) (d : Value) : Roster :=
  let rec :=
    match vget "version" d with
    | Some _ => record_of_value d
    | None =>
        nid ← vget "node_id" d ≫= as_str;
        let addr := default "" (vget "address" d ≫= as_str) in
        Some (mkMember nid (Some cid) addr (mkVersion 0 nid) false)
    end in
  match rec with
  | Some rec =>
      if negb (bool_decide (m_node_id rec = this)) && negb (ahas (m_node_id rec) r)
      then im_insert (m_node_id rec) rec r else r
  | None => r
  end.

(** [init_from_state]. *)
Definition init_from_state n : Node :=
  let st := state (nstore n) in
  match cluster_id st with
  | None => n
  | Some cid =>
      let s := match my_membership_version st with
               | Some v => observe_version (v_ms v) (nstore n) | None => nstore n end in
      let '(ver, s) := match my_membership_version st with
                       | Some v => (v, s) | None => next_version s end in
      let r := im_insert (nme n) (mkMember (nme n) (Some cid) advertise ver false) (roster n) in
      let r := foldl (restore_record cid (nme n)) r (last_roster st) in
      (gc_membership None (mkNode s r)).2
  end.

(** [become_standalone]. *)
Definition become_standalone n : Node :=
  let members := filter (λ m, m ≠ nme n) (akeys (roster n)) in
  let n := set_roster [] n in
  let s := foldl (λ s m, (disconnect_peer m s).2) (nstore n) members in
  persist (set_store s n).

(** The loop body of [merge]: roster, [changed], [evicted_self]. *)
Definition merge_record (this : string) (acc : Roster * bool * bool) (d : Value)
    : Roster * bool * bool :=
  let '(r, changed, evicted_self) := acc in
  match record_of_value d with
  | None => acc
  | Some rec =>
      let cur := m_version <$> aget (m_node_id rec) r in
      if negb (version_newer (m_version rec) cur) then acc
      else if decide (m_node_id rec = this) then (r, changed, evicted_self || m_removed rec)
      else (im_insert (m_node_id rec) rec r, true, evicted_self)
  end.

(** [merge]. *)
Definition merge (records : list Value) n : bool * Node :=
  let '(r, changed, evicted_self) := foldl (merge_record (nme n)) (roster n, false, false) records in
  let n := set_roster r n in
  if evicted_self : bool then (true, become_standalone n)
  else (changed, if changed : bool then persist n else n).

(** [version_map]. *)
Definition version_map n : list (string * Version) :=
  foldl (λ m kr, bm_insert kr.1 (m_version kr.2) m) [] (roster n).

(** [records_for]. *)
Definition records_for (node_ids : list string) n : list MembershipRecord :=
  omap (λ i, aget i (roster n)) node_ids.

(** [reconcile_with]. *)
Definition reconcile_with (peer : Peer) n w : Node * W :=
  match cluster_id_of n with
  | None => (n, w)
  | Some _ =>
      let '(r, w) := t_set_digest (peer_address peer) (nme n) (peer_token peer) w in
      match r with
      | Err _ => (n, w)
      | Ok remote =>
          let mine := version_map n in
          match (filter (λ kv, version_newer kv.2 (aget kv.1 mine) = true) remote).*1 with
          | [] => (n, w)
          | want =>
              let '(r, w) := t_set_pull (peer_address peer) (nme n) want (peer_token peer) w in
              match r with
              | Err _ => (n, w)
              | Ok recs => ((merge recs n).2, w)
              end
          end
      end
  end.

(** [serve_set_digest], [serve_set_pull], [serve_set_sync]. *)
Definition serve_set_digest (from_node : string) (token : option string) n
    : list (string * Version) :=
  if negb (is_authed from_node token (nstore n)) then [] else version_map n.
Definition serve_set_pull (from_node : string) (node_ids : list string) (token : option string) n
    : list MembershipRecord :=
  if negb (is_authed from_node token (nstore n)) then [] else records_for node_ids n.
Definition serve_set_sync (from_node : string) (records : list Value) (token : option string) n
    : bool * Node :=
  if negb (is_authed from_node token (nstore n)) then (false, n)
  else (true, (merge records n).2).

(** [push_to_roster]. *)
Definition push_to_roster (records : option (list MembershipRecord)) n w : Node * W :=
  let '(records, n) := match records with
                       | Some l => (l, n)
                       | None => let '(own, n) := my_record n in ([own], n)
                       end in
  let cid := cluster_id_of n in
  let targets := filter (λ r, m_node_id r ≠ nme n ∧ m_removed r = false ∧ m_cluster_id r = cid ∧
                              m_address r ≠ "") (avalues (roster n)) in
  (n, fan_out ((λ r w, (t_set_sync (m_address r) (nme n) records
                          (peer_token_of (m_node_id r) n) w).2) <$> targets) w).

(** [desired_peers]. *)
Definition desired_peers n : list (string * string) :=
  match cluster_id_of n with
  | None => []
  | Some cid =>
      foldl (λ m r, bm_insert (m_node_id r) (m_address r) m) []
        (filter (λ r, m_node_id r ≠ nme n ∧ m_cluster_id r = Some cid ∧ m_removed r = false ∧
                      m_address r ≠ "") (avalues (roster n)))
  end.

(** [is_removed_or_absent]. *)
Definition is_removed_or_absent (node : string) n : bool :=
  match aget node (roster n) with
  | None => true
  | Some r => m_removed r || negb (bool_decide (m_cluster_id r = cluster_id_of n))
  end.

(** The loops of [reconcile_connections]. *)
Definition connect_missing (actual : list string) (nw : Node * W) (d : string * string) : Node * W :=
  if bool_decide (d.1 ∈ actual) then nw
  else let '(_, s, w) := connect_peer d.2 None None (nstore nw.1) nw.2 in (set_store s nw.1, w).
Definition disconnect_unwanted (desired : list (string * string)) n (nid : string) : Node :=
  if negb (ahas nid desired) && is_removed_or_absent nid n
  then set_store (disconnect_peer nid (nstore n)).2 n else n.

(** [reconcile_connections]. *)
Definition reconcile_connections n w : Node * W :=
  match cluster_id_of n with
  | None => (n, w)
  | Some _ =>
      let desired := desired_peers n in
      let actual := remove_dups (peer_node_id <$> list_peers (nstore n)) in
      let '(n, w) := foldl (connect_missing actual) (n, w) desired in
      (foldl (disconnect_unwanted desired) n (hash_order actual), w)
  end.

(** [set_add]: one member of the request. *)
Definition add_result (addr : Value) (ok : bool) (rest : JsonDict) : Value :=
  JObject ([("address", addr); ("ok", JBool ok)] ++ rest).
Definition add_member (cid : option string) (snapshot : list Value) (token : option string)
    (acc : list Value * Node * W) (m : MemberSpec) : list Value * Node * W :=
  let '(results, n, w) := acc in
  match ms_address m with
  | None | Some "" =>
      (results ++ [add_result (match ms_address m with Some a => JString a | None => JNull end) false
                     [("error", JString "address required")]], n, w)
  | Some addr =>
      let body := mkJoinRequest cid snapshot token (nme n) advertise in
      let '(r, w) := t_join addr body w in
      match r with
      | Err err =>
          (results ++ [add_result (JString addr) false
                         [("error", JString ("unreachable: " +:+ err))]], n, w)
      | Ok resp =>
          if negb (jp_accepted resp) then
            (results ++ [add_result (JString addr) false
                           [("error", JString (default "rejected" (jp_error resp)))]], n, w)
          else
            let nid := default "" (jp_node_id resp) in
            let '(ver, s) := match jp_version resp with
                             | Some v => (v, nstore n) | None => next_version (nstore n) end in
            let r := im_insert nid (mkMember nid cid addr ver false) (roster n) in
            (results ++ [JObject [("address", JString addr); ("node_id", JString nid); ("ok", JBool true)]],
             mkNode s r, w)
      end
  end.

(** The first block of [set_add]: mint a cluster id when there is none. *)
Definition ensure_cluster n : Node :=
  match cluster_id_of n with
  | Some _ => n
  | None =>
      let cid := fresh_cluster_id_at (ticks (nstore n)) in
      let '(v, s) := next_version (tick (nstore n)) in
      mkNode s (im_insert (nme n) (mkMember (nme n) (Some cid) advertise v false) (roster n))
  end.

(** [set_add]. *)
Definition set_add (members : list MemberSpec) (token : option string) n w : Value * Node * W :=
  let n := ensure_cluster n in
  let cid := cluster_id_of n in
  let snapshot := record_to_value <$> filter (λ r, m_removed r = false) (avalues (roster n)) in
  let '(results, n, w) := foldl (add_member cid snapshot token) ([], n, w) members in
  let n := persist n in
  let '(n, w) := reconcile_connections n w in
  let '(n, w) := push_to_roster (Some (avalues (roster n))) n w in
  (JObject [("cluster_id", match cluster_id_of n with Some c => JString c | None => JNull end);
            ("results", JArray results)], n, w).

(** [set_remove]: the tombstone for one member. *)
Definition removal_tombstone (nid : string) (fallback : option string) n : MembershipRecord * Node :=
  let cid := cluster_id_of n in
  let cur := aget nid (roster n) in
  let addr := match cur with Some c => m_address c | None => default "" fallback end in
  let '(ver, s) := next_version_after
    (match cur with Some c => v_ms (m_version c) | None => 0%Z end) (nstore n) in
  let tomb := mkMember nid cid addr ver true in
  (tomb, mkNode s (im_insert nid tomb (roster n))).
Definition remove_member (acc : list Value * list MembershipRecord * Node * W) (m : MemberSpec)
    : list Value * list MembershipRecord * Node * W :=
  let '(results, tombs, n, w) := acc in
  match ms_node_id m with
  | None | Some "" =>
      (results ++ [JObject [("ok", JBool false); ("error", JString "node_id required")]], tombs, n, w)
  | Some nid =>
      let cid := cluster_id_of n in
      let '(tomb, n) := removal_tombstone nid (ms_address m) n in
      let body := mkEvictRequest (nme n) cid (peer_token_of nid n) in
      let '(_, w) := t_evict (m_address tomb) body w in
      let n := set_store (disconnect_peer nid (nstore n)).2 n in
      (results ++ [JObject [("node_id", JString nid); ("ok", JBool true)]], tombs ++ [tomb], n, w)
  end.

(** [set_remove]. *)
Definition set_remove (members : list MemberSpec) n w : Value * Node * W :=
  let '(results, tombs, n, w) := foldl remove_member ([], [], n, w) members in
  let n := persist n in
  let '(n, w) := match tombs with [] => (n, w) | _ => push_to_roster (Some tombs) n w end in
  (JObject [("results", JArray results)], n, w).

(** [show]. *)
Definition show n : ShowResponse :=
  let live := peer_node_id <$> list_peers (nstore n) in
  mkShowResponse (cluster_id_of n) (nme n)
    ((λ r, mkRosterEntry (m_node_id r) (m_address r)
             (bool_decide (m_node_id r ∈ live) || bool_decide (m_node_id r = nme n))) <$>
     filter (λ r, m_removed r = false) (avalues (roster n))).

(** [leave_old]. *)
Definition leave_old (old : string) n w : Node * W :=
  let members := filter (λ r, m_node_id r ≠ nme n ∧ m_cluster_id r = Some old ∧ m_removed r = false)
                        (avalues (roster n)) in
  let w := foldl (λ w r, (t_evict_self (m_address r)
             (mkLeaveRequest (nme n) (peer_token_of (m_node_id r) n)) w).2) w members in
  let s := foldl (λ s r, (disconnect_peer (m_node_id r) s).2) (nstore n) members in
  (mkNode s (aretain (λ k r, bool_decide (k = nme n) || negb (bool_decide (m_cluster_id r = Some old)))
                     (roster n)), w).

(** [adopt]. *)
Definition adopt (cid : string) (records : list Value) n w : JoinResponse * Node * W :=
  let '(n, w) := match cluster_id_of n with
                 | Some old => if decide (old = cid) then (n, w) else leave_old old n w
                 | None => (n, w)
                 end in
  let '(ver, s) := next_version (nstore n) in
  let n := mkNode s (im_insert (nme n) (mkMember (nme n) (Some cid) advertise ver false) (roster n)) in
  let n := persist (merge records n).2 in
  let '(n, w) := reconcile_connections n w in
  let '(n, w) := push_to_roster None n w in
  (mkJoinResponse true (Some (nme n)) (Some cid) (Some ver) None, n, w).

(** [join_authorized]. *)
Definition join_authorized (token : option string) : bool :=
  if negb (auth_enabled auth) then true
  else match token with
       | None | Some "" => false
       | Some t => match authenticate auth t with Some c => is_admin c | None => false end
       end.

(** [handle_join]. *)
Definition handle_join (body : JoinRequest) n w : JoinResponse * Node * W :=
  if negb (join_authorized (jr_token body)) then
    (mkJoinResponse false None None None (Some "unauthorized"), n, w)
  else match jr_cluster_id body with
       | None | Some "" => (mkJoinResponse false None None None (Some "cluster_id required"), n, w)
       | Some cid => adopt cid (jr_roster body) n w
       end.

(** [handle_evict_self]. *)
Definition handle_evict_self (body : LeaveRequest) n w : bool * Node * W :=
  let nid := lr_from_node body in
  if str_is_empty nid || negb (is_authed nid (lr_token body) (nstore n)) then (false, n, w)
  else
    let cur := aget nid (roster n) in
    let '(ver, s) := next_version_after
      (match cur with Some c => v_ms (m_version c) | None => 0%Z end) (nstore n) in
    let cid := match cur with Some c => m_cluster_id c | None => cluster_id_of n end in
    let addr := match cur with Some c => m_address c | None => "" end in
    let tomb := mkMember nid cid addr ver true in
    let n := mkNode (disconnect_peer nid s).2 (im_insert nid tomb (roster n)) in
    let n := persist n in
    let '(n, w) := push_to_roster (Some [tomb]) n w in
    (true, n, w).

(** [handle_evicted]. *)
Definition handle_evicted (body : EvictRequest) n : bool * Node :=
  if negb (is_authed (er_from_node body) (er_token body) (nstore n)) then (false, n)
  else (true, become_standalone n).

(** [AntiEntropySweeper::tick]: one peer of the loop, then the tick. *)
Definition tick_peer (nw : Node * W) (peer : Peer) : Node * W :=
  let '(r, s, w) := reconcile peer (nstore nw.1) nw.2 in
  let n := set_store s nw.1 in
  match r with
  | Err _ => (n, w)
  | Ok _ => reconcile_with peer n w
  end.
Definition anti_entropy_tick n w : Node * W :=
  let '(n, w) := reconcile_connections n w in
  let '(n, w) := foldl tick_peer (n, w) (list_peers (nstore n)) in
  let s := (gc_tombstones None (nstore n)).2 in
  let s := prune_suppression None s in
  ((gc_membership None (set_store s n)).2, w).
End membership.
