(* ===== verification/MembershipFacts.v ===== *)
(** What the membership plane guarantees: merging implements the LWW register
    and self-eviction, removals outversion what they remove, connections
    follow the roster, membership RPCs are authorized, and the roster survives
    a restart. *)
From S2P Require Import Prelude F64 RustMap RustStr Json Common Lww Merkle Handshake ClusterState ClusterStore ClusterStoreFacts ClusterLocal Replication ClusterInvariant ClusterServe Membership.

Section facts.
Context `{!StateFile, !ClusterEnv, !Digest, !HashIter, !RecordCodec}.
Implicit Types n : Node.

(** * Merging *)

(** A record that evicts this node: a removal newer than its own record. *)
Definition evicts (this : string) (own : option Version) (rec : MembershipRecord) : bool :=
  bool_decide (m_node_id rec = this) && m_removed rec && version_newer (m_version rec) own.

Lemma merge_fold this l r c ev :
  let '(r', c', ev') := foldl (merge_record this) (r, c, ev) l in
  let recs := omap record_of_value l in
  aget this r' = aget this r ∧
  (∀ nid, nid ≠ this → aget nid r' = lww nid (aget nid r) recs) ∧
  ev' = ev || existsb (evicts this (m_version <$> aget this r)) recs ∧
  (c' = false → r' = r ∧ c = false) ∧
  (∀ nid, nid ∈ akeys r → nid ∈ akeys r').
Proof.
  revert r c ev. induction l as [|d l IH]; intros r c ev.
  { cbn. split_and!; auto; [by rewrite orb_false_r]. }
  cbn [foldl omap list_omap]. unfold merge_record at 2.
  destruct (record_of_value d) as [rec|] eqn:Ed; cbn [omap list_omap]; [|apply IH].
  destruct (version_newer (m_version rec) (m_version <$> aget (m_node_id rec) r)) eqn:Hn; simpl negb; cbn iota.
  - destruct (decide (m_node_id rec = this)) as [Hme|Hme].
    + specialize (IH r c (ev || m_removed rec)).
      destruct (foldl (merge_record this) _ l) as [[r' c'] ev'].
      destruct IH as (H1' & H2' & -> & H4' & H5'). split_and!; try done.
      * intros nid Hne. rewrite H2', lww_cons by done. cbn [lww_key member_replicated].
        by rewrite decide_False by congruence.
      * cbn [existsb]. unfold evicts at 2. rewrite <-Hme, Hn, bool_decide_true by done.
        by rewrite andb_true_r, orb_assoc.
    + specialize (IH (im_insert (m_node_id rec) rec r) true ev).
      destruct (foldl (merge_record this) _ l) as [[r' c'] ev'].
      destruct IH as (H1' & H2' & -> & H4' & H5'). rewrite aget_im_insert_ne in H1' by done.
      split_and!; [done|..].
      * intros nid Hne. rewrite H2', lww_cons, aget_im_insert by done.
        cbn [lww_key lww_version member_replicated].
        destruct (decide (nid = m_node_id rec)) as [->|Hne'].
        -- rewrite decide_True by done. by rewrite Hn.
        -- by rewrite decide_False by congruence.
      * cbn [existsb]. unfold evicts at 2. rewrite bool_decide_false by done. simpl.
        by rewrite aget_im_insert_ne by done.
      * intros [_ ?]%H4'. done.
      * intros nid Hin. apply H5'. rewrite akeys_im_insert. destruct (ahas _ _); set_solver.
  - specialize (IH r c ev). destruct (foldl (merge_record this) _ l) as [[r' c'] ev'].
    destruct IH as (H1' & H2' & -> & H4' & H5'). split_and!; try done.
    + intros nid Hne. rewrite H2', lww_cons by done. cbn [lww_key lww_version member_replicated].
      destruct (decide (m_node_id rec = nid)) as [<-|]; [|done]. by rewrite Hn.
    + cbn [existsb]. unfold evicts at 2. destruct (decide (m_node_id rec = this)) as [<-|Hne].
      * rewrite Hn, andb_false_r. done.
      * by rewrite bool_decide_false.
Qed.

(** Dropping a list of members. *)
Definition drop_members (l : list string) (s : Store) : Store :=
  foldl (λ s m, (disconnect_peer m s).2) s l.

Lemma disconnect_frame m s :
  state (disconnect_peer m s).2 = state s ∧
  sessions (disconnect_peer m s).2 = aremove m (sessions s) ∧
  foreign (disconnect_peer m s).2 = aretain (λ k _, negb (bool_decide (k_origin k = m))) (foreign s).
Proof. unfold disconnect_peer. simpl. by destruct eviction_sink. Qed.

Lemma drop_members_spec l s :
  state (drop_members l s) = state s ∧
  (∀ m, aget m (sessions (drop_members l s)) = if decide (m ∈ l) then None else aget m (sessions s)) ∧
  (∀ k e, (k, e) ∈ foreign (drop_members l s) ↔ (k, e) ∈ foreign s ∧ k_origin k ∉ l).
Proof.
  unfold drop_members. revert s. induction l as [|m0 l IH]; intros s; cbn [foldl].
  { split_and!; [done|intros m; by rewrite decide_False by set_solver|set_solver]. }
  destruct (IH (disconnect_peer m0 s).2) as (-> & Hs & Hf).
  destruct (disconnect_frame m0 s) as (Hst & Hse & Hfo). split_and!; [done|..].
  - intros m. rewrite Hs, Hse, aget_aremove.
    destruct (decide (m ∈ l)), (decide (m ∈ m0 :: l)), (decide (m = m0)); set_solver.
  - intros k e. rewrite Hf, Hfo, elem_of_aretain, negb_true_iff, bool_decide_eq_false.
    rewrite not_elem_of_cons. naive_solver.
Qed.

Lemma persist_frame n :
  roster (persist n) = roster n ∧ sessions (nstore (persist n)) = sessions (nstore n) ∧
  foreign (nstore (persist n)) = foreign (nstore n) ∧ nme (persist n) = nme n ∧
  evicted_until (nstore (persist n)) = evicted_until (nstore n) ∧
  state (nstore (persist n)) =
    set_membership (aget (nme n) (roster n) ≫= m_cluster_id)
      (record_to_value <$> filter (λ r, m_node_id r ≠ nme n ∧
         m_cluster_id r = (aget (nme n) (roster n) ≫= m_cluster_id)) (avalues (roster n)))
      (m_version <$> aget (nme n) (roster n)) (state (nstore n)).
Proof.
  unfold persist, set_store, persist_membership. cbn [roster nstore].
  set (s1 := set_state _ _). pose proof (save_state_spec s1) as H'.
  destruct (save_state s1) as [r s2]. destruct H' as (Hst & Hfo & Hse & Hev & _). cbn [snd].
  unfold nme, me. cbn [nstore]. rewrite Hst, Hfo, Hse, Hev. done.
Qed.

(** Rosters file every record under its node's id. *)
Definition roster_keyed n : Prop :=
  NoDup (akeys (roster n)) ∧ ∀ k r, (k, r) ∈ roster n → m_node_id r = k.

(** The members wanted, one by one. *)
Definition wanted n (nid : string) (r : MembershipRecord) : Prop :=
  nid ≠ nme n ∧ is_Some (cluster_id_of n) ∧ m_cluster_id r = cluster_id_of n ∧
  m_removed r = false ∧ m_address r ≠ "".

Lemma address_fold (l : list MembershipRecord) (m : list (string * string)) :
  NoDup (m_node_id <$> l) →
  let m' := foldl (λ m r, bm_insert (m_node_id r) (m_address r) m) m l in
  (∀ r, r ∈ l → aget (m_node_id r) m' = Some (m_address r)) ∧
  (∀ nid, nid ∉ m_node_id <$> l → aget nid m' = aget nid m).
Proof.
  revert m. induction l as [|r l IH]; intros m Hnd; [set_solver|]. cbn [foldl].
  rewrite fmap_cons in Hnd. apply NoDup_cons in Hnd as [Hn Hnd].
  destruct (IH (bm_insert (m_node_id r) (m_address r) m) Hnd) as [Hin Hout]. split.
  - intros r' [->|Hr']%elem_of_cons; [|by apply Hin].
    rewrite Hout, aget_bm_insert by done. by rewrite decide_True.
  - intros nid. rewrite fmap_cons, not_elem_of_cons. intros [Hne Hl].
    rewrite Hout, aget_bm_insert by done. by rewrite decide_False.
Qed.

Lemma keyed_ids n : roster_keyed n → m_node_id <$> avalues (roster n) = akeys (roster n).
Proof.
  intros [_ Hk]. unfold avalues, akeys. rewrite <-list_fmap_compose.
  apply list_fmap_ext. intros i [k r] Hi. cbn. apply Hk. by apply list_elem_of_lookup_2 in Hi.
Qed.

Lemma desired_lookup n nid a :
  roster_keyed n →
  aget nid (desired_peers n) = Some a ↔
  ∃ r, aget nid (roster n) = Some r ∧ wanted n nid r ∧ a = m_address r.
Proof.
  intros Hk. unfold desired_peers, wanted. destruct (cluster_id_of n) as [cid|];
    [|cbn; split; [done|]; intros (r & _ & (_ & [? ?] & _) & _); done].
  set (l := filter _ _). assert (Hnd : NoDup (m_node_id <$> l)).
  { eapply sublist_NoDup; [|apply fmap_sublist, sublist_filter]. rewrite keyed_ids by done. apply Hk. }
  assert (Hl : ∀ r, r ∈ l → aget (m_node_id r) (roster n) = Some r ∧
    m_node_id r ≠ nme n ∧ m_cluster_id r = Some cid ∧ m_removed r = false ∧ m_address r ≠ "").
  { intros r Hr. apply list_elem_of_filter in Hr as [Hp Hr]. split; [|done].
    apply list_elem_of_fmap in Hr as ([k r'] & -> & Hr). cbn.
    apply aget_elem; [apply Hk|]. by rewrite (proj2 Hk _ _ Hr). }
  destruct (address_fold l [] Hnd) as [Hin Hout]. cbn zeta in *. split.
  - intros Ha. destruct (decide (nid ∈ m_node_id <$> l)) as [Hnl|Hnl];
      [|by rewrite Hout in Ha].
    apply list_elem_of_fmap in Hnl as (r & -> & Hr). rewrite Hin in Ha by done.
    exists r. destruct (Hl r Hr) as (? & ? & ? & ? & ?). injection Ha as <-. split_and!; eauto.
  - intros (r & Hr & (Hne & _ & Hc & Hrm & Had) & ->).
    assert (Hid : m_node_id r = nid) by (by apply (proj2 Hk), aget_Some_elem).
    rewrite <-Hid. apply Hin. apply list_elem_of_filter. rewrite Hid. split_and!; try done.
    apply list_elem_of_fmap. exists (nid, r). split; [done|]. by apply aget_Some_elem.
Qed.

Lemma roster_keyed_insert n k r (s : Store) :
  roster_keyed n → m_node_id r = k → roster_keyed (mkNode s (im_insert k r (roster n))).
Proof.
  intros [Hnd Hk] Hr. split; cbn; [by apply NoDup_im_insert|].
  intros k' r' [[-> ->]|Hin]%elem_of_im_insert; [done|by apply Hk].
Qed.

Lemma desired_not_unwanted n nid :
  roster_keyed n → is_Some (aget nid (desired_peers n)) → is_removed_or_absent nid n = false.
Proof.
  intros Hk [a (r & Hr & (_ & _ & Hc & Hrm & _) & _)%desired_lookup]; [|done].
  unfold is_removed_or_absent. rewrite Hr, Hrm, bool_decide_true by done. done.
Qed.

(** The loop that drops unwanted sessions. *)
Lemma disconnect_fold l n n2 :
  roster_keyed n → roster n2 = roster n → nme n2 = nme n →
  let n3 := foldl (disconnect_unwanted (desired_peers n)) n2 l in
  roster n3 = roster n ∧
  ∀ nid, aget nid (sessions (nstore n3)) =
    if decide (nid ∈ l ∧ is_removed_or_absent nid n = true) then None
    else aget nid (sessions (nstore n2)).
Proof.
  intros Hk. revert n2.
  induction l as [|x l IH]; intros n2 Hr2 Hm2; cbn zeta in *; cbn [foldl].
    { split; [done|]. intros nid. rewrite decide_False; [done|]. by intros [?%elem_of_nil _]. }
    assert (Hsame : is_removed_or_absent x n2 = is_removed_or_absent x n).
    { unfold is_removed_or_absent, cluster_id_of. by rewrite Hr2, Hm2. }
    assert (Hdu : disconnect_unwanted (desired_peers n) n2 x =
      if negb (ahas x (desired_peers n)) && is_removed_or_absent x n
      then set_store (disconnect_peer x (nstore n2)).2 n2 else n2)
      by (unfold disconnect_unwanted; by rewrite Hsame).
    rewrite Hdu. clear Hdu.
    destruct (negb (ahas x (desired_peers n)) && is_removed_or_absent x n) eqn:Eu.
    - destruct (disconnect_frame x (nstore n2)) as (Hst & Hse & _).
      destruct (IH (set_store (disconnect_peer x (nstore n2)).2 n2)) as [Hr3 Hs3];
        [done|unfold nme, me, set_store in *; cbn [nstore]; by rewrite Hst|].
      split; [done|]. intros nid. rewrite Hs3. cbn [nstore set_store]. rewrite Hse, aget_aremove.
      apply andb_true_iff in Eu as [_ Hx].
      destruct (decide (nid ∈ l ∧ is_removed_or_absent nid n = true)) as [[Hin Hrm]|Hno].
      + rewrite decide_True; [done|]. split; [by right|done].
      + destruct (decide (nid = x)) as [->|Hne].
        * rewrite decide_True; [done|]. split; [by left|done].
        * rewrite decide_False; [done|]. intros [Hin Hrm]. apply Hno. split; [|done].
          by apply elem_of_cons in Hin as [?|?].
    - destruct (IH n2 Hr2 Hm2) as [Hr3 Hs3]. split; [done|]. intros nid. rewrite Hs3.
      assert (Hx : is_removed_or_absent x n = false).
      { destruct (is_removed_or_absent x n) eqn:Ex; [|done]. rewrite andb_true_r in Eu.
        apply negb_false_iff, ahas_true, (desired_not_unwanted n x Hk) in Eu. congruence. }
      destruct (decide (nid ∈ l ∧ is_removed_or_absent nid n = true)) as [[Hin Hrm]|Hno].
      + rewrite decide_True; [done|]. split; [by right|done].
      + rewrite decide_False; [done|]. intros [Hin Hrm].
        apply elem_of_cons in Hin as [->|Hin]; [congruence|]. by apply Hno.
Qed.

(** * Outbound steps keep the roster and never drop a session *)

Lemma full_index_frame ns (s : Store) :
  let s' := (full_index ns s).2 in sessions s' = sessions s ∧ me s' = me s.
Proof.
  unfold full_index. pose proof (local_index_rows ns s) as Hl.
  destruct (local_index ns s) as [idx s']. destruct Hl as [-> _]. cbn [snd].
  by destruct (ensure_frame s) as (_ & _ & Hse & Hme & _).
Qed.

Lemma apply_pulled_frame l c (s : Store) :
  let s' := (foldl apply_pulled (c, s) l).2 in sessions s' = sessions s ∧ me s' = me s.
Proof.
  revert c s. induction l as [|e l IH]; intros c s; [done|]. cbn [foldl].
  unfold apply_pulled at 2 4. pose proof (apply_inbound_frame e s) as (Hst & Hse & _).
  destruct (apply_inbound e s) as [b s1]. cbn [snd] in *. unfold me in *.
  destruct (IH (if b then S c else c) s1) as [-> ->]. by rewrite Hst, Hse.
Qed.

Context {W : Type} `{!Transport W}.

Lemma reconcile_frame peer (s : Store) (w : W) :
  let s' := (reconcile peer s w).1.2 in sessions s' = sessions s ∧ me s' = me s.
Proof.
  unfold reconcile. pose proof (full_index_frame (Some (peer_namespaces peer)) s) as Hf.
  destruct (full_index _ s) as [idx s1]. cbn [snd] in Hf.
  destruct (t_merkle _ _ _ _ w) as [[h|] w1]; [|done].
  destruct (differing_buckets _ h) as [|d ds]; [done|].
  destruct (t_digest _ _ _ _ _ w1) as [[rows|] w2]; [|done].
  assert (Hp : ∀ remote sub w, let s' := (pull_newer peer remote sub s1 w).1.2 in
    sessions s' = sessions s ∧ me s' = me s).
  { intros remote sub w'. unfold pull_newer.
    destruct (filter _ (hm_iter remote)).*1; [done|].
    destruct (t_pull _ _ _ _ w') as [[envs|] w'']; [|done].
    pose proof (apply_pulled_frame envs 0 s1) as Ha.
    destruct (foldl apply_pulled _ envs) as [c s2]. cbn in *. destruct Ha as [-> ->]. done. }
  specialize (Hp (index_of_rows rows) (filter (λ kv, bucket_of kv.1 (merkle_buckets config) ∈ d :: ds) idx) w2).
  destruct (pull_newer _ _ _ s1 w2) as [[[c|] s2] w3]; [|done].
  destruct (push_newer _ _ _ s2 w3) as [[p|] w4]; done.
Qed.

(** [connect_peer] adds or renews one session. *)
Lemma connect_frame addr ns tok (s : Store) (w : W) m :
  let s' := (connect_peer addr ns tok s w).1.2 in
  me s' = me s ∧ (is_Some (aget m (sessions s)) → is_Some (aget m (sessions s'))).
Proof.
  unfold connect_peer. destruct (t_open _ _ w) as [[resp|] w1]; [|done]. cbn [clock_now].
  set (peer := mkPeer _ _ _ _ _). set (s1 := record_session _ _).
  pose proof (reconcile_frame peer s1 w1) as Hf.
  destruct (reconcile peer s1 w1) as [[r s2] w2]. cbn [fst snd] in *. destruct Hf as [-> ->].
  split; [done|]. intros Hm. unfold s1; simpl. rewrite aget_im_insert. case_decide; eauto.
Qed.

Lemma connect_missing_frame actual l n (w : W) m :
  let n' := (foldl (connect_missing actual) (n, w) l).1 in
  roster n' = roster n ∧ nme n' = nme n ∧
  (is_Some (aget m (sessions (nstore n))) → is_Some (aget m (sessions (nstore n')))).
Proof.
  revert n w. induction l as [|d l IH]; intros n w; [done|]. cbn [foldl].
  unfold connect_missing at 2 4 6. case_if; [apply IH|]. cbn [fst snd].
  pose proof (connect_frame d.2 None None (nstore n) w m) as Hc.
  destruct (connect_peer d.2 None None (nstore n) w) as [[r s] w']. cbn [fst snd] in Hc.
  destruct (IH (set_store s n) w') as (-> & Hme & Hs). split; [done|].
  unfold nme in *. rewrite Hme. cbn [set_store nstore] in *. destruct Hc as [-> Hc]. split; [done|].
  auto.
Qed.
End facts.

(** * Theorems *)

Section theorems.
Context `{!StateFile, !ClusterEnv, !Digest, !HashIter, !RecordCodec} {W : Type} `{!Transport W}.
Implicit Types n : Node.

(** Merging a batch is the LWW register of every other node's record, with
    the own record authoritative; when the batch removes this node with a
    version newer than its own record, the node becomes standalone: no
    roster, no cluster, no session and no replica of any former member. *)
Theorem merge_spec records n :
  let recs := omap record_of_value records in
  let evicted := existsb (evicts (nme n) (m_version <$> aget (nme n) (roster n))) recs in
  let '(changed, n') := merge records n in
  if evicted then
    changed = true ∧ roster n' = [] ∧ cluster_id (state (nstore n')) = None ∧
    ∀ m, m ∈ akeys (roster n) → m ≠ nme n →
      aget m (sessions (nstore n')) = None ∧
      ∀ k e, (k, e) ∈ foreign (nstore n') → k_origin k ≠ m
  else
    aget (nme n) (roster n') = aget (nme n) (roster n) ∧
    (∀ nid, nid ≠ nme n → aget nid (roster n') = lww nid (aget nid (roster n)) recs) ∧
    sessions (nstore n') = sessions (nstore n) ∧ foreign (nstore n') = foreign (nstore n) ∧
    (changed = false → n' = n).
Proof.
  cbn zeta. unfold merge. pose proof (merge_fold (nme n) records (roster n) false false) as Hf.
  destruct (foldl (merge_record (nme n)) _ records) as [[r c] ev].
  destruct Hf as (Hme & Hlww & Hev & Hc & Hkeys). cbn [orb] in Hev. rewrite <-Hev. destruct ev.
  - unfold become_standalone. set (l := filter (λ m, m ≠ nme n) (akeys r)).
    set (n1 := set_store _ _). destruct (persist_frame n1) as (Hro & Hse & Hfo & _ & _ & Hst).
    destruct (drop_members_spec l (nstore n)) as (_ & Hs & Hf).
    split; [done|]. split; [by rewrite Hro|]. split; [by rewrite Hst|].
    intros m Hm Hne. rewrite Hse, Hfo.
    assert (Hl : m ∈ l).
    { unfold l. apply list_elem_of_filter. split; [done|]. by apply Hkeys. }
    split; [cbn; fold (drop_members l (nstore n)); rewrite Hs; by rewrite decide_True|].
    intros k e Hin. cbn in Hin. fold (drop_members l (nstore n)) in Hin.
    apply Hf in Hin as [_ Hno]. intros Heq. apply Hno. by rewrite Heq.
  - destruct c.
    + destruct (persist_frame (set_roster r n)) as (-> & -> & -> & _). done.
    + destruct Hc as [-> _]; [done|]. destruct n. done.
Qed.

(** Removing a member writes a tombstone that any node holding the removed
    record accepts, drops its session and replicas, and makes it unwanted:
    the reconcile loop neither keeps nor reconnects it. *)
Theorem remove_member_spec results tombs n w m nid :
  ms_node_id m = Some nid → nid ≠ "" → roster_keyed n →
  (∀ c, aget nid (roster n) = Some c → in_i64 (v_ms (m_version c)) ∧ (v_ms (m_version c) < i64_max)%Z) →
  let '(_, tombs', n', _) := remove_member (results, tombs, n, w) m in
  ∃ tomb, tombs' = tombs ++ [tomb] ∧ aget nid (roster n') = Some tomb ∧
    m_node_id tomb = nid ∧ m_removed tomb = true ∧
    version_newer (m_version tomb) (m_version <$> aget nid (roster n)) = true ∧
    aget nid (sessions (nstore n')) = None ∧
    (∀ k e, (k, e) ∈ foreign (nstore n') → k_origin k ≠ nid) ∧
    is_removed_or_absent nid n' = true ∧ aget nid (desired_peers n') = None ∧
    (∀ nid', nid' ≠ nid → aget nid' (roster n') = aget nid' (roster n)).
Proof.
  intros Hm Hne Hkeyed Hc. unfold remove_member. rewrite Hm.
  destruct nid as [|a nid']; [done|]. set (nid := String a nid') in *.
  unfold removal_tombstone. destruct (next_version_after _ (nstore n)) as [ver s1] eqn:Ev.
  unfold next_version_after in Ev. cbn [now_ms] in Ev. injection Ev as <- <-.
  destruct (t_evict _ _ w) as [rr w1]. set (tomb := mkMember nid _ _ _ true).
  set (s2 := set_state _ _). destruct (disconnect_frame nid s2) as (Hst & Hse & Hfo).
  set (n' := set_store _ _). exists tomb.
  assert (Hro : roster n' = im_insert nid tomb (roster n)) by done.
  assert (Hlk : aget nid (roster n') = Some tomb) by (rewrite Hro; apply aget_im_insert_eq).
  assert (Hns : nstore n' = (disconnect_peer nid s2).2) by done.
  split_and!; try done.
  - destruct (aget nid (roster n)) as [c|] eqn:E; [|done]. apply version_newer_ms.
    destruct (Hc c eq_refl) as [Hi Hlt]. cbn [m_version tomb v_ms].
    rewrite (i64_add_id (v_ms _)) by (unfold in_i64 in *; lia). lia.
  - rewrite Hns, Hse, aget_aremove. by rewrite decide_True.
  - intros k e. rewrite Hns, Hfo, elem_of_aretain, negb_true_iff, bool_decide_eq_false. by intros [].
  - unfold is_removed_or_absent. by rewrite Hlk.
  - destruct (aget nid (desired_peers n')) as [a'|] eqn:Ed; [|done].
    apply desired_lookup in Ed as (r & Hr' & (_ & _ & _ & Hrem & _) & _).
    + rewrite Hlk in Hr'. by injection Hr' as <-.
    + by apply roster_keyed_insert.
  - intros nid0 Hn0. rewrite Hro. by apply aget_im_insert_ne.
Qed.

(** The reconcile loop drives the sessions to the roster: afterwards no
    former session is left with a member that is removed, absent or in
    another cluster, no session with a wanted member is lost, and the roster
    is not touched; wanted members are never the ones it drops. *)
Theorem reconcile_connections_spec n w :
  roster_keyed n → is_Some (cluster_id_of n) →
  let actual := peer_node_id <$> list_peers (nstore n) in
  let '(n', w') := reconcile_connections n w in
  roster n' = roster n ∧
  (∀ nid, nid ∈ actual → is_removed_or_absent nid n = true → aget nid (sessions (nstore n')) = None) ∧
  (∀ nid, is_Some (aget nid (desired_peers n)) → is_removed_or_absent nid n = false) ∧
  (∀ nid, is_removed_or_absent nid n = false →
     is_Some (aget nid (sessions (nstore n))) → is_Some (aget nid (sessions (nstore n')))).
Proof.
  intros Hk [cid Hcid]. cbn zeta. unfold reconcile_connections. rewrite Hcid.
  assert (Hwanted : ∀ nid, is_Some (aget nid (desired_peers n)) → is_removed_or_absent nid n = false).
  { intros nid. by apply desired_not_unwanted. }
  set (act := remove_dups _).
  pose proof (λ m, connect_missing_frame act (desired_peers n) n w m) as Hconn.
  destruct (foldl (connect_missing act) (n, w) (desired_peers n)) as [n1 w1]. cbn [fst] in Hconn.
  assert (Hro1 : roster n1 = roster n) by apply (Hconn "").
  assert (Hme1 : nme n1 = nme n) by apply (Hconn "").
  destruct (disconnect_fold (hash_order act) n n1 Hk Hro1 Hme1) as [Hr3 Hs3].
  split_and!; [done| |done|].
  - intros nid Hin Hrm. rewrite Hs3, decide_True; [done|]. split; [|done].
    rewrite hash_order_perm. unfold act. by apply elem_of_remove_dups.
  - intros nid Hrm Hse. rewrite Hs3, decide_False by (intros [_ ?]; congruence).
    by apply Hconn.
Qed.

(** C31: With auth on, a caller without the session secret can neither read the
    roster nor change it: the membership RPCs answer empty or refuse and
    leave the node and the network alone; and only an admin token can pull
    the node into a cluster. *)
Theorem membership_rpcs_authorized n (w : W) from tok ids records :
  auth_enabled auth = true →
  (is_authed from tok (nstore n) = false →
     serve_set_digest from tok n = [] ∧ serve_set_pull from ids tok n = [] ∧
     serve_set_sync from records tok n = (false, n) ∧
     handle_evicted (mkEvictRequest from None tok) n = (false, n) ∧
     handle_evict_self (mkLeaveRequest from tok) n w = (false, n, w)) ∧
  (∀ body, ¬ (∃ t c, jr_token body = Some t ∧ authenticate auth t = Some c ∧ role c = Admin) →
     handle_join body n w = (mkJoinResponse false None None None (Some "unauthorized"), n, w)).
Proof.
  intros Hon. split.
  - intros Ha. unfold serve_set_digest, serve_set_pull, serve_set_sync, handle_evicted, handle_evict_self.
    cbn [er_from_node er_token lr_from_node lr_token]. rewrite Ha. cbn.
    by rewrite orb_true_r.
  - intros body Hno. unfold handle_join, join_authorized. rewrite Hon. cbn.
    destruct (jr_token body) as [t|] eqn:Et; [|done].
    destruct t as [|a t]; [done|].
    destruct (authenticate auth (String a t)) as [c|] eqn:Ec; [|done].
    destruct (is_admin c) eqn:Ead; [|done]. exfalso. apply Hno.
    apply bool_decide_eq_true in Ead. by exists (String a t), c.
Qed.
End theorems.

Section restart.
Context `{!StateFile, !Digest, !HashIter, !RecordCodec}.

(** Restoring persisted records into a roster that lacks them. *)
Lemma restore_fold cid this (l : list MembershipRecord) (r0 : Roster) :
  NoDup (m_node_id <$> l) → (∀ r, r ∈ l → m_node_id r ≠ this ∧ aget (m_node_id r) r0 = None) →
  let r' := foldl (restore_record cid this) r0 (record_to_value <$> l) in
  (∀ r, r ∈ l → aget (m_node_id r) r' = Some r) ∧
  (∀ nid, nid ∉ m_node_id <$> l → aget nid r' = aget nid r0) ∧
  (NoDup (akeys r0) → NoDup (akeys r')).
Proof.
  revert r0. induction l as [|r l IH]; intros r0 Hnd Hl; [by split_and!; [set_solver|..]|].
  cbn zeta in *. rewrite fmap_cons in *. cbn [foldl]. apply NoDup_cons in Hnd as [Hn Hnd].
  destruct (Hl r) as [Hne Hnone]; [set_solver|].
  assert (Hstep : restore_record cid this r0 (record_to_value r) = im_insert (m_node_id r) r r0).
  { unfold restore_record. destruct (record_value_version r) as [v ->].
    rewrite record_value_roundtrip, bool_decide_false by done. unfold ahas. by rewrite Hnone. }
  rewrite Hstep. destruct (IH (im_insert (m_node_id r) r r0)) as (Hin & Hout & Hk); [done| |].
  - intros r1 Hr1. destruct (Hl r1) as [? ?]; [set_solver|]. split; [done|].
    rewrite aget_im_insert_ne; [done|]. intros Heq. apply Hn. rewrite <-Heq.
    by apply list_elem_of_fmap_2.
  - split_and!.
    + intros r1 [->|Hr1]%elem_of_cons; [|by apply Hin].
      rewrite Hout by done. apply aget_im_insert_eq.
    + intros nid [Hne' Hnl]%not_elem_of_cons. rewrite Hout by done. by apply aget_im_insert_ne.
    + intros Hnd0. by apply Hk, NoDup_im_insert.
Qed.

(** The records [persist] saves: every other node's of the same cluster. *)
Definition kept (n : Node) (cid : string) : list MembershipRecord :=
  filter (λ r, m_node_id r ≠ nme n ∧ m_cluster_id r = Some cid) (avalues (roster n)).

Lemma elem_of_kept n cid r :
  roster_keyed n →
  r ∈ kept n cid ↔ ∃ nid, aget nid (roster n) = Some r ∧ nid = m_node_id r ∧
    nid ≠ nme n ∧ m_cluster_id r = Some cid.
Proof.
  intros Hk. unfold kept, avalues. rewrite list_elem_of_filter, list_elem_of_fmap. split.
  - intros ([Hne Hcr] & [k r'] & -> & Hin). cbn in *. exists k.
    assert (m_node_id r' = k) as <- by (by apply (proj2 Hk)).
    split_and!; [|done..]. by apply aget_elem; [apply Hk|].
  - intros (nid & Hr & -> & Hne & Hcr). split; [done|]. exists (m_node_id r, r).
    split; [done|]. by apply aget_Some_elem.
Qed.

(** The roster [init_from_state] rebuilds from the saved records. *)
Lemma restored_roster (n : Node) cid (own : MembershipRecord) :
  roster_keyed n →
  let r1 := foldl (restore_record cid (nme n)) [(nme n, own)] (record_to_value <$> kept n cid) in
  NoDup (akeys r1) ∧ aget (nme n) r1 = Some own ∧
  (∀ nid r, nid ≠ nme n → aget nid (roster n) = Some r → m_cluster_id r = Some cid →
     aget nid r1 = Some r) ∧
  (∀ nid, nid ≠ nme n → (∀ r, aget nid (roster n) = Some r → m_cluster_id r ≠ Some cid) →
     aget nid r1 = None).
Proof.
  intros Hk r1. pose proof (elem_of_kept n cid) as Hl.
  destruct (restore_fold cid (nme n) (kept n cid) [(nme n, own)]) as (Hin & Hout & Hnd).
  { eapply sublist_NoDup; [|apply fmap_sublist, sublist_filter]. rewrite keyed_ids by done. apply Hk. }
  { intros r (nid & _ & -> & Hne & Hc)%Hl; [|done]. split; [done|]. cbn. by rewrite decide_False. }
  fold r1 in Hin, Hout, Hnd.
  assert (Hno : ∀ nid, (∀ r, aget nid (roster n) = Some r → nid ≠ nme n → m_cluster_id r ≠ Some cid) →
    aget nid r1 = aget nid [(nme n, own)]).
  { intros nid Hno. apply Hout. intros (r & -> & Hr)%list_elem_of_fmap.
    apply Hl in Hr as (nid' & Hr & -> & Hne & Hcr); [|done]. by apply (Hno r). }
  split_and!.
  - apply Hnd, NoDup_singleton.
  - rewrite Hno by done. cbn. by rewrite decide_True.
  - intros nid r Hne Hr Hcr.
    assert (Hid : m_node_id r = nid) by (by apply (proj2 Hk), aget_Some_elem).
    rewrite <-Hid. apply Hin, Hl; [done|]. exists nid. by rewrite Hid.
  - intros nid Hne Hnone. rewrite Hno by eauto. cbn. by rewrite decide_False.
Qed.

(** A member node that persisted its roster and restarts, in whatever
    environment, comes back in its cluster, with its own record at the
    version it had under its new address and every other record of the
    cluster, except removals past the retention window; its version clock
    covers its own record. *)
Theorem roster_survives_restart (env env' : ClusterEnv) (n : Node) cid own d :
  roster_keyed n → aget (nme n) (roster n) = Some own → m_cluster_id own = Some cid →
  let saved := state (nstore (@persist _ env _ n)) in
  let n' := @init_from_state _ env' _ (mkNode (build saved d) []) in
  let now := @now_ms_at _ env' 0 in
  cluster_id_of n' = Some cid ∧
  aget (nme n) (roster n') =
    Some (mkMember (nme n) (Some cid) (@advertise _ env') (m_version own) false) ∧
  (v_ms (m_version own) ≤ version_clock (state (nstore n')))%Z ∧
  (∀ nid r, nid ≠ nme n → aget nid (roster n) = Some r → m_cluster_id r = Some cid →
     aget nid (roster n') =
       if m_removed r && (@retention_ms _ env' <? i64_sub now (v_ms (m_version r)))%Z
       then None else Some r) ∧
  (∀ nid, nid ≠ nme n → (∀ r, aget nid (roster n) = Some r → m_cluster_id r ≠ Some cid) →
     aget nid (roster n') = None).
Proof.
  intros Hk Hown Hc. cbn zeta.
  destruct (persist_frame (H0 := env) n) as (_ & _ & _ & _ & _ & Hst). rewrite Hst, Hown.
  cbn [mbind option_bind]. rewrite Hc. fold (kept n cid). unfold init_from_state, nme, me.
  cbn [nstore build state set_membership cluster_id my_membership_version node_id last_roster fmap
       option_fmap option_map roster im_insert].
  fold (me (nstore n)). fold (nme n).
  set (own' := mkMember _ _ _ _ _). set (s1 := observe_version _ _).
  destruct (restored_roster n cid own' Hk) as (Hnd1 & Hme1 & Hin & Hout).
  set (r1 := foldl _ _ _) in *.
  assert (Ht : ticks s1 = 0%nat) by (unfold s1, observe_version; by case_if).
  assert (Hclock : (v_ms (m_version own) ≤ version_clock (state s1))%Z).
  { unfold s1, observe_version. cbn. case_if; cbn; lia. }
  assert (Hs1 : node_id (state s1) = nme n) by (unfold s1, observe_version; by case_if).
  unfold gc_membership. cbn [now_ms nstore roster snd]. rewrite Ht.
  set (keep := λ (_ : string) r, negb (m_removed r && _)).
  assert (Hlk : ∀ nid, aget nid (aretain keep r1) =
    match aget nid r1 with Some r => if keep nid r then Some r else None | None => None end).
  { intros nid. by apply aget_aretain. }
  assert (Hown2 : aget (nme n) (aretain keep r1) = Some own').
  { rewrite Hlk, Hme1. unfold keep, own'. by cbn [m_removed andb negb]. }
  split_and!; [|exact Hown2|exact Hclock|..].
  - unfold cluster_id_of, nme, me. cbn [nstore roster tick state]. rewrite Hs1.
    by rewrite Hown2.
  - intros nid r Hne Hr Hcr. rewrite Hlk, (Hin nid r) by done.
    unfold keep. by destruct (m_removed r && _).
  - intros nid Hne Hno. by rewrite Hlk, (Hout nid).
Qed.
End restart.
