(* ===== verification/Reachability.v ===== *)
(** The invariant of the cluster node: every store and roster that any
    sequence of calls reaches is well formed, whatever the peers answer. *)
From S2P Require Import Prelude F64 RustMap RustStr Json Common Lww Merkle Handshake ClusterState ClusterStore ClusterStoreFacts ClusterLocal Replication ClusterInvariant ClusterServe Membership MembershipFacts.

Record node_inv `{!StateFile} (n : Node) : Prop := {
  ni_store : store_inv (nstore n);
  ni_roster : roster_keyed n
}.

Section preservation.
Context `{!StateFile, !ClusterEnv, !Digest, !HashIter, !RecordCodec} {W : Type} `{!Transport W}.
Implicit Types (n : Node) (s : Store) (w : W).

(** * Store operations that call peers *)

Lemma full_index_inv ns s : store_inv s → store_inv (full_index ns s).2.
Proof.
  intros Hinv. unfold full_index. pose proof (local_index_rows ns s) as Hl.
  destruct (local_index ns s) as [idx s']. destruct Hl as [-> _].
  by apply ensure_local_versions_inv.
Qed.

Lemma apply_pulled_fold_inv l c s : store_inv s → store_inv (foldl apply_pulled (c, s) l).2.
Proof.
  revert c s. induction l as [|e l IH]; intros c s Hinv; [done|]. cbn [foldl].
  unfold apply_pulled at 2. pose proof (apply_inbound_inv _ e s Hinv) as Hs.
  destruct (apply_inbound e s) as [b s1]. by apply IH.
Qed.

Lemma reconcile_inv peer s w : store_inv s → store_inv (reconcile peer s w).1.2.
Proof.
  intros Hinv. unfold reconcile. pose proof (full_index_inv (Some (peer_namespaces peer)) s Hinv) as Hf.
  destruct (full_index _ s) as [idx s1]. cbn [snd] in Hf.
  destruct (t_merkle _ _ _ _ w) as [[h|] w1]; [|done].
  destruct (differing_buckets _ h) as [|d ds]; [done|].
  destruct (t_digest _ _ _ _ _ w1) as [[rows|] w2]; [|done].
  assert (Hp : ∀ remote sub w, store_inv (pull_newer peer remote sub s1 w).1.2).
  { intros remote sub w'. unfold pull_newer. destruct (filter _ (hm_iter remote)).*1; [done|].
    destruct (t_pull _ _ _ _ w') as [[envs|] w'']; [|done].
    pose proof (apply_pulled_fold_inv envs 0 s1 Hf) as Ha.
    by destruct (foldl apply_pulled _ envs). }
  specialize (Hp (index_of_rows rows) (filter (λ kv, bucket_of kv.1 (merkle_buckets config) ∈ d :: ds) idx) w2).
  destruct (pull_newer _ _ _ s1 w2) as [[[c|] s2] w3]; [|done].
  destruct (push_newer _ _ _ s2 w3) as [[p|] w4]; done.
Qed.

Lemma connect_peer_inv addr ns tok s w : store_inv s → store_inv (connect_peer addr ns tok s w).1.2.
Proof.
  intros Hinv. unfold connect_peer. destruct (t_open _ _ w) as [[resp|] w1]; [|done].
  cbn [clock_now]. set (peer := mkPeer _ _ _ _ _). set (s1 := record_session _ _).
  assert (Hs1 : store_inv s1).
  { eapply store_inv_frame; [..|apply (sessions_insert_inv (tick s) peer)]; [done..|].
    by apply (store_inv_frame s). }
  pose proof (reconcile_inv peer s1 w1 Hs1) as Hf. by destruct (reconcile peer s1 w1) as [[r s2] w2].
Qed.

Lemma drop_members_inv l s : store_inv s → store_inv (drop_members l s).
Proof.
  unfold drop_members. revert s. induction l as [|m l IH]; intros s Hinv; [done|].
  by apply IH, disconnect_peer_inv.
Qed.

(** * Node operations *)

Lemma set_store_inv s n : store_inv s → node_inv n → node_inv (set_store s n).
Proof. intros Hs []. by split. Qed.

Lemma insert_inv s k r n :
  store_inv s → m_node_id r = k → node_inv n → node_inv (mkNode s (im_insert k r (roster n))).
Proof. intros Hs Hr []. split; [done|]. by apply roster_keyed_insert. Qed.

Lemma retain_inv s f n : store_inv s → node_inv n → node_inv (mkNode s (aretain f (roster n))).
Proof.
  intros Hs [_ [Hnd Hk]]. split; [done|]. split; cbn; [by apply NoDup_aretain|].
  intros k r [_ Hin]%elem_of_aretain. by apply Hk.
Qed.

Lemma clear_inv s : store_inv s → node_inv (mkNode s []).
Proof. intros Hs. split; [done|]. split; cbn; [constructor|]. by intros k r ?%elem_of_nil. Qed.

Lemma next_version_inv s : store_inv s → store_inv (next_version s).2.
Proof. intros Hinv. eapply store_step_inv; [apply step_next_version|done]. Qed.

Lemma persist_inv n : node_inv n → node_inv (persist n).
Proof.
  intros []. unfold persist. apply set_store_inv; [|by split].
  eapply store_step_inv; [apply step_persist_membership|done].
Qed.

Lemma become_standalone_inv n : node_inv n → node_inv (become_standalone n).
Proof.
  intros []. unfold become_standalone. apply persist_inv. cbn [set_store set_roster roster].
  apply clear_inv. by apply drop_members_inv.
Qed.

Lemma merge_fold_keyed this l r c ev (s : Store) :
  roster_keyed (mkNode s r) → roster_keyed (mkNode s (foldl (merge_record this) (r, c, ev) l).1.1).
Proof.
  revert r c ev. induction l as [|d l IH]; intros r c ev Hk; [done|]. cbn [foldl].
  unfold merge_record at 2. destruct (record_of_value d) as [rec|]; [|by apply IH].
  destruct (negb _); [by apply IH|]. case_decide; apply IH; [done|].
  by apply (roster_keyed_insert (mkNode s r)).
Qed.

Lemma merge_inv records n : node_inv n → node_inv (merge records n).2.
Proof.
  intros [Hs Hk]. unfold merge.
  pose proof (merge_fold_keyed (nme n) records (roster n) false false (nstore n)) as Hf.
  destruct (foldl (merge_record (nme n)) _ records) as [[r c] ev]. cbn [fst] in Hf.
  assert (Hn : node_inv (set_roster r n)) by (split; [done|]; apply Hf; by destruct n).
  destruct ev; [by apply become_standalone_inv|]. destruct c; [by apply persist_inv|done].
Qed.

Lemma push_to_roster_inv o n w : node_inv n → node_inv (push_to_roster o n w).1.
Proof.
  intros Hn. unfold push_to_roster. destruct o as [l|]; [done|]. unfold my_record.
  destruct (aget (nme n) (roster n)) as [own|]; [done|].
  pose proof (next_version_inv (nstore n) (ni_store _ Hn)) as Hv.
  destruct (next_version (nstore n)) as [v s]. by apply insert_inv.
Qed.

Lemma connect_missing_inv actual l n w :
  node_inv n → node_inv (foldl (connect_missing actual) (n, w) l).1.
Proof.
  revert n w. induction l as [|d l IH]; intros n w Hn; [done|]. cbn [foldl].
  unfold connect_missing at 2. case_if; [by apply IH|]. cbn [fst snd].
  pose proof (connect_peer_inv d.2 None None (nstore n) w (ni_store _ Hn)) as Hc.
  destruct (connect_peer d.2 None None (nstore n) w) as [[r s] w']. apply IH. by apply set_store_inv.
Qed.

Lemma reconcile_connections_inv n w : node_inv n → node_inv (reconcile_connections n w).1.
Proof.
  intros Hn. unfold reconcile_connections. destruct (cluster_id_of n); [|done].
  set (act := remove_dups _). generalize (desired_peers n). intros desired.
  pose proof (connect_missing_inv act desired n w Hn) as Hc.
  destruct (foldl (connect_missing act) (n, w) desired) as [n1 w1]. cbn [fst] in *.
  generalize (hash_order act). intros l. revert n1 Hc.
  induction l as [|x l IH]; intros n1 Hn1; [done|]. cbn [foldl]. apply IH.
  unfold disconnect_unwanted. destruct (_ && _); [|done].
  apply set_store_inv; [|done]. by apply disconnect_peer_inv, Hn1.
Qed.

Context (fresh : nat → string).

Lemma next_version_after_inv f s : store_inv s → store_inv (next_version_after f s).2.
Proof. intros Hinv. eapply store_step_inv; [apply step_next_version_after|done]. Qed.

Lemma set_add_inv members tok n w : node_inv n → node_inv (set_add fresh members tok n w).1.2.
Proof.
  intros Hn. unfold set_add.
  assert (Hc : node_inv (ensure_cluster fresh n)).
  { unfold ensure_cluster. destruct (cluster_id_of n); [done|].
    pose proof (next_version_inv (tick (nstore n))) as Hv.
    destruct (next_version (tick (nstore n))) as [v s]. apply insert_inv; [|done..].
    apply Hv. by apply (store_inv_frame (nstore n)); [done..|apply Hn]. }
  generalize dependent (ensure_cluster fresh n). intros n1 Hn1.
  generalize (cluster_id_of n1). intros cid. set (snap := record_to_value <$> _).
  assert (Hf : ∀ l res n w, node_inv n → node_inv (foldl (add_member cid snap tok) (res, n, w) l).1.2).
  { intros l. induction l as [|m l IH]; intros res n2 w2 Hn2; [done|]. cbn [foldl].
    unfold add_member at 2. destruct (ms_address m) as [[|a addr]|]; [by apply IH| |by apply IH].
    destruct (t_join _ _ w2) as [[resp|err] w3]; [|by apply IH].
    destruct (jp_accepted resp); cbn [negb]; [|by apply IH].
    destruct (jp_version resp) as [v|]; [apply IH; apply insert_inv; [apply Hn2|done..]|].
    pose proof (next_version_inv (nstore n2) (ni_store _ Hn2)) as Hv.
    destruct (next_version (nstore n2)) as [v s]. apply IH. by apply insert_inv. }
  specialize (Hf members [] n1 w Hn1).
  destruct (foldl (add_member cid snap tok) _ members) as [[res n2] w2]. cbn [fst snd] in Hf.
  pose proof (reconcile_connections_inv (persist n2) w2 (persist_inv n2 Hf)) as Hr.
  destruct (reconcile_connections (persist n2) w2) as [n3 w3]. cbn [fst] in Hr.
  pose proof (push_to_roster_inv (Some (avalues (roster n3))) n3 w3 Hr) as Hp.
  by destruct (push_to_roster _ n3 w3) as [n4 w4].
Qed.

Lemma set_remove_inv members n w : node_inv n → node_inv (set_remove members n w).1.2.
Proof.
  intros Hn. unfold set_remove.
  assert (Hf : ∀ l res t n w, node_inv n → node_inv (foldl remove_member (res, t, n, w) l).1.2).
  { intros l. induction l as [|m l IH]; intros res t n2 w2 Hn2; [done|]. cbn [foldl].
    unfold remove_member at 2. destruct (ms_node_id m) as [[|a nid]|]; [by apply IH| |by apply IH].
    unfold removal_tombstone.
    pose proof (next_version_after_inv (match aget (String a nid) (roster n2) with
      Some c => v_ms (m_version c) | None => 0%Z end) (nstore n2) (ni_store _ Hn2)) as Hv.
    destruct (next_version_after _ (nstore n2)) as [v s]. cbn [snd] in Hv.
    destruct (t_evict _ _ w2) as [r w3]. apply IH. apply set_store_inv.
    - by apply disconnect_peer_inv.
    - by apply insert_inv. }
  specialize (Hf members [] [] n w Hn).
  destruct (foldl remove_member _ members) as [[[res t] n2] w2]. cbn [fst snd] in Hf.
  destruct t as [|t0 t]; [by apply persist_inv|].
  pose proof (push_to_roster_inv (Some (t0 :: t)) (persist n2) w2 (persist_inv n2 Hf)) as Hp.
  by destruct (push_to_roster _ (persist n2) w2) as [n4 w4].
Qed.

Lemma handle_join_inv body n w : node_inv n → node_inv (handle_join body n w).1.2.
Proof.
  intros Hn. unfold handle_join. destruct (negb _); [done|].
  destruct (jr_cluster_id body) as [[|a c]|]; [done| |done]. unfold adopt.
  assert (Hl : ∀ old, node_inv (leave_old old n w).1).
  { intros old. unfold leave_old. apply retain_inv; [|done].
    generalize (nstore n) (ni_store _ Hn). generalize (filter (λ r, m_node_id r ≠ nme n ∧
      m_cluster_id r = Some old ∧ m_removed r = false) (avalues (roster n))).
    intros l. induction l as [|r l IH]; intros s Hs; [done|]. by apply IH, disconnect_peer_inv. }
  set (nw := match cluster_id_of n with Some _ => _ | None => _ end).
  assert (Hnw : node_inv nw.1).
  { unfold nw. destruct (cluster_id_of n) as [old|]; [|done]. case_decide; [done|apply Hl]. }
  destruct nw as [n1 w1]. cbn [fst] in Hnw.
  pose proof (next_version_inv (nstore n1) (ni_store _ Hnw)) as Hv.
  destruct (next_version (nstore n1)) as [v s]. cbn [snd] in Hv.
  set (n2 := mkNode s _).
  assert (Hn2 : node_inv (persist (merge (jr_roster body) n2).2))
    by (apply persist_inv, merge_inv; by apply insert_inv).
  pose proof (reconcile_connections_inv _ w1 Hn2) as Hr.
  destruct (reconcile_connections _ w1) as [n3 w3]. cbn [fst] in Hr.
  pose proof (push_to_roster_inv None n3 w3 Hr) as Hp.
  by destruct (push_to_roster None n3 w3) as [n4 w4].
Qed.

Lemma handle_evict_self_inv body n w : node_inv n → node_inv (handle_evict_self body n w).1.2.
Proof.
  intros Hn. unfold handle_evict_self. destruct (_ || _); [done|].
  set (nid := lr_from_node body).
  pose proof (next_version_after_inv (match aget nid (roster n) with
    Some c => v_ms (m_version c) | None => 0%Z end) (nstore n) (ni_store _ Hn)) as Hv.
  destruct (next_version_after _ (nstore n)) as [v s]. cbn [snd] in Hv.
  set (tomb := mkMember _ _ _ _ _).
  assert (Hn2 : node_inv (persist (mkNode (disconnect_peer nid s).2 (im_insert nid tomb (roster n))))).
  { apply persist_inv, insert_inv; [by apply disconnect_peer_inv|done|done]. }
  pose proof (push_to_roster_inv (Some [tomb]) _ w Hn2) as Hp.
  by destruct (push_to_roster (Some [tomb]) _ w) as [n4 w4].
Qed.

Lemma gc_membership_inv o n : node_inv n → node_inv (gc_membership o n).2.
Proof.
  intros Hn. unfold gc_membership. destruct o; cbn [now_ms snd]; apply retain_inv; try done.
  - apply Hn.
  - by apply (store_inv_frame (nstore n)); [done..|apply Hn].
Qed.

Lemma init_from_state_inv n : node_inv n → node_inv (init_from_state n).
Proof.
  intros Hn. unfold init_from_state. destruct (cluster_id (state (nstore n))) as [cid|]; [|done].
  assert (Hrest : ∀ ver s, store_inv s →
    node_inv (gc_membership None (mkNode s (foldl (restore_record cid (nme n))
      (im_insert (nme n) (mkMember (nme n) (Some cid) advertise ver false) (roster n))
      (last_roster (state (nstore n)))))).2).
  { intros ver s Hs. apply gc_membership_inv.
    assert (Hins : node_inv (mkNode s (im_insert (nme n) (mkMember (nme n) (Some cid) advertise ver false)
      (roster n)))) by (by apply insert_inv).
    generalize dependent (im_insert (nme n) (mkMember (nme n) (Some cid) advertise ver false) (roster n)).
    generalize (last_roster (state (nstore n))). intros l.
    induction l as [|d l IH]; intros r Hr; [done|]. cbn [foldl]. apply IH. unfold restore_record.
    destruct (match vget "version" d with Some _ => _ | None => _ end) as [rec|]; [|done].
    destruct (_ && _); [|done]. by apply (insert_inv s (m_node_id rec) rec (mkNode s r)). }
  destruct (my_membership_version (state (nstore n))) as [v|]; cbn zeta.
  - apply Hrest. eapply store_step_inv; [apply step_observe|apply Hn].
  - pose proof (next_version_inv (nstore n) (ni_store _ Hn)) as Hv.
    destruct (next_version (nstore n)) as [ver s]. by apply Hrest.
Qed.

Lemma reconcile_with_inv peer n w : node_inv n → node_inv (reconcile_with peer n w).1.
Proof.
  intros Hn. unfold reconcile_with. destruct (cluster_id_of n); [|done].
  destruct (t_set_digest _ _ _ w) as [[remote|] w1]; [|done].
  destruct (filter _ remote).*1 as [|x want]; [done|].
  destruct (t_set_pull _ _ _ _ w1) as [[recs|] w2]; [|done]. by apply merge_inv.
Qed.

Lemma anti_entropy_tick_inv n w : node_inv n → node_inv (anti_entropy_tick n w).1.
Proof.
  intros Hn. unfold anti_entropy_tick.
  pose proof (reconcile_connections_inv n w Hn) as Hr.
  destruct (reconcile_connections n w) as [n1 w1]. cbn [fst] in Hr.
  assert (Hf : ∀ l n w, node_inv n → node_inv (foldl tick_peer (n, w) l).1).
  { intros l. induction l as [|p l IH]; intros n2 w2 Hn2; [done|]. cbn [foldl].
    unfold tick_peer at 2. cbn [fst snd].
    pose proof (reconcile_inv p (nstore n2) w2 (ni_store _ Hn2)) as Hs.
    destruct (reconcile p (nstore n2) w2) as [[r s] w3]. cbn [fst snd] in Hs.
    destruct r; [|by apply IH, set_store_inv].
    pose proof (reconcile_with_inv p (set_store s n2) w3 (set_store_inv s n2 Hs Hn2)) as Hrw.
    destruct (reconcile_with p (set_store s n2) w3) as [n3 w4]. by apply IH. }
  specialize (Hf (list_peers (nstore n1)) n1 w1 Hr).
  destruct (foldl tick_peer _ _) as [n2 w2]. cbn [fst] in Hf.
  apply gc_membership_inv, set_store_inv; [|done].
  eapply store_step_inv; [apply step_prune|].
  eapply store_step_inv; [apply step_gc|apply Hf].
Qed.
End preservation.

(** * The node's calls *)

(** One call on a node, in an environment and against peers of its own. *)
Inductive node_step `{!StateFile, !Digest, !RecordCodec} : Node → Node → Prop :=
| node_store n s : store_step (nstore n) s → node_step n (set_store s n)
| node_connect (env : ClusterEnv) (o : HashIter) W (T : Transport W) addr ns tok n w :
    node_step n (set_store (connect_peer addr ns tok (nstore n) w).1.2 n)
| node_reconcile (env : ClusterEnv) (o : HashIter) W (T : Transport W) peer n w :
    node_step n (set_store (reconcile peer (nstore n) w).1.2 n)
| node_merge (env : ClusterEnv) (o : HashIter) records n : node_step n (merge records n).2
| node_restore (env : ClusterEnv) n : node_step n (init_from_state n)
| node_set_add (env : ClusterEnv) (o : HashIter) W (T : Transport W) fresh members tok n w :
    node_step n (set_add fresh members tok n w).1.2
| node_set_remove (env : ClusterEnv) (o : HashIter) W (T : Transport W) members n w :
    node_step n (set_remove members n w).1.2
| node_join (env : ClusterEnv) (o : HashIter) W (T : Transport W) body n w :
    node_step n (handle_join body n w).1.2
| node_evict_self (env : ClusterEnv) (o : HashIter) W (T : Transport W) body n w :
    node_step n (handle_evict_self body n w).1.2
| node_evicted (env : ClusterEnv) body n : node_step n (handle_evicted body n).2
| node_tick (env : ClusterEnv) (o : HashIter) W (T : Transport W) n w :
    node_step n (anti_entropy_tick n w).1.

(** C8: Every node that any sequence of calls reaches from a fresh or reloaded
    state is well formed: each replica is filed under its own key and is of
    another origin, sessions and membership records are filed under their node
    ids, no record of ours is live and deleted at once, and keys are unique. *)
Theorem reachable_node_inv `{!StateFile, !Digest, !RecordCodec} st d n :
  state_wf st → rtc node_step (mkNode (build st d) []) n → node_inv n.
Proof.
  intros Hwf Hreach.
  assert (Hn0 : node_inv (mkNode (build st d) [])) by (apply clear_inv; by apply build_inv).
  induction Hreach as [|n1 n2 n3 Hstep _ IH]; [done|]. apply IH. destruct Hstep.
  - apply set_store_inv; [|done]. by eapply store_step_inv; [|apply Hn0].
  - apply set_store_inv; [|done]. by apply connect_peer_inv, Hn0.
  - apply set_store_inv; [|done]. by apply reconcile_inv, Hn0.
  - by apply merge_inv.
  - by apply init_from_state_inv.
  - by apply set_add_inv.
  - by apply set_remove_inv.
  - by apply handle_join_inv.
  - by apply handle_evict_self_inv.
  - unfold handle_evicted. destruct (negb _); [done|]. by apply become_standalone_inv.
  - by apply anti_entropy_tick_inv.
Qed.
