(* ===== verification/ClusterExamples.v ===== *)
(** A concrete cluster on which the hypotheses of the cluster theorems hold:
    environments of an open and of a protected node, a codec for membership
    records, a network without peers, and for each theorem the instance that
    shows its hypotheses can be met. *)
From S2P Require Import Prelude F64 RustMap RustStr Json Common Lww Merkle Handshake ClusterState ClusterStore ClusterStoreFacts ClusterLocal ClusterInvariant ClusterServe Replication AntiEntropy Membership MembershipFacts Reachability.

(** * The setting *)

(** Closed decidable facts. *)
Ltac decide_now := apply (bool_decide_unpack _); vm_compute; exact I.

#[local] Existing Instance record_file | 0.
#[local] Existing Instance prefix_digest | 0.

(** A node of an open cluster: a clock that ticks once per reading. *)
Definition open_env : ClusterEnv :=
  mkClusterEnv _ default_cluster_config None allow_all "http://a" true "/state"
    (λ n, f64_of_Z (Z.of_nat n)) (λ n, (1000 + Z.of_nat n)%Z) (λ _, "secret")
    (λ _, mkSaveIo (Ok ()) rename_works).

(** A backend with a public and a protected dataset, and an admin token. *)
Definition ex_registry : LocalRegistryView :=
  mkRegistryView ["pub"; "sec"] (λ _, []) (λ _ _, None) (λ d, bool_decide (d = "sec")).
Definition protected_env : ClusterEnv :=
  mkClusterEnv _ default_cluster_config (Some ex_registry)
    (mkPeerAuth true (λ t, if decide (t = "root") then Some (mkAuthContext "u" Admin None) else None))
    "http://b" true "/state" (λ n, f64_of_Z (Z.of_nat n)) (λ n, (1000 + Z.of_nat n)%Z)
    (λ _, "secret") (λ _, mkSaveIo (Ok ()) rename_works).

(** A codec that keeps every field. *)
Definition version_to_value (v : Version) : Value :=
  JArray [JNumber (NegInt (v_ms v)); JString (v_node v)].
Definition member_to_value (r : MembershipRecord) : Value :=
  JObject [("version", version_to_value (m_version r)); ("node_id", JString (m_node_id r));
           ("cluster_id", from_option JString JNull (m_cluster_id r));
           ("address", JString (m_address r)); ("removed", JBool (m_removed r))].
Definition member_of_value (v : Value) : option MembershipRecord :=
  match v with
  | JObject [(_, JArray [JNumber (NegInt ms); JString vn]); (_, JString n); (_, c);
             (_, JString a); (_, JBool b)] => Some (mkMember n (as_str c) a (mkVersion ms vn) b)
  | _ => None
  end.

Definition field_codec : RecordCodec.
Proof.
  refine {| record_to_value := member_to_value; record_of_value := member_of_value |}.
  - by intros [n [c|] a [ms vn] b].
  - intros r. by eexists.
Defined.
#[local] Existing Instance field_codec | 0.

(** A network in which nobody answers. *)
Definition unreachable : Transport unit :=
  mkTransport _
    (λ _ _ w, (Err "unreachable", w)) (λ _ _ _ _ w, (Err "unreachable", w))
    (λ _ _ _ _ _ w, (Err "unreachable", w)) (λ _ _ _ _ w, (Err "unreachable", w))
    (λ _ _ _ _ w, (Err "unreachable", w)) (λ _ _ _ w, (Err "unreachable", w))
    (λ _ _ w, (Err "unreachable", w)) (λ _ _ w, (Err "unreachable", w))
    (λ _ _ w, (Err "unreachable", w)) (λ _ _ _ w, (Err "unreachable", w))
    (λ _ _ _ _ w, (Err "unreachable", w)) (λ _ _ _ _ w, (Err "unreachable", w)).
#[local] Existing Instance unreachable | 0.

(** Records of a third node and stores that hold them. *)
Definition ex_key : Key := ("ds", "C", "svc").
Definition ex_envelope (ms : Z) : SyncEnvelope := mkEnvelope "ds" "svc" "C" (mkVersion ms "C") false None.
Definition ex_store (me : string) (ms : Z) (ps : list (string * Peer)) : Store :=
  mkStore (new_state me None) [(ex_key, ex_envelope ms)] ps ∅ None [] 0.
Definition ex_peer (n : string) : Peer := mkPeer n "http://x" ["ds"] (f64_of_Z 0) (Some "secret").

Lemma ex_store_inv me ms ps :
  me ≠ "C" → ps = [] ∨ (∃ n, ps = [(n, ex_peer n)]) → store_inv (ex_store me ms ps).
Proof.
  intros Hme Hps. split; simpl; [apply new_state_wf|by repeat constructor; set_solver|..].
  - intros k e Hin%list_elem_of_singleton. by simplify_eq.
  - intros k e Hin%list_elem_of_singleton. simplify_eq. intros Heq. by apply Hme.
  - destruct Hps as [->|[n ->]]; repeat constructor; set_solver.
  - intros n p Hin. destruct Hps as [->|[m ->]]; [by apply elem_of_nil in Hin|].
    apply list_elem_of_singleton in Hin. by simplify_eq.
Qed.

(** * The overlay *)


Lemma serve_updates_gated_witness :
  let s := ex_store "A" 5 [] in
  let s' := (@serve_updates _ open_env "B" [ex_envelope 4] None s).2 in
  version_ge (env_version <$> aget ex_key (foreign s')) (Some (mkVersion 5 "C")).
Proof.
  intros s. exact (proj1 (serve_updates_gated (H0 := open_env) "B" [ex_envelope 4] None s ex_key)).
Defined.

Lemma replicas_converge_witness :
  let b1 := [("B", [ex_envelope 7; ex_envelope 6]); ("C", [ex_envelope 7])] in
  let b2 := [("C", [ex_envelope 6]); ("D", [ex_envelope 7])] in
  aeq (foreign (deliver open_env hash_iter_id b1 (build (new_state "A" None) None)))
      (foreign (deliver open_env hash_iter_rev b2 (build (new_state "B" None) None))).
Proof.
  intros b1 b2. apply replicas_converge; [done|done|..].
  - intros e e' He He' Hk Hv. revert Hk Hv. unfold delivered in He, He'. simpl in He, He'.
    set_unfold in He. set_unfold in He'.
    destruct He as [->|[->|[->|[]]]], He' as [->|[->|[->|[]]]]; done.
  - intros e. unfold delivered. simpl. set_unfold. naive_solver.
  - intros e He. unfold delivered in He. simpl in He. set_unfold in He.
    destruct He as [->|[->|[->|[]]]]; done.
Defined.

Lemma ex_clean me ms ps :
  contains_char SEP me = false → @clean _ open_env (ex_store me ms ps).
Proof.
  intros Hme. split; [done|by intros k ?%elem_of_nil..| |done].
  intros k Hk%list_elem_of_singleton. by subst.
Qed.


Lemma reachable_node_inv_witness :
  let n := mkNode (build (new_state "A" None) None) [] in
  let n' := set_store (@apply_inbound _ open_env (ex_envelope 7) (nstore n)).2 n in
  rtc node_step n n' ∧ foreign (nstore n') ≠ [] ∧ node_inv n'.
Proof.
  intros n n'. assert (Hs : rtc node_step n n').
  { apply rtc_once. apply node_store. apply step_apply. }
  split; [done|]. split; [done|].
  apply (reachable_node_inv (new_state "A" None) None n'); [apply new_state_wf|done].
Defined.

(** * Serving peers *)

Lemma serve_digest_spec_witness :
  let s := ex_store "B" 9 [("A", ex_peer "A")] in
  store_inv s ∧ tomb_keys_wf s ∧
  (ex_key, mkVersion 9 "C") ∈ (@serve_digest _ open_env _ _ "A" (Some ["ds"]) None None s).1.
Proof.
  intros s. assert (Hi : store_inv s) by (apply ex_store_inv; eauto).
  assert (Ht : tomb_keys_wf s) by (by intros k ?%elem_of_nil).
  split; [done|]. split; [done|].
  pose proof (serve_digest_spec (H0 := open_env) "A" (Some ["ds"]) None None s Hi Ht) as Hd.
  destruct (serve_digest "A" (Some ["ds"]) None None s) as [rows s']. destruct Hd as (_ & _ & _ & Hin).
  apply (Hin ex_key (ex_envelope 9)); [done|by left|done].
Defined.

Lemma unauthenticated_sees_public_only_witness :
  let s := ex_store "B" 9 [("A", ex_peer "A")] in
  @is_authed _ protected_env "A" (Some "guess") s = false ∧
  ∀ k v, (k, v) ∈ (@serve_digest _ protected_env _ _ "A" (Some ["pub"; "sec"]) (Some "guess") None s).1 →
    k_dataset k ≠ "sec".
Proof.
  intros s. split; [done|]. assert (Hi : store_inv s) by (apply ex_store_inv; eauto).
  destruct (unauthenticated_sees_public_only (H0 := protected_env) "A" (Some ["pub"; "sec"])
    (Some "guess") None [] s Hi eq_refl eq_refl) as [Hd _].
  intros k v Hin. destruct (Hd k v Hin) as (reg & Hreg & _ & Hpub). injection Hreg as <-.
  intros Heq. by rewrite Heq in Hpub.
Defined.

Lemma foreign_entry_resolves_witness :
  let e := mkEnvelope "ds" "svc" "C" (mkVersion 1 "C") false
             (Some (JObject [("wrapped", JObject [("name", JString "x")])])) in
  let s := mkStore (new_state "A" None) [(ex_key, e)] [] ∅ None [] 0 in
  foreign_entry "ds" (display_id ex_key) s = Some (foreign_row [("name", JString "x")] ex_key) ∧
  foreign_row [("name", JString "x")] ex_key ∈ foreign_wrapped "ds" s.
Proof.
  intros e s.
  destruct (foreign_entry_resolves "ds" s ex_key e [("name", JString "x")]
    eq_refl eq_refl eq_refl eq_refl eq_refl) as (Hf & Hw & _).
  split; [exact Hf|]. by apply Hw.
Defined.

(** * The node's own records *)

Lemma next_version_monotonic_witness :
  let s := build (new_state "A" None) None in
  (∀ t, now_ms_at (ClusterEnv := protected_env) 0 ≤ 1000 + Z.of_nat t)%Z ∧
  let frozen := mkClusterEnv _ default_cluster_config None allow_all "" false "" (λ _, f64_of_Z 0)
                  (λ _, 1000%Z) (λ _, "") (λ _, mkSaveIo (Ok ()) rename_works) in
  StronglySorted (λ a b, version_newer b (Some a) = true) (@mint _ frozen 3 s).1.
Proof.
  split; [intros; simpl; lia|]. intros frozen.
  pose proof (next_version_monotonic (H0 := frozen) 3 (build (new_state "A" None) None) 1000
    ltac:(done) ltac:(intros; simpl; lia) ltac:(done)) as Hm.
  destruct (mint 3 _) as [vs s']. apply Hm.
Defined.

Lemma next_version_after_floor_witness :
  let s := build (new_state "A" None) None in
  version_newer (@next_version_after _ open_env 5000 s).1 (Some (mkVersion 5000 "Z")) = true ∧
  (v_ms (@next_version_after _ open_env i64_max s).1 ≤ i64_max)%Z.
Proof.
  intros s. split.
  - pose proof (next_version_after_floor (H0 := open_env) 5000 "Z" s ltac:(done) ltac:(done)) as Hf.
    destruct (next_version_after 5000 s) as [v s']. destruct Hf as [Hf _]. by apply Hf.
  - pose proof (next_version_after_floor (H0 := open_env) i64_max "Z" s ltac:(done) ltac:(done)) as Hf.
    destruct (next_version_after i64_max s) as [v s']. destruct Hf as (_ & _ & _ & Hf).
    by apply Hf.
Defined.

Lemma stamp_local_spec_witness :
  let s := build (new_state "A" None) None in
  clock_covers_local (state s) ∧
  let s' := (@stamp_local _ open_env "ds" "svc" Deregister s).2 in
  is_Some (aget (make_key "ds" "svc") (tombstones (state s'))).
Proof.
  intros s. assert (Hc : clock_covers_local (state s)) by (by intros k v [?|?]).
  split; [done|].
  pose proof (stamp_local_spec (H0 := open_env) "ds" "svc" Deregister s ltac:(done) ltac:(done) Hc) as Hs.
  destruct (stamp_local "ds" "svc" Deregister s) as [r s'].
  destruct Hs as (_ & (v & _ & _ & _ & _ & Hd & _) & _). by apply Hd.
Defined.

Lemma gc_tombstones_only_expired_witness :
  let st := set_tombstones [(make_key "ds" "old", mkTombstone (mkVersion 1 "A") (-100000));
                            (make_key "ds" "new", mkTombstone (mkVersion 2 "A") 900)]
              (new_state "A" None) in
  let s' := (@gc_tombstones _ open_env None (build st None)).2 in
  aget (make_key "ds" "old") (tombstones (state s')) = None ∧
  is_Some (aget (make_key "ds" "new") (tombstones (state s'))).
Proof.
  intros st. pose proof (gc_tombstones_only_expired (H0 := open_env) None (build st None)
    ltac:(decide_now) ltac:(constructor)) as (_ & Ht & _).
  split.
  - rewrite (Ht _ (mkTombstone (mkVersion 1 "A") (-100000))) by done. vm_compute. reflexivity.
  - rewrite (Ht _ (mkTombstone (mkVersion 2 "A") 900)) by done. vm_compute. by eexists.
Defined.

Lemma disconnect_peer_spec_witness :
  let s := ex_store "B" 9 [("C", ex_peer "C")] in
  let '(existed, s') := @disconnect_peer _ open_env "C" s in
  existed = true ∧ aget ex_key (foreign s') = None ∧
  evictions s' = [("C", [("ds", "svc")])].
Proof.
  pose proof (disconnect_peer_spec (H0 := open_env) "C" (ex_store "B" 9 [("C", ex_peer "C")])
    ltac:(decide_now) ltac:(decide_now)) as Hd.
  cbv zeta in Hd |- *. destruct (disconnect_peer "C" _) as [existed s'] eqn:E. destruct Hd as (-> & _ & Hf & _).
  split; [done|]. split; [by rewrite Hf|]. vm_compute in E. by injection E as <-.
Defined.

(** * Membership *)

Definition ex_member (n : string) (cid : option string) (ms : Z) (removed : bool) : MembershipRecord :=
  mkMember n cid "http://x" (mkVersion ms n) removed.
Definition ex_node : Node :=
  mkNode (ex_store "A" 5 [("B", ex_peer "B")])
    [("A", ex_member "A" (Some "cl") 3 false); ("B", ex_member "B" (Some "cl") 4 false);
     ("D", ex_member "D" (Some "other") 4 false)].

Lemma ex_node_keyed : roster_keyed ex_node.
Proof.
  split; [decide_now|]. intros k r Hin.
  apply elem_of_cons in Hin as [?|Hin]; [by simplify_eq|].
  apply elem_of_cons in Hin as [?|Hin]; [by simplify_eq|].
  apply list_elem_of_singleton in Hin. by simplify_eq.
Qed.

(** A batch that removes A makes it standalone. *)
Lemma merge_spec_witness :
  let '(changed, n') := @merge _ open_env _ [member_to_value (ex_member "A" None 9 true)] ex_node in
  changed = true ∧ roster n' = [] ∧ cluster_id (state (nstore n')) = None.
Proof.
  pose proof (merge_spec (H0 := open_env) [member_to_value (ex_member "A" None 9 true)] ex_node) as Hm.
  cbv zeta in Hm. destruct (merge _ ex_node) as [changed n'].
  replace (existsb _ _) with true in Hm by (vm_compute; reflexivity).
  destruct Hm as (? & ? & ? & _). done.
Defined.

Lemma remove_member_spec_witness :
  let m := {| ms_address := None; ms_node_id := Some "B" |} in
  let '(_, tombs, n', _) := @remove_member _ open_env _ unreachable ([], [], ex_node, ()) m in
  aget "B" (sessions (nstore n')) = None ∧ is_removed_or_absent "B" n' = true ∧
  aget "D" (roster n') = aget "D" (roster ex_node).
Proof.
  intros m.
  assert (Hb : ∀ c, aget "B" (roster ex_node) = Some c →
    in_i64 (v_ms (m_version c)) ∧ (v_ms (m_version c) < i64_max)%Z).
  { intros c Hc. vm_compute in Hc. injection Hc as <-. done. }
  pose proof (remove_member_spec (H0 := open_env) [] [] ex_node () m "B" eq_refl ltac:(done)
    ex_node_keyed Hb) as Hr.
  destruct (remove_member _ m) as [[[res tombs] n'] w'].
  destruct Hr as (tomb & _ & _ & _ & _ & _ & Hs & _ & Hrem & _ & Hother).
  split; [done|]. split; [done|]. by apply Hother.
Defined.

Lemma reconcile_connections_spec_witness :
  let n := mkNode (ex_store "A" 5 [("E", ex_peer "E")]) (roster ex_node) in
  let '(n', _) := @reconcile_connections _ open_env _ _ _ unreachable n () in
  "E" ∈ akeys (sessions (nstore n)) ∧ aget "E" (sessions (nstore n')) = None.
Proof.
  intros n.
  pose proof (reconcile_connections_spec (H0 := open_env) n () ex_node_keyed
    ltac:(by eexists)) as Hr.
  cbv zeta in Hr. destruct (reconcile_connections n ()) as [n' w'].
  destruct Hr as (_ & Hd & _). split; [by left|]. apply Hd; [by left|done].
Defined.

Lemma membership_rpcs_authorized_witness :
  is_authed (H0 := protected_env) "B" (Some "guess") (nstore ex_node) = false ∧
  @serve_set_sync _ protected_env _ "B" [] (Some "guess") ex_node = (false, ex_node).
Proof.
  split; [done|].
  destruct (membership_rpcs_authorized (H0 := protected_env) ex_node () "B" (Some "guess") [] []
    eq_refl) as [Ha _].
  by destruct (Ha eq_refl) as (_ & _ & Hs & _).
Defined.

(** A restarts under another address and keeps B, but not D of another cluster. *)
Lemma roster_survives_restart_witness :
  let saved := state (nstore (@persist _ open_env _ ex_node)) in
  let n' := @init_from_state _ protected_env _ (mkNode (build saved None) []) in
  cluster_id_of n' = Some "cl" ∧ aget "B" (roster n') = Some (ex_member "B" (Some "cl") 4 false) ∧
  aget "D" (roster n') = None.
Proof.
  destruct (roster_survives_restart open_env protected_env ex_node "cl"
    (ex_member "A" (Some "cl") 3 false) None ex_node_keyed eq_refl eq_refl)
    as (Hc & _ & _ & Hk & Hn).
  split; [exact Hc|]. split.
  - rewrite (Hk "B" (ex_member "B" (Some "cl") 4 false)) by done. done.
  - apply Hn; [done|]. intros r Hr. vm_compute in Hr. by injection Hr as <-.
Defined.
