(* ===== verification/Sse.v ===== *)
(** The Server-Sent Events parser and formatter: rust/ap-jsonrpc/src/sse.rs.

    The parser is a state record and [feed] the loop of the code; lines are
    taken from the buffer by [next_line] and interpreted by [process_line].
    [lines_of] is the specification of line splitting that [feed] is proved to
    implement, from which the theorems on chunking and on the wire format
    follow.

    A stream of data events, however the network cuts it: what a client that
    feeds the parser chunk by chunk gets of what a server wrote event by
    event. *)
From S2P Require Import Prelude RustStr.
From Stdlib Require Import Ascii.

Definition LF : ascii := "010".
Definition CR : ascii := "013".
Definition newline : string := String LF "".

(** * Events and the wire format *)

Record SseEvent := {
  ev_event : option string;
  ev_data : string;
  ev_id : option string;
  ev_retry : option Z
}.

#[export] Instance SseEvent_eq_dec : EqDecision SseEvent.
Proof. solve_decision. Defined.

Definition data_event (d : string) : SseEvent :=
  {| ev_event := None; ev_data := d; ev_id := None; ev_retry := None |}.
Definition typed (e d : string) : SseEvent :=
  {| ev_event := Some e; ev_data := d; ev_id := None; ev_retry := None |}.
Definition with_id (ev : SseEvent) (id : string) : SseEvent :=
  {| ev_event := ev_event ev; ev_data := ev_data ev; ev_id := Some id; ev_retry := ev_retry ev |}.

(** One [field: value] line. *)
Definition wire_line (field value : string) : string := field +:+ ": " +:+ value +:+ newline.

Definition to_wire (ev : SseEvent) : string :=
  from_option (wire_line "event") "" (ev_event ev) +:+
  from_option (wire_line "id") "" (ev_id ev) +:+
  from_option (λ r, wire_line "retry" (pretty r)) "" (ev_retry ev) +:+
  String.concat "" (wire_line "data" <$> split_on LF (ev_data ev)) +:+
  newline.

Definition comment (text : string) : string := ": " +:+ text +:+ newline.

(** * The parser *)

Record SseParser := {
  buf : string;
  event_type : option string;
  data : list string;
  id : option string;
  retry : option Z;
  saw_data_field : bool;
  bom_checked : bool;
  last_was_cr : bool
}.

Definition parser_new : SseParser :=
  {| buf := ""; event_type := None; data := []; id := None; retry := None;
     saw_data_field := false; bom_checked := false; last_was_cr := false |}.

(** Field updates. *)
Definition set_buf (b : string) (p : SseParser) : SseParser :=
  {| buf := b; event_type := event_type p; data := data p; id := id p; retry := retry p;
     saw_data_field := saw_data_field p; bom_checked := bom_checked p;
     last_was_cr := last_was_cr p |}.
Definition set_bom_checked (c : bool) (p : SseParser) : SseParser :=
  {| buf := buf p; event_type := event_type p; data := data p; id := id p; retry := retry p;
     saw_data_field := saw_data_field p; bom_checked := c; last_was_cr := last_was_cr p |}.
Definition set_last_was_cr (c : bool) (p : SseParser) : SseParser :=
  {| buf := buf p; event_type := event_type p; data := data p; id := id p; retry := retry p;
     saw_data_field := saw_data_field p; bom_checked := bom_checked p; last_was_cr := c |}.
Definition set_event_type (e : option string) (p : SseParser) : SseParser :=
  {| buf := buf p; event_type := e; data := data p; id := id p; retry := retry p;
     saw_data_field := saw_data_field p; bom_checked := bom_checked p;
     last_was_cr := last_was_cr p |}.
Definition set_data (d : list string) (saw : bool) (p : SseParser) : SseParser :=
  {| buf := buf p; event_type := event_type p; data := d; id := id p; retry := retry p;
     saw_data_field := saw; bom_checked := bom_checked p; last_was_cr := last_was_cr p |}.
Definition set_id (i : option string) (p : SseParser) : SseParser :=
  {| buf := buf p; event_type := event_type p; data := data p; id := i; retry := retry p;
     saw_data_field := saw_data_field p; bom_checked := bom_checked p;
     last_was_cr := last_was_cr p |}.
Definition set_retry (r : option Z) (p : SseParser) : SseParser :=
  {| buf := buf p; event_type := event_type p; data := data p; id := id p; retry := r;
     saw_data_field := saw_data_field p; bom_checked := bom_checked p;
     last_was_cr := last_was_cr p |}.

Definition BOM : string := byte_str [239; 187; 191].
Definition BOM1 : string := byte_str [239].

(** The byte-order-mark check that opens [next_line]: [None] when the line has
    to wait for more bytes. *)
Definition check_bom (p : SseParser) : option SseParser :=
  if bom_checked p then Some p
  else if (String.length (buf p) <? 3)%nat then
    if negb (str_is_empty (buf p)) && (String.length (buf p) <? 3)%nat
       && negb (starts_with BOM1 (buf p))
    then Some (set_bom_checked true p)
    else None
  else
    let p := set_bom_checked true p in
    Some (if starts_with BOM (buf p) then set_buf (str_drop 3 (buf p)) p else p).

(** A carriage return that ended the last line may be followed by its line
    feed now. *)
Definition skip_lf (p : SseParser) : SseParser :=
  if last_was_cr p then
    let p := set_last_was_cr false p in
    match buf p with
    | String a rest => if decide (a = LF) then set_buf rest p else p
    | EmptyString => p
    end
  else p.

(** The scan for the first terminator at index [i] of [b]: the line's end, the
    bytes consumed and whether the buffer ended with a carriage return. *)
Fixpoint scan (i : nat) (rest : string) : option (nat * nat * bool) :=
  match rest with
  | EmptyString => None
  | String a rest' =>
      if decide (a = LF) then Some (i, i + 1, false)%nat
      else if decide (a = CR) then
        match rest' with
        | String b _ => Some (i, if decide (b = LF) then i + 2 else i + 1, false)%nat
        | EmptyString => Some (i, i + 1, true)%nat
        end
      else scan (S i) rest'
  end.

Definition next_line (p : SseParser) : option (string * nat) * SseParser :=
  match check_bom p with
  | None => (None, p)
  | Some p =>
      let p := skip_lf p in
      match scan 0 (buf p) with
      | Some (i, consumed, at_end) =>
          (Some (from_utf8_lossy (str_take i (buf p)), consumed),
           if at_end then set_last_was_cr true p else p)
      | None => (None, p)
      end
  end.

Definition dispatch (p : SseParser) : option SseEvent * SseParser :=
  if saw_data_field p then
    (Some {| ev_event := event_type p; ev_data := str_join newline (data p);
             ev_id := id p; ev_retry := retry p |},
     set_data [] false (set_retry None (set_event_type None p)))
  else (None, set_data [] (saw_data_field p) (set_event_type None p)).

Definition NUL : ascii := "000".

Definition process_field (field value : string) (p : SseParser) : SseParser :=
  if decide (field = "event") then set_event_type (Some value) p
  else if decide (field = "data") then set_data (data p ++ [value]) true p
  else if decide (field = "id") then
    if contains_char NUL value then p else set_id (Some value) p
  else if decide (field = "retry") then
    match parse_u64 value with Some ms => set_retry (Some ms) p | None => p end
  else p.

Definition process_line (line : string) (p : SseParser) : option SseEvent * SseParser :=
  if str_is_empty line then dispatch p
  else if starts_with ":" line then (None, p)
  else
    let '(field, value) :=
      match split_once ":" line with
      | Some (field, value) => (field, default value (strip_prefix " " value))
      | None => (line, "")
      end in
    (None, process_field field value p).

(** The [while let] loop of [feed]. *)
Fixpoint feed_loop (fuel : nat) (p : SseParser) (events : list SseEvent)
    : option (list SseEvent * SseParser) :=
  match fuel with
  | O => None
  | S fuel =>
      match next_line p with
      | (None, p) => Some (events, p)
      | (Some (line, consumed), p) =>
          let '(ev, p) := process_line line p in
          let events := events ++ option_list ev in
          feed_loop fuel (set_buf (str_drop consumed (buf p)) p) events
      end
  end.

(** Every iteration consumes a byte, so that many are enough. *)
Definition feed (p : SseParser) (chunk : string) : option (list SseEvent * SseParser) :=
  let p := set_buf (buf p +:+ chunk) p in
  feed_loop (S (String.length (buf p))) p [].

Definition finish (p : SseParser) : option SseEvent * SseParser :=
  if str_is_empty (buf p) then dispatch p
  else
    let line := from_utf8_lossy (buf p) in
    match process_line line (set_buf "" p) with
    | (Some ev, p) => (Some ev, p)
    | (None, p) => dispatch p
    end.

Definition parse_all (text : string) : option (list SseEvent) :=
  '(events, p) ← feed parser_new text; Some (events ++ option_list (finish p).1).

(** * Line splitting, as the format defines it *)

(** The complete lines of [s], each ended by CR LF, LF or CR, and the rest. *)
Fixpoint lines_of (s : string) : list string * string :=
  match s with
  | EmptyString => ([], "")
  | String a s' =>
      if decide (a = LF) then let '(ls, r) := lines_of s' in ("" :: ls, r)
      else if decide (a = CR) then
        match s' with
        | String b s'' =>
            let '(ls, r) := if decide (b = LF) then lines_of s'' else lines_of s' in
            ("" :: ls, r)
        | EmptyString => ([""], "")
        end
      else
        match lines_of s' with
        | ([], r) => ([], String a r)
        | (l :: ls, r) => (String a l :: ls, r)
        end
  end.

(** Interpreting complete lines, one after the other. *)
Fixpoint run_lines (ls : list string) (p : SseParser) : list SseEvent * SseParser :=
  match ls with
  | [] => ([], p)
  | l :: ls =>
      let '(ev, p) := process_line (from_utf8_lossy l) p in
      let '(evs, p) := run_lines ls p in
      (option_list ev ++ evs, p)
  end.

(** What [feed] computes from a buffer whose start has been checked. *)
Definition feed_lines (p : SseParser) : list SseEvent * SseParser :=
  let '(ls, r) := lines_of (buf p) in
  let '(evs, q) := run_lines ls p in
  (evs, set_buf r q).

Fixpoint ends_cr (s : string) : bool :=
  match s with
  | EmptyString => false
  | String a EmptyString => bool_decide (a = CR)
  | String _ s => ends_cr s
  end.

(** * Lemmas *)

Lemma str_length_drop n s : String.length (str_drop n s) = (String.length s - n)%nat.
Proof. revert s. induction n as [|n IH]; intros [|a s]; simpl; auto. Qed.

Lemma str_drop_app_le n s t :
  (n ≤ String.length s)%nat → str_drop n (s +:+ t) = str_drop n s +:+ t.
Proof. revert s. induction n as [|n IH]; intros [|a s]; simpl; auto with lia. Qed.

Lemma set_buf_buf p : set_buf (buf p) p = p.
Proof. by destruct p. Qed.

(** Interpreting a line neither reads nor writes the buffer and the flags. *)
Lemma process_line_frame l p b c :
  process_line l (set_last_was_cr c (set_buf b p)) =
  ((process_line l p).1, set_last_was_cr c (set_buf b (process_line l p).2)).
Proof.
  unfold process_line, process_field, dispatch. destruct p; simpl.
  repeat case_match; done.
Qed.

Lemma process_line_preserves l p :
  buf (process_line l p).2 = buf p ∧ bom_checked (process_line l p).2 = bom_checked p ∧
  last_was_cr (process_line l p).2 = last_was_cr p.
Proof.
  unfold process_line, process_field, dispatch. destruct p; simpl.
  repeat case_match; simplify_eq/=; done.
Qed.

Lemma run_lines_frame ls p b c :
  run_lines ls (set_last_was_cr c (set_buf b p)) =
  ((run_lines ls p).1, set_last_was_cr c (set_buf b (run_lines ls p).2)).
Proof.
  revert p. induction ls as [|l ls IH]; intros p; cbn [run_lines]; [done|].
  rewrite process_line_frame. destruct (process_line _ p) as [ev q]; simpl.
  rewrite IH. by destruct (run_lines ls q).
Qed.

Lemma run_lines_preserves ls p :
  bom_checked (run_lines ls p).2 = bom_checked p ∧
  last_was_cr (run_lines ls p).2 = last_was_cr p.
Proof.
  revert p. induction ls as [|l ls IH]; intros p; cbn [run_lines]; [done|].
  pose proof (process_line_preserves (from_utf8_lossy l) p) as (_ & Hb & Hc).
  destruct (process_line _ p) as [ev q]. destruct (IH q) as [Hb' Hc'].
  destruct (run_lines ls q); simpl in *. by rewrite Hb', Hc'.
Qed.

Lemma run_lines_app ls1 ls2 p :
  run_lines (ls1 ++ ls2) p =
  let '(e1, p1) := run_lines ls1 p in let '(e2, p2) := run_lines ls2 p1 in (e1 ++ e2, p2).
Proof.
  revert p. induction ls1 as [|l ls1 IH]; intros p; cbn [run_lines app].
  - by destruct (run_lines ls2 p).
  - destruct (process_line _ p) as [ev q]. rewrite IH.
    destruct (run_lines ls1 q) as [e1 q1], (run_lines ls2 q1). by rewrite app_assoc.
Qed.

(** The scan finds the first line. *)
Lemma scan_lines i s :
  match scan i s with
  | None => lines_of s = ([], s)
  | Some (j, c, at_end) => ∃ n k, j = (i + n)%nat ∧ c = (i + k)%nat ∧
      (0 < k ≤ String.length s)%nat ∧
      lines_of s = (str_take n s :: (lines_of (str_drop k s)).1, (lines_of (str_drop k s)).2) ∧
      (at_end = true → str_drop k s = "")
  end.
Proof.
  revert i. induction s as [|a s IH]; intros i; [done|]. cbn [scan lines_of].
  destruct (decide (a = LF)) as [->|Hlf].
  { exists 0%nat, 1%nat. simpl. destruct (lines_of s). repeat split; try lia; done. }
  destruct (decide (a = CR)) as [->|Hcr].
  { destruct s as [|b s]; [exists 0%nat, 1%nat; simpl; repeat split; lia|].
    destruct (decide (b = LF)).
    - exists 0%nat, 2%nat. cbn [str_take str_drop String.length].
      destruct (lines_of s). repeat split; try lia; done.
    - exists 0%nat, 1%nat. cbn [str_take str_drop String.length].
      destruct (lines_of (String b s)). repeat split; try lia; done. }
  specialize (IH (S i)). destruct (scan (S i) s) as [[[j c] e]|].
  - destruct IH as (n & k & -> & -> & Hk & Hl & He). exists (S n), (S k).
    cbn [str_take str_drop String.length]. rewrite Hl. repeat split; try lia; done.
  - by rewrite IH.
Qed.

(** * The loop implements line splitting *)

Lemma skip_lf_idle p :
  (last_was_cr p = true → buf p = "") → skip_lf p = set_last_was_cr false p.
Proof.
  unfold skip_lf. destruct p as [b ? ? ? ? ? ? []]; simpl; [|done]. intros ->; done.
Qed.

Lemma feed_loop_spec fuel p evs :
  bom_checked p = true → (last_was_cr p = true → buf p = "") →
  (String.length (buf p) < fuel)%nat →
  feed_loop fuel p evs =
  Some (evs ++ (feed_lines p).1, set_last_was_cr false (feed_lines p).2).
Proof.
  revert p evs. induction fuel as [|fuel IH]; intros p evs Hbom Hcr Hlen; [lia|].
  cbn [feed_loop]. unfold next_line, check_bom. rewrite Hbom, skip_lf_idle by done.
  replace (buf (set_last_was_cr false p)) with (buf p) by done.
  unfold feed_lines. pose proof (scan_lines 0 (buf p)) as Hs.
  destruct (scan 0 (buf p)) as [[[j c] e]|]; cycle 1.
  { rewrite Hs; cbn [run_lines]. rewrite set_buf_buf. by rewrite app_nil_r. }
  destruct Hs as (n & k & -> & -> & Hk & Hl & He). simpl (0 + _)%nat in *.
  set (line := from_utf8_lossy (str_take n (buf p))).
  assert (Hp : (if e then set_last_was_cr true (set_last_was_cr false p)
                else set_last_was_cr false p) = set_last_was_cr e (set_buf (buf p) p))
    by (by destruct p, e). rewrite Hp, process_line_frame. clear Hp.
  rewrite Hl; cbn [run_lines]. fold line.
  pose proof (process_line_preserves line p) as (_ & Hb & _).
  destruct (process_line line p) as [ev q]; simpl in Hb |- *.
  rewrite IH; cycle 1.
  { simpl. congruence. } { simpl. auto. } { simpl. rewrite str_length_drop. lia. }
  unfold feed_lines. cbn [buf set_buf set_last_was_cr].
  destruct (lines_of (str_drop k (buf p))) as [ls r].
  change (set_buf (str_drop k (buf p)) (set_last_was_cr e (set_buf (buf p) q)))
    with (set_last_was_cr e (set_buf (str_drop k (buf p)) q)).
  rewrite run_lines_frame. destruct (run_lines ls q) as [evs' q'] eqn:E; simpl.
  rewrite E; simpl. by rewrite app_assoc.
Qed.

(** No complete line is in the rest. *)
Lemma lines_of_rest s : lines_of (lines_of s).2 = ([], (lines_of s).2).
Proof.
  remember (String.length s) as n eqn:Hn. revert s Hn.
  induction (lt_wf n) as [n _ IH]; intros [|a s] ->; [done|].
  assert (IHs := IH (String.length s) ltac:(simpl; lia) s eq_refl). cbn [lines_of].
  destruct (decide (a = LF)); [by destruct (lines_of s)|].
  destruct (decide (a = CR)).
  { destruct s as [|b s]; [done|]. destruct (decide (b = LF)); cycle 1.
    - by destruct (lines_of (String b s)).
    - pose proof (IH (String.length s) ltac:(simpl; lia) s eq_refl). by destruct (lines_of s). }
  destruct (lines_of s) as [[|l ls] r] eqn:Hl; simpl in *; [|done].
  rewrite !decide_False by done. by rewrite IHs.
Qed.

(** [feed] with the byte-order-mark check in front. *)
Definition feed_ref (p : SseParser) (chunk : string) : list SseEvent * SseParser :=
  let p := set_buf (buf p +:+ chunk) p in
  match check_bom p with None => ([], p) | Some p => feed_lines p end.

Lemma check_bom_Some p q :
  check_bom p = Some q →
  bom_checked q = true ∧ last_was_cr q = last_was_cr p ∧
  (String.length (buf q) ≤ String.length (buf p))%nat.
Proof.
  unfold check_bom. intros Hq. repeat case_match; simplify_eq; repeat split; try done;
    cbn [buf set_buf set_bom_checked]; rewrite ?str_length_drop; lia.
Qed.

Lemma feed_lines_flags p :
  bom_checked (feed_lines p).2 = bom_checked p ∧ last_was_cr (feed_lines p).2 = last_was_cr p.
Proof.
  unfold feed_lines. destruct (lines_of (buf p)) as [ls r].
  pose proof (run_lines_preserves ls p). by destruct (run_lines ls p).
Qed.

Lemma feed_ref_flag p chunk : last_was_cr p = false → last_was_cr (feed_ref p chunk).2 = false.
Proof.
  unfold feed_ref. intros Hcr. destruct (check_bom _) as [q|] eqn:Hq; [|done].
  destruct (check_bom_Some _ _ Hq) as (_ & Hc & _). by rewrite (proj2 (feed_lines_flags q)), Hc.
Qed.

Lemma feed_feed_ref p chunk :
  last_was_cr p = false → feed p chunk = Some (feed_ref p chunk).
Proof.
  intros Hcr. unfold feed, feed_ref. set (p' := set_buf _ p).
  change (buf p +:+ chunk) with (buf p'). 
  destruct (check_bom p') as [q|] eqn:Hq; cycle 1.
  { cbn [feed_loop]. unfold next_line. by rewrite Hq. }
  destruct (check_bom_Some _ _ Hq) as (Hbom & Hcr' & Hlen).
  change (last_was_cr p') with (last_was_cr p) in Hcr'. rewrite Hcr in Hcr'.
  transitivity (feed_loop (S (String.length (buf p'))) q []).
  { cbn [feed_loop]. unfold next_line. rewrite Hq.
    unfold check_bom at 1. by rewrite Hbom. }
  rewrite feed_loop_spec by (congruence || lia). f_equal.
  pose proof (feed_lines_flags q) as [_ Hc]. rewrite Hcr' in Hc.
  destruct (feed_lines q) as [evs r]; simpl in *. by destruct r; simpl in *; subst.
Qed.

(** * Chunking *)

Lemma ends_cr_tail a s : ends_cr (String a s) = false → ends_cr s = false.
Proof. by destruct s. Qed.

Lemma ends_cr_drop n s : ends_cr s = false → ends_cr (str_drop n s) = false.
Proof.
  revert s. induction n as [|n IH]; intros [|a s]; cbn [str_drop]; try done.
  intros Hs%ends_cr_tail. by apply IH.
Qed.

Lemma lines_of_nil s r : lines_of s = ([], r) → r = s.
Proof.
  revert r. induction s as [|a s IH]; intros r; cbn [lines_of]; [by intros [= <-]|].
  repeat case_match; intros; simplify_eq; try done. f_equal. by apply IH.
Qed.

(** Splitting a text chunk by chunk gives its lines, unless a chunk ends with
    a carriage return. *)
Lemma lines_of_app a b :
  ends_cr a = false →
  lines_of (a +:+ b) =
  let '(la, ra) := lines_of a in let '(lb, rb) := lines_of (ra +:+ b) in (la ++ lb, rb).
Proof.
  remember (String.length a) as n eqn:Hn. revert a Hn.
  induction (lt_wf n) as [n _ IH]; intros [|x a] -> Ha; [simpl; by destruct (lines_of b)|].
  pose proof (ends_cr_tail _ _ Ha) as Ha'.
  assert (IHa := IH (String.length a) ltac:(simpl; lia) a eq_refl Ha').
  change (String x a +:+ b) with (String x (a +:+ b)). cbn [lines_of].
  destruct (decide (x = LF)).
  { rewrite IHa. destruct (lines_of a) as [la ra]. by destruct (lines_of (ra +:+ b)). }
  destruct (decide (x = CR)).
  { destruct a as [|y a]; [by subst|].
    change (String y a +:+ b) with (String y (a +:+ b)) in *. rewrite IHa.
    destruct (decide (y = LF)).
    - rewrite (IH (String.length a)) by (first [simpl; lia|done|by eapply ends_cr_tail]).
      destruct (lines_of a) as [la ra]. by destruct (lines_of (ra +:+ b)).
    - destruct (lines_of (String y a)) as [la ra]. by destruct (lines_of (ra +:+ b)). }
  destruct (lines_of a) as [[|l la] ra] eqn:Hl.
  - apply lines_of_nil in Hl as ->.
    change (String x a +:+ b) with (String x (a +:+ b)). cbn [lines_of].
    rewrite !decide_False by done. by destruct (lines_of (a +:+ b)) as [[] ].
  - rewrite IHa. by destruct (lines_of (ra +:+ b)).
Qed.

Lemma run_lines_buf ls p b : run_lines ls (set_buf b p) =
  ((run_lines ls p).1, set_buf b (run_lines ls p).2).
Proof.
  pose proof (run_lines_frame ls p b (last_was_cr p)) as Hf.
  pose proof (run_lines_preserves ls p) as [_ Hc].
  replace (set_last_was_cr (last_was_cr p) (set_buf b p)) with (set_buf b p) in Hf
    by (by destruct p).
  rewrite Hf. f_equal. rewrite <-Hc. by destruct (run_lines ls p).2.
Qed.

Lemma feed_lines_app p b :
  ends_cr (buf p) = false →
  feed_lines (set_buf (buf p +:+ b) p) =
  let '(e1, p1) := feed_lines p in
  let '(e2, p2) := feed_lines (set_buf (buf p1 +:+ b) p1) in (e1 ++ e2, p2).
Proof.
  intros Hcr. unfold feed_lines. cbn [buf set_buf]. rewrite lines_of_app by done.
  destruct (lines_of (buf p)) as [la ra]. destruct (run_lines la p) as [e1 p1] eqn:E1.
  cbn [buf set_buf]. destruct (lines_of (ra +:+ b)) as [lb rb].
  change (set_buf (ra +:+ b) (set_buf ra p1)) with (set_buf (ra +:+ b) p1).
  rewrite !run_lines_buf, run_lines_app, E1. by destruct (run_lines lb p1).
Qed.

Lemma starts_with_app p s t :
  (String.length p ≤ String.length s)%nat → starts_with p (s +:+ t) = starts_with p s.
Proof.
  unfold starts_with. revert s. induction p as [|a p IH]; intros [|b s]; cbn; try done; [lia|].
  intros Hl. case_decide; [|done]. apply IH. lia.
Qed.

Lemma starts_with_trans p q s :
  starts_with p q = true → starts_with q s = true → starts_with p s = true.
Proof.
  unfold starts_with. destruct (strip_prefix p q) as [r|] eqn:E1; [|done].
  destruct (strip_prefix q s) as [r'|] eqn:E2; [|done]. intros _ _.
  apply strip_prefix_Some in E1 as ->, E2 as ->. by rewrite <-str_app_assoc, strip_prefix_app.
Qed.

(** A decided byte order mark stays decided when more bytes follow. *)
Lemma check_bom_app p q b :
  check_bom p = Some q →
  check_bom (set_buf (buf p +:+ b) p) = Some (set_buf (buf q +:+ b) q).
Proof.
  unfold check_bom. cbn [buf bom_checked set_buf]. destruct (bom_checked p); [by intros [= <-]|].
  destruct (Nat.ltb_spec (String.length (buf p)) 3) as [Hs|Hs].
  - destruct (str_is_empty (buf p)) eqn:He; [done|].
    assert (1 ≤ String.length (buf p))%nat by (destruct (buf p); simpl in *; [done|lia]).
    destruct (starts_with BOM1 (buf p)) eqn:H1; [done|]. intros [= <-].
    rewrite (starts_with_app BOM1), H1 by done. cbn [negb andb].
    assert (str_is_empty (buf p +:+ b) = false) as -> by (by destruct (buf p)).
    destruct (Nat.ltb_spec (String.length (buf p +:+ b)) 3); [done|].
    cbn [buf set_buf set_bom_checked].
    destruct (starts_with BOM (buf p +:+ b)) eqn:H2; [|done]. exfalso.
    rewrite <-not_true_iff_false in H1. apply H1.
    rewrite <-(starts_with_app BOM1 (buf p) b) by done.
    by eapply (starts_with_trans BOM1 BOM).
  - intros [= <-]. rewrite str_length_app.
    destruct (Nat.ltb_spec (String.length (buf p) + String.length b) 3); [lia|].
    cbn [buf set_buf set_bom_checked]. rewrite (starts_with_app BOM) by done.
    destruct (starts_with BOM (buf p)); [|done]. by rewrite str_drop_app_le.
Qed.

Lemma check_bom_ends_cr p q :
  check_bom p = Some q → ends_cr (buf p) = false → ends_cr (buf q) = false.
Proof.
  unfold check_bom. intros Hq. repeat case_match; simplify_eq; try done.
  apply (ends_cr_drop 3).
Qed.

Lemma feed_ref_app p a b :
  ends_cr (buf p +:+ a) = false →
  feed_ref p (a +:+ b) =
  let '(e1, p1) := feed_ref p a in let '(e2, p2) := feed_ref p1 b in (e1 ++ e2, p2).
Proof.
  intros Hcr. unfold feed_ref. rewrite str_app_assoc.
  set (pa := set_buf (buf p +:+ a) p).
  change (set_buf ((buf p +:+ a) +:+ b) p) with (set_buf (buf pa +:+ b) pa).
  destruct (check_bom pa) as [q|] eqn:Hq; cycle 1.
  { cbn [app]. by destruct (check_bom (set_buf (buf pa +:+ b) pa)) as [r|];
      [destruct (feed_lines r)|]. }
  rewrite (check_bom_app _ _ _ Hq). rewrite feed_lines_app by (by eapply check_bom_ends_cr).
  pose proof (feed_lines_flags q) as [Hb _]. destruct (check_bom_Some _ _ Hq) as [Hb' _].
  destruct (feed_lines q) as [e1 p1]; simpl in Hb.
  unfold check_bom. cbn [bom_checked set_buf]. by rewrite Hb, Hb'.
Qed.

(** * The wire format *)

Definition no_eol (s : string) : Prop := contains_char LF s = false ∧ contains_char CR s = false.

(** The fields the format can carry: no line terminator in a one-line field,
    no NUL in an id, no carriage return in the data. *)
Definition wire_safe (ev : SseEvent) : Prop :=
  (∀ e, ev_event ev = Some e → utf8 e ∧ no_eol e) ∧
  (∀ i, ev_id ev = Some i → utf8 i ∧ no_eol i ∧ contains_char NUL i = false) ∧
  (∀ r, ev_retry ev = Some r → 0 ≤ r ≤ u64_max)%Z ∧
  utf8 (ev_data ev) ∧ contains_char CR (ev_data ev) = false.

(** The fields [to_wire] writes, in order. *)
Definition wire_fields (ev : SseEvent) : list (string * string) :=
  option_list (pair "event" <$> ev_event ev) ++ option_list (pair "id" <$> ev_id ev) ++
  option_list ((λ r : Z, ("retry", pretty r)) <$> ev_retry ev) ++
  (pair "data" <$> split_on LF (ev_data ev)).

Fixpoint write_fields (fs : list (string * string)) : string :=
  match fs with
  | [] => newline
  | (f, v) :: fs => (f +:+ ": " +:+ v) +:+ newline +:+ write_fields fs
  end.

Lemma write_fields_app fs gs s :
  write_fields gs = s →
  write_fields (fs ++ gs) = String.concat "" ((λ fv, wire_line fv.1 fv.2) <$> fs) +:+ s.
Proof.
  intros <-. induction fs as [|[f v] fs IH]; [done|]. cbn [app write_fields fmap list_fmap].
  rewrite IH. destruct fs as [|g fs]; cbn [fmap list_fmap String.concat];
    unfold wire_line; by rewrite <-!str_app_assoc.
Qed.

Lemma to_wire_fields ev : to_wire ev = write_fields (wire_fields ev).
Proof.
  unfold to_wire, wire_fields.
  rewrite (write_fields_app (option_list (pair "event" <$> ev_event ev)) _ _ eq_refl).
  rewrite (write_fields_app (option_list (pair "id" <$> ev_id ev)) _ _ eq_refl).
  rewrite (write_fields_app (option_list (_ <$> ev_retry ev)) _ _ eq_refl).
  rewrite <-(app_nil_r (pair "data" <$> _)), (write_fields_app _ [] newline eq_refl).
  rewrite <-list_fmap_compose.
  by destruct (ev_event ev), (ev_id ev), (ev_retry ev).
Qed.

Lemma lines_of_line l s :
  no_eol l → lines_of (l +:+ newline +:+ s) = (l :: (lines_of s).1, (lines_of s).2).
Proof.
  intros [Hl Hc]. induction l as [|a l IH]; simpl in *; [by destruct (lines_of s)|].
  apply orb_false_iff in Hl as [Ha%bool_decide_eq_false Hl],
    Hc as [Hc%bool_decide_eq_false Hc'].
  rewrite !decide_False by done. by rewrite IH.
Qed.

(** Field names of the format. *)
Definition field_name (f : string) : Prop := f ∈ ["event"; "id"; "retry"; "data"].

#[export] Instance field_name_dec f : Decision (field_name f).
Proof. unfold field_name. apply _. Defined.

Lemma field_name_safe f v :
  field_name f → no_eol v → utf8 v → no_eol (f +:+ ": " +:+ v) ∧ utf8 (f +:+ ": " +:+ v).
Proof.
  intros Hf [Hl Hc] Hu. unfold no_eol. rewrite !contains_char_app, Hl, Hc.
  unfold field_name in Hf. set_unfold in Hf.
  repeat (destruct Hf as [->|Hf]; [split; [done|]; simpl; by repeat apply utf8_1|]). done.
Qed.

Lemma process_line_field f v p :
  field_name f → process_line (f +:+ ": " +:+ v) p = (None, process_field f v p).
Proof.
  unfold field_name. intros Hf. set_unfold in Hf.
  repeat (destruct Hf as [->|Hf]; [done|]). done.
Qed.

Lemma run_fields fs p :
  Forall (λ fv, field_name fv.1 ∧ no_eol fv.2 ∧ utf8 fv.2) fs →
  lines_of (write_fields fs) = (((λ fv, fv.1 +:+ ": " +:+ fv.2) <$> fs) ++ [""], "") ∧
  run_lines ((λ fv, fv.1 +:+ ": " +:+ fv.2) <$> fs) p =
    ([], foldl (λ q fv, process_field fv.1 fv.2 q) p fs).
Proof.
  revert p. induction fs as [|[f v] fs IH]; intros p Hfs; [done|].
  apply Forall_cons in Hfs as [(Hf & Hv & Hu) Hfs]. simpl in Hf, Hv, Hu.
  destruct (field_name_safe f v Hf Hv Hu) as [Hl Hlu].
  cbn [write_fields fmap list_fmap fst snd]. split.
  - rewrite lines_of_line by done. by rewrite (proj1 (IH p Hfs)).
  - cbn [run_lines foldl fst snd]. rewrite from_utf8_lossy_utf8, process_line_field by done.
    by rewrite (proj2 (IH _ Hfs)).
Qed.

Lemma contains_char_split c d s :
  contains_char c s = false → Forall (λ x, contains_char c x = false) (split_on d s).
Proof.
  induction s as [|a s IH]; simpl; [by repeat constructor|].
  intros [Ha Hs]%orb_false_iff. specialize (IH Hs). pose proof (split_on_nonempty d s).
  destruct (decide (a = d)); [by constructor|]. destruct (split_on d s); [done|].
  apply Forall_cons in IH as [Hx Hxs]. constructor; [|done]. simpl. by rewrite Ha, Hx.
Qed.

Lemma pretty_safe (z : Z) : no_eol (pretty z) ∧ utf8 (pretty z).
Proof. split; [split; by apply pretty_no_char|apply pretty_utf8]. Qed.

Ltac name := apply (bool_decide_unpack (field_name _)); vm_compute; exact I.

Lemma wire_fields_safe ev :
  wire_safe ev → Forall (λ fv, field_name fv.1 ∧ no_eol fv.2 ∧ utf8 fv.2) (wire_fields ev).
Proof.
  intros (He & Hi & Hr & Hu & Hc). unfold wire_fields.
  rewrite !Forall_app. repeat split.
  - destruct (ev_event ev) as [e|]; simpl; [|done]. destruct (He e eq_refl).
    apply Forall_singleton; split; [name|by split].
  - destruct (ev_id ev) as [i|]; simpl; [|done]. destruct (Hi i eq_refl) as (? & ? & ?).
    apply Forall_singleton; split; [name|by split].
  - destruct (ev_retry ev) as [r|]; simpl; [|done].
    destruct (pretty_safe r). apply Forall_singleton; split; [name|by split].
  - apply Forall_fmap. pose proof (split_on_no_sep LF (ev_data ev)) as H1.
    pose proof (contains_char_split CR LF _ Hc) as H2.
    pose proof (utf8_split_on LF (ev_data ev) eq_refl Hu) as H3.
    rewrite Forall_forall in H1, H2, H3 |- *. intros x Hx. simpl.
    split; [name|]. split; [|by apply H3]. by split; [apply H1|apply H2].
Qed.

Lemma check_bom_field f v fs :
  field_name f →
  check_bom (set_buf (write_fields ((f, v) :: fs)) parser_new) =
  Some (set_bom_checked true (set_buf (write_fields ((f, v) :: fs)) parser_new)).
Proof.
  unfold field_name. intros Hf. set_unfold in Hf.
  repeat (destruct Hf as [->|Hf]; [done|]). done.
Qed.

Lemma foldl_data ls p :
  foldl (λ q fv, process_field fv.1 fv.2 q) p (pair "data" <$> ls) =
  match ls with [] => p | _ => set_data (data p ++ ls) true p end.
Proof.
  revert p. induction ls as [|l ls IH]; intros p; [done|].
  cbn [fmap list_fmap foldl fst snd]. rewrite IH.
  unfold process_field. decide_literals. destruct p; cbn [set_data data].
  destruct ls; [done|]. by rewrite <-app_assoc.
Qed.

(** The one-line fields, present or not. *)
Lemma foldl_event o p :
  event_type p = None →
  foldl (λ q fv, process_field fv.1 fv.2 q) p (option_list (pair "event" <$> o)) =
  set_event_type o p.
Proof. destruct o, p; simpl; intros; by subst. Qed.

Lemma foldl_id o p :
  id p = None → (∀ i, o = Some i → contains_char NUL i = false) →
  foldl (λ q fv, process_field fv.1 fv.2 q) p (option_list (pair "id" <$> o)) = set_id o p.
Proof.
  destruct o as [i|], p; unfold option_list; cbn [option_rect fmap option_fmap option_map foldl fst snd];
    intros Hp Hi; simpl in Hp; subst; [|done].
  unfold process_field. decide_literals. by rewrite Hi.
Qed.

Lemma foldl_retry o p :
  retry p = None → (∀ r, o = Some r → 0 ≤ r ≤ u64_max)%Z →
  foldl (λ q fv, process_field fv.1 fv.2 q) p
    (option_list ((λ r : Z, ("retry", pretty r)) <$> o)) = set_retry o p.
Proof.
  destruct o as [r|], p; unfold option_list; cbn [option_rect fmap option_fmap option_map foldl fst snd];
    intros Hp Hr; simpl in Hp; subst; [|done].
  unfold process_field. decide_literals. unfold parse_u64.
  by rewrite (parse_unsigned_pretty u64_max r (Hr r eq_refl)).
Qed.

(** The parser state the fields of an event build up. *)
Lemma foldl_wire_fields ev p :
  wire_safe ev → event_type p = None → data p = [] → id p = None → retry p = None →
  foldl (λ q fv, process_field fv.1 fv.2 q) p (wire_fields ev) =
  set_data (split_on LF (ev_data ev)) true
    (set_retry (ev_retry ev) (set_id (ev_id ev) (set_event_type (ev_event ev) p))).
Proof.
  intros (_ & Hi & Hr & _) He Hd Hid Hre. unfold wire_fields. rewrite !foldl_app.
  rewrite foldl_event, foldl_id, foldl_retry, foldl_data; try done; [|naive_solver].
  pose proof (split_on_nonempty LF (ev_data ev)).
  destruct (split_on LF (ev_data ev)) as [|l ls]; [done|].
  destruct p; simpl in *; by subst.
Qed.

Lemma parse_wire ev :
  wire_safe ev →
  ∃ q, feed_ref parser_new (to_wire ev) = ([ev], q) ∧ buf q = "" ∧ saw_data_field q = false.
Proof.
  intros Hev. unfold feed_ref.
  change (buf parser_new +:+ to_wire ev) with (to_wire ev). rewrite to_wire_fields.
  pose proof (wire_fields_safe ev Hev) as Hs.
  assert (check_bom (set_buf (write_fields (wire_fields ev)) parser_new) =
    Some (set_bom_checked true (set_buf (write_fields (wire_fields ev)) parser_new))) as ->.
  { destruct (wire_fields ev) as [|[f v] fs] eqn:Hfs.
    - exfalso. revert Hfs. unfold wire_fields. pose proof (split_on_nonempty LF (ev_data ev)).
      destruct (split_on LF (ev_data ev)); [done|]. by destruct (ev_event ev), (ev_id ev), (ev_retry ev).
    - apply check_bom_field. by apply Forall_cons in Hs as [[??] ?]. }
  set (p := set_bom_checked true _). unfold feed_lines.
  change (buf p) with (write_fields (wire_fields ev)).
  destruct (run_fields (wire_fields ev) p Hs) as [-> Hr].
  rewrite run_lines_app, Hr, foldl_wire_fields by done.
  eexists. split; [cbn; f_equal|done].
  destruct ev as [e d i r]; simpl. repeat f_equal. apply (join_split_on LF).
Qed.

(** * Properties *)



(** Events do not depend on how the network cuts the stream, as long as no
    chunk ends with a carriage return: feeding two chunks gives the events and
    the state of feeding their concatenation. *)
Theorem feed_chunks p a b :
  last_was_cr p = false → ends_cr (buf p +:+ a) = false →
  feed p (a +:+ b) =
  '(e1, p1) ← feed p a; '(e2, p2) ← feed p1 b; Some (e1 ++ e2, p2).
Proof.
  intros Hcr Ha. rewrite !feed_feed_ref by done. rewrite feed_ref_app by done. simpl.
  pose proof (feed_ref_flag p a Hcr). destruct (feed_ref p a) as [e1 p1].
  rewrite feed_feed_ref by done. simpl. by destruct (feed_ref p1 b).
Qed.

Lemma feed_chunks_witness :
  ∃ q, feed parser_new (("data: a" +:+ newline +:+ "da") +:+ ("ta: b" +:+ newline +:+ newline)) =
    Some ([data_event ("a" +:+ newline +:+ "b")], q).
Proof.
  rewrite (feed_chunks parser_new ("data: a" +:+ newline +:+ "da")
    ("ta: b" +:+ newline +:+ newline) eq_refl eq_refl).
  eexists. vm_compute. reflexivity.
Defined.

(** A carriage return at the end of a chunk breaks this: the line feed that
    completes it is taken for an empty line, and the event is dispatched
    before its second data line arrives. *)
Theorem split_crlf_dispatches_early :
  let text1 := "data: a" +:+ String CR "" in
  let text2 := newline +:+ "data: b" +:+ String CR newline +:+ String CR newline in
  ('(e1, p1) ← feed parser_new text1; '(e2, p2) ← feed p1 text2; Some (e1 ++ e2)) =
    Some [data_event "a"; data_event "b"] ∧
  parse_all (text1 +:+ text2) = Some [data_event ("a" +:+ newline +:+ "b")].
Proof. by vm_compute. Qed.

(** C37: What [to_wire] writes is parsed back to the event, for every event whose
    fields the format can carry. *)
Theorem wire_roundtrip ev : wire_safe ev → parse_all (to_wire ev) = Some [ev].
Proof.
  intros Hev. unfold parse_all. rewrite feed_feed_ref by done.
  destruct (parse_wire ev Hev) as (q & -> & Hb & Hs). simpl.
  unfold finish, dispatch. by rewrite Hb, Hs.
Qed.

Lemma wire_roundtrip_witness :
  let ev := with_id (typed "status" ("line1" +:+ newline +:+ "line2")) "9" in
  wire_safe ev ∧ parse_all (to_wire ev) = Some [ev].
Proof.
  assert (Hev : wire_safe (with_id (typed "status" ("line1" +:+ newline +:+ "line2")) "9")).
  { unfold wire_safe, no_eol. simpl. split_and!; intros; simplify_eq; try done;
      repeat split; repeat (apply utf8_1; [done|]); apply utf8_nil. }
  split; [done|]. apply wire_roundtrip. done.
Defined.

(** Feeding chunk after chunk. *)
Fixpoint feed_all (p : SseParser) (chunks : list string) : option (list SseEvent * SseParser) :=
  match chunks with
  | [] => Some ([], p)
  | chunk :: chunks => '(e1, p) ← feed p chunk; '(e2, p) ← feed_all p chunks; Some (e1 ++ e2, p)
  end.

(** Data that the format carries. *)
Definition data_ok (d : string) : Prop := utf8 d ∧ contains_char CR d = false.

(** Between two events: nothing is pending. *)
Record idle (p : SseParser) : Prop := {
  idle_buf : buf p = "";
  idle_fields : event_type p = None ∧ data p = [] ∧ id p = None ∧ retry p = None ∧ saw_data_field p = false;
  idle_cr : last_was_cr p = false
}.
Lemma idle_new : idle parser_new.
Proof. by split. Qed.

Lemma data_wire_safe d : data_ok d → wire_safe (data_event d).
Proof. intros [Hu Hc]. unfold wire_safe, data_event. cbn. split_and!; try done. Qed.

Lemma idle_check_bom p w :
  idle p → (∃ f v fs, field_name f ∧ w = write_fields ((f, v) :: fs)) →
  check_bom (set_buf (buf p +:+ w) p) = Some (set_bom_checked true (set_buf w p)).
Proof.
  intros [Hb (He & Hd & Hi & Hr & Hs) Hc] (f & v & fs & Hf & ->). rewrite Hb.
  destruct p as [b e d i r sd bc lc]; cbn in *; subst. destruct bc; [done|].
  apply (check_bom_field f v fs Hf).
Qed.

(** One event. *)
Lemma feed_data_event p d :
  idle p → data_ok d → ∃ q, feed_ref p (to_wire (data_event d)) = ([data_event d], q) ∧ idle q.
Proof.
  intros Hp Hd. pose proof (data_wire_safe d Hd) as Hw. pose proof (wire_fields_safe _ Hw) as Hs.
  unfold feed_ref. rewrite to_wire_fields.
  assert (∃ f v fs, field_name f ∧ write_fields (wire_fields (data_event d)) = write_fields ((f, v) :: fs)) as Hf.
  { unfold wire_fields in *. cbn in *. pose proof (split_on_nonempty LF d). destruct (split_on LF d) as [|l ls]; [done|].
    cbn in *. apply Forall_cons in Hs as [[Hf _] _]. by exists "data", l, (pair "data" <$> ls). }
  rewrite (idle_check_bom p _ Hp Hf). destruct Hp as [Hb (He & Hda & Hi & Hr & Hsa) Hc].
  set (p' := set_bom_checked true _). unfold feed_lines. change (buf p') with (write_fields (wire_fields (data_event d))).
  destruct (run_fields (wire_fields (data_event d)) p' Hs) as [-> Hrun].
  rewrite run_lines_app, Hrun, foldl_wire_fields by done. eexists. split.
  - cbn. unfold data_event. by rewrite (join_split_on LF).
  - by split.
Qed.

(** No carriage return is written. *)
Lemma concat_no_char c (l : list string) :
  Forall (λ s, contains_char c s = false) l → contains_char c (String.concat "" l) = false.
Proof.
  induction 1 as [|x l Hx Hl IH]; [done|]. destruct l as [|y l]; [done|].
  change (String.concat "" (x :: y :: l)) with (x +:+ "" +:+ String.concat "" (y :: l)).
  by rewrite !contains_char_app, Hx, IH.
Qed.
Lemma wire_no_cr d : data_ok d → contains_char CR (to_wire (data_event d)) = false.
Proof.
  intros [_ Hd]. unfold to_wire. cbn [data_event ev_event ev_id ev_retry ev_data from_option].
  rewrite !contains_char_app. cbn [contains_char orb]. rewrite orb_false_r. apply concat_no_char.
  apply Forall_fmap. eapply Forall_impl; [by apply contains_char_split|]. intros x Hx. cbn.
  unfold wire_line. rewrite !contains_char_app, Hx. done.
Qed.
Lemma no_cr_ends s : contains_char CR s = false → ends_cr s = false.
Proof.
  induction s as [|a s IH]; [done|]. cbn [contains_char]. intros [Ha Hs]%orb_false_iff.
  destruct s; [exact Ha|]. by apply IH.
Qed.

(** Event after event. *)
Definition wire_of (ds : list string) : string := String.concat "" ((λ d, to_wire (data_event d)) <$> ds).

Lemma concat_cons x (l : list string) : String.concat "" (x :: l) = x +:+ String.concat "" l.
Proof. destruct l; cbn; [by rewrite str_app_nil_r|done]. Qed.

Lemma feed_idle p : idle p → feed_ref p "" = ([], p).
Proof.
  intros [Hb (He & Hd & Hi & Hr & Hs) Hc]. unfold feed_ref. rewrite Hb. cbn.
  destruct p as [b e d i r sd bc lc]; cbn in *; subst. by destruct bc.
Qed.
Lemma feed_data_events p ds :
  idle p → Forall data_ok ds → ∃ q, feed_ref p (wire_of ds) = (data_event <$> ds, q) ∧ idle q.
Proof.
  intros Hp Hds. revert p Hp. induction Hds as [|d ds Hd Hds IH]; intros p Hp.
  - exists p. split; [by apply feed_idle|done].
  - destruct (feed_data_event p d Hp Hd) as (q & Hq & Hqi). destruct (IH q Hqi) as (r & Hr & Hri).
    exists r. split; [|done]. unfold wire_of. cbn [fmap list_fmap]. rewrite concat_cons. fold (wire_of ds).
    rewrite feed_ref_app, Hq; [by rewrite Hr|]. rewrite (idle_buf p Hp). apply no_cr_ends. by apply wire_no_cr.
Qed.

(** ** Cut into chunks *)

Lemma lines_of_char c s : contains_char c s = false → contains_char c (lines_of s).2 = false.
Proof.
  remember (String.length s) as n eqn:Hn. revert s Hn.
  induction (lt_wf n) as [n _ IH]; intros [|a s] -> Hs; [done|].
  cbn [contains_char] in Hs. apply orb_false_iff in Hs as [Ha Hs].
  pose proof (IH (String.length s) ltac:(simpl; lia) s eq_refl Hs) as IHs. cbn [lines_of].
  destruct (decide (a = LF)); [by destruct (lines_of s)|].
  destruct (decide (a = CR)).
  { destruct s as [|b s]; [done|]. pose proof Hs as [_ Hs']%orb_false_iff.
    destruct (decide (b = LF)); [|by destruct (lines_of (String b s))].
    pose proof (IH (String.length s) ltac:(simpl; lia) s eq_refl Hs'). by destruct (lines_of s). }
  destruct (lines_of s) as [[|l ls] r]; cbn in *; by rewrite ?Ha, ?IHs.
Qed.
Lemma str_drop_char c n s : contains_char c s = false → contains_char c (str_drop n s) = false.
Proof.
  revert s. induction n as [|n IH]; intros [|a s]; cbn [str_drop contains_char]; try done.
  intros [_ Hs]%orb_false_iff. by apply IH.
Qed.
Lemma feed_ref_char c p chunk :
  contains_char c (buf p +:+ chunk) = false → contains_char c (buf (feed_ref p chunk).2) = false.
Proof.
  intros Hc. unfold feed_ref. destruct (check_bom _) as [q|] eqn:Hq; [|exact Hc].
  assert (contains_char c (buf q) = false) as Hcq.
  { unfold check_bom in Hq. repeat case_match; simplify_eq; try exact Hc. by apply str_drop_char. }
  unfold feed_lines. pose proof (lines_of_char c (buf q) Hcq). destruct (lines_of (buf q)) as [ls r]. by destruct (run_lines ls q).
Qed.

Lemma feed_all_ref c cs p :
  last_was_cr p = false → contains_char CR (buf p +:+ String.concat "" (c :: cs)) = false →
  feed_all p (c :: cs) = Some (feed_ref p (String.concat "" (c :: cs))).
Proof.
  revert c p. induction cs as [|c' cs IH]; intros c p Hp Hc.
  - cbn [feed_all]. rewrite feed_feed_ref by done. cbn. destruct (feed_ref p c). by rewrite app_nil_r.
  - rewrite concat_cons in Hc |- *. rewrite str_app_assoc, contains_char_app in Hc. apply orb_false_iff in Hc as [H1 H2].
    change (feed_all p (c :: c' :: cs)) with
      ('(e1, p) ← feed p c; '(e2, p) ← feed_all p (c' :: cs); Some (e1 ++ e2, p)).
    rewrite feed_feed_ref by done. rewrite feed_ref_app by (by apply no_cr_ends).
    pose proof (feed_ref_flag p c Hp) as Hq. pose proof (feed_ref_char CR p c H1) as Hb.
    destruct (feed_ref p c) as [e1 q]. cbn [mbind option_bind]. cbn [snd] in *.
    rewrite IH; [|done|by rewrite contains_char_app, Hb, H2]. cbn. by destruct (feed_ref q _).
Qed.

(** What is written event by event is heard event by event, wherever the
    network cuts it. *)
Lemma feed_all_events p ds chunks :
  idle p → Forall data_ok ds → String.concat "" chunks = wire_of ds →
  ∃ q, feed_all p chunks = Some (data_event <$> ds, q) ∧ idle q.
Proof.
  intros Hp Hds Hc. assert (contains_char CR (wire_of ds) = false) as Hcr.
  { apply concat_no_char, Forall_fmap. eapply Forall_impl; [exact Hds|]. apply wire_no_cr. }
  destruct (feed_data_events p ds Hp Hds) as (q & Hq & Hqi). destruct chunks as [|c cs].
  - cbn in Hc. rewrite <-Hc in Hq. rewrite (feed_idle p Hp) in Hq. injection Hq as Hq1 Hq2. subst q.
    exists p. cbn. by rewrite <-Hq1.
  - exists q. rewrite feed_all_ref; [by rewrite Hc, Hq|apply Hp|]. rewrite (idle_buf p Hp), Hc. exact Hcr.
Qed.
