(* ===== verification/JsonRpc.v ===== *)
(** The JSON-RPC 2.0 message model: rust/ap-jsonrpc/src/lib.rs.

    Messages, their conversion to JSON values and the classification of
    incoming values are translated from the source.  What serde_json does (its
    text parser and printer, and the decoders derived from the struct
    declarations) is an interface, [SerdeJson]: the derived decoders come with
    their documented behaviour on objects, the text parser with none. *)
From S2P Require Import Prelude F64 RustMap RustStr Json.

Definition JSONRPC_VERSION : string := "2.0".

(** [mod error_codes]. *)
Definition PARSE_ERROR : Z := -32700.
Definition INVALID_REQUEST : Z := -32600.
Definition METHOD_NOT_FOUND : Z := -32601.
Definition INVALID_PARAMS : Z := -32602.
Definition INTERNAL_ERROR : Z := -32603.
Definition SERVER_ERROR : Z := -32000.

(** * Request ids *)

Inductive RequestId := Number (n : Z) | Str (s : string).

#[export] Instance RequestId_eq_dec : EqDecision RequestId.
Proof. solve_decision. Defined.

Definition value_of_id (id : RequestId) : Value :=
  match id with Number n => value_of_i64 n | Str s => JString s end.

Definition as_key (id : RequestId) : string :=
  match id with Number n => pretty n | Str s => s end.

Definition id_from_value (v : Value) : option RequestId :=
  match v with
  | JNumber _ => Number <$> as_i64 v
  | JString s => Some (Str s)
  | _ => None
  end.

(** * The error object *)

Record RpcError := { code : Z; message : string; err_data : option Value }.

Definition error_to_value (e : RpcError) : Value :=
  JObject ([("code", value_of_i64 (code e)); ("message", JString (message e))] ++
           option_list (pair "data" <$> err_data e)).

Definition rpc_error (c : Z) (m : string) : RpcError :=
  {| code := c; message := m; err_data := None |}.
Definition with_data (e : RpcError) (d : Value) : RpcError :=
  {| code := code e; message := message e; err_data := Some d |}.
Definition parse_error : string → RpcError := rpc_error PARSE_ERROR.
Definition invalid_request : string → RpcError := rpc_error INVALID_REQUEST.
Definition method_not_found (method : string) : RpcError :=
  rpc_error METHOD_NOT_FOUND ("Method not found: " +:+ method).
Definition invalid_params : string → RpcError := rpc_error INVALID_PARAMS.
Definition internal_error : string → RpcError := rpc_error INTERNAL_ERROR.
Definition server_error : string → RpcError := rpc_error SERVER_ERROR.

Definition is_standard_code (e : RpcError) : bool :=
  bool_decide (code e ∈ [PARSE_ERROR; INVALID_REQUEST; METHOD_NOT_FOUND; INVALID_PARAMS;
                         INTERNAL_ERROR]).

(** * Messages *)

Record Request := {
  req_jsonrpc : string; req_id : RequestId; req_method : string; req_params : option Value
}.
Record Notification := {
  not_jsonrpc : string; not_method : string; not_params : option Value
}.
Record Response := {
  res_jsonrpc : string; res_id : option RequestId;
  res_result : option Value; res_error : option RpcError
}.

Definition request_new (id : RequestId) (method : string) (params : option Value) : Request :=
  {| req_jsonrpc := JSONRPC_VERSION; req_id := id; req_method := method; req_params := params |}.
Definition notification_new (method : string) (params : option Value) : Notification :=
  {| not_jsonrpc := JSONRPC_VERSION; not_method := method; not_params := params |}.
Definition success (id : RequestId) (res : Value) : Response :=
  {| res_jsonrpc := JSONRPC_VERSION; res_id := Some id; res_result := Some res;
     res_error := None |}.
Definition error (id : option RequestId) (e : RpcError) : Response :=
  {| res_jsonrpc := JSONRPC_VERSION; res_id := id; res_result := None; res_error := Some e |}.

Definition request_to_value (r : Request) : Value :=
  JObject ([("jsonrpc", JString (req_jsonrpc r)); ("id", value_of_id (req_id r));
            ("method", JString (req_method r))] ++
           option_list (pair "params" <$> req_params r)).
Definition notification_to_value (n : Notification) : Value :=
  JObject ([("jsonrpc", JString (not_jsonrpc n)); ("method", JString (not_method n))] ++
           option_list (pair "params" <$> not_params n)).
Definition response_to_value (r : Response) : Value :=
  JObject ([("jsonrpc", JString (res_jsonrpc r));
            ("id", from_option value_of_id JNull (res_id r))] ++
           option_list (pair "result" <$> res_result r) ++
           option_list (pair "error" ∘ error_to_value <$> res_error r)).

Definition is_error (r : Response) : bool := bool_decide (is_Some (res_error r)).

Definition into_result (r : Response) : result Value RpcError :=
  match res_error r with
  | Some e => Err e
  | None =>
      match res_result r with
      | Some v => Ok v
      | None => Err (internal_error "response carries neither result nor error")
      end
  end.

Section typed.
Context {T : Type} (from_value : Value → result T string).

Definition params_as (params : option Value) : result T RpcError :=
  map_err invalid_params (from_value (default JNull params)).
Definition result_as (r : Response) : result T RpcError :=
  let? value := into_result r in
  map_err (λ e, internal_error ("invalid result: " +:+ e)) (from_value value).
End typed.

Inductive Message :=
| MRequest (r : Request)
| MNotification (n : Notification)
| MResponse (r : Response).

Inductive Incoming := Single (m : Message) | Batch (ms : list Message).

Inductive ParseError := EJson (e : string) | EInvalid (m : string) | EEmptyBatch.

Definition to_rpc_error (e : ParseError) : RpcError :=
  match e with
  | EJson e => parse_error e
  | EInvalid m => invalid_request m
  | EEmptyBatch => invalid_request "empty batch"
  end.

Definition to_value (m : Message) : Value :=
  match m with
  | MRequest r => request_to_value r
  | MNotification n => notification_to_value n
  | MResponse r => response_to_value r
  end.

Definition method (m : Message) : option string :=
  match m with
  | MRequest r => Some (req_method r)
  | MNotification n => Some (not_method n)
  | MResponse _ => None
  end.
Definition message_id (m : Message) : option RequestId :=
  match m with
  | MRequest r => Some (req_id r)
  | MNotification _ => None
  | MResponse r => res_id r
  end.
Definition is_request (m : Message) : bool := match m with MRequest _ => true | _ => false end.
Definition is_notification (m : Message) : bool :=
  match m with MNotification _ => true | _ => false end.
Definition is_response (m : Message) : bool := match m with MResponse _ => true | _ => false end.

Definition try_get_response_id (value : Value) : option RequestId :=
  obj ← as_object value;
  if ahas "method" obj then None
  else if negb (ahas "result" obj || ahas "error" obj) then None
  else aget "id" obj ≫= id_from_value.

(** * What serde_json promises *)

(** An [Option<Value>] field with a default: absent and [null] both give
    [None]. *)
Definition opt_value (o : option Value) : option Value :=
  v ← o; if is_null v then None else Some v.

(** The fields a derived decoder finds in an object. *)
Definition error_fields (m : JsonDict) (e : RpcError) : Prop :=
  (aget "code" m ≫= as_i64) = Some (code e) ∧
  aget "message" m = Some (JString (message e)) ∧
  err_data e = opt_value (aget "data" m).
Definition request_fields (m : JsonDict) (r : Request) : Prop :=
  aget "jsonrpc" m = Some (JString (req_jsonrpc r)) ∧
  (aget "id" m ≫= id_from_value) = Some (req_id r) ∧
  aget "method" m = Some (JString (req_method r)) ∧
  req_params r = opt_value (aget "params" m).
Definition notification_fields (m : JsonDict) (n : Notification) : Prop :=
  aget "jsonrpc" m = Some (JString (not_jsonrpc n)) ∧
  aget "method" m = Some (JString (not_method n)) ∧
  not_params n = opt_value (aget "params" m).

(** [None] for an absent or [null] field, else what [P] says of its value. *)
Definition opt_field {A} (P : Value → A → Prop) (o : option Value) (a : option A) : Prop :=
  match opt_value o, a with
  | None, None => True
  | Some v, Some a => P v a
  | _, _ => False
  end.

(** serde_json, as the module uses it: the text parser, the printer and the
    decoders derived for the message structs, with the documented behaviour of
    a derived decoder on a JSON object. *)
Class SerdeJson := {
  from_str : string → result Value string;
  display : Value → string;
  de_error : Value → result RpcError string;
  de_request : Value → result Request string;
  de_notification : Value → result Notification string;
  de_response : Value → result Response string;
  de_error_Ok m e : de_error (JObject m) = Ok e ↔ error_fields m e;
  de_request_Ok m r : de_request (JObject m) = Ok r ↔ request_fields m r;
  de_notification_Ok m n : de_notification (JObject m) = Ok n ↔ notification_fields m n;
  de_response_Ok m r :
    de_response (JObject m) = Ok r ↔
    aget "jsonrpc" m = Some (JString (res_jsonrpc r)) ∧
    opt_field (λ v id, id_from_value v = Some id) (aget "id" m) (res_id r) ∧
    res_result r = opt_value (aget "result" m) ∧
    opt_field (λ v e, de_error v = Ok e) (aget "error" m) (res_error r)
}.

(** * Parsing *)

Section parsing.
Context `{!SerdeJson}.

(** [Message::from_value]. *)
Definition from_value (value : Value) : result Message ParseError :=
  let? obj := ok_or (as_object value) (EInvalid "message must be a JSON object") in
  let? _ :=
    match aget "jsonrpc" obj with
    | Some v =>
        if decide (as_str v = Some JSONRPC_VERSION) then Ok ()
        else Err (EInvalid ("unsupported jsonrpc version: " +:+ display v))
    | None => Ok ()
    end in
  let has_id := match aget "id" obj with Some v => negb (is_null v) | None => false end in
  if ahas "method" obj then
    if negb (match aget "method" obj with Some v => is_string v | None => false end) then
      Err (EInvalid "method must be a string")
    else if has_id then
      let? req := map_err (λ e, EInvalid ("bad request: " +:+ e)) (de_request value) in
      Ok (MRequest req)
    else
      let? n := map_err (λ e, EInvalid ("bad notification: " +:+ e)) (de_notification value) in
      Ok (MNotification n)
  else if ahas "result" obj || ahas "error" obj then
    let? r := map_err (λ e, EInvalid ("bad response: " +:+ e)) (de_response value) in
    if bool_decide (is_Some (res_result r)) && bool_decide (is_Some (res_error r)) then
      Err (EInvalid "response has both result and error")
    else Ok (MResponse r)
  else Err (EInvalid "object is neither a request, notification nor response").

(** [Message::parse]. *)
Definition parse (text : string) : result Message ParseError :=
  let? value := map_err EJson (from_str text) in
  from_value value.

(** [Message::parse_incoming]. *)
Definition parse_incoming (text : string) : result Incoming ParseError :=
  let? value := map_err EJson (from_str text) in
  match value with
  | JArray items =>
      match items with
      | [] => Err EEmptyBatch
      | _ => let? out := collect_results from_value items in Ok (Batch out)
      end
  | other => let? m := from_value other in Ok (Single m)
  end.
End parsing.

(** * Well-formed messages *)

Definition id_ok (id : RequestId) : Prop := match id with Number n => in_i64 n | Str _ => True end.
Definition error_ok (e : RpcError) : Prop := in_i64 (code e) ∧ err_data e ≠ Some JNull.

(** The protocol version, integers in their range, no explicit [null] in an
    optional field, and exactly one of result and error in a response. *)
Definition message_ok (m : Message) : Prop :=
  match m with
  | MRequest r =>
      req_jsonrpc r = JSONRPC_VERSION ∧ id_ok (req_id r) ∧ req_params r ≠ Some JNull
  | MNotification n => not_jsonrpc n = JSONRPC_VERSION ∧ not_params n ≠ Some JNull
  | MResponse r =>
      res_jsonrpc r = JSONRPC_VERSION ∧ from_option id_ok True (res_id r) ∧
      match res_result r, res_error r with
      | Some v, None => v ≠ JNull
      | None, Some e => error_ok e
      | _, _ => False
      end
  end.

(** * Lemmas *)

Lemma id_roundtrip id : id_ok id → id_from_value (value_of_id id) = Some id.
Proof.
  destruct id as [n|s]; simpl; [|done]. intros Hn.
  pose proof (as_i64_value_of_i64 n Hn) as E. unfold value_of_i64 in *.
  destruct (n <? 0)%Z; simpl in *; by rewrite ?E.
Qed.

Lemma value_of_id_not_null id : is_null (value_of_id id) = false.
Proof. by destruct id. Qed.

Lemma opt_value_Some v : v ≠ JNull → opt_value (Some v) = Some v.
Proof. by destruct v. Qed.

Section lemmas.
Context `{!SerdeJson}.

Lemma de_error_roundtrip e : error_ok e → de_error (error_to_value e) = Ok e.
Proof.
  intros [Hc Hd]. apply de_error_Ok. split_and!; simpl; [by apply as_i64_value_of_i64|done|].
  destruct (err_data e) as [d|]; simpl; [|done]. symmetry. apply opt_value_Some. congruence.
Qed.

(** A message in the protocol's version gets past the version check. *)
Lemma from_value_versioned m :
  aget "jsonrpc" m = Some (JString JSONRPC_VERSION) →
  from_value (JObject m) =
  if ahas "method" m then
    match aget "method" m with
    | Some (JString _) =>
        if (match aget "id" m with Some v => negb (is_null v) | None => false end) then
          let? req := map_err (λ e, EInvalid ("bad request: " +:+ e)) (de_request (JObject m)) in
          Ok (MRequest req)
        else
          let? n := map_err (λ e, EInvalid ("bad notification: " +:+ e))
                      (de_notification (JObject m)) in
          Ok (MNotification n)
    | _ => Err (EInvalid "method must be a string")
    end
  else if ahas "result" m || ahas "error" m then
    let? r := map_err (λ e, EInvalid ("bad response: " +:+ e)) (de_response (JObject m)) in
    if bool_decide (is_Some (res_result r)) && bool_decide (is_Some (res_error r)) then
      Err (EInvalid "response has both result and error")
    else Ok (MResponse r)
  else Err (EInvalid "object is neither a request, notification nor response").
Proof.
  intros Hv. unfold from_value. cbn [as_object ok_or]. rewrite Hv. cbn [as_str].
  decide_literals. destruct (ahas "method" m); [|done].
  by destruct (aget "method" m) as [[]|].
Qed.
End lemmas.

(** What a message says about the value it was read from. *)
Definition decoded `{!SerdeJson} (v : Value) (m : Message) : Prop :=
  ∃ obj, v = JObject obj ∧ aget "jsonrpc" obj = Some (JString JSONRPC_VERSION) ∧
  match m with
  | MRequest r => request_fields obj r
  | MNotification n => notification_fields obj n ∧ opt_value (aget "id" obj) = None
  | MResponse r =>
      ahas "method" obj = false ∧ (is_Some (aget "result" obj) ∨ is_Some (aget "error" obj)) ∧
      de_response v = Ok r ∧ ¬ (is_Some (res_result r) ∧ is_Some (res_error r))
  end.

Lemma map_err_Ok {A E F} (f : E → F) (x : result A E) a : map_err f x = Ok a → x = Ok a.
Proof. by destruct x; simpl; intros [=]; subst. Qed.

Lemma ahas_is_Some {V} k (m : list (string * V)) : ahas k m = true ↔ is_Some (aget k m).
Proof. unfold ahas. destruct (aget k m); naive_solver. Qed.

Lemma from_value_decoded `{!SerdeJson} v m : from_value v = Ok m → decoded v m.
Proof.
  destruct v as [| | | | |obj]; [by intros [=]..|]. unfold decoded. intros Hm. exists obj.
  split; [done|].
  destruct (aget "jsonrpc" obj) as [j|] eqn:Ej; cycle 1.
  { exfalso. revert Hm. unfold from_value. cbn [as_object ok_or]. rewrite Ej.
    repeat case_match; intros; simplify_eq; repeat match goal with
    | E : map_err _ _ = Ok _ |- _ => apply map_err_Ok in E
    | E : de_request (JObject _) = Ok _ |- _ => apply de_request_Ok in E as [E _]
    | E : de_notification (JObject _) = Ok _ |- _ => apply de_notification_Ok in E as [E _]
    | E : de_response (JObject _) = Ok _ |- _ => apply de_response_Ok in E as [E _]
    end; congruence. }
  destruct (decide (as_str j = Some JSONRPC_VERSION)) as [Hj|Hj]; cycle 1.
  { revert Hm. unfold from_value. cbn [as_object ok_or]. rewrite Ej. by rewrite decide_False. }
  destruct j as [| | |s| |]; simplify_eq/=. split; [done|].
  rewrite from_value_versioned in Hm by done.
  destruct (ahas "method" obj) eqn:Hmeth.
  - destruct (aget "method" obj) as [[]|]; try done.
    destruct (aget "id" obj) as [i|] eqn:Ei; [destruct (is_null i) eqn:Hn|]; simpl in Hm;
      destruct (map_err _ _) as [r|] eqn:E in Hm; try done; injection Hm as <-;
      apply map_err_Ok in E.
    + apply de_notification_Ok in E. split; [done|]. simpl. by rewrite Hn.
    + by apply de_request_Ok in E.
    + by apply de_notification_Ok in E.
  - destruct (ahas "result" obj || ahas "error" obj) eqn:Hre; [|done].
    destruct (map_err _ _) as [r|] eqn:E in Hm; [|done]. apply map_err_Ok in E.
    apply orb_true_iff in Hre. rewrite !ahas_is_Some in Hre.
    destruct (bool_decide _ && _) eqn:Hb; simplify_eq. split_and!; [done..|].
    rewrite andb_false_iff, !bool_decide_eq_false in Hb. tauto.
Qed.

Lemma collect_results_Ok {A B E} (f : A → result B E) l ms :
  collect_results f l = Ok ms → Forall2 (λ a b, f a = Ok b) l ms.
Proof.
  revert ms. induction l as [|a l IH]; intros ms; simpl; [intros [= <-]; constructor|].
  destruct (f a) eqn:Ea; [|done]. destruct (collect_results f l); [|done].
  intros [= <-]. constructor; auto.
Qed.

(** * A concrete serde_json, for closed examples *)

(** Decoders that read the fields one by one. *)
Definition read_error (v : Value) : result RpcError string :=
  let? m := ok_or (as_object v) "invalid type" in
  let? c := ok_or (aget "code" m ≫= as_i64) "code" in
  let? s := ok_or (aget "message" m ≫= as_str) "message" in
  Ok {| code := c; message := s; err_data := opt_value (aget "data" m) |}.
Definition read_request (v : Value) : result Request string :=
  let? m := ok_or (as_object v) "invalid type" in
  let? j := ok_or (aget "jsonrpc" m ≫= as_str) "jsonrpc" in
  let? i := ok_or (aget "id" m ≫= id_from_value) "id" in
  let? s := ok_or (aget "method" m ≫= as_str) "method" in
  Ok {| req_jsonrpc := j; req_id := i; req_method := s; req_params := opt_value (aget "params" m) |}.
Definition read_notification (v : Value) : result Notification string :=
  let? m := ok_or (as_object v) "invalid type" in
  let? j := ok_or (aget "jsonrpc" m ≫= as_str) "jsonrpc" in
  let? s := ok_or (aget "method" m ≫= as_str) "method" in
  Ok {| not_jsonrpc := j; not_method := s; not_params := opt_value (aget "params" m) |}.
Definition read_opt {A} (f : Value → result A string) (o : option Value) : result (option A) string :=
  match opt_value o with
  | None => Ok None
  | Some v => let? a := f v in Ok (Some a)
  end.
Definition read_response (v : Value) : result Response string :=
  let? m := ok_or (as_object v) "invalid type" in
  let? j := ok_or (aget "jsonrpc" m ≫= as_str) "jsonrpc" in
  let? i := read_opt (λ v, ok_or (id_from_value v) "id") (aget "id" m) in
  let? e := read_opt read_error (aget "error" m) in
  Ok {| res_jsonrpc := j; res_id := i; res_result := opt_value (aget "result" m); res_error := e |}.

Lemma ok_or_Ok {A E} (o : option A) (e : E) a : ok_or o e = Ok a ↔ o = Some a.
Proof. destruct o; simpl; naive_solver. Qed.

Lemma bind_as_str o s : (o ≫= as_str) = Some s ↔ o = Some (JString s).
Proof. destruct o as [[]|]; simpl; naive_solver. Qed.

Lemma read_opt_Ok {A} f (o : option Value) (a : option A) :
  read_opt f o = Ok a ↔ opt_field (λ v a, f v = Ok a) o a.
Proof.
  unfold read_opt, opt_field. destruct (opt_value o) as [v|], a as [a|]; try naive_solver;
    destruct (f v) eqn:?; naive_solver.
Qed.

Lemma read_error_Ok m e : read_error (JObject m) = Ok e ↔ error_fields m e.
Proof.
  unfold read_error, error_fields. cbn [as_object ok_or]. rewrite <-bind_as_str.
  destruct e as [c s d]; simpl.
  destruct (aget "code" m ≫= as_i64), (aget "message" m ≫= as_str); simpl; naive_solver.
Qed.

Lemma read_request_Ok m r : read_request (JObject m) = Ok r ↔ request_fields m r.
Proof.
  unfold read_request, request_fields. cbn [as_object ok_or]. rewrite <-!bind_as_str.
  destruct r as [j i s p]; simpl.
  destruct (aget "jsonrpc" m ≫= as_str), (aget "id" m ≫= id_from_value),
    (aget "method" m ≫= as_str); simpl; naive_solver.
Qed.

Lemma read_notification_Ok m n :
  read_notification (JObject m) = Ok n ↔ notification_fields m n.
Proof.
  unfold read_notification, notification_fields. cbn [as_object ok_or]. rewrite <-!bind_as_str.
  destruct n as [j s p]; simpl.
  destruct (aget "jsonrpc" m ≫= as_str), (aget "method" m ≫= as_str); simpl; naive_solver.
Qed.

Lemma read_response_Ok m r :
  read_response (JObject m) = Ok r ↔
  aget "jsonrpc" m = Some (JString (res_jsonrpc r)) ∧
  opt_field (λ v id, id_from_value v = Some id) (aget "id" m) (res_id r) ∧
  res_result r = opt_value (aget "result" m) ∧
  opt_field (λ v e, read_error v = Ok e) (aget "error" m) (res_error r).
Proof.
  unfold read_response. cbn [as_object ok_or]. rewrite <-bind_as_str, <-read_opt_Ok.
  assert (∀ o a, opt_field (λ v id, id_from_value v = Some id) o a ↔
    read_opt (λ v, ok_or (id_from_value v) "id") o = Ok a) as ->.
  { intros o a. rewrite read_opt_Ok. unfold opt_field.
    destruct (opt_value o), a; try done. by rewrite ok_or_Ok. }
  destruct r as [j i res e]; simpl.
  destruct (aget "jsonrpc" m ≫= as_str), (read_opt _ (aget "id" m)),
    (read_opt _ (aget "error" m)); simpl; naive_solver.
Qed.

(** The texts of [table] are the ones that parse. *)
Program Definition table_json (table : list (string * Value)) : SerdeJson := {|
  from_str := λ s, ok_or (aget s table) "expected value";
  display := λ _, "?";
  de_error := read_error;
  de_request := read_request;
  de_notification := read_notification;
  de_response := read_response
|}.
Next Obligation. intros. apply read_error_Ok. Qed.
Next Obligation. intros. apply read_request_Ok. Qed.
Next Obligation. intros. apply read_notification_Ok. Qed.
Next Obligation. intros. apply read_response_Ok. Qed.

(** * Properties *)

(** Every well-formed message is read back from the value it is written as. *)
Theorem message_roundtrip `{!SerdeJson} m : message_ok m → from_value (to_value m) = Ok m.
Proof.
  destruct m as [r|n|r]; cbn [message_ok to_value].
  - intros (Hv & Hi & Hp). unfold request_to_value. rewrite Hv.
    rewrite from_value_versioned by done. simpl. rewrite value_of_id_not_null. simpl.
    rewrite (proj2 (de_request_Ok _ r)); [done|].
    unfold request_fields. simpl. rewrite Hv, (id_roundtrip _ Hi).
    split_and!; try done. destruct (req_params r); [|done]. symmetry; apply opt_value_Some; congruence.
  - intros (Hv & Hp). unfold notification_to_value. rewrite Hv.
    rewrite from_value_versioned by done. simpl.
    destruct (not_params n) as [p|] eqn:Ep; simpl;
    rewrite (proj2 (de_notification_Ok _ n)); try done;
    unfold notification_fields; simpl; rewrite Hv, Ep; split_and!; try done.
    symmetry; apply opt_value_Some; congruence.
  - intros (Hv & Hi & Hr). unfold response_to_value. rewrite Hv.
    assert (opt_field (λ v id, id_from_value v = Some id)
      (Some (from_option value_of_id JNull (res_id r))) (res_id r)).
    { destruct (res_id r) as [i|]; [|done]. simpl in Hi. pose proof (id_roundtrip i Hi).
      by destruct i. }
    rewrite from_value_versioned by done.
    destruct (res_result r) as [v|] eqn:Ev, (res_error r) as [e|] eqn:Ee; try done; simpl;
      rewrite (proj2 (de_response_Ok _ r)); simpl; rewrite ?Ev, ?Ee; simpl; try done;
      split_and!; try done; try (by rewrite Hv).
    + symmetry; by apply opt_value_Some.
    + by apply de_error_roundtrip.
Qed.

Lemma message_roundtrip_witness :
  let m := MRequest (request_new (Number 7) "tools/list"
             (Some (JObject [("cursor", JString "abc")]))) in
  message_ok m ∧ @from_value (table_json []) (to_value m) = Ok m.
Proof.
  split; [done|]. apply (message_roundtrip (H := table_json [])). done.
Defined.

(** A success response whose result is [null] does not survive the wire: it is
    read back with neither result nor error, which [into_result] reports as an
    internal error. *)
Theorem null_result_lost `{!SerdeJson} id :
  id_ok id →
  ∃ r, from_value (to_value (MResponse (success id JNull))) = Ok (MResponse r) ∧
    into_result (success id JNull) = Ok JNull ∧
    into_result r = Err (internal_error "response carries neither result nor error").
Proof.
  intros Hi. set (r := {| res_jsonrpc := JSONRPC_VERSION; res_id := Some id;
                          res_result := None; res_error := None |}).
  exists r. split; [|done]. cbn [to_value]. unfold response_to_value, success.
  rewrite from_value_versioned by done. simpl. rewrite (proj2 (de_response_Ok _ r)); [done|].
  simpl. split_and!; try done. pose proof (id_roundtrip id Hi). by destruct id.
Qed.

Lemma null_result_lost_witness :
  ∃ r, @from_value (table_json []) (to_value (MResponse (success (Str "x-1") JNull))) =
    Ok (MResponse r) ∧ into_result r ≠ Ok JNull.
Proof.
  destruct (null_result_lost (H := table_json []) (Str "x-1")) as (r & Hr & _ & Hi); [done|].
  exists r. split; [exact Hr|]. rewrite Hi. done.
Defined.

(** C38: What [parse_incoming] accepts is JSON-RPC 2.0: a single message is read
    from an object that carries the version and, by its fields, is of the
    message's kind; a batch is a non-empty array all of whose items are such
    messages, in order. *)
Theorem parse_incoming_sound `{!SerdeJson} text inc :
  parse_incoming text = Ok inc →
  ∃ v, from_str text = Ok v ∧
  match inc with
  | Single m => decoded v m
  | Batch ms => ∃ items, v = JArray items ∧ items ≠ [] ∧ Forall2 decoded items ms
  end.
Proof.
  unfold parse_incoming. destruct (from_str text) as [v|]; [|done]. simpl.
  intros Hp. exists v. split; [done|]. destruct v as [| | | |[|x l]|]; try done; cycle 1.
  { destruct (from_value _) eqn:E; simplify_eq. by apply from_value_decoded. }
  destruct (collect_results _ _) as [ms|] eqn:E in Hp; simplify_eq.
  exists (x :: l). split_and!; [done..|]. apply collect_results_Ok in E.
  eapply Forall2_impl; [done|]. apply from_value_decoded.
Qed.

Lemma parse_incoming_sound_witness :
  let v := JArray [JObject [("jsonrpc", JString "2.0"); ("id", JNumber (PosInt 1));
                            ("method", JString "a")];
                   JObject [("jsonrpc", JString "2.0"); ("method", JString "b")]] in
  ∃ ms, @parse_incoming (table_json [("text", v)]) "text" = Ok (Batch ms) ∧
    Forall2 (@decoded (table_json [("text", v)]))
      (match v with JArray l => l | _ => [] end) ms.
Proof.
  intros v. eexists. split; [vm_compute; reflexivity|].
  destruct (parse_incoming_sound (H := table_json [("text", v)]) "text" _ eq_refl)
    as (v' & Hv & items & -> & _ & Hall).
  vm_compute in Hv. injection Hv as <-. exact Hall.
Defined.
