(* ===== verification/A4PUtil.v ===== *)
(** Errors and the Python-convention helpers of the A4P SDK
    (A4P/rust-sdk/src/errors.rs, src/util.rs) that the intent modules use. *)
From S2P Require Import Prelude F64 RustMap RustStr Json.

(** * Errors *)

Record A4PProtocolError := mkProtocolError {
  pe_message : string; pe_code : string; pe_http_status : Z
}.
Record MandateSecurityError := mkMandateSecurityError { ms_code : string; ms_message : string }.

Inductive A4PError :=
| AProtocol (e : A4PProtocolError)
| AMandateSecurity (e : MandateSecurityError)
| ACredentialStoreFormat (m : string)
| AUsageStore (m : string)
| AValue (m : string)
| ARuntime (m : string).

(** [Display]: every variant shows its message. *)
Definition a4p_message (e : A4PError) : string :=
  match e with
  | AProtocol e => pe_message e
  | AMandateSecurity e => ms_message e
  | ACredentialStoreFormat m | AUsageStore m | AValue m | ARuntime m => m
  end.

Definition is_value_error (e : A4PError) : bool :=
  match e with
  | AValue _ | AProtocol _ | AMandateSecurity _ | ACredentialStoreFormat _ => true
  | AUsageStore _ | ARuntime _ => false
  end.

(** * Helpers *)

(** [number.to_string()] and [value.to_string()], the JSON text serde_json
    prints. *)
Class JsonDisplay := display_value : Value → string.

(** [is_truthy]. *)
Definition is_truthy (v : Value) : bool :=
  match v with
  | JNull => false
  | JBool b => b
  | JNumber n => negb (SFeqb (number_as_f64 n) (S754_zero false))
  | JString s => negb (str_is_empty s)
  | JArray l => bool_decide (l ≠ [])
  | JObject m => bool_decide (m ≠ [])
  end.

(** [get_object]. *)
Definition get_object (m : JsonDict) (key : string) : option JsonDict :=
  aget key m ≫= as_object.

(** [as_int]. *)
Definition as_int (v : Value) : option Z := match v with JNumber _ => as_i64 v | _ => None end.

(** [object_or_empty] and [dict_or_empty]. *)
Definition object_or_empty (m : JsonDict) (key : string) : JsonDict :=
  default [] (get_object m key).
Definition dict_or_empty (v : option Value) : JsonDict := default [] (v ≫= as_object).

(** [JsonDict::new()] followed by one [insert] per entry. *)
Definition dict (l : list (string * Value)) : JsonDict :=
  foldl (λ m kv, im_insert kv.1 kv.2 m) [] l.

(** Two maps are equal, as JSON objects are. *)
Definition dict_eqb (a b : JsonDict) : bool := value_eqb (JObject a) (JObject b).

(** [option.filter(|value| is_truthy(value))]. *)
Definition truthy (v : option Value) : option Value :=
  v ≫= λ v, if is_truthy v then Some v else None.

(** Text between quotes, as the messages show it. *)
Definition quoted (s : string) : string := "'" +:+ s +:+ "'".

Section text.
Context `{!JsonDisplay}.

(** [py_str]. *)
Definition py_str (v : Value) : string :=
  match v with
  | JNull => "None"
  | JBool true => "True"
  | JBool false => "False"
  | JString s => s
  | other => display_value other
  end.

(** [str_or_empty] and [str_trimmed]. *)
Definition str_or_empty (m : JsonDict) (key : string) : string :=
  match aget key m with
  | Some v => if is_truthy v then py_str v else ""
  | None => ""
  end.
Definition str_trimmed (m : JsonDict) (key : string) : string := trim (str_or_empty m key).
End text.

(** * Lemmas *)

Lemma foldl_insert (acc l : JsonDict) :
  NoDup (akeys (acc ++ l)) → foldl (λ m kv, im_insert kv.1 kv.2 m) acc l = acc ++ l.
Proof.
  revert acc. induction l as [|[k v] l IH]; intros acc Hnd; simpl; [by rewrite app_nil_r|].
  assert (Heq : acc ++ (k, v) :: l = (acc ++ [(k, v)]) ++ l) by (by rewrite <-app_assoc).
  rewrite im_insert_fresh; [by rewrite IH, Heq by (by rewrite <-Heq)|].
  apply aget_None_keys. unfold akeys in *. rewrite fmap_app in Hnd.
  apply NoDup_app in Hnd as (_ & Hd & _). intros Hk. apply (Hd k Hk). simpl. left.
Qed.

Lemma dict_nodup l : NoDup (akeys l) → dict l = l.
Proof. apply (foldl_insert []). Qed.

(** A literal object is its list of entries. *)
Lemma dict_literal l : bool_decide (NoDup (akeys l)) = true → dict l = l.
Proof. intros ?%bool_decide_eq_true. by apply dict_nodup. Qed.

Lemma str_trimmed_string `{!JsonDisplay} m key s :
  aget key m = Some (JString s) → str_trimmed m key = trim s.
Proof.
  intros Hk. unfold str_trimmed, str_or_empty. rewrite Hk. unfold is_truthy, str_is_empty.
  by destruct s.
Qed.

Lemma as_object_Some v m : as_object v = Some m ↔ v = JObject m.
Proof. destruct v; simpl; naive_solver. Qed.

Lemma get_object_Some m key o : get_object m key = Some o ↔ aget key m = Some (JObject o).
Proof.
  unfold get_object. destruct (aget key m) as [v|]; simpl; [|done].
  rewrite as_object_Some. naive_solver.
Qed.

(** Lookups in literal objects. *)
Ltac dict_simpl :=
  repeat match goal with
  | |- context [dict ?l] => rewrite (dict_literal l) by reflexivity
  end.

Lemma object_or_empty_object m key o : aget key m = Some (JObject o) → object_or_empty m key = o.
Proof. intros Hk. unfold object_or_empty, get_object. by rewrite Hk. Qed.

Lemma object_or_empty_ext m m' key :
  get_object m key = get_object m' key → object_or_empty m key = object_or_empty m' key.
Proof. unfold object_or_empty. by intros ->. Qed.

Lemma str_is_empty_false s : str_is_empty s = false ↔ s ≠ "".
Proof. destruct s; naive_solver. Qed.
