(* ===== verification/IntentScope.v ===== *)
(** Glob matching (A4P/rust-sdk/src/intent/scope.rs, [fnmatchcase]): the
    matcher of the source over the characters of name and pattern, and the
    language of a pattern as an inductive relation.

    Intent scopes (A4P/rust-sdk/src/intent/scope.rs): what a token authorizes,
    normalization of action specs and execution policies, and the match of an
    action call against a scope. *)
From S2P Require Import Prelude RustMap RustStr F64 Json A4PUtil.

(** The characters the patterns treat specially. *)
Definition C_star : N := 42.
Definition C_any : N := 63.
Definition C_open : N := 91.
Definition C_close : N := 93.
Definition C_not : N := 33.
Definition C_dash : N := 45.

(** * The matcher *)

(** The loop that splits the body of a bracket into singles and ranges;
    reversed ranges are dropped. *)
Fixpoint parse_set (body singles : list N) (ranges : list (N * N)) : list N * list (N * N) :=
  match body with
  | [] => (singles, ranges)
  | c :: rest =>
      match rest with
      | d :: e :: rest' =>
          if decide (d = C_dash) then
            parse_set rest' singles (if (c <=? e)%N then ranges ++ [(c, e)] else ranges)
          else parse_set rest (singles ++ [c]) ranges
      | _ => parse_set rest (singles ++ [c]) ranges
      end
  end.

(** The first index from [j] on that holds the closing bracket. *)
Definition scan_close (pattern : list N) (j : nat) : option nat :=
  (λ ic : nat * N, (j + ic.1)%nat) <$> list_find (λ c, c = C_close) (drop j pattern).

(** [parse_bracket]: the matcher and the number of characters consumed. *)
Definition parse_bracket (pattern : list N) : option ((N → bool) * nat) :=
  let j := 1%nat in
  let j := if decide (pattern !! j = Some C_not) then S j else j in
  let j := if decide (pattern !! j = Some C_close) then S j else j in
  j ← scan_close pattern j;
  let body := take (j - 1) (drop 1 pattern) in
  let negate := bool_decide (head body = Some C_not) in
  let body := if negate then drop 1 body else body in
  let '(singles, ranges) := parse_set body [] [] in
  Some (λ c : N,
          let hit := bool_decide (c ∈ singles) ||
                     existsb (λ r : N * N, (r.1 <=? c)%N && (c <=? r.2)%N) ranges in
          negb (Bool.eqb hit negate),
        S j).

(** The suffixes of a name, longest first: [(0..=name.len()).map(|i| &name[i..])]. *)
Fixpoint suffixes (name : list N) : list (list N) :=
  name :: match name with [] => [] | _ :: name => suffixes name end.

(** [match_here]; the pattern shrinks with every call. *)
Fixpoint match_here (fuel : nat) (name pattern : list N) : bool :=
  match fuel with
  | O => false
  | S fuel =>
      match pattern with
      | [] => bool_decide (name = [])
      | p :: rest =>
          if decide (p = C_star) then existsb (λ s, match_here fuel s rest) (suffixes name)
          else if decide (p = C_any) then
            match name with [] => false | _ :: name => match_here fuel name rest end
          else if decide (p = C_open) then
            match parse_bracket pattern with
            | Some (matcher, consumed) =>
                match name with
                | [] => false
                | c :: name => matcher c && match_here fuel name (drop consumed pattern)
                end
            | None =>
                match name with
                | [] => false
                | c :: name => bool_decide (c = C_open) && match_here fuel name rest
                end
            end
          else
            match name with
            | [] => false
            | c :: name => bool_decide (c = p) && match_here fuel name rest
            end
      end
  end.

(** [fnmatchcase]: one more than the pattern's length is enough fuel. *)
Definition fnmatchcase (name pattern : string) : bool :=
  match_here (S (length (chars pattern))) (chars name) (chars pattern).

(** * The language of a pattern *)

(** What a set of singles and ranges contains, read from left to right: a
    character with a dash and another after it opens a range. *)
Inductive set_has : list N → N → Prop :=
| sh_range a e rest c : (a ≤ c ≤ e)%N → set_has (a :: C_dash :: e :: rest) c
| sh_after_range a e rest c : set_has rest c → set_has (a :: C_dash :: e :: rest) c
| sh_single c rest : ¬ (∃ e r, rest = C_dash :: e :: r) → set_has (c :: rest) c
| sh_after_single a rest c :
    ¬ (∃ e r, rest = C_dash :: e :: r) → set_has rest c → set_has (a :: rest) c.

(** The text of a bracket expression between [\[] and [\]]: an optional [!], then
    at least one character, of which only the first may be a closing
    bracket. *)
Inductive bracket : bool → list N → list N → Prop :=
| br_plain b body : b ≠ C_not → C_close ∉ body → bracket false (b :: body) (b :: body)
| br_not b body : C_close ∉ body → bracket true (b :: body) (C_not :: b :: body).

(** [glob p s]: the pattern [p] matches the whole of [s]. *)
Inductive glob : list N → list N → Prop :=
| glob_nil : glob [] []
| glob_star p skipped s : glob p s → glob (C_star :: p) (skipped ++ s)
| glob_any p c s : glob p s → glob (C_any :: p) (c :: s)
| glob_set negate body text p c s :
    bracket negate body text → (if negate then ¬ set_has body c else set_has body c) →
    glob p s → glob (C_open :: text ++ C_close :: p) (c :: s)
| glob_open p s :
    (∀ negate body text rest, bracket negate body text → p ≠ text ++ C_close :: rest) →
    glob p s → glob (C_open :: p) (C_open :: s)
| glob_literal p c s :
    c ≠ C_star → c ≠ C_any → c ≠ C_open → glob p s → glob (c :: p) (c :: s).

(** * Sets *)

Definition in_range (c : N) (r : N * N) : bool := (r.1 <=? c)%N && (c <=? r.2)%N.

Lemma in_range_spec c a e : in_range c (a, e) = true ↔ (a ≤ c ≤ e)%N.
Proof. unfold in_range. simpl. rewrite andb_true_iff, !N.leb_le. done. Qed.

(** How a set starts decides how it goes on. *)
Lemma set_has_range a e rest c :
  set_has (a :: C_dash :: e :: rest) c ↔ (a ≤ c ≤ e)%N ∨ set_has rest c.
Proof.
  split; [|intros [?|?]; by constructor].
  inversion 1 as [| |? ? Hno|? ? ? Hno]; subst; [by left|by right|exfalso; eauto..].
Qed.

Lemma set_has_single a rest c :
  ¬ (∃ e r, rest = C_dash :: e :: r) → set_has (a :: rest) c ↔ c = a ∨ set_has rest c.
Proof.
  intros Hno. split.
  - inversion 1; subst; [exfalso; eauto..|by left|by right].
  - intros [->|?]; [by apply sh_single|by apply sh_after_single].
Qed.

Lemma parse_set_has body singles ranges c :
  let '(s, r) := parse_set body singles ranges in
  c ∈ s ∨ existsb (in_range c) r = true ↔
  c ∈ singles ∨ existsb (in_range c) ranges = true ∨ set_has body c.
Proof.
  remember (length body) as n eqn:Hn. revert body singles ranges Hn.
  induction (lt_wf n) as [n _ IH]; intros body singles ranges ->.
  destruct body as [|a rest]; cbn [parse_set].
  { split; [tauto|]. intros [?|[?|Hs]]; [tauto..|inversion Hs]. }
  assert (Hsingle : ¬ (∃ e r, rest = C_dash :: e :: r) →
    let '(s, r) := parse_set rest (singles ++ [a]) ranges in
    c ∈ s ∨ existsb (in_range c) r = true ↔
    c ∈ singles ∨ existsb (in_range c) ranges = true ∨ set_has (a :: rest) c).
  { intros Hno. pose proof (IH (length rest) ltac:(simpl; lia) rest (singles ++ [a]) ranges eq_refl) as H'.
    destruct (parse_set rest _ ranges) as [s r]. rewrite H', (set_has_single a rest c Hno).
    rewrite elem_of_app, list_elem_of_singleton. tauto. }
  destruct rest as [|d [|e rest]]; [apply Hsingle; by intros (?&?&?)..|].
  destruct (decide (d = C_dash)) as [->|Hd]; [|apply Hsingle; intros (?&?&?); by simplify_eq].
  pose proof (IH (length rest) ltac:(simpl; lia) rest singles
    (if (a <=? e)%N then ranges ++ [(a, e)] else ranges) eq_refl) as H'.
  destruct (parse_set rest singles _) as [s r]. rewrite H', set_has_range.
  destruct (N.leb_spec a e) as [Hae|Hae].
  - rewrite existsb_app. cbn [existsb]. rewrite orb_false_r, orb_true_iff, in_range_spec. tauto.
  - split; [tauto|]. intros [?|[?|[?|?]]]; [tauto..|lia|tauto].
Qed.

(** * Brackets *)

Lemma find_close a b :
  C_close ∉ a → list_find (λ c, c = C_close) (a ++ C_close :: b) = Some (length a, C_close).
Proof.
  induction a as [|x a IH]; intros Ha; cbn [app list_find]; [by rewrite decide_True|].
  apply not_elem_of_cons in Ha as [Hx Ha]. rewrite decide_False by done. by rewrite IH.
Qed.

Lemma find_no_close l : C_close ∉ l → list_find (λ c, c = C_close) l = None.
Proof. intros Hl. apply list_find_None, Forall_forall. intros x Hx ->. done. Qed.

Lemma split_close (l : list N) :
  (∃ a b, l = a ++ C_close :: b ∧ C_close ∉ a) ∨ C_close ∉ l.
Proof.
  destruct (decide (C_close ∈ l)) as [Hin|]; [left|by right].
  apply list_elem_of_split_l in Hin as (a & b & -> & Ha). by exists a, b.
Qed.

(** The index the scan starts from: past the text's first character, which
    may be a closing bracket. *)
Lemma scan_from b q pre :
  scan_close (pre ++ b :: q) (if decide (b = C_close) then S (length pre) else length pre) =
  (λ ic : nat * N, (S (length pre) + ic.1)%nat) <$> list_find (λ c, c = C_close) q.
Proof.
  unfold scan_close. destruct (decide (b = C_close)) as [->|Hb].
  - rewrite (app_assoc pre [C_close] q : pre ++ C_close :: q = (pre ++ [C_close]) ++ q).
    by rewrite drop_app_length' by (rewrite length_app; simpl; lia).
  - rewrite drop_app_length. cbn [list_find]. rewrite decide_False by done.
    destruct (list_find _ q) as [[i c]|]; simpl; [f_equal; lia|done].
Qed.

(** What [parse_bracket] answers on the text between the brackets. *)
Definition set_matcher (negate : bool) (body : list N) (c : N) : bool :=
  let '(singles, ranges) := parse_set body [] [] in
  negb (Bool.eqb (bool_decide (c ∈ singles) || existsb (in_range c) ranges) negate).

Lemma set_matcher_spec negate body c :
  set_matcher negate body c = true ↔ if negate then ¬ set_has body c else set_has body c.
Proof.
  unfold set_matcher. pose proof (parse_set_has body [] [] c) as Hb.
  destruct (parse_set body [] []) as [s r].
  assert (Hh : bool_decide (c ∈ s) || existsb (in_range c) r = true ↔ set_has body c).
  { rewrite orb_true_iff, bool_decide_eq_true, Hb. set_solver. }
  destruct (bool_decide (c ∈ s) || existsb (in_range c) r), negate; simpl; naive_solver.
Qed.

Lemma parse_bracket_plain b q :
  b ≠ C_not →
  parse_bracket (C_open :: b :: q) =
  (λ ic : nat * N, (set_matcher false (b :: take ic.1 q), (3 + ic.1)%nat)) <$>
    list_find (λ c, c = C_close) q.
Proof.
  intros Hb. unfold parse_bracket. cbn [lookup list_lookup].
  rewrite (decide_False (P := Some b = Some C_not)) by congruence. cbn [lookup list_lookup].
  rewrite (decide_ext (Some b = Some C_close) (b = C_close)) by (split; congruence).
  pose proof (scan_from b q [C_open]) as Hs. cbn [length app] in Hs. rewrite Hs. clear Hs.
  destruct (list_find _ q) as [[i c]|]; [|done]. simpl.
  rewrite bool_decide_false by congruence. unfold set_matcher. by destruct (parse_set _ _ _).
Qed.

Lemma parse_bracket_not b q :
  parse_bracket (C_open :: C_not :: b :: q) =
  (λ ic : nat * N, (set_matcher true (b :: take ic.1 q), (4 + ic.1)%nat)) <$>
    list_find (λ c, c = C_close) q.
Proof.
  unfold parse_bracket. cbn [lookup list_lookup].
  rewrite (decide_True (P := Some C_not = Some C_not)) by done. cbn [lookup list_lookup].
  rewrite (decide_ext (Some b = Some C_close) (b = C_close)) by (split; congruence).
  pose proof (scan_from b q [C_open; C_not]) as Hs. cbn [length app] in Hs. rewrite Hs. clear Hs.
  destruct (list_find _ q) as [[i c]|]; [|done].
  cbn -[bool_decide parse_set set_matcher]. rewrite bool_decide_true by done.
  unfold set_matcher. cbn [drop]. by destruct (parse_set _ _ _).
Qed.

(** A bracket expression at the front of a pattern is parsed whole. *)
Lemma parse_bracket_some negate body text rest :
  bracket negate body text →
  parse_bracket (C_open :: text ++ C_close :: rest) =
  Some (set_matcher negate body, S (S (length text))).
Proof.
  destruct 1 as [b body Hb Hc|b body Hc]; cbn [app].
  - rewrite parse_bracket_plain, find_close by done. simpl. by rewrite take_app_length.
  - rewrite parse_bracket_not, find_close by done. simpl. by rewrite take_app_length.
Qed.

Lemma parse_bracket_none p :
  (∀ negate body text rest, bracket negate body text → p ≠ text ++ C_close :: rest) →
  parse_bracket (C_open :: p) = None.
Proof.
  intros Hno. destruct p as [|b q]; [done|].
  destruct (decide (b = C_not)) as [->|Hb].
  - destruct q as [|b q]; [done|]. rewrite parse_bracket_not, find_no_close; [done|].
    destruct (split_close q) as [(a & r & -> & Ha)|]; [|done].
    destruct (Hno true (b :: a) (C_not :: b :: a) r); [by constructor|done].
  - rewrite parse_bracket_plain, find_no_close; [done| |done].
    destruct (split_close q) as [(a & r & -> & Ha)|]; [|done].
    destruct (Hno false (b :: a) (b :: a) r); [by constructor|done].
Qed.

(** Either a bracket expression opens the pattern or none does. *)
Lemma bracket_dec p :
  (∃ negate body text rest, bracket negate body text ∧ p = text ++ C_close :: rest) ∨
  (∀ negate body text rest, bracket negate body text → p ≠ text ++ C_close :: rest).
Proof.
  destruct (parse_bracket (C_open :: p)) as [[f n]|] eqn:E.
  - left. destruct p as [|b q]; [done|]. destruct (decide (b = C_not)) as [->|Hb].
    + destruct q as [|b q]; [done|]. rewrite parse_bracket_not in E.
      destruct (split_close q) as [(a & r & -> & Ha)|Hq]; [|by rewrite find_no_close in E].
      exists true, (b :: a), (C_not :: b :: a), r. split; [by constructor|done].
    + rewrite parse_bracket_plain in E by done.
      destruct (split_close q) as [(a & r & -> & Ha)|Hq]; [|by rewrite find_no_close in E].
      exists false, (b :: a), (b :: a), r. split; [by constructor|done].
  - right. intros negate body text rest Hb ->. by rewrite (parse_bracket_some _ _ _ _ Hb) in E.
Qed.

(** * The matcher decides the language *)

Lemma elem_of_suffixes s t : t ∈ suffixes s ↔ ∃ pre, s = pre ++ t.
Proof.
  revert t. induction s as [|a s IH]; intros t; simpl.
  - rewrite list_elem_of_singleton. split; [intros ->; by exists []|].
    intros [pre H]. symmetry in H. by apply app_eq_nil in H as [_ ->].
  - rewrite elem_of_cons, IH. split.
    + intros [->|[pre ->]]; [by exists []|by exists (a :: pre)].
    + intros [[|x pre] ?]; simplify_eq/=; [by left|right; by exists pre].
Qed.

(** The equations of the language, by the pattern's first character. *)
Lemma glob_nil_inv s : glob [] s ↔ s = [].
Proof. split; [by inversion 1|intros ->; constructor]. Qed.

Lemma glob_star_inv p s : glob (C_star :: p) s ↔ ∃ t, t ∈ suffixes s ∧ glob p t.
Proof.
  setoid_rewrite elem_of_suffixes. split.
  - inversion 1; subst; [eauto|done..].
  - intros (t & [pre ->] & Ht). by constructor.
Qed.

Lemma glob_any_inv p s : glob (C_any :: p) s ↔ ∃ c t, s = c :: t ∧ glob p t.
Proof.
  split; [inversion 1; subst; [eauto|done..]|]. intros (c & t & -> & Ht). by constructor.
Qed.

Lemma glob_literal_inv a p s :
  a ≠ C_star → a ≠ C_any → a ≠ C_open → glob (a :: p) s ↔ ∃ t, s = a :: t ∧ glob p t.
Proof.
  intros. split; [inversion 1; subst; [done..|eauto]|]. intros (t & -> & Ht). by constructor.
Qed.

Lemma glob_set_inv negate body text p s :
  bracket negate body text →
  glob (C_open :: text ++ C_close :: p) s ↔
  ∃ c t, s = c :: t ∧ set_matcher negate body c = true ∧ glob p t.
Proof.
  intros Hb. setoid_rewrite set_matcher_spec. split.
  - inversion 1 as [| | |negate' body' text' p' c t Hb' Hc Ht Heq|p' t Hno Ht|p' c t ?? Hno Ht];
      subst; [|by edestruct Hno|done].
    pose proof (parse_bracket_some _ _ _ p Hb) as E. pose proof (parse_bracket_some _ _ _ p' Hb') as E'.
    assert (text = text' ∧ p = p') as [<- <-].
    { rewrite Heq in E'. rewrite E in E'. apply app_inj_1 in Heq; [|congruence].
      naive_solver. }
    assert (negate = negate' ∧ body = body') as [<- <-] by (destruct Hb; inversion Hb'; by subst).
    eauto.
  - intros (c & t & -> & Hc & Ht). by econstructor.
Qed.

Lemma glob_open_inv p s :
  (∀ negate body text rest, bracket negate body text → p ≠ text ++ C_close :: rest) →
  glob (C_open :: p) s ↔ ∃ t, s = C_open :: t ∧ glob p t.
Proof.
  intros Hno. split.
  - inversion 1; subst; [by edestruct Hno|eauto|done].
  - intros (t & -> & Ht). by constructor.
Qed.

(** A cons list against a condition on its head and tail. *)
Lemma match_cons {P : N → list N → Prop} (f : N → list N → bool) s :
  (∀ c t, s = c :: t → f c t = true ↔ P c t) →
  match s with [] => false | c :: t => f c t end = true ↔ ∃ c t, s = c :: t ∧ P c t.
Proof.
  intros Hf. destruct s as [|c t]; [naive_solver|]. rewrite (Hf c t eq_refl). naive_solver.
Qed.

Lemma match_here_glob fuel s p :
  (length p < fuel)%nat → match_here fuel s p = true ↔ glob p s.
Proof.
  revert s p. induction fuel as [|fuel IH]; intros s p Hf; [lia|].
  destruct p as [|a p]; cbn [match_here length] in *.
  { by rewrite bool_decide_eq_true, glob_nil_inv. }
  assert (IHp : ∀ t, match_here fuel t p = true ↔ glob p t) by (intros; apply IH; lia).
  assert (Hhead : ∀ a s, match s with [] => false
      | c :: t => bool_decide (c = a) && match_here fuel t p end = true ↔ ∃ t, s = a :: t ∧ glob p t).
  { intros b s'. rewrite (match_cons (P := λ c t, c = b ∧ glob p t)); [naive_solver|].
    intros c t _. by rewrite andb_true_iff, bool_decide_eq_true, IHp. }
  destruct (decide (a = C_star)) as [->|Hstar].
  { rewrite existsb_exists, glob_star_inv. setoid_rewrite IHp. by setoid_rewrite list_elem_of_In. }
  destruct (decide (a = C_any)) as [->|Hany].
  { rewrite glob_any_inv. by apply match_cons. }
  destruct (decide (a = C_open)) as [->|Hopen]; [|by rewrite glob_literal_inv].
  destruct (bracket_dec p) as [(negate & body & text & rest & Hb & ->)|Hno].
  - rewrite (parse_bracket_some _ _ _ _ Hb), (glob_set_inv _ _ _ _ _ Hb).
    apply match_cons. intros c t _. rewrite andb_true_iff. cbn [drop].
    assert (drop (S (length text)) (text ++ C_close :: rest) = rest) as ->.
    { rewrite (app_assoc text [C_close] rest : text ++ C_close :: rest = _).
      by rewrite drop_app_length' by (rewrite length_app; simpl; lia). }
    rewrite IH; [done|]. rewrite length_app in Hf. simpl in Hf. lia.
  - rewrite (parse_bracket_none _ Hno), (glob_open_inv _ _ Hno). apply Hhead.
Qed.

(** The matcher decides the language of patterns: on every name and
    pattern, [fnmatchcase] answers true exactly when the pattern's language,
    given by rules, holds the name; the recursion never runs out. *)
Theorem fnmatchcase_glob name pattern :
  fnmatchcase name pattern = true ↔ glob (chars pattern) (chars name).
Proof. apply match_here_glob. lia. Qed.

Section scope.
Context `{!JsonDisplay}.

(** * Normalization *)

Definition normalize_params_constraint (value : option Value) : result Value A4PError :=
  match value with
  | Some (JString text) =>
      if decide (text = "*") then Ok (JString "*")
      else Err (AValue "Action params must be an object or '*'")
  | None | Some JNull => Ok (JObject [])
  | Some (JObject map) => Ok (JObject map)
  | Some _ => Err (AValue "Action params must be an object or '*'")
  end.

Definition normalize_action_spec (value : Value) : result JsonDict A4PError :=
  match value with
  | JObject map =>
      let name := str_trimmed map "name" in
      if str_is_empty name then Err (AValue "Intent action name missing")
      else
        let? allow_extra :=
          match aget "allowExtraParams" map with
          | None => Ok false
          | Some (JBool flag) => Ok flag
          | Some _ => Err (AValue "Intent action allowExtraParams must be a boolean")
          end in
        let? params := normalize_params_constraint (aget "params" map) in
        Ok (dict [("name", JString name); ("params", params);
                  ("allowExtraParams", JBool allow_extra)])
  | _ => Err (AValue "Intent actions must be objects with name and params")
  end.

Definition normalize_action_specs (actions : option Value) : result (list JsonDict) A4PError :=
  match actions with
  | Some (JArray items) =>
      let? normalized := collect_results normalize_action_spec items in
      match normalized with
      | [] => Err (AValue "Intent actions must not be empty")
      | _ => Ok normalized
      end
  | _ => Err (AValue "Intent actions must be a list")
  end.

Definition positive_int (value : option Value) (field_name : string) : result Z A4PError :=
  let error := Err (AValue (field_name +:+ " must be a positive integer")) in
  match value ≫= as_int with
  | Some number => if (0 <? number)%Z then Ok number else error
  | None => error
  end.

Definition normalize_execution_policy (policy : option Value) : result (option JsonDict) A4PError :=
  match policy with
  | None | Some JNull => Ok None
  | Some (JObject map) =>
      match aget "maxExecutions" map with
      | None | Some JNull => Err (AValue "executionPolicy must include maxExecutions")
      | max_executions =>
          let? n := positive_int max_executions "executionPolicy.maxExecutions" in
          Ok (Some (dict [("maxExecutions", value_of_i64 n)]))
      end
  | Some _ => Err (AValue "Intent executionPolicy must be an object")
  end.

Definition normalize_intent_scope (intent : option Value) : result JsonDict A4PError :=
  let raw := match intent with Some (JObject map) => map | _ => [] end in
  let? actions := normalize_action_specs (aget "actions" raw) in
  let normalized := dict [("actions", JArray (JObject <$> actions))] in
  if ahas "executionPolicy" raw then
    let? policy := normalize_execution_policy (aget "executionPolicy" raw) in
    match policy with
    | None => Err (AValue "executionPolicy must include maxExecutions")
    | Some policy => Ok (im_insert "executionPolicy" (JObject policy) normalized)
    end
  else Ok normalized.

(** * Matching *)

Definition param_value_matches (actual_value expected_value : Value) : bool :=
  if value_eqb expected_value (JString "*") then true
  else
    match actual_value, expected_value with
    | JString actual, JString expected => fnmatchcase actual expected
    | _, _ => value_eqb actual_value expected_value
    end.

(** The loop over a constraint's entries: the first mismatch. *)
Fixpoint constraint_mismatch (action : string) (actual_params : JsonDict)
    (constraint : JsonDict) : option string :=
  match constraint with
  | [] => None
  | (key, expected_value) :: constraint =>
      match aget key actual_params with
      | None => Some ("Required param " +:+ quoted key +:+ " missing for action " +:+ quoted action)
      | Some actual_value =>
          if param_value_matches actual_value expected_value then
            constraint_mismatch action actual_params constraint
          else Some ("Param " +:+ quoted key +:+ " mismatch for action " +:+ quoted action)
      end
  end.

(** The params no entry of the constraint names, sorted. *)
Definition extra_params (actual_params constraint : JsonDict) : list string :=
  sort (filter (λ key, ahas key constraint = false) (akeys actual_params)).

Definition params_mismatch (action : string) (actual_params constraint : JsonDict)
    (allow_extra : bool) : option string :=
  let extra := if allow_extra then [] else extra_params actual_params constraint in
  match extra with
  | [] => constraint_mismatch action actual_params constraint
  | _ => Some ("Unexpected params for action " +:+ quoted action +:+ ": [" +:+
               str_join ", " (quoted <$> extra) +:+ "]")
  end.

(** The loop over the allowed actions: the first mismatch is the reason. *)
Fixpoint match_actions (action : string) (actual_params : JsonDict) (actions : list JsonDict)
    (first_mismatch_reason : option string) : result unit (option string) :=
  match actions with
  | [] => Err first_mismatch_reason
  | allowed :: actions =>
      let mismatch reason :=
        match_actions action actual_params actions
          (Some (default reason first_mismatch_reason)) in
      if decide (aget "name" allowed ≫= as_str = Some action) then
        let with_constraint map :=
          let allow_extra := default false (aget "allowExtraParams" allowed ≫= as_bool) in
          match params_mismatch action actual_params map allow_extra with
          | None => Ok ()
          | Some reason => mismatch reason
          end in
        match aget "params" allowed with
        | Some (JString text) =>
            if decide (text = "*") then Ok () else mismatch "Intent params constraint invalid"
        | Some (JObject map) => with_constraint map
        | _ => mismatch "Intent params constraint invalid"
        end
      else match_actions action actual_params actions first_mismatch_reason
  end.

Definition params_match_intent_scope (intent : JsonDict) (action : string)
    (params : option JsonDict) : result unit string :=
  let expected_action := trim action in
  if str_is_empty expected_action then Err "Expected action missing"
  else
    let actual_params := default [] params in
    let? actions := map_err a4p_message (normalize_action_specs (aget "actions" intent)) in
    match match_actions expected_action actual_params actions None with
    | Ok _ => Ok ()
    | Err (Some reason) => Err reason
    | Err None =>
        let names :=
          (λ item, quoted (default "" (aget "name" item ≫= as_str))) <$> actions in
        Err ("Action " +:+ quoted expected_action +:+ " not in token actions: [" +:+
             str_join ", " names +:+ "]")
    end.
End scope.

(** * What a scope authorizes *)

(** An action spec as it is meant: [None] for any params. *)
Record Action := mkAction {
  a_name : string;
  a_params : option JsonDict;
  a_extra : bool
}.

(** What an actual value may be where the scope says [expected]: anything for
    ["*"], a string of the pattern's language for a string, an equal value
    otherwise. *)
Inductive value_allowed : Value → Value → Prop :=
| va_any v : value_allowed v (JString "*")
| va_glob s p : glob (chars p) (chars s) → value_allowed (JString s) (JString p)
| va_equal v w : ¬ (is_string v ∧ is_string w) → value_eqb v w = true → value_allowed v w.

(** [a] allows a call of [action] with [params]. *)
Definition allows (a : Action) (action : string) (params : JsonDict) : Prop :=
  a_name a = action ∧
  ∀ constraint, a_params a = Some constraint →
    (a_extra a = false → ∀ k, k ∈ akeys params → k ∈ akeys constraint) ∧
    ∀ k expected, (k, expected) ∈ constraint →
      ∃ actual, aget k params = Some actual ∧ value_allowed actual expected.

(** The JSON values that are action specs. *)
Inductive params_spec : option Value → option JsonDict → Prop :=
| ps_any : params_spec (Some (JString "*")) None
| ps_missing : params_spec None (Some [])
| ps_null : params_spec (Some JNull) (Some [])
| ps_object m : params_spec (Some (JObject m)) (Some m).

Definition extra_spec (v : option Value) (extra : bool) : Prop :=
  v = Some (JBool extra) ∨ v = None ∧ extra = false.

Section spec.
Context `{!JsonDisplay}.

Inductive action_spec : Value → Action → Prop :=
| as_object_spec m name params extra :
    str_trimmed m "name" = name → name ≠ "" → params_spec (aget "params" m) params →
    extra_spec (aget "allowExtraParams" m) extra →
    action_spec (JObject m) (mkAction name params extra).

(** The normalized form of an action. *)
Definition action_json (a : Action) : JsonDict :=
  [("name", JString (a_name a));
   ("params", match a_params a with None => JString "*" | Some m => JObject m end);
   ("allowExtraParams", JBool (a_extra a))].

Lemma normalize_params_spec v w :
  normalize_params_constraint v = Ok w ↔
  ∃ p, params_spec v p ∧ w = match p with None => JString "*" | Some m => JObject m end.
Proof.
  split.
  - destruct v as [[]|]; simpl; try done; repeat case_decide; intros; simplify_eq;
      eexists; (split; [constructor|done]).
  - intros (p & [] & ->); simpl; by rewrite ?decide_True.
Qed.

Lemma normalize_action_spec_ok v d :
  normalize_action_spec v = Ok d ↔ ∃ a, action_spec v a ∧ d = action_json a.
Proof.
  split.
  - destruct v as [| | | | |m]; simpl; try done.
    destruct (str_trimmed m "name") as [|c name] eqn:Hname; [done|]. simpl.
    destruct (match aget "allowExtraParams" m with None => _ | Some _ => _ end)
      as [extra|] eqn:Hextra; [|done].
    destruct (normalize_params_constraint _) as [w|] eqn:Hp; [|done]. intros [= <-].
    apply normalize_params_spec in Hp as (p & Hp & ->).
    exists (mkAction (String c name) p extra). split; [|done].
    constructor; [done|done|done|]. unfold extra_spec.
    destruct (aget "allowExtraParams" m) as [[]|]; simplify_eq; auto.
  - intros (a & [m name params extra Hname Hne Hp Hextra] & ->). simpl. rewrite Hname.
    destruct name; [done|]. simpl.
    rewrite (proj2 (normalize_params_spec _ _) (ex_intro _ params (conj Hp eq_refl))).
    by destruct Hextra as [->|[-> ->]].
Qed.
End spec.

(** * The match against the specification *)

Lemma param_value_matches_spec v w : param_value_matches v w = true ↔ value_allowed v w.
Proof.
  unfold param_value_matches.
  assert (Hstar : value_eqb w (JString "*") = true ↔ w = JString "*").
  { destruct w; simpl; try (split; intros; done). rewrite bool_decide_eq_true. naive_solver. }
  destruct (value_eqb w (JString "*")) eqn:E.
  { rewrite (proj1 Hstar eq_refl). split; [constructor|done]. }
  split.
  - intros Hm. destruct v, w; simpl in *; try (by apply va_equal; [intros [??]|]).
    apply va_glob. by apply match_here_glob in Hm; [|lia].
  - destruct 1 as [v|s p Hg|v w Hs Hv]; [by pose proof (proj2 Hstar eq_refl)| |].
    + by apply match_here_glob; [lia|].
    + destruct v as [| | |?| |], w as [| | |?| |]; simpl in *; try done. naive_solver.
Qed.

Lemma constraint_mismatch_None action params constraint :
  constraint_mismatch action params constraint = None ↔
  ∀ k expected, (k, expected) ∈ constraint →
    ∃ actual, aget k params = Some actual ∧ value_allowed actual expected.
Proof.
  induction constraint as [|[k w] constraint IH]; cbn [constraint_mismatch]; [set_solver|].
  destruct (aget k params) as [v|] eqn:Hk.
  - destruct (param_value_matches v w) eqn:Hv.
    + rewrite IH. apply param_value_matches_spec in Hv. split.
      * intros H' k' w' [[= -> ->]|Hin]%elem_of_cons; eauto.
      * intros H' k' w' Hin. apply H'. by right.
    + split; [done|]. intros H'. destruct (H' k w ltac:(by left)) as (v' & Hk' & Hv').
      apply param_value_matches_spec in Hv'. congruence.
  - split; [done|]. intros H'. destruct (H' k w ltac:(by left)) as (v' & Hk' & _). congruence.
Qed.

Lemma extra_params_nil params constraint :
  extra_params params constraint = [] ↔ ∀ k, k ∈ akeys params → k ∈ akeys constraint.
Proof.
  assert (Hin : ∀ k, k ∈ extra_params params constraint ↔
    k ∉ akeys constraint ∧ k ∈ akeys params).
  { intros k. unfold extra_params. by rewrite elem_of_sort, list_elem_of_filter, ahas_false, aget_None_keys. }
  split.
  - intros Hnil k Hk. destruct (decide (k ∈ akeys constraint)); [done|].
    by destruct (proj2 (Hin k)); rewrite ?Hnil.
  - intros H'. destruct (extra_params params constraint) as [|k l]; [done|].
    destruct (proj1 (Hin k)) as [Hk Hp]; [by left|]. by apply H' in Hp.
Qed.

Lemma params_mismatch_None action params constraint extra :
  params_mismatch action params constraint extra = None ↔
  (extra = false → ∀ k, k ∈ akeys params → k ∈ akeys constraint) ∧
  ∀ k expected, (k, expected) ∈ constraint →
    ∃ actual, aget k params = Some actual ∧ value_allowed actual expected.
Proof.
  unfold params_mismatch. rewrite <-(constraint_mismatch_None action), <-extra_params_nil.
  destruct extra; [naive_solver|]. destruct (extra_params params constraint); naive_solver.
Qed.

Lemma match_actions_ok action params acts reason :
  match_actions action params (action_json <$> acts) reason = Ok () ↔
  ∃ a, a ∈ acts ∧ allows a action params.
Proof.
  revert reason. induction acts as [|a acts IH]; intros reason; cbn [fmap list_fmap match_actions].
  { split; [done|]. intros (a & Ha & _). by apply elem_of_nil in Ha. }
  assert (Hcons : (∃ b, b ∈ a :: acts ∧ allows b action params) ↔
    allows a action params ∨ ∃ b, b ∈ acts ∧ allows b action params).
  { setoid_rewrite elem_of_cons. naive_solver. }
  rewrite Hcons. clear Hcons. simpl.
  destruct (decide (Some (a_name a) = Some action)) as [[= Hn]|Hn].
  - destruct (a_params a) as [constraint|] eqn:Hp; cycle 1.
    { rewrite decide_True by done. split; [|done]. intros _. left. split; [done|congruence]. }
    pose proof (params_mismatch_None action params constraint (a_extra a)) as Hm.
    destruct (params_mismatch _ _ _ _); rewrite ?IH; unfold allows; rewrite ?Hp; naive_solver.
  - rewrite IH. unfold allows. naive_solver.
Qed.

Section matching.
Context `{!JsonDisplay}.

Lemma normalize_specs_ok items l :
  collect_results normalize_action_spec items = Ok l ↔
  ∃ acts, Forall2 action_spec items acts ∧ l = action_json <$> acts.
Proof.
  revert l. induction items as [|v items IH]; intros l; cbn [collect_results].
  { split; [intros [= <-]; by exists []|]. intros (acts & Hf & ->). by inversion Hf. }
  split.
  - destruct (normalize_action_spec v) as [d|] eqn:Hv; [|done].
    destruct (collect_results _ items) as [ds|]; [|done]. intros [= <-].
    apply normalize_action_spec_ok in Hv as (a & Ha & ->).
    destruct (proj1 (IH ds) eq_refl) as (acts & Hacts & ->). exists (a :: acts). by split; [constructor|].
  - intros (acts & Hf & ->). inversion Hf as [|? a ? acts' Ha Hacts]; subst.
    rewrite (proj2 (normalize_action_spec_ok v (action_json a))) by eauto.
    by rewrite (proj2 (IH _)) by eauto.
Qed.

Lemma normalize_action_specs_ok v l :
  normalize_action_specs v = Ok l ↔
  ∃ items acts, v = Some (JArray items) ∧ acts ≠ [] ∧ Forall2 action_spec items acts ∧
    l = action_json <$> acts.
Proof.
  split.
  - destruct v as [[| | | |items|]|]; simpl; try done.
    destruct (collect_results _ _) as [ds|] eqn:Hi; [|done].
    apply normalize_specs_ok in Hi as (acts & Hacts & ->). exists items, acts.
    destruct acts; simpl in *; [done|]. simplify_eq. done.
  - intros (items & acts & -> & Hne & Hf & ->). simpl.
    rewrite (proj2 (normalize_specs_ok _ _)) by eauto. by destruct acts.
Qed.

(** A scope authorizes a call exactly as it is meant: the scope's actions
    are all well formed, there is at least one, and one with the call's name
    allows its params, that is every constrained param is present with a value
    the constraint admits and, unless extra params are allowed, no other is. *)
Theorem params_match_intent_scope_spec intent action params :
  params_match_intent_scope intent action params = Ok () ↔
  trim action ≠ "" ∧ ∃ items acts,
    aget "actions" intent = Some (JArray items) ∧ Forall2 action_spec items acts ∧
    ∃ a, a ∈ acts ∧ allows a (trim action) (default [] params).
Proof.
  unfold params_match_intent_scope. split.
  - destruct (trim action) as [|c s] eqn:Ht; [done|]. simpl.
    destruct (normalize_action_specs _) as [ds|e] eqn:Hn; [|done]. simpl.
    apply normalize_action_specs_ok in Hn as (items & acts & Hi & _ & Hf & ->).
    destruct (match_actions _ _ _ _) as [[]|[]] eqn:Hm; [|done..]. intros _.
    apply match_actions_ok in Hm. split; [done|]. by exists items, acts.
  - intros (Ht & items & acts & Hi & Hf & Hex). pose proof Hex as (a & Ha & _).
    rewrite (proj2 (normalize_action_specs_ok _ (action_json <$> acts))); cycle 1.
    { exists items, acts. split; [done|]. split; [by intros ->; apply elem_of_nil in Ha|done]. }
    destruct (trim action) as [|c s] eqn:Hs; [done|]. simpl.
    by rewrite (proj2 (match_actions_ok _ _ acts None) Hex).
Qed.
End matching.

(** * Normal forms *)

Section normal.
Context `{!JsonDisplay}.

Lemma str_trimmed_trimmed m key : trim (str_trimmed m key) = str_trimmed m key.
Proof. apply trim_idem. Qed.

(** The normal form of an action spec is a spec of the same action. *)
Lemma action_spec_json v a : action_spec v a → action_spec (JObject (action_json a)) a.
Proof.
  intros [m name params extra <- Hne Hp Hextra]. unfold action_json. simpl.
  constructor; [|done|destruct params; simpl; constructor|by left].
  erewrite str_trimmed_string by done. apply trim_idem.
Qed.

Lemma normalize_action_specs_idem v l :
  normalize_action_specs v = Ok l →
  normalize_action_specs (Some (JArray (JObject <$> l))) = Ok l.
Proof.
  intros (items & acts & _ & Hne & Hf & ->)%normalize_action_specs_ok.
  apply normalize_action_specs_ok. exists (JObject <$> (action_json <$> acts)), acts.
  split; [done|]. split; [done|]. split; [|done]. clear Hne.
  induction Hf as [|w a items acts Ha Hf IH]; simpl; [constructor|].
  constructor; [by eapply action_spec_json|done].
Qed.

Lemma positive_int_ok v field n :
  positive_int v field = Ok n ↔ ∃ w, v = Some w ∧ as_int w = Some n ∧ (0 < n)%Z.
Proof.
  unfold positive_int. destruct v as [w|]; simpl; [|naive_solver].
  split.
  - destruct (as_int w) as [z|] eqn:E; [|done]. destruct (Z.ltb_spec 0 z); [|done].
    intros [= <-]. eauto.
  - intros (? & [= <-] & -> & Hn). by rewrite (proj2 (Z.ltb_lt _ _) Hn).
Qed.

Lemma as_int_value_of_i64 n : in_i64 n → as_int (value_of_i64 n) = Some n.
Proof. apply as_i64_value_of_i64. Qed.

Lemma as_int_range v n : wf_value v → as_int v = Some n → in_i64 n.
Proof. intros Hwf. destruct v; simpl; try done. by apply (as_i64_range (JNumber _)). Qed.

(** The policies there are: a positive limit, or none. *)
Lemma normalize_execution_policy_ok v p :
  (∀ w, v = Some w → wf_value w) → normalize_execution_policy v = Ok p →
  p = None ∨ ∃ n, p = Some [("maxExecutions", value_of_i64 n)] ∧ (0 < n)%Z ∧ in_i64 n.
Proof.
  intros Hwf. unfold normalize_execution_policy.
  destruct v as [[| | | | |m]|]; try (intros; simplify_eq; by left).
  destruct (aget "maxExecutions" m) as [w|] eqn:Hm; [|done].
  assert (Hw : wf_value w) by (eapply wf_aget; [by apply Hwf|done]).
  destruct w; try done; (destruct (positive_int _ _) as [z|] eqn:Hn; [|done]);
    intros [= <-]; right; apply positive_int_ok in Hn as (? & [= <-] & Hi & Hpos);
    eauto using as_int_range.
Qed.

(** Normalizing is idempotent: what was normalized once, in whatever form
    it came, is its own normal form. *)
Theorem normalize_intent_scope_idem v d :
  (∀ w, v = Some w → wf_value w) →
  normalize_intent_scope v = Ok d → normalize_intent_scope (Some (JObject d)) = Ok d.
Proof.
  intros Hwf. unfold normalize_intent_scope.
  set (raw := match v with Some (JObject m) => m | _ => [] end).
  assert (Hraw : ∀ k w, aget k raw = Some w → wf_value w).
  { subst raw. intros k w. destruct v as [[| | | | |m]|]; try done.
    eapply wf_aget, Hwf. done. }
  destruct (normalize_action_specs (aget "actions" raw)) as [acts|] eqn:Ha; [|done].
  apply normalize_action_specs_idem in Ha.
  destruct (ahas "executionPolicy" raw) eqn:Hp.
  - destruct (normalize_execution_policy _) as [p|] eqn:Hn; [|done].
    apply normalize_execution_policy_ok in Hn as [->|(n & -> & Hpos & Hr)]; [done| |by apply Hraw].
    intros [= <-]. cbn -[normalize_action_specs normalize_execution_policy value_of_i64].
    unfold ahas. cbn [aget]. decide_literals. rewrite Ha.
    assert (Hpi : normalize_execution_policy (Some (JObject [("maxExecutions", value_of_i64 n)])) =
      Ok (Some [("maxExecutions", value_of_i64 n)])).
    { cbn [normalize_execution_policy aget]. decide_literals.
      assert (Hn : positive_int (Some (value_of_i64 n)) "executionPolicy.maxExecutions" = Ok n).
      { apply positive_int_ok. exists (value_of_i64 n). by rewrite as_int_value_of_i64. }
      unfold value_of_i64 in Hn |- *. by rewrite Hn. }
    by rewrite Hpi.
  - intros [= <-]. cbn -[normalize_action_specs]. decide_literals. by rewrite Ha.
Qed.

(** A normalized scope with an execution policy bounds the executions. *)
Lemma normalize_intent_scope_policy v d p :
  (∀ w, v = Some w → wf_value w) →
  normalize_intent_scope v = Ok d → get_object d "executionPolicy" = Some p →
  ∃ n, p = [("maxExecutions", value_of_i64 n)] ∧ (0 < n)%Z ∧ in_i64 n.
Proof.
  intros Hwf. unfold normalize_intent_scope.
  set (raw := match v with Some (JObject m) => m | _ => [] end).
  assert (Hraw : ∀ k w, aget k raw = Some w → wf_value w).
  { subst raw. intros k w. destruct v as [[| | | | |m]|]; try done.
    eapply wf_aget, Hwf. done. }
  destruct (normalize_action_specs _) as [acts|]; [|done].
  destruct (ahas "executionPolicy" raw); [|by intros [= <-]].
  destruct (normalize_execution_policy _) as [q|] eqn:Hn; [|done].
  apply normalize_execution_policy_ok in Hn as [->|(n & -> & Hpos & Hr)]; [done| |by apply Hraw].
  intros [= <-] [= <-]. by exists n.
Qed.
End normal.

(** A call matches a scope exactly when it matches its normal form. *)
Lemma params_match_normalized `{!JsonDisplay} intent d action params :
  normalize_intent_scope (Some (JObject intent)) = Ok d →
  params_match_intent_scope d action params = params_match_intent_scope intent action params.
Proof.
  unfold normalize_intent_scope.
  destruct (normalize_action_specs (aget "actions" intent)) as [acts|] eqn:Ha; [|done].
  intros Hd. assert (aget "actions" d = Some (JArray (JObject <$> acts))) as Hd'.
  { destruct (ahas "executionPolicy" intent); [|by injection Hd as <-].
    destruct (normalize_execution_policy _) as [[p|]|]; [|done..]. by injection Hd as <-. }
  unfold params_match_intent_scope. by rewrite Hd', Ha, (normalize_action_specs_idem _ _ Ha).
Qed.

(** * Normal forms are well formed *)

Section wf.
Context `{!JsonDisplay}.

Lemma wf_object_literal (l : JsonDict) :
  bool_decide (NoDup (akeys l)) = true → Forall (λ kv, wf_value kv.2) l → wf_value (JObject l).
Proof. intros ?%bool_decide_eq_true. by constructor. Qed.

Lemma action_spec_wf v a : wf_value v → action_spec v a → wf_value (JObject (action_json a)).
Proof.
  intros Hwf Ha. destruct Ha as [m name params extra _ _ Hp _]. apply wf_object_literal; [done|].
  remember (aget "params" m) as o eqn:Ho.
  repeat constructor. simpl. destruct Hp; try (by repeat constructor). eapply wf_aget; [exact Hwf|by symmetry].
Qed.

Lemma normalize_action_specs_wf v acts :
  (∀ w, v = Some w → wf_value w) → normalize_action_specs v = Ok acts →
  wf_value (JArray (JObject <$> acts)).
Proof.
  intros Hwf (items & specs & Hi & _ & Hf & ->)%normalize_action_specs_ok.
  apply Hwf in Hi. inversion Hi as [| | | |? Hall|]; subst. constructor. clear Hi.
  induction Hf as [|w a items specs Hw Hf IH]; [constructor|].
  apply Forall_cons in Hall as [Hw' Hall]. constructor; [by eapply action_spec_wf|auto].
Qed.

Lemma execution_policy_wf n :
  in_i64 n → wf_value (JObject [("maxExecutions", value_of_i64 n)]).
Proof.
  intros. apply wf_object_literal; [done|]. constructor; [by apply wf_value_of_i64|constructor].
Qed.

Lemma normalize_intent_scope_wf v d :
  (∀ w, v = Some w → wf_value w) → normalize_intent_scope v = Ok d → wf_value (JObject d).
Proof.
  intros Hwf. unfold normalize_intent_scope.
  set (raw := match v with Some (JObject m) => m | _ => [] end).
  assert (Hraw : ∀ k w, aget k raw = Some w → wf_value w).
  { subst raw. intros k w. destruct v as [[| | | | |m]|]; try done.
    eapply wf_aget, Hwf. done. }
  destruct (normalize_action_specs (aget "actions" raw)) as [acts|] eqn:Ha; [|done].
  assert (Hacts : wf_value (JArray (JObject <$> acts))) by (by eapply normalize_action_specs_wf, Ha; apply Hraw).
  destruct (ahas "executionPolicy" raw).
  - destruct (normalize_execution_policy _) as [p|] eqn:Hn; [|done].
    apply normalize_execution_policy_ok in Hn as [->|(n & -> & Hpos & Hr)]; [done| |by apply Hraw].
    intros [= <-]. apply wf_object_literal; [done|]. constructor; [done|].
    constructor; [by apply execution_policy_wf|constructor].
  - intros [= <-]. apply wf_object_literal; [done|]. by constructor.
Qed.
End wf.
