(* ===== verification/UsageStore.v ===== *)
(** The in-memory usage store of intent tokens
    (A4P/rust-sdk/src/intent/usage_store.rs): how many executions a token has
    left.  The SQLite store runs the same steps as SQL inside one transaction
    and is not modelled. *)
From S2P Require Import Prelude RustStr A4PUtil.

Definition DEFAULT_INTENT_TOKEN_USAGE_DB_PATH : string := ".a4p/intent_token_usage.sqlite3".

Definition default_intent_token_usage_db_path_in (env : string → option string) : string :=
  trim (default DEFAULT_INTENT_TOKEN_USAGE_DB_PATH
    (value ← env "A4P_USAGE_DB_PATH"; if str_is_empty value then None else Some value)).

(** * The store *)

(** [IntentTokenUsageStoreError] is its message. *)
Definition validate_consume_arguments (token_id : string) (max_executions expire_at_epoch : Z) :
    result string string :=
  let normalized := trim token_id in
  if str_is_empty normalized then Err "token_id must not be empty"
  else if (max_executions <=? 0)%Z then Err "max_executions must be a positive integer"
  else if (expire_at_epoch <=? 0)%Z then Err "expire_at_epoch must be a positive integer"
  else Ok normalized.

Record UsageRow := mkUsageRow {
  executions_used : Z;
  executions_limit : Z;
  ur_expire_at_epoch : Z
}.

(** [rows]: what the mutex protects. *)
Notation usage_rows := (gmap string UsageRow).

(** [consume], at the clock reading [now]. *)
Definition consume (now : Z) (token_id : string) (max_executions expire_at_epoch : Z)
    (rows : usage_rows) : result (bool * Z) string * usage_rows :=
  match validate_consume_arguments token_id max_executions expire_at_epoch with
  | Err e => (Err e, rows)
  | Ok token_id =>
      let rows := filter (λ kv : string * UsageRow, now < ur_expire_at_epoch kv.2)%Z rows in
      match rows !! token_id with
      | None =>
          (Ok (true, 1%Z), <[token_id := mkUsageRow 1 max_executions expire_at_epoch]> rows)
      | Some row =>
          if negb (executions_limit row =? max_executions)%Z ||
             negb (ur_expire_at_epoch row =? expire_at_epoch)%Z then
            (Err "Stored intent token usage policy does not match the signed token", rows)
          else if (max_executions <=? executions_used row)%Z then
            (Ok (false, executions_used row), rows)
          else
            let used := i64_add (executions_used row) 1 in
            (Ok (true, used),
             <[token_id := mkUsageRow used (executions_limit row) (ur_expire_at_epoch row)]> rows)
      end
  end.

(** One call of the store, with the clock reading it makes. *)
Record ConsumeCall := mkConsumeCall {
  cc_now : Z; cc_token : string; cc_max : Z; cc_expire : Z
}.

Definition consume_call (c : ConsumeCall) : usage_rows → result (bool * Z) string * usage_rows :=
  consume (cc_now c) (cc_token c) (cc_max c) (cc_expire c).

(** A sequence of calls, in the order they take the lock, and their answers. *)
Fixpoint consume_all (calls : list ConsumeCall) (rows : usage_rows) :
    list (result (bool * Z) string) * usage_rows :=
  match calls with
  | [] => ([], rows)
  | c :: calls =>
      let (r, rows) := consume_call c rows in
      let (rs, rows) := consume_all calls rows in
      (r :: rs, rows)
  end.

(** * What the store promises *)

Section promise.
Variables (token : string) (max expire : Z).

(** The call is for [token], under the signed policy. *)
Definition for_token (c : ConsumeCall) : Prop :=
  trim (cc_token c) = token ∧ cc_max c = max ∧ cc_expire c = expire.
#[export] Instance for_token_dec c : Decision (for_token c).
Proof. unfold for_token. apply _. Defined.

Definition granted (r : result (bool * Z) string) : Prop := ∃ n, r = Ok (true, n).
#[export] Instance granted_dec r : Decision (granted r).
Proof.
  refine (match r with Ok (true, n) => left _ | _ => right _ end); unfold granted; naive_solver.
Defined.

(** The executions granted to the token under the policy. *)
Definition grants (calls : list ConsumeCall) (results : list (result (bool * Z) string)) : nat :=
  length (filter (λ cr : ConsumeCall * _, for_token cr.1 ∧ granted cr.2) (zip calls results)).

(** A counter with a limit: the abstract store of one token. *)
Definition counter_step (used : Z) : result (bool * Z) string * Z :=
  if (max <=? used)%Z then (Ok (false, used), used) else (Ok (true, used + 1), used + 1)%Z.

Fixpoint counter_all (n : nat) (used : Z) : list (result (bool * Z) string) :=
  match n with
  | O => []
  | S n => let (r, used) := counter_step used in r :: counter_all n used
  end.
End promise.

(** * Lemmas *)

Lemma validate_ok t max exp id :
  validate_consume_arguments t max exp = Ok id ↔
  id = trim t ∧ trim t ≠ "" ∧ (0 < max)%Z ∧ (0 < exp)%Z.
Proof.
  unfold validate_consume_arguments.
  destruct (trim t) as [|c s]; simpl; [naive_solver|].
  destruct (Z.leb_spec max 0), (Z.leb_spec exp 0); split; intros; destruct_and?; simplify_eq;
    try lia; done.
Qed.

Section facts.
Variables (token : string) (max expire : Z).
Hypothesis Hmax : (max ≤ i64_max)%Z.

(** [used] executions are recorded for the token under the policy. *)
Definition recorded (rows : usage_rows) (used : Z) : Prop :=
  (rows !! token = Some (mkUsageRow used max expire) ∧ (1 ≤ used ≤ max)%Z) ∨
  (used = 0%Z ∧ ∀ row, rows !! token = Some row →
    executions_limit row ≠ max ∨ ur_expire_at_epoch row ≠ expire).

Lemma recorded_retain now rows used :
  (now < expire)%Z → recorded rows used →
  recorded (filter (λ kv : string * UsageRow, now < ur_expire_at_epoch kv.2)%Z rows) used.
Proof.
  intros Hnow [[Hrow Hu]|[-> Hrow]]; [left|right].
  - split; [|done]. by apply map_lookup_filter_Some.
  - split; [done|]. intros row [Hr _]%map_lookup_filter_Some. by apply Hrow.
Qed.

Lemma recorded_other t row rows used :
  t ≠ token → recorded rows used → recorded (<[t := row]> rows) used.
Proof. intros Hne. unfold recorded. by rewrite lookup_insert_ne. Qed.

Lemma recorded_bounds rows used : recorded rows used → (0 ≤ used ≤ Z.max 0 max)%Z.
Proof. intros [[_ ?]|[-> _]]; lia. Qed.

(** One call while the token is live: the record counts what is granted. *)
Lemma consume_call_recorded c rows used r rows' :
  (cc_now c < expire)%Z → recorded rows used → consume_call c rows = (r, rows') →
  recorded rows' (if decide (for_token token max expire c ∧ granted r) then used + 1 else used)%Z.
Proof.
  intros Hnow Hrec. unfold consume_call, consume.
  destruct (validate_consume_arguments _ _ _) as [id|e] eqn:Hv; cycle 1.
  { intros [= <- <-]. by rewrite decide_False by (intros [_ [? [=]]]). }
  apply validate_ok in Hv as (-> & Ht & Hm & He).
  apply (recorded_retain _ _ _ Hnow) in Hrec.
  set (live := filter _ rows) in *. clearbody live. clear rows.
  destruct (decide (trim (cc_token c) = token)) as [Htok|Htok].
  - rewrite Htok. destruct (live !! token) as [row|] eqn:Hrow.
    + destruct (Z.eqb_spec (executions_limit row) (cc_max c)) as [Hl|Hl]; simpl; cycle 1.
      { intros [= <- <-]. by rewrite decide_False by (intros [_ [? [=]]]). }
      destruct (Z.eqb_spec (ur_expire_at_epoch row) (cc_expire c)) as [Hx|Hx]; simpl; cycle 1.
      { intros [= <- <-]. by rewrite decide_False by (intros [_ [? [=]]]). }
      destruct (Z.leb_spec (cc_max c) (executions_used row)) as [Hu|Hu].
      { intros [= <- <-]. by rewrite decide_False by (intros [_ [? [=]]]). }
      intros [= <- <-]. destruct (decide (for_token token max expire c)) as [Hf|Hf].
      * destruct Hf as (_ & Hcm & Hce). rewrite decide_True by (split; [done|by eexists]).
        destruct Hrec as [[Hr Hb]|[_ Hno]]; [|destruct (Hno row Hrow); congruence].
        rewrite Hrow in Hr. injection Hr as ->. simpl in *. left. rewrite lookup_insert_eq.
        rewrite i64_add_id by (unfold in_i64, i64_min, i64_max in *; lia). split; [done|lia].
      * rewrite decide_False by tauto. right.
        destruct Hrec as [[Hr Hb]|[-> Hno]].
        { rewrite Hrow in Hr. injection Hr as ->. simpl in *. destruct Hf. by split. }
        split; [done|]. intros ?. rewrite lookup_insert_eq. intros [= <-]. simpl. by apply Hno.
    + intros [= <- <-]. destruct Hrec as [[Hr _]|[-> _]]; [congruence|].
      destruct (decide (for_token token max expire c)) as [(_ & Hcm & Hce)|Hf].
      * rewrite decide_True by (split; [done|by eexists]). left. rewrite lookup_insert_eq, Hcm, Hce.
        split; [done|lia].
      * rewrite decide_False by tauto. right. split; [done|]. intros ?. rewrite lookup_insert_eq.
        intros [= <-]. simpl. unfold for_token in Hf. destruct (decide (cc_max c = max)); naive_solver.
  - intros Hres. rewrite decide_False by (unfold for_token; tauto).
    repeat case_match; simplify_eq; auto using recorded_other.
Qed.

Lemma grants_cons c calls r results :
  grants token max expire (c :: calls) (r :: results) =
  ((if decide (for_token token max expire c ∧ granted r) then 1 else 0) +
   grants token max expire calls results)%nat.
Proof.
  unfold grants. cbn [zip zip_with]. rewrite filter_cons. cbn [fst snd].
  by destruct (decide _).
Qed.

Lemma consume_all_recorded calls rows used results rows' :
  Forall (λ c, cc_now c < expire)%Z calls → recorded rows used →
  consume_all calls rows = (results, rows') →
  recorded rows' (used + Z.of_nat (grants token max expire calls results)).
Proof.
  intros Hnow. revert rows used results. induction Hnow as [|c calls Hc Hcalls IH];
    intros rows used results Hrec; cbn [consume_all].
  { intros [= <- <-]. by rewrite Z.add_0_r. }
  destruct (consume_call c rows) as [r rows1] eqn:Hr.
  destruct (consume_all calls rows1) as [rs rows2] eqn:Hrs. intros [= <- <-].
  apply (consume_call_recorded _ _ _ _ _ Hc Hrec) in Hr. rewrite grants_cons.
  specialize (IH _ _ _ Hr Hrs). case_decide; [|done].
  eapply eq_ind; [exact IH|lia].
Qed.
End facts.

(** A signed execution limit holds: whatever calls for whatever tokens
    reach the store, in whatever order, as long as the clock has not reached
    the token's expiry, the executions granted to a token under its policy
    are at most the policy's limit. *)
Theorem usage_never_exceeded token max expire calls results rows :
  (max ≤ i64_max)%Z → Forall (λ c, cc_now c < expire)%Z calls →
  consume_all calls ∅ = (results, rows) →
  (Z.of_nat (grants token max expire calls results) ≤ Z.max 0 max)%Z.
Proof.
  intros Hmax Hnow Hall. apply (consume_all_recorded token max expire Hmax _ _ 0) in Hall; [|done|].
  - apply recorded_bounds in Hall. lia.
  - right. split; [done|]. intros row. by rewrite lookup_empty.
Qed.

(** * The store is a counter *)

Section counter.
Variables (token : string) (max expire : Z).
Hypothesis Htoken : token ≠ "".
Hypothesis Hmax : (0 < max ≤ i64_max)%Z.
Hypothesis Hexpire : (0 < expire)%Z.

(** The row of the token after [used] granted executions. *)
Definition counter_row (used : Z) : option UsageRow :=
  if decide (used = 0)%Z then None else Some (mkUsageRow used max expire).

Lemma counter_row_live now (rows : usage_rows) used :
  (now < expire)%Z → rows !! token = counter_row used →
  filter (λ kv : string * UsageRow, now < ur_expire_at_epoch kv.2)%Z rows !! token = counter_row used.
Proof.
  unfold counter_row. intros Hnow. case_decide; intros Hrow; [by rewrite map_lookup_filter, Hrow|].
  by apply map_lookup_filter_Some.
Qed.

Lemma consume_call_other c (rows : usage_rows) used r rows' :
  trim (cc_token c) ≠ token → (cc_now c < expire)%Z → rows !! token = counter_row used →
  consume_call c rows = (r, rows') → rows' !! token = counter_row used.
Proof.
  intros Hne Hnow Hrow. unfold consume_call, consume.
  destruct (validate_consume_arguments _ _ _) as [id|e] eqn:Hv; [|by intros [= <- <-]].
  apply validate_ok in Hv as (-> & _).
  apply (counter_row_live (cc_now c)) in Hrow; [|done].
  revert Hrow. generalize (filter (λ kv : string * UsageRow, cc_now c < ur_expire_at_epoch kv.2)%Z rows).
  intros live Hrow Hres. repeat case_match; simplify_eq; by rewrite ?lookup_insert_ne.
Qed.

Lemma consume_call_counter c (rows : usage_rows) used r rows' :
  for_token token max expire c → (cc_now c < expire)%Z → (0 ≤ used ≤ max)%Z →
  rows !! token = counter_row used → consume_call c rows = (r, rows') →
  r = (counter_step max used).1 ∧ rows' !! token = counter_row (counter_step max used).2 ∧
  (0 ≤ (counter_step max used).2 ≤ max)%Z.
Proof.
  intros (Ht & Hcm & Hce) Hnow Hu Hrow. unfold consume_call, consume, counter_step.
  rewrite (proj2 (validate_ok (cc_token c) _ _ token)) by (rewrite Ht, Hcm, Hce; naive_solver lia).
  rewrite Hcm, Hce. apply (counter_row_live (cc_now c)) in Hrow; [|done].
  set (live := filter _ rows) in *. clearbody live. unfold counter_row in Hrow |- *. rewrite Hrow.
  destruct (decide (used = 0)%Z) as [->|Hne]; cbn [executions_limit ur_expire_at_epoch executions_used].
  - rewrite (proj2 (Z.leb_gt _ _)) by lia. intros [= <- <-]. rewrite lookup_insert_eq. simpl.
    repeat split; lia.
  - rewrite !Z.eqb_refl. simpl. destruct (Z.leb_spec max used).
    + intros [= <- <-]. simpl. by rewrite decide_False.
    + intros [= <- <-]. rewrite lookup_insert_eq, i64_add_id by (unfold in_i64, i64_min in *; lia).
      simpl. rewrite decide_False by lia. repeat split; lia.
Qed.

Lemma consume_all_counter calls (rows : usage_rows) used results rows' :
  Forall (λ c, cc_now c < expire)%Z calls →
  Forall (λ c, trim (cc_token c) = token → for_token token max expire c) calls →
  (0 ≤ used ≤ max)%Z → rows !! token = counter_row used →
  consume_all calls rows = (results, rows') →
  (filter (λ cr : ConsumeCall * _, trim (cc_token cr.1) = token) (zip calls results)).*2 =
  counter_all max (length (filter (λ c, trim (cc_token c) = token) calls)) used.
Proof.
  intros Hnow. revert rows used results. induction Hnow as [|c calls Hc Hcalls IH];
    intros rows used results Hpol Hu Hrow; cbn [consume_all]; [by intros [= <- _]|].
  apply Forall_cons in Hpol as [Hpc Hpol].
  destruct (consume_call c rows) as [r rows1] eqn:Hr.
  destruct (consume_all calls rows1) as [rs rows2] eqn:Hrs. intros [= <- <-].
  cbn [zip zip_with]. rewrite !filter_cons. cbn [fst].
  destruct (decide (trim (cc_token c) = token)) as [Ht|Ht].
  - destruct (consume_call_counter c rows used r rows1 (Hpc Ht) Hc Hu Hrow Hr) as (-> & Hrow1 & Hu1).
    cbn [fmap list_fmap length counter_all snd]. destruct (counter_step max used) as [r' u'].
    f_equal. exact (IH rows1 u' rs Hpol Hu1 Hrow1 Hrs).
  - eapply consume_call_other in Hr; [|done..]. by eapply IH.
Qed.
End counter.

(** The store implements a counter per token: among any calls for any
    tokens, those for one token, under its one policy and before its expiry,
    are answered as a counter with that limit answers them, the first [max]
    granted and numbered, every later one refused. *)
Theorem usage_store_refines_counter token max expire calls results rows :
  token ≠ "" → (0 < max ≤ i64_max)%Z → (0 < expire)%Z →
  Forall (λ c, cc_now c < expire)%Z calls →
  Forall (λ c, trim (cc_token c) = token → for_token token max expire c) calls →
  consume_all calls ∅ = (results, rows) →
  (filter (λ cr : ConsumeCall * _, trim (cc_token cr.1) = token) (zip calls results)).*2 =
  counter_all max (length (filter (λ c, trim (cc_token c) = token) calls)) 0.
Proof.
  intros Ht Hm He Hnow Hpol Hall.
  apply (consume_all_counter token max expire Ht Hm He calls ∅ 0 results rows Hnow Hpol); [lia| |done].
  by rewrite lookup_empty.
Qed.
