(* ===== verification/Canonical.v ===== *)
(** Canonical JSON (A4P/rust-sdk/src/canonical.rs): the text every A4P
    signature covers.  Escaping a string is serde_json's, the shortest decimal
    digits of a float are the Rust standard library's.

    Facts about canonical JSON: the text depends on nothing but the value, and
    the value can be read back from the text.

    A JSON codec for the witnesses: values as text through stdpp's encoding of
    trees.  It stands in for serde_json where a theorem asks for a codec that
    reads back what it wrote. *)
From S2P Require Import Prelude RustMap RustStr F64 Json A4PUtil.
From Stdlib Require Import Ascii.

Definition OUT_OF_RANGE_FLOAT : string := "Out of range float values are not JSON compliant".

(** [serde_json::to_string(text)] and [format!("{:e}", x)]. *)
Class JsonText := {
  serde_to_string : string → option string;
  scientific : f64 → string
}.

Definition C_quote : ascii := ascii_of_nat 34.

(** * Text helpers *)

(** [s.chars().filter(|c| c.is_ascii_digit())]. *)
Fixpoint ascii_digits (s : string) : string :=
  match s with
  | EmptyString => EmptyString
  | String a s => if byte_in 48 57 a then String a (ascii_digits s) else ascii_digits s
  end.

(** [s.trim_end_matches('0')]. *)
Definition trim_end_zeros : string → string := trim_end_char "0"%char.

Fixpoint zeros (n : nat) : string :=
  match n with O => EmptyString | S n => String "0"%char (zeros n) end.

Definition wrap_i32 (z : Z) : Z := ((z + 2 ^ 31) mod 2 ^ 32 - 2 ^ 31)%Z.

(** [str::parse::<i32>]. *)
Definition parse_i32 (s : string) : option Z :=
  check_range (- 2 ^ 31) (2 ^ 31 - 1) (parse_i64 s).

(** [format!("{:02}", n)]. *)
Definition pad2 (n : Z) : string :=
  let s := pretty n in if (String.length s <? 2)%nat then String "0"%char s else s.

Section canonical.
Context `{!JsonText}.

(** * Floats *)

(** The digits and the position of the point, of the text of [{:e}]. *)
Definition float_digits (value : f64) : string * Z :=
  let sci := scientific (SFabs value) in
  let '(mantissa, exponent) := default (sci, "0") (split_once "e"%char sci) in
  let exponent := default 0%Z (parse_i32 exponent) in
  let digits := trim_end_zeros (ascii_digits mantissa) in
  let digits := if str_is_empty digits then "0" else digits in
  (digits, wrap_i32 (exponent + 1)).

(** The layouts of Python's [float.__repr__]. *)
Definition float_layout (digits : string) (decpt : Z) : string :=
  let len := Z.of_nat (String.length digits) in
  if (decpt <=? -4)%Z || (16 <? decpt)%Z then
    let exp := wrap_i32 (decpt - 1) in
    str_take 1 digits +:+
    (if (1 <? len)%Z then "." +:+ str_drop 1 digits else "") +:+
    "e" +:+ (if (exp <? 0)%Z then "-" else "+") +:+ pad2 (Z.abs exp)
  else if (decpt <=? 0)%Z then "0." +:+ zeros (Z.to_nat (- decpt)) +:+ digits
  else if (len <=? decpt)%Z then digits +:+ zeros (Z.to_nat (decpt - len)) +:+ ".0"
  else str_take (Z.to_nat decpt) digits +:+ "." +:+ str_drop (Z.to_nat decpt) digits.

Definition python_float_repr (value : f64) : result string A4PError :=
  if negb (f64_is_finite value) then Err (AValue OUT_OF_RANGE_FLOAT)
  else if SFeqb value (S754_zero false) then
    Ok (if f64_is_negative value then "-0.0" else "0.0")
  else
    let '(digits, decpt) := float_digits value in
    Ok ((if f64_is_negative value then "-" else "") +:+ float_layout digits decpt).

(** * Values *)

Definition write_string (text : string) : string :=
  match serde_to_string text with
  | Some encoded => encoded
  | None => String C_quote (text +:+ String C_quote "")
  end.

(** A number is an [i64], a [u64] or an [f64], tried in this order. *)
Definition write_number (n : number) : result string A4PError :=
  match n with
  | PosInt z | NegInt z => Ok (pretty z)
  | NFloat f => python_float_repr f
  end.

(** Collecting into a [BTreeMap]. *)
Definition btree {V} (m : list (string * V)) : list (string * V) :=
  foldl (λ m kv, bm_insert kv.1 kv.2 m) [] m.

Definition write_field (kv : string * result string A4PError) : result string A4PError :=
  let? text := kv.2 in Ok (write_string kv.1 +:+ ":" +:+ text).

(** [write_object], given the texts of the values. *)
Definition write_fields (fields : list (string * result string A4PError)) : result string A4PError :=
  let? texts := collect_results write_field (btree fields) in
  Ok ("{" +:+ str_join "," texts +:+ "}").

Fixpoint write_value (v : Value) : result string A4PError :=
  match v with
  | JNull => Ok "null"
  | JBool true => Ok "true"
  | JBool false => Ok "false"
  | JNumber n => write_number n
  | JString s => Ok (write_string s)
  | JArray items =>
      let? texts :=
        (fix go items :=
           match items with
           | [] => Ok []
           | item :: items =>
               let? text := write_value item in let? texts := go items in Ok (text :: texts)
           end) items in
      Ok ("[" +:+ str_join "," texts +:+ "]")
  | JObject map =>
      write_fields
        ((fix go map :=
            match map with
            | [] => []
            | (key, value) :: map => (key, write_value value) :: go map
            end) map)
  end.

Definition canonical_json_value : Value → result string A4PError := write_value.
Definition canonical_json (payload : JsonDict) : result string A4PError :=
  write_value (JObject payload).

(** The equations of [write_value] on containers. *)
Lemma write_array items :
  write_value (JArray items) =
  let? texts := collect_results write_value items in Ok ("[" +:+ str_join "," texts +:+ "]").
Proof.
  cbn [write_value].
  match goal with |- (let? texts := ?go items in _) = _ =>
    assert (go items = collect_results write_value items) as ->; [|done] end.
  induction items as [|v items IH]; [done|]. cbn [collect_results]. by rewrite <-IH.
Qed.

Lemma write_object map :
  write_value (JObject map) = write_fields ((λ kv, (kv.1, write_value kv.2)) <$> map).
Proof.
  cbn [write_value]. f_equal. induction map as [|[k v] map IH]; [done|]. cbn. by rewrite IH.
Qed.
End canonical.

(** * Sorting the entries of an object *)

Section btree.
Context {V : Type}.
Implicit Types m : list (string * V).

Lemma aget_foldl_bm_insert k m acc :
  NoDup (akeys m) →
  aget k (foldl (λ m kv, bm_insert kv.1 kv.2 m) acc m) =
  match aget k m with Some v => Some v | None => aget k acc end.
Proof.
  revert acc. induction m as [|[k' v] m IH]; intros acc; simpl; [done|].
  unfold akeys. simpl. rewrite NoDup_cons. intros [Hk Hnd]. rewrite IH by done.
  rewrite aget_bm_insert. case_decide as Heq; [|done]. subst.
  by rewrite (proj2 (aget_None_keys _ _) Hk).
Qed.

Lemma aget_btree k m : NoDup (akeys m) → aget k (btree m) = aget k m.
Proof. intros Hnd. unfold btree. rewrite aget_foldl_bm_insert by done. by destruct (aget k m). Qed.

Lemma btree_sorted m : bm_sorted (btree m).
Proof.
  unfold btree. assert (H' : bm_sorted (@nil (string * V))) by constructor. revert H'.
  generalize (@nil (string * V)). induction m as [|kv m IH]; intros acc Hacc; simpl; [done|].
  by apply IH, bm_sorted_insert.
Qed.

Lemma btree_perm m : NoDup (akeys m) → btree m ≡ₚ m.
Proof.
  intros Hnd. pose proof (bm_sorted_NoDup _ (btree_sorted m)) as Hnd'.
  apply NoDup_Permutation; [by eapply NoDup_fmap_1..|].
  intros [k v]. by rewrite <-!aget_elem_iff, aget_btree.
Qed.

Lemma btree_permuted m1 m2 : NoDup (akeys m1) → m1 ≡ₚ m2 → btree m1 = btree m2.
Proof.
  intros Hnd Hp. assert (Hnd2 : NoDup (akeys m2)) by (unfold akeys in *; by rewrite <-Hp).
  apply bm_ext; [apply btree_sorted..|]. intros k. rewrite !aget_btree by done.
  apply option_eq. intros v. by rewrite !aget_elem_iff, Hp.
Qed.

Lemma btree_fmap {W} (f : V → W) m :
  btree ((λ kv, (kv.1, f kv.2)) <$> m) = (λ kv, (kv.1, f kv.2)) <$> btree m.
Proof.
  unfold btree. change (@nil (string * W)) with ((λ kv : string * V, (kv.1, f kv.2)) <$> []) at 1.
  generalize (@nil (string * V)). induction m as [|[k v] m IH]; intros acc; cbn [fmap list_fmap foldl]; [done|].
  rewrite <-IH. f_equal. cbn [fst snd]. induction acc as [|[k' v'] acc IHa]; [done|].
  cbn [bm_insert fmap list_fmap fst snd]. destruct (cmp k k'); cbn [fmap list_fmap fst snd]; [done..|].
  f_equal. exact IHa.
Qed.
End btree.

Lemma collect_results_fmap {A B C E} (f : B → result C E) (g : A → B) l :
  collect_results f (g <$> l) = collect_results (λ x, f (g x)) l.
Proof. induction l as [|x l IH]; simpl; [done|]. by rewrite <-IH. Qed.

Lemma collect_results_ext {A B E} (f g : A → result B E) l :
  Forall (λ x, f x = g x) l → collect_results f l = collect_results g l.
Proof. induction 1 as [|x l Hx Hl IH]; simpl; [done|]. by rewrite Hx, IH. Qed.

(** * Characters of a text *)

Fixpoint all_chars (P : ascii → bool) (s : string) : bool :=
  match s with EmptyString => true | String a s => P a && all_chars P s end.

Lemma all_chars_app P a b : all_chars P (a +:+ b) = all_chars P a && all_chars P b.
Proof. induction a as [|c a IH]; simpl; [done|]. by rewrite IH, andb_assoc. Qed.

Lemma all_chars_take P n s : all_chars P s = true → all_chars P (str_take n s) = true.
Proof.
  revert s. induction n as [|n IH]; intros [|c s]; simpl; try done.
  rewrite !andb_true_iff. naive_solver.
Qed.

Lemma all_chars_drop P n s : all_chars P s = true → all_chars P (str_drop n s) = true.
Proof.
  revert s. induction n as [|n IH]; intros [|c s]; simpl; try done.
  rewrite andb_true_iff. naive_solver.
Qed.

Lemma all_chars_impl (P Q : ascii → bool) s :
  (∀ a, P a = true → Q a = true) → all_chars P s = true → all_chars Q s = true.
Proof.
  intros Himp. induction s as [|c s IH]; simpl; [done|]. rewrite !andb_true_iff. naive_solver.
Qed.

(** What may follow a value inside a text: a comma or a closing bracket. *)
Definition is_delim (c : ascii) : bool := bool_decide (c ∈ [","; "]"; "}"]%char).
Definition delimited (r : string) : Prop := r = "" ∨ ∃ c r', r = String c r' ∧ is_delim c = true.

Lemma delim_split a b r1 r2 :
  all_chars (λ c, negb (is_delim c)) a = true → all_chars (λ c, negb (is_delim c)) b = true →
  delimited r1 → delimited r2 → a +:+ r1 = b +:+ r2 → a = b ∧ r1 = r2.
Proof.
  revert b. induction a as [|x a IH]; intros [|y b]; cbn [all_chars String.append];
    rewrite ?andb_true_iff, ?negb_true_iff.
  - done.
  - intros _ [Hy _] [->|(c & r & -> & Hc)] _ Heq; [done|]. injection Heq as -> ->. congruence.
  - intros [Hx _] _ _ [->|(c & r & -> & Hc)] Heq; [done|]. injection Heq as <- <-. congruence.
  - intros [_ Ha] [_ Hb] H1 H2 Heq. injection Heq as -> Heq.
    destruct (IH b Ha Hb H1 H2 Heq) as [-> ->]. done.
Qed.

(** * Numbers *)

Definition is_digit : ascii → bool := byte_in 48 57.
Definition int_char (c : ascii) : bool := is_digit c || bool_decide (c = "-"%char).
Definition num_char (c : ascii) : bool :=
  is_digit c || bool_decide (c ∈ ["-"; "+"; "."; "e"]%char).

Lemma digit_num c : is_digit c = true → num_char c = true.
Proof. unfold num_char. by intros ->. Qed.

Lemma num_not_delim c : num_char c = true → negb (is_delim c) = true.
Proof.
  unfold num_char, is_digit. rewrite orb_true_iff, byte_in_spec, negb_true_iff.
  intros Hc. apply bool_decide_eq_false. intros Hd. rewrite !elem_of_cons in Hd.
  destruct Hc as [Hc|Hc].
  - destruct Hd as [->|[->|[->|Hd]]]; [by destruct Hc..|set_solver].
  - apply bool_decide_eq_true in Hc. rewrite !elem_of_cons in Hc. set_solver.
Qed.

Lemma digits_pretty_N_go x s : all_chars is_digit s = true → all_chars is_digit (pretty_N_go x s) = true.
Proof.
  revert s. induction (N.lt_wf_0 x) as [x _ IH]; intros s Hs.
  assert (x = 0 ∨ 0 < x)%N as [->|Hx] by lia; [by rewrite pretty_N_go_0|].
  rewrite pretty_N_go_step by done. apply IH; [by apply N.div_lt|]. simpl. rewrite Hs, andb_true_r.
  unfold pretty_N_char. by repeat case_match.
Qed.

Lemma digits_pretty_N (n : N) : all_chars is_digit (pretty n) = true.
Proof. unfold pretty, pretty_N. case_decide; [done|]. by apply digits_pretty_N_go. Qed.

Lemma int_pretty (z : Z) : all_chars int_char (pretty z) = true.
Proof.
  assert (HN : ∀ n : N, all_chars int_char (pretty n) = true).
  { intros n. eapply all_chars_impl, digits_pretty_N. unfold int_char. by intros ? ->. }
  destruct z as [|p|p]; unfold pretty, pretty_Z; [apply (HN 0%N)|apply HN|].
  simpl. apply HN.
Qed.

Lemma pretty_nonempty (z : Z) : pretty z ≠ "".
Proof.
  assert (HN : ∀ n : N, pretty n ≠ "").
  { intros n. unfold pretty, pretty_N. case_decide; [done|]. apply pretty_N_go_nonempty. lia. }
  destruct z; unfold pretty, pretty_Z; [apply (HN 0%N)|apply HN|done].
Qed.

Lemma int_num c : int_char c = true → num_char c = true.
Proof.
  unfold int_char, num_char. rewrite !orb_true_iff. intros [->|Hc]; [by left|right].
  apply bool_decide_eq_true in Hc as ->. done.
Qed.

Lemma num_pretty (z : Z) : all_chars num_char (pretty z) = true.
Proof. eapply all_chars_impl, int_pretty. apply int_num. Qed.

Lemma digits_ascii_digits s : all_chars is_digit (ascii_digits s) = true.
Proof.
  induction s as [|c s IH]; simpl; [done|]. destruct (byte_in 48 57 c) eqn:E; [|done].
  simpl. by rewrite IH, andb_true_r.
Qed.

Lemma digits_trim_end_zeros s : all_chars is_digit s = true → all_chars is_digit (trim_end_zeros s) = true.
Proof.
  unfold trim_end_zeros. induction s as [|c s IH]; simpl; [done|]. rewrite andb_true_iff. intros [Hc Hs].
  specialize (IH Hs). destruct (trim_end_char _ s); simpl in *; [|by rewrite Hc, IH].
  case_decide; simpl; [done|]. by rewrite Hc.
Qed.

Lemma digits_zeros n : all_chars is_digit (zeros n) = true.
Proof. induction n; simpl; done. Qed.

Lemma num_digits s : all_chars is_digit s = true → all_chars num_char s = true.
Proof. apply all_chars_impl, digit_num. Qed.

Lemma num_pad2 z : all_chars num_char (pad2 z) = true.
Proof. unfold pad2. case_match; simpl; apply num_pretty. Qed.

Lemma contains_char_app_r c s1 s2 : contains_char c s2 = true → contains_char c (s1 +:+ s2) = true.
Proof. intros H. by rewrite contains_char_app, H, orb_true_r. Qed.

(** A mark that no integer's text holds. *)
Definition float_mark (s : string) : bool := contains_char "." s || contains_char "e" s.

Lemma float_mark_app s1 s2 : float_mark (s1 +:+ s2) = float_mark s1 || float_mark s2.
Proof.
  unfold float_mark. rewrite !contains_char_app.
  by destruct (contains_char "." s1), (contains_char "e" s1), (contains_char "." s2).
Qed.

#[local] Arguments str_take : simpl never.
#[local] Arguments str_drop : simpl never.

Lemma float_layout_chars digits decpt :
  all_chars is_digit digits = true →
  all_chars num_char (float_layout digits decpt) = true ∧ float_mark (float_layout digits decpt) = true.
Proof.
  intros Hd%num_digits. assert (Hz := λ n, num_digits _ (digits_zeros n)).
  assert (Ht := λ n, all_chars_take num_char n _ Hd).
  assert (Hr := λ n, all_chars_drop num_char n _ Hd).
  unfold float_layout. cbv zeta. repeat case_if;
    rewrite ?all_chars_app, ?float_mark_app; rewrite ?Ht, ?Hz, ?Hd, ?num_pad2; simpl;
    rewrite ?Hr, ?Hz, ?Hd, ?num_pad2; (split; [done|]); by rewrite ?orb_true_r.
Qed.

Section float.
Context `{!JsonText}.

Lemma python_float_repr_chars f t :
  python_float_repr f = Ok t → all_chars num_char t = true ∧ float_mark t = true.
Proof.
  unfold python_float_repr. case_match; [done|]. case_match.
  { intros [= <-]. by destruct (f64_is_negative f). }
  assert (Hd : all_chars is_digit (float_digits f).1 = true).
  { unfold float_digits. destruct (default _ _) as [mantissa exponent]. cbv zeta. cbn [fst].
    case_match; [done|]. apply digits_trim_end_zeros, digits_ascii_digits. }
  destruct (float_digits f) as [digits decpt]. intros [= <-].
  destruct (float_layout_chars digits decpt Hd) as [Hc Hm].
  rewrite all_chars_app, float_mark_app, Hc, Hm, orb_true_r. by destruct (f64_is_negative f).
Qed.

Lemma int_no_mark s : all_chars int_char s = true → float_mark s = false.
Proof.
  unfold float_mark. induction s as [|c s IH]; [done|]. cbn [all_chars contains_char].
  rewrite andb_true_iff. intros [Hc Hs]. specialize (IH Hs). apply orb_false_iff in IH as [-> ->].
  rewrite !orb_false_r. unfold int_char, is_digit in Hc.
  rewrite !bool_decide_false; [done|intros ->; done..].
Qed.

Lemma mark_nonempty s : float_mark s = true → s ≠ "".
Proof. by intros Hm ->. Qed.

Lemma write_number_chars n t : write_number n = Ok t → all_chars num_char t = true ∧ t ≠ "".
Proof.
  destruct n; simpl.
  1, 2: intros [= <-]; split; [apply num_pretty|apply pretty_nonempty].
  intros [? ?%mark_nonempty]%python_float_repr_chars. done.
Qed.
End float.

(** * Equal values *)

Section same.
Context `{!JsonText}.

(** Values that differ in nothing but the order of object entries; floats
    count as equal when they print alike. *)
Inductive same_value : Value → Value → Prop :=
| same_null : same_value JNull JNull
| same_bool b : same_value (JBool b) (JBool b)
| same_number n : same_value (JNumber n) (JNumber n)
| same_float f g t :
    python_float_repr f = Ok t → python_float_repr g = Ok t →
    same_value (JNumber (NFloat f)) (JNumber (NFloat g))
| same_string s : same_value (JString s) (JString s)
| same_array l1 l2 : Forall2 same_value l1 l2 → same_value (JArray l1) (JArray l2)
| same_object m1 m m' m2 :
    m1 ≡ₚ m → m2 ≡ₚ m' →
    Forall2 (λ kv kw : string * Value, kv.1 = kw.1 ∧ same_value kv.2 kw.2) m m' →
    same_value (JObject m1) (JObject m2).

Lemma write_same a b : wf_value a → same_value a b → write_value a = write_value b.
Proof.
  intros Hwf. revert b. induction a as [|x|x|x|l IH|m1 IH] using value_ind'; intros b Hs;
    inversion Hs as [| | |f g t Hf Hg| |? l2 Hl|? m m' m2 Hp Hp2 Hm]; subst; try done.
  - simpl. by rewrite Hf, Hg.
  - rewrite !write_array. assert (collect_results write_value l = collect_results write_value l2) as ->; [|done].
    inversion Hwf as [| | | |? Hall|]; subst. clear Hs Hwf.
    induction Hl as [|v w l l2 Hv Hl IHl]; simpl; [done|].
    apply Forall_cons in IH as [IHv IH], Hall as [Hwv Hall]. by rewrite (IHv Hwv w Hv), IHl.
  - rewrite !write_object. inversion Hwf as [| | | | |? Hnd Hall]; subst. clear Hs Hwf.
    rewrite Hp in IH, Hall. unfold write_fields.
    assert (Heq : (λ kv : string * Value, (kv.1, write_value kv.2)) <$> m =
      (λ kv, (kv.1, write_value kv.2)) <$> m').
    { clear Hp Hp2 Hnd. induction Hm as [|[k v] [k' w] m m' [Hk Hv] Hm IHm]; [done|].
      simpl in Hk, Hv. subst. apply Forall_cons in IH as [IHv IH], Hall as [Hwv Hall].
      cbn [fmap list_fmap fst snd]. simpl in *. by rewrite (IHv Hwv w Hv), IHm. }
    set (f := λ kv : string * Value, (kv.1, write_value kv.2)) in *.
    assert (Hnd1 : NoDup (akeys (f <$> m1))) by (unfold akeys in *; by rewrite <-list_fmap_compose).
    assert (Hp1 : f <$> m1 ≡ₚ f <$> m2) by (by rewrite Hp, Hp2, Heq).
    by rewrite (btree_permuted _ _ Hnd1 Hp1).
Qed.
End same.

(** * Writing succeeds *)

Lemma collect_results_total {A B E} (f : A → result B E) l :
  (∀ x, x ∈ l → ∃ y, f x = Ok y) → ∃ ys, collect_results f l = Ok ys.
Proof.
  induction l as [|x l IH]; intros Hf; [by exists []|]. cbn [collect_results].
  destruct (Hf x) as [y ->]; [by left|]. destruct IH as [ys ->]; [intros; apply Hf; by right|]. by exists (y :: ys).
Qed.

(** A well-formed value has a canonical text. *)
Lemma write_value_total `{!JsonText} v : wf_value v → ∃ t, write_value v = Ok t.
Proof.
  induction v as [|[]|n|s|l IH|m IH] using value_ind'; inversion_clear 1 as [| |? Hn| |? Hall|? Hnd Hall];
    [by eexists..| |by eexists| |].
  - destruct n as [z|z|f]; [by eexists..|]. cbn [write_value write_number]. unfold python_float_repr.
    simpl in Hn. rewrite Hn. cbn [negb]. destruct (SFeqb _ _); [by eexists|].
    destruct (float_digits f). by eexists.
  - rewrite write_array. destruct (collect_results_total write_value l) as [ts ->]; [|by eexists].
    intros v Hv. apply (proj1 (Forall_forall _ _) IH v Hv), (proj1 (Forall_forall _ _) Hall v Hv).
  - rewrite write_object. unfold write_fields.
    destruct (collect_results_total write_field (btree ((λ kv, (kv.1, write_value kv.2)) <$> m)))
      as [ts ->]; [|by eexists].
    intros kv Hkv. rewrite btree_perm in Hkv by (unfold akeys; by rewrite <-list_fmap_compose).
    apply list_elem_of_fmap in Hkv as ([k v] & -> & Hv). unfold write_field. cbn [fst snd].
    destruct (proj1 (Forall_forall _ _) IH _ Hv (proj1 (Forall_forall _ _) Hall _ Hv)) as [t Ht].
    cbn [snd] in Ht. rewrite Ht. by eexists.
Qed.

(** What JSON string texts are like, whatever they escape: they start with a
    quote, and where one ends shows in the text. *)
Class JsonTextLaws `{!JsonText} : Prop := {
  serde_quoted s : ∃ t, serde_to_string s = Some (String C_quote t);
  serde_self_delimiting s1 s2 t1 t2 r1 r2 :
    serde_to_string s1 = Some t1 → serde_to_string s2 = Some t2 →
    t1 +:+ r1 = t2 +:+ r2 → s1 = s2 ∧ r1 = r2
}.

Section injective.
Context `{!JsonText, !JsonTextLaws}.

Lemma write_string_inj s1 s2 r1 r2 :
  write_string s1 +:+ r1 = write_string s2 +:+ r2 → s1 = s2 ∧ r1 = r2.
Proof.
  unfold write_string. destruct (serde_quoted s1) as [t1 E1], (serde_quoted s2) as [t2 E2].
  rewrite E1, E2. by apply serde_self_delimiting.
Qed.

(** * The kind of a value shows in the first character of its text *)

Definition kind (v : Value) : ascii → bool :=
  match v with
  | JNull => λ c, bool_decide (c = "n"%char)
  | JBool b => λ c, bool_decide (c = if b then "t"%char else "f"%char)
  | JNumber _ => num_char
  | JString _ => λ c, bool_decide (c = C_quote)
  | JArray _ => λ c, bool_decide (c = "["%char)
  | JObject _ => λ c, bool_decide (c = "{"%char)
  end.

Lemma write_value_head v t : write_value v = Ok t → ∃ c s, t = String c s ∧ kind v c = true.
Proof.
  destruct v as [|[]|n|s|l|m].
  - intros [= <-]. by eexists _, _.
  - intros [= <-]. by eexists _, _.
  - intros [= <-]. by eexists _, _.
  - intros [Hc Hne]%write_number_chars. destruct t as [|c t]; [done|]. simpl in Hc.
    apply andb_true_iff in Hc as [Hc _]. by eexists _, _.
  - intros [= <-]. unfold write_string. destruct (serde_quoted s) as [t ->].
    by eexists _, _.
  - rewrite write_array. destruct (collect_results _ _); [|done]. intros [= <-]. by eexists _, _.
  - rewrite write_object. unfold write_fields. destruct (collect_results _ _); [|done].
    intros [= <-]. by eexists _, _.
Qed.

(** No value's text starts like a closing bracket. *)
Lemma kind_not_delim v c : kind v c = true → is_delim c = false.
Proof.
  destruct v as [|[]| | | |]; simpl; rewrite ?bool_decide_eq_true; try (by intros ->).
  intros Hn%num_not_delim. by apply negb_true_iff.
Qed.

Lemma kind_same a b c :
  kind a c = true → kind b c = true →
  match a, b with
  | JNull, JNull | JNumber _, JNumber _ | JString _, JString _ | JArray _, JArray _
  | JObject _, JObject _ => True
  | JBool x, JBool y => x = y
  | _, _ => False
  end.
Proof.
  destruct a as [|[]| | | |], b as [|[]| | | |]; simpl; rewrite ?bool_decide_eq_true; try done;
    first [by intros -> | by intros ? -> | by intros ->%eq_sym | idtac].
Qed.

(** * Reading a value back *)

(** Nothing but [a] has a text that starts as [a]'s does. *)
Definition readable {A} (txt : A → result string A4PError) (ok : A → Prop) (same : A → A → Prop)
    (a : A) : Prop :=
  ∀ b t1 t2 r1 r2, ok b → txt a = Ok t1 → txt b = Ok t2 → delimited r1 → delimited r2 →
    t1 +:+ r1 = t2 +:+ r2 → same a b ∧ r1 = r2.

Section joined.
Context {A : Type} (txt : A → result string A4PError) (ok : A → Prop) (same : A → A → Prop).
Variable close : ascii.
Hypothesis Hclose : is_delim close = true.
Hypothesis Hcomma : close ≠ ","%char.
Hypothesis Hhead : ∀ a c s, txt a = Ok (String c s) → is_delim c = false.
Hypothesis Hnonempty : ∀ a, txt a ≠ Ok "".

(** The texts after the first, each behind its comma. *)
Fixpoint comma_tail (ts : list string) : string :=
  match ts with [] => "" | t :: ts => "," +:+ t +:+ comma_tail ts end.

Lemma str_join_tail t ts : str_join "," (t :: ts) = t +:+ comma_tail ts.
Proof.
  revert t. induction ts as [|u ts IH]; intros t; [by rewrite str_app_nil_r|].
  change (str_join "," (t :: u :: ts)) with (t +:+ "," +:+ str_join "," (u :: ts)).
  by rewrite IH.
Qed.

Lemma delimited_tail ts r : delimited (comma_tail ts +:+ String close r).
Proof. right. destruct ts as [|t ts]; simpl; eexists _, _; (split; [done|]); done. Qed.

Lemma tail_readable l1 l2 ts1 ts2 r1 r2 :
  Forall (readable txt ok same) l1 → Forall ok l2 →
  collect_results txt l1 = Ok ts1 → collect_results txt l2 = Ok ts2 →
  comma_tail ts1 +:+ String close r1 = comma_tail ts2 +:+ String close r2 →
  Forall2 same l1 l2 ∧ r1 = r2.
Proof.
  intros Hl1. revert l2 ts1 ts2. induction Hl1 as [|a l1 Ha Hl1 IH]; intros [|b l2] ts1 ts2 Hok;
    cbn [collect_results]; intros Ht1 Ht2.
  - simplify_eq/=. intros [= ->]. done.
  - destruct (txt b), (collect_results txt l2); simplify_eq/=. by intros [= ? _].
  - destruct (txt a), (collect_results txt l1); simplify_eq/=. by intros [= ? _].
  - destruct (txt a) as [t1|] eqn:E1, (collect_results txt l1) as [ts1'|] eqn:Ets1; try done.
    destruct (txt b) as [t2|] eqn:E2, (collect_results txt l2) as [ts2'|] eqn:Ets2; try done.
    simplify_eq/=. intros [= Heq]. apply Forall_cons in Hok as [Hb Hok].
    rewrite <-!str_app_assoc in Heq.
    destruct (Ha b t1 t2 _ _ Hb E1 E2 (delimited_tail _ _) (delimited_tail _ _) Heq) as [Hs Heq'].
    destruct (IH l2 ts1' ts2' Hok eq_refl Ets2 Heq') as [Hl ->]. by split; [constructor|].
Qed.

Lemma joined_readable l1 l2 ts1 ts2 r1 r2 :
  Forall (readable txt ok same) l1 → Forall ok l2 →
  collect_results txt l1 = Ok ts1 → collect_results txt l2 = Ok ts2 →
  str_join "," ts1 +:+ String close r1 = str_join "," ts2 +:+ String close r2 →
  Forall2 same l1 l2 ∧ r1 = r2.
Proof.
  intros Hl1 Hok Ht1 Ht2 Heq. apply (tail_readable l1 l2 ts1 ts2); try done.
  assert (Hhd : ∀ l t ts, collect_results txt l = Ok (t :: ts) → ∃ c s, t = String c s ∧ is_delim c = false).
  { intros [|a l] t ts; cbn [collect_results]; [done|]. destruct (txt a) as [t'|] eqn:E; [|done].
    destruct (collect_results txt l); [|done]. intros [= -> ->].
    destruct t as [|c s]; [by destruct (Hnonempty a)|]. eauto. }
  destruct ts1 as [|t1 ts1], ts2 as [|t2 ts2].
  - done.
  - apply Hhd in Ht2 as (c & s & -> & Hc). rewrite str_join_tail in Heq. simpl in Heq.
    injection Heq as -> _. congruence.
  - apply Hhd in Ht1 as (c & s & -> & Hc). rewrite str_join_tail in Heq. simpl in Heq.
    injection Heq as -> _. congruence.
  - rewrite !str_join_tail in Heq. simpl. by rewrite Heq.
Qed.
End joined.

Lemma number_readable n m t1 t2 r1 r2 :
  wf_number n → wf_number m → write_number n = Ok t1 → write_number m = Ok t2 →
  delimited r1 → delimited r2 → t1 +:+ r1 = t2 +:+ r2 →
  same_value (JNumber n) (JNumber m) ∧ r1 = r2.
Proof.
  intros Hn Hm Ht1 Ht2 Hr1 Hr2 Heq.
  destruct (write_number_chars _ _ Ht1) as [Hc1 _], (write_number_chars _ _ Ht2) as [Hc2 _].
  eapply all_chars_impl in Hc1, Hc2; [|apply num_not_delim..].
  destruct (delim_split _ _ _ _ Hc1 Hc2 Hr1 Hr2 Heq) as [<- <-]. split; [|done].
  assert (Hint : ∀ (z : Z) f, pretty z = t1 → python_float_repr f ≠ Ok t1).
  { intros z f <- [_ Hmark]%python_float_repr_chars. by rewrite int_no_mark in Hmark by apply int_pretty. }
  destruct n as [z|z|f], m as [z'|z'|g]; cbn [write_number] in *;
    try (by edestruct Hint; [injection Ht1|]); try (by edestruct Hint; [injection Ht2|]); try (assert (z = z') as -> by (apply (inj pretty); congruence));
    try by constructor.
  1, 2: simpl in *; lia.
  by eapply same_float.
Qed.

Lemma append_string c (s r : string) : String c s +:+ r = String c (s +:+ r).
Proof. done. Qed.

Lemma value_head_readable c v s : write_value v = Ok (String c s) → is_delim c = false.
Proof.
  intros Ht. apply write_value_head in Ht as (c' & s' & Heq & Hk). injection Heq as <- <-.
  by eapply kind_not_delim.
Qed.

Lemma value_nonempty v : write_value v ≠ Ok "".
Proof. by intros (c & s & [=] & _)%write_value_head. Qed.

(** One field of an object. *)
Definition field_text (kv : string * Value) : result string A4PError :=
  write_field (kv.1, write_value kv.2).
Definition field_ok (kv : string * Value) : Prop := wf_value kv.2.
Definition same_field (kv kw : string * Value) : Prop := kv.1 = kw.1 ∧ same_value kv.2 kw.2.

Lemma write_object_fields m :
  write_value (JObject m) =
  let? texts := collect_results field_text (btree m) in Ok ("{" +:+ str_join "," texts +:+ "}").
Proof. rewrite write_object. unfold write_fields. by rewrite btree_fmap, collect_results_fmap. Qed.

Lemma field_head kv c s : field_text kv = Ok (String c s) → is_delim c = false.
Proof.
  unfold field_text, write_field, write_string. simpl. destruct (serde_quoted kv.1) as [t ->].
  destruct (write_value kv.2); [|done]. by intros [= <- _].
Qed.

Lemma field_nonempty kv : field_text kv ≠ Ok "".
Proof.
  unfold field_text, write_field, write_string. simpl. destruct (serde_quoted kv.1) as [t ->].
  by destruct (write_value kv.2).
Qed.

Lemma field_readable kv :
  readable write_value wf_value same_value kv.2 → readable field_text field_ok same_field kv.
Proof.
  intros Hv kw t1 t2 r1 r2 Hw. unfold field_text, write_field. simpl.
  destruct (write_value kv.2) as [u1|] eqn:E1; [|done].
  destruct (write_value kw.2) as [u2|] eqn:E2; [|done].
  intros [= <-] [= <-] Hr1 Hr2 Heq. rewrite <-!str_app_assoc in Heq.
  apply write_string_inj in Heq as [Hk Heq]. simpl in Heq. injection Heq as Heq.
  destruct (Hv _ _ _ _ _ Hw E1 E2 Hr1 Hr2 Heq) as [Hs ->]. done.
Qed.

(** A value can be read back from the front of any text. *)
Lemma value_readable a : wf_value a → readable write_value wf_value same_value a.
Proof.
  induction a as [|x|x|x|l IH|m IH] using value_ind'; intros Hwf b t1 t2 r1 r2 Hwb Ht1 Ht2 Hr1 Hr2 Heq;
    destruct (write_value_head _ _ Ht1) as (c & s1 & Hc1 & Hk1);
    destruct (write_value_head _ _ Ht2) as (c' & s2 & Hc2 & Hk2);
    pose proof Heq as Hhead; rewrite Hc1, Hc2, !append_string in Hhead; injection Hhead as <- _;
    pose proof (kind_same _ _ _ Hk1 Hk2) as Hkind; clear Hk1 Hk2 Hc1 Hc2;
    destruct b as [|y|y|y|l2|m2]; try done.
  - simplify_eq/=. by split; [constructor|].
  - subst y. destruct x; simplify_eq/=; by split; [constructor|].
  - inversion Hwf; inversion Hwb; subst. by eapply number_readable.
  - simpl in Ht1, Ht2. simplify_eq. apply write_string_inj in Heq as [-> ->].
    by split; [constructor|].
  - rewrite write_array in Ht1, Ht2. destruct (collect_results _ l) as [ts1|] eqn:E1; [|done].
    destruct (collect_results _ l2) as [ts2|] eqn:E2; [|done].
    injection Ht1 as <-. injection Ht2 as <-. rewrite !append_string in Heq. injection Heq as Heq. rewrite <-!str_app_assoc in Heq.
    inversion Hwf as [| | | |? Hall|]; inversion Hwb as [| | | |? Hall2|]; subst.
    eapply (joined_readable _ wf_value same_value "]"%char) in Heq as [Hl ->];
      [by split; [constructor|]|done|done|eauto using value_head_readable|apply value_nonempty| |done..].
    apply Forall_forall. intros v Hv. rewrite Forall_forall in IH, Hall. auto.
  - rewrite write_object_fields in Ht1, Ht2. destruct (collect_results _ (btree m)) as [ts1|] eqn:E1; [|done].
    destruct (collect_results _ (btree m2)) as [ts2|] eqn:E2; [|done].
    injection Ht1 as <-. injection Ht2 as <-. rewrite !append_string in Heq. injection Heq as Heq. rewrite <-!str_app_assoc in Heq.
    inversion Hwf as [| | | | |? Hnd Hall]; inversion Hwb as [| | | | |? Hnd2 Hall2]; subst.
    pose proof (btree_perm m Hnd) as Hp. pose proof (btree_perm m2 Hnd2) as Hp2.
    eapply (joined_readable _ field_ok same_field "}"%char) in Heq as [Hl ->];
      [by split; [eapply same_object|]|done|done|eauto using field_head|apply field_nonempty| | |done..].
    + apply Forall_forall. intros kv Hkv. rewrite Hp in Hkv. apply field_readable.
      rewrite Forall_forall in IH, Hall. auto.
    + by rewrite Hp2.
Qed.

(** Equal texts are texts of the same value. *)
Lemma canonical_same a b t :
  wf_value a → wf_value b → canonical_json_value a = Ok t → canonical_json_value b = Ok t → same_value a b.
Proof.
  unfold canonical_json_value. intros Ha Hb Ht Ht2.
  by destruct (value_readable a Ha b t t "" "" Hb Ht Ht2); [by left..|done|].
Qed.
End injective.

(** C25: The text that A4P signs says what it says: two payloads have the same
    canonical text exactly when they are the same payload, up to the order of
    object entries (and floats that print alike), so a signature verified over
    one cannot be passed off for another. *)
Theorem canonical_json_injective `{!JsonText, !JsonTextLaws} a b t :
  wf_value a → wf_value b → canonical_json_value a = Ok t →
  canonical_json_value b = Ok t ↔ same_value a b.
Proof.
  intros Ha Hb Ht. split; [by apply canonical_same|].
  intros Hs. unfold canonical_json_value in *. by rewrite <-(write_same a b Ha Hs).
Qed.

#[export] Instance spec_float_eq_dec : EqDecision f64.
Proof. solve_decision. Defined.
#[export] Instance spec_float_countable : Countable f64.
Proof.
  refine (inj_countable'
    (λ f, match f with
          | S754_zero b => inl (inl b) | S754_infinity b => inl (inr b)
          | S754_nan => inr (inl ()) | S754_finite s m e => inr (inr (s, m, e)) end)
    (λ t : (bool + bool) + (() + (bool * positive * Z)), match t with
          | inl (inl b) => S754_zero b | inl (inr b) => S754_infinity b
          | inr (inl _) => S754_nan | inr (inr (s, m, e)) => S754_finite s m e end) _).
  by intros [].
Defined.
#[export] Instance number_eq_dec : EqDecision number.
Proof. solve_decision. Defined.
#[export] Instance number_countable : Countable number.
Proof.
  refine (inj_countable'
    (λ n, match n with PosInt z => inl (inl z) | NegInt z => inl (inr z) | NFloat f => inr f end)
    (λ t : (Z + Z) + f64, match t with inl (inl z) => PosInt z | inl (inr z) => NegInt z | inr f => NFloat f end) _).
  by intros [].
Defined.

(** A value as a tree of labels. *)
Notation label := (unit + bool + (number + string))%type.
Fixpoint value_tree (v : Value) : gen_tree label :=
  match v with
  | JNull => GenLeaf (inl (inl ()))
  | JBool b => GenLeaf (inl (inr b))
  | JNumber n => GenLeaf (inr (inl n))
  | JString s => GenLeaf (inr (inr s))
  | JArray l =>
      GenNode 0 ((fix go l := match l with [] => [] | v :: l => value_tree v :: go l end) l)
  | JObject m =>
      GenNode 1 ((fix go m :=
        match m with
        | [] => []
        | (k, v) :: m => GenNode 2 [GenLeaf (inr (inr k)); value_tree v] :: go m
        end) m)
  end.

Fixpoint tree_value (t : gen_tree label) : Value :=
  match t with
  | GenLeaf (inl (inl _)) => JNull
  | GenLeaf (inl (inr b)) => JBool b
  | GenLeaf (inr (inl n)) => JNumber n
  | GenLeaf (inr (inr s)) => JString s
  | GenNode O l => JArray ((fix go l := match l with [] => [] | t :: l => tree_value t :: go l end) l)
  | GenNode _ l =>
      JObject ((fix go l :=
        match l with
        | GenNode _ [GenLeaf (inr (inr k)); t] :: l => (k, tree_value t) :: go l
        | _ => []
        end) l)
  end.

Lemma tree_value_tree v : tree_value (value_tree v) = v.
Proof.
  induction v as [|b|n|s|l IH|m IH] using value_ind'; [done..| |].
  - cbn [value_tree tree_value]. f_equal. induction IH as [|v l Hv IH IHl]; [done|]. by rewrite Hv, IHl.
  - cbn [value_tree tree_value]. f_equal. induction IH as [|[k v] m Hv IH IHm]; [done|].
    cbn [snd] in Hv. by rewrite Hv, IHm.
Qed.

Definition value_text (v : Value) : string := pretty (Npos (encode (value_tree v))).
Definition text_value (s : string) : option Value :=
  match parse_digits s with
  | Some (Zpos p) => tree_value <$> decode p
  | _ => None
  end.

Lemma text_value_text v : text_value (value_text v) = Some v.
Proof.
  unfold text_value, value_text. rewrite parse_digits_pretty. cbn [Z.of_N].
  rewrite decode_encode. cbn [fmap option_fmap option_map]. by rewrite tree_value_tree.
Qed.
Lemma value_text_digits v : all_chars is_digit (value_text v) = true.
Proof. apply digits_pretty_N. Qed.
Lemma value_text_nonempty v : value_text v ≠ "".
Proof.
  intros Hempty. pose proof (parse_digits_pretty (Npos (encode (value_tree v)))) as Hp.
  unfold value_text in Hempty. by rewrite Hempty in Hp.
Qed.
