(* ===== verification/A4PCrypto.v ===== *)
(** Keys and signatures of A4P (A4P/rust-sdk/src/security.rs, the base64 and
    time helpers of src/util.rs): what the SDK does around ed25519_dalek, base64,
    hex, SHA-256 and chrono. *)
From S2P Require Import Prelude RustStr A4PUtil.
From Stdlib Require Import Ascii.

(** The cryptographic crates. Byte strings are strings of bytes. *)
Class Crypto := {
  SigningKey : Type;
  VerifyingKey : Type;
  Signature : Type;
  verifying_key : SigningKey → VerifyingKey;
  dalek_sign : SigningKey → string → Signature;
  dalek_verify : VerifyingKey → string → Signature → bool;
  signature_to_bytes : Signature → string;
  signature_from_slice : string → option Signature;
  verifying_key_as_bytes : VerifyingKey → string;
  verifying_key_from_bytes : string → option VerifyingKey;
  signing_key_from_bytes : string → SigningKey;
  signing_key_from_pkcs8_pem : string → option SigningKey;
  engine_encode : string → string;
  engine_decode : string → option string;
  standard_decode : string → option string;
  hex_encode : string → string;
  hex_decode : string → option string;
  sha256 : string → string
}.

(** [c.is_ascii_alphanumeric() || c == '_' || c == '-']: bytes of other
    characters are not ASCII. *)
Fixpoint is_base64url (s : string) : bool :=
  match s with
  | EmptyString => true
  | String c s =>
      (byte_in 48 57 c || byte_in 65 90 c || byte_in 97 122 c ||
       bool_decide (c = "_"%char) || bool_decide (c = "-"%char)) && is_base64url s
  end.

(** Signatures verify, keys and bytes survive their encodings, and base64url
    text has no padding. *)
Class CryptoLaws `{!Crypto} : Prop := {
  dalek_verify_sign k t : dalek_verify (verifying_key k) t (dalek_sign k t) = true;
  signature_bytes s : signature_from_slice (signature_to_bytes s) = Some s;
  engine_decode_encode b : engine_decode (engine_encode b) = Some b;
  engine_encode_unpadded b : trim_end_char "=" (engine_encode b) = engine_encode b;
  engine_encode_trimmed b : trim (engine_encode b) = engine_encode b;
  engine_encode_alphabet b : is_base64url (engine_encode b) = true;
  engine_encode_empty b : engine_encode b = "" → b = "";
  signature_nonempty s : signature_to_bytes s ≠ "";
  verifying_key_bytes k : verifying_key_from_bytes (verifying_key_as_bytes k) = Some k;
  verifying_key_length k : String.length (verifying_key_as_bytes k) = 32
}.

(** chrono's calendar: [None] for a date it cannot represent or read. *)
Class Chrono := {
  format_utc : Z → option string;
  parse_naive : string → option Z;
  format_beijing : Z → option string
}.

(** A date that can be shown is read back from its text. *)
Class ChronoLaws `{!Chrono} : Prop := {
  format_utc_text epoch t : format_utc epoch = Some t → parse_naive t = Some epoch ∧ t ≠ "" ∧ trim t = t
}.

(** * util.rs *)

Section util.
Context `{!Crypto}.

Definition b64url_encode (data : string) : string := engine_encode data.
Definition b64url_decode (data : string) : option string :=
  engine_decode (trim_end_char "=" data).

(** The random bytes drawn are an argument. *)
Definition token_urlsafe (random : string) : string := b64url_encode random.
Definition token_hex (random : string) : string := hex_encode random.
End util.

Section time.
Context `{!Chrono}.

Definition format_iso_z (epoch : Z) : string := default "" (format_utc epoch).
Definition parse_iso_z (text : string) : option Z := parse_naive text.
Definition format_beijing_display_time (utc_iso : string) : string :=
  match parse_iso_z utc_iso ≫= format_beijing with
  | Some time => time +:+ " 北京时间"
  | None => utc_iso
  end.
End time.

(** * security.rs *)

Definition PRODUCTION_ENV_VALUES : list string := ["prod"; "production"].
Definition ENVIRONMENT_VARIABLES : list string := ["A4P_ENV"; "APP_ENV"; "ENV"; "PYTHON_ENV"].

(** [EnvSource::get]. *)
Notation EnvSource := (string → option string).

Definition is_production_environment_in (env : EnvSource) : bool :=
  existsb (λ name,
    bool_decide (to_lowercase (trim (default "" (env name))) ∈ PRODUCTION_ENV_VALUES))
    ENVIRONMENT_VARIABLES.

Section security.
Context `{!Crypto}.

Definition decode_seed (value env_name : string) : result string A4PError :=
  let error := ARuntime (env_name +:+
    " must be an Ed25519 PEM key or a 32-byte seed encoded as base64url, base64:, or hex:") in
  match strip_prefix "hex:" value with
  | Some hex_value => ok_or (hex_decode hex_value) error
  | None =>
      match strip_prefix "base64:" value with
      | Some b64_value => ok_or (standard_decode b64_value) error
      | None =>
          match strip_prefix "base64url:" value with
          | Some b64url_value => ok_or (b64url_decode b64url_value) error
          | None => ok_or (b64url_decode value) error
          end
      end
  end.

Definition load_ed25519_private_key (value env_name : string) : result SigningKey A4PError :=
  if starts_with "-----BEGIN" value then
    ok_or (signing_key_from_pkcs8_pem value)
      (ARuntime (env_name +:+ " must contain an Ed25519 private key"))
  else
    let? seed := decode_seed value env_name in
    if negb (String.length seed =? 32)%nat then
      Err (ARuntime (env_name +:+ " must decode to a 32-byte Ed25519 private key seed"))
    else Ok (signing_key_from_bytes seed).

(** [reject_or_warn_default_key]; the warning only logs. *)
Definition reject_or_warn_default_key (env : EnvSource) (purpose env_name : string) :
    result unit A4PError :=
  if is_production_environment_in env then
    Err (ARuntime (purpose +:+
      " is configured with the built-in development Ed25519 signing key via " +:+ env_name +:+
      "; set " +:+ env_name +:+ " to a non-default secret."))
  else Ok ().

Definition ed25519_private_key_from_env_in (env : EnvSource)
    (env_name default_seed_label purpose : string) : result SigningKey A4PError :=
  let otherwise :=
    if is_production_environment_in env then
      Err (ARuntime (purpose +:+ " requires " +:+ env_name +:+
        " in production mode; refusing to use the built-in development Ed25519 signing key."))
    else Ok (signing_key_from_bytes (sha256 default_seed_label)) in
  match env env_name with
  | Some raw =>
      let value := trim raw in
      if negb (str_is_empty value) then
        let? _ :=
          if decide (value = default_seed_label) then
            reject_or_warn_default_key env purpose env_name
          else Ok () in
        load_ed25519_private_key value env_name
      else otherwise
  | None => otherwise
  end.

Definition ed25519_sign_text (text : string) (private_key : SigningKey) : string :=
  b64url_encode (signature_to_bytes (dalek_sign private_key text)).

Definition ed25519_verify_text (text signature : string) (public_key : VerifyingKey) : bool :=
  match b64url_decode signature with
  | None => false
  | Some raw =>
      match signature_from_slice raw with
      | None => false
      | Some signature => dalek_verify public_key text signature
      end
  end.

Definition ed25519_public_key_from_base64url (value : string) : result VerifyingKey A4PError :=
  if negb (negb (str_is_empty value) && is_base64url value) then
    Err (AValue "Ed25519 public key must be valid base64url")
  else
    let? raw := ok_or (b64url_decode value) (AValue "Ed25519 public key must be valid base64url") in
    if negb (String.length raw =? 32)%nat then
      Err (AValue "Ed25519 public key must decode to 32 bytes")
    else if negb (bool_decide (b64url_encode raw = value)) then
      Err (AValue "Ed25519 public key must use unpadded canonical base64url")
    else
      ok_or (verifying_key_from_bytes raw) (AValue "Ed25519 public key must decode to 32 bytes").

Definition ed25519_public_key_to_base64url (public_key : VerifyingKey) : string :=
  b64url_encode (verifying_key_as_bytes public_key).

(** What was signed verifies. *)
Lemma verify_sign_text `{!CryptoLaws} text key :
  ed25519_verify_text text (ed25519_sign_text text key) (verifying_key key) = true.
Proof.
  unfold ed25519_verify_text, ed25519_sign_text, b64url_decode, b64url_encode.
  by rewrite engine_encode_unpadded, engine_decode_encode, signature_bytes, dalek_verify_sign.
Qed.

Lemma sign_text_nonempty `{!CryptoLaws} text key : ed25519_sign_text text key ≠ "".
Proof. intros He%engine_encode_empty. by apply signature_nonempty in He. Qed.

Lemma sign_text_trimmed `{!CryptoLaws} text key :
  trim (ed25519_sign_text text key) = ed25519_sign_text text key.
Proof. apply engine_encode_trimmed. Qed.

(** A public key is read back from its text. *)
Lemma public_key_base64url `{!CryptoLaws} key :
  ed25519_public_key_from_base64url (ed25519_public_key_to_base64url key) = Ok key.
Proof.
  unfold ed25519_public_key_from_base64url, ed25519_public_key_to_base64url, b64url_encode, b64url_decode.
  rewrite engine_encode_alphabet, engine_encode_unpadded, engine_decode_encode. cbn [ok_or].
  destruct (engine_encode _) as [|c s] eqn:He.
  { apply engine_encode_empty in He. pose proof (verifying_key_length key) as Hl. by rewrite He in Hl. }
  cbn [str_is_empty negb andb]. rewrite verifying_key_length. cbn [Nat.eqb negb].
  rewrite bool_decide_true by done. cbn [negb]. by rewrite verifying_key_bytes.
Qed.

(** A production server never signs with the development key because its
    key is missing or left at the built-in label: the key it loads comes from
    a value set in the environment that is neither empty nor the label. *)
Theorem production_key_configured env env_name label purpose key :
  is_production_environment_in env = true →
  ed25519_private_key_from_env_in env env_name label purpose = Ok key →
  ∃ raw, env env_name = Some raw ∧ trim raw ≠ "" ∧ trim raw ≠ label ∧
    load_ed25519_private_key (trim raw) env_name = Ok key.
Proof.
  intros Hprod. unfold ed25519_private_key_from_env_in, reject_or_warn_default_key. rewrite Hprod.
  destruct (env env_name) as [raw|]; [|done]. destruct (trim raw) as [|c s] eqn:Ht; [done|].
  cbn [str_is_empty negb]. destruct (decide (String c s = label)); [done|].
  intros Hload. exists raw. by rewrite Ht.
Qed.
End security.
