(* ===== verification/WebAuthnData.v ===== *)
(** WebAuthn ceremonies (A4P/rust-sdk/src/user_signature/webauthn.rs, up to the
    signature method): authenticator data, client data, COSE keys, registration
    and authentication responses.  The CBOR and JSON parsers and the signature
    crates are parameters.

    Authenticator data, exactly: what [parse_authenticator_data] accepts and
    what it reads from it. *)
From S2P Require Import Prelude RustMap RustStr F64 Json A4PUtil Canonical A4PCrypto.
From Stdlib Require Import Ascii.

Definition COSE_ALG_ES256 : Z := -7.
Definition COSE_ALG_EDDSA : Z := -8.
Definition COSE_ALG_RS256 : Z := -257.
Definition SUPPORTED_COSE_ALGORITHMS : list Z := [COSE_ALG_ES256; COSE_ALG_EDDSA; COSE_ALG_RS256].

(** [ciborium::Value], with the kinds the code looks at. *)
Inductive CborValue :=
| CInteger (n : Z)
| CBytes (b : string)
| CText (s : string)
| CMap (m : list (CborValue * CborValue))
| COther.

(** The crates: [ciborium::from_reader], with the bytes it took;
    [serde_json::from_slice]; p256; rsa. *)
Class WebAuthnCrates := {
  from_reader : string → result (CborValue * nat) string;
  json_from_slice : string → option Value;
  P256Key : Type;
  P256Signature : Type;
  p256_from_point : string → string → option P256Key;
  p256_from_der : string → option P256Signature;
  p256_verify : P256Key → string → P256Signature → bool;
  RsaKey : Type;
  RsaSignature : Type;
  rsa_new : string → string → option RsaKey;
  rsa_from_slice : string → option RsaSignature;
  rsa_verify : RsaKey → string → RsaSignature → bool
}.

Record AuthenticatorDataFlags := mkFlags {
  fl_up : bool; fl_uv : bool; fl_be : bool; fl_bs : bool; fl_at : bool; fl_ed : bool
}.

Record AttestedCredentialData := mkAttested {
  at_aaguid : string;
  at_credential_id : string;
  at_credential_public_key : string
}.

Record AuthenticatorData := mkAuthenticatorData {
  ad_rp_id_hash : string;
  ad_flags : AuthenticatorDataFlags;
  ad_sign_count : Z;
  ad_attested_credential_data : option AttestedCredentialData;
  ad_extensions : option string
}.

(** [flags_byte & (1 << i) != 0]. *)
Definition flag (flags_byte : Z) (i : Z) : bool := negb (Z.land flags_byte (Z.shiftl 1 i) =? 0)%Z.

Definition flags_of (flags_byte : Z) : AuthenticatorDataFlags :=
  mkFlags (flag flags_byte 0) (flag flags_byte 2) (flag flags_byte 3) (flag flags_byte 4)
    (flag flags_byte 6) (flag flags_byte 7).

(** Text between double quotes, as the messages show it. *)
Definition dquoted (s : string) : string := String C_quote (s +:+ String C_quote "").

Section data.
Context `{!JsonDisplay, !Crypto, !WebAuthnCrates}.

Definition decode_cbor_prefix (bytes : string) : result (CborValue * nat) string :=
  map_err (λ error, "Invalid CBOR: " +:+ error) (from_reader bytes).

(** The attested credential data at [pointer], and where it ends. *)
Definition parse_attested (val : string) (pointer : nat) : result (AttestedCredentialData * nat) string :=
  if (String.length val <? pointer + 18)%nat then Err "Attested credential data truncated"
  else
    let aaguid := slice pointer 16 val in
    let pointer := (pointer + 16)%nat in
    let credential_id_len := Z.to_nat (byte_at pointer val * 256 + byte_at (pointer + 1) val) in
    let pointer := (pointer + 2)%nat in
    if (String.length val <? pointer + credential_id_len)%nat then Err "Credential id truncated"
    else
      let credential_id := slice pointer credential_id_len val in
      let pointer := (pointer + credential_id_len)%nat in
      let? item := decode_cbor_prefix (str_drop pointer val) in
      Ok (mkAttested aaguid credential_id (slice pointer item.2 val), (pointer + item.2)%nat).

Definition parse_extensions (val : string) (pointer : nat) : result (string * nat) string :=
  let? item := decode_cbor_prefix (str_drop pointer val) in
  Ok (slice pointer item.2 val, (pointer + item.2)%nat).

(** A part that a flag announces. *)
Definition part {A} (present : bool) (parse : nat → result (A * nat) string) (pointer : nat) :
    result (option A * nat) string :=
  if present then let? p := parse pointer in Ok (Some p.1, p.2) else Ok (None, pointer).

Definition parse_authenticator_data (val : string) : result AuthenticatorData string :=
  if (String.length val <? 37)%nat then
    Err ("Authenticator data was " +:+ pretty (N.of_nat (String.length val)) +:+
      " bytes, expected at least 37 bytes")
  else
    let rp_id_hash := str_take 32 val in
    let flags := flags_of (byte_at 32 val) in
    let sign_count := head_u32 (str_drop 33 val) in
    let? attested := part (fl_at flags) (parse_attested val) 37 in
    let? extensions := part (fl_ed flags) (parse_extensions val) attested.2 in
    if (extensions.2 <? String.length val)%nat then
      Err "Leftover bytes detected while parsing authenticator data"
    else Ok (mkAuthenticatorData rp_id_hash flags sign_count attested.1 extensions.1).

Record CollectedClientData := mkClientData {
  cd_ceremony_type : string;
  cd_challenge : string;
  cd_origin : string
}.

(** The first field of [fields] that is missing. *)
Fixpoint missing_field (fields : list string) (map : JsonDict) : option string :=
  match fields with
  | [] => None
  | field :: fields => if negb (ahas field map) then Some field else missing_field fields map
  end.

Definition parse_client_data_json (val : string) : result CollectedClientData string :=
  let? parsed := ok_or (json_from_slice val) "Unable to decode clientDataJSON bytes as JSON" in
  match parsed with
  | JObject map =>
      match missing_field ["type"; "challenge"; "origin"] map with
      | Some field => Err ("clientDataJSON missing required property " +:+ dquoted field)
      | None =>
          let text key := py_str (default JNull (aget key map)) in
          let? challenge :=
            ok_or (b64url_decode (text "challenge")) "clientDataJSON challenge is not base64url" in
          Ok (mkClientData (text "type") challenge (text "origin"))
      end
  | _ => Err "clientDataJSON was not a dict"
  end.

(** * COSE keys *)

Inductive CosePublicKey :=
| Ec2 (alg crv : Z) (x y : string)
| Okp (alg crv : Z) (x : string)
| Rsa (alg : Z) (n e : string).

Definition cose_alg (k : CosePublicKey) : Z :=
  match k with Ec2 alg _ _ _ | Okp alg _ _ | Rsa alg _ _ => alg end.

(** [i64::try_from]. *)
Definition cbor_int (value : CborValue) : option Z :=
  match value with
  | CInteger n => if ((i64_min <=? n) && (n <=? i64_max))%Z then Some n else None
  | _ => None
  end.

Definition cose_entry (map : list (CborValue * CborValue)) (key : Z) : option CborValue :=
  (λ p : nat * (CborValue * CborValue), p.2.2) <$> list_find (λ kv, cbor_int kv.1 = Some key) map.

Definition cose_bytes (map : list (CborValue * CborValue)) (key : Z) (error : string) :
    result string string :=
  match cose_entry map key with
  | Some (CBytes bytes) => if str_is_empty bytes then Err error else Ok bytes
  | _ => Err error
  end.

(** [cose_entry(..).and_then(cbor_int).filter(|v| *v != 0)]. *)
Definition cose_int (map : list (CborValue * CborValue)) (key : Z) : option Z :=
  v ← cose_entry map key ≫= cbor_int; if (v =? 0)%Z then None else Some v.

Definition decode_credential_public_key (key : string) : result CosePublicKey string :=
  if (byte_at 0 key =? 4)%Z && (String.length key =? 65)%nat then
    Ok (Ec2 COSE_ALG_ES256 1 (slice 1 32 key) (slice 33 32 key))
  else
    let? item := decode_cbor_prefix key in
    match item.1 with
    | CMap map =>
        let? kty := ok_or (cose_int map 1) "Credential public key missing kty" in
        let? alg := ok_or (cose_int map 3) "Credential public key missing alg" in
        if (kty =? 1)%Z then
          let? crv := ok_or (cose_int map (-1)) "OKP credential public key missing crv" in
          let? x := cose_bytes map (-2) "OKP credential public key missing x" in
          Ok (Okp alg crv x)
        else if (kty =? 2)%Z then
          let? crv := ok_or (cose_int map (-1)) "EC2 credential public key missing crv" in
          let? x := cose_bytes map (-2) "EC2 credential public key missing x" in
          let? y := cose_bytes map (-3) "EC2 credential public key missing y" in
          Ok (Ec2 alg crv x y)
        else if (kty =? 3)%Z then
          let? n := cose_bytes map (-1) "RSA credential public key missing n" in
          let? e := cose_bytes map (-2) "RSA credential public key missing e" in
          Ok (Rsa alg n e)
        else Err ("Unsupported credential public key type " +:+ dquoted (pretty kty))
    | _ => Err "Credential public key is not a CBOR map"
    end.

Definition verify_signature (public_key : CosePublicKey) (signature data : string) : result unit string :=
  let invalid := "Could not verify signature" in
  let checked (b : bool) := if b then Ok () else Err invalid in
  match public_key with
  | Ec2 alg crv x y =>
      if negb (alg =? COSE_ALG_ES256)%Z || negb (crv =? 1)%Z then
        Err ("Unsupported EC2 signature alg " +:+ pretty alg +:+ " on curve " +:+ pretty crv)
      else if negb (String.length x =? 32)%nat || negb (String.length y =? 32)%nat then
        Err "EC2 coordinates must be 32 bytes"
      else
        let? key := ok_or (p256_from_point x y) "EC2 public key is not on the P-256 curve" in
        let? signature := ok_or (p256_from_der signature) invalid in
        checked (p256_verify key data signature)
  | Okp alg crv x =>
      if negb (alg =? COSE_ALG_EDDSA)%Z || negb (crv =? 6)%Z then
        Err ("Unsupported OKP signature alg " +:+ pretty alg +:+ " on curve " +:+ pretty crv)
      else if negb (String.length x =? 32)%nat then Err "Ed25519 public key must be 32 bytes"
      else
        let? key := ok_or (verifying_key_from_bytes x) "Ed25519 public key invalid" in
        let? signature := ok_or (signature_from_slice signature) invalid in
        checked (dalek_verify key data signature)
  | Rsa alg n e =>
      if negb (alg =? COSE_ALG_RS256)%Z then Err ("Unsupported RSA signature alg " +:+ pretty alg)
      else
        let? key := ok_or (rsa_new n e) "RSA public key invalid" in
        let? signature := ok_or (rsa_from_slice signature) invalid in
        checked (rsa_verify key data signature)
  end.

(** * Credentials as the browser sends them *)

Definition aaguid_to_string (val : string) : result string string :=
  if negb (String.length val =? 16)%nat then
    Err ("AAGUID was " +:+ pretty (N.of_nat (String.length val)) +:+ " bytes, expected 16 bytes")
  else
    let hex := hex_encode val in
    Ok (str_join "-" [slice 0 8 hex; slice 8 4 hex; slice 12 4 hex; slice 16 4 hex; slice 20 12 hex]).

Definition parse_backup_flags (flags : AuthenticatorDataFlags) : result (string * bool) string :=
  let device_type := if fl_be flags then "multi_device" else "single_device" in
  if negb (fl_be flags) && fl_bs flags then
    Err "Single-device credential indicated that it was backed up, which should be impossible."
  else Ok (device_type, fl_bs flags).

Definition response_bytes (response : JsonDict) (field label : string) : result string string :=
  match aget field response with
  | Some (JString text) =>
      ok_or (b64url_decode text) ("Credential response " +:+ label +:+ " is not base64url")
  | _ => Err ("Credential response missing required " +:+ label)
  end.

Definition check_credential_shape (credential : JsonDict) : result JsonDict string :=
  match aget "id" credential with
  | Some (JString id) =>
      match aget "rawId" credential with
      | Some (JString raw_id) =>
          match aget "response" credential with
          | Some (JObject response) =>
              if negb (bool_decide (aget "type" credential ≫= as_str = Some "public-key")) then
                Err "Credential had unexpected type"
              else
                let? raw := ok_or (b64url_decode raw_id) "Credential rawId is not base64url" in
                if negb (bool_decide (b64url_encode raw = id)) then
                  Err "id and raw_id were not equivalent"
                else Ok response
          | _ => Err "Credential missing required response"
          end
      | _ => Err "Credential missing required rawId"
      end
  | _ => Err "Credential missing required id"
  end.

(** The checks both ceremonies make of the client data. *)
Definition check_client_data (client_data : CollectedClientData)
    (ceremony_type expected_challenge expected_origin : string) : result unit string :=
  if negb (bool_decide (cd_ceremony_type client_data = ceremony_type)) then
    Err ("Unexpected client data type " +:+ dquoted (cd_ceremony_type client_data) +:+
      ", expected " +:+ dquoted ceremony_type)
  else if negb (bool_decide (expected_challenge = cd_challenge client_data)) then
    Err "Client data challenge was not expected challenge"
  else if negb (bool_decide (expected_origin = cd_origin client_data)) then
    Err ("Unexpected client data origin " +:+ dquoted (cd_origin client_data) +:+ ", expected " +:+
      dquoted expected_origin)
  else Ok ().

(** * Registration *)

Record VerifiedRegistration := mkVerifiedRegistration {
  vr_credential_id : string;
  vr_credential_public_key : string;
  vr_sign_count : Z;
  vr_aaguid : string;
  vr_fmt : string;
  vr_user_verified : bool;
  vr_credential_device_type : string;
  vr_credential_backed_up : bool
}.

Definition is_text (name : string) (v : CborValue) : bool :=
  match v with CText text => bool_decide (text = name) | _ => false end.

(** [text_entry] and [att_entry]: an entry of a CBOR map with text keys. *)
Definition text_entry (map : list (CborValue * CborValue)) (name : string) : option CborValue :=
  (λ p : nat * (CborValue * CborValue), p.2.2) <$>
    list_find (λ kv, is_text name kv.1 = true) map.

(** The format, the authenticator data and the statement of an attestation
    object. *)
Definition parse_attestation (bytes : string) :
    result (string * string * list (CborValue * CborValue)) string :=
  let malformed := "attestationObject was malformed" in
  match decode_cbor_prefix bytes with
  | Ok (CMap attestation_map, _) =>
      match text_entry attestation_map "fmt" with
      | Some (CText fmt) =>
          match text_entry attestation_map "authData" with
          | Some (CBytes auth_data) =>
              match text_entry attestation_map "attStmt" with
              | Some (CMap att_stmt) => Ok (fmt, auth_data, att_stmt)
              | None => Ok (fmt, auth_data, [])
              | Some _ => Err malformed
              end
          | _ => Err malformed
          end
      | _ => Err malformed
      end
  | _ => Err malformed
  end.

(** The attestation statement: none, or packed self-attestation. *)
Definition check_statement (fmt : string) (att_stmt : list (CborValue * CborValue))
    (decoded_public_key : CosePublicKey) (auth_data_bytes client_data_bytes : string) :
    result unit string :=
  if decide (fmt = "none") then
    if existsb (λ name, bool_decide (is_Some (text_entry att_stmt name)))
         ["sig"; "x5c"; "response"; "alg"; "ver"; "certInfo"; "pubArea"] then
      Err "None attestation had unexpected attestation statement"
    else Ok ()
  else if decide (fmt = "packed") then
    let? sig :=
      match text_entry att_stmt "sig" with
      | Some (CBytes bytes) =>
          if str_is_empty bytes then Err "Attestation statement was missing signature (Packed)"
          else Ok bytes
      | _ => Err "Attestation statement was missing signature (Packed)"
      end in
    let? alg :=
      match text_entry att_stmt "alg" ≫= cbor_int with
      | Some alg =>
          if (alg =? 0)%Z then Err "Attestation statement was missing algorithm (Packed)" else Ok alg
      | None => Err "Attestation statement was missing algorithm (Packed)"
      end in
    if bool_decide (is_Some (text_entry att_stmt "x5c")) then
      Err "Packed attestation with a certificate chain is not supported; use attestation 'none'"
    else if negb (cose_alg decoded_public_key =? alg)%Z then
      Err ("Credential public key alg " +:+ pretty (cose_alg decoded_public_key) +:+
        " did not equal attestation statement alg " +:+ pretty alg)
    else
      map_err (λ _, "Could not verify attestation statement signature (Packed|Self)")
        (verify_signature decoded_public_key sig (auth_data_bytes +:+ sha256 client_data_bytes))
  else Err ("Unsupported attestation type " +:+ dquoted fmt).

(** The checks of registration's authenticator data, up to the key. *)
Definition check_registration_data (auth_data : AuthenticatorData) (expected_rp_id : string)
    (require_user_presence require_user_verification : bool) :
    result (AttestedCredentialData * CosePublicKey) string :=
  if negb (bool_decide (ad_rp_id_hash auth_data = sha256 expected_rp_id)) then Err "Unexpected RP ID hash"
  else if require_user_presence && negb (fl_up (ad_flags auth_data)) then
    Err "User presence was required, but was not present during attestation"
  else if require_user_verification && negb (fl_uv (ad_flags auth_data)) then
    Err "User verification is required but user was not verified during attestation"
  else
    let? attested := ok_or (ad_attested_credential_data auth_data)
      "Authenticator did not provide attested credential data" in
    if str_is_empty (at_credential_id attested) then Err "Authenticator did not provide a credential ID"
    else if str_is_empty (at_credential_public_key attested) then
      Err "Authenticator did not provide a credential public key"
    else if str_is_empty (at_aaguid attested) then Err "Authenticator did not provide an AAGUID"
    else
      let? decoded_public_key := decode_credential_public_key (at_credential_public_key attested) in
      if negb (bool_decide (cose_alg decoded_public_key ∈ SUPPORTED_COSE_ALGORITHMS)) then
        Err ("Unsupported credential public key alg " +:+ dquoted (pretty (cose_alg decoded_public_key)) +:+
          ", expected one of: [-7, -8, -257]")
      else Ok (attested, decoded_public_key).

Definition verify_registration_response (credential : JsonDict)
    (expected_challenge expected_rp_id expected_origin : string)
    (require_user_presence require_user_verification : bool) : result VerifiedRegistration string :=
  let? response := check_credential_shape credential in
  let? client_data_bytes := response_bytes response "clientDataJSON" "clientDataJSON" in
  let? attestation_object_bytes := response_bytes response "attestationObject" "attestationObject" in
  let? client_data := parse_client_data_json client_data_bytes in
  let? _ := check_client_data client_data "webauthn.create" expected_challenge expected_origin in
  let? attestation := parse_attestation attestation_object_bytes in
  let '(fmt, auth_data_bytes, att_stmt) := attestation in
  let? auth_data := parse_authenticator_data auth_data_bytes in
  let? checked := check_registration_data auth_data expected_rp_id
    require_user_presence require_user_verification in
  let? _ := check_statement fmt att_stmt checked.2 auth_data_bytes client_data_bytes in
  let? backup := parse_backup_flags (ad_flags auth_data) in
  let? aaguid := aaguid_to_string (at_aaguid checked.1) in
  Ok (mkVerifiedRegistration (at_credential_id checked.1) (at_credential_public_key checked.1)
    (ad_sign_count auth_data) aaguid fmt (fl_uv (ad_flags auth_data)) backup.1 backup.2).

(** * Authentication *)

Record VerifiedAuthentication := mkVerifiedAuthentication {
  va_credential_id : string;
  va_new_sign_count : Z;
  va_credential_device_type : string;
  va_credential_backed_up : bool;
  va_user_verified : bool
}.

(** The checks of authentication's authenticator data. *)
Definition check_authentication_data (auth_data : AuthenticatorData) (expected_rp_id : string)
    (credential_current_sign_count : Z) (require_user_verification : bool) : result unit string :=
  if negb (bool_decide (ad_rp_id_hash auth_data = sha256 expected_rp_id)) then Err "Unexpected RP ID hash"
  else if negb (fl_up (ad_flags auth_data)) then Err "User was not present during authentication"
  else if require_user_verification && negb (fl_uv (ad_flags auth_data)) then
    Err "User verification is required but user was not verified during authentication"
  else if ((0 <? ad_sign_count auth_data) || (0 <? credential_current_sign_count))%Z &&
          (ad_sign_count auth_data <=? credential_current_sign_count)%Z then
    Err ("Response sign count of " +:+ pretty (ad_sign_count auth_data) +:+
      " was not greater than current count of " +:+ pretty credential_current_sign_count)
  else Ok ().

Definition verify_authentication_response (credential : JsonDict)
    (expected_challenge expected_rp_id expected_origin credential_public_key : string)
    (credential_current_sign_count : Z) (require_user_verification : bool) :
    result VerifiedAuthentication string :=
  let? response := check_credential_shape credential in
  let? raw_id := ok_or (b64url_decode (default "" (aget "rawId" credential ≫= as_str)))
    "Credential rawId is not base64url" in
  let? client_data_bytes := response_bytes response "clientDataJSON" "clientDataJSON" in
  let? authenticator_data_bytes := response_bytes response "authenticatorData" "authenticatorData" in
  let? signature_bytes := response_bytes response "signature" "signature" in
  let? client_data := parse_client_data_json client_data_bytes in
  let? _ := check_client_data client_data "webauthn.get" expected_challenge expected_origin in
  let? auth_data := map_err (λ e, "authenticatorData was malformed: " +:+ e)
    (parse_authenticator_data authenticator_data_bytes) in
  let? _ := check_authentication_data auth_data expected_rp_id credential_current_sign_count
    require_user_verification in
  let? decoded_public_key := decode_credential_public_key credential_public_key in
  let? _ := map_err (λ _, "Could not verify authentication signature")
    (verify_signature decoded_public_key signature_bytes
       (authenticator_data_bytes +:+ sha256 client_data_bytes)) in
  let? backup := parse_backup_flags (ad_flags auth_data) in
  Ok (mkVerifiedAuthentication raw_id (ad_sign_count auth_data) backup.1 backup.2
    (fl_uv (ad_flags auth_data))).
End data.

(** * Byte slices *)

Lemma str_take_drop n s : str_take n s +:+ str_drop n s = s.
Proof. revert s. induction n as [|n IH]; intros [|c s]; [done..|]. cbn. by rewrite IH. Qed.

Lemma str_take_length n s : String.length (str_take n s) = Nat.min n (String.length s).
Proof. revert s. induction n as [|n IH]; intros [|c s]; [done..|]. cbn. by rewrite IH. Qed.

Lemma str_drop_length n s : String.length (str_drop n s) = String.length s - n.
Proof. revert s. induction n as [|n IH]; intros [|c s]; [done..|]. cbn. by rewrite IH. Qed.

Lemma str_drop_drop n m s : str_drop n (str_drop m s) = str_drop (m + n) s.
Proof.
  revert s. induction m as [|m IH]; intros [|c s]; [done..| |]; [by destruct n|]. cbn. apply IH.
Qed.

Lemma str_take_app a b : str_take (String.length a) (a +:+ b) = a.
Proof. induction a as [|c a IH]; [by destruct b|]. cbn. by f_equal. Qed.

Lemma str_drop_app a b : str_drop (String.length a) (a +:+ b) = b.
Proof. by induction a. Qed.

Lemma byte_at_drop i p s : byte_at (p + i) s = byte_at i (str_drop p s).
Proof.
  revert s. induction p as [|p IH]; intros s; [done|]. destruct s as [|c s]; [by destruct i|].
  apply (IH s).
Qed.

Lemma byte_at_app i a b : (i < String.length a)%nat → byte_at i (a +:+ b) = byte_at i a.
Proof.
  revert i. induction a as [|c a IH]; intros [|i] Hi; simpl in Hi; [lia..|done|].
  apply IH. lia.
Qed.

Lemma app_length_inj (a b c d : string) :
  a +:+ b = c +:+ d → String.length a = String.length c → a = c ∧ b = d.
Proof.
  intros Heq Hl. split.
  - by rewrite <-(str_take_app a b), Heq, Hl, str_take_app.
  - by rewrite <-(str_drop_app a b), Heq, Hl, str_drop_app.
Qed.

(** The first [n] bytes and the rest. *)
Lemma split_at n s : (n ≤ String.length s)%nat →
  ∃ a b, s = a +:+ b ∧ String.length a = n ∧ str_take n s = a ∧ str_drop n s = b.
Proof.
  intros Hn. exists (str_take n s), (str_drop n s). rewrite str_take_drop, str_take_length.
  split; [done|]. split; [lia|done].
Qed.

Lemma drop_app p val g x :
  str_drop p val = g +:+ x →
  str_drop (p + String.length g) val = x ∧ slice p (String.length g) val = g.
Proof.
  intros Hg. unfold slice. by rewrite <-str_drop_drop, Hg, str_drop_app, str_take_app.
Qed.

Lemma byte_at_range i s : (0 ≤ byte_at i s)%Z.
Proof. unfold byte_at. destruct (String.get i s); lia. Qed.

(** * The layout *)

Section layout.
Context `{!JsonDisplay, !Crypto, !WebAuthnCrates}.

(** The text is one CBOR item when [rest] follows. *)
Definition cbor_item (item rest : string) : Prop :=
  ∃ v, from_reader (item +:+ rest) = Ok (v, String.length item).

(** AAGUID, length of the credential id in two bytes, credential id, key. *)
Inductive attested_layout (a : AttestedCredentialData) (s rest : string) : Prop :=
| attested_bytes len2 :
    s = at_aaguid a +:+ (len2 +:+ (at_credential_id a +:+ at_credential_public_key a)) →
    String.length (at_aaguid a) = 16 → String.length len2 = 2 →
    Z.of_nat (String.length (at_credential_id a)) = (byte_at 0 len2 * 256 + byte_at 1 len2)%Z →
    cbor_item (at_credential_public_key a) rest → attested_layout a s rest.

Definition extension_layout (e s rest : string) : Prop := e = s ∧ cbor_item s rest.

(** A part the flags announce, or nothing. *)
Definition part_layout {A} (layout : A → string → string → Prop) (present : bool) (o : option A)
    (s rest : string) : Prop :=
  match o with Some a => present = true ∧ layout a s rest | None => present = false ∧ s = "" end.

(** Relying party hash, flags, counter, attested data, extensions, and nothing
    else. *)
Inductive authenticator_data_layout (d : AuthenticatorData) (val : string) : Prop :=
| authenticator_data_bytes flags count attested extensions :
    val = ad_rp_id_hash d +:+ String flags (count +:+ (attested +:+ extensions)) →
    String.length (ad_rp_id_hash d) = 32 → String.length count = 4 →
    ad_flags d = flags_of (Z.of_N (N_of_ascii flags)) → ad_sign_count d = head_u32 count →
    part_layout attested_layout (fl_at (ad_flags d)) (ad_attested_credential_data d) attested extensions →
    part_layout extension_layout (fl_ed (ad_flags d)) (ad_extensions d) extensions "" →
    authenticator_data_layout d val.

(** A reader takes no more bytes than there are. *)
Class CborLaws : Prop := {
  from_reader_bounded b v n : from_reader b = Ok (v, n) → (n ≤ String.length b)%nat
}.
Context `{!CborLaws}.

Lemma decode_prefix_ok b v n : decode_cbor_prefix b = Ok (v, n) ↔ from_reader b = Ok (v, n).
Proof. unfold decode_cbor_prefix. destruct (from_reader b) as [[]|]; simpl; naive_solver. Qed.

(** A parser that starts at a pointer reads a layout off what is there. *)
Definition reads {A} (val : string) (parse : nat → result (A * nat) string)
    (layout : A → string → string → Prop) : Prop :=
  ∀ p a p', (p ≤ String.length val)%nat →
    parse p = Ok (a, p') ↔
    ∃ s rest, str_drop p val = s +:+ rest ∧ p' = (p + String.length s)%nat ∧ layout a s rest.

Lemma extensions_read val : reads val (parse_extensions val) extension_layout.
Proof.
  intros p e p' Hp. unfold parse_extensions, extension_layout, cbor_item, slice. split.
  - destruct (decode_cbor_prefix _) as [[v n]|] eqn:Hd; [|done]. apply decode_prefix_ok in Hd.
    pose proof (from_reader_bounded _ _ _ Hd) as Hn. intros [= <- <-].
    destruct (split_at n (str_drop p val) Hn) as (a & b & Hab & Hl & -> & _).
    exists a, b. rewrite Hab in *. rewrite Hl. do 2 (split; [done|]). split; [done|]. by exists v.
  - intros (s & rest & Hs & -> & -> & v & Hv). rewrite Hs.
    rewrite (proj2 (decode_prefix_ok _ _ _) Hv). cbn [fst snd]. by rewrite str_take_app.
Qed.

(** Reading the parts of an attestation from where it starts. *)
Lemma attested_slices val p g l2 id rest :
  str_drop p val = g +:+ (l2 +:+ (id +:+ rest)) →
  String.length g = 16 → String.length l2 = 2 →
  slice p 16 val = g ∧ byte_at (p + 16) val = byte_at 0 l2 ∧ byte_at (p + 16 + 1) val = byte_at 1 l2 ∧
  slice (p + 16 + 2) (String.length id) val = id ∧
  str_drop (p + 16 + 2 + String.length id) val = rest.
Proof.
  intros Hg Hgl Hl. apply drop_app in Hg as [E1 Hs1]. rewrite Hgl in E1, Hs1.
  pose proof E1 as Hb. apply drop_app in E1 as [E2 _]. rewrite Hl in E2.
  apply drop_app in E2 as [E3 Hs3]. split; [done|].
  pose proof (byte_at_drop 0 (p + 16) val) as Hb0. rewrite Nat.add_0_r in Hb0.
  by rewrite Hb0, (byte_at_drop 1 (p + 16)), Hb, !byte_at_app by lia.
Qed.

Lemma attested_read val : reads val (parse_attested val) attested_layout.
Proof.
  intros p a p' Hp. unfold parse_attested. pose proof (str_drop_length p val) as Hdl. split.
  - destruct (Nat.ltb_spec (String.length val) (p + 18)) as [|Hlen]; [done|].
    set (len := Z.to_nat _). destruct (Nat.ltb_spec (String.length val) (p + 16 + 2 + len)) as [|Hlen2]; [done|].
    destruct (decode_cbor_prefix _) as [[v n]|] eqn:Hd; [|done]. apply decode_prefix_ok in Hd.
    destruct (split_at 16 (str_drop p val)) as (g & r1 & Hr1 & Hg & _); [lia|].
    rewrite Hr1, str_length_app in Hdl. destruct (split_at 2 r1) as (l2 & r2 & -> & Hl2 & _); [lia|].
    rewrite str_length_app in Hdl. destruct (split_at len r2) as (id & r3 & -> & Hid & _); [lia|].
    destruct (attested_slices _ _ _ _ _ _ Hr1 Hg Hl2) as (-> & Hb0 & Hb1 & Hsid & Hdrop).
    rewrite Hid in Hsid, Hdrop. rewrite Hdrop in Hd. pose proof (from_reader_bounded _ _ _ Hd) as Hn.
    destruct (split_at n r3 Hn) as (k & rest & -> & Hkl & _). apply drop_app in Hdrop as [_ Hk].
    rewrite Hkl in Hk. cbn [fst snd]. rewrite Hsid, Hk. intros [= <- <-].
    exists (g +:+ (l2 +:+ (id +:+ k))), rest. rewrite Hr1, <-!str_app_assoc.
    split; [done|]. split; [rewrite !str_length_app; lia|].
    exists l2; cbn [at_aaguid at_credential_id at_credential_public_key]; [done..| |exists v; by rewrite Hkl].
    subst len. rewrite Hid, Hb0, Hb1, Z2Nat.id; [done|]. pose proof (byte_at_range 0 l2).
    pose proof (byte_at_range 1 l2). lia.
  - intros (s & rest & Hs & -> & [l2 -> Hg Hl2 Hid [v Hv]]). destruct a as [g id k].
    cbn [at_aaguid at_credential_id at_credential_public_key] in *. rewrite <-!str_app_assoc in Hs.
    rewrite !str_length_app, Hs, !str_length_app in *.
    destruct (attested_slices _ _ _ _ _ _ Hs Hg Hl2) as (-> & -> & -> & Hsid & Hdrop).
    rewrite <-Hid, Nat2Z.id. rewrite (proj2 (Nat.ltb_ge _ _)), (proj2 (Nat.ltb_ge _ _)) by lia.
    rewrite Hdrop, (proj2 (decode_prefix_ok _ _ _) Hv). cbn [fst snd]. rewrite Hsid.
    apply drop_app in Hdrop as [_ ->]. f_equal. f_equal. lia.
Qed.

Lemma part_read {A} val parse (layout : A → string → string → Prop) (present : bool) p o p' :
  reads val parse layout → (p ≤ String.length val)%nat →
  part present parse p = Ok (o, p') ↔
  ∃ s rest, str_drop p val = s +:+ rest ∧ p' = (p + String.length s)%nat ∧ part_layout layout present o s rest.
Proof.
  intros Hreads Hp. unfold part. destruct present.
  - destruct (parse p) as [[a q]|] eqn:Hparse.
    + apply (Hreads p a q Hp) in Hparse as Hspec. split.
      * intros [= <- <-]. destruct Hspec as (s & rest & ? & ? & ?). by exists s, rest.
      * intros (s & rest & Hs & -> & Ho). destruct o as [a'|]; [|by destruct Ho]. destruct Ho as [_ Ho].
        assert (parse p = Ok (a', (p + String.length s)%nat)) as Hp'
          by (apply (Hreads p a' _ Hp); by exists s, rest).
        rewrite Hparse in Hp'. by injection Hp' as -> ->.
    + split; [done|]. intros (s & rest & Hs & -> & Ho). destruct o as [a'|]; [|by destruct Ho].
      assert (parse p = Ok (a', (p + String.length s)%nat)) as Hp'
        by (apply (Hreads p a' _ Hp); exists s, rest; naive_solver). congruence.
  - split.
    + intros [= <- <-]. exists "", (str_drop p val). simpl. by rewrite Nat.add_0_r.
    + intros (s & rest & Hs & -> & Ho). destruct o; [by destruct Ho|]. destruct Ho as [_ ->].
      simpl. by rewrite Nat.add_0_r.
Qed.

(** The fixed part in front. *)
Lemma header_read hash flags count rest :
  String.length hash = 32 → String.length count = 4 →
  let val := hash +:+ String flags (count +:+ rest) in
  str_take 32 val = hash ∧ byte_at 32 val = Z.of_N (N_of_ascii flags) ∧
  head_u32 (str_drop 33 val) = head_u32 count ∧ str_drop 37 val = rest ∧
  String.length val = (37 + String.length rest)%nat.
Proof.
  intros Hh Hc val. pose proof (str_take_app hash (String flags (count +:+ rest))) as Ht.
  pose proof (str_drop_app hash (String flags (count +:+ rest))) as Hd. rewrite Hh in Ht, Hd.
  fold val in Ht, Hd.
  pose proof (str_drop_drop 1 32 val : _ = str_drop 33 val) as Hcut.
  assert (H33 : str_drop 33 val = count +:+ rest) by (by rewrite <-Hcut, Hd).
  split; [done|]. split.
  { pose proof (byte_at_drop 0 32 val) as Hb. rewrite Hd in Hb. exact Hb. }
  split; [rewrite H33; unfold head_u32; by rewrite !byte_at_app by lia|].
  split; [rewrite <-(str_drop_drop 4 33 val : _ = str_drop 37 val), H33, <-Hc; apply str_drop_app|].
  unfold val. rewrite str_length_app. cbn [String.length]. rewrite str_length_app. lia.
Qed.

Lemma str_length_zero (s : string) : String.length s = 0 → s = "".
Proof. by destruct s. Qed.

(** Authenticator data is parsed exactly: it is accepted when and only when
    it is the relying party hash, the flags, the counter, the attested data and
    the extensions the flags announce, each in its length, and not a byte
    more; and what is read are those parts. *)
Theorem parse_authenticator_data_spec val d :
  parse_authenticator_data val = Ok d ↔ authenticator_data_layout d val.
Proof.
  unfold parse_authenticator_data. split.
  - destruct (Nat.ltb_spec (String.length val) 37) as [|Hlen]; [done|].
    destruct (split_at 32 val) as (hash & r1 & -> & Hh & _); [lia|]. rewrite str_length_app in Hlen.
    destruct r1 as [|fl r1]; simpl in Hlen; [lia|].
    destruct (split_at 4 r1) as (count & r2 & -> & Hc & _); [lia|].
    destruct (header_read hash fl count r2 Hh Hc) as (-> & -> & -> & Hr & Hl).
    set (val := hash +:+ _) in *. set (flags := flags_of _).
    destruct (part _ (parse_attested val) 37) as [[att p1]|] eqn:Ha; [|done]. cbn [fst snd].
    apply (part_read val _ attested_layout) in Ha; [|apply attested_read|lia].
    destruct Ha as (s1 & rest1 & Hs1 & -> & Hatt).
    assert (Hp1 : (37 + String.length s1 ≤ String.length val)%nat) by (rewrite Hl, <-Hr, Hs1, str_length_app; lia).
    destruct (part _ (parse_extensions val) _) as [[ext p2]|] eqn:He; [|done]. cbn [fst snd].
    apply (part_read val _ extension_layout) in He; [|apply extensions_read|done].
    destruct He as (s2 & rest2 & Hs2 & -> & Hext).
    destruct (Nat.ltb_spec (37 + String.length s1 + String.length s2) (String.length val)); [done|].
    rewrite <-str_drop_drop, Hs1, str_drop_app in Hs2.
    assert (rest2 = "") as ->.
    { apply str_length_zero. rewrite Hl, <-Hr, Hs1, Hs2, !str_length_app in *. lia. }
    rewrite str_app_nil_r in Hs2. subst rest1. intros [= <-].
    apply (authenticator_data_bytes _ _ fl count s1 s2); cbn; [|done..].
    unfold val. by rewrite <-Hr, Hs1.
  - intros [fl count s1 s2 -> Hh Hc Hfl Hct Hatt Hext]. destruct d as [hash flags n att ext].
    cbn [ad_rp_id_hash ad_flags ad_sign_count ad_attested_credential_data ad_extensions] in *.
    destruct (header_read hash fl count (s1 +:+ s2) Hh Hc) as (-> & -> & -> & Hr & Hl).
    set (val := hash +:+ _) in *. rewrite str_length_app in Hl.
    rewrite (proj2 (Nat.ltb_ge _ _)) by lia. rewrite <-Hfl, <-Hct.
    rewrite (proj2 (part_read val _ attested_layout (fl_at flags) 37 att (37 + String.length s1)
      (attested_read val) ltac:(lia))) by (by exists s1, s2). cbn [fst snd].
    rewrite (proj2 (part_read val _ extension_layout (fl_ed flags) (37 + String.length s1) ext
      (37 + String.length s1 + String.length s2) (extensions_read val) ltac:(lia))).
    + cbn [fst snd]. by rewrite (proj2 (Nat.ltb_ge _ _)) by lia.
    + exists s2, "". rewrite <-str_drop_drop, Hr, str_drop_app, str_app_nil_r. done.
Qed.
End layout.
