(* ===== verification/CredentialStore.v ===== *)
(** Registered user credentials (A4P/rust-sdk/src/credential_store.rs): the
    trait as a record of operations over a state, the in-memory store, the
    JSON file store. *)
From S2P Require Import Prelude F64 RustMap RustStr Json A4PUtil Canonical.

Definition CREDENTIAL_STORE_SCHEMA_VERSION : Z := 2.

Record UserCredentialRecord := mkCredential {
  cr_user_id : string;
  cr_credential_id : string;
  cr_signature_method : string;
  cr_public_key : JsonDict;
  cr_details : JsonDict;
  cr_metadata : JsonDict;
  cr_created_at : string
}.

Definition record_new (user_id credential_id signature_method : string) (public_key : JsonDict) :
    UserCredentialRecord :=
  mkCredential user_id credential_id signature_method public_key [] [] "".

(** [to_json], as serde derives it: camelCase fields in order. *)
Definition record_to_json (r : UserCredentialRecord) : JsonDict :=
  dict [("userId", JString (cr_user_id r)); ("credentialId", JString (cr_credential_id r));
        ("signatureMethod", JString (cr_signature_method r));
        ("publicKey", JObject (cr_public_key r)); ("details", JObject (cr_details r));
        ("metadata", JObject (cr_metadata r)); ("createdAt", JString (cr_created_at r))].

(** [A4PCredentialStore]; reading may change the state, as a file store does
    when it refreshes. *)
Record A4PCredentialStore (C : Type) := mkCredentialStore {
  cs_save : UserCredentialRecord → C → result unit A4PError * C;
  cs_get : string → C → result (option UserCredentialRecord) A4PError * C;
  cs_list_for_user : string → C → result (list UserCredentialRecord) A4PError * C;
  cs_list_all : C → result (list UserCredentialRecord) A4PError * C
}.

(** * In memory *)

Notation records := (list UserCredentialRecord).

(** [insert]: replace the record of the credential id in place, or append. *)
Fixpoint insert_record (record : UserCredentialRecord) (l : records) : records :=
  match l with
  | [] => [record]
  | item :: l =>
      if decide (cr_credential_id item = cr_credential_id record) then record :: l
      else item :: insert_record record l
  end.

Definition with_records (l : records) : records := foldl (λ l r, insert_record r l) [] l.

(** [replace_all]: one pass with an index from credential ids to positions. *)
Definition replace_step (st : records * gmap string nat) (record : UserCredentialRecord) :
    records * gmap string nat :=
  let (unique, index) := st in
  match index !! cr_credential_id record with
  | Some position => (<[position := record]> unique, index)
  | None => (unique ++ [record], <[cr_credential_id record := length unique]> index)
  end.
Definition replace_all (l : records) : records := (foldl replace_step ([], ∅) l).1.

Definition find_record (credential_id : string) (l : records) : option UserCredentialRecord :=
  snd <$> list_find (λ r, cr_credential_id r = credential_id) l.

Definition user_records (user_id : string) (l : records) : records :=
  filter (λ r, cr_user_id r = user_id) l.

Definition InMemoryCredentialStore : A4PCredentialStore records :=
  mkCredentialStore _
    (λ record l, (Ok (), insert_record record l))
    (λ credential_id l, (Ok (find_record credential_id l), l))
    (λ user_id l, (Ok (user_records user_id l), l))
    (λ l, (Ok l, l)).

(** * In a JSON file *)

(** [sorted_value] (util.rs): every object's keys sorted. *)
Fixpoint sorted_value (v : Value) : Value :=
  match v with
  | JObject map =>
      JObject (btree
        ((fix go map :=
            match map with [] => [] | (key, value) :: map => (key, sorted_value value) :: go map end) map))
  | JArray items =>
      JArray ((fix go items :=
                 match items with [] => [] | item :: items => sorted_value item :: go items end) items)
  | other => other
  end.

(** The file system and serde, as the store uses them; an error is its text. *)
Class CredentialFile (F : Type) := {
  file_exists : F → bool;
  file_read : F → result string string;
  file_prepare : F → result unit string * F;
  file_write : string → F → result unit string * F;
  json_parse : string → result Value string;
  json_pretty : Value → result string string;
  record_from_value : Value → result UserCredentialRecord string
}.

Section file.
Context {F : Type} `{!CredentialFile F}.

Definition load_record (item : Value) : result UserCredentialRecord A4PError :=
  match item with
  | JObject _ =>
      map_err (λ e, AValue ("Credential store record invalid: " +:+ e)) (record_from_value item)
  | _ => Err (ACredentialStoreFormat "Credential store records must be objects")
  end.

Definition load_records (f : F) : result records A4PError :=
  if negb (file_exists f) then Ok []
  else
    let? text := map_err (λ e, ARuntime ("Cannot read credential store: " +:+ e)) (file_read f) in
    let? raw := map_err (λ e, AValue ("Credential store is not valid JSON: " +:+ e)) (json_parse text) in
    if negb (bool_decide (vget "schemaVersion" raw ≫= as_i64 = Some CREDENTIAL_STORE_SCHEMA_VERSION)) then
      Err (ACredentialStoreFormat
        "Unsupported credential store format; delete the old credential file and register credentials again")
    else
      match vget "credentials" raw with
      | Some (JArray items) => collect_results load_record items
      | _ => Err (ACredentialStoreFormat "Credential store 'credentials' must be a list")
      end.

(** The state: the records in memory and the file. *)
Definition refresh (s : records * F) : result unit A4PError * (records * F) :=
  match load_records s.2 with
  | Ok l => (Ok (), (replace_all l, s.2))
  | Err e => (Err e, s)
  end.

Definition flush (s : records * F) : result unit A4PError * (records * F) :=
  let (l, f) := s in
  match file_prepare f with
  | (Err e, f) => (Err (ARuntime ("Cannot create credential store directory: " +:+ e)), (l, f))
  | (Ok _, f) =>
      let payload := dict
        [("schemaVersion", value_of_i64 CREDENTIAL_STORE_SCHEMA_VERSION);
         ("credentials", JArray ((λ r, JObject (record_to_json r)) <$> l))] in
      match json_pretty (sorted_value (JObject payload)) with
      | Err e => (Err (ARuntime ("Cannot serialize credential store: " +:+ e)), (l, f))
      | Ok text =>
          let (r, f) := file_write text f in
          (map_err (λ e, ARuntime ("Cannot write credential store: " +:+ e)) r, (l, f))
      end
  end.

(** [JsonFileCredentialStore::new]. *)
Definition json_file_store_new (f : F) : result (records * F) A4PError :=
  let? l := load_records f in Ok (replace_all l, f).

(** A read after a refresh. *)
Definition refreshed {A} (read : records → A) (s : records * F) : result A A4PError * (records * F) :=
  match refresh s with
  | (Ok _, s) => (Ok (read s.1), s)
  | (Err e, s) => (Err e, s)
  end.

Definition JsonFileCredentialStore : A4PCredentialStore (records * F) :=
  mkCredentialStore _
    (λ record s, flush (insert_record record s.1, s.2))
    (λ credential_id, refreshed (find_record credential_id))
    (λ user_id, refreshed (user_records user_id))
    (refreshed (λ l, l)).
End file.

(** * Facts *)

(** Credential ids are unique. *)
Definition unique_ids (l : records) : Prop := NoDup (cr_credential_id <$> l).

Lemma insert_record_ids r l :
  cr_credential_id <$> insert_record r l =
  if decide (cr_credential_id r ∈ (cr_credential_id <$> l)) then cr_credential_id <$> l
  else (cr_credential_id <$> l) ++ [cr_credential_id r].
Proof.
  induction l as [|x l IH]; cbn [insert_record fmap list_fmap].
  - by rewrite decide_False by apply not_elem_of_nil.
  - destruct (decide (cr_credential_id x = cr_credential_id r)) as [->|Hne]; cbn [fmap list_fmap].
    + by rewrite decide_True by left.
    + rewrite IH. destruct (decide (cr_credential_id r ∈ (cr_credential_id <$> l))).
      * by rewrite decide_True by (by right).
      * by rewrite decide_False by (rewrite not_elem_of_cons; naive_solver).
Qed.

Lemma insert_record_unique r l : unique_ids l → unique_ids (insert_record r l).
Proof.
  unfold unique_ids. rewrite insert_record_ids. case_decide as Hin; [done|]. intros Hnd.
  apply NoDup_app. split; [done|]. split; [set_solver|apply NoDup_singleton].
Qed.

Lemma find_insert_record id r l :
  find_record id (insert_record r l) =
  if decide (cr_credential_id r = id) then Some r else find_record id l.
Proof.
  unfold find_record. induction l as [|x l IH]; cbn [insert_record list_find].
  - by case_decide.
  - destruct (decide (cr_credential_id x = cr_credential_id r)) as [Hx|Hx]; cbn [list_find].
    + rewrite Hx. by case_decide.
    + destruct (decide (cr_credential_id x = id)) as [Hid|Hid].
      * by rewrite decide_False by congruence.
      * destruct (list_find _ (insert_record r l)) as [[]|], (list_find _ l) as [[]|];
          simpl in *; repeat case_decide; naive_solver.
Qed.

(** The index of [replace_all] says where each id is. *)
Definition index_ok (l : records) (index : gmap string nat) : Prop :=
  ∀ id i, index !! id = Some i ↔ ∃ r, l !! i = Some r ∧ cr_credential_id r = id.

Lemma insert_record_at r x l i :
  unique_ids l → l !! i = Some x → cr_credential_id x = cr_credential_id r →
  insert_record r l = <[i := r]> l.
Proof.
  revert i. induction l as [|y l IH]; intros [|i] Hnd Hi Hid; simplify_eq/=; [by rewrite decide_True|].
  apply NoDup_cons in Hnd as [Hni Hnd]. rewrite decide_False; [by f_equal; apply IH|].
  intros Hy. apply Hni. rewrite Hy, <-Hid. apply list_elem_of_fmap. exists x.
  split; [done|]. by eapply list_elem_of_lookup_2.
Qed.

Lemma insert_record_new r l :
  cr_credential_id r ∉ (cr_credential_id <$> l) → insert_record r l = l ++ [r].
Proof.
  induction l as [|y l IH]; [done|]. cbn [fmap list_fmap insert_record].
  rewrite not_elem_of_cons. intros [Hy Hl]. rewrite decide_False by done. cbn [app]. f_equal. by apply IH.
Qed.

Lemma index_ok_insert l index i x r :
  index_ok l index → l !! i = Some x → cr_credential_id x = cr_credential_id r →
  index_ok (<[i := r]> l) index.
Proof.
  intros Hok Hi Hid id j. etrans; [apply Hok|]. split; intros (y & Hy & Hyid).
  - destruct (decide (i = j)) as [<-|Hne].
    + exists r. rewrite list_lookup_insert_eq by (by eapply lookup_lt_Some).
      split; [done|]. congruence.
    + exists y. by rewrite list_lookup_insert_ne.
  - destruct (decide (i = j)) as [<-|Hne].
    + rewrite list_lookup_insert_eq in Hy by (by eapply lookup_lt_Some).
      exists x. split; [done|]. congruence.
    + exists y. by rewrite list_lookup_insert_ne in Hy.
Qed.

Lemma index_ok_snoc l index r :
  index_ok l index → index !! cr_credential_id r = None →
  index_ok (l ++ [r]) (<[cr_credential_id r := length l]> index).
Proof.
  intros Hok Hnone id j. destruct (decide (id = cr_credential_id r)) as [->|Hid].
  - rewrite lookup_insert_eq. split.
    + intros [= <-]. exists r. by rewrite list_lookup_middle.
    + intros (y & Hy & Hyid). apply lookup_app_Some in Hy as [Hy|[Hle Hy]].
      * enough (index !! cr_credential_id r = Some j) by congruence. apply Hok. by exists y.
      * apply list_lookup_singleton_Some in Hy as [Hj _]. f_equal. lia.
  - rewrite lookup_insert_ne by done. etrans; [apply Hok|]. split; intros (y & Hy & Hyid); exists y; split; auto.
    + by apply lookup_app_l_Some.
    + apply lookup_app_Some in Hy as [Hy|[_ Hy]]; [done|].
      apply list_lookup_singleton_Some in Hy as [_ ->]. congruence.
Qed.

Lemma replace_step_insert r l index :
  unique_ids l → index_ok l index →
  (replace_step (l, index) r).1 = insert_record r l ∧
  index_ok (replace_step (l, index) r).1 (replace_step (l, index) r).2.
Proof.
  intros Hnd Hok. unfold replace_step. destruct (index !! cr_credential_id r) as [i|] eqn:Hi; cbn [fst snd].
  - destruct (proj1 (Hok _ _) Hi) as (x & Hx & Hid).
    split; [by erewrite insert_record_at|by eapply index_ok_insert].
  - split; [|by apply index_ok_snoc]. symmetry. apply insert_record_new.
    intros (x & Hid & [i Hx]%list_elem_of_lookup)%list_elem_of_fmap.
    enough (index !! cr_credential_id r = Some i) by congruence. apply Hok. by exists x.
Qed.

Lemma replace_fold l : ∀ u index, unique_ids u → index_ok u index →
  (foldl replace_step (u, index) l).1 = foldl (λ l r, insert_record r l) u l.
Proof.
  induction l as [|r l IH]; intros u index Hu Hok; [done|]. cbn [foldl].
  destruct (replace_step_insert r u index Hu Hok) as [Hs Hok'].
  destruct (replace_step (u, index) r) as [u' index']; cbn [fst snd] in Hs, Hok'. subst u'.
  apply IH; [by apply insert_record_unique|done].
Qed.

(** The one-pass [replace_all], with its index of positions, gives what
    saving the records one after another gives, whatever ids repeat; so a
    store that refreshes from a file and a store filled record by record hold
    the same list, without a repeated id. *)
Theorem replace_all_saves l :
  replace_all l = with_records l ∧ unique_ids (replace_all l).
Proof.
  assert (replace_all l = with_records l) as ->.
  { apply replace_fold; [apply NoDup_nil_2|]. intros id i. rewrite lookup_empty.
    split; [done|]. by intros (r & Hr & _). }
  split; [done|]. unfold with_records. assert (unique_ids []) as Hu by apply NoDup_nil_2.
  revert Hu. generalize (@nil UserCredentialRecord). induction l as [|r l IH]; intros u Hu; [done|].
  by apply IH, insert_record_unique.
Qed.

Lemma elem_of_insert_record x r l : x ∈ insert_record r l → x = r ∨ x ∈ l.
Proof.
  induction l as [|y l IH]; simpl; [set_solver|]. case_decide; rewrite !elem_of_cons; naive_solver.
Qed.

(** A credential store is a map from credential ids: saving a record makes
    it the record of its id, leaves every other id as it was, and keeps ids
    unique. *)
Theorem credential_save_get id r l :
  unique_ids l →
  let l' := ((cs_save _ InMemoryCredentialStore) r l).2 in
  unique_ids l' ∧
  (cs_get _ InMemoryCredentialStore id l').1 =
    if decide (cr_credential_id r = id) then Ok (Some r) else (cs_get _ InMemoryCredentialStore id l).1.
Proof.
  intros Hl. simpl. split; [by apply insert_record_unique|]. rewrite find_insert_record. by case_decide.
Qed.

(** What a client of a store that nothing else writes to may rely on. *)
Class CredentialStoreSpec {C : Type} (store : A4PCredentialStore C) := {
  held_records : C → records;
  save_held record c r c' :
    cs_save _ store record c = (r, c') → held_records c' = insert_record record (held_records c);
  get_held id c r c' :
    cs_get _ store id c = (r, c') →
    held_records c' = held_records c ∧ ∀ o, r = Ok o → o = find_record id (held_records c);
  list_all_held c r c' :
    cs_list_all _ store c = (r, c') →
    held_records c' = held_records c ∧ ∀ l, r = Ok l → l = held_records c
}.

#[export, program] Instance in_memory_spec : CredentialStoreSpec InMemoryCredentialStore :=
  {| held_records := λ l, l |}.
Solve Obligations with (simpl; intros; simplify_eq; naive_solver).

Lemma find_record_Some id l r : find_record id l = Some r → r ∈ l ∧ cr_credential_id r = id.
Proof.
  unfold find_record. destruct (list_find _ l) as [[i x]|] eqn:Hf; [|done]. intros [= <-].
  apply list_find_Some in Hf as (Hl & Hid & _). split; [by eapply list_elem_of_lookup_2|done].
Qed.

(** * What the file holds *)

Definition sorted_dict (m : JsonDict) : JsonDict :=
  match sorted_value (JObject m) with JObject m => m | _ => [] end.
Definition sorted_record (r : UserCredentialRecord) : UserCredentialRecord :=
  mkCredential (cr_user_id r) (cr_credential_id r) (cr_signature_method r)
    (sorted_dict (cr_public_key r)) (sorted_dict (cr_details r)) (sorted_dict (cr_metadata r))
    (cr_created_at r).

(** What was written is read, what was printed parses, and a record is read
    back from its JSON. *)
Class CredentialFileLaws (F : Type) `{!CredentialFile F} : Prop := {
  file_read_written text (f f' : F) :
    file_write text f = (Ok (), f') → file_exists f' = true ∧ file_read f' = Ok text;
  json_parse_pretty v text : json_pretty v = Ok text → json_parse text = Ok v;
  record_from_sorted r :
    record_from_value (sorted_value (JObject (record_to_json r))) = Ok (sorted_record r)
}.

Section file_facts.
Context {F : Type} `{!CredentialFile F, !CredentialFileLaws F}.

(** The keys of the written document, in order. *)
Lemma sorted_payload items :
  sorted_value (JObject [("schemaVersion", value_of_i64 CREDENTIAL_STORE_SCHEMA_VERSION);
                         ("credentials", JArray items)]) =
  JObject [("credentials", JArray (sorted_value <$> items));
           ("schemaVersion", value_of_i64 CREDENTIAL_STORE_SCHEMA_VERSION)].
Proof. done. Qed.

Lemma load_record_sorted r :
  load_record (sorted_value (JObject (record_to_json r))) = Ok (sorted_record r).
Proof.
  unfold load_record. cbn [sorted_value].
  pose proof (record_from_sorted r) as Hr. cbn [sorted_value] in Hr. by rewrite Hr.
Qed.

(** A file store that saves a record leaves in the file exactly what it
    has in memory and the record: reading the file back gives those records,
    whatever the file held before, records another process saved meanwhile
    included. *)
Theorem json_store_save_overwrites r l f l' f' :
  (cs_save _ JsonFileCredentialStore) r (l, f) = (Ok (), (l', f')) →
  load_records f' = Ok (sorted_record <$> insert_record r l).
Proof.
  cbn [cs_save JsonFileCredentialStore flush fst snd]. destruct (file_prepare f) as [[?|] f0]; [|done].
  rewrite dict_literal by reflexivity.
  destruct (json_pretty _) as [text|] eqn:Hp; [|done].
  destruct (file_write text f0) as [[[]|] f1] eqn:Hw; [|done]. intros [= <- <-].
  apply file_read_written in Hw as [He Hr]. apply json_parse_pretty in Hp.
  unfold load_records. rewrite He. cbn [negb]. rewrite Hr. cbn [map_err]. rewrite Hp. cbn [map_err].
  rewrite sorted_payload.
  cbn [vget aget]. decide_literals. cbn [mbind option_bind].
  rewrite bool_decide_true by done. cbn [negb].
  clear Hp. induction (insert_record r l) as [|x k IH]; [done|]. cbn [fmap list_fmap collect_results].
  rewrite load_record_sorted. by rewrite IH.
Qed.
End file_facts.
