(* ===== verification/Mandate.v ===== *)
(** Mandates (A4P/rust-sdk/src/mandate_security.rs, authorization_common.rs,
    user_signature/contracts.rs, the normalization parts of intent/mandate.rs and
    operation/mandate.rs, the signing modules): the signed core of a mandate,
    its identifier, the trust store, user-signature envelopes. *)
From S2P Require Import Prelude F64 RustMap RustStr Json A4PUtil IntentScope Canonical A4PCrypto CredentialStore.
From Stdlib Require Import Ascii.

Definition USER_AUTHORIZATION_SCOPE : string := "a4p/v1/user-authorization".
Definition SERVER_SIGNATURE_ALGORITHM : string := "EdDSA".
Definition INTENT_MANDATE_TYPE : string := "a4p/v1/intent-mandate".
Definition OPERATION_MANDATE_TYPE : string := "a4p/v1/operation-mandate".

(** * Signing keys *)

Definition INTENT_SERVER_SIGN_ALGORITHM : string := "EdDSA".
Definition INTENT_MANDATE_SERVER_KEY_ID : string := "server#intent-mandate-k1".
Definition OPERATION_SERVER_SIGN_ALGORITHM : string := "EdDSA".
Definition OPERATION_MANDATE_SERVER_KEY_ID : string := "server#operation-mandate-k1".

Section signing.
Context `{!Crypto}.

Definition intent_server_signing_key_in (env : EnvSource) : result SigningKey A4PError :=
  ed25519_private_key_from_env_in env "INTENT_SERVER_ED25519_PRIVATE_KEY"
    "a4p-intent-server-ed25519-dev-v1" "intent mandate server Ed25519 signing key".

Definition intent_server_trusted_key (env : EnvSource) : result JsonDict A4PError :=
  let? key := intent_server_signing_key_in env in
  Ok (dict [("alg", JString INTENT_SERVER_SIGN_ALGORITHM);
            ("keyId", JString INTENT_MANDATE_SERVER_KEY_ID);
            ("publicKey", JString (ed25519_public_key_to_base64url (verifying_key key)))]).

Definition operation_server_signing_key_in (env : EnvSource) : result SigningKey A4PError :=
  ed25519_private_key_from_env_in env "OPERATION_SERVER_ED25519_PRIVATE_KEY"
    "a4p-operation-server-ed25519-dev-v1" "operation mandate server Ed25519 signing key".

Definition operation_server_trusted_key (env : EnvSource) : result JsonDict A4PError :=
  let? key := operation_server_signing_key_in env in
  Ok (dict [("alg", JString OPERATION_SERVER_SIGN_ALGORITHM);
            ("keyId", JString OPERATION_MANDATE_SERVER_KEY_ID);
            ("publicKey", JString (ed25519_public_key_to_base64url (verifying_key key)))]).
End signing.

(** [StaticA4PServerTrustStore]: its map from server and key ids. *)
Notation TrustStore := (gmap (string * string) (string * VerifyingKey)).

Section mandate.
Context `{!JsonDisplay}.

(** * Normal forms *)

(** The [signatures] object both normal forms carry. *)
Definition signature_container (mandate : JsonDict) : Value :=
  let signatures := object_or_empty mandate "signatures" in
  JObject (dict [("server", JObject (object_or_empty signatures "server"));
                 ("user", JObject (object_or_empty signatures "user"))]).

Definition normalize_intent_mandate (mandate : JsonDict) : result JsonDict A4PError :=
  let normalized := im_insert "type" (JString INTENT_MANDATE_TYPE) mandate in
  let? intent := normalize_intent_scope (aget "intent" mandate) in
  let normalized := im_insert "intent" (JObject intent) normalized in
  let normalized := im_insert "signatures" (signature_container mandate) normalized in
  Ok (im_insert "userAuthorization" (JObject (object_or_empty mandate "userAuthorization")) normalized).

(** [token.get(key).cloned().unwrap_or(default)]. *)
Definition field (m : JsonDict) (key : string) (dflt : Value) : Value := default dflt (aget key m).

Definition intent_mandate_core_payload (mandate : JsonDict) : result JsonDict A4PError :=
  let? normalized := normalize_intent_mandate mandate in
  let field := field normalized in
  Ok (dict
    [("type", field "type" (JString ""));
     ("mandateId", field "mandateId" (JString ""));
     ("server", field "server" (JString ""));
     ("subject", field "subject" (JObject []));
     ("intent", field "intent" (JObject []));
     ("validTime", field "validTime" (JObject []));
     ("userAuthorization", field "userAuthorization" (JObject []));
     ("displayText", field "displayText" (JString ""))]).

Definition normalize_operation_object (map : JsonDict) : result JsonDict A4PError :=
  let action := str_trimmed map "action" in
  if str_is_empty action then Err (AValue "Operation action missing")
  else
    let? params :=
      match aget "params" map with
      | None | Some JNull => Ok []
      | Some (JObject params) => Ok params
      | Some _ => Err (AValue "Operation params must be an object")
      end in
    Ok (dict [("action", JString action); ("params", JObject params)]).

Definition normalize_operation (operation : option Value) : result JsonDict A4PError :=
  match operation with
  | Some (JObject map) => normalize_operation_object map
  | _ => Err (AValue "Operation must be an object")
  end.

Definition normalize_operation_mandate (mandate : JsonDict) : result JsonDict A4PError :=
  let? operation := normalize_operation_object (object_or_empty mandate "operation") in
  let normalized := im_insert "operation" (JObject operation) mandate in
  let normalized := im_insert "signatures" (signature_container mandate) normalized in
  let normalized :=
    im_insert "userAuthorization" (JObject (object_or_empty mandate "userAuthorization")) normalized in
  Ok (im_insert "type" (JString OPERATION_MANDATE_TYPE) normalized).

Definition operation_mandate_core_payload (mandate : JsonDict) : result JsonDict A4PError :=
  let? normalized := normalize_operation_mandate mandate in
  let field := field normalized in
  Ok (dict
    [("type", field "type" (JString ""));
     ("operationId", field "operationId" (JString ""));
     ("server", field "server" (JString ""));
     ("subject", field "subject" (JObject []));
     ("operation", field "operation" (JObject []));
     ("validTime", field "validTime" (JObject []));
     ("userAuthorization", field "userAuthorization" (JObject []));
     ("displayText", field "displayText" (JString ""))]).

(** * mandate_security.rs *)

(** [text.replace('\\', ..).replace('\'', ..)]. *)
Fixpoint escape_repr (s : string) : string :=
  match s with
  | EmptyString => EmptyString
  | String c s =>
      if bool_decide (c = ascii_of_nat 92) || bool_decide (c = ascii_of_nat 39) then
        String (ascii_of_nat 92) (String c (escape_repr s))
      else String c (escape_repr s)
  end.

Definition python_repr (value : option Value) : string :=
  match value with
  | None | Some JNull => "None"
  | Some (JString text) => quoted (escape_repr text)
  | Some other => py_str other
  end.

Definition mandate_core_payload (mandate : JsonDict) : result JsonDict MandateSecurityError :=
  let invalid error := mkMandateSecurityError "SERVER_SIGNATURE_INVALID" (a4p_message error) in
  let type := aget "type" mandate ≫= as_str in
  if decide (type = Some INTENT_MANDATE_TYPE) then
    map_err invalid (intent_mandate_core_payload mandate)
  else if decide (type = Some OPERATION_MANDATE_TYPE) then
    map_err invalid (operation_mandate_core_payload mandate)
  else
    Err (mkMandateSecurityError "SERVER_SIGNATURE_INVALID"
      ("Unsupported A4P mandate type: " +:+ python_repr (aget "type" mandate))).

Definition mandate_identifier (mandate : JsonDict) : result string A4PError :=
  let mandate_type := aget "type" mandate ≫= as_str in
  let? field_name :=
    if decide (mandate_type = Some INTENT_MANDATE_TYPE) then Ok "mandateId"
    else if decide (mandate_type = Some OPERATION_MANDATE_TYPE) then Ok "operationId"
    else
      Err (AValue ("Unsupported A4P mandate type: " +:+ python_repr (aget "type" mandate))) in
  let identifier := str_trimmed mandate field_name in
  if str_is_empty identifier then Err (AValue (field_name +:+ " missing"))
  else Ok identifier.

Definition server_signed_mandate_without_user_signature (mandate : JsonDict) :
    result JsonDict A4PError :=
  let? core := map_err AMandateSecurity (mandate_core_payload mandate) in
  let? server_signature :=
    ok_or (signatures ← get_object mandate "signatures"; get_object signatures "server")
      (AValue "Server signature missing") in
  Ok (im_insert "signatures" (JObject (dict [("server", JObject server_signature)])) core).

Section text.
Context `{!JsonText}.

Definition canonical_user_authorization_payload (mandate : JsonDict) : result string A4PError :=
  let? signed := server_signed_mandate_without_user_signature mandate in
  canonical_json (dict [("scope", JString USER_AUTHORIZATION_SCOPE); ("mandate", JObject signed)]).

Definition server_signature_payload (core : JsonDict) : result string A4PError :=
  canonical_json (dict [("scope", JString "server"); ("mandate", JObject core)]).

Section crypto.
Context `{!Crypto}.

Definition derive_user_authorization_challenge (mandate : JsonDict) : result string A4PError :=
  let? payload := canonical_user_authorization_payload mandate in Ok (sha256 payload).

Definition user_authorization_challenge_base64url (mandate : JsonDict) : result string A4PError :=
  let? challenge := derive_user_authorization_challenge mandate in Ok (b64url_encode challenge).

(** The inner loop of [StaticA4PServerTrustStore::new]: the keys of one server. *)
Fixpoint trust_keys (server_id : string) (keys : JsonDict) (trusted : TrustStore) :
    result TrustStore A4PError :=
  match keys with
  | [] => Ok trusted
  | (key_id, key_value) :: keys =>
      if str_is_empty (trim key_id) then Err (AValue "Trusted A4P keyId must be a non-empty string")
      else
        let? key := ok_or (as_object key_value)
          (AValue ("Trusted A4P key " +:+ quoted key_id +:+ " must be an object")) in
        let alg := str_trimmed key "alg" in
        if negb (bool_decide (alg = SERVER_SIGNATURE_ALGORITHM)) then
          Err (AValue ("Trusted A4P key " +:+ quoted key_id +:+ " must use " +:+
            quoted SERVER_SIGNATURE_ALGORITHM))
        else
          let? public_key := ed25519_public_key_from_base64url (str_trimmed key "publicKey") in
          trust_keys server_id keys (<[(trim server_id, trim key_id) := (alg, public_key)]> trusted)
  end.

Fixpoint trust_servers (config : JsonDict) (trusted : TrustStore) : result TrustStore A4PError :=
  match config with
  | [] => Ok trusted
  | (server_id, keys_value) :: config =>
      if str_is_empty (trim server_id) then
        Err (AValue "Trusted A4P serverId must be a non-empty string")
      else
        let? keys :=
          match as_object keys_value with
          | Some ((_ :: _) as keys) => Ok keys
          | _ => Err (AValue ("Trusted A4P server " +:+ quoted server_id +:+ " must contain keys"))
          end in
        let? trusted := trust_keys server_id keys trusted in
        trust_servers config trusted
  end.

Definition trust_store_new (config : JsonDict) : result TrustStore A4PError :=
  let? trusted := trust_servers config ∅ in
  if decide (trusted = ∅) then
    Err (AValue "Trusted A4P server key configuration must not be empty")
  else Ok trusted.

Definition resolve (trusted : TrustStore) (server_id key_id alg : string) :
    result VerifyingKey MandateSecurityError :=
  match trusted !! (server_id, key_id) with
  | None =>
      Err (mkMandateSecurityError "SERVER_KEY_UNTRUSTED"
        ("A4P Server key is not trusted: server=" +:+ quoted server_id +:+ ", keyId=" +:+ quoted key_id))
  | Some (trusted_alg, public_key) =>
      if negb (bool_decide (alg = trusted_alg)) then
        Err (mkMandateSecurityError "SERVER_KEY_UNTRUSTED"
          ("A4P Server signature algorithm is not trusted: " +:+ quoted alg))
      else Ok public_key
  end.

Definition verify_trusted_server_mandate (mandate : JsonDict) (trust_store : TrustStore) :
    result JsonDict MandateSecurityError :=
  let invalid := mkMandateSecurityError "SERVER_SIGNATURE_INVALID" in
  let? core := mandate_core_payload mandate in
  let server_id := str_trimmed core "server" in
  let? server_signature :=
    ok_or (signatures ← get_object mandate "signatures"; get_object signatures "server")
      (invalid "Server signature missing") in
  let alg := str_trimmed server_signature "alg" in
  let key_id := str_trimmed server_signature "keyId" in
  let signature := str_trimmed server_signature "signature" in
  if str_is_empty server_id || str_is_empty alg || str_is_empty key_id || str_is_empty signature then
    Err (invalid "Server signature metadata missing")
  else
    let? public_key := resolve trust_store server_id key_id alg in
    let? payload := map_err (λ e, invalid (a4p_message e)) (server_signature_payload core) in
    if negb (ed25519_verify_text payload signature public_key) then
      Err (invalid "Server signature invalid")
    else Ok core.
End crypto.

(** * user_signature/contracts.rs *)

Record UserSignatureContext := mkUserSignatureContext {
  mandate_type : string;
  server_signed_mandate : JsonDict;
  usc_signature_method : string;
  expected_user_id : option string
}.

(** What [ed25519_registrar] and [webauthn_registrar] answer with, over the
    method's state: the registrar's operations, after the random bytes and the
    time they take. *)
Definition Ed25519Registrar (S : Type) : Type :=
  string → string → JsonDict → S → result JsonDict A4PError * S.
Record WebAuthnRegistrar (S : Type) := mkWebAuthnRegistrar {
  wr_registration_options :
    string → string → string → option string → option string → S → result JsonDict A4PError * S;
  wr_verify_registration : string → JsonDict → S → result UserCredentialRecord A4PError * S
}.

(** [A4PUserSignatureMethod]: a method over the state [S] behind it (its
    credential store); asking for options and verifying may change the state. *)
Record A4PUserSignatureMethod (S : Type) := mkUserSignatureMethod {
  signature_method : string;
  method_policy : JsonDict;
  signing_options : S → string → JsonDict → result JsonDict A4PError * S;
  usm_verify : S → UserSignatureContext → JsonDict → result unit string * S;
  ed25519_registrar : option (Ed25519Registrar S);
  webauthn_registrar : option (WebAuthnRegistrar S)
}.

(** [A4PProtocolError::user_credential_not_registered]. *)
Definition user_credential_not_registered (user_id signature_method : string) : A4PProtocolError :=
  mkProtocolError
    ("No " +:+ quoted signature_method +:+ " credential is registered for user: " +:+ user_id)
    "USER_CREDENTIAL_NOT_REGISTERED" 400.

(** [A4PUserSigner]. *)
Record A4PUserSigner := mkUserSigner {
  signer_method : string;
  signer_sign : UserSignatureContext → option JsonDict → result JsonDict A4PError
}.

Definition attach_user_signature (mandate signature : JsonDict) : JsonDict :=
  let signatures := match aget "signatures" mandate with Some (JObject map) => map | _ => [] end in
  im_insert "signatures" (JObject (im_insert "user" (JObject signature) signatures)) mandate.

Definition sign_user_signature (context : UserSignatureContext) (user_signer : A4PUserSigner)
    (signing_input : option JsonDict) : result JsonDict A4PError :=
  if negb (bool_decide (signer_method user_signer = usc_signature_method context)) then
    Err (AValue ("User signer method mismatch: mandate requires " +:+
      quoted (usc_signature_method context) +:+ ", got " +:+ quoted (signer_method user_signer)))
  else
    let? signature := signer_sign user_signer context signing_input in
    if negb (bool_decide (aget "signatureMethod" signature ≫= as_str =
                          Some (usc_signature_method context))) then
      Err (AValue "User signer returned a mismatched signatureMethod")
    else Ok signature.

Definition verify_user_signature {S} (context : UserSignatureContext) (signature : JsonDict)
    (method : option (A4PUserSignatureMethod S)) (require_user_signature : bool) (s : S) :
    result unit string * S :=
  if negb require_user_signature then
    (match signature with [] => Ok () | _ => Err "User signature must be empty" end, s)
  else
    match method with
    | None => (Err "User signature method missing", s)
    | Some method =>
        let method_name := str_trimmed signature "signatureMethod" in
        if str_is_empty method_name then (Err "User signature missing", s)
        else if negb (bool_decide (method_name = usc_signature_method context)) then
          (Err ("User signature method mismatch: mandate requires " +:+
             quoted (usc_signature_method context) +:+ ", got " +:+ quoted method_name), s)
        else if negb (bool_decide (signature_method _ method = usc_signature_method context)) then
          (Err ("Configured user signature method mismatch: mandate requires " +:+
             quoted (usc_signature_method context) +:+ ", configured method is " +:+
             quoted (signature_method _ method)), s)
        else usm_verify _ method s context signature
    end.

(** [intent_user_signature_context] and [operation_user_signature_context]
    differ in the normal form and the type they write. *)
Definition user_signature_context (type : string) (normalized : JsonDict)
    (expected : option string) : result UserSignatureContext A4PError :=
  let user_authorization := object_or_empty normalized "userAuthorization" in
  match aget "required" user_authorization with
  | Some (JBool required) =>
      let signature_method := str_trimmed user_authorization "signatureMethod" in
      if required && str_is_empty signature_method then
        Err (AValue "userAuthorization.signatureMethod missing")
      else
        let? signed := server_signed_mandate_without_user_signature normalized in
        Ok (mkUserSignatureContext type signed signature_method expected)
  | _ => Err (AValue "userAuthorization.required missing")
  end.

Definition intent_user_signature_context (mandate : JsonDict) (expected : option string) :
    result UserSignatureContext A4PError :=
  let? normalized := normalize_intent_mandate mandate in
  user_signature_context INTENT_MANDATE_TYPE normalized expected.

Definition operation_user_signature_context (mandate : JsonDict) (expected : option string) :
    result UserSignatureContext A4PError :=
  let? normalized := normalize_operation_mandate mandate in
  user_signature_context OPERATION_MANDATE_TYPE normalized expected.

(** * Validity *)

Section valid_time.
Context `{!Chrono}.

(** The loop over the fields: the timestamps of those that are there. *)
Fixpoint timestamps (valid_time : JsonDict) (fields : list string) :
    result (list Z) MandateSecurityError :=
  match fields with
  | [] => Ok []
  | field :: fields =>
      match truthy (aget field valid_time) with
      | None => timestamps valid_time fields
      | Some value =>
          let? parsed := ok_or (parse_iso_z (py_str value))
            (mkMandateSecurityError "CHALLENGE_BINDING_INVALID" "Mandate validTime format invalid") in
          let? rest := timestamps valid_time fields in
          Ok (parsed :: rest)
      end
  end.

Definition verify_mandate_valid_time_at (mandate_core : JsonDict) (now : Z) :
    result unit MandateSecurityError :=
  let invalid := mkMandateSecurityError "CHALLENGE_BINDING_INVALID" in
  let? valid_time := ok_or (get_object mandate_core "validTime") (invalid "Mandate validTime missing") in
  let is_intent := bool_decide (aget "type" mandate_core ≫= as_str = Some INTENT_MANDATE_TYPE) in
  let fields := if is_intent then ["start"; "end"] else ["until"] in
  let? ts := timestamps valid_time fields in
  if negb (length ts =? length fields)%nat then Err (invalid "Mandate validTime missing")
  else if is_intent && (now <? default 0 (head ts))%Z then Err (invalid "Mandate not yet valid")
  else if (default 0 (last ts) <? now)%Z then Err (invalid "Mandate has expired")
  else Ok ().
End valid_time.
End text.
End mandate.

(** * authorization_common.rs *)

Definition error_code (reason prefix : string) : string :=
  let lower := to_lowercase reason in
  if str_contains "expired" lower then prefix +:+ "_EXPIRED"
  else if str_contains "usage" lower || str_contains "execution" lower || str_contains "limit" lower then
    prefix +:+ "_USAGE_EXCEEDED"
  else if str_contains "signature" lower then prefix +:+ "_SIGNATURE_INVALID"
  else if str_contains "mismatch" lower || str_contains "scope" lower ||
          str_contains "actions" lower || str_contains "param" lower then
    prefix +:+ "_SCOPE_MISMATCH"
  else prefix +:+ "_INVALID".

Definition clear_user_signature (mandate : JsonDict) : JsonDict :=
  let signatures := default (JObject []) (aget "signatures" mandate) in
  let mandate := if ahas "signatures" mandate then mandate else im_insert "signatures" signatures mandate in
  match signatures with
  | JObject map => im_insert "signatures" (JObject (im_insert "user" (JObject []) map)) mandate
  | _ => mandate
  end.

Definition mandate_matches_pending (signed_mandate pending_mandate : JsonDict)
    (normalize : JsonDict → result JsonDict A4PError) : bool :=
  match normalize signed_mandate, normalize pending_mandate with
  | Ok signed, Ok pending =>
      value_eqb (JObject (clear_user_signature signed)) (JObject (clear_user_signature pending))
  | _, _ => false
  end.

(** * Lookups in normal forms *)

Lemma normalize_intent_mandate_ok `{!JsonDisplay} m n :
  normalize_intent_mandate m = Ok n →
  ∃ intent, normalize_intent_scope (aget "intent" m) = Ok intent ∧
    aget "type" n = Some (JString INTENT_MANDATE_TYPE) ∧
    aget "intent" n = Some (JObject intent) ∧
    aget "signatures" n = Some (signature_container m) ∧
    aget "userAuthorization" n = Some (JObject (object_or_empty m "userAuthorization")) ∧
    ∀ k, k ∉ ["type"; "intent"; "signatures"; "userAuthorization"] → aget k n = aget k m.
Proof.
  unfold normalize_intent_mandate. destruct (normalize_intent_scope _) as [intent|]; [|done].
  intros [= <-]. exists intent. split; [done|].
  rewrite !aget_im_insert. decide_literals. do 4 (split; [done|]).
  intros k Hk. rewrite !not_elem_of_cons in Hk. rewrite !aget_im_insert.
  by rewrite !decide_False by naive_solver.
Qed.

Lemma normalize_operation_mandate_ok `{!JsonDisplay} m n :
  normalize_operation_mandate m = Ok n →
  ∃ operation, normalize_operation_object (object_or_empty m "operation") = Ok operation ∧
    aget "type" n = Some (JString OPERATION_MANDATE_TYPE) ∧
    aget "operation" n = Some (JObject operation) ∧
    aget "signatures" n = Some (signature_container m) ∧
    aget "userAuthorization" n = Some (JObject (object_or_empty m "userAuthorization")) ∧
    ∀ k, k ∉ ["type"; "operation"; "signatures"; "userAuthorization"] → aget k n = aget k m.
Proof.
  unfold normalize_operation_mandate. destruct (normalize_operation_object _) as [operation|]; [|done].
  intros [= <-]. exists operation. split; [done|].
  rewrite !aget_im_insert. decide_literals. do 4 (split; [done|]).
  intros k Hk. rewrite !not_elem_of_cons in Hk. rewrite !aget_im_insert.
  by rewrite !decide_False by naive_solver.
Qed.

(** The signed core depends on nothing but its fields. *)
Lemma field_ext m m' key dflt : aget key m = aget key m' → field m key dflt = field m' key dflt.
Proof. unfold field. by intros ->. Qed.

Lemma str_trimmed_ext `{!JsonDisplay} m m' key :
  aget key m = aget key m' → str_trimmed m key = str_trimmed m' key.
Proof. unfold str_trimmed, str_or_empty. by intros ->. Qed.

Lemma object_or_empty_aget m m' key :
  aget key m = aget key m' → object_or_empty m key = object_or_empty m' key.
Proof. unfold object_or_empty, get_object. by intros ->. Qed.
