(* ===== verification/Ticket.v ===== *)
(** One-time tickets: the abstract machine behind the authorization services.
    A ticket is issued under an id, can be redeemed once while it is held, and
    may be dropped. *)
From S2P Require Import Prelude.

Inductive ticket_event := Issued (id : string) | Redeemed (id : string) | Quiet.
#[export] Instance ticket_event_eq_dec : EqDecision ticket_event.
Proof. solve_decision. Defined.

(** The tickets held, before and after an event; any may be dropped on the
    way. *)
Inductive ticket_step : gset string → ticket_event → gset string → Prop :=
| ticket_issue s s' id : s' ⊆ {[id]} ∪ s → ticket_step s (Issued id) s'
| ticket_redeem s s' id : id ∈ s → s' ⊆ s ∖ {[id]} → ticket_step s (Redeemed id) s'
| ticket_quiet s s' : s' ⊆ s → ticket_step s Quiet s'.

Inductive ticket_steps : gset string → list ticket_event → gset string → Prop :=
| tickets_nil s : ticket_steps s [] s
| tickets_cons s e s1 es s2 : ticket_step s e s1 → ticket_steps s1 es s2 → ticket_steps s (e :: es) s2.

(** How often an event happens. *)
Definition times (e : ticket_event) (es : list ticket_event) : nat := length (filter (.= e) es).

Lemma times_cons e x es : times e (x :: es) = ((if decide (x = e) then 1 else 0) + times e es)%nat.
Proof. unfold times. rewrite filter_cons. by destruct (decide (x = e)). Qed.

Definition held (id : string) (s : gset string) : nat := if decide (id ∈ s) then 1 else 0.

(** What is redeemed was issued, once each. *)
Lemma ticket_step_balance id s e s' :
  ticket_step s e s' →
  ((if decide (e = Redeemed id) then 1 else 0) + held id s' ≤
   (if decide (e = Issued id) then 1 else 0) + held id s)%nat.
Proof.
  unfold held. destruct 1 as [s s' i Hs|s s' i Hi Hs|s s' Hs].
  - rewrite (decide_False (P := Issued i = Redeemed id)) by done.
    destruct (decide (i = id)) as [->|Hne].
    + rewrite (decide_True (P := Issued id = Issued id)) by done. repeat case_decide; lia.
    + rewrite (decide_False (P := Issued i = Issued id)) by congruence. repeat case_decide; set_solver.
  - rewrite (decide_False (P := Redeemed i = Issued id)) by done.
    destruct (decide (i = id)) as [->|Hne].
    + rewrite (decide_True (P := Redeemed id = Redeemed id)), (decide_False (P := id ∈ s')) by set_solver.
      by rewrite decide_True.
    + rewrite (decide_False (P := Redeemed i = Redeemed id)) by congruence.
      repeat case_decide; set_solver.
  - rewrite !(decide_False (P := Quiet = _)) by done. repeat case_decide; set_solver.
Qed.

Lemma ticket_steps_balance id s es s' :
  ticket_steps s es s' →
  (times (Redeemed id) es + held id s' ≤ times (Issued id) es + held id s)%nat.
Proof.
  induction 1 as [s|s e s1 es s2 Hstep Hsteps IH]; [done|].
  rewrite !times_cons. apply (ticket_step_balance id) in Hstep. lia.
Qed.

(** From no tickets, none is redeemed more often than it was issued. *)
Lemma tickets_redeemed_once id es s :
  ticket_steps ∅ es s → (times (Redeemed id) es ≤ times (Issued id) es)%nat.
Proof.
  intros H%(ticket_steps_balance id). unfold held in H.
  rewrite (decide_False (P := id ∈ ∅)) in H by set_solver. lia.
Qed.
