(* ===== verification/Ed25519.v ===== *)
(** Registered Ed25519 keys of users
    (A4P/rust-sdk/src/user_signature/ed25519.rs): the signature method over a
    credential store, the registrar, the user's signer. *)
From S2P Require Import Prelude F64 RustMap RustStr Json A4PUtil IntentScope Canonical A4PCrypto CredentialStore Mandate.

Definition ED25519_SIGNATURE_METHOD : string := "ed25519".

Definition credential_key_conflict : A4PProtocolError :=
  mkProtocolError "The public key is already registered to another user" "CREDENTIAL_KEY_CONFLICT" 409.

(** The normal form of a registered key. *)
Definition okp_jwk (x : string) : JsonDict :=
  dict [("kty", JString "OKP"); ("crv", JString "Ed25519"); ("x", JString x); ("alg", JString "EdDSA")].

Section ed25519.
Context `{!JsonDisplay, !JsonText, !Crypto}.

Definition ed25519_public_jwk (private_key : SigningKey) : JsonDict :=
  okp_jwk (ed25519_public_key_to_base64url (verifying_key private_key)).

(** [map.get(key).and_then(Value::as_str) == Some(text)]. *)
Definition text_is (m : JsonDict) (key text : string) : bool :=
  bool_decide (aget key m ≫= as_str = Some text).

Definition normalize_public_jwk (value : option Value) : result JsonDict A4PError :=
  match value with
  | Some (JObject map) =>
      if ahas "d" map then Err (AValue "publicKey must not contain private key material")
      else if negb (text_is map "kty" "OKP") then Err (AValue "publicKey.kty must be 'OKP'")
      else if negb (text_is map "crv" "Ed25519") then Err (AValue "publicKey.crv must be 'Ed25519'")
      else if ahas "alg" map && negb (text_is map "alg" "EdDSA") then
        Err (AValue "publicKey.alg must be 'EdDSA'")
      else
        let encoded_key := str_trimmed map "x" in
        let? _ := ed25519_public_key_from_base64url encoded_key in
        Ok (okp_jwk encoded_key)
  | _ => Err (AValue "publicKey must be an OKP JWK object")
  end.

(** [metadata], when given an object. *)
Definition request_metadata (request : JsonDict) : result JsonDict A4PError :=
  match aget "metadata" request with
  | None | Some JNull => Ok []
  | Some (JObject map) => Ok map
  | Some _ => Err (AValue "metadata must be an object")
  end.

Definition registration_response (created : bool) (record : UserCredentialRecord) : JsonDict :=
  dict [("registered", JBool true); ("created", JBool created);
        ("credential", JObject (record_to_json record))].

(** * The method, over a credential store *)

Context {C : Type} (store : A4PCredentialStore C).

(** The record of an Ed25519 key. *)
Definition holds_key (public_key : JsonDict) (r : UserCredentialRecord) : bool :=
  bool_decide (cr_signature_method r = ED25519_SIGNATURE_METHOD) && dict_eqb (cr_public_key r) public_key.

(** [random] are the bytes of the new credential id, [now] the text of
    [utc_now_iso()]. *)
Definition register (random now : string) (request : JsonDict) (c : C) : result JsonDict A4PError * C :=
  let user_id := str_trimmed request "userId" in
  if str_is_empty user_id then (Err (AValue "userId missing"), c)
  else
    match normalize_public_jwk (aget "publicKey" request) with
    | Err e => (Err e, c)
    | Ok public_key =>
        match request_metadata request with
        | Err e => (Err e, c)
        | Ok metadata =>
            match cs_list_all _ store c with
            | (Err e, c) => (Err e, c)
            | (Ok l, c) =>
                match list_find (λ r, holds_key public_key r = true) l with
                | Some (_, matching) =>
                    if negb (bool_decide (cr_user_id matching = user_id)) then
                      (Err (AProtocol credential_key_conflict), c)
                    else (Ok (registration_response false matching), c)
                | None =>
                    let record := mkCredential user_id ("cred_" +:+ token_urlsafe random)
                      ED25519_SIGNATURE_METHOD public_key [] metadata now in
                    match cs_save _ store record c with
                    | (Err e, c) => (Err e, c)
                    | (Ok _, c) => (Ok (registration_response true record), c)
                    end
                end
            end
        end
    end.

Definition ed25519_signing_options (c : C) (user_id : string) (_mandate : JsonDict) :
    result JsonDict A4PError * C :=
  match cs_list_for_user _ store user_id c with
  | (Err e, c) => (Err e, c)
  | (Ok l, c) =>
      let credential_ids :=
        (λ r, JString (cr_credential_id r)) <$>
          filter (λ r, cr_signature_method r = ED25519_SIGNATURE_METHOD) l in
      (match credential_ids with
       | [] => Err (AProtocol (user_credential_not_registered user_id ED25519_SIGNATURE_METHOD))
       | _ =>
           Ok (dict [("signatureMethod", JString ED25519_SIGNATURE_METHOD);
                     ("methodOptions", JObject (dict [("allowedCredentialIds", JArray credential_ids)]))])
       end, c)
  end.

(** The checks of a proof against the record of its credential. *)
Definition ed25519_verify_record (context : UserSignatureContext) (signature : JsonDict)
    (record : UserCredentialRecord) : result unit string :=
  if negb (bool_decide (cr_signature_method record = ED25519_SIGNATURE_METHOD)) then
    Err "User credential signature method mismatch"
  else
    let? _ :=
      match expected_user_id context with
      | Some expected =>
          if negb (bool_decide (cr_user_id record = expected)) then
            Err ("User credential user mismatch: expected " +:+ quoted expected +:+ ", got " +:+
              quoted (cr_user_id record))
          else Ok ()
      | None => Ok ()
      end in
    match aget "proof" signature with
    | Some (JObject proof) =>
        if negb (text_is proof "alg" "EdDSA") then Err "User signature proof alg must be 'EdDSA'"
        else
          let encoded_signature := str_trimmed proof "signature" in
          if str_is_empty encoded_signature then Err "User signature missing"
          else
            let? public_key :=
              map_err (λ e, "Registered Ed25519 public key invalid: " +:+ a4p_message e)
                (ed25519_public_key_from_base64url (str_trimmed (cr_public_key record) "x")) in
            let? payload :=
              map_err a4p_message (canonical_user_authorization_payload (server_signed_mandate context)) in
            if ed25519_verify_text payload encoded_signature public_key then Ok ()
            else Err "User signature invalid"
    | _ => Err "User signature proof missing"
    end.

Definition ed25519_verify (c : C) (context : UserSignatureContext) (signature : JsonDict) :
    result unit string * C :=
  let credential_id := str_trimmed signature "credentialId" in
  if str_is_empty credential_id then (Err "User credentialId missing", c)
  else
    match cs_get _ store credential_id c with
    | (Err e, c) => (Err ("User credential store error: " +:+ a4p_message e), c)
    | (Ok None, c) => (Err ("User credential not registered: " +:+ credential_id), c)
    | (Ok (Some record), c) => (ed25519_verify_record context signature record, c)
    end.

Definition RegisteredEd25519Method : A4PUserSignatureMethod C :=
  mkUserSignatureMethod _ ED25519_SIGNATURE_METHOD [] ed25519_signing_options ed25519_verify
    (Some register) None.

(** * The user's signer *)

Record Ed25519UserSigner := mkEd25519Signer { es_credential_id : string; es_private_key : SigningKey }.

Definition ed25519_signer_new (credential_id : string) (private_key : SigningKey) :
    result Ed25519UserSigner A4PError :=
  let normalized_id := trim credential_id in
  if str_is_empty normalized_id then Err (AValue "credential_id missing")
  else Ok (mkEd25519Signer normalized_id private_key).

Definition ed25519_sign (signer : Ed25519UserSigner) (context : UserSignatureContext)
    (_signing_input : option JsonDict) : result JsonDict A4PError :=
  let? payload := canonical_user_authorization_payload (server_signed_mandate context) in
  let proof := dict
    [("alg", JString "EdDSA"); ("signature", JString (ed25519_sign_text payload (es_private_key signer)))] in
  Ok (dict [("signatureMethod", JString ED25519_SIGNATURE_METHOD);
            ("credentialId", JString (es_credential_id signer)); ("proof", JObject proof)]).

Definition ed25519_user_signer (signer : Ed25519UserSigner) : A4PUserSigner :=
  mkUserSigner ED25519_SIGNATURE_METHOD (ed25519_sign signer).
End ed25519.

(** * Signing and verifying *)

Section signatures.
Context `{!JsonDisplay, !JsonText, !Crypto} {C : Type} (store : A4PCredentialStore C).

Lemma okp_jwk_eq x :
  okp_jwk x = [("kty", JString "OKP"); ("crv", JString "Ed25519"); ("x", JString x); ("alg", JString "EdDSA")].
Proof. apply dict_literal. reflexivity. Qed.

Lemma okp_jwk_x x : str_trimmed (okp_jwk x) "x" = trim x.
Proof. rewrite okp_jwk_eq. by apply str_trimmed_string. Qed.

Lemma ed25519_method_text : trim ED25519_SIGNATURE_METHOD = ED25519_SIGNATURE_METHOD.
Proof. reflexivity. Qed.

(** What the signer of a credential answers with. *)
Lemma ed25519_sign_ok signer context input signature :
  sign_user_signature context (ed25519_user_signer signer) input = Ok signature →
  usc_signature_method context = ED25519_SIGNATURE_METHOD ∧
  ∃ payload, canonical_user_authorization_payload (server_signed_mandate context) = Ok payload ∧
    signature = [("signatureMethod", JString ED25519_SIGNATURE_METHOD);
                 ("credentialId", JString (es_credential_id signer));
                 ("proof", JObject [("alg", JString "EdDSA");
                    ("signature", JString (ed25519_sign_text payload (es_private_key signer)))])].
Proof.
  unfold sign_user_signature. cbn [ed25519_user_signer signer_method signer_sign].
  case_bool_decide as Hm; [|done]. cbn [negb]. unfold ed25519_sign.
  destruct (canonical_user_authorization_payload _) as [payload|]; [|done].
  rewrite !(dict_literal) by reflexivity. case_bool_decide; [|done]. intros [= <-].
  split; [done|]. by exists payload.
Qed.

Lemma ed25519_signs signer context input payload :
  usc_signature_method context = ED25519_SIGNATURE_METHOD →
  canonical_user_authorization_payload (server_signed_mandate context) = Ok payload →
  ∃ signature, sign_user_signature context (ed25519_user_signer signer) input = Ok signature.
Proof.
  intros Hm Hp. unfold sign_user_signature. cbn [ed25519_user_signer signer_method signer_sign].
  rewrite Hm, bool_decide_true by done. cbn [negb]. unfold ed25519_sign. rewrite Hp.
  rewrite !dict_literal by reflexivity. rewrite bool_decide_true by done. by eexists.
Qed.

Lemma verify_record_signed `{!CryptoLaws} context key record payload cid :
  cr_signature_method record = ED25519_SIGNATURE_METHOD →
  cr_public_key record = ed25519_public_jwk key →
  (∀ user, expected_user_id context = Some user → cr_user_id record = user) →
  canonical_user_authorization_payload (server_signed_mandate context) = Ok payload →
  ed25519_verify_record context
    [("signatureMethod", JString ED25519_SIGNATURE_METHOD); ("credentialId", JString cid);
     ("proof", JObject [("alg", JString "EdDSA"); ("signature", JString (ed25519_sign_text payload key))])]
    record = Ok ().
Proof.
  intros Hm Hk Hu Hp. unfold ed25519_verify_record. rewrite Hm. rewrite bool_decide_true by done. cbn [negb].
  assert (∀ m, match expected_user_id context with
    | Some expected => if negb (bool_decide (cr_user_id record = expected)) then Err (m expected) else Ok ()
    | None => Ok () end = Ok () :> result unit string) as Hexp.
  { intros m. destruct (expected_user_id context) as [user|]; [|done].
    rewrite bool_decide_true by by apply Hu. done. }
  rewrite (Hexp (λ expected, _)). cbn [aget]. decide_literals.
  assert (Hs : str_trimmed [("alg", JString "EdDSA"); ("signature", JString (ed25519_sign_text payload key))]
    "signature" = ed25519_sign_text payload key).
  { rewrite (str_trimmed_string _ _ (ed25519_sign_text payload key)) by (cbn [aget]; by decide_literals).
    apply sign_text_trimmed. }
  rewrite Hs, (proj2 (str_is_empty_false _)) by apply sign_text_nonempty.
  rewrite Hk. unfold ed25519_public_jwk. rewrite okp_jwk_x. unfold ed25519_public_key_to_base64url at 1.
  unfold b64url_encode. rewrite engine_encode_trimmed.
  change (engine_encode (verifying_key_as_bytes ?k)) with (ed25519_public_key_to_base64url k).
  rewrite public_key_base64url. cbn [map_err]. rewrite Hp. cbn [map_err]. by rewrite verify_sign_text.
Qed.

(** What the registered key of a user signs, the server accepts: an
    envelope made by the user's signer for a mandate passes the checks of the
    method, for the record registered under the signer's credential id. *)
Theorem ed25519_signature_accepted `{!CryptoLaws} cid key signer context input signature record c c' :
  ed25519_signer_new cid key = Ok signer →
  sign_user_signature context (ed25519_user_signer signer) input = Ok signature →
  cs_get _ store (trim cid) c = (Ok (Some record), c') →
  cr_signature_method record = ED25519_SIGNATURE_METHOD →
  cr_public_key record = ed25519_public_jwk key →
  (∀ user, expected_user_id context = Some user → cr_user_id record = user) →
  verify_user_signature context signature (Some (RegisteredEd25519Method store)) true c = (Ok (), c').
Proof.
  intros Hnew (Hmethod & payload & Hp & ->)%ed25519_sign_ok Hget Hm Hk Hu.
  unfold ed25519_signer_new in Hnew. destruct (str_is_empty (trim cid)) eqn:Hcid; [done|].
  injection Hnew as <-. unfold verify_user_signature. cbn [negb es_credential_id es_private_key].
  rewrite (str_trimmed_string _ _ ED25519_SIGNATURE_METHOD), ed25519_method_text by done.
  cbn [RegisteredEd25519Method signature_method usm_verify]. rewrite Hmethod, bool_decide_true by done.
  cbn [negb str_is_empty ED25519_SIGNATURE_METHOD]. unfold ed25519_verify.
  rewrite (str_trimmed_string _ _ (trim cid)), trim_idem, Hcid, Hget by done.
  f_equal. by apply verify_record_signed.
Qed.

(** An accepted Ed25519 envelope is the registered user's: the record of
    its credential is an Ed25519 one, of the expected user, and the signature
    it carries verifies under the registered key, over the very mandate the
    server signed. *)
Theorem ed25519_accepted_by_owner context signature c c' :
  verify_user_signature context signature (Some (RegisteredEd25519Method store)) true c = (Ok (), c') →
  ∃ record proof public_key payload,
    cs_get _ store (str_trimmed signature "credentialId") c = (Ok (Some record), c') ∧
    cr_signature_method record = ED25519_SIGNATURE_METHOD ∧
    (∀ user, expected_user_id context = Some user → cr_user_id record = user) ∧
    aget "proof" signature = Some (JObject proof) ∧
    ed25519_public_key_from_base64url (str_trimmed (cr_public_key record) "x") = Ok public_key ∧
    canonical_user_authorization_payload (server_signed_mandate context) = Ok payload ∧
    ed25519_verify_text payload (str_trimmed proof "signature") public_key = true.
Proof.
  unfold verify_user_signature. cbn [negb]. destruct (str_is_empty _); [done|].
  case_bool_decide; [|done]. case_bool_decide; [|done]. cbn [negb RegisteredEd25519Method usm_verify].
  unfold ed25519_verify. destruct (str_is_empty _); [done|].
  destruct (cs_get _ store _ c) as [[[record|]|] c1] eqn:Hget; [|done..]. intros [= Hv <-].
  unfold ed25519_verify_record in Hv. case_bool_decide as Hm; [|done]. cbn [negb] in Hv.
  assert (Huser : ∀ user, expected_user_id context = Some user → cr_user_id record = user).
  { intros user Hu. rewrite Hu in Hv. by case_bool_decide. }
  destruct (match expected_user_id context with Some _ => _ | None => _ end) in Hv; [|done].
  destruct (aget "proof" signature) as [[| | | | |proof]|]; try done.
  destruct (text_is proof _ _); [|done]. cbn [negb] in Hv. destruct (str_is_empty _); [done|].
  destruct (ed25519_public_key_from_base64url _) as [pk|] eqn:Hpk; [|done]. cbn [map_err] in Hv.
  destruct (canonical_user_authorization_payload _) as [payload|] eqn:Hp; [|done]. cbn [map_err] in Hv.
  destruct (ed25519_verify_text _ _ _) eqn:Hver; [|done].
  by exists record, proof, pk, payload.
Qed.
End signatures.

(** * Registering *)

Section registering.
Context `{!JsonDisplay, !JsonText, !Crypto} {C : Type} (store : A4PCredentialStore C).
Context `{!CredentialStoreSpec store}.

Definition is_ed25519 (r : UserCredentialRecord) : Prop :=
  cr_signature_method r = ED25519_SIGNATURE_METHOD.

(** The Ed25519 records: keys in normal form, trimmed user ids, and no key
    twice. *)
Definition ed25519_records_ok (l : records) : Prop :=
  (∀ r, r ∈ l → is_ed25519 r → (∃ x, cr_public_key r = okp_jwk x) ∧ trim (cr_user_id r) = cr_user_id r) ∧
  (∀ r1 r2, r1 ∈ l → r2 ∈ l → is_ed25519 r1 → is_ed25519 r2 →
     cr_public_key r1 = cr_public_key r2 → r1 = r2).

Lemma dict_eqb_okp x y : dict_eqb (okp_jwk x) (okp_jwk y) = bool_decide (x = y).
Proof.
  unfold dict_eqb. rewrite !okp_jwk_eq. cbn [value_eqb length aget]. decide_literals.
  cbn [Nat.eqb andb]. by rewrite andb_true_r.
Qed.

Lemma normalize_public_jwk_ok value key :
  normalize_public_jwk value = Ok key →
  ∃ x, key = okp_jwk x ∧ ∃ pk, ed25519_public_key_from_base64url x = Ok pk.
Proof.
  unfold normalize_public_jwk. destruct value as [[| | | | |map]|]; try done.
  destruct (ahas "d" map); [done|]. destruct (negb _); [done|]. destruct (negb _); [done|].
  destruct (ahas "alg" map && _); [done|].
  destruct (ed25519_public_key_from_base64url _) as [pk|] eqn:Hpk; [|done]. intros [= <-]. eauto.
Qed.

Lemma insert_records_ok record l x :
  ed25519_records_ok l → cr_public_key record = okp_jwk x → trim (cr_user_id record) = cr_user_id record →
  (∀ r, r ∈ l → holds_key (okp_jwk x) r ≠ true) →
  ed25519_records_ok (insert_record record l).
Proof.
  intros [Hshape Huniq] Hx Hu Hnew. split.
  - intros r [->|Hr]%elem_of_insert_record Hed; [by eauto|by apply Hshape].
  - assert (Hdiff : ∀ r, r ∈ l → is_ed25519 r → cr_public_key r ≠ okp_jwk x).
    { intros r Hr Hed Hk. apply (Hnew r Hr). unfold holds_key.
      rewrite Hk, dict_eqb_okp, !bool_decide_true by done. done. }
    intros r1 r2 [->|Hr1]%elem_of_insert_record [->|Hr2]%elem_of_insert_record He1 He2 Hk; [done| | |by apply Huniq].
    + destruct (Hdiff r2 Hr2 He2). by rewrite <-Hk.
    + destruct (Hdiff r1 Hr1 He1). by rewrite Hk.
Qed.

Lemma list_find_none_elem {A} (P : A → Prop) `{!∀ x, Decision (P x)} l :
  list_find P l = None → ∀ x, x ∈ l → ¬ P x.
Proof. rewrite list_find_None, Forall_forall. done. Qed.

(** What a registration does to the records. *)
Lemma register_held random now request c r c' :
  register store random now request c = (r, c') →
  held_records c' = held_records c ∨
  ∃ record x, held_records c' = insert_record record (held_records c) ∧
    cr_public_key record = okp_jwk x ∧ trim (cr_user_id record) = cr_user_id record ∧
    ∀ y, y ∈ held_records c → holds_key (okp_jwk x) y ≠ true.
Proof.
  unfold register. destruct (str_is_empty _); [intros [= _ <-]; by left|].
  destruct (normalize_public_jwk _) as [key|] eqn:Hkey; [|intros [= _ <-]; by left].
  apply normalize_public_jwk_ok in Hkey as (x & -> & _).
  destruct (request_metadata _) as [metadata|]; [|intros [= _ <-]; by left].
  destruct (cs_list_all _ store c) as [[l|e] c1] eqn:Hl; apply list_all_held in Hl as [Hc1 Hl];
    [|intros [= _ <-]; by left].
  specialize (Hl l eq_refl) as ->.
  destruct (list_find _ _) as [[i m]|] eqn:Hf.
  { case_bool_decide; intros [= _ <-]; by left. }
  pose proof (list_find_none_elem _ _ Hf) as Hnone.
  destruct (cs_save _ _ _ _) as [r1 c2] eqn:Hs. apply save_held in Hs.
  intros Hr. right. eexists _, x. rewrite <-Hc1.
  split; [rewrite <-Hs; destruct r1; by simplify_eq|].
  split; [done|]. split; [apply str_trimmed_trimmed|]. rewrite Hc1. exact Hnone.
Qed.

(** Registrations, one after the other: the bytes, the time and the request of
    each. *)
Fixpoint registrations (reqs : list (string * string * JsonDict)) (c : C) : C :=
  match reqs with
  | [] => c
  | (random, now, request) :: reqs => registrations reqs (register store random now request c).2
  end.

Lemma registrations_ok reqs c :
  ed25519_records_ok (held_records c) → ed25519_records_ok (held_records (registrations reqs c)).
Proof.
  revert c. induction reqs as [|[[random now] request] reqs IH]; intros c Hok; [done|]. cbn [registrations].
  apply IH. destruct (register store random now request c) as [r c1] eqn:Hr. cbn [snd].
  apply register_held in Hr as [->|(record & x & -> & Hx & Hu & Hn)]; [done|]. by eapply insert_records_ok.
Qed.

(** A key is one user's: after any registrations, two Ed25519 records of
    the store with the same key are the same record, and another user who
    presents the key is refused with a conflict, leaving the records as they
    are. *)
Theorem registered_key_one_user reqs c random now request user key r answer c' :
  ed25519_records_ok (held_records c) →
  let c1 := registrations reqs c in
  r ∈ held_records c1 → is_ed25519 r → cr_public_key r = key →
  (∀ r', r' ∈ held_records c1 → is_ed25519 r' → cr_public_key r' = key → r' = r) ∧
  (str_trimmed request "userId" = user → user ≠ "" → user ≠ cr_user_id r →
   normalize_public_jwk (aget "publicKey" request) = Ok key →
   register store random now request c1 = (answer, c') →
   held_records c' = held_records c1 ∧ ∃ e, answer = Err e).
Proof.
  intros Hok c1 Hr Hed Hkey. apply (registrations_ok reqs) in Hok. fold c1 in Hok.
  split; [intros r' Hr' Hed' Hk'; eapply Hok; [done..|congruence]|].
  intros Huser Hne Hother Hnorm. unfold register. rewrite Huser, (proj2 (str_is_empty_false _)), Hnorm by done.
  destruct (request_metadata _) as [metadata|]; [|intros [= <- <-]; by eauto].
  destruct (cs_list_all _ store c1) as [[l|e] c2] eqn:Hl; apply list_all_held in Hl as [Hc2 Hl];
    [|intros [= <- <-]; by eauto].
  specialize (Hl l eq_refl) as ->.
  apply normalize_public_jwk_ok in Hnorm as (x & -> & _).
  destruct (list_find _ _) as [[i m]|] eqn:Hf; cycle 1.
  { destruct (list_find_none_elem _ _ Hf r Hr). unfold holds_key.
    rewrite Hkey, dict_eqb_okp, !bool_decide_true by done. done. }
  apply list_find_Some in Hf as (Hm & Hholds & _). apply list_elem_of_lookup_2 in Hm.
  apply andb_true_iff in Hholds as [Hmed%bool_decide_eq_true Hmk].
  destruct (proj1 Hok m Hm Hmed) as [[y Hy] _]. rewrite Hy, dict_eqb_okp in Hmk.
  apply bool_decide_eq_true in Hmk as ->. assert (m = r) as -> by (eapply Hok; [done..|congruence]).
  rewrite bool_decide_false by congruence. intros [= <- <-]. by eauto.
Qed.
End registering.
