(* ===== verification/WebAuthn.v ===== *)
(** The WebAuthn signature method
    (A4P/rust-sdk/src/user_signature/webauthn.rs, from [WebAuthnSignatureMethod]
    on): enrolment with one-shot challenges, signing options, verification with
    the signature counter, the user's signer.

    What the WebAuthn method guarantees: accepted assertions are genuine and
    fresh; and what enrolment does not check. *)
From S2P Require Import Prelude RustMap RustStr F64 Json A4PUtil IntentScope Canonical A4PCrypto WebAuthnData CredentialStore Mandate Ticket.

Definition WEBAUTHN_SIGNATURE_METHOD : string := "webauthn".
Definition DEFAULT_TIMEOUT_MS : Z := 60000.

(** [WebAuthnSignatureMethod]: its configuration, and what its calls change:
    the credential store and the pending challenges. *)
Record WebAuthnConfig := mkWebAuthnConfig {
  wc_rp_id : string; wc_rp_name : string; wc_expected_origin : string
}.
Definition default_webauthn_config : WebAuthnConfig :=
  mkWebAuthnConfig "localhost" "A4P" "http://localhost:8970".

Record WebAuthnState (C : Type) := mkWebAuthnState {
  wa_store : C;
  wa_challenges : gmap string (string * string)
}.
Arguments mkWebAuthnState {C}.
Arguments wa_store {C}.
Arguments wa_challenges {C}.

Section webauthn.
Context `{!JsonDisplay, !JsonText, !Crypto, !WebAuthnCrates}.
Context {C : Type} (store : A4PCredentialStore C) (config : WebAuthnConfig).
Implicit Types s : WebAuthnState C.

Definition credential_descriptor (credential_id : string) : Value :=
  JObject (dict [("id", JString credential_id); ("type", JString "public-key")]).

(** [option.filter(|v| !v.is_empty()).unwrap_or(other)]. *)
Definition or_else (o : option string) (other : string) : string :=
  match o with Some v => if str_is_empty v then other else v | None => other end.

(** [Value::from] of an unsigned number. *)
Definition value_of_u64 (n : Z) : Value := JNumber (PosInt n).

Definition is_webauthn (r : UserCredentialRecord) : Prop :=
  cr_signature_method r = WEBAUTHN_SIGNATURE_METHOD.
#[export] Instance is_webauthn_dec r : Decision (is_webauthn r).
Proof. unfold is_webauthn. apply _. Defined.

(** The creation options a challenge is sent with. *)
Definition creation_options (user_id user_name user_display_name challenge : string)
    (existing : list Value) : JsonDict :=
  dict
    [("rp", JObject (dict [("name", JString (wc_rp_name config)); ("id", JString (wc_rp_id config))]));
     ("user", JObject (dict [("id", JString (b64url_encode user_id)); ("name", JString user_name);
                             ("displayName", JString user_display_name)]));
     ("challenge", JString (b64url_encode challenge));
     ("pubKeyCredParams", JArray ((λ alg, JObject (dict
        [("type", JString "public-key"); ("alg", value_of_i64 alg)])) <$> SUPPORTED_COSE_ALGORITHMS));
     ("timeout", value_of_u64 DEFAULT_TIMEOUT_MS);
     ("excludeCredentials", JArray existing);
     ("authenticatorSelection", JObject (dict
        [("residentKey", JString "required"); ("requireResidentKey", JBool true);
         ("userVerification", JString "required")]));
     ("attestation", JString "none")].

(** [challenge] and [random_id] are the random bytes drawn. *)
Definition registration_options (challenge random_id : string) (user_id : string)
    (user_name user_display_name : option string) s : result JsonDict A4PError * WebAuthnState C :=
  let registration_request_id := "webauthn_registration_" +:+ token_urlsafe random_id in
  let challenges := <[registration_request_id := (user_id, challenge)]> (wa_challenges s) in
  match cs_list_for_user _ store user_id (wa_store s) with
  | (Err e, c) => (Err e, mkWebAuthnState c challenges)
  | (Ok l, c) =>
      let existing := (λ r, credential_descriptor (cr_credential_id r)) <$> filter is_webauthn l in
      let user_name := or_else user_name user_id in
      let user_display_name := or_else user_display_name user_name in
      (Ok (dict [("registrationRequestId", JString registration_request_id);
                 ("userId", JString user_id);
                 ("options", JObject
                    (creation_options user_id user_name user_display_name challenge existing))]),
       mkWebAuthnState c challenges)
  end.

(** The record a verified registration is stored as. *)
Definition registration_record (user_id now : string) (credential : JsonDict)
    (verified : VerifiedRegistration) : UserCredentialRecord :=
  let transports :=
    match response ← get_object credential "response"; aget "transports" response with
    | Some (JArray items) => (λ item, JString (py_str item)) <$> items
    | _ => []
    end in
  mkCredential user_id (b64url_encode (vr_credential_id verified)) WEBAUTHN_SIGNATURE_METHOD
    (dict [("format", JString "cose"); ("value", JString (b64url_encode (vr_credential_public_key verified)))])
    (dict [("signCount", value_of_u64 (vr_sign_count verified)); ("rpId", JString (wc_rp_id config));
           ("origin", JString (wc_expected_origin config)); ("transports", JArray transports);
           ("aaguid", JString (vr_aaguid verified)); ("fmt", JString (vr_fmt verified));
           ("credentialDeviceType", JString (vr_credential_device_type verified));
           ("credentialBackedUp", JBool (vr_credential_backed_up verified))])
    [] now.

(** What is checked once the challenge is taken. *)
Definition check_registration (user_id now : string) (payload : JsonDict) (pending : string * string) :
    result UserCredentialRecord A4PError :=
  if negb (bool_decide (pending.1 = user_id)) then
    Err (AValue ("WebAuthn registration user mismatch: expected " +:+ quoted pending.1 +:+ ", got " +:+
      quoted user_id))
  else
    match get_object payload "credential" with
    | None => Err (AValue "credential missing")
    | Some credential =>
        let? verified :=
          map_err (λ error, AValue ("WebAuthn registration invalid: " +:+ error))
            (verify_registration_response credential pending.2 (wc_rp_id config)
               (wc_expected_origin config) true true) in
        Ok (registration_record user_id now credential verified)
    end.

Definition verify_registration (now : string) (payload : JsonDict) s :
    result UserCredentialRecord A4PError * WebAuthnState C :=
  let user_id := str_trimmed payload "userId" in
  if str_is_empty user_id then (Err (AValue "userId missing"), s)
  else
    let registration_request_id := str_trimmed payload "registrationRequestId" in
    if str_is_empty registration_request_id then (Err (AValue "registrationRequestId missing"), s)
    else
      let challenges := delete registration_request_id (wa_challenges s) in
      match wa_challenges s !! registration_request_id with
      | None =>
          (Err (AValue ("No WebAuthn registration challenge: " +:+ registration_request_id)),
           mkWebAuthnState (wa_store s) challenges)
      | Some pending =>
          match check_registration user_id now payload pending with
          | Err e => (Err e, mkWebAuthnState (wa_store s) challenges)
          | Ok record =>
              let (r, c) := cs_save _ store record (wa_store s) in
              (let? _ := r in Ok record, mkWebAuthnState c challenges)
          end
      end.

Definition webauthn_policy : JsonDict := dict [("userVerification", JString "required")].

Definition webauthn_signing_options s (user_id : string) (mandate : JsonDict) :
    result JsonDict A4PError * WebAuthnState C :=
  match cs_list_for_user _ store user_id (wa_store s) with
  | (Err e, c) => (Err e, mkWebAuthnState c (wa_challenges s))
  | (Ok l, c) =>
      (match filter is_webauthn l with
       | [] => Err (AProtocol (user_credential_not_registered user_id WEBAUTHN_SIGNATURE_METHOD))
       | records =>
           let? challenge := derive_user_authorization_challenge mandate in
           let method_options := dict
             [("challenge", JString (b64url_encode challenge));
              ("timeout", value_of_u64 DEFAULT_TIMEOUT_MS); ("rpId", JString (wc_rp_id config));
              ("allowCredentials",
                 JArray ((λ r, credential_descriptor (cr_credential_id r)) <$> records));
              ("userVerification", JString "required")] in
           Ok (dict [("signatureMethod", JString WEBAUTHN_SIGNATURE_METHOD);
                     ("methodOptions", JObject method_options)])
       end, mkWebAuthnState c (wa_challenges s))
  end.

(** The counter a record holds, as a [u32]. *)
Definition current_sign_count (record : UserCredentialRecord) : Z :=
  Z.min (default 0%Z (aget "signCount" (cr_details record) ≫= as_u64)) u32_max.

(** The checks of an assertion against the record of its credential. *)
Definition webauthn_verify_record (context : UserSignatureContext) (signature : JsonDict)
    (record : UserCredentialRecord) : result VerifiedAuthentication string :=
  if negb (bool_decide (cr_signature_method record = WEBAUTHN_SIGNATURE_METHOD)) then
    Err "WebAuthn credential signature method mismatch"
  else
    let? _ :=
      match expected_user_id context with
      | Some expected =>
          if negb (bool_decide (cr_user_id record = expected)) then
            Err ("WebAuthn credential user mismatch: expected " +:+ quoted expected +:+ ", got " +:+
              quoted (cr_user_id record))
          else Ok ()
      | None => Ok ()
      end in
    let record_rp_id := str_or_empty (cr_details record) "rpId" in
    let record_origin := str_or_empty (cr_details record) "origin" in
    if negb (str_is_empty record_rp_id) && negb (bool_decide (record_rp_id = wc_rp_id config)) then
      Err ("WebAuthn credential RP ID mismatch: expected " +:+ quoted (wc_rp_id config) +:+ ", got " +:+
        quoted record_rp_id)
    else if negb (str_is_empty record_origin) &&
            negb (bool_decide (record_origin = wc_expected_origin config)) then
      Err ("WebAuthn credential origin mismatch: expected " +:+ quoted (wc_expected_origin config) +:+
        ", got " +:+ quoted record_origin)
    else
      let? assertion := ok_or (proof ← get_object signature "proof"; get_object proof "assertion")
        "WebAuthn assertion missing" in
      let? expected_challenge :=
        map_err (λ e, "WebAuthn signature invalid: " +:+ a4p_message e)
          (derive_user_authorization_challenge (server_signed_mandate context)) in
      let? public_key := ok_or (b64url_decode (str_or_empty (cr_public_key record) "value"))
        "WebAuthn signature invalid: registered public key is not base64url" in
      map_err (λ e, "WebAuthn signature invalid: " +:+ e)
        (verify_authentication_response assertion expected_challenge (wc_rp_id config)
           (wc_expected_origin config) public_key (current_sign_count record) true).

(** The record with the counter of an assertion. *)
Definition with_sign_count (record : UserCredentialRecord) (n : Z) : UserCredentialRecord :=
  mkCredential (cr_user_id record) (cr_credential_id record) (cr_signature_method record)
    (cr_public_key record) (im_insert "signCount" (value_of_u64 n) (cr_details record))
    (cr_metadata record) (cr_created_at record).

Definition webauthn_verify s (context : UserSignatureContext) (signature : JsonDict) :
    result unit string * WebAuthnState C :=
  let at_store c := mkWebAuthnState c (wa_challenges s) in
  let credential_id := str_trimmed signature "credentialId" in
  if str_is_empty credential_id then (Err "WebAuthn credentialId missing", s)
  else
    match cs_get _ store credential_id (wa_store s) with
    | (Err e, c) => (Err ("WebAuthn credential store error: " +:+ a4p_message e), at_store c)
    | (Ok None, c) => (Err ("WebAuthn credential not registered: " +:+ credential_id), at_store c)
    | (Ok (Some record), c) =>
        match webauthn_verify_record context signature record with
        | Err e => (Err e, at_store c)
        | Ok verified =>
            if negb (va_user_verified verified) then (Err "WebAuthn user verification missing", at_store c)
            else
              let (r, c) := cs_save _ store (with_sign_count record (va_new_sign_count verified)) c in
              (map_err (λ e, "WebAuthn credential store error: " +:+ a4p_message e) r, at_store c)
        end
    end.

Definition WebAuthnSignatureMethod : A4PUserSignatureMethod (WebAuthnState C) :=
  mkUserSignatureMethod _ WEBAUTHN_SIGNATURE_METHOD webauthn_policy webauthn_signing_options webauthn_verify
    None (Some (mkWebAuthnRegistrar _ registration_options verify_registration)).

(** * The user's signer: the browser's assertion *)

Definition webauthn_sign (_context : UserSignatureContext) (signing_input : option JsonDict) :
    result JsonDict A4PError :=
  let? assertion := ok_or (input ← signing_input; get_object input "assertion")
    (AValue "WebAuthn assertion missing") in
  let credential_id := str_trimmed assertion "id" in
  if str_is_empty credential_id then Err (AValue "WebAuthn credentialId missing")
  else
    Ok (dict [("signatureMethod", JString WEBAUTHN_SIGNATURE_METHOD);
              ("credentialId", JString credential_id);
              ("proof", JObject (dict [("assertion", JObject assertion)]))]).

Definition WebAuthnUserSigner : A4PUserSigner := mkUserSigner WEBAUTHN_SIGNATURE_METHOD webauthn_sign.
End webauthn.

Section assertions.
Context `{!JsonDisplay, !JsonText, !Crypto, !WebAuthnCrates}.

(** * Genuine assertions *)

(** An assertion the credential's key signed for this challenge, relying party
    and origin, with the user present and verified and the counter [count],
    newer than [current]. *)
Inductive genuine_assertion (assertion : JsonDict) (challenge rp_id origin public_key : string)
    (current count : Z) : Prop :=
| genuine response client_bytes auth_bytes signature client auth key :
    check_credential_shape assertion = Ok response →
    response_bytes response "clientDataJSON" "clientDataJSON" = Ok client_bytes →
    response_bytes response "authenticatorData" "authenticatorData" = Ok auth_bytes →
    response_bytes response "signature" "signature" = Ok signature →
    parse_client_data_json client_bytes = Ok client →
    cd_ceremony_type client = "webauthn.get" → cd_challenge client = challenge → cd_origin client = origin →
    parse_authenticator_data auth_bytes = Ok auth →
    ad_rp_id_hash auth = sha256 rp_id → fl_up (ad_flags auth) = true → fl_uv (ad_flags auth) = true →
    ad_sign_count auth = count → (0 < count ∨ 0 < current → current < count)%Z →
    decode_credential_public_key public_key = Ok key →
    verify_signature key signature (auth_bytes +:+ sha256 client_bytes) = Ok () →
    genuine_assertion assertion challenge rp_id origin public_key current count.

Lemma check_client_data_ok client type challenge origin :
  check_client_data client type challenge origin = Ok () →
  cd_ceremony_type client = type ∧ cd_challenge client = challenge ∧ cd_origin client = origin.
Proof. unfold check_client_data. by repeat case_bool_decide. Qed.

Lemma check_authentication_data_ok auth rp_id current :
  check_authentication_data auth rp_id current true = Ok () →
  ad_rp_id_hash auth = sha256 rp_id ∧ fl_up (ad_flags auth) = true ∧ fl_uv (ad_flags auth) = true ∧
  (0 < ad_sign_count auth ∨ 0 < current → current < ad_sign_count auth)%Z.
Proof.
  unfold check_authentication_data. case_bool_decide; [|done]. cbn [negb andb].
  destruct (fl_up _); [|done]. destruct (fl_uv _); [|done]. cbn [negb].
  destruct (_ && _) eqn:Hc; [done|]. intros _. do 3 (split; [done|]).
  apply andb_false_iff in Hc as [Hc|Hc]; [apply orb_false_iff in Hc as [H1' H2']|]; lia.
Qed.

Lemma verify_authentication_genuine assertion challenge rp_id origin key current v :
  verify_authentication_response assertion challenge rp_id origin key current true = Ok v →
  genuine_assertion assertion challenge rp_id origin key current (va_new_sign_count v) ∧
  va_user_verified v = true.
Proof.
  unfold verify_authentication_response.
  destruct (check_credential_shape assertion) as [response|] eqn:Hshape; [|done].
  destruct (ok_or _ _) as [raw|]; [|done].
  destruct (response_bytes response "clientDataJSON" _) as [cb|] eqn:Hcb; [|done].
  destruct (response_bytes response "authenticatorData" _) as [ab|] eqn:Hab; [|done].
  destruct (response_bytes response "signature" _) as [sb|] eqn:Hsb; [|done].
  destruct (parse_client_data_json cb) as [client|] eqn:Hclient; [|done].
  destruct (check_client_data _ _ _ _) as [[]|] eqn:Hcc; [|done].
  destruct (parse_authenticator_data ab) as [auth|] eqn:Hauth; [|done]. cbn [map_err].
  destruct (check_authentication_data _ _ _ _) as [[]|] eqn:Hca; [|done].
  destruct (decode_credential_public_key key) as [k|] eqn:Hk; [|done].
  destruct (verify_signature _ _ _) as [[]|] eqn:Hv; [|done]. cbn [map_err].
  destruct (parse_backup_flags _) as [backup|]; [|done]. intros [= <-].
  apply check_client_data_ok in Hcc as (Ht & Hc & Ho).
  apply check_authentication_data_ok in Hca as (Hr & Hup & Huv & Hcount).
  split; [|done]. by econstructor.
Qed.

Context {C : Type} (store : A4PCredentialStore C) (config : WebAuthnConfig).
Implicit Types s : WebAuthnState C.

(** An accepted record check, taken apart. *)
Lemma verify_record_genuine context signature record v :
  webauthn_verify_record config context signature record = Ok v →
  cr_signature_method record = WEBAUTHN_SIGNATURE_METHOD ∧
  (∀ user, expected_user_id context = Some user → cr_user_id record = user) ∧
  ∃ proof assertion challenge key,
    get_object signature "proof" = Some proof ∧ get_object proof "assertion" = Some assertion ∧
    derive_user_authorization_challenge (server_signed_mandate context) = Ok challenge ∧
    b64url_decode (str_or_empty (cr_public_key record) "value") = Some key ∧
    genuine_assertion assertion challenge (wc_rp_id config) (wc_expected_origin config) key
      (current_sign_count record) (va_new_sign_count v) ∧
    va_user_verified v = true.
Proof.
  unfold webauthn_verify_record. case_bool_decide as Hm; [|done]. cbn [negb]. intros Hv. split; [done|].
  assert (Hu : ∀ user, expected_user_id context = Some user → cr_user_id record = user).
  { intros user Hu. rewrite Hu in Hv. by case_bool_decide. }
  split; [done|]. destruct (match expected_user_id context with Some _ => _ | None => _ end) in Hv; [|done].
  destruct (negb _ && negb _) in Hv; [done|]. destruct (negb _ && negb _) in Hv; [done|].
  destruct (get_object signature "proof") as [proof|]; cbn [mbind option_bind ok_or] in Hv; [|done].
  destruct (get_object proof "assertion") as [assertion|] eqn:Ha; cbn [ok_or] in Hv; [|done].
  destruct (derive_user_authorization_challenge _) as [challenge|] eqn:Hc; cbn [map_err] in Hv; [|done].
  destruct (b64url_decode _) as [key|] eqn:Hk; cbn [ok_or] in Hv; [|done].
  destruct (verify_authentication_response _ _ _ _ _ _ _) as [v'|] eqn:Hver; [|done].
  injection Hv as ->. apply verify_authentication_genuine in Hver as [Hg Huv].
  by exists proof, assertion, challenge, key.
Qed.

End assertions.

(** * Fresh assertions *)

Section replay.
Context `{!JsonDisplay, !JsonText, !Crypto, !WebAuthnCrates}.
Context {C : Type} (store : A4PCredentialStore C) `{!CredentialStoreSpec store} (config : WebAuthnConfig).
Implicit Types s : WebAuthnState C.

(** The counter in the authenticator data of an envelope. *)
Definition assertion_sign_count (signature : JsonDict) : option Z :=
  proof ← get_object signature "proof"; assertion ← get_object proof "assertion";
  match check_credential_shape assertion with
  | Ok response =>
      match response_bytes response "authenticatorData" "authenticatorData" with
      | Ok bytes =>
          match parse_authenticator_data bytes with Ok auth => Some (ad_sign_count auth) | Err _ => None end
      | Err _ => None
      end
  | Err _ => None
  end.

(** The counter the store holds for a credential. *)
Definition counter (l : records) (id : string) : Z :=
  match find_record id l with Some r => current_sign_count r | None => 0 end.

Lemma byte_at_bounds i b : (0 ≤ byte_at i b ≤ 255)%Z.
Proof.
  unfold byte_at. destruct (String.get i b) as [c|]; [|lia].
  pose proof (Ascii.N_ascii_bounded c). lia.
Qed.

Lemma sign_count_bounds bytes auth :
  parse_authenticator_data bytes = Ok auth → (0 ≤ ad_sign_count auth ≤ u32_max)%Z.
Proof.
  unfold parse_authenticator_data. destruct (_ <? 37)%nat; [done|].
  destruct (part (fl_at _) _ 37) as [[att p]|]; [|done]. cbn [fst snd].
  destruct (part (fl_ed _) _ p) as [[ext q]|]; [|done].
  destruct (_ <? _)%nat; [done|]. intros Hok.
  assert (ad_sign_count auth = head_u32 (str_drop 33 bytes)) as -> by (by injection Hok as <-).
  unfold head_u32, u32_max.
  set (b := str_drop 33 bytes). pose proof (byte_at_bounds 0 b). pose proof (byte_at_bounds 1 b).
  pose proof (byte_at_bounds 2 b). pose proof (byte_at_bounds 3 b). lia.
Qed.

Lemma genuine_count assertion challenge rp_id origin key current count :
  genuine_assertion assertion challenge rp_id origin key current count →
  (0 ≤ count ≤ u32_max)%Z ∧ (current ≤ count ∨ current ≤ 0)%Z ∧ (0 < count → current < count)%Z.
Proof. intros [??????????????? Hauth ??? <- Hnew ??]. apply sign_count_bounds in Hauth. lia. Qed.

Lemma genuine_sign_count signature proof assertion challenge rp_id origin key current count :
  get_object signature "proof" = Some proof → get_object proof "assertion" = Some assertion →
  genuine_assertion assertion challenge rp_id origin key current count →
  assertion_sign_count signature = Some count.
Proof.
  intros Hp Ha [response cb ab sb client auth k Hshape _ Hab _ _ _ _ _ Hauth _ _ _ Hcount _ _ _].
  unfold assertion_sign_count. rewrite Hp. cbn [mbind option_bind]. rewrite Ha. cbn [mbind option_bind].
  by rewrite Hshape, Hab, Hauth, Hcount.
Qed.

Lemma current_with_sign_count record n :
  (n ≤ u32_max)%Z → current_sign_count (with_sign_count record n) = n.
Proof.
  intros Hn. unfold current_sign_count, with_sign_count. cbn [cr_details].
  rewrite aget_im_insert_eq. cbn. lia.
Qed.

(** What verifying does to the counters. *)
Lemma webauthn_verify_counters s context signature r s' :
  webauthn_verify store config s context signature = (r, s') →
  (∀ id, counter (held_records (wa_store s)) id ≤ counter (held_records (wa_store s')) id)%Z ∧
  (r = Ok () → ∀ n, assertion_sign_count signature = Some n → (0 < n)%Z →
     counter (held_records (wa_store s)) (str_trimmed signature "credentialId") < n ≤
     counter (held_records (wa_store s')) (str_trimmed signature "credentialId"))%Z.
Proof.
  unfold webauthn_verify. destruct (str_is_empty _); [by intros [= <- <-]|].
  destruct (cs_get _ store _ _) as [got c1] eqn:Hget. apply get_held in Hget as [Hc1 Hfound].
  destruct got as [[record|]|]; [|intros [= <- <-]; cbn [wa_store]; by rewrite Hc1..].
  specialize (Hfound _ eq_refl). symmetry in Hfound.
  destruct (webauthn_verify_record _ _ _ _) as [v|] eqn:Hv; [|intros [= <- <-]; cbn [wa_store]; by rewrite Hc1].
  apply verify_record_genuine in Hv as (_ & _ & proof & assertion & challenge & key & Hp & Ha & _ & _ & Hg & ->).
  cbn [negb]. destruct (cs_save _ store _ _) as [r1 c2] eqn:Hsave. apply save_held in Hsave.
  intros [= <- <-]. cbn [wa_store]. rewrite Hsave, Hc1.
  pose proof (genuine_sign_count _ _ _ _ _ _ _ _ _ Hp Ha Hg) as Hcount.
  apply genuine_count in Hg as (Hrange & Hle & Hlt). set (n := va_new_sign_count v) in *.
  pose proof (find_record_Some _ _ _ Hfound) as [_ Hid].
  assert (Hafter : ∀ id, counter (insert_record (with_sign_count record n) (held_records (wa_store s))) id =
    if decide (id = str_trimmed signature "credentialId") then n else counter (held_records (wa_store s)) id).
  { intros id. unfold counter at 1. rewrite find_insert_record. cbn [with_sign_count cr_credential_id].
    rewrite Hid. destruct (decide (id = _)) as [->|Hne].
    - rewrite decide_True by done. apply current_with_sign_count. lia.
    - by rewrite decide_False by congruence. }
  assert (Hbefore : counter (held_records (wa_store s)) (str_trimmed signature "credentialId") =
    current_sign_count record) by (unfold counter; by rewrite Hfound).
  split.
  - intros id. rewrite Hafter. destruct (decide _) as [->|]; [rewrite Hbefore; lia|lia].
  - intros _ m Hm Hpos. rewrite Hcount in Hm. injection Hm as <-.
    rewrite Hafter, decide_True, Hbefore by done. lia.
Qed.

(** Verifications, one after the other. *)
Fixpoint verifications (calls : list (UserSignatureContext * JsonDict)) s :
    list (result unit string) * WebAuthnState C :=
  match calls with
  | [] => ([], s)
  | (context, signature) :: calls =>
      let (r, s) := webauthn_verify store config s context signature in
      let (l, s) := verifications calls s in (r :: l, s)
  end.

(** The call presents an assertion of the credential with the counter [n], and
    it is accepted. *)
Definition accepts (id : string) (n : Z)
    (call : UserSignatureContext * JsonDict * result unit string) : Prop :=
  str_trimmed call.1.2 "credentialId" = id ∧ assertion_sign_count call.1.2 = Some n ∧
  match call.2 with Ok _ => True | Err _ => False end.
#[export] Instance accepts_dec id n call : Decision (accepts id n call).
Proof. unfold accepts. destruct (call.2); apply _. Defined.

Definition acceptances (id : string) (n : Z) (calls : list (UserSignatureContext * JsonDict))
    (l : list (result unit string)) : nat := length (filter (accepts id n) (zip calls l)).

Lemma accepts_counters id n s context signature r s' :
  webauthn_verify store config s context signature = (r, s') → accepts id n (context, signature, r) →
  (0 < n)%Z → (counter (held_records (wa_store s)) id < n ≤ counter (held_records (wa_store s')) id)%Z.
Proof.
  intros Hv (<- & Hn & Hr) Hpos. cbn [fst snd] in *. destruct r as [[]|]; [|done].
  apply webauthn_verify_counters in Hv as [_ Hacc]. by apply Hacc.
Qed.

Lemma accepted_below_counter id n calls s l s' :
  verifications calls s = (l, s') → (0 < n)%Z →
  (n ≤ counter (held_records (wa_store s)) id)%Z → acceptances id n calls l = 0.
Proof.
  intros Hl Hpos. revert s l Hl. induction calls as [|[context sig] calls IH]; intros s l; cbn [verifications].
  { by intros [= <- <-]. }
  destruct (webauthn_verify _ _ s context sig) as [r s1] eqn:Hv. destruct (verifications calls s1) as [l1 s2] eqn:Hl1.
  intros [= <- <-] Hle. unfold acceptances in *. cbn [zip zip_with]. rewrite filter_cons.
  destruct (decide _) as [Hacc|_].
  - pose proof (accepts_counters _ _ _ _ _ _ _ Hv Hacc Hpos). lia.
  - eapply IH; [exact Hl1|]. apply webauthn_verify_counters in Hv as [Hmono _]. specialize (Hmono id). lia.
Qed.

(** An assertion is accepted once: of any verifications in a row, for
    whatever mandates and users, at most one accepts an assertion of a
    credential with a given counter, when the authenticator counts. *)
Theorem assertion_accepted_once id n calls s l s' :
  verifications calls s = (l, s') → (0 < n)%Z → acceptances id n calls l ≤ 1.
Proof.
  intros Hl Hpos. revert s l Hl. induction calls as [|[context sig] calls IH]; intros s l; cbn [verifications].
  { intros [= <- <-]. unfold acceptances. simpl. lia. }
  destruct (webauthn_verify _ _ s context sig) as [r s1] eqn:Hv. destruct (verifications calls s1) as [l1 s2] eqn:Hl1.
  intros [= <- <-]. specialize (IH s1 l1 Hl1). unfold acceptances in *. cbn [zip zip_with].
  rewrite filter_cons. destruct (decide _) as [Hacc|_]; [|done]. cbn [length].
  pose proof (accepts_counters _ _ _ _ _ _ _ Hv Hacc Hpos) as Hc.
  pose proof (accepted_below_counter id n calls s1 l1 s2 Hl1 Hpos ltac:(lia)) as Hzero.
  unfold acceptances in Hzero. by rewrite Hzero.
Qed.

(** * Enrolment *)

(** Enrolment takes a credential id over: a registration that is verified
    is stored under its credential id for the user who registers, and whether
    another user's credential was registered under that id plays no part. *)
Theorem registration_takes_over now payload s record s' :
  verify_registration store config now payload s = (Ok record, s') →
  find_record (cr_credential_id record) (held_records (wa_store s')) = Some record ∧
  cr_user_id record = str_trimmed payload "userId" ∧
  ∀ c, (cs_save _ store record c).1 = Ok () →
    (verify_registration store config now payload (mkWebAuthnState c (wa_challenges s))).1 = Ok record.
Proof.
  unfold verify_registration. destruct (str_is_empty _); [done|]. destruct (str_is_empty _); [done|].
  cbn [wa_challenges wa_store]. destruct (wa_challenges s !! _) as [pending|]; [|done].
  destruct (check_registration _ _ _ _ _) as [record'|] eqn:Hcheck; [|done].
  destruct (cs_save _ store record' _) as [[[]|] c1] eqn:Hsave; [|done]. intros [= <- <-].
  apply save_held in Hsave. cbn [wa_store]. rewrite Hsave, find_insert_record, decide_True by done.
  split; [done|]. split.
  - unfold check_registration in Hcheck. destruct (negb _) in Hcheck; [done|].
    destruct (get_object payload "credential") in Hcheck; [|done].
    destruct (verify_registration_response _ _ _ _ _ _) in Hcheck; [|done]. cbn in Hcheck. by injection Hcheck as <-.
  - intros c. destruct (cs_save _ store record' c) as [r c']. cbn [fst]. by intros ->.
Qed.
End replay.
