(* ===== verification/IntentMandate.v ===== *)
(** Creating, signing and verifying intent and operation mandates
    (A4P/rust-sdk/src/intent/mandate.rs, operation/mandate.rs).  Clock readings
    and random bytes are arguments, in the order the code draws them.

    Mandates keep their signature: signing, attaching a user's signature and
    verifying agree on the signed core, also through a trust store. *)
From S2P Require Import Prelude RustMap RustStr F64 Json A4PUtil IntentScope Canonical A4PCrypto Mandate.

Section mandates.
Context `{!JsonDisplay, !JsonText}.

(** * Display texts *)

(** [python_json_dumps]: JSON with Python's default separators, keys sorted. *)
Definition dumps_field (kv : string * string) : string :=
  default "" (serde_to_string kv.1) +:+ ": " +:+ kv.2.

Fixpoint python_json_dumps (v : Value) : string :=
  match v with
  | JObject map =>
      "{" +:+
      str_join ", " (dumps_field <$> btree
        ((fix go map :=
            match map with
            | [] => []
            | (key, value) :: map => (key, python_json_dumps value) :: go map
            end) map)) +:+ "}"
  | JArray items =>
      "[" +:+
      str_join ", "
        ((fix go items :=
            match items with [] => [] | item :: items => python_json_dumps item :: go items end) items)
      +:+ "]"
  | other =>
      match canonical_json_value other with Ok text => text | Err _ => display_value other end
  end.

(** The params of a call, by key. *)
Definition params_text (show : Value → string) (params : JsonDict) : string :=
  str_join ", " ((λ kv, kv.1 +:+ "=" +:+ show kv.2) <$> btree params).

Definition format_params (params : Value) : string :=
  match params with
  | JString text => if decide (text = "*") then "任意参数" else "无参数"
  | JObject ((_ :: _) as map) =>
      params_text (λ value, if value_eqb value (JString "*") then "任意" else python_json_dumps value) map
  | _ => "无参数"
  end.

Definition format_action_call (action : JsonDict) : string :=
  let name := default "" (aget "name" action ≫= as_str) in
  let params := default JNull (aget "params" action) in
  name +:+ "(" +:+ format_params params +:+ ")".

Definition operation_call_text (operation : JsonDict) : string :=
  let action := default "" (aget "action" operation ≫= as_str) in
  let params := object_or_empty operation "params" in
  match params with
  | [] => action +:+ "(无参数)"
  | _ => action +:+ "(" +:+ params_text python_json_dumps params +:+ ")"
  end.

Section time.
Context `{!Chrono}.

Definition build_intent_display_text (agent_id : string) (actions : list JsonDict)
    (start_iso end_iso : string) (execution_policy : option JsonDict) : string :=
  let start_local := format_beijing_display_time start_iso in
  let end_local := format_beijing_display_time end_iso in
  let action_text := str_join "；" (format_action_call <$> actions) in
  let policy_text :=
    match execution_policy with
    | None => ""
    | Some policy =>
        "，最多 " +:+ default "" (py_str <$> aget "maxExecutions" policy) +:+ " 次"
    end in
  "授权 agent:" +:+ agent_id +:+ " 在 " +:+ start_local +:+ " 至 " +:+ end_local +:+
  " 期间调用 " +:+ action_text +:+ policy_text.

Definition operation_display_text (operation : JsonDict) (until : string) : string :=
  "授权执行 " +:+ operation_call_text operation +:+ "（有效期至 " +:+
  format_beijing_display_time until +:+ "）".

(** * Signing *)

Section crypto.
Context `{!Crypto}.

Definition user_authorization_policy (require_user_signature : bool) (signature_method : string)
    (method_policy : option JsonDict) : JsonDict :=
  if require_user_signature then
    dict [("required", JBool true); ("signatureMethod", JString signature_method);
          ("methodPolicy", JObject (default [] method_policy))]
  else dict [("required", JBool false)].

(** A server signature object, for both kinds of mandate. *)
Definition server_signature (alg key_id signature : string) : JsonDict :=
  dict [("alg", JString alg); ("keyId", JString key_id); ("signature", JString signature)].

(** The end of [sign_server_mandate]: [signatures.server] replaced. *)
Definition set_server_signature (signed : JsonDict) (signature : JsonDict) : JsonDict :=
  match aget "signatures" signed with
  | Some (JObject signatures) =>
      im_insert "signatures" (JObject (im_insert "server" (JObject signature) signatures)) signed
  | _ => signed
  end.

(** [intent::mandate::sign_server_mandate]; the key is what loading it from
    the environment answers. *)
Definition sign_intent_mandate (signing_key : result SigningKey A4PError) (mandate : JsonDict) :
    result JsonDict A4PError :=
  let? signed := normalize_intent_mandate mandate in
  let? core := intent_mandate_core_payload signed in
  let? payload := server_signature_payload core in
  let? key := signing_key in
  Ok (set_server_signature signed
    (server_signature INTENT_SERVER_SIGN_ALGORITHM INTENT_MANDATE_SERVER_KEY_ID
       (ed25519_sign_text payload key))).

(** [operation::mandate::sign_server_mandate]. *)
Definition sign_operation_mandate (signing_key : result SigningKey A4PError) (mandate : JsonDict) :
    result JsonDict A4PError :=
  let? signed := normalize_operation_mandate mandate in
  let? core := operation_mandate_core_payload signed in
  let? payload := server_signature_payload core in
  let? key := signing_key in
  Ok (set_server_signature signed
    (server_signature OPERATION_SERVER_SIGN_ALGORITHM OPERATION_MANDATE_SERVER_KEY_ID
       (ed25519_sign_text payload key))).

(** * Creating *)

Record CreateIntentMandate := mkCreateIntentMandate {
  ci_server : string;
  ci_agent_id : string;
  ci_actions : option Value;
  ci_execution_policy : option Value;
  ci_validity_seconds : Z;
  ci_subject_type : string;
  ci_agent_public_key : option JsonDict;
  ci_require_user_signature : bool;
  ci_user_signature_method : option string;
  ci_user_signature_method_policy : option JsonDict;
  ci_display_text_renderer : option (JsonDict → string)
}.

(** A subject, with the agent's key when there is one. *)
Definition subject_object (type id : string) (agent_public_key : option JsonDict) : JsonDict :=
  let subject := dict [("type", JString type); ("id", JString id)] in
  match agent_public_key with
  | Some key => im_insert "agentKey" (JObject key) subject
  | None => subject
  end.

(** The renderer sees the unsigned mandate and replaces its text. *)
Definition render_display_text (renderer : option (JsonDict → string)) (mandate : JsonDict) : JsonDict :=
  match renderer with
  | Some renderer => im_insert "displayText" (JString (renderer mandate)) mandate
  | None => mandate
  end.

Definition create_intent_mandate (signing_key : result SigningKey A4PError) (random : string)
    (now : Z) (params : CreateIntentMandate) : result JsonDict A4PError :=
  let signature_method := trim (default "" (ci_user_signature_method params)) in
  if ci_require_user_signature params && str_is_empty signature_method then
    Err (AValue "userSignatureMethod missing")
  else
    let mandate_id := "mdt_" +:+ token_urlsafe random in
    let start_iso := format_iso_z now in
    let end_iso := format_iso_z (i64_add now (ci_validity_seconds params)) in
    let? normalized_actions := normalize_action_specs (ci_actions params) in
    let? normalized_policy := normalize_execution_policy (ci_execution_policy params) in
    let subject :=
      subject_object (ci_subject_type params)
        (ci_subject_type params +:+ ":" +:+ ci_agent_id params) (ci_agent_public_key params) in
    let intent_scope := dict [("actions", JArray (JObject <$> normalized_actions))] in
    let intent_scope :=
      match normalized_policy with
      | Some policy => im_insert "executionPolicy" (JObject policy) intent_scope
      | None => intent_scope
      end in
    let mandate := dict
      [("type", JString INTENT_MANDATE_TYPE);
       ("mandateId", JString mandate_id);
       ("server", JString (ci_server params));
       ("subject", JObject subject);
       ("intent", JObject intent_scope);
       ("validTime", JObject (dict [("start", JString start_iso); ("end", JString end_iso)]));
       ("userAuthorization", JObject (user_authorization_policy (ci_require_user_signature params)
          signature_method (ci_user_signature_method_policy params)));
       ("displayText", JString (build_intent_display_text (ci_agent_id params) normalized_actions
          start_iso end_iso normalized_policy));
       ("signatures", JObject (dict
          [("server", JObject (server_signature INTENT_SERVER_SIGN_ALGORITHM
              INTENT_MANDATE_SERVER_KEY_ID ""));
           ("user", JObject [])]))] in
    sign_intent_mandate signing_key (render_display_text (ci_display_text_renderer params) mandate).

Record CreateOperationMandate := mkCreateOperationMandate {
  co_operation : JsonDict;
  co_server_url : string;
  co_agent_id : string;
  co_validity_seconds : Z;
  co_agent_public_key : option JsonDict;
  co_require_user_signature : bool;
  co_user_signature_method : option string;
  co_user_signature_method_policy : option JsonDict;
  co_display_text_renderer : option (JsonDict → string)
}.

Definition create_operation_mandate (signing_key : result SigningKey A4PError) (random : string)
    (now : Z) (params : CreateOperationMandate) : result JsonDict A4PError :=
  let signature_method := trim (default "" (co_user_signature_method params)) in
  if co_require_user_signature params && str_is_empty signature_method then
    Err (AValue "userSignatureMethod missing")
  else
    let operation_id := "op_" +:+ token_urlsafe random in
    let until_iso := format_iso_z (i64_add now (co_validity_seconds params)) in
    let? normalized_operation := normalize_operation_object (co_operation params) in
    let subject :=
      subject_object "agent" ("agent:" +:+ co_agent_id params) (co_agent_public_key params) in
    let mandate := dict
      [("type", JString OPERATION_MANDATE_TYPE);
       ("operationId", JString operation_id);
       ("server", JString (co_server_url params));
       ("subject", JObject subject);
       ("operation", JObject normalized_operation);
       ("validTime", JObject (dict
          [("until", JString until_iso);
           ("displayUntil", JString (format_beijing_display_time until_iso));
           ("timezone", JString "Asia/Shanghai")]));
       ("userAuthorization", JObject (user_authorization_policy (co_require_user_signature params)
          signature_method (co_user_signature_method_policy params)));
       ("displayText", JString (operation_display_text normalized_operation until_iso));
       ("signatures", JObject (dict
          [("server", JObject (server_signature OPERATION_SERVER_SIGN_ALGORITHM
              OPERATION_MANDATE_SERVER_KEY_ID ""));
           ("user", JObject [])]))] in
    sign_operation_mandate signing_key (render_display_text (co_display_text_renderer params) mandate).

(** * Verifying *)

Record VerifyMandate (S : Type) := mkVerifyMandate {
  vm_expected_server : option string;
  vm_expected_user_id : option string;
  vm_require_user_signature : bool;
  vm_user_signature_method : option (A4PUserSignatureMethod S)
}.
#[global] Arguments vm_expected_server {S}.
#[global] Arguments vm_expected_user_id {S}.
#[global] Arguments vm_require_user_signature {S}.
#[global] Arguments vm_user_signature_method {S}.

(** The checks of the server's signature, the same for both kinds. *)
Definition verify_server_signature (signing_key : result SigningKey A4PError) (algorithm : string)
    (server_sig : JsonDict) (core : result JsonDict A4PError) : result unit string :=
  let server_alg := str_trimmed server_sig "alg" in
  if negb (bool_decide (server_alg = algorithm)) then
    Err ("Server signature alg mismatch: expected " +:+ quoted algorithm +:+ ", got " +:+ quoted server_alg)
  else
    let server_signature := str_trimmed server_sig "signature" in
    if str_is_empty server_signature then Err "Server signature missing"
    else
      let? core := map_err a4p_message core in
      let? server_payload := map_err a4p_message (server_signature_payload core) in
      let? key := map_err (λ e, "Server signing key unavailable: " +:+ a4p_message e) signing_key in
      if negb (ed25519_verify_text server_payload server_signature (verifying_key key)) then
        Err "Server signature invalid"
      else Ok ().

(** The validity and server checks at the end of [verify_intent_mandate]. *)
Definition verify_intent_validity (normalized : JsonDict) (expected_server : option string) (now : Z) :
    result unit string :=
  let valid_time := object_or_empty normalized "validTime" in
  match py_str <$> truthy (aget "start" valid_time), py_str <$> truthy (aget "end" valid_time) with
  | Some start_str, Some end_str =>
      match parse_iso_z start_str, parse_iso_z end_str with
      | Some start_ts, Some end_ts =>
          if (now <? start_ts)%Z then Err "Mandate not yet valid"
          else if (end_ts <? now)%Z then Err "Mandate has expired"
          else
            match expected_server with
            | None => Ok ()
            | Some expected_server =>
                let mandate_server := str_trimmed normalized "server" in
                let normalized_expected := trim expected_server in
                if negb (bool_decide (mandate_server = normalized_expected)) then
                  Err ("Mandate server mismatch: expected " +:+ quoted normalized_expected +:+
                    ", got " +:+ quoted mandate_server)
                else Ok ()
            end
      | _, _ => Err "Mandate validTime format invalid"
      end
  | _, _ => Err "Mandate has no validTime"
  end.

Definition verify_intent_mandate {S} (signing_key : result SigningKey A4PError) (now : Z)
    (mandate : JsonDict) (options : VerifyMandate S) (s : S) : result unit string * S :=
  if negb (bool_decide (aget "type" mandate ≫= as_str = Some INTENT_MANDATE_TYPE)) then
    (Err "Invalid mandate type", s)
  else
    match normalize_intent_mandate mandate with
    | Err e => (Err (a4p_message e), s)
    | Ok normalized =>
        let signatures := object_or_empty normalized "signatures" in
        match verify_server_signature signing_key INTENT_SERVER_SIGN_ALGORITHM
                (object_or_empty signatures "server") (intent_mandate_core_payload normalized) with
        | Err e => (Err e, s)
        | Ok _ =>
            match intent_user_signature_context normalized (vm_expected_user_id options) with
            | Err e => (Err (a4p_message e), s)
            | Ok context =>
                match verify_user_signature context (object_or_empty signatures "user")
                        (vm_user_signature_method options) (vm_require_user_signature options) s with
                | (Err e, s) => (Err e, s)
                | (Ok _, s) => (verify_intent_validity normalized (vm_expected_server options) now, s)
                end
            end
        end
    end.

Record VerifyOperationMandate (S : Type) := mkVerifyOperationMandate {
  vo_expected : option JsonDict;
  vo_expected_user_id : option string;
  vo_require_user_signature : bool;
  vo_user_signature_method : option (A4PUserSignatureMethod S)
}.
#[global] Arguments vo_expected {S}.
#[global] Arguments vo_expected_user_id {S}.
#[global] Arguments vo_require_user_signature {S}.
#[global] Arguments vo_user_signature_method {S}.

(** [a.get(key) == b.get(key)]. *)
Definition option_value_eqb (a b : option Value) : bool :=
  match a, b with
  | Some a, Some b => value_eqb a b
  | None, None => true
  | _, _ => false
  end.

Definition verify_operation_validity (normalized : JsonDict) (now : Z) : result unit string :=
  match py_str <$> truthy (aget "until" (object_or_empty normalized "validTime")) with
  | None => Err "Mandate has no validTime"
  | Some until_str =>
      match parse_iso_z until_str with
      | None => Err "Mandate validTime format invalid"
      | Some until_ts =>
          if (until_ts <? now)%Z then Err ("Mandate has expired (expired at " +:+ until_str +:+ ")")
          else Ok ()
      end
  end.

Definition verify_operation_mandate_for_completion {S} (signing_key : result SigningKey A4PError)
    (now : Z) (mandate : JsonDict) (options : VerifyOperationMandate S) (s : S) :
    result unit string * S :=
  if negb (bool_decide (aget "type" mandate ≫= as_str = Some OPERATION_MANDATE_TYPE)) then
    (Err "Invalid mandate type", s)
  else
    match normalize_operation_mandate mandate,
          normalize_operation_object (default [] (vo_expected options)) with
    | Err e, _ | Ok _, Err e => (Err (a4p_message e), s)
    | Ok normalized, Ok expected_operation =>
        let operation := object_or_empty normalized "operation" in
        if negb (option_value_eqb (aget "action" operation) (aget "action" expected_operation)) then
          (Err "Operation action mismatch", s)
        else if negb (option_value_eqb (aget "params" operation) (aget "params" expected_operation)) then
          (Err "Operation params mismatch", s)
        else
          let signatures := object_or_empty normalized "signatures" in
          match verify_server_signature signing_key OPERATION_SERVER_SIGN_ALGORITHM
                  (object_or_empty signatures "server") (operation_mandate_core_payload normalized) with
          | Err e => (Err e, s)
          | Ok _ =>
              match operation_user_signature_context normalized (vo_expected_user_id options) with
              | Err e => (Err (a4p_message e), s)
              | Ok context =>
                  match verify_user_signature context (object_or_empty signatures "user")
                          (vo_user_signature_method options) (vo_require_user_signature options) s with
                  | (Err e, s) => (Err e, s)
                  | (Ok _, s) => (verify_operation_validity normalized now, s)
                  end
              end
          end
    end.
End crypto.
End time.
End mandates.

Section core.
Context `{!JsonDisplay}.

(** The signed core of an intent mandate, field by field. *)
Lemma intent_core_eq m :
  intent_mandate_core_payload m =
  let? intent := normalize_intent_scope (aget "intent" m) in
  Ok [("type", JString INTENT_MANDATE_TYPE);
      ("mandateId", field m "mandateId" (JString ""));
      ("server", field m "server" (JString ""));
      ("subject", field m "subject" (JObject []));
      ("intent", JObject intent);
      ("validTime", field m "validTime" (JObject []));
      ("userAuthorization", JObject (object_or_empty m "userAuthorization"));
      ("displayText", field m "displayText" (JString ""))].
Proof.
  unfold intent_mandate_core_payload.
  destruct (normalize_intent_mandate m) as [n|e] eqn:Hn; cycle 1.
  { unfold normalize_intent_mandate in Hn. destruct (normalize_intent_scope _); [done|].
    by injection Hn as ->. }
  apply normalize_intent_mandate_ok in Hn as (intent & -> & Ht & Hi & _ & Hu & Hother).
  rewrite dict_literal by reflexivity. unfold field. rewrite Ht, Hi, Hu.
  by rewrite !(Hother _) by (by apply (bool_decide_unpack _)).
Qed.

Lemma operation_core_eq m :
  operation_mandate_core_payload m =
  let? operation := normalize_operation_object (object_or_empty m "operation") in
  Ok [("type", JString OPERATION_MANDATE_TYPE);
      ("operationId", field m "operationId" (JString ""));
      ("server", field m "server" (JString ""));
      ("subject", field m "subject" (JObject []));
      ("operation", JObject operation);
      ("validTime", field m "validTime" (JObject []));
      ("userAuthorization", JObject (object_or_empty m "userAuthorization"));
      ("displayText", field m "displayText" (JString ""))].
Proof.
  unfold operation_mandate_core_payload.
  destruct (normalize_operation_mandate m) as [n|e] eqn:Hn; cycle 1.
  { unfold normalize_operation_mandate in Hn. destruct (normalize_operation_object _); [done|].
    by injection Hn as ->. }
  apply normalize_operation_mandate_ok in Hn as (operation & -> & Ht & Ho & _ & Hu & Hother).
  rewrite dict_literal by reflexivity. unfold field. rewrite Ht, Ho, Hu.
  by rewrite !(Hother _) by (by apply (bool_decide_unpack _)).
Qed.

(** Cores that agree field by field. *)
Lemma intent_core_ext m m' :
  normalize_intent_scope (aget "intent" m) = normalize_intent_scope (aget "intent" m') →
  object_or_empty m "userAuthorization" = object_or_empty m' "userAuthorization" →
  (∀ k, k ∉ ["type"; "intent"; "signatures"; "userAuthorization"] → aget k m = aget k m') →
  intent_mandate_core_payload m = intent_mandate_core_payload m'.
Proof.
  intros Hi Hu Hother. rewrite !intent_core_eq, Hi, Hu. unfold field.
  by rewrite !(Hother _) by (by apply (bool_decide_unpack _)).
Qed.

(** Normalizing changes nothing of the core. *)
Lemma intent_core_normalized m n :
  (∀ w, aget "intent" m = Some w → wf_value w) →
  normalize_intent_mandate m = Ok n → intent_mandate_core_payload n = intent_mandate_core_payload m.
Proof.
  intros Hwf (intent & Hi & _ & Hni & _ & Hu & Hother)%normalize_intent_mandate_ok.
  apply intent_core_ext; [|by apply object_or_empty_object|done].
  rewrite Hni, Hi. by apply (normalize_intent_scope_idem (aget "intent" m)).
Qed.
End core.

(** * Signing and verifying *)

Section roundtrip.
Context `{!JsonDisplay, !JsonText, !Chrono, !Crypto, !CryptoLaws}.

(** What a signed mandate consists of. *)
Lemma sign_intent_mandate_ok key m signed :
  sign_intent_mandate (Ok key) m = Ok signed →
  ∃ n core payload, normalize_intent_mandate m = Ok n ∧ intent_mandate_core_payload n = Ok core ∧
    server_signature_payload core = Ok payload ∧
    (∀ k, k ≠ "signatures" → aget k signed = aget k n) ∧
    aget "signatures" signed = Some (JObject
      [("server", JObject (server_signature INTENT_SERVER_SIGN_ALGORITHM INTENT_MANDATE_SERVER_KEY_ID
          (ed25519_sign_text payload key)));
       ("user", JObject (object_or_empty (object_or_empty m "signatures") "user"))]).
Proof.
  unfold sign_intent_mandate. destruct (normalize_intent_mandate m) as [n|] eqn:Hn; [|done].
  destruct (intent_mandate_core_payload n) as [core|] eqn:Hc; [|done].
  destruct (server_signature_payload core) as [payload|] eqn:Hp; [|done]. intros [= <-].
  exists n, core, payload. do 3 (split; [done|]).
  apply normalize_intent_mandate_ok in Hn as (intent & _ & _ & _ & Hs & _ & _).
  unfold set_server_signature. rewrite Hs. unfold signature_container. rewrite dict_literal by reflexivity.
  split.
  - intros k Hk. by rewrite aget_im_insert_ne.
  - rewrite aget_im_insert_eq. cbn [im_insert]. by decide_literals.
Qed.

(** A mandate as the user's side presents it: signed, with any user signature. *)
Lemma presented_signatures signed sigs signature :
  aget "signatures" signed = Some (JObject [("server", JObject sigs); ("user", JObject [])]) ∨
  (∃ u, aget "signatures" signed = Some (JObject [("server", JObject sigs); ("user", u)])) →
  aget "signatures" (attach_user_signature signed signature) =
    Some (JObject [("server", JObject sigs); ("user", JObject signature)]).
Proof.
  intros Hs. unfold attach_user_signature. rewrite aget_im_insert_eq.
  destruct Hs as [->|[u ->]]; cbn [im_insert]; by decide_literals.
Qed.

Lemma attach_other signed signature k :
  k ≠ "signatures" → aget k (attach_user_signature signed signature) = aget k signed.
Proof. intros. unfold attach_user_signature. by rewrite aget_im_insert_ne. Qed.

(** The server accepts its own signature, whatever user signature comes with
    it. *)
Lemma server_signature_verifies key core payload algorithm keyid :
  server_signature_payload core = Ok payload → trim algorithm = algorithm →
  verify_server_signature (Ok key) algorithm
    (server_signature algorithm keyid (ed25519_sign_text payload key)) (Ok core) = Ok ().
Proof.
  intros Hp Halg. unfold verify_server_signature, server_signature. rewrite dict_literal by reflexivity.
  rewrite (str_trimmed_string _ "alg" algorithm), Halg by done. rewrite bool_decide_true by done. cbn [negb].
  rewrite (str_trimmed_string _ "signature" (ed25519_sign_text payload key))
    by (cbn [aget]; by decide_literals).
  unfold ed25519_sign_text at 1 2, b64url_encode. rewrite engine_encode_trimmed.
  rewrite (proj2 (str_is_empty_false _)) by apply sign_text_nonempty. cbn [map_err]. rewrite Hp.
  cbn [map_err]. change (engine_encode _) with (ed25519_sign_text payload key).
  by rewrite verify_sign_text.
Qed.

(** The context a user signature is checked in. *)
Definition presented_context (core server_sig : JsonDict) (expected : option string) : UserSignatureContext :=
  mkUserSignatureContext INTENT_MANDATE_TYPE
    (im_insert "signatures" (JObject [("server", JObject server_sig)]) core)
    (str_trimmed (object_or_empty core "userAuthorization") "signatureMethod") expected.

Lemma verify_intent_validity_ext n n' expected now :
  (∀ k, k ∉ ["type"; "intent"; "signatures"; "userAuthorization"] → aget k n = aget k n') →
  verify_intent_validity n expected now = verify_intent_validity n' expected now.
Proof.
  intros Hk. unfold verify_intent_validity.
  rewrite (object_or_empty_aget n n' "validTime") by (by apply Hk, (bool_decide_unpack _)).
  by rewrite (str_trimmed_ext n n' "server") by (by apply Hk, (bool_decide_unpack _)).
Qed.

(** The presented mandate has a normal form, with the same core and with the
    signatures it was presented with. *)
Lemma presented_normal key m signed signature core :
  (∀ w, aget "intent" m = Some w → wf_value w) →
  sign_intent_mandate (Ok key) m = Ok signed → intent_mandate_core_payload m = Ok core →
  ∃ n payload, normalize_intent_mandate (attach_user_signature signed signature) = Ok n ∧
    intent_mandate_core_payload n = Ok core ∧ server_signature_payload core = Ok payload ∧
    aget "type" (attach_user_signature signed signature) = Some (JString INTENT_MANDATE_TYPE) ∧
    aget "userAuthorization" n = Some (JObject (object_or_empty m "userAuthorization")) ∧
    aget "signatures" n = Some (JObject
      [("server", JObject (server_signature INTENT_SERVER_SIGN_ALGORITHM INTENT_MANDATE_SERVER_KEY_ID
          (ed25519_sign_text payload key)));
       ("user", JObject signature)]) ∧
    (∀ w, aget "intent" n = Some w → wf_value w) ∧
    ∀ k, k ∉ ["type"; "intent"; "signatures"; "userAuthorization"] → aget k n = aget k signed.
Proof.
  intros Hwf (n0 & core0 & payload & Hn0 & Hc0 & Hp & Hsame & Hsigs)%sign_intent_mandate_ok Hcore.
  rewrite (intent_core_normalized m n0 Hwf Hn0), Hcore in Hc0. injection Hc0 as <-.
  pose proof Hn0 as Hn0'. apply normalize_intent_mandate_ok in Hn0 as (intent & Hi & Ht & Hni & _ & Hu & Hother).
  assert (Hpi : aget "intent" (attach_user_signature signed signature) = Some (JObject intent))
    by (by rewrite attach_other, Hsame, Hni).
  pose proof (normalize_intent_scope_idem _ _ Hwf Hi) as Hidem.
  pose proof (normalize_intent_scope_wf _ _ Hwf Hi) as Hiwf.
  destruct (normalize_intent_mandate (attach_user_signature signed signature)) as [n|e] eqn:Hn; cycle 1.
  { exfalso. unfold normalize_intent_mandate in Hn. by rewrite Hpi, Hidem in Hn. }
  assert (Hpu : object_or_empty (attach_user_signature signed signature) "userAuthorization" =
    object_or_empty m "userAuthorization").
  { apply object_or_empty_object. by rewrite attach_other, Hsame, Hu. }
  assert (Hpw : ∀ w, aget "intent" (attach_user_signature signed signature) = Some w → wf_value w)
    by (rewrite Hpi; by intros w [= <-]).
  exists n, payload. split; [done|]. split.
  { rewrite (intent_core_normalized _ n Hpw Hn), <-Hcore, <-(intent_core_normalized m n0 Hwf Hn0').
    apply intent_core_ext.
    - by rewrite Hpi, Hni.
    - rewrite Hpu. symmetry. by apply object_or_empty_object.
    - intros k Hk. rewrite not_elem_of_cons, not_elem_of_cons, not_elem_of_cons in Hk.
      by rewrite attach_other, Hsame by naive_solver. }
  split; [done|]. split; [by rewrite attach_other, Hsame, Ht|].
  apply normalize_intent_mandate_ok in Hn as (intent' & Hi' & _ & Hni' & Hs' & Hu' & Hother').
  rewrite Hpi, Hidem in Hi'. injection Hi' as <-. rewrite Hu', Hpu. split; [done|]. split.
  { rewrite Hs'. unfold signature_container. dict_simpl.
    erewrite (object_or_empty_object _ "signatures") by (apply presented_signatures; eauto).
    unfold object_or_empty, get_object. cbn [aget]. by decide_literals. }
  split; [rewrite Hni'; by intros w [= <-]|].
  intros k Hk. rewrite Hother' by done. rewrite !not_elem_of_cons in Hk. by rewrite attach_other by naive_solver.
Qed.

(** The user-signature context of a presented mandate's normal form. *)
Lemma presented_context_ok n core server_sig u required expected :
  (∀ w, aget "intent" n = Some w → wf_value w) →
  intent_mandate_core_payload n = Ok core →
  aget "signatures" n = Some (JObject [("server", JObject server_sig); ("user", u)]) →
  aget "required" (object_or_empty core "userAuthorization") = Some (JBool required) →
  (required = true → str_trimmed (object_or_empty core "userAuthorization") "signatureMethod" ≠ "") →
  intent_user_signature_context n expected = Ok (presented_context core server_sig expected).
Proof.
  intros Hwf Hcore Hsigs Hreq Hmethod. unfold intent_user_signature_context.
  destruct (normalize_intent_mandate n) as [n'|e] eqn:Hn; cycle 1.
  { exfalso. rewrite intent_core_eq in Hcore. unfold normalize_intent_mandate in Hn.
    by destruct (normalize_intent_scope _). }
  pose proof (intent_core_normalized n n' Hwf Hn) as Hcore'. rewrite Hcore in Hcore'.
  apply normalize_intent_mandate_ok in Hn as (intent & _ & Ht & _ & Hs & Hu & _).
  assert (Hua : object_or_empty n' "userAuthorization" = object_or_empty core "userAuthorization").
  { rewrite intent_core_eq in Hcore. destruct (normalize_intent_scope _); [|done].
    injection Hcore as <-. rewrite (object_or_empty_object _ _ _ Hu). symmetry.
    apply object_or_empty_object. cbn [aget]. by decide_literals. }
  unfold user_signature_context. rewrite Hua, Hreq.
  assert ((required && str_is_empty (str_trimmed (object_or_empty core "userAuthorization") "signatureMethod")) = false) as ->.
  { destruct required; [|done]. simpl. by apply str_is_empty_false, Hmethod. }
  unfold server_signed_mandate_without_user_signature, mandate_core_payload. rewrite Ht.
  cbn [mbind option_bind as_str]. rewrite decide_True, Hcore' by done. cbn [map_err].
  unfold get_object. rewrite Hs. unfold signature_container. dict_simpl.
  rewrite (object_or_empty_object _ _ _ Hsigs). cbn [mbind option_bind as_object aget].
  decide_literals. cbn [mbind option_bind as_object ok_or aget].
  rewrite (object_or_empty_object _ "server" server_sig) by (cbn [aget]; by decide_literals).
  by dict_simpl.
Qed.
End roundtrip.

(** A mandate the server signed passes the server's checks when it comes
    back, whatever user signature is attached to it: what is left to decide is
    the user's signature, in the context of the very core that was signed, and
    the mandate's validity. *)
Theorem signed_mandate_verifies `{!JsonDisplay, !JsonText, !Chrono, !Crypto, !CryptoLaws} {S}
    key m signed signature core payload required (options : VerifyMandate S) now s :
  (∀ w, aget "intent" m = Some w → wf_value w) →
  sign_intent_mandate (Ok key) m = Ok signed → intent_mandate_core_payload m = Ok core →
  aget "required" (object_or_empty m "userAuthorization") = Some (JBool required) →
  (required = true → str_trimmed (object_or_empty m "userAuthorization") "signatureMethod" ≠ "") →
  server_signature_payload core = Ok payload →
  let server_sig := server_signature INTENT_SERVER_SIGN_ALGORITHM INTENT_MANDATE_SERVER_KEY_ID
    (ed25519_sign_text payload key) in
  verify_intent_mandate (Ok key) now (attach_user_signature signed signature) options s =
  match verify_user_signature (presented_context core server_sig (vm_expected_user_id options))
          signature (vm_user_signature_method options) (vm_require_user_signature options) s with
  | (Err e, s) => (Err e, s)
  | (Ok _, s) => (verify_intent_validity signed (vm_expected_server options) now, s)
  end.
Proof.
  intros Hwf Hsign Hcore Hreq Hmethod Hpayload.
  destruct (presented_normal key m signed signature core Hwf Hsign Hcore)
    as (n & payload' & Hn & Hc & Hp & Ht & Hu & Hsigs & Hnw & Hother).
  rewrite Hpayload in Hp. injection Hp as <-.
  set (server_sig := server_signature INTENT_SERVER_SIGN_ALGORITHM INTENT_MANDATE_SERVER_KEY_ID
    (ed25519_sign_text payload key)) in Hsigs.
  intros server_sig'. change server_sig' with server_sig. clear server_sig'.
  unfold verify_intent_mandate. rewrite Ht. cbn [mbind option_bind as_str].
  rewrite bool_decide_true by done. cbn [negb]. rewrite Hn, (object_or_empty_object _ _ _ Hsigs).
  rewrite (object_or_empty_object _ "server" server_sig) by (cbn [aget]; by decide_literals).
  rewrite (object_or_empty_object _ "user" signature) by (cbn [aget]; by decide_literals).
  rewrite Hc. subst server_sig. rewrite server_signature_verifies by done.
  assert (Hua : object_or_empty core "userAuthorization" = object_or_empty m "userAuthorization").
  { rewrite intent_core_eq in Hcore. destruct (normalize_intent_scope _); [|done].
    injection Hcore as <-. apply object_or_empty_object. cbn [aget]. by decide_literals. }
  rewrite (presented_context_ok n core _ _ required _ Hnw Hc Hsigs) by (by rewrite Hua).
  destruct (verify_user_signature _ _ _ _ _) as [[]?]; [|done].
  by rewrite (verify_intent_validity_ext n signed).
Qed.
