(* ===== verification/IntentToken.v ===== *)
(** Intent tokens (A4P/rust-sdk/src/intent/token.rs): issuing a token from a
    verified mandate and verifying one, without its usage. *)
From S2P Require Import Prelude F64 RustMap RustStr Json A4PUtil IntentScope Canonical A4PCrypto Mandate IntentMandate.
From Stdlib Require Import Ascii.

Definition INTENT_TOKEN_TYPE : string := "a4p/v1/intent-token".
Definition TOKEN_SIGN_ALG : string := "EdDSA".
Definition TOKEN_KEY_ID : string := "server#intent-token-v1".

Definition intent_token_key_id (mandate_id : string) : string :=
  let normalized := trim mandate_id in
  if str_is_empty normalized then TOKEN_KEY_ID else TOKEN_KEY_ID +:+ ":" +:+ normalized.

Section token.
Context `{!JsonDisplay, !JsonText, !Chrono, !Crypto}.

Definition intent_token_core_payload (token : JsonDict) : result JsonDict A4PError :=
  let field := field token in
  let? intent := normalize_intent_scope (aget "intent" token) in
  Ok (dict
    [("type", field "type" (JString ""));
     ("tokenId", field "tokenId" (JString ""));
     ("mandateId", field "mandateId" (JString ""));
     ("subject", field "subject" (JObject []));
     ("user", field "user" (JObject []));
     ("intent", JObject intent);
     ("issuedAt", field "issuedAt" (JString ""));
     ("expireAt", field "expireAt" (JString ""));
     ("nonce", field "nonce" (JString ""))]).

Definition intent_token_signing_input (token : JsonDict) : result string A4PError :=
  let? core := intent_token_core_payload token in
  canonical_json (dict [("scope", JString "server.intent_token"); ("token", JObject core)]).

(** * Issuing *)

Record IssueIntentToken (S : Type) := mkIssueIntentToken {
  it_user_id : string;
  it_verified_mandate : bool;
  it_require_user_signature : bool;
  it_user_signature_method : option (A4PUserSignatureMethod S)
}.
#[global] Arguments it_user_id {S}.
#[global] Arguments it_verified_mandate {S}.
#[global] Arguments it_require_user_signature {S}.
#[global] Arguments it_user_signature_method {S}.

(** What [issue_intent_token] does once the mandate is verified. *)
Definition issue_verified (signing_key : result SigningKey A4PError) (random_id random_nonce : string)
    (now : Z) (mandate : JsonDict) (user_id : string) : result JsonDict A4PError :=
  let? normalized := normalize_intent_mandate mandate in
  let mandate_id := str_trimmed normalized "mandateId" in
  if str_is_empty mandate_id then Err (AValue "mandateId missing")
  else
    let subject := object_or_empty normalized "subject" in
    let intent := object_or_empty normalized "intent" in
    let valid_time := object_or_empty normalized "validTime" in
    let issued_at := format_iso_z now in
    let expire_at := str_trimmed valid_time "end" in
    if str_is_empty expire_at then Err (AValue "mandate validTime.end missing")
    else
      let subject_type := str_trimmed subject "type" in
      let token_subject :=
        dict [("type", JString (if str_is_empty subject_type then "agent" else subject_type));
              ("id", JString (str_trimmed subject "id"))] in
      let token_subject :=
        match get_object subject "agentKey" with
        | Some agent_key => im_insert "agentKey" (JObject agent_key) token_subject
        | None => token_subject
        end in
      let user_id := trim user_id in
      let user := dict [("id", JString (if str_is_empty user_id then "user:unknown" else user_id))] in
      let? scope := normalize_intent_scope (Some (JObject intent)) in
      let token := dict
        [("type", JString INTENT_TOKEN_TYPE);
         ("tokenId", JString (token_hex random_id));
         ("mandateId", JString mandate_id);
         ("subject", JObject token_subject);
         ("user", JObject user);
         ("intent", JObject scope);
         ("issuedAt", JString issued_at);
         ("expireAt", JString expire_at);
         ("nonce", JString (token_urlsafe random_nonce));
         ("signature", JString "");
         ("alg", JString TOKEN_SIGN_ALG);
         ("keyId", JString (intent_token_key_id mandate_id))] in
      let? input := intent_token_signing_input token in
      let? key := signing_key in
      Ok (im_insert "signature" (JString (ed25519_sign_text input key)) token).

(** [now_verify] and [now] are the two readings of the clock. *)
Definition issue_intent_token {S} (signing_key : result SigningKey A4PError)
    (random_id random_nonce : string) (now_verify now : Z) (mandate : JsonDict)
    (options : IssueIntentToken S) (s : S) : result JsonDict A4PError * S :=
  let issue := issue_verified signing_key random_id random_nonce now mandate (it_user_id options) in
  if it_verified_mandate options then (issue, s)
  else
    match verify_intent_mandate signing_key now_verify mandate
            (mkVerifyMandate S None None (it_require_user_signature options)
               (it_user_signature_method options)) s with
    | (Err reason, s) => (Err (AValue ("invalid intent mandate: " +:+ reason)), s)
    | (Ok _, s) => (issue, s)
    end.

(** * Verifying *)

Definition params_match_intent_token (token : JsonDict) (action : string)
    (params : option JsonDict) : result unit string :=
  params_match_intent_scope (object_or_empty token "intent") action params.

Record VerifyIntentToken := mkVerifyIntentToken {
  vt_action : string;
  vt_params : option JsonDict;
  vt_expected_agent_id : option string;
  vt_expected_user_id : option string;
  vt_expected_agent_key_id : option string
}.

(** [option.filter(|value| !value.is_empty())]. *)
Definition non_empty (o : option string) : option string :=
  s ← o; if str_is_empty s then None else Some s.

(** One binding check: nothing expected, or the actual text. *)
Definition check_binding (what : string) (expected : option string) (actual : string) :
    result unit string :=
  match non_empty expected with
  | None => Ok ()
  | Some expected =>
      if negb (bool_decide (actual = expected)) then
        Err ("Token " +:+ what +:+ " mismatch: expected " +:+ quoted expected +:+ ", got " +:+ quoted actual)
      else Ok ()
  end.

Definition agent_key_id (subject : JsonDict) : string :=
  let agent_key := object_or_empty subject "agentKey" in
  trim (match truthy (aget "kid" agent_key) with
        | Some value => py_str value
        | None => str_or_empty agent_key "keyId"
        end).

Definition verify_intent_token_after_signature (now : Z) (token : JsonDict)
    (options : VerifyIntentToken) : result unit string :=
  let expire_at := str_trimmed token "expireAt" in
  if str_is_empty expire_at then Err "Token expireAt missing"
  else
    match parse_iso_z expire_at with
    | None => Err "Token expireAt format invalid"
    | Some expire_ts =>
        if (expire_ts <? now)%Z then Err "Token expired"
        else
          let subject := object_or_empty token "subject" in
          let user := object_or_empty token "user" in
          let? _ := check_binding "subject" (vt_expected_agent_id options) (str_trimmed subject "id") in
          let? _ := check_binding "agent key" (vt_expected_agent_key_id options) (agent_key_id subject) in
          let? _ := check_binding "user" (vt_expected_user_id options) (str_trimmed user "id") in
          params_match_intent_token token (vt_action options) (vt_params options)
    end.

Definition verify_intent_token (signing_key : result SigningKey A4PError) (now : Z)
    (token : JsonDict) (options : VerifyIntentToken) : result unit string :=
  if negb (bool_decide (aget "type" token ≫= as_str = Some INTENT_TOKEN_TYPE)) then
    Err "Invalid token type"
  else
    let token_alg := str_trimmed token "alg" in
    if negb (bool_decide (token_alg = TOKEN_SIGN_ALG)) then
      Err ("Token alg mismatch: expected " +:+ quoted TOKEN_SIGN_ALG +:+ ", got " +:+ quoted token_alg)
    else
      let signature := str_trimmed token "signature" in
      if str_is_empty signature then Err "Token signature missing"
      else
        let mandate_id := str_trimmed token "mandateId" in
        if str_is_empty mandate_id then Err "Token mandateId missing"
        else
          let key_id := str_trimmed token "keyId" in
          let expected_key_id := intent_token_key_id mandate_id in
          if negb (bool_decide (key_id = expected_key_id)) then
            Err ("Token keyId mismatch: expected " +:+ quoted expected_key_id +:+ ", got " +:+ quoted key_id)
          else
            let? token_payload := map_err a4p_message (intent_token_signing_input token) in
            let? key := map_err (λ e, "Server signing key unavailable: " +:+ a4p_message e) signing_key in
            if negb (ed25519_verify_text token_payload signature (verifying_key key)) then
              Err "Token signature invalid"
            else verify_intent_token_after_signature now token options.

(** * The key id of a token *)

Lemma intent_token_key_id_trimmed id :
  id ≠ "" → trim id = id → trim (intent_token_key_id id) = intent_token_key_id id.
Proof.
  intros Hne Hid. unfold intent_token_key_id. rewrite Hid, (proj2 (str_is_empty_false id) Hne).
  change (TOKEN_KEY_ID +:+ ":" +:+ id) with (TOKEN_KEY_ID +:+ String ":"%char id).
  apply trim_separated; [|done|done]. by repeat constructor.
Qed.

(** * What verification checks after the signature *)

(** Nothing is expected, or the actual text. *)
Definition bound (expected : option string) (actual : string) : Prop :=
  ∀ e, expected = Some e → e ≠ "" → actual = e.

Lemma check_binding_ok what expected actual :
  check_binding what expected actual = Ok () ↔ bound expected actual.
Proof.
  unfold check_binding, bound, non_empty. destruct expected as [[|c e]|]; simpl; [naive_solver..| |done].
  destruct (decide (actual = String c e)) as [->|Hne].
  - rewrite bool_decide_true by done. naive_solver.
  - rewrite bool_decide_false by done. naive_solver.
Qed.

(** The checks of a token with these parts, at time [now]. *)
Definition admits (exp : Z) (agent_id key_id user_id : string) (scope : JsonDict)
    (options : VerifyIntentToken) (now : Z) : Prop :=
  (now ≤ exp)%Z ∧ bound (vt_expected_agent_id options) agent_id ∧
  bound (vt_expected_agent_key_id options) key_id ∧ bound (vt_expected_user_id options) user_id ∧
  params_match_intent_scope scope (vt_action options) (vt_params options) = Ok ().

Lemma after_signature_ok now token options :
  verify_intent_token_after_signature now token options = Ok () ↔
  str_trimmed token "expireAt" ≠ "" ∧ ∃ exp, parse_iso_z (str_trimmed token "expireAt") = Some exp ∧
    admits exp (str_trimmed (object_or_empty token "subject") "id")
      (agent_key_id (object_or_empty token "subject"))
      (str_trimmed (object_or_empty token "user") "id") (object_or_empty token "intent") options now.
Proof.
  assert (Hlet : ∀ what e a (k : result unit string),
    (let? _ := check_binding what e a in k) = Ok () ↔ bound e a ∧ k = Ok ()).
  { intros what e a k. rewrite <-(check_binding_ok what). destruct (check_binding what e a) as [[]|]; naive_solver. }
  unfold verify_intent_token_after_signature, admits.
  destruct (str_trimmed token "expireAt") as [|c s]; [naive_solver|]. cbn [str_is_empty].
  destruct (parse_iso_z _) as [exp|]; [|naive_solver]. destruct (Z.ltb_spec exp now) as [Hlt|Hle].
  { split; [done|]. intros (_ & e & [= <-] & ? & _). lia. }
  rewrite !Hlet. unfold params_match_intent_token. split.
  - intros. split; [done|]. exists exp. tauto.
  - intros (_ & e & [= <-] & H'). tauto.
Qed.

(** * Issued tokens *)

(** Setting the signature leaves the signed text as it is. *)
Lemma signing_input_signature token v :
  intent_token_signing_input (im_insert "signature" v token) = intent_token_signing_input token.
Proof.
  unfold intent_token_signing_input, intent_token_core_payload, field.
  by rewrite !aget_im_insert_ne by done.
Qed.

Variables (key : SigningKey) (id_bytes nonce_bytes : string) (now_issued : Z).
Variables (mandate : JsonDict) (user_id : string).

(** The parts of an issued token. *)
Lemma issue_verified_parts token :
  issue_verified (Ok key) id_bytes nonce_bytes now_issued mandate user_id = Ok token →
  let subject := object_or_empty mandate "subject" in
  ∃ intent scope input,
    normalize_intent_scope (aget "intent" mandate) = Ok intent ∧
    normalize_intent_scope (Some (JObject intent)) = Ok scope ∧
    str_trimmed mandate "mandateId" ≠ "" ∧
    str_trimmed (object_or_empty mandate "validTime") "end" ≠ "" ∧
    aget "type" token = Some (JString INTENT_TOKEN_TYPE) ∧
    aget "alg" token = Some (JString TOKEN_SIGN_ALG) ∧
    aget "mandateId" token = Some (JString (str_trimmed mandate "mandateId")) ∧
    aget "keyId" token = Some (JString (intent_token_key_id (str_trimmed mandate "mandateId"))) ∧
    aget "expireAt" token =
      Some (JString (str_trimmed (object_or_empty mandate "validTime") "end")) ∧
    aget "intent" token = Some (JObject scope) ∧
    (∃ token_subject, aget "subject" token = Some (JObject token_subject) ∧
      aget "id" token_subject = Some (JString (str_trimmed subject "id")) ∧
      get_object token_subject "agentKey" = get_object subject "agentKey") ∧
    aget "user" token = Some (JObject [("id", JString
      (if str_is_empty (trim user_id) then "user:unknown" else trim user_id))]) ∧
    intent_token_signing_input token = Ok input ∧
    aget "signature" token = Some (JString (ed25519_sign_text input key)).
Proof.
  unfold issue_verified. destruct (normalize_intent_mandate mandate) as [normalized|] eqn:Hn; [|done].
  apply normalize_intent_mandate_ok in Hn as (intent & Hi & _ & Hni & _ & _ & Hother).
  assert (Hkey : ∀ k, bool_decide (k ∈ ["type"; "intent"; "signatures"; "userAuthorization"]) = false →
    aget k normalized = aget k mandate) by (intros k Hk%bool_decide_eq_false; auto).
  rewrite (str_trimmed_ext normalized mandate "mandateId") by (by apply Hkey).
  rewrite (object_or_empty_aget normalized mandate "subject") by (by apply Hkey).
  rewrite (object_or_empty_aget normalized mandate "validTime") by (by apply Hkey).
  rewrite (object_or_empty_object normalized "intent" intent Hni).
  destruct (str_is_empty (str_trimmed mandate _)) eqn:Hmid; [done|].
  destruct (str_is_empty (str_trimmed (object_or_empty mandate "validTime") _)) eqn:Hend; [done|].
  destruct (normalize_intent_scope (Some (JObject intent))) as [scope|] eqn:Hs; [|done].
  intros Htoken. exists intent, scope.
  set (token_subject := match get_object (object_or_empty mandate "subject") "agentKey" with
    Some k => _ | None => _ end) in Htoken.
  rewrite dict_literal in Htoken by reflexivity.
  match type of Htoken with context [intent_token_signing_input ?l] => set (fields := l) in Htoken end.
  destruct (intent_token_signing_input _) as [input|] eqn:Hinput; [|done].
  assert (token = im_insert "signature" (JString (ed25519_sign_text input key)) fields) as ->
    by congruence.
  exists input. apply str_is_empty_false in Hmid, Hend.
  rewrite !aget_im_insert_ne by done. rewrite aget_im_insert_eq, signing_input_signature.
  do 4 (split; [done|]). do 6 (split; [by subst fields; cbn [aget]; decide_literals|]). split.
  { exists token_subject. split; [by subst fields; cbn [aget]; decide_literals|]. subst token_subject.
    unfold get_object. destruct (aget "agentKey" (object_or_empty mandate "subject")) as [v|]; [|done].
    by destruct v. }
  split; [by subst fields; cbn [aget]; decide_literals; dict_simpl|done].
Qed.

Context `{!CryptoLaws}.

(** An issued token passes every check up to and including its signature. *)
Lemma issued_token_signature token now options :
  issue_verified (Ok key) id_bytes nonce_bytes now_issued mandate user_id = Ok token →
  verify_intent_token (Ok key) now token options =
  verify_intent_token_after_signature now token options.
Proof.
  intros (intent & scope & input & _ & _ & Hmid & _ & Htype & Halg & Htm & Hkid & _ & _ & _ & _ &
    Hinput & Hsig)%issue_verified_parts.
  pose proof (engine_encode_trimmed (signature_to_bytes (dalek_sign key input))) as Htrim.
  assert (Hs : str_trimmed token "signature" = ed25519_sign_text input key)
    by (by rewrite (str_trimmed_string _ _ _ Hsig)).
  unfold verify_intent_token. rewrite Htype. cbn [mbind option_bind as_str].
  rewrite bool_decide_true by done. cbn [negb].
  rewrite (str_trimmed_string _ _ _ Halg), bool_decide_true by done. cbn [negb]. rewrite Hs.
  rewrite (proj2 (str_is_empty_false _)) by apply sign_text_nonempty.
  rewrite (str_trimmed_string _ _ _ Htm), str_trimmed_trimmed.
  rewrite (proj2 (str_is_empty_false _) Hmid).
  rewrite (str_trimmed_string _ _ _ Hkid), intent_token_key_id_trimmed
    by (done || apply str_trimmed_trimmed).
  rewrite bool_decide_true by done. cbn [negb]. rewrite Hinput. cbn [map_err].
  by rewrite verify_sign_text.
Qed.

Lemma agent_key_id_ext s s' :
  get_object s "agentKey" = get_object s' "agentKey" → agent_key_id s = agent_key_id s'.
Proof. intros Hk. unfold agent_key_id. by rewrite (object_or_empty_ext s s' "agentKey" Hk). Qed.
End token.

(** An issued token authorizes what its mandate authorized, no less and no
    more: the server accepts it for a call exactly until the end of the
    mandate's validity, for the mandate's agent, agent key and the user it was
    issued to, and for the calls the mandate's own scope allows. *)
Lemma issued_token_authorizes `{!JsonDisplay, !JsonText, !Chrono, !Crypto, !CryptoLaws}
    key id_bytes nonce_bytes now_issued mandate user_id token intent exp now options :
  issue_verified (Ok key) id_bytes nonce_bytes now_issued mandate user_id = Ok token →
  aget "intent" mandate = Some (JObject intent) →
  parse_iso_z (str_trimmed (object_or_empty mandate "validTime") "end") = Some exp →
  verify_intent_token (Ok key) now token options = Ok () ↔
  admits exp (str_trimmed (object_or_empty mandate "subject") "id")
    (agent_key_id (object_or_empty mandate "subject"))
    (if str_is_empty (trim user_id) then "user:unknown" else trim user_id) intent options now.
Proof.
  intros Hissue Hintent Hexp. rewrite (issued_token_signature _ _ _ _ _ _ _ _ _ Hissue).
  apply issue_verified_parts in Hissue as (norm & scope & input & Hn & Hs & _ & Hend & _ & _ & _ & _ &
    Hexpire & Hscope & (subject & Hsub & Hid & Hkey) & Huser & _).
  assert (Htrim : str_trimmed token "expireAt" = str_trimmed (object_or_empty mandate "validTime") "end")
    by (by rewrite (str_trimmed_string _ _ _ Hexpire), str_trimmed_trimmed).
  assert (Hu : str_trimmed (object_or_empty token "user") "id" =
    if str_is_empty (trim user_id) then "user:unknown" else trim user_id).
  { rewrite (object_or_empty_object _ _ _ Huser). erewrite str_trimmed_string by done.
    destruct (str_is_empty _); [done|apply trim_idem]. }
  rewrite after_signature_ok, Htrim, Hexp, Hu, (object_or_empty_object _ _ _ Hscope),
    (object_or_empty_object _ _ _ Hsub), (str_trimmed_string _ _ _ Hid), str_trimmed_trimmed,
    (agent_key_id_ext _ _ Hkey). rewrite Hintent in Hn. unfold admits.
  rewrite (params_match_normalized norm scope) by done.
  rewrite (params_match_normalized intent norm) by done. naive_solver.
Qed.

Lemma wf_field m key dflt : wf_value (JObject m) → wf_value dflt → wf_value (field m key dflt).
Proof.
  intros Hm Hd. unfold field. destruct (aget key m) as [v|] eqn:E; [|done]. by eapply wf_aget.
Qed.

Lemma intent_token_core_wf `{!JsonDisplay} token core :
  wf_value (JObject token) → intent_token_core_payload token = Ok core → wf_value (JObject core).
Proof.
  intros Hwf. unfold intent_token_core_payload.
  destruct (normalize_intent_scope _) as [intent|] eqn:Hi; [|done]. rewrite dict_literal by reflexivity.
  intros [= <-]. apply wf_object_literal; [done|].
  repeat first [apply Forall_nil_2 | apply Forall_cons_2]; cbn [snd];
    try (apply wf_field; [done|by repeat constructor]).
  eapply normalize_intent_scope_wf; [|done]. intros w. by apply wf_aget.
Qed.

(** Objects that are the same have the same entries. *)
Lemma same_value_aget `{!JsonText} m1 m2 k v1 v2 :
  NoDup (akeys m1) → NoDup (akeys m2) → same_value (JObject m1) (JObject m2) →
  aget k m1 = Some v1 → aget k m2 = Some v2 → same_value v1 v2.
Proof.
  intros Hn1 Hn2 Hs. inversion Hs as [| | | | | |? m m' ? Hp1 Hp2 Hf]; subst.
  rewrite !aget_elem_iff by done. rewrite Hp1, Hp2. intros H1 H2.
  apply list_elem_of_lookup in H1 as [i Hi].
  destruct (Forall2_lookup_l _ _ _ _ _ Hf Hi) as ([k' w] & Hi' & [Hk Hw]). simpl in Hk, Hw. subst k'.
  apply list_elem_of_lookup_2 in Hi'. unfold akeys in Hn2. rewrite Hp2 in Hn2.
  apply (aget_elem _ _ _ Hn2) in Hi', H2. congruence.
Qed.

(** A token's signature covers what the token says: two tokens with the
    same signed text have the same core, their type, ids, subject, user,
    scope, dates and nonce, whatever else they carry. *)
Theorem signing_input_binds `{!JsonDisplay, !JsonText, !JsonTextLaws} t1 t2 input :
  wf_value (JObject t1) → wf_value (JObject t2) →
  intent_token_signing_input t1 = Ok input → intent_token_signing_input t2 = Ok input →
  ∃ c1 c2, intent_token_core_payload t1 = Ok c1 ∧ intent_token_core_payload t2 = Ok c2 ∧
    same_value (JObject c1) (JObject c2).
Proof.
  intros Hwf1 Hwf2. unfold intent_token_signing_input.
  destruct (intent_token_core_payload t1) as [c1|] eqn:E1; [|done].
  destruct (intent_token_core_payload t2) as [c2|] eqn:E2; [|done].
  apply intent_token_core_wf in E1 as Hc1, E2 as Hc2; [|done..]. dict_simpl.
  intros Ht1 Ht2. exists c1, c2. do 2 (split; [done|]).
  set (payload := λ c : JsonDict, [("scope", JString "server.intent_token"); ("token", JObject c)]).
  assert (Hwf : ∀ c, wf_value (JObject c) → wf_value (JObject (payload c))).
  { intros c Hc. apply wf_object_literal; [done|]. by do 2 (constructor; [done || constructor|]). }
  assert (Hsame : same_value (JObject (payload c1)) (JObject (payload c2)))
    by (by eapply canonical_same; [apply Hwf..| |]).
  eapply (same_value_aget (payload c1) (payload c2) "token"); [..|exact Hsame|done|done];
    by apply (bool_decide_unpack _).
Qed.
