(* ===== verification/IntentService.v ===== *)
(** The intent authorization service (A4P/rust-sdk/src/intent/service.rs):
    prepare a mandate, complete it once the user signed, verify tokens and
    consume their executions.

    What the intent service guarantees: one token per pending mandate, no more
    executions than signed, and the second in which that limit does not hold. *)
From S2P Require Import Prelude RustMap RustStr F64 Json A4PUtil IntentScope UsageStore Canonical A4PCrypto Mandate Ticket IntentMandate IntentToken.

(** * Responses (types.rs) *)

Record VerificationResult := mkVerificationResult {
  vr_valid : bool; vr_reason : option string; vr_code : option string;
  vr_matched_scope : option JsonDict
}.
Definition vr_ok (matched_scope : option JsonDict) : VerificationResult :=
  mkVerificationResult true None None matched_scope.
Definition vr_fail (reason code : string) : VerificationResult :=
  mkVerificationResult false (Some reason) (Some code) None.

Record IntentAuthorizationResponse := mkIntentAuthorizationResponse {
  ir_mandate : option JsonDict;
  ir_signing_options : JsonDict;
  ir_intent_token : option JsonDict;
  ir_verification_result : option VerificationResult;
  ir_approved : bool;
  ir_reject_reason : option string
}.

Record TokenVerificationResponse := mkTokenVerificationResponse {
  tr_valid : bool; tr_reason : option string; tr_code : option string;
  tr_matched_scope : option JsonDict
}.

(** The rejections both phases answer with. *)
Definition rejected (mandate : option JsonDict) (reason code : string) : IntentAuthorizationResponse :=
  mkIntentAuthorizationResponse mandate [] None (Some (vr_fail reason code)) false (Some reason).

Definition token_rejected (reason code : string) : TokenVerificationResponse :=
  mkTokenVerificationResponse false (Some reason) (Some code) None.

(** * The service *)

(** [A4PIntentTokenUsageStore] over its state [U]; the clock reading a call
    makes is its first argument. *)
Record A4PIntentTokenUsageStore (U : Type) := mkUsageStore {
  us_consume : Z → string → Z → Z → U → result (bool * Z) string * U
}.

(** [InMemoryIntentTokenUsageStore]. *)
Definition InMemoryIntentTokenUsageStore : A4PIntentTokenUsageStore usage_rows :=
  mkUsageStore _ consume.

Record PendingIntent := mkPendingIntent { pi_request : JsonDict; pi_mandate : JsonDict }.

(** The configuration of a service over the state [S] of the signature method
    and the state [U] of the usage store. *)
Record IntentAuthorizationService (S U : Type) := mkIntentService {
  is_server_id : string;
  is_display_text_renderer : option (JsonDict → string);
  is_require_user_signature : bool;
  is_user_signature_method : option (A4PUserSignatureMethod S);
  is_token_usage_store : A4PIntentTokenUsageStore U
}.
Arguments is_server_id {S U}.
Arguments is_display_text_renderer {S U}.
Arguments is_require_user_signature {S U}.
Arguments is_user_signature_method {S U}.
Arguments is_token_usage_store {S U}.

(** What the calls change. *)
Record IntentState (S U : Type) := mkIntentState {
  ist_pending : gmap string PendingIntent;
  ist_method : S;
  ist_usage : U
}.
Arguments mkIntentState {S U}.
Arguments ist_pending {S U}.
Arguments ist_method {S U}.
Arguments ist_usage {S U}.

Definition is_user_credential_not_registered (e : A4PProtocolError) : bool :=
  bool_decide (pe_code e = "USER_CREDENTIAL_NOT_REGISTERED").

Section service.
Context `{!JsonDisplay, !JsonText, !Chrono, !Crypto}.
Context {S U : Type} (svc : IntentAuthorizationService S U).
Implicit Types st : IntentState S U.

Definition pending_len st : nat := size (ist_pending st).
Definition has_pending (mandate_id : string) st : bool :=
  bool_decide (is_Some (ist_pending st !! mandate_id)).

(** The server a request names, or the configured one. *)
Definition request_server (server_id : string) (request : JsonDict) : string :=
  match truthy (aget "server" request) with Some value => py_str value | None => server_id end.

(** [validitySeconds], or its default. *)
Definition validity_seconds (dflt : Z) (request : JsonDict) : result Z A4PError :=
  match aget "validitySeconds" request with
  | None | Some JNull => Ok dflt
  | Some value =>
      match as_int value with
      | Some number =>
          if (0 <? number)%Z then Ok number
          else Err (AValue "validitySeconds must be a positive integer")
      | None => Err (AValue "validitySeconds must be a positive integer")
      end
  end.

(** The agent and user of a request. *)
Definition request_parties (request : JsonDict) : result (string * string) A4PError :=
  let agent_id := str_trimmed request "agentId" in
  if str_is_empty agent_id then Err (AValue "agentId missing")
  else
    let user_id := str_trimmed request "userId" in
    if str_is_empty user_id then Err (AValue "userId missing") else Ok (agent_id, user_id).

(** Signing options, when a user signature is required. *)
Definition options_for (method : option (A4PUserSignatureMethod S)) (required : bool) (s : S)
    (user_id : string) (mandate : JsonDict) : result JsonDict A4PError * S :=
  match method with
  | Some method => if required then signing_options _ method s user_id mandate else (Ok [], s)
  | None => (Ok [], s)
  end.

(** The mandate of a request, its id and user. *)
Definition prepare_mandate (signing_key : result SigningKey A4PError) (random : string) (now : Z)
    (request_payload intent : JsonDict) : result (string * JsonDict * string) A4PError :=
  let? parties := request_parties request_payload in
  let? validity := validity_seconds 3600 request_payload in
  match aget "executionPolicy" intent with
  | Some JNull => Err (AValue "executionPolicy must include maxExecutions")
  | _ =>
      let server := request_server (is_server_id svc) request_payload in
      let? mandate := create_intent_mandate signing_key random now (mkCreateIntentMandate server
        parties.1 (aget "actions" intent) (aget "executionPolicy" intent) validity "agent"
        (get_object request_payload "agentPublicKey") (is_require_user_signature svc)
        (signature_method _ <$> is_user_signature_method svc)
        (method_policy _ <$> is_user_signature_method svc) (is_display_text_renderer svc)) in
      let? mandate_id := mandate_identifier mandate in
      Ok (mandate_id, mandate, parties.2)
  end.

Definition prepare_inner (signing_key : result SigningKey A4PError) (random : string) (now : Z)
    (request_payload intent : JsonDict) (s : S) : result (string * JsonDict * JsonDict) A4PError * S :=
  match prepare_mandate signing_key random now request_payload intent with
  | Err error => (Err error, s)
  | Ok (mandate_id, mandate, user_id) =>
      let (signing_options, s) :=
        options_for (is_user_signature_method svc) (is_require_user_signature svc) s user_id mandate in
      (let? signing_options := signing_options in Ok (mandate_id, mandate, signing_options), s)
  end.

Definition prepare (signing_key : result SigningKey A4PError) (random : string) (now : Z)
    (request_payload : JsonDict) st : result IntentAuthorizationResponse A4PError * IntentState S U :=
  let intent := object_or_empty request_payload "intent" in
  let (prepared, s) := prepare_inner signing_key random now request_payload intent (ist_method st) in
  match prepared with
  | Ok (mandate_id, mandate, signing_options) =>
      (Ok (mkIntentAuthorizationResponse (Some mandate) signing_options None None false None),
       mkIntentState (<[mandate_id := mkPendingIntent request_payload mandate]> (ist_pending st))
         s (ist_usage st))
  | Err error =>
      let value_error :=
        if is_value_error error then Ok (rejected None (a4p_message error) "MANDATE_INVALID")
        else Err error in
      (match error with
       | AProtocol e =>
           if is_user_credential_not_registered e then Ok (rejected None (pe_message e) (pe_code e))
           else value_error
       | _ => value_error
       end, mkIntentState (ist_pending st) s (ist_usage st))
  end.

(** [now_verify] and [now_issue] are the two clock readings, of verifying the
    mandate and of issuing the token. *)
Definition complete (signing_key : result SigningKey A4PError) (random_id random_nonce : string)
    (now_verify now_issue : Z) (request : JsonDict) st :
    result IntentAuthorizationResponse A4PError * IntentState S U :=
  match get_object request "signedMandate" with
  | None => (Ok (rejected None "signedMandate missing" "MANDATE_INVALID"), st)
  | Some signed_mandate =>
      match mandate_identifier signed_mandate with
      | Err error => (Ok (rejected None (a4p_message error) "MANDATE_INVALID"), st)
      | Ok mandate_id =>
          match ist_pending st !! mandate_id with
          | None =>
              (Ok (mkIntentAuthorizationResponse None [] None
                 (Some (vr_fail "No pending intent authorization" "AUTHORIZATION_NOT_PENDING")) false
                 (Some ("No pending intent authorization: " +:+ mandate_id))), st)
          | Some pending =>
              if negb (mandate_matches_pending signed_mandate (pi_mandate pending)
                         normalize_intent_mandate) then
                (Ok (rejected (Some (pi_mandate pending))
                   "Signed mandate does not match pending intent authorization"
                   "MANDATE_PENDING_MISMATCH"), st)
              else
                let expected_server := request_server (is_server_id svc) (pi_request pending) in
                let expected_user_id := str_or_empty (pi_request pending) "userId" in
                let (verification, s) :=
                  verify_intent_mandate signing_key now_verify signed_mandate
                    (mkVerifyMandate S (Some expected_server) (Some expected_user_id)
                       (is_require_user_signature svc) (is_user_signature_method svc))
                    (ist_method st) in
                match verification with
                | Err reason =>
                    (Ok (rejected (Some (pi_mandate pending)) reason (error_code reason "MANDATE")),
                     mkIntentState (ist_pending st) s (ist_usage st))
                | Ok _ =>
                    let user_id :=
                      match truthy (aget "userId" (pi_request pending)) with
                      | Some value => py_str value
                      | None => "user:unknown"
                      end in
                    let (token, s) :=
                      issue_intent_token signing_key random_id random_nonce now_verify now_issue
                        signed_mandate
                        (mkIssueIntentToken S user_id true (is_require_user_signature svc) None) s in
                    (let? token := token in
                     Ok (mkIntentAuthorizationResponse (Some signed_mandate) [] (Some token)
                       (Some (vr_ok None)) true None),
                     mkIntentState (delete mandate_id (ist_pending st)) s (ist_usage st))
                end
          end
      end
  end.

(** [Ok (Ok usage)] when consumed, [Ok (Err reason)] when exhausted. *)
Definition consume_token_usage (now : Z) (token : JsonDict) (u : U) :
    result (result JsonDict string) string * U :=
  let token_id := str_trimmed token "tokenId" in
  if str_is_empty token_id then (Ok (Err "Token tokenId missing"), u)
  else
    match normalize_intent_scope (aget "intent" token) with
    | Err error => (Ok (Err (a4p_message error)), u)
    | Ok intent =>
        match get_object intent "executionPolicy" with
        | None => (Ok (Ok []), u)
        | Some policy =>
            let max_executions := default 0%Z (aget "maxExecutions" policy ≫= as_int) in
            match parse_iso_z (str_trimmed token "expireAt") with
            | None => (Err "Intent token expiration is invalid", u)
            | Some expire_at_epoch =>
                let (answer, u) :=
                  us_consume _ (is_token_usage_store svc) now token_id max_executions expire_at_epoch u in
                match answer with
                | Err e => (Err e, u)
                | Ok (false, _) => (Ok (Err "Token execution usage exceeded"), u)
                | Ok (true, used) =>
                    (Ok (Ok (dict [("usage", JObject (dict
                       [("executionsUsed", value_of_i64 used);
                        ("executionsLimit", value_of_i64 max_executions)]))])), u)
                end
            end
        end
    end.

(** [value.filter(|v| !v.is_null()).map(py_str)]. *)
Definition expected_text (expected : JsonDict) (key : string) : option string :=
  v ← aget key expected; if is_null v then None else Some (py_str v).

Definition verify_token (signing_key : result SigningKey A4PError) (now_verify now_consume : Z)
    (request_payload : JsonDict) st : TokenVerificationResponse * IntentState S U :=
  let token := object_or_empty request_payload "token" in
  let expected := object_or_empty request_payload "expected" in
  let action := str_or_empty expected "action" in
  let params := object_or_empty expected "params" in
  match verify_intent_token signing_key now_verify token
          (mkVerifyIntentToken action (Some params) (expected_text expected "agentId")
             (expected_text expected "userId") (expected_text expected "agentKeyId")) with
  | Err reason => (token_rejected reason (error_code reason "TOKEN"), st)
  | Ok _ =>
      let (usage, u) := consume_token_usage now_consume token (ist_usage st) in
      let st := mkIntentState (ist_pending st) (ist_method st) u in
      match usage with
      | Ok (Ok usage) =>
          let matched_scope :=
            foldl (λ m kv, im_insert kv.1 kv.2 m)
              (dict [("action", default JNull (aget "action" expected)); ("params", JObject params)])
              usage in
          (mkTokenVerificationResponse true None None (Some matched_scope), st)
      | Ok (Err reason) => (token_rejected reason "TOKEN_USAGE_EXCEEDED", st)
      | Err _ =>
          (token_rejected "Intent token usage store unavailable" "TOKEN_USAGE_STORE_ERROR", st)
      end
  end.
End service.

(** * One token per pending mandate *)

Section pending.
Context `{!JsonDisplay, !JsonText, !Chrono, !Crypto}.
Context {S U : Type} (svc : IntentAuthorizationService S U).
Implicit Types st : IntentState S U.

(** A call of the service, with the key, clock readings and random bytes it
    gets. *)
Inductive IntentCall :=
| CallPrepare (signing_key : result SigningKey A4PError) (random : string) (now : Z) (request : JsonDict)
| CallComplete (signing_key : result SigningKey A4PError) (random_id random_nonce : string)
    (now_verify now_issue : Z) (request : JsonDict)
| CallVerify (signing_key : result SigningKey A4PError) (now_verify now_consume : Z) (request : JsonDict).

Inductive IntentAnswer :=
| AnswerPrepare (r : result IntentAuthorizationResponse A4PError)
| AnswerComplete (r : result IntentAuthorizationResponse A4PError)
| AnswerVerify (r : TokenVerificationResponse).

Definition intent_call (c : IntentCall) st : IntentAnswer * IntentState S U :=
  match c with
  | CallPrepare key random now request =>
      let (r, st) := prepare svc key random now request st in (AnswerPrepare r, st)
  | CallComplete key rid rn nv ni request =>
      let (r, st) := complete svc key rid rn nv ni request st in (AnswerComplete r, st)
  | CallVerify key nv nc request =>
      let (r, st) := verify_token svc key nv nc request st in (AnswerVerify r, st)
  end.

Fixpoint intent_calls (cs : list IntentCall) st : list IntentAnswer * IntentState S U :=
  match cs with
  | [] => ([], st)
  | c :: cs =>
      let (a, st) := intent_call c st in let (l, st) := intent_calls cs st in (a :: l, st)
  end.

(** The id of the mandate an answer carries. *)
Definition answered_id (r : IntentAuthorizationResponse) : option string :=
  m ← ir_mandate r; match mandate_identifier m with Ok id => Some id | Err _ => None end.

(** What an answer means for the mandates pending: one is handed out, one is
    approved, or neither. *)
Definition answer_event (a : IntentAnswer) : ticket_event :=
  match a with
  | AnswerPrepare (Ok r) => match answered_id r with Some id => Issued id | None => Quiet end
  | AnswerComplete (Ok r) =>
      if ir_approved r then match answered_id r with Some id => Redeemed id | None => Quiet end
      else Quiet
  | _ => Quiet
  end.

Notation pending_ids st := (dom (ist_pending st) : gset string).

Lemma prepare_mandate_id key random now request intent id m u :
  prepare_mandate svc key random now request intent = Ok (id, m, u) → mandate_identifier m = Ok id.
Proof.
  unfold prepare_mandate. destruct (request_parties _) as [parties|]; [|done].
  destruct (validity_seconds _ _) as [validity|]; [|done].
  destruct (create_intent_mandate _ _ _ _) as [mandate|]; [|by repeat case_match].
  destruct (mandate_identifier mandate) as [i|] eqn:Hi; [|by repeat case_match].
  intros. repeat case_match; by simplify_eq.
Qed.

Lemma prepare_inner_id key random now request intent s id m options s' :
  prepare_inner svc key random now request intent s = (Ok (id, m, options), s') → mandate_identifier m = Ok id.
Proof.
  unfold prepare_inner.
  destruct (prepare_mandate _ _ _ _ _ _) as [[[i m'] u]|] eqn:Hp; [|done].
  destruct (options_for _ _ _ _ _) as [[o'|] s1]; intros; simplify_eq/=. by apply prepare_mandate_id in Hp.
Qed.

Lemma prepare_ticket key random now request st r st' :
  prepare svc key random now request st = (r, st') →
  ticket_step (pending_ids st) (answer_event (AnswerPrepare r)) (pending_ids st').
Proof.
  unfold prepare. destruct (prepare_inner _ _ _ _ _ _ _) as [[[[id m] o]|e] s] eqn:Hp.
  - apply prepare_inner_id in Hp. intros [= <- <-]. cbn [answer_event]. unfold answered_id. simpl.
    rewrite Hp, dom_insert_L. by constructor.
  - intros [= <- <-]. destruct e as [e| | | | |]; simpl;
      [destruct (is_user_credential_not_registered e)|..]; by constructor.
Qed.

(** Completing approves a pending mandate and forgets it, or approves nothing
    and at most forgets one. *)
Lemma complete_ticket key rid rn nv ni request st r st' :
  complete svc key rid rn nv ni request st = (r, st') →
  ticket_step (pending_ids st) (answer_event (AnswerComplete r)) (pending_ids st').
Proof.
  unfold complete. destruct (get_object request _) as [m|]; [|intros [= <- <-]; by constructor].
  destruct (mandate_identifier m) as [id|] eqn:Hid; [|intros [= <- <-]; by constructor].
  destruct (ist_pending st !! id) as [p|] eqn:Hp; [|intros [= <- <-]; by constructor].
  destruct (mandate_matches_pending _ _ _); cbn [negb]; [|intros [= <- <-]; by constructor].
  destruct (verify_intent_mandate _ _ _ _ _) as [[[]|reason] s]; [|intros [= <- <-]; by constructor].
  destruct (issue_intent_token _ _ _ _ _ _ _ _) as [token s']. intros [= <- <-].
  apply elem_of_dom_2 in Hp. destruct token as [t|]; simpl.
  - unfold answered_id. simpl. rewrite Hid, dom_delete_L. by constructor.
  - constructor. rewrite dom_delete_L. set_solver.
Qed.

Lemma verify_pending key nv nc request st r st' :
  verify_token svc key nv nc request st = (r, st') → ist_pending st' = ist_pending st.
Proof.
  unfold verify_token. destruct (verify_intent_token _ _ _ _); [|by intros [= _ <-]].
  destruct (consume_token_usage _ _ _ _) as [[[]|] u]; by intros [= _ <-].
Qed.

(** The service implements the one-time tickets. *)
Lemma intent_call_ticket c st a st' :
  intent_call c st = (a, st') → ticket_step (pending_ids st) (answer_event a) (pending_ids st').
Proof.
  destruct c as [key random now request|key rid rn nv ni request|key nv nc request]; simpl.
  - destruct (prepare _ _ _ _ _ _) eqn:Hc. intros [= <- <-]. by eapply prepare_ticket.
  - destruct (complete _ _ _ _ _ _ _ _) eqn:Hc. intros [= <- <-]. by eapply complete_ticket.
  - destruct (verify_token _ _ _ _ _ _) eqn:Hc. intros [= <- <-].
    apply verify_pending in Hc as ->. by constructor.
Qed.

Lemma intent_calls_tickets cs st l st' :
  intent_calls cs st = (l, st') → ticket_steps (pending_ids st) (answer_event <$> l) (pending_ids st').
Proof.
  revert st l. induction cs as [|c cs IH]; intros st l; simpl; [intros [= <- <-]; constructor|].
  destruct (intent_call c st) as [a st1] eqn:Hc. destruct (intent_calls cs st1) as [l1 st2] eqn:Hl.
  intros [= <- <-]. econstructor; [by eapply intent_call_ticket|by apply IH].
Qed.

(** The service hands out at most one token per mandate it prepared:
    however its calls interleave, the approvals of a mandate id never
    outnumber the times the service prepared it. *)
Theorem one_token_per_mandate id cs st l st' :
  ist_pending st = ∅ → intent_calls cs st = (l, st') →
  (times (Redeemed id) (answer_event <$> l) ≤ times (Issued id) (answer_event <$> l))%nat.
Proof.
  intros Hempty Hall%intent_calls_tickets. rewrite Hempty, dom_empty_L in Hall.
  by apply (tickets_redeemed_once id) in Hall.
Qed.
End pending.

(** * Executions *)

Section executions.
Context `{!JsonDisplay, !JsonText, !Chrono, !Crypto}.
Context {S : Type} (svc : IntentAuthorizationService S usage_rows).
Hypothesis Hstore : is_token_usage_store svc = InMemoryIntentTokenUsageStore.
Variables (token_id : string) (max expire : Z).
Hypothesis Hmax : (max ≤ i64_max)%Z.
Implicit Types st : IntentState S usage_rows.

(** The limit a token carries. *)
Definition token_limit (token : JsonDict) : option Z :=
  match normalize_intent_scope (aget "intent" token) with
  | Ok intent =>
      policy ← get_object intent "executionPolicy";
      Some (default 0%Z (aget "maxExecutions" policy ≫= as_int))
  | Err _ => None
  end.

(** The call presents the token [token_id] with its limit and expiry. *)
Definition presents (c : IntentCall) : Prop :=
  match c with
  | CallVerify _ _ _ request =>
      let token := object_or_empty request "token" in
      str_trimmed token "tokenId" = token_id ∧ token_limit token = Some max ∧
      parse_iso_z (str_trimmed token "expireAt") = Some expire
  | _ => False
  end.
Definition accepted (a : IntentAnswer) : Prop :=
  match a with AnswerVerify r => tr_valid r = true | _ => False end.

#[export] Instance presents_dec c : Decision (presents c).
Proof. destruct c; simpl; apply _. Defined.
#[export] Instance accepted_dec a : Decision (accepted a).
Proof. destruct a; simpl; apply _. Defined.

(** The store's clock readings come before the expiry. *)
Definition before_expiry (c : IntentCall) : Prop :=
  match c with CallVerify _ _ now_consume _ => (now_consume < expire)%Z | _ => True end.

(** What consuming a token's usage does to the store. *)
Lemma consume_token_usage_call now token u answer u' :
  consume_token_usage svc now token u = (answer, u') →
  u' = u ∧ (∀ usage, answer = Ok (Ok usage) → token_limit token = None) ∨
  ∃ limit exp r, token_limit token = Some limit ∧ parse_iso_z (str_trimmed token "expireAt") = Some exp ∧
    consume_call (mkConsumeCall now (str_trimmed token "tokenId") limit exp) u = (r, u') ∧
    ((∃ usage, answer = Ok (Ok usage)) ↔ granted r).
Proof.
  unfold consume_token_usage, token_limit. rewrite Hstore.
  destruct (str_is_empty _); [intros [= <- <-]; by left|].
  destruct (normalize_intent_scope _) as [intent|]; [|intros [= <- <-]; by left].
  destruct (get_object intent "executionPolicy") as [policy|]; [|intros [= <- <-]; by left].
  destruct (parse_iso_z _) as [exp|]; [|intros [= <- <-]; left; split; [done|by intros ?]].
  simpl. destruct (consume _ _ _ _ _) as [r u1] eqn:Hc. intros Hans. right.
  eexists _, exp, r. split; [done|]. split; [done|].
  destruct r as [[[|] used]|e]; injection Hans as <- <-; (split; [exact Hc|]); unfold granted; naive_solver.
Qed.

Lemma intent_call_usage c st a st' used :
  before_expiry c → intent_call svc c st = (a, st') → recorded token_id max expire (ist_usage st) used →
  recorded token_id max expire (ist_usage st')
    (if decide (presents c ∧ accepted a) then used + 1 else used)%Z.
Proof.
  intros Hnow Hc Hrec. destruct c as [key random now request|key rid rn nv ni request|key nv nc request]; simpl in Hc.
  - rewrite decide_False by (intros [[] _]). revert Hc. unfold prepare.
    destruct (prepare_inner _ _ _ _ _ _ _) as [[[[??]?]|] ?]; by intros [= _ <-].
  - rewrite decide_False by (intros [[] _]). revert Hc. unfold complete.
    repeat case_match; intros; simplify_eq/=; done.
  - revert Hc. unfold verify_token.
    destruct (verify_intent_token _ _ _ _) as [[]|]; cycle 1.
    { intros [= <- <-]. by rewrite decide_False by (intros [_ [=]]). }
    set (token := object_or_empty request "token").
    destruct (consume_token_usage svc nc token (ist_usage st)) as [answer u'] eqn:Hu.
    intros Hres. assert (ist_usage st' = u') as -> by (by destruct answer as [[]|]; simplify_eq/=).
    assert (Hacc : accepted a ↔ ∃ usage, answer = Ok (Ok usage)).
    { destruct answer as [[]|]; simplify_eq/=; naive_solver. }
    clear Hres. apply consume_token_usage_call in Hu as [[-> Hno]|(limit & exp & r & Hl & He & Hcall & Hr)].
    { rewrite decide_False; [done|]. intros [(_ & Hl & _) [usage ->]%Hacc].
      fold token in Hl. by rewrite (Hno usage eq_refl) in Hl. }
    rewrite <-Hacc in Hr. destruct (decide (exp = expire ∧ limit = max)) as [[-> ->]|Hne].
    + eapply (consume_call_recorded token_id max expire Hmax) in Hcall; [|exact Hnow|exact Hrec].
      eapply eq_ind; [exact Hcall|]. cbn [presents]. fold token.
      rewrite (decide_ext _ (presents (CallVerify key nv nc request) ∧ accepted a)); [done|].
      unfold for_token. cbn [presents cc_token cc_max cc_expire]. fold token.
      rewrite str_trimmed_trimmed, Hl, He, Hr. clear.
      split; intros ((? & ? & ?) & ?); done.
    + rewrite decide_False by (cbn [presents]; fold token; rewrite Hl, He; naive_solver).
      eapply (consume_call_recorded token_id max expire Hmax) in Hcall; [|exact Hnow|exact Hrec].
      rewrite decide_False in Hcall; [done|]. intros [(_ & Hm & He') _]. by apply Hne.
Qed.

(** The calls accepted for the token, of all calls and their answers. *)
Definition executions (cs : list IntentCall) (l : list IntentAnswer) : nat :=
  length (filter (λ ca : IntentCall * IntentAnswer, presents ca.1 ∧ accepted ca.2) (zip cs l)).

Lemma intent_calls_usage cs st l st' used :
  Forall before_expiry cs → intent_calls svc cs st = (l, st') →
  recorded token_id max expire (ist_usage st) used →
  recorded token_id max expire (ist_usage st') (used + Z.of_nat (executions cs l)).
Proof.
  intros Hnow. revert st l used. induction Hnow as [|c cs Hc Hcs IH]; intros st l used; cbn [intent_calls].
  { intros [= <- <-]. by rewrite Z.add_0_r. }
  destruct (intent_call svc c st) as [a st1] eqn:Ha. destruct (intent_calls svc cs st1) as [l1 st2] eqn:Hl.
  intros [= <- <-] Hrec. eapply intent_call_usage in Ha; [|done..]. eapply IH in Ha; [|done].
  unfold executions in *. cbn [zip zip_with]. rewrite filter_cons. cbn [fst snd].
  case_decide; [|done]. cbn [length]. eapply eq_ind; [exact Ha|lia].
Qed.
End executions.

(** C21: A token is executed no more often than its signed limit says: of any
    calls of the service, for whatever mandates and tokens, at most [max] that
    present the token are accepted before its expiry. *)
Theorem token_executions_bounded `{!JsonDisplay, !JsonText, !Chrono, !Crypto} {S : Type}
    (svc : IntentAuthorizationService S usage_rows) token_id max expire cs st l st' :
  is_token_usage_store svc = InMemoryIntentTokenUsageStore →
  (max ≤ i64_max)%Z → ist_usage st = ∅ → Forall (before_expiry expire) cs →
  intent_calls svc cs st = (l, st') →
  (Z.of_nat (executions token_id max expire cs l) ≤ Z.max 0 max)%Z.
Proof.
  intros Hstore Hmax Hst Hnow Hall.
  eapply (intent_calls_usage svc Hstore token_id max expire Hmax cs st l st' 0) in Hall; [|done|].
  - apply recorded_bounds in Hall. lia.
  - right. split; [done|]. intros row. by rewrite Hst, lookup_empty.
Qed.

(** * The second of the expiry *)

Section expiry.
Context `{!JsonDisplay, !JsonText, !Chrono, !Crypto}.
Context {S : Type} (svc : IntentAuthorizationService S usage_rows).
Hypothesis Hstore : is_token_usage_store svc = InMemoryIntentTokenUsageStore.

(** The options a verification request asks for. *)
Definition request_options (request : JsonDict) : VerifyIntentToken :=
  let expected := object_or_empty request "expected" in
  mkVerifyIntentToken (str_or_empty expected "action") (Some (object_or_empty expected "params"))
    (expected_text expected "agentId") (expected_text expected "userId")
    (expected_text expected "agentKeyId").

(** The rows of a token all carry its expiry. *)
Definition row_expires (token_id : string) (expire : Z) (rows : usage_rows) : Prop :=
  ∀ row, rows !! token_id = Some row → ur_expire_at_epoch row = expire.

Lemma verify_at_expiry key request max expire (st : IntentState S usage_rows) :
  let token := object_or_empty request "token" in
  verify_intent_token key expire token (request_options request) = Ok () →
  token_limit token = Some max → (0 < max)%Z → (0 < expire)%Z →
  parse_iso_z (str_trimmed token "expireAt") = Some expire → str_trimmed token "tokenId" ≠ "" →
  row_expires (str_trimmed token "tokenId") expire (ist_usage st) →
  let (r, st') := verify_token svc key expire expire request st in
  tr_valid r = true ∧ row_expires (str_trimmed token "tokenId") expire (ist_usage st').
Proof.
  intros token Hv Hl Hm He Hx Ht Hrow. unfold verify_token. fold token.
  change (mkVerifyIntentToken _ _ _ _ _) with (request_options request). rewrite Hv.
  unfold consume_token_usage. rewrite Hstore, (proj2 (str_is_empty_false _) Ht).
  unfold token_limit in Hl. destruct (normalize_intent_scope _) as [intent|]; [|done].
  destruct (get_object intent "executionPolicy") as [policy|]; [|done]. injection Hl as ->.
  rewrite Hx. simpl.
  assert (Htrim : trim (str_trimmed token "tokenId") = str_trimmed token "tokenId") by apply str_trimmed_trimmed.
  unfold consume. rewrite (proj2 (validate_ok _ max expire _)) by (rewrite Htrim; done).
  rewrite Htrim. destruct (filter _ (ist_usage st) !! _) as [row|] eqn:Hf.
  { apply map_lookup_filter_Some in Hf as [Hf Hlive]. apply Hrow in Hf. simpl in *. lia. }
  split; [done|]. intros row. simpl. rewrite lookup_insert_eq. by intros [= <-].
Qed.

(** In the second of its expiry a token's limit does not hold: the token
    still verifies while the store no longer keeps its row, so any number of
    executions is accepted, whatever the limit and whatever was used. *)
Theorem limit_void_at_expiry n key request max expire (st : IntentState S usage_rows) :
  let token := object_or_empty request "token" in
  verify_intent_token key expire token (request_options request) = Ok () →
  token_limit token = Some max → (0 < max)%Z → (0 < expire)%Z →
  parse_iso_z (str_trimmed token "expireAt") = Some expire → str_trimmed token "tokenId" ≠ "" →
  row_expires (str_trimmed token "tokenId") expire (ist_usage st) →
  Forall accepted (intent_calls svc (replicate n (CallVerify key expire expire request)) st).1.
Proof.
  intros token Hv Hl Hm He Hx Ht. revert st. induction n as [|n IH]; intros st Hrow; [constructor|].
  cbn [replicate intent_calls intent_call].
  pose proof (verify_at_expiry key request max expire st Hv Hl Hm He Hx Ht Hrow) as Hcall.
  destruct (verify_token _ _ _ _ _ _) as [r st1]. destruct Hcall as [Hr Hrow1].
  specialize (IH st1 Hrow1). destruct (intent_calls _ _ st1) as [l st2]. by constructor.
Qed.
End expiry.
