(* ===== verification/IntentFlow.v ===== *)
(** An intent from the request to the token: what preparing, the user's
    signature and completing do together. *)
From S2P Require Import Prelude F64 RustMap RustStr Json A4PUtil IntentScope UsageStore Canonical A4PCrypto CredentialStore Mandate Ed25519 IntentMandate IntentToken IntentService.

(** * Mandates are well formed *)

Lemma wf_empty : wf_value (JObject []).
Proof. by constructor; [apply NoDup_nil_2|constructor]. Qed.

Lemma wf_get_object m k o : wf_value (JObject m) → get_object m k = Some o → wf_value (JObject o).
Proof. intros Hm Ho%get_object_Some. by eapply wf_aget. Qed.

Lemma wf_object_or_empty m k : wf_value (JObject m) → wf_value (JObject (object_or_empty m k)).
Proof.
  intros Hm. unfold object_or_empty. destruct (get_object m k) as [o|] eqn:Ho; [|apply wf_empty].
  by eapply wf_get_object.
Qed.

Lemma wf_cons_literal (l : JsonDict) :
  bool_decide (NoDup (akeys l)) = true → Forall (λ kv, wf_value kv.2) l → wf_value (JObject (dict l)).
Proof. intros Hnd Hall. rewrite dict_literal by done. by apply wf_object_literal. Qed.

#[local] Hint Resolve wf_empty wf_object_or_empty wf_im_insert : rust.
#[local] Hint Constructors Forall : rust.
#[local] Hint Extern 1 (wf_value (JObject (dict _))) => apply wf_cons_literal; [reflexivity|] : rust.

(** The entries of a literal object, one by one. *)
Ltac wf_entries := repeat (apply List.Forall_cons; [cbn [snd]; auto with rust|]); try apply List.Forall_nil.

Section wf.
Context `{!JsonDisplay, !JsonText, !Chrono, !Crypto}.

Lemma signature_container_wf m : wf_value (JObject m) → wf_value (signature_container m).
Proof. intros Hm. unfold signature_container. apply wf_cons_literal; [done|]. wf_entries. Qed.

Lemma normalize_intent_mandate_wf m n :
  wf_value (JObject m) → normalize_intent_mandate m = Ok n → wf_value (JObject n).
Proof.
  intros Hm. unfold normalize_intent_mandate.
  destruct (normalize_intent_scope _) as [intent|] eqn:Hi; [|done]. intros [= <-].
  apply normalize_intent_scope_wf in Hi; [|intros w; by apply wf_aget].
  pose proof (signature_container_wf m Hm). auto 6 with rust.
Qed.

Lemma server_signature_wf alg id s : wf_value (JObject (server_signature alg id s)).
Proof. apply wf_cons_literal; [done|]. wf_entries. Qed.

Lemma sign_intent_mandate_wf key m signed :
  wf_value (JObject m) → sign_intent_mandate key m = Ok signed → wf_value (JObject signed).
Proof.
  intros Hm. unfold sign_intent_mandate. destruct (normalize_intent_mandate m) as [n|] eqn:Hn; [|done].
  destruct (intent_mandate_core_payload n) as [core|]; [|done].
  destruct (server_signature_payload core); [|done]. destruct key as [key|]; [|done]. intros [= <-].
  apply normalize_intent_mandate_wf in Hn; [|done]. unfold set_server_signature.
  destruct (aget "signatures" n) as [[| | | | |sigs]|] eqn:Hs; try done.
  assert (wf_value (JObject sigs)) by (by eapply wf_aget). auto using server_signature_wf with rust.
Qed.

(** * The draft of a mandate *)

(** What is signed for a request: its fields, in a well-formed object. *)
Lemma create_intent_mandate_ok key random now params m :
  create_intent_mandate (Ok key) random now params = Ok m →
  (∀ w, ci_actions params = Some w → wf_value w) →
  (∀ w, ci_execution_policy params = Some w → wf_value w) →
  (∀ k, ci_agent_public_key params = Some k → wf_value (JObject k)) →
  (∀ p, ci_user_signature_method_policy params = Some p → wf_value (JObject p)) →
  ∃ draft, sign_intent_mandate (Ok key) draft = Ok m ∧ wf_value (JObject draft) ∧
    aget "mandateId" draft = Some (JString ("mdt_" +:+ token_urlsafe random)) ∧
    aget "server" draft = Some (JString (ci_server params)) ∧
    aget "validTime" draft = Some (JObject [("start", JString (format_iso_z now));
      ("end", JString (format_iso_z (i64_add now (ci_validity_seconds params))))]) ∧
    aget "userAuthorization" draft = Some (JObject (user_authorization_policy
      (ci_require_user_signature params) (trim (default "" (ci_user_signature_method params)))
      (ci_user_signature_method_policy params))) ∧
    (ci_require_user_signature params = true → trim (default "" (ci_user_signature_method params)) ≠ "").
Proof.
  unfold create_intent_mandate. set (method := trim (default "" _)).
  destruct (ci_require_user_signature params && str_is_empty method) eqn:Hreq; [done|].
  destruct (normalize_action_specs _) as [acts|] eqn:Ha; [|done].
  destruct (normalize_execution_policy _) as [policy|] eqn:Hp; [|done].
  intros Hsign Hwa Hwp Hwk Hwm.
  apply normalize_action_specs_wf in Ha; [|done]. apply normalize_execution_policy_ok in Hp; [|done].
  match type of Hsign with sign_intent_mandate _ (render_display_text _ (dict ?l)) = _ =>
    assert (Hdraft : wf_value (JObject (dict l))); [|set (fields := l) in *] end.
  { apply wf_cons_literal; [done|]. wf_entries.
    - unfold subject_object. destruct (ci_agent_public_key params) as [k|] eqn:Hk.
      + apply wf_im_insert; [|by apply Hwk]. apply wf_cons_literal; [done|]. wf_entries.
      + apply wf_cons_literal; [done|]. wf_entries.
    - destruct Hp as [->|(n & -> & Hpos & Hr)]; [apply wf_cons_literal; [done|]; wf_entries|].
      apply wf_im_insert; [apply wf_cons_literal; [done|]; wf_entries|]. by apply execution_policy_wf.
    - apply wf_cons_literal; [done|]. wf_entries.
    - unfold user_authorization_policy. destruct (ci_require_user_signature params);
        (apply wf_cons_literal; [done|]); wf_entries.
      destruct (ci_user_signature_method_policy params) as [p|]; [by apply Hwm|apply wf_empty].
    - apply wf_cons_literal; [done|]. wf_entries. apply server_signature_wf. }
  exists (render_display_text (ci_display_text_renderer params) (dict fields)).
  split; [exact Hsign|].
  assert (Hget : ∀ k, k ≠ "displayText" →
    aget k (render_display_text (ci_display_text_renderer params) (dict fields)) = aget k fields).
  { intros k Hk. rewrite (dict_literal fields) by done. unfold render_display_text.
    destruct (ci_display_text_renderer params); [|done]. by rewrite aget_im_insert_ne. }
  split; [unfold render_display_text; destruct (ci_display_text_renderer params); auto with rust|].
  rewrite !Hget by done. clear Hget Hsign Hdraft. subst fields. cbn [aget]. decide_literals.
  split; [done|]. split; [done|]. split; [by rewrite (dict_literal [("start", _); _]) by done|].
  split; [done|]. intros Hr. apply str_is_empty_false. by rewrite Hr in Hreq.
Qed.
End wf.

(** * A presented mandate is the pending one *)

Section presented.
Context `{!JsonDisplay, !JsonText, !Chrono, !Crypto}.

Lemma mandate_identifier_ext m m' :
  aget "type" m = Some (JString INTENT_MANDATE_TYPE) → aget "type" m' = Some (JString INTENT_MANDATE_TYPE) →
  aget "mandateId" m = aget "mandateId" m' → mandate_identifier m = mandate_identifier m'.
Proof.
  intros Ht Ht' Hid. unfold mandate_identifier. rewrite Ht, Ht'. cbn [mbind option_bind as_str].
  rewrite decide_True by done. by rewrite (str_trimmed_ext m m').
Qed.

Lemma signature_container_eq m server u :
  get_object m "signatures" = Some [("server", JObject server); ("user", u)] →
  ∃ user, signature_container m = JObject [("server", JObject server); ("user", JObject user)].
Proof.
  intros Hs%get_object_Some. unfold signature_container. rewrite (object_or_empty_object _ _ _ Hs).
  rewrite dict_literal by reflexivity. eexists.
  by rewrite (object_or_empty_object _ "server" server) by (cbn [aget]; by decide_literals).
Qed.

(** The user's part is all that completing does not compare. *)
Lemma clear_normalized m n server u :
  normalize_intent_mandate m = Ok n →
  get_object m "signatures" = Some [("server", JObject server); ("user", u)] →
  ∃ scope, normalize_intent_scope (aget "intent" m) = Ok scope ∧
  clear_user_signature n =
    im_insert "userAuthorization" (JObject (object_or_empty m "userAuthorization"))
      (im_insert "signatures" (JObject [("server", JObject server); ("user", JObject [])])
        (im_insert "intent" (JObject scope) (im_insert "type" (JString INTENT_MANDATE_TYPE) m))).
Proof.
  intros Hn Hs. unfold normalize_intent_mandate in Hn.
  destruct (normalize_intent_scope _) as [scope|]; [|done]. injection Hn as <-. exists scope.
  split; [done|]. unfold clear_user_signature, ahas.
  rewrite aget_im_insert_ne, aget_im_insert_eq by done. cbn [default].
  destruct (signature_container_eq m server u Hs) as [user ->].
  cbv beta delta [id]. cbn [im_insert]. decide_literals.
  rewrite <-(im_insert_commute "userAuthorization" "signatures") by (done || by rewrite aget_im_insert_eq).
  by rewrite im_insert_twice.
Qed.

Lemma presented_matches m signature server u :
  wf_value (JObject m) → is_Some (aget "signatures" m) →
  get_object m "signatures" = Some [("server", JObject server); ("user", u)] →
  (∃ n, normalize_intent_mandate m = Ok n) →
  mandate_matches_pending (attach_user_signature m signature) m normalize_intent_mandate = true.
Proof.
  intros Hwf Hhas Hs [n Hn]. pose proof Hs as Hsigs. apply get_object_Some in Hsigs.
  set (a := attach_user_signature m signature).
  assert (Ha : a = im_insert "signatures" (JObject [("server", JObject server); ("user", JObject signature)]) m).
  { unfold a, attach_user_signature. rewrite Hsigs. cbn [im_insert]. by decide_literals. }
  assert (Hsame : ∀ k, k ≠ "signatures" → aget k a = aget k m).
  { intros k Hk. by rewrite Ha, aget_im_insert_ne. }
  destruct (normalize_intent_mandate a) as [na|] eqn:Hna; cycle 1.
  { unfold normalize_intent_mandate in Hna, Hn. rewrite Hsame in Hna by done.
    by destruct (normalize_intent_scope _). }
  unfold mandate_matches_pending. rewrite Hna, Hn.
  destruct (clear_normalized m n server u Hn Hs) as (scope & Hi & ->).
  assert (Has : get_object a "signatures" = Some [("server", JObject server); ("user", JObject signature)]).
  { apply get_object_Some. by rewrite Ha, aget_im_insert_eq. }
  destruct (clear_normalized a na server _ Hna Has) as (scope' & Hi' & ->).
  rewrite Hsame, Hi in Hi' by done. injection Hi' as <-.
  rewrite (object_or_empty_aget a m) by by apply Hsame. rewrite Ha.
  rewrite (im_insert_commute "type" "signatures") by done.
  rewrite (im_insert_commute "intent" "signatures"), im_insert_twice
    by (done || by rewrite aget_im_insert_ne).
  apply value_eqb_refl. apply normalize_intent_scope_wf in Hi; [|intros w; by apply wf_aget].
  assert (wf_value (JObject server)).
  { eapply (wf_get_object [("server", JObject server); ("user", u)] "server"); [|done].
    by apply (wf_get_object m "signatures"). }
  apply wf_im_insert, wf_object_or_empty, Hwf. apply wf_im_insert; [auto 6 with rust|].
  apply wf_object_literal; [done|]. wf_entries.
Qed.
End presented.

(** * Issuing succeeds *)

Section issuing.
Context `{!JsonDisplay, !JsonText, !Chrono, !Crypto}.

Lemma signing_input_total token scope :
  wf_value (JObject token) → normalize_intent_scope (aget "intent" token) = Ok scope →
  ∃ input, intent_token_signing_input token = Ok input.
Proof.
  intros Hwf Hs. unfold intent_token_signing_input.
  destruct (intent_token_core_payload token) as [core|] eqn:Hc; cycle 1.
  { unfold intent_token_core_payload in Hc. by rewrite Hs in Hc. }
  apply intent_token_core_wf in Hc; [|done]. apply write_value_total, wf_cons_literal; [done|]. wf_entries.
Qed.

Lemma issue_verified_total key rid rn now mandate user_id intent :
  aget "intent" mandate = Some (JObject intent) → wf_value (JObject intent) →
  normalize_intent_scope (Some (JObject intent)) = Ok intent →
  wf_value (JObject (object_or_empty mandate "subject")) →
  str_trimmed mandate "mandateId" ≠ "" →
  str_trimmed (object_or_empty mandate "validTime") "end" ≠ "" →
  ∃ token, issue_verified (Ok key) rid rn now mandate user_id = Ok token.
Proof.
  intros Hi Hwf Hidem Hsub Hid Hend. unfold issue_verified.
  destruct (normalize_intent_mandate mandate) as [n|] eqn:Hn; cycle 1.
  { unfold normalize_intent_mandate in Hn. by rewrite Hi, Hidem in Hn. }
  apply normalize_intent_mandate_ok in Hn as (scope & Hs & _ & Hni & _ & _ & Hother).
  rewrite Hi, Hidem in Hs. injection Hs as <-.
  assert (Hkey : ∀ k, bool_decide (k ∈ ["type"; "intent"; "signatures"; "userAuthorization"]) = false →
    aget k n = aget k mandate) by (intros k Hk%bool_decide_eq_false; auto).
  rewrite (str_trimmed_ext n mandate "mandateId") by (by apply Hkey).
  rewrite (object_or_empty_aget n mandate "subject") by (by apply Hkey).
  rewrite (object_or_empty_aget n mandate "validTime") by (by apply Hkey).
  rewrite (object_or_empty_object n "intent" intent Hni), !(proj2 (str_is_empty_false _)), Hidem by done.
  match goal with |- ∃ token, (let? input := intent_token_signing_input ?t in _) = _ =>
    assert (Htoken : wf_value (JObject t) ∧ aget "intent" t = Some (JObject intent)) end.
  { split; [|rewrite dict_literal by reflexivity; cbn [aget]; by decide_literals].
    apply wf_cons_literal; [done|]. wf_entries; [|apply wf_cons_literal; [done|]; wf_entries].
    destruct (get_object (object_or_empty mandate "subject") "agentKey") as [k|] eqn:Hk.
    - apply wf_im_insert; [apply wf_cons_literal; [done|]; wf_entries|]. by eapply wf_get_object.
    - apply wf_cons_literal; [done|]. wf_entries. }
  destruct Htoken as [Htw Hti]. destruct (signing_input_total _ intent Htw) as [input Hin];
    [by rewrite Hti|]. rewrite Hin. by eexists.
Qed.
End issuing.

(** * From the request to the token *)

Section flow.
Context `{!JsonDisplay, !JsonText, !Chrono, !ChronoLaws, !Crypto, !CryptoLaws}.

(** What a signed draft looks like. *)
Lemma signed_fields key draft m :
  wf_value (JObject draft) → sign_intent_mandate (Ok key) draft = Ok m →
  ∃ intent core payload u,
    wf_value (JObject m) ∧ aget "type" m = Some (JString INTENT_MANDATE_TYPE) ∧
    aget "intent" m = Some (JObject intent) ∧ wf_value (JObject intent) ∧
    normalize_intent_scope (Some (JObject intent)) = Ok intent ∧
    (∀ k, bool_decide (k ∈ ["type"; "intent"; "signatures"; "userAuthorization"]) = false →
       aget k m = aget k draft) ∧
    aget "userAuthorization" m = Some (JObject (object_or_empty draft "userAuthorization")) ∧
    aget "signatures" m = Some (JObject
      [("server", JObject (server_signature INTENT_SERVER_SIGN_ALGORITHM INTENT_MANDATE_SERVER_KEY_ID
          (ed25519_sign_text payload key))); ("user", JObject u)]) ∧
    intent_mandate_core_payload draft = Ok core ∧ intent_mandate_core_payload m = Ok core ∧
    server_signature_payload core = Ok payload.
Proof.
  intros Hwf Hsign. pose proof (sign_intent_mandate_wf _ _ _ Hwf Hsign) as Hmw.
  assert (Hw : ∀ w, aget "intent" draft = Some w → wf_value w) by (intros w; by apply wf_aget).
  apply sign_intent_mandate_ok in Hsign as (n & core & payload & Hn & Hc & Hp & Hsame & Hsigs).
  pose proof (intent_core_normalized _ _ Hw Hn) as Hnc.
  apply normalize_intent_mandate_ok in Hn as (intent & Hi & Ht & Hni & _ & Hu & Hother).
  pose proof (normalize_intent_scope_idem _ _ Hw Hi) as Hidem.
  assert (Hu' : aget "userAuthorization" m = Some (JObject (object_or_empty draft "userAuthorization")))
    by (by rewrite Hsame).
  assert (Hk : ∀ k, bool_decide (k ∈ ["type"; "intent"; "signatures"; "userAuthorization"]) = false →
    aget k m = aget k draft).
  { intros k Hk. apply bool_decide_eq_false in Hk. rewrite Hsame; [by apply Hother|]. by intros ->; destruct Hk; apply (bool_decide_unpack _). }
  exists intent, core, payload, (object_or_empty (object_or_empty draft "signatures") "user").
  split; [done|]. rewrite !Hsame by done. do 2 (split; [done|]).
  split; [by eapply normalize_intent_scope_wf|]. do 4 (split; [done|]). split; [by rewrite <-Hnc|].
  split; [|done]. rewrite <-Hc, Hnc. apply intent_core_ext.
  - by rewrite Hsame, Hni, Hidem, Hi.
  - by apply object_or_empty_object.
  - intros k Hk'. by apply Hk, bool_decide_eq_false_2.
Qed.

Context {S U : Type} (svc : IntentAuthorizationService S U).

(** The parameters a request is prepared with. *)
Definition intent_params (request : JsonDict) (agent : string) (validity : Z) : CreateIntentMandate :=
  let intent := object_or_empty request "intent" in
  mkCreateIntentMandate (request_server (is_server_id svc) request) agent (aget "actions" intent)
    (aget "executionPolicy" intent) validity "agent" (get_object request "agentPublicKey")
    (is_require_user_signature svc) (signature_method _ <$> is_user_signature_method svc)
    (method_policy _ <$> is_user_signature_method svc) (is_display_text_renderer svc).

Lemma prepare_mandate_parts key random now request id m user :
  prepare_mandate svc (Ok key) random now request (object_or_empty request "intent") = Ok (id, m, user) →
  ∃ parties validity, request_parties request = Ok parties ∧
    validity_seconds 3600 request = Ok validity ∧
    create_intent_mandate (Ok key) random now (intent_params request parties.1 validity) = Ok m ∧
    mandate_identifier m = Ok id.
Proof.
  unfold prepare_mandate. destruct (request_parties request) as [parties|]; [|done].
  destruct (validity_seconds _ _) as [validity|]; [|done]. intros Hcreate. exists parties, validity.
  assert (Hc : (let? mandate := create_intent_mandate (Ok key) random now (intent_params request parties.1 validity) in
    let? mandate_id := mandate_identifier mandate in Ok (mandate_id, mandate, parties.2)) = Ok (id, m, user)).
  { unfold intent_params. destruct (aget "executionPolicy" _) as [[]|]; try done; exact Hcreate. }
  destruct (create_intent_mandate _ _ _ _) as [m'|]; [|done].
  destruct (mandate_identifier m') as [id'|] eqn:Hid; [|done]. by injection Hc as -> -> _.
Qed.

Lemma prepare_ok key random now request st r st1 m :
  prepare svc (Ok key) random now request st = (Ok r, st1) → ir_mandate r = Some m →
  ∃ parties validity id, request_parties request = Ok parties ∧
    validity_seconds 3600 request = Ok validity ∧
    create_intent_mandate (Ok key) random now (intent_params request parties.1 validity) = Ok m ∧
    mandate_identifier m = Ok id ∧ ist_pending st1 !! id = Some (mkPendingIntent request m).
Proof.
  unfold prepare. destruct (prepare_inner _ _ _ _ _ _ _) as [[[[id m'] o]|e] s] eqn:Hp; cycle 1.
  { intros Hr Hm. exfalso. destruct e as [e| | | | |]; simpl in Hr;
      try (destruct (is_user_credential_not_registered e)); by simplify_eq/=. }
  intros [= <- <-] [= ->]. unfold prepare_inner in Hp.
  destruct (prepare_mandate _ _ _ _ _ _) as [[[id' m0] user]|] eqn:Hprep; [|done].
  destruct (options_for _ _ _ _ _) as [[o'|] s']; [|done]. simplify_eq/=.
  apply prepare_mandate_parts in Hprep as (parties & validity & Hpa & Hv & Hc & Hid).
  exists parties, validity, id. do 4 (split; [done|]). cbn [ist_pending]. by rewrite lookup_insert_eq.
Qed.

(** The authorization policy of a draft, as the checks read it. *)
Lemma policy_required req method policy :
  aget "required" (user_authorization_policy req method policy) = Some (JBool req).
Proof. by destruct req. Qed.

Lemma policy_method method policy :
  str_trimmed (user_authorization_policy true method policy) "signatureMethod" = trim method.
Proof. by apply str_trimmed_string. Qed.

Lemma format_iso_z_text epoch :
  is_Some (format_utc epoch) →
  parse_iso_z (format_iso_z epoch) = Some epoch ∧ format_iso_z epoch ≠ "" ∧
  trim (format_iso_z epoch) = format_iso_z epoch.
Proof. intros [t Ht]. unfold format_iso_z. rewrite Ht. by apply format_utc_text. Qed.

(** A mandate presented within its validity. *)
Lemma validity_ok m start fin server now :
  aget "validTime" m = Some (JObject [("start", JString (format_iso_z start)); ("end", JString (format_iso_z fin))]) →
  aget "server" m = Some (JString server) → is_Some (format_utc start) → is_Some (format_utc fin) →
  (start ≤ now ≤ fin)%Z → verify_intent_validity m (Some server) now = Ok ().
Proof.
  intros Hv Hs (Hps & Hns & _)%format_iso_z_text (Hpe & Hne & _)%format_iso_z_text Hnow.
  unfold verify_intent_validity. rewrite (object_or_empty_object _ _ _ Hv). cbn [aget]. decide_literals.
  unfold truthy. cbn [mbind option_bind is_truthy]. rewrite !(proj2 (str_is_empty_false _)) by done.
  cbn [negb fmap option_fmap option_map py_str]. rewrite Hps, Hpe.
  rewrite (proj2 (Z.ltb_ge _ _)), (proj2 (Z.ltb_ge _ _)) by lia.
  by rewrite (str_trimmed_string _ _ _ Hs), bool_decide_true.
Qed.

(** The server's side of a presented mandate: what the prepared one fixes. *)
Lemma presented_verified key draft m context signature expected server required now
    (method : option (A4PUserSignatureMethod S)) s s2 :
  wf_value (JObject draft) → sign_intent_mandate (Ok key) draft = Ok m →
  aget "required" (object_or_empty draft "userAuthorization") = Some (JBool required) →
  (required = true → str_trimmed (object_or_empty draft "userAuthorization") "signatureMethod" ≠ "") →
  intent_user_signature_context m expected = Ok context →
  verify_user_signature context signature method required s = (Ok (), s2) →
  verify_intent_validity m (Some server) now = Ok () →
  verify_intent_mandate (Ok key) now (attach_user_signature m signature)
    (mkVerifyMandate S (Some server) expected required method) s = (Ok (), s2).
Proof.
  intros Hwf Hsign Hreq Hmethod Hctx Hver Hvalid.
  destruct (signed_fields _ _ _ Hwf Hsign) as (intent & core & payload & u & Hmw & _ & Hi & _ & _ & _ &
    Hua & Hsigs & Hcd & Hcm & Hp).
  rewrite (signed_mandate_verifies key draft m signature core payload required) by
    (done || by intros w; apply wf_aget).
  cbn [vm_expected_user_id vm_expected_server vm_user_signature_method vm_require_user_signature].
  assert (Hcu : object_or_empty core "userAuthorization" = object_or_empty draft "userAuthorization").
  { rewrite intent_core_eq in Hcd. destruct (normalize_intent_scope _); [|done].
    injection Hcd as <-. apply object_or_empty_object. cbn [aget]. by decide_literals. }
  rewrite (presented_context_ok m core _ (JObject u) required expected (λ w, wf_aget _ _ w Hmw) Hcm Hsigs)
    in Hctx by (by rewrite Hcu).
  injection Hctx as <-. by rewrite Hver, Hvalid.
Qed.

(** The draft behind a prepared mandate. *)
Lemma prepared_draft key random now request parties validity m :
  wf_value (JObject request) →
  (∀ method, is_user_signature_method svc = Some method → wf_value (JObject (method_policy _ method))) →
  create_intent_mandate (Ok key) random now (intent_params request parties validity) = Ok m →
  ∃ draft, sign_intent_mandate (Ok key) draft = Ok m ∧ wf_value (JObject draft) ∧
    aget "required" (object_or_empty draft "userAuthorization") = Some (JBool (is_require_user_signature svc)) ∧
    (is_require_user_signature svc = true →
       str_trimmed (object_or_empty draft "userAuthorization") "signatureMethod" ≠ "") ∧
    aget "server" draft = Some (JString (request_server (is_server_id svc) request)) ∧
    aget "validTime" draft = Some (JObject [("start", JString (format_iso_z now));
      ("end", JString (format_iso_z (i64_add now validity)))]) ∧
    object_or_empty draft "userAuthorization" = user_authorization_policy (is_require_user_signature svc)
      (trim (default "" (signature_method _ <$> is_user_signature_method svc)))
      (method_policy _ <$> is_user_signature_method svc).
Proof.
  intros Hwf Hpol Hcreate. pose proof (wf_object_or_empty _ "intent" Hwf) as Hint.
  apply create_intent_mandate_ok in Hcreate as (draft & Hsign & Hdw & _ & Hs & Hv & Hu & Hne); cycle 1.
  { intros w. by apply wf_aget. }
  { intros w. by apply wf_aget. }
  { intros k. by apply wf_get_object. }
  { simpl. destruct (is_user_signature_method svc) as [method|]; [|done].
    intros p [= <-]. by apply Hpol. }
  exists draft. split; [done|]. split; [done|]. rewrite (object_or_empty_object _ _ _ Hu).
  split; [apply policy_required|]. split; [|done].
  intros Hr. specialize (Hne Hr). cbn [intent_params ci_require_user_signature]. rewrite Hr.
  rewrite policy_method, trim_idem. exact Hne.
Qed.

(** The user a token is issued to. *)
Lemma request_user request parties :
  request_parties request = Ok parties →
  let user := match truthy (aget "userId" request) with Some v => py_str v | None => "user:unknown" end in
  (if str_is_empty (trim user) then "user:unknown" else trim user) = str_trimmed request "userId".
Proof.
  unfold request_parties, str_trimmed, str_or_empty, truthy.
  destruct (str_is_empty (trim match aget "agentId" request with Some _ => _ | None => _ end)); [done|].
  destruct (aget "userId" request) as [v|]; cbn [mbind option_bind]; [|done].
  destruct (is_truthy v); [|done]. by destruct (str_is_empty (trim (py_str v))).
Qed.

(** Completing what was prepared and then signed: the token is issued for what
    the mandate says. *)
Lemma prepared_completes key random now request st r st1 m validity context signature s2 rid rn nv ni :
  wf_value (JObject request) →
  (∀ method, is_user_signature_method svc = Some method → wf_value (JObject (method_policy _ method))) →
  prepare svc (Ok key) random now request st = (Ok r, st1) → ir_mandate r = Some m →
  validity_seconds 3600 request = Ok validity →
  is_Some (format_utc now) → is_Some (format_utc (i64_add now validity)) →
  (now ≤ nv ≤ i64_add now validity)%Z →
  intent_user_signature_context m (Some (str_or_empty request "userId")) = Ok context →
  verify_user_signature context signature (is_user_signature_method svc) (is_require_user_signature svc)
    (ist_method st1) = (Ok (), s2) →
  ∃ token st2 intent user,
    complete svc (Ok key) rid rn nv ni
      [("signedMandate", JObject (attach_user_signature m signature))] st1 =
      (Ok (mkIntentAuthorizationResponse (Some (attach_user_signature m signature)) [] (Some token)
         (Some (vr_ok None)) true None), st2) ∧
    aget "intent" m = Some (JObject intent) ∧
    issue_verified (Ok key) rid rn ni (attach_user_signature m signature) user = Ok token ∧
    parse_iso_z (str_trimmed (object_or_empty m "validTime") "end") = Some (i64_add now validity) ∧
    (if str_is_empty (trim user) then "user:unknown" else trim user) = str_trimmed request "userId".
Proof.
  intros Hwf Hpol Hprep Hm Hvalid Hnow Hfin Hnv Hctx Hver.
  destruct (prepare_ok _ _ _ _ _ _ _ _ Hprep Hm) as (parties & v & id & Hpa & Hv & Hcreate & Hid & Hpend).
  rewrite Hvalid in Hv. injection Hv as <-.
  destruct (prepared_draft _ _ _ _ _ _ _ Hwf Hpol Hcreate) as (draft & Hsign & Hdw & Hreq & Hmeth & Hds & Hdv & _).
  destruct (signed_fields _ _ _ Hdw Hsign) as (intent & core & payload & u & Hmw & Ht & Hi & Hiw & Hidem &
    Hk & _ & Hsigs & _ & _ & _).
  rewrite <-(Hk "server") in Hds by done. rewrite <-(Hk "validTime") in Hdv by done.
  set (a := attach_user_signature m signature).
  assert (Ha : ∀ k, k ≠ "signatures" → aget k a = aget k m) by (intros; by apply attach_other).
  assert (Hida : mandate_identifier a = Ok id) by (by rewrite (mandate_identifier_ext a m), Hid; rewrite ?Ha).
  assert (Hmid : str_trimmed a "mandateId" ≠ "").
  { unfold mandate_identifier in Hida. rewrite Ha, Ht in Hida by done. cbn [mbind option_bind as_str] in Hida.
    rewrite decide_True in Hida by done. by apply str_is_empty_false; destruct (str_is_empty _). }
  assert (Hvt : object_or_empty a "validTime" = object_or_empty m "validTime") by (by apply object_or_empty_aget, Ha).
  assert (Hend : str_trimmed (object_or_empty m "validTime") "end" = format_iso_z (i64_add now validity)).
  { rewrite (object_or_empty_object m "validTime" _) by exact Hdv.
    rewrite (str_trimmed_string _ _ (format_iso_z (i64_add now validity))) by (cbn [aget]; by decide_literals).
    by apply format_iso_z_text. }
  assert (Hsub : object_or_empty a "subject" = object_or_empty m "subject") by (by apply object_or_empty_aget, Ha).
  destruct (format_iso_z_text _ Hfin) as (Hparse & Hne & _).
  set (user := match truthy (aget "userId" request) with Some v => py_str v | None => "user:unknown" end).
  destruct (issue_verified_total key rid rn ni a user intent) as [token Htoken];
    [by rewrite Ha|done|done|rewrite Hsub; by apply wf_object_or_empty|done|by rewrite Hvt, Hend|].
  pose proof (presented_verified _ _ _ _ _ _ _ _ nv _ _ _ Hdw Hsign Hreq Hmeth Hctx Hver
    (validity_ok _ _ _ _ nv Hdv Hds Hnow Hfin Hnv)) as Hverified.
  eexists token, _, intent, user. split; [|split; [done|]; split; [done|]; split; [by rewrite Hend|]].
  - unfold complete, get_object at 1. cbn [aget]. decide_literals. cbn [mbind option_bind as_object].
    fold a. rewrite Hida, Hpend. cbn [pi_mandate pi_request].
    rewrite (presented_matches m signature _ _ Hmw) by
      (by rewrite ?Hsigs || by apply get_object_Some || (unfold normalize_intent_mandate; rewrite Hi, Hidem; by eexists)).
    cbn [negb]. fold a in Hverified. rewrite Hverified. unfold issue_intent_token. cbn [it_verified_mandate it_user_id].
    fold user. by rewrite Htoken.
  - exact (request_user request parties Hpa).
Qed.

(** An intent the server prepared goes through: when the user's signature
    for the mandate is accepted by the method and comes back within the
    mandate's validity, completing approves it and issues a token, and that
    token authorizes, until the mandate's end, exactly the calls of the
    mandate's scope, for its agent and the requesting user. *)
Theorem prepared_intent_completes key random now request st r st1 m validity context signature s2
    rid rn nv ni :
  wf_value (JObject request) →
  (∀ method, is_user_signature_method svc = Some method → wf_value (JObject (method_policy _ method))) →
  prepare svc (Ok key) random now request st = (Ok r, st1) → ir_mandate r = Some m →
  validity_seconds 3600 request = Ok validity →
  is_Some (format_utc now) → is_Some (format_utc (i64_add now validity)) →
  (now ≤ nv ≤ i64_add now validity)%Z →
  intent_user_signature_context m (Some (str_or_empty request "userId")) = Ok context →
  verify_user_signature context signature (is_user_signature_method svc) (is_require_user_signature svc)
    (ist_method st1) = (Ok (), s2) →
  ∃ token st2 intent,
    complete svc (Ok key) rid rn nv ni
      [("signedMandate", JObject (attach_user_signature m signature))] st1 =
      (Ok (mkIntentAuthorizationResponse (Some (attach_user_signature m signature)) [] (Some token)
         (Some (vr_ok None)) true None), st2) ∧
    aget "intent" m = Some (JObject intent) ∧
    ∀ options nt, verify_intent_token (Ok key) nt token options = Ok () ↔
      admits (i64_add now validity) (str_trimmed (object_or_empty m "subject") "id")
        (agent_key_id (object_or_empty m "subject")) (str_trimmed request "userId") intent options nt.
Proof.
  intros Hwf Hpol Hprep Hm Hvalid Hnow Hfin Hnv Hctx Hver.
  destruct (prepared_completes key random now request st r st1 m validity context signature s2 rid rn nv ni)
    as (token & st2 & intent & user & Hcomplete & Hi & Htoken & Hend & Hu); [done..|].
  exists token, st2, intent. do 2 (split; [done|]). intros options nt.
  assert (Ha : ∀ k, k ≠ "signatures" → aget k (attach_user_signature m signature) = aget k m)
    by (intros; by apply attach_other).
  rewrite (issued_token_authorizes _ _ _ _ _ _ _ intent (i64_add now validity) nt options Htoken);
    [|by rewrite Ha|by rewrite (object_or_empty_aget _ m "validTime") by by apply Ha].
  by rewrite Hu, (object_or_empty_aget _ m "subject") by by apply Ha.
Qed.
End flow.

(** * The user of a mandate *)

Section user.
Context `{!JsonDisplay, !JsonText, !Chrono, !Crypto}.

Lemma user_signature_context_expected type n expected context :
  user_signature_context type n expected = Ok context → expected_user_id context = expected.
Proof.
  unfold user_signature_context. destruct (aget "required" _) as [[| |b| | |]|]; try done.
  destruct (_ && _); [done|]. destruct (server_signed_mandate_without_user_signature _); [|done].
  by intros [= <-].
Qed.

(** A verified mandate was accepted by the method, for the expected user. *)
Lemma verified_user {S} key now m (options : VerifyMandate S) s s' :
  verify_intent_mandate key now m options s = (Ok (), s') →
  ∃ context signature, expected_user_id context = vm_expected_user_id options ∧
    verify_user_signature context signature (vm_user_signature_method options)
      (vm_require_user_signature options) s = (Ok (), s').
Proof.
  unfold verify_intent_mandate. destruct (negb _); [done|].
  destruct (normalize_intent_mandate m) as [n|]; [|done].
  destruct (verify_server_signature _ _ _ _); [|done].
  destruct (intent_user_signature_context _ _) as [context|] eqn:Hctx; [|done].
  destruct (verify_user_signature _ _ _ _ _) as [[[]|] s1] eqn:Hv; [|done]. intros [= _ <-].
  exists context. eexists. split; [|exact Hv]. unfold intent_user_signature_context in Hctx.
  destruct (normalize_intent_mandate n); [|done]. by eapply user_signature_context_expected.
Qed.

Context {C U : Type} (store : A4PCredentialStore C) `{!CredentialStoreSpec store}.
Context (svc : IntentAuthorizationService C U).

(** A user id given with white space around it gets a mandate to sign that
    can never be completed: preparing looks the user's credentials up under
    the trimmed id, while completing compares the registered id, which is
    trimmed, with the id as it was given. *)
Theorem padded_user_never_completes key rid rn nv ni request m id p st r st' :
  is_user_signature_method svc = Some (RegisteredEd25519Method store) →
  is_require_user_signature svc = true →
  ed25519_records_ok (held_records (ist_method st)) →
  get_object request "signedMandate" = Some m → mandate_identifier m = Ok id →
  ist_pending st !! id = Some p →
  trim (str_or_empty (pi_request p) "userId") ≠ str_or_empty (pi_request p) "userId" →
  complete svc key rid rn nv ni request st = (Ok r, st') → ir_approved r = false.
Proof.
  intros Hmethod Hreq [Hok _] Hm Hid Hp Hpad. unfold complete. rewrite Hm, Hid, Hp, Hmethod, Hreq.
  destruct (negb _); [by intros [= <- _]|].
  destruct (verify_intent_mandate _ _ _ _ _) as [[[]|] s] eqn:Hv; [|by intros [= <- _]].
  exfalso. apply verified_user in Hv as (context & signature & Hexp & Hv).
  apply ed25519_accepted_by_owner in Hv as (record & _ & _ & _ & Hget & Hed & Huser & _).
  specialize (Huser _ Hexp). apply get_held in Hget as [_ Hfind]. specialize (Hfind _ eq_refl).
  symmetry in Hfind. apply find_record_Some in Hfind as [Hin _].
  apply Hpad. rewrite <-Huser. by apply Hok.
Qed.
End user.
