(* ===== verification/OperationService.v ===== *)
(** The operation authorization service
    (A4P/rust-sdk/src/operation/service.rs): one-time authorization of an exact
    operation. *)
From S2P Require Import Prelude F64 RustMap RustStr Json A4PUtil IntentScope UsageStore Canonical A4PCrypto Mandate IntentMandate IntentToken IntentService Ticket.

Record OperationAuthorizationChallenge := mkOperationChallenge {
  oc_mandate : option JsonDict;
  oc_signing_options : JsonDict;
  oc_verification_result : option VerificationResult;
  oc_reject_reason : option string
}.

Record OperationAuthorizationResult := mkOperationResult {
  or_operation_id : option string;
  or_approved : bool;
  or_verification_result : option VerificationResult;
  or_reject_reason : option string
}.

Record PendingOperation := mkPendingOperation {
  po_request : JsonDict;
  po_operation : JsonDict;
  po_mandate : JsonDict;
  po_expire_at_epoch : Z
}.

Record OperationAuthorizationService (S : Type) := mkOperationService {
  os_server_id : string;
  os_display_text_renderer : option (JsonDict → string);
  os_require_user_signature : bool;
  os_user_signature_method : option (A4PUserSignatureMethod S)
}.
Arguments os_server_id {S}.
Arguments os_display_text_renderer {S}.
Arguments os_require_user_signature {S}.
Arguments os_user_signature_method {S}.

Record OperationState (S : Type) := mkOperationState {
  ost_pending : gmap string PendingOperation;
  ost_method : S
}.
Arguments mkOperationState {S}.
Arguments ost_pending {S}.
Arguments ost_method {S}.

Definition operation_rejected (reason code : string) : OperationAuthorizationResult :=
  mkOperationResult None false (Some (vr_fail reason code)) (Some reason).

Definition challenge_rejected (reason code : string) : OperationAuthorizationChallenge :=
  mkOperationChallenge None [] (Some (vr_fail reason code)) (Some reason).

Section service.
Context `{!JsonDisplay, !JsonText, !Chrono, !Crypto}.
Context {S : Type} (svc : OperationAuthorizationService S).
Implicit Types st : OperationState S.

Definition set_pending_expiry (operation_id : string) (expire_at_epoch : Z) st : bool * OperationState S :=
  match ost_pending st !! operation_id with
  | Some p =>
      (true, mkOperationState
         (<[operation_id := mkPendingOperation (po_request p) (po_operation p) (po_mandate p)
            expire_at_epoch]> (ost_pending st)) (ost_method st))
  | None => (false, st)
  end.

Definition prune_expired (now : Z) st : OperationState S :=
  mkOperationState
    (filter (λ kv : string * PendingOperation, now < po_expire_at_epoch kv.2)%Z (ost_pending st))
    (ost_method st).

(** The operation and mandate of a request, the mandate's id and the user. *)
Definition prepare_operation_mandate (signing_key : result SigningKey A4PError) (random : string)
    (now : Z) (request_payload : JsonDict) :
    result (string * JsonDict * JsonDict * string) A4PError :=
  let? parties := request_parties request_payload in
  let? validity := validity_seconds 300 request_payload in
  let? operation := normalize_operation (aget "operation" request_payload) in
  let server := request_server (os_server_id svc) request_payload in
  let? mandate := create_operation_mandate signing_key random now (mkCreateOperationMandate operation
    server parties.1 validity (get_object request_payload "agentPublicKey")
    (os_require_user_signature svc) (signature_method _ <$> os_user_signature_method svc)
    (method_policy _ <$> os_user_signature_method svc) (os_display_text_renderer svc)) in
  let? operation_id := mandate_identifier mandate in
  Ok (operation_id, operation, mandate, parties.2).

Definition prepare_operation_inner (signing_key : result SigningKey A4PError) (random : string)
    (now : Z) (request_payload : JsonDict) (s : S) :
    result (string * JsonDict * JsonDict * JsonDict) A4PError * S :=
  match prepare_operation_mandate signing_key random now request_payload with
  | Err error => (Err error, s)
  | Ok (operation_id, operation, mandate, user_id) =>
      let (signing_options, s) :=
        options_for (os_user_signature_method svc) (os_require_user_signature svc) s user_id mandate in
      (let? signing_options := signing_options in
       Ok (operation_id, operation, mandate, signing_options), s)
  end.

(** [now_prune] and [now] are the readings of pruning and of creating. *)
Definition prepare_operation (signing_key : result SigningKey A4PError) (random : string)
    (now_prune now : Z) (request_payload : JsonDict) st :
    result OperationAuthorizationChallenge A4PError * OperationState S :=
  let st := prune_expired now_prune st in
  let (prepared, s) := prepare_operation_inner signing_key random now request_payload (ost_method st) in
  match prepared with
  | Ok (operation_id, operation, mandate, signing_options) =>
      let until := default "" ((λ v, str_or_empty v "until") <$> get_object mandate "validTime") in
      let expire_at_epoch := default 0%Z (parse_iso_z until) in
      (Ok (mkOperationChallenge (Some mandate) signing_options None None),
       mkOperationState
         (<[operation_id := mkPendingOperation request_payload operation mandate expire_at_epoch]>
            (ost_pending st)) s)
  | Err error =>
      let value_error :=
        if is_value_error error then Ok (challenge_rejected (a4p_message error) "MANDATE_INVALID")
        else Err error in
      (match error with
       | AProtocol e =>
           if is_user_credential_not_registered e then Ok (challenge_rejected (pe_message e) (pe_code e))
           else value_error
       | _ => value_error
       end, mkOperationState (ost_pending st) s)
  end.

Definition complete_operation (signing_key : result SigningKey A4PError) (now_prune now : Z)
    (request_payload : JsonDict) st : OperationAuthorizationResult * OperationState S :=
  let st := prune_expired now_prune st in
  match get_object request_payload "signedMandate" with
  | None => (operation_rejected "signedMandate missing" "MANDATE_INVALID", st)
  | Some signed_mandate =>
      match mandate_identifier signed_mandate with
      | Err error => (operation_rejected (a4p_message error) "MANDATE_INVALID", st)
      | Ok operation_id =>
          match ost_pending st !! operation_id with
          | None =>
              (mkOperationResult None false
                 (Some (vr_fail "No pending operation authorization" "AUTHORIZATION_NOT_PENDING"))
                 (Some ("No pending operation authorization: " +:+ operation_id)), st)
          | Some pending =>
              match normalize_operation (aget "operation" request_payload) with
              | Err error => (operation_rejected (a4p_message error) "OPERATION_INVALID", st)
              | Ok current_operation =>
                  if negb (dict_eqb current_operation (po_operation pending)) then
                    (operation_rejected
                       "Current operation does not match pending operation authorization"
                       "OPERATION_PENDING_MISMATCH", st)
                  else if negb (mandate_matches_pending signed_mandate (po_mandate pending)
                                  normalize_operation_mandate) then
                    (operation_rejected
                       "Signed mandate does not match pending operation authorization"
                       "MANDATE_PENDING_MISMATCH", st)
                  else
                    match normalize_operation (aget "operation" signed_mandate) with
                    | Err error => (operation_rejected (a4p_message error) "MANDATE_INVALID", st)
                    | Ok signed_operation =>
                        if negb (dict_eqb signed_operation current_operation) then
                          (operation_rejected
                             "Signed mandate operation does not match current operation"
                             "OPERATION_MANDATE_MISMATCH", st)
                        else
                          let expected_user_id := str_or_empty (po_request pending) "userId" in
                          let (verification, s) :=
                            verify_operation_mandate_for_completion signing_key now signed_mandate
                              (mkVerifyOperationMandate S (Some current_operation)
                                 (Some expected_user_id) (os_require_user_signature svc)
                                 (os_user_signature_method svc)) (ost_method st) in
                          match verification with
                          | Err reason =>
                              (operation_rejected reason (error_code reason "MANDATE"),
                               mkOperationState (ost_pending st) s)
                          | Ok _ =>
                              (mkOperationResult (Some operation_id) true (Some (vr_ok None)) None,
                               mkOperationState (delete operation_id (ost_pending st)) s)
                          end
                    end
              end
          end
      end
  end.

(** * One-time tickets *)

Inductive OperationCall :=
| CallPrepareOperation (signing_key : result SigningKey A4PError) (random : string)
    (now_prune now : Z) (request : JsonDict)
| CallCompleteOperation (signing_key : result SigningKey A4PError) (now_prune now : Z)
    (request : JsonDict).

Inductive OperationAnswer :=
| AnswerChallenge (r : result OperationAuthorizationChallenge A4PError)
| AnswerResult (r : OperationAuthorizationResult).

Definition operation_call (c : OperationCall) st : OperationAnswer * OperationState S :=
  match c with
  | CallPrepareOperation key random np now request =>
      let (r, st) := prepare_operation key random np now request st in (AnswerChallenge r, st)
  | CallCompleteOperation key np now request =>
      let (r, st) := complete_operation key np now request st in (AnswerResult r, st)
  end.

Fixpoint operation_calls (cs : list OperationCall) st : list OperationAnswer * OperationState S :=
  match cs with
  | [] => ([], st)
  | c :: cs =>
      let (a, st) := operation_call c st in let (l, st) := operation_calls cs st in (a :: l, st)
  end.

(** What an answer means for the operations pending. *)
Definition operation_event (a : OperationAnswer) : ticket_event :=
  match a with
  | AnswerChallenge (Ok r) =>
      match oc_mandate r with
      | Some m => match mandate_identifier m with Ok id => Issued id | Err _ => Quiet end
      | None => Quiet
      end
  | AnswerResult r =>
      match or_operation_id r with Some id => if or_approved r then Redeemed id else Quiet | None => Quiet end
  | _ => Quiet
  end.

Notation operation_ids st := (dom (ost_pending st) : gset string).

Lemma prune_expired_ids now st : operation_ids (prune_expired now st) ⊆ operation_ids st.
Proof. apply dom_filter_subseteq. Qed.

Lemma prepare_operation_inner_id key random now request s id op m options s' :
  prepare_operation_inner key random now request s = (Ok (id, op, m, options), s') →
  mandate_identifier m = Ok id.
Proof.
  unfold prepare_operation_inner, prepare_operation_mandate.
  destruct (request_parties _) as [parties|]; [|done].
  destruct (validity_seconds _ _) as [validity|]; [|done].
  destruct (normalize_operation _) as [operation|]; [|done].
  destruct (create_operation_mandate _ _ _ _) as [mandate|]; [|done].
  destruct (mandate_identifier mandate) as [i|] eqn:Hi; [|done].
  destruct (options_for _ _ _ _ _) as [[o'|] s1]; intros; by simplify_eq/=.
Qed.

Lemma prepare_operation_ticket key random np now request st r st' :
  prepare_operation key random np now request st = (r, st') →
  ticket_step (operation_ids st) (operation_event (AnswerChallenge r)) (operation_ids st').
Proof.
  unfold prepare_operation. pose proof (prune_expired_ids np st) as Hprune.
  destruct (prepare_operation_inner _ _ _ _ _) as [[[[[id op] m] o]|e] s] eqn:Hp.
  - apply prepare_operation_inner_id in Hp. intros [= <- <-]. simpl. rewrite Hp, dom_insert_L.
    constructor. set_solver.
  - intros [= <- <-]. destruct e as [e| | | | |]; simpl;
      [destruct (is_user_credential_not_registered e)|..]; by constructor.
Qed.

(** An approval: everything that was compared and checked for it. *)
Lemma complete_operation_approved key np now request st r st' :
  complete_operation key np now request st = (r, st') →
  (or_approved r = false ∧ operation_event (AnswerResult r) = Quiet ∧ ost_pending st' = ost_pending (prune_expired np st)) ∨
  ∃ m id p op signed_op,
    get_object request "signedMandate" = Some m ∧ mandate_identifier m = Ok id ∧
    ost_pending (prune_expired np st) !! id = Some p ∧
    normalize_operation (aget "operation" request) = Ok op ∧ dict_eqb op (po_operation p) = true ∧
    mandate_matches_pending m (po_mandate p) normalize_operation_mandate = true ∧
    normalize_operation (aget "operation" m) = Ok signed_op ∧ dict_eqb signed_op op = true ∧
    (verify_operation_mandate_for_completion key now m
      (mkVerifyOperationMandate S (Some op) (Some (str_or_empty (po_request p) "userId"))
         (os_require_user_signature svc) (os_user_signature_method svc)) (ost_method st)).1 = Ok () ∧
    r = mkOperationResult (Some id) true (Some (vr_ok None)) None ∧
    ost_pending st' = delete id (ost_pending (prune_expired np st)).
Proof.
  unfold complete_operation. set (st1 := prune_expired np st).
  destruct (get_object request _) as [m|] eqn:Hm; [|intros [= <- <-]; by left].
  destruct (mandate_identifier m) as [id|] eqn:Hid; [|intros [= <- <-]; by left].
  destruct (ost_pending st1 !! id) as [p|] eqn:Hp; [|intros [= <- <-]; by left].
  destruct (normalize_operation (aget "operation" request)) as [op|] eqn:Hop; [|intros [= <- <-]; by left].
  destruct (dict_eqb op _) eqn:Heq; [|intros [= <- <-]; by left].
  destruct (mandate_matches_pending _ _ _) eqn:Hmatch; [|intros [= <- <-]; by left].
  destruct (normalize_operation (aget "operation" m)) as [sop|] eqn:Hsop; [|intros [= <- <-]; by left].
  destruct (dict_eqb sop op) eqn:Hseq; [|intros [= <- <-]; by left]. cbn [negb].
  destruct (verify_operation_mandate_for_completion _ _ _ _ _) as [[[]|reason] s] eqn:Hv;
    intros [= <- <-]; [right|by left].
  exists m, id, p, op, sop. do 8 (split; [done|]). split; [|done].
  change (ost_method st) with (ost_method st1). by rewrite Hv.
Qed.

Lemma complete_operation_ticket key np now request st r st' :
  complete_operation key np now request st = (r, st') →
  ticket_step (operation_ids st) (operation_event (AnswerResult r)) (operation_ids st').
Proof.
  pose proof (prune_expired_ids np st) as Hprune.
  intros [(_ & -> & ->)|(m & id & p & op & sop & _ & _ & Hp & _ & _ & _ & _ & _ & _ & -> & ->)]%complete_operation_approved;
    [by constructor|].
  apply elem_of_dom_2 in Hp. simpl. rewrite dom_delete_L. constructor; set_solver.
Qed.

Lemma operation_call_ticket c st a st' :
  operation_call c st = (a, st') → ticket_step (operation_ids st) (operation_event a) (operation_ids st').
Proof.
  destruct c; simpl.
  - destruct (prepare_operation _ _ _ _ _ _) eqn:Hc. intros [= <- <-]. by eapply prepare_operation_ticket.
  - destruct (complete_operation _ _ _ _ _) eqn:Hc. intros [= <- <-]. by eapply complete_operation_ticket.
Qed.

(** C23: The service implements one-time tickets: every sequence of its calls
    is a run of the ticket machine, in which handing out a mandate issues a
    ticket and approving one redeems it, so no authorization is approved
    twice. *)
Theorem operation_service_refines_tickets cs st l st' :
  operation_calls cs st = (l, st') →
  ticket_steps (operation_ids st) (operation_event <$> l) (operation_ids st').
Proof.
  revert st l. induction cs as [|c cs IH]; intros st l; simpl; [intros [= <- <-]; constructor|].
  destruct (operation_call c st) as [a st1] eqn:Hc. destruct (operation_calls cs st1) as [l1 st2] eqn:Hl.
  intros [= <- <-]. econstructor; [by eapply operation_call_ticket|by apply IH].
Qed.

(** What is approved is what was prepared: an operation is approved only
    while the authorization is pending and not expired, for the very operation
    that was prepared, that the request repeats and that the mandate signed by
    the server carries; and the approval uses the authorization up. *)
Theorem approved_operation_was_prepared key np now request st r st' :
  complete_operation key np now request st = (r, st') → or_approved r = true →
  ∃ id p m op signed_op,
    or_operation_id r = Some id ∧ ost_pending st !! id = Some p ∧ (np < po_expire_at_epoch p)%Z ∧
    normalize_operation (aget "operation" request) = Ok op ∧ dict_eqb op (po_operation p) = true ∧
    get_object request "signedMandate" = Some m ∧
    normalize_operation (aget "operation" m) = Ok signed_op ∧ dict_eqb signed_op op = true ∧
    mandate_matches_pending m (po_mandate p) normalize_operation_mandate = true ∧
    ost_pending st' !! id = None.
Proof.
  intros [(Hno & _)|(m & id & p & op & sop & Hm & Hid & Hp & Hop & Heq & Hmatch & Hsop & Hseq & _ & -> & Hst)]%complete_operation_approved;
    [congruence|intros _].
  apply map_lookup_filter_Some in Hp as [Hp Hlive]. exists id, p, m, op, sop.
  do 9 (split; [done|]). by rewrite Hst, lookup_delete_eq.
Qed.
End service.
