(* ===== verification/A4PServer.v ===== *)
(** The server facade (A4P/rust-sdk/src/server.rs) and the user's side
    (src/user_authorizer.rs): building a server, its eight operations over one
    shared state, the trust configuration it publishes, checking and signing a
    forwarded mandate.

    The server and the user's side together: what the server signs, a user who
    trusts its published keys accepts; what that user signs, the server
    completes. *)
From S2P Require Import Prelude RustMap RustStr F64 Json A4PUtil IntentScope Canonical A4PCrypto WebAuthnData CredentialStore Mandate Ed25519 WebAuthn IntentMandate IntentToken IntentService IntentFlow OperationService.

Definition DEFAULT_SERVER_ID : string := "local://a4p".

(** [A4PServerBuilder]. *)
Record A4PServerBuilder (S U : Type) := mkServerBuilder {
  sb_server_id : option string;
  sb_user_signature_method : option (A4PUserSignatureMethod S);
  sb_intent_display_text_renderer : option (JsonDict → string);
  sb_operation_display_text_renderer : option (JsonDict → string);
  sb_require_user_signature : option bool;
  sb_intent_token_usage_store : option (A4PIntentTokenUsageStore U)
}.
Arguments sb_server_id {S U}.
Arguments sb_user_signature_method {S U}.
Arguments sb_intent_display_text_renderer {S U}.
Arguments sb_operation_display_text_renderer {S U}.
Arguments sb_require_user_signature {S U}.
Arguments sb_intent_token_usage_store {S U}.

(** [A4PServer]: the configuration both services share. *)
Record A4PServer (S U : Type) := mkServer {
  sv_server_id : string;
  sv_user_signature_method : option (A4PUserSignatureMethod S);
  sv_require_user_signature : bool;
  sv_intent_token_usage_store : A4PIntentTokenUsageStore U;
  sv_intent : IntentAuthorizationService S U;
  sv_operation : OperationAuthorizationService S
}.
Arguments sv_server_id {S U}.
Arguments sv_user_signature_method {S U}.
Arguments sv_require_user_signature {S U}.
Arguments sv_intent_token_usage_store {S U}.
Arguments sv_intent {S U}.
Arguments sv_operation {S U}.

(** What its calls change: both services' pending authorizations, the state
    behind the signature method they share, the usage store. *)
Record ServerState (S U : Type) := mkServerState {
  ss_intents : gmap string PendingIntent;
  ss_operations : gmap string PendingOperation;
  ss_method : S;
  ss_usage : U
}.
Arguments mkServerState {S U}.
Arguments ss_intents {S U}.
Arguments ss_operations {S U}.
Arguments ss_method {S U}.
Arguments ss_usage {S U}.

Definition signature_method_not_enabled (expected : option string) (requested : string) :
    A4PProtocolError :=
  mkProtocolError
    ("Signature method " +:+ quoted requested +:+ " is not enabled; configured method is " +:+
     match expected with Some value => quoted value | None => "None" end)
    "SIGNATURE_METHOD_NOT_ENABLED" 409.

Section server.
Context `{!JsonDisplay, !JsonText, !Chrono, !Crypto}.
Context {S U : Type}.

(** [build]; [default_store] is what opening the default usage store answers. *)
Definition build (default_store : result (A4PIntentTokenUsageStore U) A4PError)
    (b : A4PServerBuilder S U) : result (A4PServer S U) A4PError :=
  let require_user_signature := default true (sb_require_user_signature b) in
  let method := sb_user_signature_method b in
  if require_user_signature && negb (bool_decide (is_Some method)) then
    Err (AValue "user_signature_method is required when user signatures are enabled")
  else
    let? _ :=
      match method with
      | Some m =>
          let name := signature_method _ m in
          if str_is_empty name || negb (bool_decide (name = to_lowercase (trim name))) then
            Err (AValue "user_signature_method.signature_method must be a non-empty lowercase identifier")
          else Ok ()
      | None => Ok ()
      end in
    let server_id := default DEFAULT_SERVER_ID (sb_server_id b) in
    let? usage_store :=
      match sb_intent_token_usage_store b with Some store => Ok store | None => default_store end in
    Ok (mkServer _ _ server_id method require_user_signature usage_store
      (mkIntentService _ _ server_id (sb_intent_display_text_renderer b) require_user_signature method
         usage_store)
      (mkOperationService _ server_id (sb_operation_display_text_renderer b) require_user_signature
         method)).

Context (server : A4PServer S U).
Implicit Types st : ServerState S U.

Definition server_signature_method : option string :=
  signature_method _ <$> sv_user_signature_method server.

Definition require_signature_method (requested : string) : result unit A4PError :=
  if negb (bool_decide (server_signature_method = Some requested)) then
    Err (AProtocol (signature_method_not_enabled server_signature_method requested))
  else Ok ().

(** The entry of a trusted key. *)
Definition trust_entry (key : JsonDict) : Value :=
  JObject (dict [("alg", default JNull (aget "alg" key)); ("publicKey", default JNull (aget "publicKey" key))]).

Definition server_trust_config (env : EnvSource) : result JsonDict A4PError :=
  let? intent_key := intent_server_trusted_key env in
  let? operation_key := operation_server_trusted_key env in
  let keys := dict [(str_or_empty intent_key "keyId", trust_entry intent_key);
                    (str_or_empty operation_key "keyId", trust_entry operation_key)] in
  Ok (dict [(sv_server_id server, JObject keys)]).

(** * The state of each service, in the shared one *)

Definition intent_view st : IntentState S U := mkIntentState (ss_intents st) (ss_method st) (ss_usage st).
Definition with_intent st (i : IntentState S U) : ServerState S U :=
  mkServerState (ist_pending i) (ss_operations st) (ist_method i) (ist_usage i).
Definition operation_view st : OperationState S := mkOperationState (ss_operations st) (ss_method st).
Definition with_operation st (o : OperationState S) : ServerState S U :=
  mkServerState (ss_intents st) (ost_pending o) (ost_method o) (ss_usage st).
Definition with_method st (s : S) : ServerState S U :=
  mkServerState (ss_intents st) (ss_operations st) s (ss_usage st).

(** * The operations *)

Definition register_ed25519_credential (random now : string) (request : JsonDict) st :
    result JsonDict A4PError * ServerState S U :=
  match require_signature_method ED25519_SIGNATURE_METHOD with
  | Err e => (Err e, st)
  | Ok _ =>
      match (sv_user_signature_method server ≫= ed25519_registrar S : option (Ed25519Registrar S)) with
      | None => (Err (AValue "Configured ed25519 method does not support registration"), st)
      | Some register =>
          let (r, s) := register random now request (ss_method st) in (r, with_method st s)
      end
  end.

(** The method's WebAuthn registrar, or why there is none. *)
Definition webauthn_registrar_of : result (WebAuthnRegistrar S) A4PError :=
  let? _ := require_signature_method WEBAUTHN_SIGNATURE_METHOD in
  ok_or (sv_user_signature_method server ≫= webauthn_registrar S)
    (AValue "Configured webauthn method does not support registration").

(** [request.get(key).filter(is_truthy)], as text, or [other]. *)
Definition text_or (request : JsonDict) (key other : string) : string :=
  match truthy (aget key request) with Some value => py_str value | None => other end.

Definition webauthn_registration_options (challenge random_id : string) (request : JsonDict) st :
    result JsonDict A4PError * ServerState S U :=
  match webauthn_registrar_of with
  | Err e => (Err e, st)
  | Ok registrar =>
      let user_id := str_trimmed request "userId" in
      if str_is_empty user_id then (Err (AValue "userId missing"), st)
      else
        let user_name := text_or request "userName" user_id in
        let user_display_name := text_or request "userDisplayName" user_name in
        let (r, s) := wr_registration_options _ registrar challenge random_id user_id (Some user_name)
          (Some user_display_name) (ss_method st) in
        (r, with_method st s)
  end.

Definition verify_webauthn_registration (now : string) (request : JsonDict) st :
    result JsonDict A4PError * ServerState S U :=
  match webauthn_registrar_of with
  | Err e => (Err e, st)
  | Ok registrar =>
      let (r, s) := wr_verify_registration _ registrar now request (ss_method st) in
      (let? record := r in
       Ok (dict [("registered", JBool true); ("created", JBool true);
                 ("credential", JObject (record_to_json record))]), with_method st s)
  end.

Definition prepare_intent_authorization (signing_key : result SigningKey A4PError) (random : string)
    (now : Z) (request : JsonDict) st : result IntentAuthorizationResponse A4PError * ServerState S U :=
  let (r, i) := prepare (sv_intent server) signing_key random now request (intent_view st) in
  (r, with_intent st i).

Definition complete_intent_authorization (signing_key : result SigningKey A4PError)
    (random_id random_nonce : string) (now_verify now_issue : Z) (request : JsonDict) st :
    result IntentAuthorizationResponse A4PError * ServerState S U :=
  let (r, i) := complete (sv_intent server) signing_key random_id random_nonce now_verify now_issue
    request (intent_view st) in
  (r, with_intent st i).

Definition server_verify_intent_token (signing_key : result SigningKey A4PError)
    (now_verify now_consume : Z) (request : JsonDict) st :
    TokenVerificationResponse * ServerState S U :=
  let (r, i) := verify_token (sv_intent server) signing_key now_verify now_consume request (intent_view st) in
  (r, with_intent st i).

Definition prepare_operation_authorization (signing_key : result SigningKey A4PError) (random : string)
    (now_prune now : Z) (request : JsonDict) st :
    result OperationAuthorizationChallenge A4PError * ServerState S U :=
  let (r, o) := prepare_operation (sv_operation server) signing_key random now_prune now request
    (operation_view st) in
  (r, with_operation st o).

Definition complete_operation_authorization (signing_key : result SigningKey A4PError)
    (now_prune now : Z) (request : JsonDict) st : OperationAuthorizationResult * ServerState S U :=
  let (r, o) := complete_operation (sv_operation server) signing_key now_prune now request
    (operation_view st) in
  (r, with_operation st o).
End server.

(** * The user's side *)

Record UserAuthorizationRequest := mkUserAuthorizationRequest {
  ur_mandate : JsonDict; ur_signing_options : JsonDict
}.
Record UserAuthorizationResponse := mkUserAuthorizationResponse {
  ua_approved : bool;
  ua_signed_mandate : option JsonDict;
  ua_reject_reason : option string;
  ua_error_code : option string
}.

(** [A4PError::code]. *)
Definition a4p_code (e : A4PError) : option string :=
  match e with
  | AProtocol e => Some (pe_code e)
  | AMandateSecurity e => Some (ms_code e)
  | _ => None
  end.

Section authorizer.
Context `{!JsonDisplay, !JsonText, !Chrono, !Crypto}.

(** The options, with the challenge derived here for WebAuthn. *)
Definition harden_options (mandate signing_options method_options : JsonDict) (signature_method : string) :
    result JsonDict MandateSecurityError :=
  if decide (signature_method = "webauthn") then
    let? challenge :=
      map_err (λ e, mkMandateSecurityError "CHALLENGE_BINDING_INVALID" (a4p_message e))
        (user_authorization_challenge_base64url mandate) in
    Ok (im_insert "methodOptions" (JObject
          (im_insert "userVerification" (JString "required")
             (im_insert "challenge" (JString challenge) method_options))) signing_options)
  else Ok signing_options.

Definition verify_local_user_authorization_request (request : UserAuthorizationRequest)
    (trust_store : TrustStore) (now : Z) (expected_signature_method : option string) :
    result JsonDict MandateSecurityError :=
  let binding := mkMandateSecurityError "CHALLENGE_BINDING_INVALID" in
  let mismatch := mkMandateSecurityError "SIGNING_OPTIONS_MISMATCH" in
  let? core := verify_trusted_server_mandate (ur_mandate request) trust_store in
  let? _ := verify_mandate_valid_time_at core now in
  let? user_authorization :=
    ok_or (get_object core "userAuthorization") (binding "userAuthorization missing") in
  match aget "required" user_authorization with
  | Some (JBool required) =>
      if negb required then Ok []
      else
        let signature_method := str_trimmed user_authorization "signatureMethod" in
        if str_is_empty signature_method then Err (binding "userAuthorization.signatureMethod missing")
        else
          let? _ :=
            match expected_signature_method with
            | Some expected =>
                if negb (bool_decide (signature_method = expected)) then
                  Err (mismatch ("User signer method mismatch: mandate requires " +:+
                    quoted signature_method +:+ ", local signer is " +:+ quoted expected))
                else Ok ()
            | None => Ok ()
            end in
          if negb (bool_decide (aget "signatureMethod" (ur_signing_options request) ≫= as_str =
                                Some signature_method)) then
            Err (mismatch "signingOptions.signatureMethod does not match the Server-signed mandate")
          else
            match aget "methodOptions" (ur_signing_options request) with
            | Some (JObject method_options) =>
                harden_options (ur_mandate request) (ur_signing_options request) method_options signature_method
            | _ => Err (mismatch "signingOptions.methodOptions missing")
            end
  | _ => Err (binding "userAuthorization.required missing")
  end.

Definition sign_user_mandate_with_signer (mandate : JsonDict) (user_signer : A4PUserSigner)
    (signing_input : option JsonDict) : result JsonDict A4PError :=
  let type := aget "type" mandate ≫= as_str in
  let? nc :=
    if decide (type = Some INTENT_MANDATE_TYPE) then
      let? normalized := normalize_intent_mandate mandate in
      let? context := intent_user_signature_context normalized None in
      Ok (normalized, context)
    else if decide (type = Some OPERATION_MANDATE_TYPE) then
      let? normalized := normalize_operation_mandate mandate in
      let? context := operation_user_signature_context normalized None in
      Ok (normalized, context)
    else Err (AValue ("Unsupported A4P mandate type: " +:+ python_repr (aget "type" mandate))) in
  let? signature := sign_user_signature nc.2 user_signer signing_input in
  Ok (attach_user_signature nc.1 signature).

Definition approve_user_mandate (mandate : JsonDict) : JsonDict :=
  let signatures := default (JObject []) (aget "signatures" mandate) in
  let approved := if ahas "signatures" mandate then mandate else im_insert "signatures" signatures mandate in
  match signatures with
  | JObject map => im_insert "signatures" (JObject (im_insert "user" (JObject []) map)) approved
  | _ => approved
  end.

(** [RejectingA4PUserAuthorizer] and [ApprovingA4PUserAuthorizer]. *)
Definition rejecting_authorize (_request : UserAuthorizationRequest) : UserAuthorizationResponse :=
  mkUserAuthorizationResponse false None (Some "A4P user authorizer is not configured") None.

Definition approving_authorize (user_signer : A4PUserSigner) (request : UserAuthorizationRequest) :
    UserAuthorizationResponse :=
  match sign_user_mandate_with_signer (ur_mandate request) user_signer None with
  | Ok signed => mkUserAuthorizationResponse true (Some signed) None None
  | Err error => mkUserAuthorizationResponse false None (Some (a4p_message error)) (a4p_code error)
  end.
End authorizer.

(** * The published keys *)

Section trust.
Context `{!JsonDisplay, !JsonText, !Chrono, !ChronoLaws, !Crypto, !CryptoLaws}.

Lemma public_key_trimmed key :
  trim (ed25519_public_key_to_base64url key) = ed25519_public_key_to_base64url key.
Proof. apply engine_encode_trimmed. Qed.

(** The entry of a key, as a trust store reads it. *)
Lemma trust_entry_read server_id key_id alg (key : SigningKey) keys trusted :
  trim key_id ≠ "" → alg = SERVER_SIGNATURE_ALGORITHM →
  trust_keys server_id
    ((key_id, trust_entry [("alg", JString alg); ("keyId", JString key_id);
        ("publicKey", JString (ed25519_public_key_to_base64url (verifying_key key)))]) :: keys) trusted =
  trust_keys server_id keys (<[(trim server_id, trim key_id) := (alg, verifying_key key)]> trusted).
Proof.
  intros Hid ->. unfold trust_entry. rewrite dict_literal by reflexivity. cbn [trust_keys as_object ok_or aget].
  rewrite (proj2 (str_is_empty_false _) Hid). decide_literals. cbn [default].
  rewrite (str_trimmed_string _ "alg" SERVER_SIGNATURE_ALGORITHM) by done.
  rewrite bool_decide_true by done. cbn [negb].
  rewrite (str_trimmed_string _ "publicKey" (ed25519_public_key_to_base64url (verifying_key key)))
    by (cbn [aget]; by decide_literals).
  by rewrite public_key_trimmed, public_key_base64url.
Qed.

Context {S U : Type} (server : A4PServer S U).

(** A trust store made from the published configuration holds both keys. *)
Lemma trust_config_store env config ikey okey :
  server_trust_config server env = Ok config → trim (sv_server_id server) ≠ "" →
  intent_server_signing_key_in env = Ok ikey → operation_server_signing_key_in env = Ok okey →
  ∃ ts, trust_store_new config = Ok ts ∧
    ts !! (trim (sv_server_id server), INTENT_MANDATE_SERVER_KEY_ID) =
      Some (SERVER_SIGNATURE_ALGORITHM, verifying_key ikey) ∧
    ts !! (trim (sv_server_id server), OPERATION_MANDATE_SERVER_KEY_ID) =
      Some (SERVER_SIGNATURE_ALGORITHM, verifying_key okey).
Proof.
  unfold server_trust_config, intent_server_trusted_key, operation_server_trusted_key.
  intros Hc Hid Hi Ho. rewrite Hi, Ho in Hc.
  rewrite (dict_literal [("alg", JString INTENT_SERVER_SIGN_ALGORITHM); _; _]),
    (dict_literal [("alg", JString OPERATION_SERVER_SIGN_ALGORITHM); _; _]),
    (dict_literal [(sv_server_id server, _)]) in Hc by reflexivity.
  change (str_or_empty _ "keyId") with INTENT_MANDATE_SERVER_KEY_ID in Hc at 1.
  change (str_or_empty [_; ("keyId", JString OPERATION_MANDATE_SERVER_KEY_ID); _] "keyId")
    with OPERATION_MANDATE_SERVER_KEY_ID in Hc.
  rewrite dict_literal in Hc by reflexivity. injection Hc as <-.
  unfold trust_store_new. cbn [trust_servers as_object].
  rewrite (proj2 (str_is_empty_false _) Hid), !trust_entry_read by done. cbn [trust_keys].
  rewrite decide_False by (intros Hm; by apply insert_non_empty in Hm).
  eexists. split; [done|].
  change (trim INTENT_MANDATE_SERVER_KEY_ID) with INTENT_MANDATE_SERVER_KEY_ID.
  change (trim OPERATION_MANDATE_SERVER_KEY_ID) with OPERATION_MANDATE_SERVER_KEY_ID.
  split; [by rewrite lookup_insert_ne, lookup_insert_eq|by rewrite lookup_insert_eq].
Qed.

Lemma built_parts d (b : A4PServerBuilder S U) :
  build d b = Ok server →
  is_server_id (sv_intent server) = sv_server_id server ∧
  is_require_user_signature (sv_intent server) = sv_require_user_signature server ∧
  is_user_signature_method (sv_intent server) = sv_user_signature_method server ∧
  (sv_require_user_signature server = true → is_Some (sv_user_signature_method server)) ∧
  ∀ method, sv_user_signature_method server = Some method →
    signature_method _ method ≠ "" ∧ signature_method _ method = to_lowercase (trim (signature_method _ method)).
Proof.
  unfold build. destruct (_ && _) eqn:Hreq; [done|].
  destruct (sb_user_signature_method b) as [method|].
  - destruct (str_is_empty (signature_method S method)) eqn:He; [done|].
    destruct (bool_decide (signature_method S method = _)) eqn:Hlow; [|done]. apply bool_decide_eq_true in Hlow.
    cbn [orb negb]. destruct (match sb_intent_token_usage_store b with Some _ => _ | None => _ end); [|done].
    intros [= <-]. do 3 (split; [done|]). split; [by eexists|]. intros m [= <-].
    split; [by apply str_is_empty_false|done].
  - destruct (match sb_intent_token_usage_store b with Some _ => _ | None => _ end); [|done].
    intros [= <-]. do 3 (split; [done|]). split; [|done]. cbn. intros Hr. by rewrite Hr in Hreq.
Qed.

(** A mandate's server signature, checked against a trust store. *)
Lemma trusted_mandate ts m core payload u sid key :
  aget "type" m = Some (JString INTENT_MANDATE_TYPE) → intent_mandate_core_payload m = Ok core →
  server_signature_payload core = Ok payload →
  aget "signatures" m = Some (JObject
    [("server", JObject (server_signature INTENT_SERVER_SIGN_ALGORITHM INTENT_MANDATE_SERVER_KEY_ID
        (ed25519_sign_text payload key))); ("user", JObject u)]) →
  aget "server" m = Some (JString sid) → trim sid ≠ "" →
  ts !! (trim sid, INTENT_MANDATE_SERVER_KEY_ID) = Some (SERVER_SIGNATURE_ALGORITHM, verifying_key key) →
  verify_trusted_server_mandate m ts = Ok core.
Proof.
  intros Ht Hcore Hp Hsigs Hs Hsid Hts. unfold verify_trusted_server_mandate, mandate_core_payload.
  rewrite Ht. cbn [mbind option_bind as_str]. rewrite decide_True, Hcore by done. cbn [map_err].
  assert (Hcs : str_trimmed core "server" = trim sid).
  { rewrite intent_core_eq in Hcore. destruct (normalize_intent_scope _); [|done]. injection Hcore as <-.
    unfold field. rewrite Hs. rewrite (str_trimmed_string _ "server" sid); [done|].
    cbn [aget]. by decide_literals. }
  assert (Hget : (signatures ← get_object m "signatures"; get_object signatures "server") =
    Some (server_signature INTENT_SERVER_SIGN_ALGORITHM INTENT_MANDATE_SERVER_KEY_ID (ed25519_sign_text payload key))).
  { rewrite (proj2 (get_object_Some _ _ _) Hsigs). apply get_object_Some. cbn [aget]. by decide_literals. }
  rewrite Hget. cbn [ok_or]. unfold server_signature.
  rewrite dict_literal by reflexivity.
  rewrite (str_trimmed_string _ "alg" INTENT_SERVER_SIGN_ALGORITHM) by done.
  rewrite (str_trimmed_string _ "keyId" INTENT_MANDATE_SERVER_KEY_ID) by done.
  rewrite (str_trimmed_string _ "signature" (ed25519_sign_text payload key)) by (cbn [aget]; by decide_literals).
  rewrite sign_text_trimmed, Hcs, (proj2 (str_is_empty_false _) Hsid).
  rewrite (proj2 (str_is_empty_false _) (sign_text_nonempty payload key)). cbn [orb].
  change (trim INTENT_MANDATE_SERVER_KEY_ID) with INTENT_MANDATE_SERVER_KEY_ID.
  unfold resolve. rewrite Hts. rewrite bool_decide_true by done. cbn [negb str_is_empty orb].
  rewrite Hp. cbn [map_err]. by rewrite verify_sign_text.
Qed.

(** The validity of a core, as the user's side checks it. *)
Lemma core_valid_time core start fin now :
  aget "type" core = Some (JString INTENT_MANDATE_TYPE) →
  aget "validTime" core = Some (JObject [("start", JString (format_iso_z start)); ("end", JString (format_iso_z fin))]) →
  is_Some (format_utc start) → is_Some (format_utc fin) → (start ≤ now ≤ fin)%Z →
  verify_mandate_valid_time_at core now = Ok ().
Proof.
  intros Ht Hv (Hps & Hns & _)%format_iso_z_text (Hpe & Hne & _)%format_iso_z_text Hnow.
  unfold verify_mandate_valid_time_at. rewrite Ht, (proj2 (get_object_Some _ _ _) Hv).
  cbn [ok_or mbind option_bind as_str]. rewrite bool_decide_true by done.
  cbn [timestamps aget]. decide_literals. unfold truthy. cbn [mbind option_bind is_truthy].
  rewrite !(proj2 (str_is_empty_false _)) by done. cbn [negb py_str]. rewrite Hps, Hpe.
  cbn [ok_or length Nat.eqb negb head last default andb].
  unfold id. by rewrite (proj2 (Z.ltb_ge _ _)), (proj2 (Z.ltb_ge _ _)) by lia.
Qed.

(** A user who trusts the published keys accepts what the server signs: the
    trust store made from the server's trust configuration verifies every
    intent mandate the server prepares under its own id, and finds it valid
    from the time it was prepared until its end. *)
Theorem prepared_mandate_trusted d b env config ikey okey random now request st r st1 m validity :
  build d b = Ok server → wf_value (JObject request) →
  (∀ method, sv_user_signature_method server = Some method → wf_value (JObject (method_policy _ method))) →
  server_trust_config server env = Ok config → trim (sv_server_id server) ≠ "" →
  intent_server_signing_key_in env = Ok ikey → operation_server_signing_key_in env = Ok okey →
  truthy (aget "server" request) = None →
  prepare_intent_authorization server (Ok ikey) random now request st = (Ok r, st1) → ir_mandate r = Some m →
  validity_seconds 3600 request = Ok validity →
  is_Some (format_utc now) → is_Some (format_utc (i64_add now validity)) →
  ∃ ts core, trust_store_new config = Ok ts ∧ verify_trusted_server_mandate m ts = Ok core ∧
    intent_mandate_core_payload m = Ok core ∧
    ∀ t, (now ≤ t ≤ i64_add now validity)%Z → verify_mandate_valid_time_at core t = Ok ().
Proof.
  intros (Hsid & _ & Hmeth & _)%built_parts Hwf Hpol Hconf Hid Hi Ho Hnos Hprep Hm Hvalid Hnow Hfin.
  destruct (trust_config_store _ _ _ _ Hconf Hid Hi Ho) as (ts & Hts & Hik & _).
  unfold prepare_intent_authorization in Hprep.
  destruct (prepare _ _ _ _ _ _) as [r' i] eqn:Hp. injection Hprep as -> _.
  destruct (prepare_ok _ _ _ _ _ _ _ _ _ Hp Hm) as (parties & v & id & _ & Hv & Hcreate & _ & _).
  rewrite Hvalid in Hv. injection Hv as <-. rewrite <-Hmeth in Hpol.
  destruct (prepared_draft _ _ _ _ _ _ _ _ Hwf Hpol Hcreate) as (draft & Hsign & Hdw & _ & _ & Hds & Hdv & _).
  destruct (signed_fields _ _ _ Hdw Hsign) as (intent & core & payload & u & _ & Ht & _ & _ & _ & Hk & _ &
    Hsigs & _ & Hcore & Hpay).
  rewrite <-(Hk "server") in Hds by done. rewrite <-(Hk "validTime") in Hdv by done.
  unfold request_server in Hds. rewrite Hnos, Hsid in Hds.
  exists ts, core. split; [done|]. split; [by eapply trusted_mandate|]. split; [done|].
  intros t Ht'. apply (core_valid_time core now (i64_add now validity)); [..|done|done|done].
  - rewrite intent_core_eq in Hcore. destruct (normalize_intent_scope _); [|done]. by injection Hcore as <-.
  - rewrite intent_core_eq in Hcore. destruct (normalize_intent_scope _); [|done]. injection Hcore as <-.
    unfold field. rewrite Hdv. cbn [aget]. by decide_literals.
Qed.
End trust.

(** * The user signs what was prepared *)

Section signing.
Context `{!JsonDisplay, !JsonText, !Chrono, !ChronoLaws, !Crypto, !CryptoLaws}.

(** A prepared mandate is its own normal form. *)
Lemma signed_normal key draft m :
  wf_value (JObject draft) → sign_intent_mandate (Ok key) draft = Ok m → normalize_intent_mandate m = Ok m.
Proof.
  intros Hwf Hsign. destruct (signed_fields _ _ _ Hwf Hsign) as
    (intent & core & payload & u & _ & Ht & Hi & _ & Hidem & _ & Hua & Hsigs & _).
  unfold normalize_intent_mandate. rewrite Hi, Hidem.
  rewrite (object_or_empty_object _ _ _ Hua).
  assert (Hc : signature_container m = JObject
    [("server", JObject (server_signature INTENT_SERVER_SIGN_ALGORITHM INTENT_MANDATE_SERVER_KEY_ID
        (ed25519_sign_text payload key))); ("user", JObject u)]).
  { unfold signature_container. rewrite (object_or_empty_object _ _ _ Hsigs), dict_literal by reflexivity.
    rewrite (object_or_empty_object _ "user" u) by (cbn [aget]; by decide_literals).
    by erewrite (object_or_empty_object _ "server") by (cbn [aget]; by decide_literals). }
  rewrite Hc, !(im_insert_same _ _ m) by done. done.
Qed.

(** The core of a well-formed mandate is well formed. *)
Lemma intent_core_wf m core :
  wf_value (JObject m) → intent_mandate_core_payload m = Ok core → wf_value (JObject core).
Proof.
  intros Hwf. rewrite intent_core_eq.
  destruct (normalize_intent_scope _) as [intent|] eqn:Hi; [|done]. intros [= <-].
  apply normalize_intent_scope_wf in Hi; [|intros w; by apply wf_aget].
  apply wf_object_literal; [done|].
  repeat (apply List.Forall_cons; [cbn [snd]; first
    [by apply wf_object_or_empty | done | constructor | apply wf_field; [done|by repeat constructor]]|]);
    apply List.Forall_nil.
Qed.

(** A core with the server's signature keeps that core. *)
Lemma signed_core_fixed m core server_sig :
  wf_value (JObject m) → intent_mandate_core_payload m = Ok core →
  server_signed_mandate_without_user_signature
    (im_insert "signatures" (JObject [("server", JObject server_sig)]) core) =
  Ok (im_insert "signatures" (JObject [("server", JObject server_sig)]) core).
Proof.
  intros Hwf Hcore. assert (Hw : ∀ w, aget "intent" m = Some w → wf_value w) by (intros w; by apply wf_aget).
  set (signed := im_insert _ _ core).
  assert (Hfix : intent_mandate_core_payload signed = Ok core ∧ aget "type" signed = Some (JString INTENT_MANDATE_TYPE)).
  { rewrite intent_core_eq in Hcore. destruct (normalize_intent_scope _) as [intent|] eqn:Hi; [|done].
    apply (normalize_intent_scope_idem _ _ Hw) in Hi. injection Hcore as Hc.
    assert (Hget : ∀ k, k ≠ "signatures" → aget k signed = aget k core) by (intros k; apply aget_im_insert_ne).
    assert (Hci : aget "intent" core = Some (JObject intent)) by (rewrite <-Hc; cbn [aget]; by decide_literals).
    assert (Hua : object_or_empty signed "userAuthorization" = object_or_empty m "userAuthorization").
    { apply object_or_empty_object. rewrite Hget, <-Hc by done. cbn [aget]. by decide_literals. }
    rewrite intent_core_eq, !Hget, Hci, Hi, Hua by done. split; [|rewrite <-Hc; done].
    repeat match goal with |- context [field signed ?k ?d] =>
      assert (field signed k d = field m k d) as -> by
        (unfold field at 1; rewrite Hget, <-Hc by done; cbn [aget]; by decide_literals) end.
    by rewrite Hc. }
  destruct Hfix as [Hfix Ht]. unfold server_signed_mandate_without_user_signature, mandate_core_payload.
  rewrite Ht. cbn [mbind option_bind as_str]. rewrite decide_True, Hfix by done. cbn [map_err].
  rewrite (proj2 (get_object_Some signed "signatures" _) (aget_im_insert_eq _ _ _)).
  cbn [mbind option_bind]. rewrite (proj2 (get_object_Some _ "server" server_sig)) by
    (cbn [aget]; by decide_literals).
  cbn [ok_or]. by rewrite dict_literal by reflexivity.
Qed.

(** The payload a user signs for a prepared mandate. *)
Lemma presented_payload m core server_sig expected :
  wf_value (JObject m) → wf_value (JObject server_sig) → intent_mandate_core_payload m = Ok core →
  ∃ payload, canonical_user_authorization_payload
    (server_signed_mandate (presented_context core server_sig expected)) = Ok payload.
Proof.
  intros Hwf Hws Hcore. unfold canonical_user_authorization_payload.
  cbn [presented_context server_signed_mandate]. rewrite (signed_core_fixed m) by done.
  apply write_value_total, wf_cons_literal; [done|].
  apply List.Forall_cons; [cbn [snd]; by constructor|]. apply List.Forall_cons; [|apply List.Forall_nil]. cbn [snd].
  apply wf_im_insert; [by apply (intent_core_wf m)|]. apply wf_object_literal; [done|].
  apply List.Forall_cons; [done|apply List.Forall_nil].
Qed.

(** The contexts of a prepared mandate, without and with an expected user. *)
Lemma prepared_context key draft m required :
  wf_value (JObject draft) → sign_intent_mandate (Ok key) draft = Ok m →
  aget "required" (object_or_empty draft "userAuthorization") = Some (JBool required) →
  (required = true → str_trimmed (object_or_empty draft "userAuthorization") "signatureMethod" ≠ "") →
  ∃ core server_sig,
    (∀ expected, intent_user_signature_context m expected = Ok (presented_context core server_sig expected)) ∧
    intent_mandate_core_payload m = Ok core ∧ wf_value (JObject server_sig) ∧
    object_or_empty core "userAuthorization" = object_or_empty draft "userAuthorization".
Proof.
  intros Hwf Hsign Hreq Hmethod. destruct (signed_fields _ _ _ Hwf Hsign) as
    (intent & core & payload & u & Hmw & _ & _ & _ & _ & _ & _ & Hsigs & Hcd & Hcm & _).
  assert (Hcu : object_or_empty core "userAuthorization" = object_or_empty draft "userAuthorization").
  { rewrite intent_core_eq in Hcd. destruct (normalize_intent_scope _); [|done].
    injection Hcd as <-. apply object_or_empty_object. cbn [aget]. by decide_literals. }
  exists core. eexists. split; [|split; [done|split; [|done]]].
  - intros expected.
    by apply (presented_context_ok m core _ (JObject u) required expected (λ w, wf_aget _ _ w Hmw) Hcm Hsigs);
      rewrite Hcu.
  - apply server_signature_wf.
Qed.

Context {C U : Type} (store : A4PCredentialStore C) (svc : IntentAuthorizationService C U).

(** C6: With a registered Ed25519 key an intent goes through from end to end: a
    mandate the server prepared for a user can be signed by the user's signer,
    and when it comes back within its validity the server approves it and
    issues a token. *)
Theorem ed25519_intent_completes key random now request st r st1 m validity cid ukey signer record c'
    rid rn nv ni :
  is_user_signature_method svc = Some (RegisteredEd25519Method store) →
  is_require_user_signature svc = true → wf_value (JObject request) →
  prepare svc (Ok key) random now request st = (Ok r, st1) → ir_mandate r = Some m →
  validity_seconds 3600 request = Ok validity →
  is_Some (format_utc now) → is_Some (format_utc (i64_add now validity)) →
  (now ≤ nv ≤ i64_add now validity)%Z →
  ed25519_signer_new cid ukey = Ok signer →
  cs_get _ store (trim cid) (ist_method st1) = (Ok (Some record), c') →
  cr_signature_method record = ED25519_SIGNATURE_METHOD → cr_public_key record = ed25519_public_jwk ukey →
  cr_user_id record = str_or_empty request "userId" →
  ∃ signed token st2,
    sign_user_mandate_with_signer m (ed25519_user_signer signer) None = Ok signed ∧
    complete svc (Ok key) rid rn nv ni [("signedMandate", JObject signed)] st1 =
      (Ok (mkIntentAuthorizationResponse (Some signed) [] (Some token) (Some (vr_ok None)) true None), st2).
Proof.
  intros Hmethod Hreq Hwf Hprep Hm Hvalid Hnow Hfin Hnv Hnew Hget Hed Hkey Huser.
  assert (Hpol : ∀ method, is_user_signature_method svc = Some method →
    wf_value (JObject (method_policy _ method))) by (rewrite Hmethod; intros ? [= <-]; apply wf_empty).
  destruct (prepare_ok _ _ _ _ _ _ _ _ _ Hprep Hm) as (parties & v & id & _ & Hv & Hcreate & _).
  rewrite Hvalid in Hv. injection Hv as <-.
  destruct (prepared_draft _ _ _ _ _ _ _ _ Hwf Hpol Hcreate) as
    (draft & Hsign & Hdw & Hdreq & Hdmeth & _ & _ & Hpolicy).
  pose proof (signed_normal _ _ _ Hdw Hsign) as Hnorm.
  destruct (signed_fields _ _ _ Hdw Hsign) as (intent & _ & _ & _ & Hmw & Ht & _).
  destruct (prepared_context _ _ _ _ Hdw Hsign Hdreq Hdmeth) as (core & server_sig & Hctx & Hcore & Hws & Hcu).
  assert (Hname : str_trimmed (object_or_empty core "userAuthorization") "signatureMethod" = ED25519_SIGNATURE_METHOD).
  { rewrite Hcu, Hpolicy, Hreq, policy_method, Hmethod. done. }
  destruct (presented_payload m core server_sig None Hmw Hws Hcore) as [payload Hpay].
  destruct (ed25519_signs signer (presented_context core server_sig None) None _ Hname Hpay) as [signature Hsig].
  assert (Hver : verify_user_signature (presented_context core server_sig (Some (str_or_empty request "userId")))
    signature (is_user_signature_method svc) (is_require_user_signature svc) (ist_method st1) = (Ok (), c')).
  { rewrite Hmethod, Hreq. eapply (ed25519_signature_accepted store cid ukey signer _ None); [done| |done..|].
    - exact Hsig.
    - intros user [= <-]. done. }
  destruct (prepared_completes svc _ _ _ _ _ _ _ _ _ _ signature _ rid rn nv ni Hwf Hpol Hprep Hm Hvalid
    Hnow Hfin Hnv (Hctx _) Hver) as (token & st2 & _ & _ & Hcomplete & _).
  exists (attach_user_signature m signature), token, st2. split; [|done].
  unfold sign_user_mandate_with_signer. rewrite Ht. cbn [mbind option_bind as_str].
  rewrite decide_True, Hnorm, Hctx by done. cbn [fst snd]. by rewrite Hsig.
Qed.
End signing.
