(* ===== verification/A4PHttp.v ===== *)
(** The HTTP surface of A4P: the wire form of the responses (src/types.rs), the
    server's dispatch (src/http_server.rs) and what the client reads
    (src/client.rs). *)
From S2P Require Import Prelude F64 RustMap RustStr Json A4PUtil IntentScope Canonical A4PCrypto CredentialStore Mandate Ed25519 WebAuthnData WebAuthn IntentMandate IntentToken IntentService OperationService A4PServer IntentFlow.
From Stdlib Require Import Ascii.

(** * types.rs *)

(** [strip_nulls_object] and [strip_nulls_value]. *)
Fixpoint strip_nulls_value (value : Value) : Value :=
  match value with
  | JObject map =>
      JObject
        ((fix go map :=
            match map with
            | [] => []
            | (key, value) :: map =>
                if is_null value then go map else (key, strip_nulls_value value) :: go map
            end) map)
  | JArray items =>
      JArray
        ((fix go items :=
            match items with [] => [] | item :: items => strip_nulls_value item :: go items end) items)
  | other => other
  end.

Fixpoint strip_nulls_object (map : JsonDict) : JsonDict :=
  match map with
  | [] => []
  | (key, value) :: map =>
      if is_null value then strip_nulls_object map
      else (key, strip_nulls_value value) :: strip_nulls_object map
  end.

(** A field serde skips when it is [None]. *)
Definition optional_field (key : string) (value : option Value) : JsonDict :=
  match value with Some v => [(key, v)] | None => [] end.

Definition verification_result_to_json (r : VerificationResult) : JsonDict :=
  [("valid", JBool (vr_valid r))] ++ optional_field "reason" (JString <$> vr_reason r) ++
  optional_field "code" (JString <$> vr_code r) ++
  optional_field "matchedScope" (JObject <$> vr_matched_scope r).

Definition intent_response_to_json (r : IntentAuthorizationResponse) : JsonDict :=
  optional_field "mandate" (JObject <$> ir_mandate r) ++
  [("signingOptions", JObject (ir_signing_options r))] ++
  optional_field "intentToken" (JObject <$> ir_intent_token r) ++
  optional_field "verificationResult"
    ((λ v, JObject (verification_result_to_json v)) <$> ir_verification_result r) ++
  [("approved", JBool (ir_approved r))] ++
  optional_field "rejectReason" (JString <$> ir_reject_reason r).

Definition token_response_to_json (r : TokenVerificationResponse) : JsonDict :=
  [("valid", JBool (tr_valid r))] ++ optional_field "reason" (JString <$> tr_reason r) ++
  optional_field "code" (JString <$> tr_code r) ++
  optional_field "matchedScope" (JObject <$> tr_matched_scope r).

Definition challenge_to_json (r : OperationAuthorizationChallenge) : JsonDict :=
  optional_field "mandate" (JObject <$> oc_mandate r) ++
  [("signingOptions", JObject (oc_signing_options r))] ++
  optional_field "verificationResult"
    ((λ v, JObject (verification_result_to_json v)) <$> oc_verification_result r) ++
  optional_field "rejectReason" (JString <$> oc_reject_reason r).

Definition operation_result_to_json (r : OperationAuthorizationResult) : JsonDict :=
  optional_field "operationId" (JString <$> or_operation_id r) ++
  [("approved", JBool (or_approved r))] ++
  optional_field "verificationResult"
    ((λ v, JObject (verification_result_to_json v)) <$> or_verification_result r) ++
  optional_field "rejectReason" (JString <$> or_reject_reason r).

(** [to_payload], of what serde makes. *)
Definition to_payload (json : JsonDict) : JsonDict := strip_nulls_object json.

(** * http_server.rs *)

Definition DEFAULT_A4P_HTTP_HOST : string := "127.0.0.1".
Definition DEFAULT_A4P_HTTP_PORT : Z := 8961.

(** [env.get(name).filter(|value| !value.is_empty()).unwrap_or(other)]. *)
Definition env_or (env : EnvSource) (name other : string) : string :=
  match env name with Some v => if str_is_empty v then other else v | None => other end.

Definition a4p_http_host_in (env : EnvSource) : string :=
  trim (env_or env "A4P_SERVER_HOST" DEFAULT_A4P_HTTP_HOST).

Definition a4p_http_port_in (env : EnvSource) : result Z A4PError :=
  let raw := trim (default "" (env "A4P_SERVER_PORT")) in
  if str_is_empty raw then Ok DEFAULT_A4P_HTTP_PORT
  else
    let? port := ok_or (parse_i64 raw)
      (AValue ("A4P_SERVER_PORT must be an integer, got " +:+ quoted raw)) in
    if negb ((1 <=? port) && (port <=? 65535))%Z then
      Err (AValue ("A4P_SERVER_PORT must be between 1 and 65535, got " +:+ pretty port))
    else Ok port.

Definition error_body (error : string) (message : option string) : JsonDict :=
  ("error", JString error) :: optional_field "message" (JString <$> message).

Definition map_error (error : A4PError) : Z * JsonDict :=
  match error with
  | AProtocol protocol => (pe_http_status protocol, error_body (pe_code protocol) (Some (pe_message protocol)))
  | other =>
      if is_value_error other then (400%Z, error_body "bad_request" (Some (a4p_message other)))
      else (500%Z, error_body "internal_error" (Some (a4p_message other)))
  end.

(** What a request draws from its surroundings: the signing keys, random bytes,
    clock readings and the time as text. *)
Record RequestInputs `{!Crypto} := mkRequestInputs {
  ri_intent_key : result SigningKey A4PError;
  ri_operation_key : result SigningKey A4PError;
  ri_random1 : string;
  ri_random2 : string;
  ri_now1 : Z;
  ri_now2 : Z;
  ri_time : string
}.

(** serde_json and the HTTP layer. *)
Class HttpJson := {
  utf8_error : string → option string;
  json_from_str : string → result Value string;
  json_to_string : Value → option string
}.

Section http.
Context `{!JsonDisplay, !JsonText, !Chrono, !Crypto}.
Context {S U : Type} (server : A4PServer S U).
Implicit Types st : ServerState S U.

(** A call's answer as a body. *)
Definition payload_of {R} (to_json : R → JsonDict) (rs : result R A4PError * ServerState S U) :
    result JsonDict A4PError * ServerState S U :=
  (let? r := rs.1 in Ok (to_payload (to_json r)), rs.2).

Definition call_endpoint (inputs : RequestInputs) (path : string) (payload : JsonDict) st :
    option (result JsonDict A4PError * ServerState S U) :=
  let key := ri_intent_key inputs in
  let op_key := ri_operation_key inputs in
  let r1 := ri_random1 inputs in
  let r2 := ri_random2 inputs in
  let t1 := ri_now1 inputs in
  let t2 := ri_now2 inputs in
  if decide (path = "/a4p/v1/user-credentials/ed25519/register") then
    Some (register_ed25519_credential server r1 (ri_time inputs) payload st)
  else if decide (path = "/a4p/v1/user-credentials/webauthn/register/options") then
    Some (webauthn_registration_options server r1 r2 payload st)
  else if decide (path = "/a4p/v1/user-credentials/webauthn/register/verify") then
    Some (verify_webauthn_registration server (ri_time inputs) payload st)
  else if decide (path = "/a4p/v1/intent-authorizations/prepare") then
    Some (payload_of intent_response_to_json (prepare_intent_authorization server key r1 t1 payload st))
  else if decide (path = "/a4p/v1/intent-authorizations/complete") then
    Some (payload_of intent_response_to_json
      (complete_intent_authorization server key r1 r2 t1 t2 payload st))
  else if decide (path = "/a4p/v1/intent-tokens/verify") then
    let (r, st) := server_verify_intent_token server key t1 t2 payload st in
    Some (Ok (to_payload (token_response_to_json r)), st)
  else if decide (path = "/a4p/v1/operation-authorizations/prepare") then
    Some (payload_of challenge_to_json (prepare_operation_authorization server op_key r1 t1 t2 payload st))
  else if decide (path = "/a4p/v1/operation-authorizations/complete") then
    let (r, st) := complete_operation_authorization server op_key t1 t2 payload st in
    Some (Ok (to_payload (operation_result_to_json r)), st)
  else None.

Definition dispatch (inputs : RequestInputs) (path : string) (payload : JsonDict) st :
    Z * JsonDict * ServerState S U :=
  match call_endpoint inputs path payload st with
  | None => (404%Z, error_body "not_found" None, st)
  | Some (Ok body, st) => (200%Z, body, st)
  | Some (Err error, st) => (map_error error, st)
  end.

Context `{!HttpJson}.

Definition json_response (status : Z) (body : JsonDict) : Z * string :=
  (if ((100 <=? status) && (status <=? 999))%Z then status else 500%Z,
   default "{}" (json_to_string (JObject body))).

Definition handle_request (inputs : RequestInputs) (method path body : string) st :
    Z * string * ServerState S U :=
  if negb (bool_decide (method = "POST")) then
    (json_response 405 (error_body "method_not_allowed" None), st)
  else
    match utf8_error body with
    | Some error => (json_response 400 (error_body "bad_request" (Some error)), st)
    | None =>
        let text := if str_is_empty body then "{}" else body in
        match json_from_str text with
        | Err error => (json_response 400 (error_body "bad_request" (Some error)), st)
        | Ok value =>
            let payload := match value with JObject map => map | _ => [] end in
            let '(status, response, st) := dispatch inputs path payload st in
            (json_response status response, st)
        end
    end.
End http.

(** * client.rs *)

Definition DEFAULT_A4P_BASE_URL : string := "http://127.0.0.1:8961".

Definition default_a4p_base_url_in (env : EnvSource) : string :=
  trim_end_char "/"%char (env_or env "A4P_SERVER_BASE_URL" DEFAULT_A4P_BASE_URL).

(** [with_options]: an explicit base URL, unless it is empty. *)
Definition client_base_url (env : EnvSource) (base_url : option string) : string :=
  match base_url with
  | Some value => if str_is_empty value then default_a4p_base_url_in env else trim_end_char "/"%char value
  | None => default_a4p_base_url_in env
  end.

Section client.
Context `{!JsonDisplay}.

Definition optional_string (map : JsonDict) (key : string) : option string :=
  v ← aget key map; if is_null v then None else Some (py_str v).

(** [map.get(key).map(is_truthy).unwrap_or(false)]. *)
Definition flag_of (map : JsonDict) (key : string) : bool :=
  match aget key map with Some v => is_truthy v | None => false end.

Definition verification_result_from_payload (payload : option Value) : option VerificationResult :=
  map ← payload ≫= as_object;
  Some (mkVerificationResult (flag_of map "valid") (optional_string map "reason")
    (optional_string map "code") (get_object map "matchedScope")).

Definition read_prepare (payload : JsonDict) : IntentAuthorizationResponse :=
  mkIntentAuthorizationResponse (get_object payload "mandate")
    (default [] (get_object payload "signingOptions")) None
    (verification_result_from_payload (aget "verificationResult" payload))
    (flag_of payload "approved") (optional_string payload "rejectReason").

Definition read_complete (payload : JsonDict) : IntentAuthorizationResponse :=
  mkIntentAuthorizationResponse (get_object payload "mandate") [] (get_object payload "intentToken")
    (verification_result_from_payload (aget "verificationResult" payload))
    (flag_of payload "approved") (optional_string payload "rejectReason").

Definition read_token_verification (payload : JsonDict) : TokenVerificationResponse :=
  mkTokenVerificationResponse (flag_of payload "valid") (optional_string payload "reason")
    (optional_string payload "code") (get_object payload "matchedScope").

Definition read_challenge (payload : JsonDict) : OperationAuthorizationChallenge :=
  mkOperationChallenge (get_object payload "mandate") (default [] (get_object payload "signingOptions"))
    (verification_result_from_payload (aget "verificationResult" payload))
    (optional_string payload "rejectReason").

Definition read_operation_result (payload : JsonDict) : OperationAuthorizationResult :=
  let operation_id :=
    v ← truthy (aget "operationId" payload);
    if str_is_empty (py_str v) then None else Some (py_str v) in
  mkOperationResult operation_id (flag_of payload "approved")
    (verification_result_from_payload (aget "verificationResult" payload))
    (optional_string payload "rejectReason").

Context `{!HttpJson}.

(** The end of [post], given the answer or the transport's error. *)
Definition read_post (answer : result (Z * string) string) : result JsonDict A4PError :=
  match answer with
  | Err error => Err (ARuntime ("A4P HTTP request failed: " +:+ error))
  | Ok (status, raw) =>
      if negb ((200 <=? status) && (status <=? 299))%Z then
        let error_payload :=
          match json_from_str raw with Ok value => value | Err _ => JObject [("error", JString raw)] end in
        Err (ARuntime ("A4P HTTP " +:+ pretty status +:+ ": " +:+ display_value error_payload))
      else if str_is_empty (trim raw) then Ok []
      else
        match json_from_str raw with
        | Ok (JObject map) => Ok map
        | Ok _ => Ok []
        | Err error => Err (ARuntime ("A4P HTTP response is not valid JSON: " +:+ error))
        end
  end.
End client.

(** * What survives the wire *)

(** No object inside the value has a [null] entry. *)
Fixpoint null_free (value : Value) : bool :=
  match value with
  | JObject map =>
      (fix go map :=
         match map with
         | [] => true
         | (key, value) :: map => negb (is_null value) && null_free value && go map
         end) map
  | JArray items =>
      (fix go items := match items with [] => true | item :: items => null_free item && go items end) items
  | _ => true
  end.

Definition null_free_dict (map : JsonDict) : bool := null_free (JObject map).

Lemma strip_nulls_object_eq map : strip_nulls_value (JObject map) = JObject (strip_nulls_object map).
Proof.
  done.
Qed.

Lemma null_free_cons key v map :
  null_free_dict ((key, v) :: map) = negb (is_null v) && null_free v && null_free_dict map.
Proof. done. Qed.

(** A value without nulls is sent as it is. *)
Lemma strip_null_free v : null_free v = true → strip_nulls_value v = v.
Proof.
  induction v as [|b|n|s|l IH|m IH] using value_ind'; try done.
  - cbn [null_free strip_nulls_value]. intros Hl. f_equal. induction IH as [|v l Hv IH IHl]; [done|].
    apply andb_true_iff in Hl as [Hv' Hl]. by rewrite Hv, IHl.
  - intros Hm. rewrite strip_nulls_object_eq. f_equal. change (null_free_dict m = true) in Hm.
    induction IH as [|[key v] m Hv IH IHm]; [done|]. rewrite null_free_cons in Hm.
    apply andb_true_iff in Hm as [[Hn Hv']%andb_true_iff Hm]. cbn [strip_nulls_object].
    apply negb_true_iff in Hn. rewrite Hn. cbn [snd] in Hv. by rewrite Hv, IHm.
Qed.

Lemma strip_null_free_dict m : null_free_dict m = true → strip_nulls_object m = m.
Proof. intros Hm%strip_null_free. rewrite strip_nulls_object_eq in Hm. by injection Hm. Qed.

Lemma aget_strip key m :
  NoDup (akeys m) →
  aget key (strip_nulls_object m) =
    match aget key m with
    | Some v => if is_null v then None else Some (strip_nulls_value v)
    | None => None
    end.
Proof.
  unfold akeys. induction m as [|[k v] m IH]; [done|]. cbn [fmap list_fmap strip_nulls_object aget fst].
  rewrite NoDup_cons. intros [Hk Hnd]. specialize (IH Hnd).
  destruct (is_null v) eqn:Hv; cbn [aget]; destruct (decide (key = k)) as [->|Hne].
  - rewrite IH, Hv. apply aget_None_keys in Hk. unfold akeys in Hk. by rewrite Hk.
  - done.
  - by rewrite Hv.
  - done.
Qed.

(** A value that loses something is not the value it was. *)
Lemma strip_length m : length (strip_nulls_object m) ≤ length m.
Proof. induction m as [|[k v] m IH]; [done|]. cbn [strip_nulls_object length]. destruct (is_null v); simpl; lia. Qed.

Lemma strip_length_eq m :
  length (strip_nulls_object m) = length m → Forall (λ kv, is_null kv.2 = false) m.
Proof.
  induction m as [|[k v] m IH]; [constructor|]. cbn [strip_nulls_object length]. pose proof (strip_length m).
  destruct (is_null v) eqn:Hv; cbn [length]; [lia|]. intros [= Hlen]. constructor; auto.
Qed.

Lemma null_free_dict_Forall m :
  Forall (λ kv, is_null kv.2 = false ∧ null_free kv.2 = true) m → null_free_dict m = true.
Proof.
  induction 1 as [|[k v] m [Hn Hv] _ IH]; [done|]. cbn [snd] in *. rewrite null_free_cons, IH, Hv. by rewrite Hn.
Qed.

Lemma object_eqb_aget x y k v :
  value_eqb (JObject x) (JObject y) = true → aget k x = Some v →
  ∃ w, aget k y = Some w ∧ value_eqb v w = true.
Proof.
  cbn [value_eqb]. intros [_ Hgo]%andb_true_iff Hk. apply aget_Some_elem in Hk.
  induction x as [|[k' v'] x IH]; [by apply not_elem_of_nil in Hk|].
  apply andb_true_iff in Hgo as [Hhd Hgo]. cbn [fst snd] in Hhd. apply elem_of_cons in Hk as [[= <- <-]|Hk]; [|eauto].
  destruct (aget k y) as [w|]; [|done]. by exists w.
Qed.

Lemma strip_eqb v : wf_value v → value_eqb (strip_nulls_value v) v = true → null_free v = true.
Proof.
  induction v as [|b|n|s|l IH|m IH] using value_ind'; inversion_clear 1 as [| | | |? Hall|? Hnd Hall]; try done.
  - cbn [null_free strip_nulls_value value_eqb]. induction IH as [|v l Hv IH IHl]; [done|].
    inversion_clear Hall. intros [Hv' Hl]%andb_true_iff. rewrite Hv by done. auto.
  - rewrite strip_nulls_object_eq. intros Heq. pose proof Heq as Hlen. cbn [value_eqb] in Hlen.
    apply andb_true_iff in Hlen as [Hlen%Nat.eqb_eq _]. apply strip_length_eq in Hlen.
    apply null_free_dict_Forall. rewrite Forall_forall in *. intros [k v] Hkv. cbn [snd].
    specialize (Hlen _ Hkv). specialize (Hall _ Hkv). cbn [snd] in *. split; [done|].
    pose proof (aget_strip k m Hnd) as Hk. rewrite (aget_elem k v m) in Hk by done. rewrite Hlen in Hk.
    destruct (object_eqb_aget _ _ _ _ Heq Hk) as (w & Hw & Hvw). rewrite (aget_elem k v m) in Hw by done.
    injection Hw as <-. by apply (IH _ Hkv).
Qed.

(** * Answers survive the wire *)

Definition null_free_opt (o : option JsonDict) : bool :=
  match o with Some m => null_free_dict m | None => true end.

Definition null_free_result (o : option VerificationResult) : bool :=
  match o with Some r => null_free_opt (vr_matched_scope r) | None => true end.

Lemma null_free_dict_app m m' : null_free_dict (m ++ m') = null_free_dict m && null_free_dict m'.
Proof.
  induction m as [|[k v] m IH]; [done|]. rewrite <-app_comm_cons, !null_free_cons, IH. by rewrite !andb_assoc.
Qed.

Lemma null_free_optional_string k (o : option string) : null_free_dict (optional_field k (JString <$> o)) = true.
Proof. by destruct o. Qed.

Lemma null_free_optional_object k (o : option JsonDict) :
  null_free_dict (optional_field k (JObject <$> o)) = null_free_opt o.
Proof. destruct o as [m|]; [|done]. cbn. by rewrite andb_true_r. Qed.

Lemma null_free_object_field k m : null_free_dict [(k, JObject m)] = null_free_dict m.
Proof. rewrite null_free_cons. cbn. by rewrite andb_true_r. Qed.

Lemma null_free_bool_field k b : null_free_dict [(k, JBool b)] = true.
Proof. done. Qed.

Lemma null_free_verification_result r :
  null_free_dict (verification_result_to_json r) = null_free_opt (vr_matched_scope r).
Proof.
  unfold verification_result_to_json.
  by rewrite !null_free_dict_app, !null_free_optional_string, null_free_optional_object.
Qed.

Lemma null_free_optional_result k o :
  null_free_dict (optional_field k ((λ v, JObject (verification_result_to_json v)) <$> o)) = null_free_result o.
Proof.
  destruct o as [r|]; [|done]. cbn [fmap option_fmap option_map optional_field].
  by rewrite null_free_object_field, null_free_verification_result.
Qed.

#[export] Hint Rewrite null_free_dict_app null_free_optional_string null_free_optional_object
  null_free_object_field null_free_bool_field null_free_optional_result : null_free.

(** What is written of an answer without nulls is sent whole. *)
Ltac sent_whole :=
  unfold to_payload; rewrite strip_null_free_dict;
  [|unfold intent_response_to_json, token_response_to_json, challenge_to_json, operation_result_to_json;
    autorewrite with null_free; cbn [ir_mandate ir_signing_options ir_intent_token ir_verification_result
      tr_matched_scope oc_mandate oc_signing_options oc_verification_result or_verification_result];
    repeat match goal with H : _ = true |- _ => rewrite H end; reflexivity].

(** Reading the fields of what was written. *)
Ltac read_fields :=
  unfold read_prepare, read_complete, read_challenge, read_operation_result, get_object, flag_of,
    optional_string, intent_response_to_json, challenge_to_json, operation_result_to_json;
  cbn [optional_field fmap option_fmap option_map app aget ir_mandate ir_signing_options ir_intent_token
    ir_verification_result ir_approved ir_reject_reason oc_mandate oc_signing_options
    oc_verification_result oc_reject_reason or_operation_id or_approved or_verification_result
    or_reject_reason] in *;
  decide_literals; cbn [mbind option_bind as_object is_null py_str is_truthy id default].

Section wire.
Context `{!JsonDisplay}.

Lemma read_verification_result o :
  verification_result_from_payload ((λ v, JObject (verification_result_to_json v)) <$> o) = o.
Proof. by destruct o as [[valid [reason|] [code|] [scope|]]|]. Qed.

Lemma read_token_verification_sent r :
  null_free_opt (tr_matched_scope r) = true →
  read_token_verification (to_payload (token_response_to_json r)) = r.
Proof.
  intros Hs. sent_whole. by destruct r as [valid [reason|] [code|] [scope|]].
Qed.

Lemma read_prepare_sent r :
  ir_intent_token r = None → null_free_opt (ir_mandate r) = true →
  null_free_dict (ir_signing_options r) = true → null_free_result (ir_verification_result r) = true →
  read_prepare (to_payload (intent_response_to_json r)) = r.
Proof.
  destruct r as [mandate options token result approved reason]; cbn [ir_intent_token ir_mandate
    ir_signing_options ir_verification_result]. intros -> Hm Ho Hr. sent_whole.
  pose proof (read_verification_result result) as Hread.
  by destruct mandate, result as [r|], reason; read_fields; rewrite ?Hread.
Qed.

Lemma read_complete_sent r :
  ir_signing_options r = [] → null_free_opt (ir_mandate r) = true →
  null_free_opt (ir_intent_token r) = true → null_free_result (ir_verification_result r) = true →
  read_complete (to_payload (intent_response_to_json r)) = r.
Proof.
  destruct r as [mandate options token result approved reason]; cbn [ir_intent_token ir_mandate
    ir_signing_options ir_verification_result]. intros -> Hm Ht Hr. sent_whole.
  pose proof (read_verification_result result) as Hread.
  by destruct mandate, token, result as [r|], reason; read_fields; rewrite ?Hread.
Qed.

Lemma read_challenge_sent r :
  null_free_opt (oc_mandate r) = true → null_free_dict (oc_signing_options r) = true →
  null_free_result (oc_verification_result r) = true →
  read_challenge (to_payload (challenge_to_json r)) = r.
Proof.
  destruct r as [mandate options result reason]; cbn [oc_mandate oc_signing_options oc_verification_result].
  intros Hm Ho Hr. sent_whole.
  pose proof (read_verification_result result) as Hread.
  by destruct mandate, result as [r|], reason; read_fields; rewrite ?Hread.
Qed.

Lemma read_operation_result_sent r :
  or_operation_id r ≠ Some "" → null_free_result (or_verification_result r) = true →
  read_operation_result (to_payload (operation_result_to_json r)) = r.
Proof.
  destruct r as [id approved result reason]; cbn [or_operation_id or_verification_result].
  intros Hid Hr. sent_whole.
  pose proof (read_verification_result result) as Hread.
  destruct id as [[|c id]|]; [done|..]; by destruct result as [r|], reason; read_fields; rewrite ?Hread.
Qed.
End wire.

(** * Calls over HTTP *)

(** serde_json reads back what it writes, and writes visible text. *)
Class HttpJsonLaws `{!HttpJson} := {
  json_written v : wf_value v → is_Some (json_to_string v);
  json_read_back v t : wf_value v → json_to_string v = Some t → json_from_str t = Ok v;
  json_utf8 v t : json_to_string v = Some t → utf8_error t = None;
  json_visible v t : json_to_string v = Some t → trim t ≠ ""
}.

Definition wf_opt (o : option JsonDict) : Prop := ∀ m, o = Some m → wf_value (JObject m).

Definition wf_result (o : option VerificationResult) : Prop := ∀ r, o = Some r → wf_opt (vr_matched_scope r).

(** Answers are objects with one entry per key. *)
Ltac wf_answer :=
  repeat match goal with |- context [optional_field _ (_ <$> ?o)] =>
    match o with
    | Some _ => fail 1 | None => fail 1
    | _ => let E := fresh "E" in destruct o eqn:E
    end end;
  cbn [optional_field fmap option_fmap option_map app];
  (apply wf_object_literal; [reflexivity|]);
  repeat (apply List.Forall_cons; [cbn [snd]; first [by constructor|by eauto with rust]|]);
  try apply List.Forall_nil.

Lemma wf_verification_result r : wf_opt (vr_matched_scope r) → wf_value (JObject (verification_result_to_json r)).
Proof. unfold wf_opt. intros Hs. unfold verification_result_to_json. wf_answer. Qed.

#[export] Hint Resolve wf_verification_result : rust.

Lemma wf_intent_response r :
  wf_opt (ir_mandate r) → wf_value (JObject (ir_signing_options r)) → wf_opt (ir_intent_token r) →
  wf_result (ir_verification_result r) → wf_value (JObject (intent_response_to_json r)).
Proof.
  destruct r as [mandate options token result approved reason]; cbn [ir_intent_token ir_mandate
    ir_signing_options ir_verification_result]. unfold wf_opt at 1 2, wf_result. intros Hm Ho Ht Hr.
  unfold intent_response_to_json. cbn [ir_mandate ir_signing_options ir_intent_token
    ir_verification_result ir_approved ir_reject_reason]. wf_answer.
Qed.

Lemma wf_token_response r : wf_opt (tr_matched_scope r) → wf_value (JObject (token_response_to_json r)).
Proof. unfold wf_opt. intros Hs. unfold token_response_to_json. wf_answer. Qed.

Lemma wf_operation_result r :
  wf_result (or_verification_result r) → wf_value (JObject (operation_result_to_json r)).
Proof.
  destruct r as [id approved result reason]; cbn [or_verification_result]. unfold wf_result. intros Hr.
  unfold operation_result_to_json. cbn [or_operation_id or_approved or_verification_result or_reject_reason].
  wf_answer.
Qed.

Lemma wf_challenge r :
  wf_opt (oc_mandate r) → wf_value (JObject (oc_signing_options r)) → wf_result (oc_verification_result r) →
  wf_value (JObject (challenge_to_json r)).
Proof.
  destruct r as [mandate options result reason]; cbn [oc_mandate oc_signing_options oc_verification_result].
  unfold wf_opt at 1, wf_result. intros Hm Ho Hr.
  unfold challenge_to_json. cbn [oc_mandate oc_signing_options oc_verification_result oc_reject_reason].
  wf_answer.
Qed.

Section calls.
Context `{!JsonDisplay, !JsonText, !Chrono, !Crypto, !HttpJson, !HttpJsonLaws}.
Context {S U : Type} (server : A4PServer S U) (inputs : RequestInputs).
Implicit Types st : ServerState S U.

(** The client posts [request] and the server answers from [st]: the payload
    the client gets and the state left behind. *)
Definition post_to_server (path : string) (request : JsonDict) st :
    option (result JsonDict A4PError * ServerState S U) :=
  body ← json_to_string (JObject request);
  let '(status, text, st) := handle_request server inputs "POST" path body st in
  Some (read_post (Ok (status, text)), st).

(** A payload the server gives reaches the client unchanged. *)
Lemma post_served path request st body st' :
  wf_value (JObject request) → wf_value (JObject body) →
  call_endpoint server inputs path request st = Some (Ok body, st') →
  post_to_server path request st = Some (Ok body, st').
Proof.
  intros Hreq Hbody Hcall. unfold post_to_server. destruct (json_written _ Hreq) as [text Htext].
  rewrite Htext. cbn [mbind option_bind]. unfold handle_request. rewrite bool_decide_eq_true_2 by done.
  cbn [negb]. rewrite (json_utf8 _ _ Htext).
  replace (if str_is_empty text then "{}" else text) with text.
  2:{ destruct text; [|done]. pose proof (json_visible _ _ Htext) as []. done. }
  rewrite (json_read_back _ _ Hreq Htext). unfold dispatch. rewrite Hcall.
  destruct (json_written _ Hbody) as [answer Hanswer]. unfold json_response. rewrite Hanswer.
  cbn [default Z.leb Z.compare andb Pos.compare Pos.compare_cont]. unfold read_post.
  cbn [Z.leb Z.compare andb negb Pos.compare Pos.compare_cont id].
  pose proof (json_visible _ _ Hanswer) as Hvis. apply str_is_empty_false in Hvis. rewrite Hvis.
  by rewrite (json_read_back _ _ Hbody Hanswer).
Qed.

(** An answer all of whose parts are objects that JSON text carries and the
    server sends whole. *)
Definition sendable (o : option JsonDict) : Prop := wf_opt o ∧ null_free_opt o = true.

Definition sendable_result (o : option VerificationResult) : Prop :=
  wf_result o ∧ null_free_result o = true.

Lemma sent_body {R} (to_json : R → JsonDict) r :
  wf_value (JObject (to_json r)) → null_free_dict (to_json r) = true →
  wf_value (JObject (to_payload (to_json r))).
Proof. intros Hwf Hn. unfold to_payload. by rewrite strip_null_free_dict. Qed.

Ltac sendable_parts :=
  unfold sendable, sendable_result in *; destruct_and?;
  unfold intent_response_to_json, token_response_to_json, challenge_to_json, operation_result_to_json;
  autorewrite with null_free; cbn [null_free_opt] in *;
  repeat match goal with H : _ = true |- _ => rewrite H end; reflexivity.

Lemma intent_body_wf r :
  sendable (ir_mandate r) → sendable (Some (ir_signing_options r)) → sendable (ir_intent_token r) →
  sendable_result (ir_verification_result r) → wf_value (JObject (to_payload (intent_response_to_json r))).
Proof.
  intros Hm Ho Ht Hr. apply sent_body; [|by sendable_parts].
  apply wf_intent_response; [apply Hm|by apply Ho|apply Ht|apply Hr].
Qed.

(** Calling over HTTP is calling: for each of the five authorization
    calls, what the client reads is what the server answered from the same
    state, and the state left behind is the same, when the answer has no null
    entries and, for an approved operation, a non-empty id. *)
Theorem remote_calls_are_local request st st' :
  wf_value (JObject request) →
  (∀ r, prepare_intent_authorization server (ri_intent_key inputs) (ri_random1 inputs) (ri_now1 inputs)
      request st = (Ok r, st') →
    sendable (ir_mandate r) → sendable (Some (ir_signing_options r)) → ir_intent_token r = None →
    sendable_result (ir_verification_result r) →
    ∃ payload, post_to_server "/a4p/v1/intent-authorizations/prepare" request st = Some (Ok payload, st') ∧
      read_prepare payload = r) ∧
  (∀ r, complete_intent_authorization server (ri_intent_key inputs) (ri_random1 inputs) (ri_random2 inputs)
      (ri_now1 inputs) (ri_now2 inputs) request st = (Ok r, st') →
    sendable (ir_mandate r) → ir_signing_options r = [] → sendable (ir_intent_token r) →
    sendable_result (ir_verification_result r) →
    ∃ payload, post_to_server "/a4p/v1/intent-authorizations/complete" request st = Some (Ok payload, st') ∧
      read_complete payload = r) ∧
  (∀ r, server_verify_intent_token server (ri_intent_key inputs) (ri_now1 inputs) (ri_now2 inputs)
      request st = (r, st') →
    sendable (tr_matched_scope r) →
    ∃ payload, post_to_server "/a4p/v1/intent-tokens/verify" request st = Some (Ok payload, st') ∧
      read_token_verification payload = r) ∧
  (∀ r, prepare_operation_authorization server (ri_operation_key inputs) (ri_random1 inputs)
      (ri_now1 inputs) (ri_now2 inputs) request st = (Ok r, st') →
    sendable (oc_mandate r) → sendable (Some (oc_signing_options r)) →
    sendable_result (oc_verification_result r) →
    ∃ payload, post_to_server "/a4p/v1/operation-authorizations/prepare" request st = Some (Ok payload, st') ∧
      read_challenge payload = r) ∧
  (∀ r, complete_operation_authorization server (ri_operation_key inputs) (ri_now1 inputs) (ri_now2 inputs)
      request st = (r, st') →
    or_operation_id r ≠ Some "" → sendable_result (or_verification_result r) →
    ∃ payload, post_to_server "/a4p/v1/operation-authorizations/complete" request st = Some (Ok payload, st') ∧
      read_operation_result payload = r).
Proof.
  intros Hreq. split; [|split; [|split; [|split]]].
  - intros r Hcall Hm Ho Ht Hr. eexists. split.
    + apply post_served; [done|..]; cycle 1.
      { unfold call_endpoint. decide_literals. unfold payload_of. by rewrite Hcall. }
      apply intent_body_wf; try done. rewrite Ht. split; done.
    + by apply read_prepare_sent; [|apply Hm|apply Ho|apply Hr].
  - intros r Hcall Hm Ho Ht Hr. eexists. split.
    + apply post_served; [done|..]; cycle 1.
      { unfold call_endpoint. decide_literals. unfold payload_of. by rewrite Hcall. }
      apply intent_body_wf; try done. rewrite Ho. split; [|done]. intros m [= <-]. by repeat constructor.
    + by apply read_complete_sent; [|apply Hm|apply Ht|apply Hr].
  - intros r Hcall Hs. eexists. split.
    + apply post_served; [done|..]; cycle 1.
      { unfold call_endpoint. decide_literals. by rewrite Hcall. }
      apply sent_body; [|by sendable_parts]. apply wf_token_response, Hs.
    + apply read_token_verification_sent, Hs.
  - intros r Hcall Hm Ho Hr. eexists. split.
    + apply post_served; [done|..]; cycle 1.
      { unfold call_endpoint. decide_literals. unfold payload_of. by rewrite Hcall. }
      apply sent_body; [|by sendable_parts]. apply wf_challenge; [apply Hm|by apply Ho|apply Hr].
    + by apply read_challenge_sent; [apply Hm|apply Ho|apply Hr].
  - intros r Hcall Hid Hr. eexists. split.
    + apply post_served; [done|..]; cycle 1.
      { unfold call_endpoint. decide_literals. by rewrite Hcall. }
      apply sent_body; [|by sendable_parts]. apply wf_operation_result, Hr.
    + by apply read_operation_result_sent; [|apply Hr].
Qed.
End calls.

(** * Mandates with nulls *)

Section nulls.
Context `{!JsonDisplay, !JsonText, !Chrono, !Crypto}.

(** The entries of a mandate that normalizing leaves alone. *)
Lemma aget_clear_normalized m n k :
  normalize_intent_mandate m = Ok n →
  k ∉ ["type"; "intent"; "signatures"; "userAuthorization"] →
  aget k (clear_user_signature n) = aget k m.
Proof.
  unfold normalize_intent_mandate. destruct (normalize_intent_scope _) as [scope|]; [|done].
  rewrite !not_elem_of_cons. intros [= <-] (Ht & Hi & Hs & Hu & _). unfold clear_user_signature, ahas.
  rewrite aget_im_insert_ne, aget_im_insert_eq by done. cbn [default].
  unfold signature_container. cbv beta iota delta [id]. rewrite !aget_im_insert_ne by congruence. done.
Qed.

(** What the client got of a mandate, signed, is not what is pending. *)
Lemma stripped_mismatch m signature k v :
  wf_value (JObject m) → k ∉ ["type"; "intent"; "signatures"; "userAuthorization"] →
  aget k m = Some v → is_null v = false → null_free v = false →
  mandate_matches_pending (attach_user_signature (strip_nulls_object m) signature) m
    normalize_intent_mandate = false.
Proof.
  intros Hwf Hk Hv Hnull Hfree. unfold mandate_matches_pending.
  destruct (normalize_intent_mandate (attach_user_signature _ _)) as [n|] eqn:Hn; [|done].
  destruct (normalize_intent_mandate m) as [n'|] eqn:Hn'; [|done].
  destruct (value_eqb _ _) eqn:Heq; [|done]. exfalso.
  assert (Hks : k ≠ "signatures") by set_solver.
  assert (Hsent : aget k (clear_user_signature n) = Some (strip_nulls_value v)).
  { rewrite (aget_clear_normalized _ _ _ Hn Hk). unfold attach_user_signature.
    rewrite aget_im_insert_ne by done. inversion_clear Hwf as [| | | | |? Hnd _].
    rewrite aget_strip by done. by rewrite Hv, Hnull. }
  destruct (object_eqb_aget _ _ _ _ Heq Hsent) as (w & Hw & Hvw).
  rewrite (aget_clear_normalized _ _ _ Hn' Hk), Hv in Hw. injection Hw as <-.
  apply strip_eqb in Hvw; [by rewrite Hvw in Hfree|]. by eapply wf_aget.
Qed.

(** An entry [null] inside a part of the mandate the server does not rewrite
    is lost on the way to the client, so nothing the client can sign is ever
    accepted: the answer is a mismatch whatever the signature. *)
Theorem null_fields_never_complete {S' U : Type} (svc : IntentAuthorizationService S' U)
    key rid rn nv ni request st p k v signature id :
  ist_pending st !! id = Some p → wf_value (JObject (pi_mandate p)) →
  aget "type" (pi_mandate p) = Some (JString INTENT_MANDATE_TYPE) →
  aget "mandateId" (pi_mandate p) = Some (JString id) → trim id = id → id ≠ "" →
  k ∉ ["type"; "intent"; "signatures"; "userAuthorization"] →
  aget k (pi_mandate p) = Some v → is_null v = false → null_free v = false →
  get_object request "signedMandate" =
    Some (attach_user_signature (strip_nulls_object (pi_mandate p)) signature) →
  complete svc key rid rn nv ni request st =
    (Ok (rejected (Some (pi_mandate p)) "Signed mandate does not match pending intent authorization"
       "MANDATE_PENDING_MISMATCH"), st).
Proof.
  set (m := pi_mandate p). intros Hp Hwf Ht Hid Htrim Hne Hk Hv Hnull Hfree Hreq.
  unfold complete. rewrite Hreq.
  assert (Hat : ∀ k s, k ≠ "signatures" → aget k m = Some (JString s) →
    aget k (attach_user_signature (strip_nulls_object m) signature) = Some (JString s)).
  { intros k' s Hk' Hs. unfold attach_user_signature. rewrite aget_im_insert_ne by done.
    inversion_clear Hwf as [| | | | |? Hnd _]. rewrite aget_strip by done. by rewrite Hs. }
  assert (mandate_identifier (attach_user_signature (strip_nulls_object m) signature) = Ok id) as ->.
  { unfold mandate_identifier. rewrite (Hat "type" INTENT_MANDATE_TYPE) by done.
    cbn [mbind option_bind as_str]. rewrite decide_True by done.
    unfold str_trimmed, str_or_empty. rewrite (Hat "mandateId" id) by done.
    assert (He : str_is_empty id = false) by by apply str_is_empty_false.
    cbn [is_truthy py_str]. rewrite He. cbn [negb]. by rewrite Htrim, He. }
  rewrite Hp. fold m. by rewrite (stripped_mismatch m signature k v).
Qed.
End nulls.
