(* ===== verification/Serde.v ===== *)
(** What serde derives for the wire structs of the MCP crate.

    A [Codec] is a pair of a writer and a reader of JSON values.  [Fields]
    describes the fields of a struct in the order of its declaration, each with
    the attribute it carries; [struct] is the codec the derive macros generate
    for it: the writer emits the fields in order, the reader takes an object in
    which unknown keys are ignored, or an array that lists the fields by
    position (serde_json calls [visit_seq] for it).  The texts of decoding
    errors are serde's and are not modelled: a failed decoding is [None].

    [ok] is the set of values a codec writes without loss; [CodecLaws] says
    that reading what was written gives the value back. *)
From S2P Require Import Prelude F64 RustMap Json.

Record Codec (A : Type) := mkCodec { enc : A → Value; dec : Value → option A; ok : A → Prop }.
Arguments mkCodec {A} _ _ _.
Arguments enc {A} _ _.
Arguments dec {A} _ _.
Arguments ok {A} _ _.

Class CodecLaws {A} (c : Codec A) : Prop := dec_enc a : ok c a → dec c (enc c a) = Some a.
(** No value of the codec is written as [null], so that it may be optional. *)
Class NotNull {A} (c : Codec A) : Prop := enc_not_null a : ok c a → is_null (enc c a) = false.
#[export] Hint Mode CodecLaws - ! : typeclass_instances.

(** * The basic types *)

Definition c_string : Codec string := mkCodec JString as_str (λ _, True).
Definition c_bool : Codec bool := mkCodec JBool as_bool (λ _, True).
Definition c_i64 : Codec Z := mkCodec value_of_i64 as_i64 in_i64.
(** A float that is not finite is written as [null]. *)
Definition c_f64 : Codec f64 :=
  mkCodec (λ f, if f64_is_finite f then JNumber (NFloat f) else JNull)
    (λ v, match v with JNumber n => Some (number_as_f64 n) | _ => None end)
    (λ f, f64_is_finite f = true).
Definition c_value : Codec Value := mkCodec id Some (λ v, v ≠ JNull).
Definition c_map : Codec JsonDict := mkCodec JObject as_object (λ _, True).

Fixpoint decode_all {A} (c : Codec A) (l : list Value) : option (list A) :=
  match l with
  | [] => Some []
  | v :: l => a ← dec c v; r ← decode_all c l; Some (a :: r)
  end.
Definition c_list {A} (c : Codec A) : Codec (list A) :=
  mkCodec (λ l, JArray (enc c <$> l))
    (λ v, match v with JArray l => decode_all c l | _ => None end)
    (Forall (ok c)).

(** A type with the same shape, for records. *)
Definition c_iso {A B} (to : A → B) (from : B → A) (c : Codec A) : Codec B :=
  mkCodec (λ b, enc c (from b)) (λ v, to <$> dec c v) (λ b, ok c (from b)).

(** * Fields *)

Record Fields (A : Type) := mkFields {
  fkeys : list string;
  fwrite : A → JsonDict;
  fread : JsonDict → option A;
  fseq : list Value → option (A * list Value);
  fok : A → Prop
}.
Arguments mkFields {A} _ _ _ _ _.
Arguments fkeys {A} _.
Arguments fwrite {A} _ _.
Arguments fread {A} _ _.
Arguments fseq {A} _ _.
Arguments fok {A} _ _.

(** A field without attribute: it must be there. *)
Definition f_req {A} (key : string) (c : Codec A) : Fields A :=
  mkFields [key] (λ a, [(key, enc c a)]) (λ m, aget key m ≫= dec c)
    (λ l, match l with v :: l => a ← dec c v; Some (a, l) | [] => None end) (ok c).
(** [#[serde(default)]]. *)
Definition f_dflt {A} (key : string) (c : Codec A) (d : A) : Fields A :=
  mkFields [key] (λ a, [(key, enc c a)])
    (λ m, match aget key m with Some v => dec c v | None => Some d end)
    (λ l, match l with v :: l => a ← dec c v; Some (a, l) | [] => Some (d, []) end) (ok c).
(** [#[serde(default, skip_serializing_if = Option::is_none)]] on an [Option]:
    an explicit [null] is [None]. *)
Definition dec_opt {A} (c : Codec A) (v : Value) : option (option A) :=
  if is_null v then Some None else Some <$> dec c v.
Definition f_opt {A} (key : string) (c : Codec A) : Fields (option A) :=
  mkFields [key] (λ o, match o with Some a => [(key, enc c a)] | None => [] end)
    (λ m, match aget key m with Some v => dec_opt c v | None => Some None end)
    (λ l, match l with v :: l => a ← dec_opt c v; Some (a, l) | [] => Some (None, []) end)
    (λ o, match o with Some a => ok c a | None => True end).
(** A struct without fields. *)
Definition f_unit : Fields () :=
  mkFields [] (λ _, []) (λ _, Some ()) (λ l, Some ((), l)) (λ _, True).
(** One field after another. *)
Definition f_pair {A B} (f : Fields A) (g : Fields B) : Fields (A * B) :=
  mkFields (fkeys f ++ fkeys g) (λ p, fwrite f p.1 ++ fwrite g p.2)
    (λ m, a ← fread f m; b ← fread g m; Some (a, b))
    (λ l, p ← fseq f l; q ← fseq g p.2; Some (p.1, q.1, q.2))
    (λ p, fok f p.1 ∧ fok g p.2).
Infix "⊗" := f_pair (at level 40, left associativity) : rust_scope.

(** The derived codec of a struct. *)
Definition struct {A} (f : Fields A) : Codec A :=
  mkCodec (λ a, JObject (fwrite f a))
    (λ v, match v with
          | JObject m => fread f m
          | JArray l =>
              match fseq f l with Some (a, []) => Some a | _ => None end
          | _ => None
          end)
    (fok f).
(** The derived codec of a record, through the tuple of its fields. *)
Definition record {A B} (to : A → B) (from : B → A) (f : Fields A) : Codec B := c_iso to from (struct f).

(** * Laws *)

#[export] Instance string_laws : CodecLaws c_string.
Proof. done. Qed.
#[export] Instance bool_laws : CodecLaws c_bool.
Proof. done. Qed.
#[export] Instance i64_laws : CodecLaws c_i64.
Proof. intros n Hn. by apply as_i64_value_of_i64. Qed.
#[export] Instance f64_laws : CodecLaws c_f64.
Proof. intros f Hf. simpl in *. by rewrite Hf. Qed.
#[export] Instance value_laws : CodecLaws c_value.
Proof. done. Qed.
#[export] Instance map_laws : CodecLaws c_map.
Proof. done. Qed.
#[export] Instance list_laws {A} (c : Codec A) : CodecLaws c → CodecLaws (c_list c).
Proof.
  intros Hc l Hl. cbn [c_list enc dec ok] in *. induction Hl as [|a l Ha Hl IH]; [done|].
  rewrite fmap_cons. cbn [decode_all]. rewrite (dec_enc a) by done. cbn. by rewrite IH.
Qed.

#[export] Instance string_not_null : NotNull c_string.
Proof. done. Qed.
#[export] Instance bool_not_null : NotNull c_bool.
Proof. done. Qed.
#[export] Instance i64_not_null : NotNull c_i64.
Proof. done. Qed.
#[export] Instance f64_not_null : NotNull c_f64.
Proof. intros f Hf. simpl in *. by rewrite Hf. Qed.
#[export] Instance value_not_null : NotNull c_value.
Proof. by intros []. Qed.
#[export] Instance map_not_null : NotNull c_map.
Proof. done. Qed.
#[export] Instance list_not_null {A} (c : Codec A) : NotNull (c_list c).
Proof. done. Qed.
#[export] Instance struct_not_null {A} (f : Fields A) : NotNull (struct f).
Proof. done. Qed.
#[export] Instance record_not_null {A B} (to : A → B) from f : NotNull (record to from f).
Proof. done. Qed.

(** What a description of fields promises: it only writes its keys, and reads
    its value back from any object that agrees with what it wrote on them. *)
Class FieldsLaws {A} (f : Fields A) : Prop := {
  fwrite_keys a : akeys (fwrite f a) ⊆ fkeys f;
  fread_write a m :
    fok f a → (∀ k, k ∈ fkeys f → aget k m = aget k (fwrite f a)) → fread f m = Some a
}.

#[export] Instance req_laws {A} key (c : Codec A) : CodecLaws c → FieldsLaws (f_req key c).
Proof.
  intros Hc. split; [intros a; simpl; set_solver|]. intros a m Ha Hm. simpl.
  rewrite Hm by set_solver. simpl. rewrite decide_True by done. by apply Hc.
Qed.
#[export] Instance dflt_laws {A} key (c : Codec A) d : CodecLaws c → FieldsLaws (f_dflt key c d).
Proof.
  intros Hc. split; [intros a; simpl; set_solver|]. intros a m Ha Hm. simpl.
  rewrite Hm by set_solver. simpl. rewrite decide_True by done. by apply Hc.
Qed.
#[export] Instance opt_laws {A} key (c : Codec A) : CodecLaws c → NotNull c → FieldsLaws (f_opt key c).
Proof.
  intros Hc Hn. split; [intros [a|]; simpl; set_solver|]. intros o m Ha Hm. simpl in *.
  rewrite Hm by set_solver. destruct o as [a|]; simpl; [|done].
  rewrite decide_True by done. unfold dec_opt. rewrite (enc_not_null a) by done. by rewrite (Hc a).
Qed.
#[export] Instance unit_laws : FieldsLaws f_unit.
Proof. split; [done|]. by intros []. Qed.

Lemma aget_app {V} k (m1 m2 : list (string * V)) :
  aget k (m1 ++ m2) = match aget k m1 with Some v => Some v | None => aget k m2 end.
Proof. induction m1 as [|[k1 v1] m1 IH]; simpl; [done|]. by case_decide. Qed.

(** The keys of two descriptions have to differ. *)
Class KeysDiffer {A B} (f : Fields A) (g : Fields B) : Prop :=
  keys_differ : bool_decide (Forall (λ k, k ∉ fkeys g) (fkeys f)) = true.
#[export] Hint Extern 0 (KeysDiffer _ _) => vm_compute; reflexivity : typeclass_instances.

#[export] Instance pair_laws {A B} (f : Fields A) (g : Fields B) :
  KeysDiffer f g → FieldsLaws f → FieldsLaws g → FieldsLaws (f_pair f g).
Proof.
  unfold KeysDiffer. rewrite bool_decide_eq_true, Forall_forall. intros Hd Hf Hg.
  split.
  - intros [a b]. simpl. unfold akeys. rewrite fmap_app.
    pose proof (fwrite_keys a) as Ha. pose proof (fwrite_keys b) as Hb. unfold akeys in *. set_solver.
  - intros [a b] m [Ha Hb] Hm. simpl in *.
    rewrite (fread_write a m Ha), (fread_write b m Hb); [done|..]; intros k Hk; rewrite Hm by set_solver;
      rewrite aget_app.
    + rewrite (proj2 (aget_None_keys k (fwrite f a))); [done|].
      intros Hin%fwrite_keys. by apply (Hd k).
    + destruct (aget k (fwrite f a)); [done|]. apply aget_None_keys. intros Hin%fwrite_keys. by apply (Hd k).
Qed.

#[export] Instance struct_laws {A} (f : Fields A) : FieldsLaws f → CodecLaws (struct f).
Proof. intros Hf a Ha. simpl. by apply fread_write. Qed.

(** A record is the tuple of its fields. *)
Class Iso {A B} (to : A → B) (from : B → A) : Prop := to_from b : to (from b) = b.
#[export] Hint Extern 0 (Iso _ _) => (intros []; reflexivity) : typeclass_instances.
#[export] Instance record_laws {A B} (to : A → B) from f :
  Iso to from → FieldsLaws f → CodecLaws (record to from f).
Proof.
  intros Hi Hf b Hb. unfold record, c_iso. cbn [enc dec ok] in *. rewrite (struct_laws f Hf) by done.
  simpl. by rewrite Hi.
Qed.

(** A struct inside an object with more entries in front, under other keys. *)
Lemma struct_read_tagged {A} (f : Fields A) `{!FieldsLaws f} k v a :
  k ∉ fkeys f → fok f a → dec (struct f) (JObject ((k, v) :: fwrite f a)) = Some a.
Proof.
  intros Hk Ha. simpl. apply fread_write; [done|]. intros k' Hk'. simpl. by rewrite decide_False by set_solver.
Qed.
