(* ===== verification/McpTypes.v ===== *)
(** The wire types of MCP: MCP/rust-sdk/src/types.rs.

    Each struct is a record with the codec its serde attributes derive; the
    hand-written [Serialize] and [Deserialize] implementations are translated
    one by one.  [json_text] is serde_json's printer ([Value::to_string]). *)
From S2P Require Import Prelude F64 RustMap RustStr Json JsonRpc Serde.

Class JsonText := json_text : Value → string.

(** * Progress tokens *)

Inductive ProgressToken := PNumber (n : Z) | PString (s : string).
#[export] Instance ProgressToken_eq_dec : EqDecision ProgressToken.
Proof. solve_decision. Defined.

(** [From<RequestId>]. *)
Definition token_of_id (id : RequestId) : ProgressToken :=
  match id with Number n => PNumber n | Str s => PString s end.
(** [to_request_id]. *)
Definition to_request_id (t : ProgressToken) : RequestId :=
  match t with
  | PNumber n => Number n
  | PString s => match parse_i64 s with Some n => Number n | None => Str s end
  end.

(** [#[serde(untagged)]]: the variants are tried in order. *)
Definition c_token : Codec ProgressToken :=
  mkCodec (λ t, match t with PNumber n => value_of_i64 n | PString s => JString s end)
    (λ v, match as_i64 v with Some n => Some (PNumber n) | None => PString <$> as_str v end)
    (λ t, match t with PNumber n => in_i64 n | PString _ => True end).
#[export] Instance token_laws : CodecLaws c_token.
Proof.
  intros [n|s] Ht; [|done]. cbn [c_token enc dec ok] in *. by rewrite as_i64_value_of_i64.
Qed.
#[export] Instance token_not_null : NotNull c_token.
Proof. by intros []. Qed.

Record RequestParamsMeta := mkMeta { progress_token : option ProgressToken }.
Definition c_meta : Codec RequestParamsMeta :=
  record mkMeta progress_token (f_opt "progressToken" c_token).

(** * Server capabilities *)

Record ListChanged := mkListChanged { list_changed : option bool }.
(** [PromptsCapabilities] and [ToolsCapabilities]. *)
Definition c_list_changed : Codec ListChanged :=
  record mkListChanged list_changed (f_opt "listChanged" c_bool).
Record ResourcesCapabilities := mkResourcesCapabilities {
  rc_subscribe : option bool; rc_list_changed : option bool
}.
Definition c_resources_capabilities : Codec ResourcesCapabilities :=
  record (λ '(s, l), mkResourcesCapabilities s l) (λ r, (rc_subscribe r, rc_list_changed r))
    (f_opt "subscribe" c_bool ⊗ f_opt "listChanged" c_bool).
(** [LoggingCapabilities {}]. *)
Definition c_marker : Codec () := struct f_unit.

Record ServerCapabilities := mkServerCapabilities {
  sc_experimental : option JsonDict; sc_logging : option (); sc_prompts : option ListChanged;
  sc_resources : option ResourcesCapabilities; sc_tools : option ListChanged
}.
Definition default_server_capabilities : ServerCapabilities := mkServerCapabilities None None None None None.
Definition c_server_capabilities : Codec ServerCapabilities :=
  record (λ '(e, l, p, r, t), mkServerCapabilities e l p r t)
    (λ c, (sc_experimental c, sc_logging c, sc_prompts c, sc_resources c, sc_tools c))
    (f_opt "experimental" c_map ⊗ f_opt "logging" c_marker ⊗ f_opt "prompts" c_list_changed ⊗
     f_opt "resources" c_resources_capabilities ⊗ f_opt "tools" c_list_changed).

(** * Client capabilities *)

Definition is_object (v : Value) : bool := match v with JObject _ => true | _ => false end.
(** [v.get(key).map(Value::is_object).unwrap_or(false)]. *)
Definition has_object (key : string) (v : Value) : bool := from_option is_object false (vget key v).
Definition empty_object : Value := JObject [].
Definition entry_if (b : bool) (key : string) (v : Value) : JsonDict := if b then [(key, v)] else [].

Record SamplingCapability := mkSamplingCapability { sa_context : bool; sa_tools : bool }.
Definition c_sampling_capability : Codec SamplingCapability :=
  mkCodec (λ s, JObject (entry_if (sa_context s) "context" empty_object ++
                         entry_if (sa_tools s) "tools" empty_object))
    (λ v, Some (mkSamplingCapability (has_object "context" v) (has_object "tools" v)))
    (λ _, True).

Record ElicitationCapability := mkElicitationCapability { el_form : option (); el_url : option () }.
(** Written as an empty object, whatever it holds. *)
Definition c_elicitation_capability : Codec ElicitationCapability :=
  mkCodec (λ _, empty_object)
    (λ v, Some (mkElicitationCapability (if has_object "form" v then Some () else None)
                  (if has_object "url" v then Some () else None)))
    (λ e, el_form e = None ∧ el_url e = None).

Record RootsCapability := mkRootsCapability { ro_list_changed : bool }.
Definition c_roots_capability : Codec RootsCapability :=
  mkCodec (λ r, JObject (entry_if (ro_list_changed r) "listChanged" (JBool true)))
    (λ v, Some (mkRootsCapability (default false (vget "listChanged" v ≫= as_bool))))
    (λ _, True).

Record ClientTasksCapability := mkClientTasksCapability {
  ct_list : bool; ct_cancel : bool; ct_sampling_create_message : bool; ct_elicitation_create : bool
}.
Definition c_tasks_capability : Codec ClientTasksCapability :=
  mkCodec
    (λ t, JObject (entry_if (ct_list t) "list" empty_object ++ entry_if (ct_cancel t) "cancel" empty_object ++
            entry_if (ct_sampling_create_message t || ct_elicitation_create t) "requests"
              (JObject (entry_if (ct_sampling_create_message t) "sampling"
                          (JObject [("createMessage", empty_object)]) ++
                        entry_if (ct_elicitation_create t) "elicitation"
                          (JObject [("create", empty_object)])))))
    (λ v, Some (
       if negb (is_object v) then mkClientTasksCapability false false false false else
       let req := match vget "requests" v with Some r => if is_object r then Some r else None | None => None end in
       let nested a b := from_option is_object false (r ← req; s ← vget a r; vget b s) in
       mkClientTasksCapability (has_object "list" v) (has_object "cancel" v)
         (nested "sampling" "createMessage") (nested "elicitation" "create")))
    (λ _, True).

Record ClientCapabilities := mkClientCapabilities {
  cc_experimental : option JsonDict; cc_sampling : option SamplingCapability;
  cc_elicitation : option ElicitationCapability; cc_roots : option RootsCapability;
  cc_tasks : option ClientTasksCapability
}.
Definition default_client_capabilities : ClientCapabilities := mkClientCapabilities None None None None None.

Definition opt_entry {A} (key : string) (f : A → Value) (o : option A) : JsonDict :=
  match o with Some a => [(key, f a)] | None => [] end.
(** [obj.get(key).filter(is_object)], decoded where it is there. *)
Definition object_field {A} (c : Codec A) (key : string) (m : JsonDict) : option A :=
  match aget key m with Some v => if is_object v then dec c v else None | None => None end.

Definition client_capabilities_fields (c : ClientCapabilities) : JsonDict :=
  opt_entry "experimental" JObject (cc_experimental c) ++
  opt_entry "sampling" (enc c_sampling_capability) (cc_sampling c) ++
  opt_entry "elicitation" (λ _, empty_object) (cc_elicitation c) ++
  opt_entry "tasks" (enc c_tasks_capability) (cc_tasks c) ++
  opt_entry "roots" (enc c_roots_capability) (cc_roots c).
Definition client_capabilities_of (m : JsonDict) : ClientCapabilities :=
  mkClientCapabilities (object_field c_map "experimental" m) (object_field c_sampling_capability "sampling" m)
    (object_field c_elicitation_capability "elicitation" m) (object_field c_roots_capability "roots" m)
    (object_field c_tasks_capability "tasks" m).
Definition c_client_capabilities : Codec ClientCapabilities :=
  mkCodec (λ c, JObject (client_capabilities_fields c))
    (λ v, Some (match v with JObject m => client_capabilities_of m | _ => default_client_capabilities end))
    (λ c, from_option (ok c_elicitation_capability) True (cc_elicitation c)).

(** * Implementation *)

Record Icon := mkIcon {
  ic_src : string; ic_mime_type : option string; ic_sizes : option (list string); ic_theme : option string
}.
Definition c_icon : Codec Icon :=
  record (λ '(s, m, z, t), mkIcon s m z t) (λ i, (ic_src i, ic_mime_type i, ic_sizes i, ic_theme i))
    (f_req "src" c_string ⊗ f_opt "mimeType" c_string ⊗ f_opt "sizes" (c_list c_string) ⊗ f_opt "theme" c_string).

Record Implementation := mkImplementation {
  im_name : string; im_title : option string; im_version : string; im_website_url : option string;
  im_icons : option (list Icon)
}.
Definition default_implementation : Implementation := mkImplementation "" None "" None None.
Definition implementation_new (name version : string) : Implementation :=
  mkImplementation name None version None None.
Definition c_implementation : Codec Implementation :=
  record (λ '(n, t, v, w, i), mkImplementation n t v w i)
    (λ i, (im_name i, im_title i, im_version i, im_website_url i, im_icons i))
    (f_dflt "name" c_string "" ⊗ f_opt "title" c_string ⊗ f_dflt "version" c_string "" ⊗
     f_opt "websiteUrl" c_string ⊗ f_opt "icons" (c_list c_icon)).

(** * Content *)

Inductive RoleType := RoleUser | RoleAssistant.
Definition role_str (r : RoleType) : string :=
  match r with RoleUser => "user" | RoleAssistant => "assistant" end.
(** Any other string is the user. *)
Definition c_role : Codec RoleType :=
  mkCodec (JString ∘ role_str)
    (λ v, s ← as_str v; Some (if decide (s = "assistant") then RoleAssistant else RoleUser))
    (λ _, True).

Record Annotations := mkAnnotations {
  an_audience : option (list RoleType); an_last_modified : option string; an_priority : option f64
}.
Definition c_annotations : Codec Annotations :=
  record (λ '(a, l, p), mkAnnotations a l p) (λ a, (an_audience a, an_last_modified a, an_priority a))
    (f_opt "audience" (c_list c_role) ⊗ f_opt "lastModified" c_string ⊗ f_opt "priority" c_f64).

Record TextContent := mkTextContent { tc_text : string; tc_annotations : option Annotations }.
Definition f_text_content : Fields (string * option Annotations) :=
  f_dflt "text" c_string "" ⊗ f_opt "annotations" c_annotations.
Definition text_new (text : string) : TextContent := mkTextContent text None.

(** [ImageContent] and [AudioContent] have the same fields. *)
Record MediaContent := mkMediaContent {
  mc_data : string; mc_mime_type : string; mc_annotations : option Annotations
}.
Definition f_media_content : Fields (string * string * option Annotations) :=
  f_dflt "data" c_string "" ⊗ f_req "mimeType" c_string ⊗ f_opt "annotations" c_annotations.

Record TextResourceContents := mkTextResource {
  tr_uri : string; tr_text : string; tr_mime_type : option string
}.
Definition c_text_resource : Codec TextResourceContents :=
  record (λ '(u, t, m), mkTextResource u t m) (λ r, (tr_uri r, tr_text r, tr_mime_type r))
    (f_req "uri" c_string ⊗ f_dflt "text" c_string "" ⊗ f_opt "mimeType" c_string).
Record BlobResourceContents := mkBlobResource {
  br_uri : string; br_blob : string; br_mime_type : option string
}.
Definition c_blob_resource : Codec BlobResourceContents :=
  record (λ '(u, b, m), mkBlobResource u b m) (λ r, (br_uri r, br_blob r, br_mime_type r))
    (f_req "uri" c_string ⊗ f_dflt "blob" c_string "" ⊗ f_opt "mimeType" c_string).

Inductive ResourceContents := RText (t : TextResourceContents) | RBlob (b : BlobResourceContents).
Definition resource_contents_from (v : Value) : option ResourceContents :=
  if bool_decide (is_Some (vget "text" v)) then RText <$> dec c_text_resource v
  else if bool_decide (is_Some (vget "blob" v)) then RBlob <$> dec c_blob_resource v
  else Some (RText (mkTextResource (default "" (vget "uri" v ≫= as_str)) "" None)).
Definition c_resource_contents : Codec ResourceContents :=
  mkCodec (λ r, match r with RText t => enc c_text_resource t | RBlob b => enc c_blob_resource b end)
    resource_contents_from
    (λ r, match r with RText t => ok c_text_resource t | RBlob b => ok c_blob_resource b end).

Record EmbeddedResource := mkEmbedded { er_resource : ResourceContents; er_annotations : option Annotations }.
Definition f_embedded : Fields (ResourceContents * option Annotations) :=
  f_req "resource" c_resource_contents ⊗ f_opt "annotations" c_annotations.

Record ResourceLink := mkResourceLink {
  rl_uri : string; rl_name : string; rl_title : option string; rl_description : option string;
  rl_mime_type : option string; rl_size : option Z; rl_icons : option (list Icon);
  rl_annotations : option Annotations
}.
Definition f_resource_link :=
  f_req "uri" c_string ⊗ f_req "name" c_string ⊗ f_opt "title" c_string ⊗ f_opt "description" c_string ⊗
  f_opt "mimeType" c_string ⊗ f_opt "size" c_i64 ⊗ f_opt "icons" (c_list c_icon) ⊗
  f_opt "annotations" c_annotations.

Record ToolAnnotations := mkToolAnnotations {
  ta_title : option string; ta_read_only_hint : option bool; ta_destructive_hint : option bool;
  ta_idempotent_hint : option bool; ta_open_world_hint : option bool
}.
Definition c_tool_annotations : Codec ToolAnnotations :=
  record (λ '(t, r, d, i, o), mkToolAnnotations t r d i o)
    (λ a, (ta_title a, ta_read_only_hint a, ta_destructive_hint a, ta_idempotent_hint a, ta_open_world_hint a))
    (f_opt "title" c_string ⊗ f_opt "readOnlyHint" c_bool ⊗ f_opt "destructiveHint" c_bool ⊗
     f_opt "idempotentHint" c_bool ⊗ f_opt "openWorldHint" c_bool).

(** * Content blocks *)

(** [with_type]: the fields of the inner struct behind the type. *)
Definition with_type (type_name : string) (inner : JsonDict) : Value :=
  JObject (("type", JString type_name) :: filter (λ kv, kv.1 ≠ "type") inner).
Definition type_name_of (v : Value) : string := default "" (vget "type" v ≫= as_str).

Definition text_fields (t : TextContent) := (tc_text t, tc_annotations t).
Definition c_text : Codec TextContent := record (λ '(t, a), mkTextContent t a) text_fields f_text_content.
Definition media_fields (m : MediaContent) := (mc_data m, mc_mime_type m, mc_annotations m).
Definition c_media : Codec MediaContent := record (λ '(d, t, a), mkMediaContent d t a) media_fields f_media_content.
Definition embedded_fields (e : EmbeddedResource) := (er_resource e, er_annotations e).
Definition c_embedded : Codec EmbeddedResource := record (λ '(r, a), mkEmbedded r a) embedded_fields f_embedded.
Definition link_fields (r : ResourceLink) :=
  (rl_uri r, rl_name r, rl_title r, rl_description r, rl_mime_type r, rl_size r, rl_icons r, rl_annotations r).
Definition c_resource_link : Codec ResourceLink :=
  record (λ '(u, n, t, d, m, s, i, a), mkResourceLink u n t d m s i a) link_fields f_resource_link.

Inductive ContentBlock :=
| CText (t : TextContent) | CImage (m : MediaContent) | CAudio (m : MediaContent)
| CResourceLink (r : ResourceLink) | CEmbedded (e : EmbeddedResource).

Definition content_text (text : string) : ContentBlock := CText (text_new text).
Definition type_name (c : ContentBlock) : string :=
  match c with
  | CText _ => "text" | CImage _ => "image" | CAudio _ => "audio"
  | CResourceLink _ => "resource_link" | CEmbedded _ => "resource"
  end.
Definition content_as_text (c : ContentBlock) : option string :=
  match c with CText t => Some (tc_text t) | _ => None end.
Definition default_content : ContentBlock := content_text "".

Definition content_to_value (c : ContentBlock) : Value :=
  with_type (type_name c)
    match c with
    | CText t => fwrite f_text_content (text_fields t)
    | CImage m | CAudio m => fwrite f_media_content (media_fields m)
    | CResourceLink r => fwrite f_resource_link (link_fields r)
    | CEmbedded e => fwrite f_embedded (embedded_fields e)
    end.
Definition content_ok (c : ContentBlock) : Prop :=
  match c with
  | CText t => ok c_text t
  | CImage m | CAudio m => ok c_media m
  | CResourceLink r => ok c_resource_link r
  | CEmbedded e => ok c_embedded e
  end.

Section content.
Context `{!JsonText}.

(** Unknown blocks become text that holds the raw JSON. *)
Definition content_from_value (v : Value) : option ContentBlock :=
  let t := type_name_of v in
  if decide (t = "text") then CText <$> dec c_text v
  else if decide (t = "image") then CImage <$> dec c_media v
  else if decide (t = "audio") then CAudio <$> dec c_media v
  else if decide (t = "resource") then CEmbedded <$> dec c_embedded v
  else if decide (t = "resource_link") then CResourceLink <$> dec c_resource_link v
  else Some (content_text (json_text v)).
Definition c_content : Codec ContentBlock := mkCodec content_to_value content_from_value content_ok.

(** * Sampling *)

Record ToolUseContent := mkToolUse {
  tu_id : string; tu_name : string; tu_input : JsonDict; tu_meta : option JsonDict
}.
Definition tool_use_fields (t : ToolUseContent) := (tu_id t, tu_name t, tu_input t, tu_meta t).
Definition f_tool_use :=
  f_dflt "id" c_string "" ⊗ f_dflt "name" c_string "" ⊗ f_dflt "input" c_map [] ⊗ f_opt "_meta" c_map.
Definition c_tool_use : Codec ToolUseContent :=
  record (λ '(i, n, j, m), mkToolUse i n j m) tool_use_fields f_tool_use.

Record ToolResultContent := mkToolResult {
  to_tool_use_id : string; to_content : list ContentBlock; to_structured_content : option Value;
  to_is_error : option bool; to_meta : option JsonDict
}.
Definition tool_result_fields (t : ToolResultContent) :=
  (to_tool_use_id t, to_content t, to_structured_content t, to_is_error t, to_meta t).
Definition f_tool_result :=
  f_dflt "toolUseId" c_string "" ⊗ f_dflt "content" (c_list c_content) [] ⊗
  f_opt "structuredContent" c_value ⊗ f_opt "isError" c_bool ⊗ f_opt "_meta" c_map.
Definition c_tool_result : Codec ToolResultContent :=
  record (λ '(i, c, s, e, m), mkToolResult i c s e m) tool_result_fields f_tool_result.

Inductive SamplingBlock :=
| SText (t : TextContent) | SImage (m : MediaContent) | SAudio (m : MediaContent)
| SToolUse (t : ToolUseContent) | SToolResult (t : ToolResultContent).

Definition sampling_block_text (b : SamplingBlock) : option string :=
  match b with SText t => Some (tc_text t) | _ => None end.
Definition sampling_block_to_value (b : SamplingBlock) : Value :=
  match b with
  | SText t => with_type "text" (fwrite f_text_content (text_fields t))
  | SImage m => with_type "image" (fwrite f_media_content (media_fields m))
  | SAudio m => with_type "audio" (fwrite f_media_content (media_fields m))
  | SToolUse t => with_type "tool_use" (fwrite f_tool_use (tool_use_fields t))
  | SToolResult t => with_type "tool_result" (fwrite f_tool_result (tool_result_fields t))
  end.
Definition sampling_block_from_value (v : Value) : option SamplingBlock :=
  let t := type_name_of v in
  if decide (t = "text") then SText <$> dec c_text v
  else if decide (t = "image") then SImage <$> dec c_media v
  else if decide (t = "audio") then SAudio <$> dec c_media v
  else if decide (t = "tool_use") then SToolUse <$> dec c_tool_use v
  else if decide (t = "tool_result") then SToolResult <$> dec c_tool_result v
  else Some (SText (text_new (json_text v))).
Definition sampling_block_ok (b : SamplingBlock) : Prop :=
  match b with
  | SText t => ok c_text t
  | SImage m | SAudio m => ok c_media m
  | SToolUse t => ok c_tool_use t
  | SToolResult t => ok c_tool_result t
  end.
Definition c_sampling_block : Codec SamplingBlock :=
  mkCodec sampling_block_to_value sampling_block_from_value sampling_block_ok.

Inductive SamplingContent := Single (b : SamplingBlock) | Multiple (l : list SamplingBlock).
Definition sampling_as_list (c : SamplingContent) : list SamplingBlock :=
  match c with Single b => [b] | Multiple l => l end.
(** [first_text]. *)
Definition first_text (c : SamplingContent) : option string :=
  head (omap sampling_block_text (sampling_as_list c)).
Definition c_sampling_content : Codec SamplingContent :=
  mkCodec
    (λ c, match c with
          | Single b => enc c_sampling_block b | Multiple l => enc (c_list c_sampling_block) l end)
    (λ v, match v with
          | JArray l => Multiple <$> decode_all c_sampling_block l
          | JObject _ => Single <$> dec c_sampling_block v
          | _ => Some (Multiple [])
          end)
    (λ c, match c with
          | Single b => sampling_block_ok b | Multiple l => Forall sampling_block_ok l end).

Record SamplingMessage := mkSamplingMessage {
  sm_role : RoleType; sm_content : SamplingContent; sm_meta : option JsonDict
}.
Definition c_sampling_message : Codec SamplingMessage :=
  record (λ '(r, c, m), mkSamplingMessage r c m) (λ s, (sm_role s, sm_content s, sm_meta s))
    (f_dflt "role" c_role RoleUser ⊗ f_dflt "content" c_sampling_content (Multiple []) ⊗ f_opt "_meta" c_map).

Record ModelPreferences := mkModelPreferences {
  mp_hints : option (list (option string)); mp_cost_priority : option f64; mp_speed_priority : option f64;
  mp_intelligence_priority : option f64
}.
(** [ModelHint] and [ToolChoice]: one optional string. *)
Definition c_model_hint : Codec (option string) := record id id (f_opt "name" c_string).
Definition c_tool_choice : Codec (option string) := record id id (f_opt "mode" c_string).
Definition c_model_preferences : Codec ModelPreferences :=
  record (λ '(h, c, s, i), mkModelPreferences h c s i)
    (λ m, (mp_hints m, mp_cost_priority m, mp_speed_priority m, mp_intelligence_priority m))
    (f_opt "hints" (c_list c_model_hint) ⊗ f_opt "costPriority" c_f64 ⊗ f_opt "speedPriority" c_f64 ⊗
     f_opt "intelligencePriority" c_f64).

Record CreateMessageResult := mkCreateMessageResult {
  cr_model : string; cr_stop_reason : option string; cr_role : RoleType; cr_content : SamplingContent;
  cr_meta : option JsonDict
}.
Definition c_create_message_result : Codec CreateMessageResult :=
  record (λ '(m, s, r, c, t), mkCreateMessageResult m s r c t)
    (λ r, (cr_model r, cr_stop_reason r, cr_role r, cr_content r, cr_meta r))
    (f_dflt "model" c_string "" ⊗ f_opt "stopReason" c_string ⊗ f_dflt "role" c_role RoleAssistant ⊗
     f_dflt "content" c_sampling_content (Multiple []) ⊗ f_opt "_meta" c_map).

Record Tool := mkTool {
  tl_name : string; tl_title : option string; tl_description : option string;
  tl_input_schema : option Value; tl_output_schema : option Value;
  tl_annotations : option ToolAnnotations; tl_icons : option (list Icon)
}.
Definition c_tool : Codec Tool :=
  record (λ '(n, t, d, i, o, a, c), mkTool n t d i o a c)
    (λ t, (tl_name t, tl_title t, tl_description t, tl_input_schema t, tl_output_schema t,
           tl_annotations t, tl_icons t))
    (f_req "name" c_string ⊗ f_opt "title" c_string ⊗ f_opt "description" c_string ⊗
     f_opt "inputSchema" c_value ⊗ f_opt "outputSchema" c_value ⊗ f_opt "annotations" c_tool_annotations ⊗
     f_opt "icons" (c_list c_icon)).

Record CreateMessageParams := mkCreateMessageParams {
  cp_messages : list SamplingMessage; cp_model_preferences : option ModelPreferences;
  cp_system_prompt : option string; cp_include_context : option string; cp_temperature : option f64;
  cp_max_tokens : Z; cp_stop_sequences : option (list string); cp_metadata : option JsonDict;
  cp_tools : option (list Tool); cp_tool_choice : option (option string)
}.
Definition c_create_message_params : Codec CreateMessageParams :=
  record (λ '(m, p, s, i, t, k, q, d, l, c), mkCreateMessageParams m p s i t k q d l c)
    (λ c, (cp_messages c, cp_model_preferences c, cp_system_prompt c, cp_include_context c, cp_temperature c,
           cp_max_tokens c, cp_stop_sequences c, cp_metadata c, cp_tools c, cp_tool_choice c))
    (f_dflt "messages" (c_list c_sampling_message) [] ⊗ f_opt "modelPreferences" c_model_preferences ⊗
     f_opt "systemPrompt" c_string ⊗ f_opt "includeContext" c_string ⊗ f_opt "temperature" c_f64 ⊗
     f_dflt "maxTokens" c_i64 0%Z ⊗ f_opt "stopSequences" (c_list c_string) ⊗ f_opt "metadata" c_map ⊗
     f_opt "tools" (c_list c_tool) ⊗ f_opt "toolChoice" c_tool_choice).

(** * Results *)

(** [deserialize_content_list]: a plain string is wrapped as text. *)
Definition c_content_list : Codec (list ContentBlock) :=
  mkCodec (enc (c_list c_content))
    (λ v, match v with
          | JArray l => decode_all c_content l
          | JString s => Some [content_text s]
          | _ => Some []
          end)
    (Forall content_ok).

Record CallToolResult := mkCallToolResult {
  ctr_content : list ContentBlock; ctr_structured_content : option Value; ctr_is_error : bool;
  ctr_meta : option JsonDict
}.
Definition call_result_text (text : string) : CallToolResult := mkCallToolResult [content_text text] None false None.
Definition call_result_error (text : string) : CallToolResult := mkCallToolResult [content_text text] None true None.
Definition call_result_structured (v : Value) : CallToolResult :=
  mkCallToolResult [content_text (match v with JString s => s | _ => json_text v end)] (Some v) false None.
Definition c_call_tool_result : Codec CallToolResult :=
  record (λ '(c, s, e, m), mkCallToolResult c s e m)
    (λ r, (ctr_content r, ctr_structured_content r, ctr_is_error r, ctr_meta r))
    (f_dflt "content" c_content_list [] ⊗ f_opt "structuredContent" c_value ⊗ f_dflt "isError" c_bool false ⊗
     f_opt "_meta" c_map).

(** [ListToolsResult], [ListPromptsResult], [ListResourcesResult] and
    [ListResourceTemplatesResult]: a page of items under its own key. *)
Record Page (A : Type) := mkPage { pg_items : list A; pg_next_cursor : option string; pg_meta : option JsonDict }.
Definition c_page {A} (key : string) (c : Codec A) : Codec (Page A) :=
  record (λ '(i, n, m), mkPage A i n m) (λ p, (pg_items A p, pg_next_cursor A p, pg_meta A p))
    (f_dflt key (c_list c) [] ⊗ f_opt "nextCursor" c_string ⊗ f_opt "_meta" c_map).
Definition c_list_tools_result : Codec (Page Tool) := c_page "tools" c_tool.

(** [deserialize_prompt_content]: an object, or the first element of an array. *)
Definition c_prompt_content : Codec ContentBlock :=
  mkCodec content_to_value
    (λ v, match v with
          | JArray [] => Some default_content
          | JArray (item :: _) => content_from_value item
          | JObject _ => content_from_value v
          | _ => Some default_content
          end)
    content_ok.

Record PromptMessage := mkPromptMessage { pm_role : RoleType; pm_content : ContentBlock }.
Definition c_prompt_message : Codec PromptMessage :=
  record (λ '(r, c), mkPromptMessage r c) (λ p, (pm_role p, pm_content p))
    (f_dflt "role" c_role RoleUser ⊗ f_dflt "content" c_prompt_content default_content).

Record PromptArgument := mkPromptArgument {
  pa_name : string; pa_description : option string; pa_required : option bool; pa_title : option string
}.
Definition c_prompt_argument : Codec PromptArgument :=
  record (λ '(n, d, r, t), mkPromptArgument n d r t)
    (λ a, (pa_name a, pa_description a, pa_required a, pa_title a))
    (f_req "name" c_string ⊗ f_opt "description" c_string ⊗ f_opt "required" c_bool ⊗ f_opt "title" c_string).

Record GetPromptResult := mkGetPromptResult {
  gp_description : option string; gp_messages : list PromptMessage; gp_meta : option JsonDict
}.
Definition c_get_prompt_result : Codec GetPromptResult :=
  record (λ '(d, m, t), mkGetPromptResult d m t) (λ g, (gp_description g, gp_messages g, gp_meta g))
    (f_opt "description" c_string ⊗ f_req "messages" (c_list c_prompt_message) ⊗ f_opt "_meta" c_map).

Record PromptInfo := mkPromptInfo {
  pi_name : string; pi_description : option string; pi_title : option string; pi_icons : option (list Icon);
  pi_arguments : option (list PromptArgument)
}.
Definition c_prompt_info : Codec PromptInfo :=
  record (λ '(n, d, t, i, a), mkPromptInfo n d t i a)
    (λ p, (pi_name p, pi_description p, pi_title p, pi_icons p, pi_arguments p))
    (f_req "name" c_string ⊗ f_opt "description" c_string ⊗ f_opt "title" c_string ⊗
     f_opt "icons" (c_list c_icon) ⊗ f_opt "arguments" (c_list c_prompt_argument)).
Definition c_list_prompts_result : Codec (Page PromptInfo) := c_page "prompts" c_prompt_info.

Definition DEFAULT_PROTOCOL_VERSION : string := "2025-03-26".

Record InitializeResult := mkInitializeResult {
  ir_protocol_version : string; ir_capabilities : ServerCapabilities; ir_server_info : Implementation;
  ir_instructions : option string; ir_meta : option JsonDict
}.
Definition c_initialize_result : Codec InitializeResult :=
  record (λ '(p, c, s, i, m), mkInitializeResult p c s i m)
    (λ r, (ir_protocol_version r, ir_capabilities r, ir_server_info r, ir_instructions r, ir_meta r))
    (f_dflt "protocolVersion" c_string DEFAULT_PROTOCOL_VERSION ⊗
     f_dflt "capabilities" c_server_capabilities default_server_capabilities ⊗
     f_dflt "serverInfo" c_implementation default_implementation ⊗ f_opt "instructions" c_string ⊗
     f_opt "_meta" c_map).

Record Root := mkRoot { rt_name : option string; rt_uri : string }.
Definition c_root : Codec Root :=
  record (λ '(n, u), mkRoot n u) (λ r, (rt_name r, rt_uri r)) (f_opt "name" c_string ⊗ f_req "uri" c_string).
Record ListRootsResult := mkListRoots { lr_roots : list Root; lr_meta : option JsonDict }.
Definition c_list_roots_result : Codec ListRootsResult :=
  record (λ '(r, m), mkListRoots r m) (λ l, (lr_roots l, lr_meta l))
    (f_dflt "roots" (c_list c_root) [] ⊗ f_opt "_meta" c_map).

Record ElicitResult := mkElicitResult { ei_action : string; ei_content : JsonDict; ei_meta : option JsonDict }.
Definition c_elicit_result : Codec ElicitResult :=
  record (λ '(a, c, m), mkElicitResult a c m) (λ e, (ei_action e, ei_content e, ei_meta e))
    (f_dflt "action" c_string "" ⊗ f_dflt "content" c_map [] ⊗ f_opt "_meta" c_map).
(** [EmptyResult]. *)
Definition c_empty_result : Codec (option JsonDict) := record id id (f_opt "_meta" c_map).

Record ResourceInfo := mkResourceInfo {
  ri_uri : string; ri_name : string; ri_title : option string; ri_description : option string;
  ri_mime_type : option string; ri_size : option Z; ri_icons : option (list Icon);
  ri_annotations : option Annotations
}.
Definition c_resource_info : Codec ResourceInfo :=
  record (λ '(u, n, t, d, m, s, i, a), mkResourceInfo u n t d m s i a)
    (λ r, (ri_uri r, ri_name r, ri_title r, ri_description r, ri_mime_type r, ri_size r, ri_icons r,
           ri_annotations r))
    f_resource_link.
Record ResourceTemplate := mkResourceTemplate {
  rp_uri_template : string; rp_name : string; rp_title : option string; rp_description : option string;
  rp_mime_type : option string; rp_icons : option (list Icon); rp_annotations : option Annotations
}.
Definition c_resource_template : Codec ResourceTemplate :=
  record (λ '(u, n, t, d, m, i, a), mkResourceTemplate u n t d m i a)
    (λ r, (rp_uri_template r, rp_name r, rp_title r, rp_description r, rp_mime_type r, rp_icons r,
           rp_annotations r))
    (f_req "uriTemplate" c_string ⊗ f_req "name" c_string ⊗ f_opt "title" c_string ⊗
     f_opt "description" c_string ⊗ f_opt "mimeType" c_string ⊗ f_opt "icons" (c_list c_icon) ⊗
     f_opt "annotations" c_annotations).
Definition c_list_resources_result : Codec (Page ResourceInfo) := c_page "resources" c_resource_info.
Definition c_list_resource_templates_result : Codec (Page ResourceTemplate) :=
  c_page "resourceTemplates" c_resource_template.
Record ReadResourceResult := mkReadResource { rr_contents : list ResourceContents; rr_meta : option JsonDict }.
Definition c_read_resource_result : Codec ReadResourceResult :=
  record (λ '(c, m), mkReadResource c m) (λ r, (rr_contents r, rr_meta r))
    (f_dflt "contents" (c_list c_resource_contents) [] ⊗ f_opt "_meta" c_map).

(** * Logging levels *)

Inductive LoggingLevel := LDebug | LInfo | LNotice | LWarning | LError | LCritical | LAlert | LEmergency.
Definition level_str (l : LoggingLevel) : string :=
  match l with
  | LDebug => "debug" | LInfo => "info" | LNotice => "notice" | LWarning => "warning" | LError => "error"
  | LCritical => "critical" | LAlert => "alert" | LEmergency => "emergency"
  end.
Definition level_parse (s : string) : option LoggingLevel :=
  if decide (s = "debug") then Some LDebug
  else if decide (s = "info") then Some LInfo
  else if decide (s = "notice") then Some LNotice
  else if decide (s = "warning") then Some LWarning
  else if decide (s = "error") then Some LError
  else if decide (s = "critical") then Some LCritical
  else if decide (s = "alert") then Some LAlert
  else if decide (s = "emergency") then Some LEmergency
  else None.
(** The derived [Deserialize] takes the names [parse] takes. *)
Definition c_level : Codec LoggingLevel :=
  mkCodec (JString ∘ level_str) (λ v, as_str v ≫= level_parse) (λ _, True).

(** * Completion *)

Record Completion := mkCompletion { co_values : list string; co_total : option Z; co_has_more : option bool }.
Definition c_completion : Codec Completion :=
  record (λ '(v, t, h), mkCompletion v t h) (λ c, (co_values c, co_total c, co_has_more c))
    (f_req "values" (c_list c_string) ⊗ f_opt "total" c_i64 ⊗ f_opt "hasMore" c_bool).
Record CompleteResult := mkCompleteResult { cx_completion : Completion; cx_meta : option JsonDict }.
Definition c_complete_result : Codec CompleteResult :=
  record (λ '(c, m), mkCompleteResult c m) (λ c, (cx_completion c, cx_meta c))
    (f_req "completion" c_completion ⊗ f_opt "_meta" c_map).
End content.

(** * Laws: every codec reads back what it wrote *)

Ltac codec :=
  lazymatch goal with |- CodecLaws (?c _) => unfold c | |- CodecLaws ?c => unfold c end; apply _.
(** A codec written out by hand: by cases on its flags. *)
Ltac by_flags := by repeat match goal with b : bool |- _ => destruct b end.

#[export] Instance meta_laws : CodecLaws c_meta. Proof. codec. Qed.
#[export] Instance list_changed_laws : CodecLaws c_list_changed. Proof. codec. Qed.
#[export] Instance resources_capabilities_laws : CodecLaws c_resources_capabilities. Proof. codec. Qed.
#[export] Instance marker_laws : CodecLaws c_marker. Proof. codec. Qed.
#[export] Instance server_capabilities_laws : CodecLaws c_server_capabilities. Proof. codec. Qed.
#[export] Instance icon_laws : CodecLaws c_icon. Proof. codec. Qed.
#[export] Instance implementation_laws : CodecLaws c_implementation. Proof. codec. Qed.

#[export] Instance sampling_capability_laws : CodecLaws c_sampling_capability.
Proof. intros [c t] _. by_flags. Qed.
#[export] Instance elicitation_capability_laws : CodecLaws c_elicitation_capability.
Proof. intros [f u] [Hf Hu]. simpl in *. by subst. Qed.
#[export] Instance roots_capability_laws : CodecLaws c_roots_capability.
Proof. intros [l] _. by_flags. Qed.
#[export] Instance tasks_capability_laws : CodecLaws c_tasks_capability.
Proof. intros [l c s e] _. by_flags. Qed.

Lemma opt_entry_field {A} (c : Codec A) `{!CodecLaws c} key o pre post :
  (∀ a, o = Some a → ok c a ∧ is_object (enc c a) = true) →
  aget key pre = None → aget key post = None →
  object_field c key (pre ++ opt_entry key (enc c) o ++ post) = o.
Proof.
  intros Ho Hpre Hpost. unfold object_field. rewrite aget_app, Hpre.
  destruct o as [a|]; simpl; [|by rewrite Hpost]. rewrite decide_True by done.
  destruct (Ho a) as [Ha ->]; [done|]. by apply dec_enc.
Qed.

(** What is in front of and behind an entry has other keys. *)
Ltac other_keys :=
  simpl; rewrite ?aget_app;
  repeat match goal with |- context [opt_entry _ _ ?o] => destruct o; simpl end; done.

#[export] Instance client_capabilities_laws : CodecLaws c_client_capabilities.
Proof.
  intros [x s e r t] Hok. cbn [c_client_capabilities enc dec ok cc_elicitation] in *. f_equal.
  unfold client_capabilities_of, client_capabilities_fields.
  cbn [cc_experimental cc_sampling cc_elicitation cc_roots cc_tasks]. f_equal.
  - apply (opt_entry_field c_map _ _ []); [done..|other_keys].
  - apply (opt_entry_field c_sampling_capability); [by intros []|other_keys..].
  - rewrite app_assoc. apply (opt_entry_field c_elicitation_capability); [|other_keys..].
    intros a ->. done.
  - rewrite !app_assoc. rewrite <- (app_nil_r (opt_entry "roots" _ _)).
    apply (opt_entry_field c_roots_capability); [by intros []|other_keys..].
  - rewrite !app_assoc, <- (app_assoc _ (opt_entry "tasks" _ _)).
    apply (opt_entry_field c_tasks_capability); [by intros []|other_keys..].
Qed.

#[export] Instance role_laws : CodecLaws c_role.
Proof. by intros []. Qed.
#[export] Instance level_laws : CodecLaws c_level.
Proof. by intros []. Qed.
#[export] Instance annotations_laws : CodecLaws c_annotations. Proof. codec. Qed.
#[export] Instance tool_annotations_laws : CodecLaws c_tool_annotations. Proof. codec. Qed.
#[export] Instance text_resource_laws : CodecLaws c_text_resource. Proof. codec. Qed.
#[export] Instance blob_resource_laws : CodecLaws c_blob_resource. Proof. codec. Qed.

#[export] Instance resource_contents_laws : CodecLaws c_resource_contents.
Proof.
  intros [t|b] Hr; cbn [c_resource_contents enc dec ok] in *; unfold resource_contents_from.
  - by rewrite (dec_enc t).
  - rewrite (dec_enc b) by done. by destruct b as [u x [m|]].
Qed.
#[export] Instance resource_contents_not_null : NotNull c_resource_contents.
Proof. by intros [|]. Qed.

#[export] Instance text_laws : CodecLaws c_text. Proof. codec. Qed.
#[export] Instance media_laws : CodecLaws c_media. Proof. codec. Qed.
#[export] Instance embedded_laws : CodecLaws c_embedded. Proof. codec. Qed.
#[export] Instance resource_link_laws : CodecLaws c_resource_link. Proof. codec. Qed.

(** A struct behind its type. *)
Lemma type_name_of_with_type n m : type_name_of (with_type n m) = n.
Proof. done. Qed.
Lemma with_type_read {A B} (to : A → B) (from : B → A) (f : Fields A) n b :
  Iso to from → FieldsLaws f → "type" ∉ fkeys f → ok (record to from f) b →
  dec (record to from f) (with_type n (fwrite f (from b))) = Some b.
Proof.
  intros Hi Hf Ht Hb. unfold with_type. rewrite list_filter_all; cycle 1.
  { apply Forall_forall. intros [k v] Hk; simpl. intros ->. apply Ht, (fwrite_keys (from b)).
    apply list_elem_of_fmap. by exists ("type", v). }
  unfold record, c_iso. cbn [dec]. rewrite struct_read_tagged by done. cbn. f_equal. apply Hi.
Qed.

Section content_laws.
Context `{!JsonText}.

#[export] Instance content_laws : CodecLaws c_content.
Proof.
  intros b Hb. cbn [c_content enc dec ok] in *. unfold content_from_value, content_to_value.
  rewrite type_name_of_with_type. destruct b as [t|m|m|r|e]; cbn [type_name content_ok] in *; decide_literals.
  all: unfold c_text, c_media, c_embedded, c_resource_link in *.
  all: rewrite with_type_read; [done|apply _|apply _|vm_compute; set_solver|done].
Qed.
#[export] Instance content_not_null : NotNull c_content.
Proof. by intros []. Qed.
#[export] Instance tool_use_laws : CodecLaws c_tool_use. Proof. codec. Qed.
#[export] Instance tool_result_laws : CodecLaws c_tool_result. Proof. codec. Qed.

#[export] Instance sampling_block_laws : CodecLaws c_sampling_block.
Proof.
  intros b Hb. cbn [c_sampling_block enc dec ok] in *.
  unfold sampling_block_from_value, sampling_block_to_value.
  destruct b as [t|m|m|t|t]; cbn [sampling_block_ok] in *; rewrite type_name_of_with_type; decide_literals.
  all: unfold c_text, c_media, c_tool_use, c_tool_result in *.
  all: rewrite with_type_read; [done|apply _|apply _|vm_compute; set_solver|done].
Qed.
#[export] Instance sampling_content_laws : CodecLaws c_sampling_content.
Proof.
  intros [b|l] Hc; cbn [c_sampling_content enc dec ok] in *.
  - transitivity (Single <$> dec c_sampling_block (enc c_sampling_block b)); [by destruct b|].
    by rewrite (dec_enc b).
  - pose proof (dec_enc (c := c_list c_sampling_block) l Hc) as Hl. cbn [c_list enc dec] in *. by rewrite Hl.
Qed.
#[export] Instance content_list_laws : CodecLaws c_content_list.
Proof. intros l Hl. exact (dec_enc (c := c_list c_content) l Hl). Qed.
#[export] Instance prompt_content_laws : CodecLaws c_prompt_content.
Proof. intros b Hb. transitivity (dec c_content (enc c_content b)); [by destruct b|by apply dec_enc]. Qed.
#[export] Instance sampling_message_laws : CodecLaws c_sampling_message. Proof. codec. Qed.
#[export] Instance model_hint_laws : CodecLaws c_model_hint. Proof. codec. Qed.
#[export] Instance tool_choice_laws : CodecLaws c_tool_choice. Proof. codec. Qed.
#[export] Instance model_preferences_laws : CodecLaws c_model_preferences. Proof. codec. Qed.
#[export] Instance create_message_result_laws : CodecLaws c_create_message_result. Proof. codec. Qed.
#[export] Instance tool_laws : CodecLaws c_tool. Proof. codec. Qed.
#[export] Instance create_message_params_laws : CodecLaws c_create_message_params. Proof. codec. Qed.
#[export] Instance call_tool_result_laws : CodecLaws c_call_tool_result. Proof. codec. Qed.
#[export] Instance prompt_message_laws : CodecLaws c_prompt_message. Proof. codec. Qed.
#[export] Instance prompt_argument_laws : CodecLaws c_prompt_argument. Proof. codec. Qed.
#[export] Instance get_prompt_result_laws : CodecLaws c_get_prompt_result. Proof. codec. Qed.
#[export] Instance prompt_info_laws : CodecLaws c_prompt_info. Proof. codec. Qed.
#[export] Instance initialize_result_laws : CodecLaws c_initialize_result. Proof. codec. Qed.
#[export] Instance root_laws : CodecLaws c_root. Proof. codec. Qed.
#[export] Instance list_roots_result_laws : CodecLaws c_list_roots_result. Proof. codec. Qed.
#[export] Instance elicit_result_laws : CodecLaws c_elicit_result. Proof. codec. Qed.
#[export] Instance empty_result_laws : CodecLaws c_empty_result. Proof. codec. Qed.
#[export] Instance resource_info_laws : CodecLaws c_resource_info. Proof. codec. Qed.
#[export] Instance resource_template_laws : CodecLaws c_resource_template. Proof. codec. Qed.
#[export] Instance read_resource_result_laws : CodecLaws c_read_resource_result. Proof. codec. Qed.
#[export] Instance completion_laws : CodecLaws c_completion. Proof. codec. Qed.
#[export] Instance complete_result_laws : CodecLaws c_complete_result. Proof. codec. Qed.
#[export] Instance page_laws {A} key (c : Codec A) : CodecLaws c → KeysDiffer (f_dflt key (c_list c) []) (f_opt "nextCursor" c_string) →
  KeysDiffer (f_dflt key (c_list c) [] ⊗ f_opt "nextCursor" c_string) (f_opt "_meta" c_map) → CodecLaws (c_page key c).
Proof. intros. unfold c_page. apply _. Qed.
End content_laws.
