(* ===== verification/McpProtocol.v ===== *)
(** The MCP protocol: MCP/rust-sdk/src/protocol.rs (constants, typed
    parameters, the progress token of a request, the classification of
    incoming messages, endpoint validation) and error.rs.

    serde_json's text parser is the parameter [json_from_str]. *)
From S2P Require Import Prelude F64 RustMap RustStr Json JsonRpc Canonical Serde McpTypes.
From Stdlib Require Import Ascii.

(** serde_json's text parser, with the text of its error. *)
Class JsonReader := json_from_str : string → result Value string.

(** * error.rs *)

Inductive JsonRpcErrorCode := ParseError | InvalidRequest | MethodNotFound | InvalidParams | InternalError | ServerError.
Definition error_code (c : JsonRpcErrorCode) : Z :=
  match c with
  | ParseError => -32700 | InvalidRequest => -32600 | MethodNotFound => -32601
  | InvalidParams => -32602 | InternalError => -32603 | ServerError => -32000
  end.
Definition error_from_code (c : Z) : option JsonRpcErrorCode :=
  if decide (c = -32700)%Z then Some ParseError
  else if decide (c = -32600)%Z then Some InvalidRequest
  else if decide (c = -32601)%Z then Some MethodNotFound
  else if decide (c = -32602)%Z then Some InvalidParams
  else if decide (c = -32603)%Z then Some InternalError
  else if decide (c = -32000)%Z then Some ServerError
  else None.

Inductive McpError :=
| ERpc (e : RpcError) | ETransport (m : string) | ETimeout (ms : Z) | ENotInitialized | EAlreadyInitialized
| EClosed | EInvalidState (m : string) | EInvalidArgument (m : string) | EValidation (m : string) | EJson (m : string).

(** [McpError::message]. *)
Definition error_message (e : McpError) : string :=
  match e with
  | ERpc e => message e
  | ETransport m => "transport error: " +:+ m
  | ETimeout ms => "request timed out after " +:+ pretty ms +:+ " ms"
  | ENotInitialized => "client is not initialized."
  | EAlreadyInitialized => "client is initialized."
  | EClosed => "connection closed"
  | EInvalidState m | EInvalidArgument m | EValidation m => m
  | EJson m => "json error: " +:+ m
  end.
Definition mcp_error_code (e : McpError) : option Z := match e with ERpc e => Some (code e) | _ => None end.
Definition to_rpc_error (e : McpError) : RpcError :=
  match e with
  | ERpc e => e
  | EInvalidArgument m | EValidation m => invalid_params m
  | other => internal_error (error_message other)
  end.

(** * Constants *)

Definition LATEST_PROTOCOL_VERSION : string := "2025-06-18".
Definition SUPPORTED_PROTOCOL_VERSIONS : list string := ["2025-03-26"; LATEST_PROTOCOL_VERSION].
Definition SUPPORTED_PROTOCOL_VERSIONS_STRING : string := "2025-03-26, 2025-06-18".
Definition MAX_THREAD_NUM : Z := 64.
Definition is_supported_protocol_version (version : string) : bool :=
  bool_decide (version ∈ SUPPORTED_PROTOCOL_VERSIONS).

(** [mod methods]. *)
Definition INITIALIZE : string := "initialize".
Definition PING : string := "ping".
Definition TOOLS_LIST : string := "tools/list".
Definition TOOLS_CALL : string := "tools/call".
Definition PROMPTS_LIST : string := "prompts/list".
Definition PROMPTS_GET : string := "prompts/get".
Definition RESOURCES_LIST : string := "resources/list".
Definition RESOURCES_READ : string := "resources/read".
Definition RESOURCES_SUBSCRIBE : string := "resources/subscribe".
Definition RESOURCES_UNSUBSCRIBE : string := "resources/unsubscribe".
Definition RESOURCES_TEMPLATES_LIST : string := "resources/templates/list".
Definition LOGGING_SET_LEVEL : string := "logging/setLevel".
Definition COMPLETION_COMPLETE : string := "completion/complete".
Definition ROOTS_LIST : string := "roots/list".
Definition SAMPLING_CREATE_MESSAGE : string := "sampling/createMessage".
Definition ELICITATION_CREATE : string := "elicitation/create".
Definition NOTIFICATION_INITIALIZED : string := "notifications/initialized".
Definition NOTIFICATION_CANCELLED : string := "notifications/cancelled".
Definition NOTIFICATION_PROGRESS : string := "notifications/progress".
Definition NOTIFICATION_MESSAGE : string := "notifications/message".
Definition NOTIFICATION_RESOURCES_UPDATED : string := "notifications/resources/updated".
Definition NOTIFICATION_TOOLS_LIST_CHANGED : string := "notifications/tools/list_changed".
Definition NOTIFICATION_PROMPTS_LIST_CHANGED : string := "notifications/prompts/list_changed".
Definition NOTIFICATION_RESOURCES_LIST_CHANGED : string := "notifications/resources/list_changed".
Definition NOTIFICATION_ROOTS_LIST_CHANGED : string := "notifications/roots/list_changed".

(** * Typed parameters *)

(** [RequestId] in a parameter struct. *)
Definition c_request_id : Codec RequestId := mkCodec value_of_id JsonRpc.id_from_value id_ok.

Record InitializeRequestParams := mkInitializeParams {
  ip_protocol_version : string; ip_capabilities : ClientCapabilities; ip_client_info : Implementation;
  ip_meta : option RequestParamsMeta
}.
Definition c_initialize_params : Codec InitializeRequestParams :=
  record (λ '(v, c, i, m), mkInitializeParams v c i m)
    (λ p, (ip_protocol_version p, ip_capabilities p, ip_client_info p, ip_meta p))
    (f_dflt "protocolVersion" c_string DEFAULT_PROTOCOL_VERSION ⊗
     f_dflt "capabilities" c_client_capabilities default_client_capabilities ⊗
     f_dflt "clientInfo" c_implementation default_implementation ⊗ f_opt "_meta" c_meta).

(** [CallToolParams] and [GetPromptParams] have the same fields. *)
Record CallParams := mkCallParams {
  ca_name : string; ca_arguments : option Value; ca_meta : option RequestParamsMeta
}.
Definition c_call_params : Codec CallParams :=
  record (λ '(n, a, m), mkCallParams n a m) (λ p, (ca_name p, ca_arguments p, ca_meta p))
    (f_req "name" c_string ⊗ f_opt "arguments" c_value ⊗ f_opt "_meta" c_meta).
Record UriParams := mkUriParams { up_uri : string; up_meta : option RequestParamsMeta }.
Definition c_uri_params : Codec UriParams :=
  record (λ '(u, m), mkUriParams u m) (λ p, (up_uri p, up_meta p))
    (f_req "uri" c_string ⊗ f_opt "_meta" c_meta).
Record PaginatedParams := mkPaginated { pp_cursor : option string; pp_meta : option RequestParamsMeta }.
Definition c_paginated_params : Codec PaginatedParams :=
  record (λ '(c, m), mkPaginated c m) (λ p, (pp_cursor p, pp_meta p))
    (f_opt "cursor" c_string ⊗ f_opt "_meta" c_meta).
(** [SetLoggingLevelParams]. *)
Definition c_set_level_params : Codec string := record id id (f_req "level" c_string).
Record CancelledParams := mkCancelled { cn_request_id : RequestId; cn_reason : string }.
Definition c_cancelled_params : Codec CancelledParams :=
  record (λ '(i, r), mkCancelled i r) (λ p, (cn_request_id p, cn_reason p))
    (f_req "requestId" c_request_id ⊗ f_dflt "reason" c_string "").
Record ProgressParams := mkProgress {
  pr_token : ProgressToken; pr_progress : f64; pr_total : option f64; pr_message : option string
}.
Definition c_progress_params : Codec ProgressParams :=
  record (λ '(k, p, t, m), mkProgress k p t m) (λ p, (pr_token p, pr_progress p, pr_total p, pr_message p))
    (f_req "progressToken" c_token ⊗ f_dflt "progress" c_f64 (f64_of_Z 0) ⊗ f_opt "total" c_f64 ⊗
     f_opt "message" c_string).
Record LoggingMessageParams := mkLoggingMessage { lm_level : string; lm_logger : string; lm_data : Value }.
(** [data : Value] is not optional: [null] is a value like any other. *)
Definition c_any : Codec Value := mkCodec id Some (λ _, True).
Definition c_logging_message_params : Codec LoggingMessageParams :=
  record (λ '(l, g, d), mkLoggingMessage l g d) (λ p, (lm_level p, lm_logger p, lm_data p))
    (f_dflt "level" c_string "" ⊗ f_dflt "logger" c_string "" ⊗ f_dflt "data" c_any JNull).
(** [ResourceUpdatedNotificationParams]. *)
Definition c_resource_updated_params : Codec string := record id id (f_dflt "uri" c_string "").

(** * The progress token of a request *)

Definition progress_meta (params : option Value) : option RequestParamsMeta :=
  p ← params; meta ← vget "_meta" p;
  if is_object meta then dec c_meta meta else None.

Definition inject_progress_token (params : option Value) (token : ProgressToken) : option Value :=
  let obj := match params with Some (JObject o) => o | _ => [] end in
  let meta := match aget "_meta" obj with Some (JObject m) => m | _ => [] end in
  Some (JObject (im_insert "_meta" (JObject (im_insert "progressToken" (enc c_token token) meta)) obj)).

(** * Message parsing *)

Inductive MessageParseError :=
| InvalidJson (m : string)
| InvalidMessage (id : RequestId) (message : string) (has_method : bool).

Definition parse_error_rpc (e : MessageParseError) : RpcError :=
  match e with
  | InvalidJson m => rpc_error (error_code ParseError) m
  | InvalidMessage _ m _ => rpc_error (error_code InvalidRequest) m
  end.
Definition to_error_response (e : MessageParseError) : Response :=
  JsonRpc.error (Some (match e with InvalidJson _ => Number 0 | InvalidMessage id _ _ => id end)) (parse_error_rpc e).

(** [id_from_value] of protocol.rs: a number beyond [i64] becomes [0]. *)
Definition id_of_field (v : option Value) : RequestId :=
  match v with
  | Some (JString s) => Str s
  | Some (JNumber n) => from_option Number (Number 0) (as_i64 (JNumber n))
  | _ => Number 0
  end.

Definition invalid (obj : JsonDict) (detail : string) : MessageParseError :=
  InvalidMessage (id_of_field (aget "id" obj)) ("Deserialization Failed: " +:+ detail) (ahas "method" obj).

(** A string, or a number that is an [i64] or a [u64]. *)
Definition valid_id (v : option Value) : bool :=
  match v with
  | Some (JString _) | Some (JNumber (PosInt _)) | Some (JNumber (NegInt _)) => true
  | _ => false
  end.

(** The text between double quotes. *)
Definition quoted (s : string) : string := byte_str [34] +:+ s +:+ byte_str [34].

Definition classify_message (value : Value) : result Message MessageParseError :=
  match value with
  | JObject obj =>
      let has_id := ahas "id" obj in
      let has_method := ahas "method" obj in
      let has_code := from_option (ahas "code") false (aget "error" obj ≫= as_object) in
      let bad_id := invalid obj "id must be a string or an integer" in
      if negb (bool_decide (aget "jsonrpc" obj ≫= as_str = Some JSONRPC_VERSION)) then
        Err (invalid obj ("jsonrpc must be " +:+ quoted "2.0"))
      else if has_id && has_method then
        if negb (valid_id (aget "id" obj)) then Err bad_id else
        match aget "method" obj ≫= as_str with
        | None => Err (invalid obj "method must be a string")
        | Some method => Ok (MRequest (request_new (id_of_field (aget "id" obj)) method (aget "params" obj)))
        end
      else if has_id && negb has_method && negb has_code then
        if negb (valid_id (aget "id" obj)) then Err bad_id else
        Ok (MResponse {| res_jsonrpc := JSONRPC_VERSION; res_id := Some (id_of_field (aget "id" obj));
                         res_result := aget "result" obj; res_error := None |})
      else if negb has_id && has_method then
        match aget "method" obj ≫= as_str with
        | None => Err (invalid obj "method must be a string")
        | Some method => Ok (MNotification (notification_new method (aget "params" obj)))
        end
      else if has_id && has_code then
        if negb (valid_id (aget "id" obj)) then Err bad_id else
        let error := default [] (aget "error" obj ≫= as_object) in
        match aget "code" error ≫= as_i64 with
        | None => Err (invalid obj "error.code must be an integer")
        | Some code =>
            match aget "message" error ≫= as_str with
            | None => Err (invalid obj "error.message must be a string")
            | Some message =>
                Ok (MResponse (JsonRpc.error (Some (id_of_field (aget "id" obj)))
                                 {| code := code; message := message; err_data := aget "data" error |}))
            end
        end
      else Err (invalid obj "No matching message type")
  | _ => Err (InvalidMessage (Number 0) "Deserialization Failed: No matching message type" false)
  end.

Section parsing.
Context `{!JsonReader, !JsonText}.

Definition parse_message (text : string) : result Message MessageParseError :=
  let? value := map_err InvalidJson (json_from_str text) in
  classify_message value.

Inductive IncomingPayload := PSingle (m : Message) | PBatch (ms : list Message).

Definition parse_payload (text : string) : result IncomingPayload MessageParseError :=
  let? value := map_err InvalidJson (json_from_str text) in
  match value with
  | JArray [] => Err (InvalidMessage (Number 0) "Deserialization Failed: empty batch" false)
  | JArray items => let? out := collect_results classify_message items in Ok (PBatch out)
  | other => let? m := classify_message other in Ok (PSingle m)
  end.

Definition serialize_message (m : Message) : string := json_text (to_value m).
End parsing.

(** * Endpoint validation *)

Definition MAX_STREAMABLE_HTTP_URL_LENGTH : nat := 2048.

(** A character of [pats] occurs in [s].  The patterns are whole UTF-8
    characters, so that an occurrence starts where a character does. *)
Fixpoint any_char (pats : list string) (s : string) : bool :=
  match strip_first pats s with
  | Some _ => true
  | None => match s with EmptyString => false | String _ s => any_char pats s end
  end.

Definition split_http_endpoint (endpoint : string) : option (string * option string) :=
  rest ← match strip_prefix "http://" endpoint with
         | Some r => Some r | None => strip_prefix "https://" endpoint end;
  let '(authority, path) :=
    match split_once "/" rest with Some (a, p) => (a, "/" +:+ p) | None => (rest, "") end in
  if any_char (white_space ++ ["?"; "#"]) authority then None
  else if any_char (white_space ++ ["#"]) path then None
  else
    let '(host, port) :=
      match split_once ":" authority with Some (h, p) => (h, Some p) | None => (authority, None) end in
    if str_is_empty host then None
    else match port with
         | Some p => if str_is_empty p || negb (all_chars is_digit p) then None else Some (host, Some p)
         | None => Some (host, None)
         end.

Definition is_valid_streamable_http_endpoint (endpoint : string) : result () string :=
  if str_is_empty endpoint then Err "endpoint is empty"
  else if str_contains " " endpoint then Err "endpoint contains spaces"
  else if (MAX_STREAMABLE_HTTP_URL_LENGTH <? String.length endpoint)%nat then
    Err "url length more than max url length"
  else
    match split_http_endpoint endpoint with
    | None => Err "url is not valid"
    | Some (_, None) => Ok ()
    | Some (_, Some port) =>
        match parse_i64 port with
        | Some p => if ((1 <=? p) && (p <=? 65535))%Z then Ok () else Err "port out of range"
        | None => Err "invalid port"
        end
    end.

(** * Which messages an object denotes *)

(** The id a field holds: a string, an [i64], or a larger [u64], of which the
    id is lost. *)
Inductive id_value : Value → RequestId → Prop :=
| id_string s : id_value (JString s) (Str s)
| id_number n : as_i64 (JNumber n) = Some (match n with PosInt z | NegInt z => z | NFloat _ => 0 end)%Z →
    id_value (JNumber n) (Number (match n with PosInt z | NegInt z => z | NFloat _ => 0 end)%Z)
| id_too_large z : (i64_max < z)%Z → id_value (JNumber (PosInt z)) (Number 0).

Definition error_with_code (obj e : JsonDict) : Prop :=
  aget "error" obj = Some (JObject e) ∧ is_Some (aget "code" e).

(** With [id] and [method] a request; with [method] alone a notification; with
    [id] alone a response: a failure when [error] is an object with a code,
    else a success with whatever [result] is. *)
Inductive classified (obj : JsonDict) : Message → Prop :=
| is_a_request idv id method :
    aget "id" obj = Some idv → id_value idv id → aget "method" obj = Some (JString method) →
    classified obj (MRequest (request_new id method (aget "params" obj)))
| is_a_notification method :
    aget "id" obj = None → aget "method" obj = Some (JString method) →
    classified obj (MNotification (notification_new method (aget "params" obj)))
| is_a_failure idv id e c m :
    aget "id" obj = Some idv → id_value idv id → aget "method" obj = None →
    aget "error" obj = Some (JObject e) → (aget "code" e ≫= as_i64) = Some c →
    aget "message" e = Some (JString m) →
    classified obj (MResponse (JsonRpc.error (Some id) {| code := c; message := m; err_data := aget "data" e |}))
| is_a_success idv id :
    aget "id" obj = Some idv → id_value idv id → aget "method" obj = None →
    (∀ e, ¬ error_with_code obj e) →
    classified obj (MResponse {| res_jsonrpc := JSONRPC_VERSION; res_id := Some id;
                                 res_result := aget "result" obj; res_error := None |}).

Lemma valid_id_value v : valid_id (Some v) = true ↔ id_value v (id_of_field (Some v)).
Proof.
  split.
  - destruct v as [| |[z|z|]|s| |]; try done; intros _; cbn [id_of_field].
    + destruct (as_i64 (JNumber (PosInt z))) as [n|] eqn:E; cbn.
      * assert (n = z) as -> by (cbn in E; by case_match; simplify_eq). by apply (id_number (PosInt z)).
      * apply id_too_large. cbn in E. destruct (Z.leb_spec z i64_max); [done|lia].
    + by apply (id_number (NegInt z)).
    + constructor.
  - by inversion 1 as [|[]|].
Qed.

Lemma id_value_field v id : id_value v id → valid_id (Some v) = true ∧ id_of_field (Some v) = id.
Proof.
  inversion 1 as [|n Hn|z Hz]; subst; [done|..].
  - destruct n; [|done|by cbn in Hn]. split; [done|]. cbn [id_of_field]. by rewrite Hn.
  - split; [done|]. cbn. destruct (Z.leb_spec z i64_max); [lia|done].
Qed.

Lemma as_str_Some o s : o ≫= as_str = Some s ↔ o = Some (JString s).
Proof. split; [by destruct o as [[]|]; intros; simplify_eq/=|by intros ->]. Qed.
Lemma found_object_Some o m : o ≫= as_object = Some m ↔ o = Some (JObject m).
Proof. split; [by destruct o as [[]|]; intros; simplify_eq/=|by intros ->]. Qed.

(** [has_code] of the code. *)
Lemma has_code_spec obj :
  from_option (ahas "code") false (aget "error" obj ≫= as_object) = true ↔ ∃ e, error_with_code obj e.
Proof.
  unfold error_with_code. destruct (aget "error" obj ≫= as_object) as [e|] eqn:E; cbn.
  - apply found_object_Some in E. rewrite ahas_true. naive_solver.
  - split; [done|]. intros (e & He & _). by rewrite He in E.
Qed.

Section classify.
Variable obj : JsonDict.
Implicit Types m : Message.

Lemma classify_sound m :
  classify_message (JObject obj) = Ok m → aget "jsonrpc" obj = Some (JString JSONRPC_VERSION) ∧ classified obj m.
Proof.
  unfold classify_message. destruct (bool_decide _) eqn:Hv; [|done]. cbn [negb].
  apply bool_decide_eq_true, as_str_Some in Hv. intros Hm. split; [done|]. revert Hm.
  destruct (aget "id" obj) as [idv|] eqn:Hid.
  - rewrite (proj2 (ahas_true "id" obj)) by eauto. cbn [andb negb]. destruct (valid_id (Some idv)) eqn:Hok; cbn [negb]; cycle 1.
    { by repeat case_match. }
    pose proof (proj1 (valid_id_value idv) Hok) as Hval.
    destruct (ahas "method" obj) eqn:Hme; cbn [andb negb].
    + destruct (aget "method" obj ≫= as_str) as [s|] eqn:Hs; [|done]. intros [= <-].
      apply as_str_Some in Hs. by eapply (is_a_request _ idv).
    + apply ahas_false in Hme. destruct (from_option _ _ _) eqn:Hc; cbn [andb negb].
      * apply has_code_spec in Hc as (e & He & Hcode). rewrite (proj2 (found_object_Some _ e) He).
        cbn [from_option Datatypes.id].
        destruct (aget "code" e ≫= as_i64) as [c|] eqn:Ec; [|done].
        destruct (aget "message" e ≫= as_str) as [t|] eqn:Et; [|done]. intros [= <-].
        apply as_str_Some in Et. by eapply (is_a_failure _ idv).
      * intros [= <-]. eapply (is_a_success _ idv); [done..|]. intros e He.
        by rewrite (proj2 (has_code_spec obj)) in Hc by eauto.
  - rewrite (proj2 (ahas_false "id" obj)) by done. cbn [andb negb].
    destruct (ahas "method" obj) eqn:Hme; cbn [andb negb]; [|done].
    destruct (aget "method" obj ≫= as_str) as [s|] eqn:Hs; [|done]. intros [= <-].
    apply as_str_Some in Hs. by apply is_a_notification.
Qed.

Lemma classify_complete m :
  aget "jsonrpc" obj = Some (JString JSONRPC_VERSION) → classified obj m → classify_message (JObject obj) = Ok m.
Proof.
  intros Hv Hm. unfold classify_message. rewrite (proj2 (as_str_Some _ _) Hv).
  rewrite bool_decide_true by done. cbn [negb].
  inversion Hm as [idv id me Hid Hval Hme|me Hid Hme|idv id e c t Hid Hval Hme He Hc Ht|idv id Hid Hval Hme He];
    subst; first [rewrite (proj2 (ahas_true "id" obj)) by eauto|rewrite (proj2 (ahas_false "id" obj)) by done];
    rewrite Hid; cbn [andb negb];
    try (destruct (id_value_field _ _ Hval) as [-> Hf]; rewrite Hf); cbn [negb].
  - by rewrite (proj2 (ahas_true "method" obj)), Hme by eauto.
  - by rewrite (proj2 (ahas_true "method" obj)), Hme by eauto.
  - rewrite (proj2 (ahas_false "method" obj) Hme). cbn [andb negb].
    rewrite (proj2 (has_code_spec obj)); cycle 1.
    { exists e. split; [done|]. destruct (aget "code" e); [eauto|done]. }
    cbn [andb negb]. rewrite (proj2 (found_object_Some _ e) He). cbn [from_option Datatypes.id].
    by rewrite Hc, Ht.
  - rewrite (proj2 (ahas_false "method" obj) Hme). cbn [andb negb].
    destruct (from_option _ _ _) eqn:Hcode; [|done]. by apply has_code_spec in Hcode as [e ?%He].
Qed.
End classify.

(** C34: An incoming JSON value is accepted exactly when it is an object of the
    protocol's version that denotes the message: a request, a notification, a
    failure or a success, by the fields it has. *)
Theorem classify_exact v m :
  classify_message v = Ok m ↔
  ∃ obj, v = JObject obj ∧ aget "jsonrpc" obj = Some (JString JSONRPC_VERSION) ∧ classified obj m.
Proof.
  split.
  - destruct v as [| | | | |obj]; try done. intros Hm%classify_sound. by exists obj.
  - intros (obj & -> & Hv & Hm). by apply classify_complete.
Qed.

(** * Messages the crate writes are read back *)

Definition sendable (m : Message) : Prop :=
  match m with
  | MRequest r => req_jsonrpc r = JSONRPC_VERSION ∧ id_ok (req_id r)
  | MNotification n => not_jsonrpc n = JSONRPC_VERSION
  | MResponse r =>
      res_jsonrpc r = JSONRPC_VERSION ∧ (∃ id, res_id r = Some id ∧ id_ok id) ∧
      match res_error r with Some e => res_result r = None ∧ in_i64 (code e) | None => True end
  end.

Lemma id_value_of_id id : id_ok id → id_value (value_of_id id) id.
Proof.
  destruct id as [n|s]; intros Hid; [|constructor]. cbn in Hid.
  pose proof (as_i64_value_of_i64 n Hid) as Hn. unfold value_of_id, value_of_i64 in *.
  destruct (n <? 0)%Z; [by apply (id_number (NegInt n))|by apply (id_number (PosInt n))].
Qed.

Lemma classify_written m : sendable m → classify_message (to_value m) = Ok m.
Proof.
  destruct m as [[j i me p]|[j me p]|[j o r e]]; intros Hs; cbn in Hs; cbn [to_value].
  - destruct Hs as [-> Hi]. unfold request_to_value. cbn [req_jsonrpc req_id req_method req_params]. apply classify_complete; [done|].
    replace (MRequest _) with (MRequest (request_new i me (aget "params"
      ([("jsonrpc", JString JSONRPC_VERSION); ("id", value_of_id i); ("method", JString me)] ++
       option_list (pair "params" <$> p))))) by (by destruct p).
    by eapply (is_a_request _ (value_of_id i)); [|apply id_value_of_id|].
  - subst. unfold notification_to_value. cbn [not_jsonrpc not_method not_params]. apply classify_complete; [done|].
    replace (MNotification _) with (MNotification (notification_new me (aget "params"
      ([("jsonrpc", JString JSONRPC_VERSION); ("method", JString me)] ++
       option_list (pair "params" <$> p))))) by (by destruct p).
    apply is_a_notification; by destruct p.
  - destruct Hs as (-> & (id & -> & Hi) & He). unfold response_to_value. cbn [res_jsonrpc res_id res_result res_error].
    apply classify_complete; [by destruct r, e|]. apply id_value_of_id in Hi.
    destruct e as [[c m d]|].
    + destruct He as [-> Hc]. eapply eq_rect; [eapply (is_a_failure _ (value_of_id id) id _ c m); try done|].
      * transitivity (as_i64 (value_of_i64 c)); [done|by apply as_i64_value_of_i64].
      * cbn. unfold JsonRpc.error. repeat f_equal. by destruct d.
    + eapply eq_rect; [eapply (is_a_success _ (value_of_id id) id); try done; [by destruct r|]|].
      * intros e [Herr _]. by destruct r.
      * cbn. by destruct r.
Qed.

Section written.
Context `{!JsonReader, !JsonText}.
Hypothesis reader_inverts : ∀ v, json_from_str (json_text v) = Ok v.

Lemma payload_written m : sendable m → parse_payload (serialize_message m) = Ok (PSingle m).
Proof.
  intros Hm. unfold parse_payload, serialize_message. rewrite reader_inverts. cbn [map_err].
  rewrite (classify_written m) by done. by destruct m.
Qed.
End written.

(** * The progress token *)

Lemma progress_injected params token :
  ok c_token token → progress_meta (inject_progress_token params token) = Some (mkMeta (Some token)).
Proof.
  intros Ht. pose proof (enc_not_null (c := c_token) token Ht) as Hn. pose proof (dec_enc (c := c_token) token Ht) as Hd.
  unfold inject_progress_token. revert Hn Hd. generalize (enc c_token token). intros v Hn Hd.
  unfold progress_meta. cbn [mbind option_bind vget]. rewrite aget_im_insert_eq. cbn [mbind option_bind is_object].
  unfold c_meta, record, c_iso. cbn [dec struct f_opt fread]. rewrite aget_im_insert_eq.
  unfold dec_opt. by rewrite Hn, Hd.
Qed.
(** Everything but the token stays. *)
Lemma inject_keeps obj token k :
  k ≠ "_meta" →
  (p ← inject_progress_token (Some (JObject obj)) token; vget k p) = aget k obj.
Proof. intros Hk. cbn. by rewrite aget_im_insert_ne. Qed.
