(* ===== verification/McpSchema.v ===== *)
(** The checks of tool and sampling messages: MCP/rust-sdk/src/schema.rs (the
    JSON Schema subset) and sampling_validation.rs.

    Regular expressions and the printing of floats are libraries, given by the
    class [SchemaLib].  [validate_at] recurses on the schema; its fuel is the
    nesting of the schema, which [validate_enough] shows to be enough. *)
From S2P Require Import Prelude F64 RustMap RustStr Json Serde McpTypes McpProtocol.

Class SchemaLib := {
  regex_new : string → result (string → bool) string;
  display_f64 : f64 → string
}.

Definition path_or_root (path : string) : string := if str_is_empty path then "<root>" else path.

Definition json_type_name (v : Value) : string :=
  match v with
  | JNull => "null"
  | JBool _ => "boolean"
  | JNumber (PosInt _) | JNumber (NegInt _) => "integer"
  | JNumber (NFloat _) => "number"
  | JString _ => "string"
  | JArray _ => "array"
  | JObject _ => "object"
  end.

(** [f.fract() == 0.0]. *)
Definition is_integral (f : f64) : bool :=
  match f with
  | S754_zero _ => true
  | S754_finite _ m e => (0 <=? e)%Z || (Zpos m mod 2 ^ (- e) =? 0)%Z
  | _ => false
  end.

Definition matches_type (expected : string) (v : Value) : bool :=
  if decide (expected = "null") then is_null v
  else if decide (expected = "boolean") then bool_decide (is_Some (as_bool v))
  else if decide (expected = "object") then is_object v
  else if decide (expected = "array") then match v with JArray _ => true | _ => false end
  else if decide (expected = "string") then is_string v
  else if decide (expected = "number") then match v with JNumber _ => true | _ => false end
  else if decide (expected = "integer") then
    match v with JNumber (NFloat f) => is_integral f | JNumber _ => true | _ => false end
  else true.

Definition as_f64 (v : Value) : option f64 := match v with JNumber n => Some (number_as_f64 n) | _ => None end.
Definition as_array (v : Value) : option (list Value) := match v with JArray l => Some l | _ => None end.

(** [if cond { return Err(..) }]. *)
Definition err_if (cond : bool) (message : string) : result () string := if cond then Err message else Ok ().
(** [if let Some(x) = o { .. }]. *)
Definition on_some {A} (o : option A) (f : A → result () string) : result () string :=
  match o with Some a => f a | None => Ok () end.
(** [for x in l { f(x)? }]. *)
Fixpoint try_each {A} (f : A → result () string) (l : list A) : result () string :=
  match l with [] => Ok () | a :: l => let? _ := f a in try_each f l end.
Definition ok_b {A E} (r : result A E) : bool := match r with Ok _ => true | Err _ => false end.

Section schema.
Context `{!SchemaLib, !JsonText}.

Section rules.
(** [rec] is the validator of sub-schemas. *)
Variable rec : Value → Value → string → result () string.
Implicit Types (obj : JsonDict) (instance : Value) (path : string).

Definition at_path path (message : string) : string := path_or_root path +:+ ": " +:+ message.

Definition check_type obj instance path : result () string :=
  on_some (aget "type" obj) (λ t,
    let matched := match t with
                   | JString s => matches_type s instance
                   | JArray l => existsb (λ x, from_option (λ s, matches_type s instance) false (as_str x)) l
                   | _ => true
                   end in
    err_if (negb matched) (at_path path ("expected type " +:+ json_text t +:+ " but found " +:+ json_type_name instance))).

Definition check_values obj instance path : result () string :=
  let? _ := on_some (aget "enum" obj ≫= as_array) (λ values,
    err_if (negb (existsb (λ v, value_eqb v instance) values))
      (at_path path "value is not one of the allowed values")) in
  on_some (aget "const" obj) (λ c,
    err_if (negb (value_eqb c instance)) (at_path path "value does not match the constant")).

Definition check_number obj instance path : result () string :=
  match instance with
  | JNumber n =>
      let value := number_as_f64 n in
      let bound key := aget key obj ≫= as_f64 in
      let? _ := on_some (bound "minimum") (λ min, err_if (f64_ltb value min)
        (at_path path (display_f64 value +:+ " is below minimum " +:+ display_f64 min))) in
      let? _ := on_some (bound "maximum") (λ max, err_if (f64_gtb value max)
        (at_path path (display_f64 value +:+ " exceeds maximum " +:+ display_f64 max))) in
      let? _ := on_some (bound "exclusiveMinimum") (λ min, err_if (SFleb value min)
        (at_path path (display_f64 value +:+ " is not above " +:+ display_f64 min))) in
      on_some (bound "exclusiveMaximum") (λ max, err_if (f64_geb value max)
        (at_path path (display_f64 value +:+ " is not below " +:+ display_f64 max)))
  | _ => Ok ()
  end.

Definition check_string obj instance path : result () string :=
  match instance with
  | JString s =>
      let len := Z.of_nat (length (chars s)) in
      let? _ := on_some (aget "minLength" obj ≫= as_u64) (λ min, err_if (len <? min)%Z
        (at_path path ("string shorter than " +:+ pretty min))) in
      let? _ := on_some (aget "maxLength" obj ≫= as_u64) (λ max, err_if (max <? len)%Z
        (at_path path ("string longer than " +:+ pretty max))) in
      on_some (aget "pattern" obj ≫= as_str) (λ pattern,
        match regex_new pattern with
        | Ok re => err_if (negb (re s)) (at_path path ("string does not match pattern " +:+ pattern))
        | Err e => Err (at_path path ("invalid pattern " +:+ pattern +:+ ": " +:+ e))
        end)
  | _ => Ok ()
  end.

Definition check_array obj instance path : result () string :=
  match instance with
  | JArray items =>
      let len := Z.of_nat (length items) in
      let? _ := on_some (aget "minItems" obj ≫= as_u64) (λ min, err_if (len <? min)%Z
        (at_path path ("array has fewer than " +:+ pretty min +:+ " items"))) in
      let? _ := on_some (aget "maxItems" obj ≫= as_u64) (λ max, err_if (max <? len)%Z
        (at_path path ("array has more than " +:+ pretty max +:+ " items"))) in
      on_some (aget "items" obj) (λ item_schema,
        try_each (λ p, rec item_schema p.2 (path +:+ "/" +:+ pretty (N.of_nat p.1))) (imap pair items))
  | _ => Ok ()
  end.

Definition check_object obj instance path : result () string :=
  match instance with
  | JObject fields =>
      let? _ := on_some (aget "required" obj ≫= as_array) (λ required,
        try_each (λ name, err_if (negb (ahas name fields))
          (at_path path ("required property '" +:+ name +:+ "' not found"))) (omap as_str required)) in
      let properties := aget "properties" obj ≫= as_object in
      let? _ := on_some properties
        (try_each (λ p, on_some (aget p.1 fields) (λ v, rec p.2 v (path +:+ "/" +:+ p.1)))) in
      on_some (aget "additionalProperties" obj) (λ additional,
        try_each (λ p,
          if from_option (ahas p.1) false properties then Ok () else
          match additional with
          | JBool false => Err (at_path path ("additional property '" +:+ p.1 +:+ "' is not allowed"))
          | JObject _ => rec additional p.2 (path +:+ "/" +:+ p.1)
          | _ => Ok ()
          end) fields)
  | _ => Ok ()
  end.

Definition check_combined obj instance path : result () string :=
  let ok_sub sub := ok_b (rec sub instance path) in
  let? _ := on_some (aget "allOf" obj ≫= as_array) (try_each (λ sub, rec sub instance path)) in
  let? _ := on_some (aget "anyOf" obj ≫= as_array) (λ any,
    err_if (negb (existsb ok_sub any)) (at_path path "value does not match any schema in anyOf")) in
  let? _ := on_some (aget "oneOf" obj ≫= as_array) (λ one,
    let count := length (List.filter ok_sub one) in
    err_if (negb (count =? 1)%nat)
      (at_path path ("value matches " +:+ pretty (N.of_nat count) +:+ " schemas in oneOf"))) in
  on_some (aget "not" obj) (λ sub, err_if (ok_sub sub) (at_path path "value matches the forbidden schema")).

Definition check_rules obj instance path : result () string :=
  let? _ := check_type obj instance path in
  let? _ := check_values obj instance path in
  let? _ := check_number obj instance path in
  let? _ := check_string obj instance path in
  let? _ := check_array obj instance path in
  let? _ := check_object obj instance path in
  check_combined obj instance path.
End rules.

Fixpoint validate_at (fuel : nat) (schema instance : Value) (path : string) : result () string :=
  match fuel with
  | O => Err ""
  | S fuel =>
      match schema with
      | JBool false => Err (at_path path "schema forbids any value")
      | JObject obj => check_rules (validate_at fuel) obj instance path
      | _ => Ok ()
      end
  end.

(** How deep a schema is nested. *)
Fixpoint vdepth (v : Value) : nat :=
  match v with
  | JArray l => S ((fix go l := match l with [] => 0 | v :: l => vdepth v `max` go l end) l)
  | JObject m => S ((fix go m := match m with [] => 0 | kv :: m => vdepth kv.2 `max` go m end) m)
  | _ => 0
  end.

Definition validate (schema instance : Value) : result () string :=
  validate_at (S (vdepth schema)) schema instance "".
Definition schema_valid (schema instance : Value) : Prop := is_ok (validate schema instance).
End schema.

(** * Sampling messages: sampling_validation.rs *)

Definition MIXED_CONTENT : string := "Tool results mixed with other content".
Definition MISSING_RESULT : string := "Tool result missing in request".

Section sampling.
Implicit Types blocks : list SamplingBlock.

Definition is_tool_use (b : SamplingBlock) : bool := match b with SToolUse _ => true | _ => false end.
Definition is_tool_result (b : SamplingBlock) : bool := match b with SToolResult _ => true | _ => false end.
Definition contains_tool_use blocks : bool := existsb is_tool_use blocks.
Definition contains_tool_result blocks : bool := existsb is_tool_result blocks.
(** Collected into a [BTreeSet]: order and repetition do not count. *)
Definition tool_use_ids blocks : list string :=
  bs_of_list (omap (λ b, match b with SToolUse t => Some (tu_id t) | _ => None end) blocks).
Definition tool_result_ids blocks : list string :=
  bs_of_list (omap (λ b, match b with SToolResult t => Some (to_tool_use_id t) | _ => None end) blocks).
Definition ensure_only_tool_results blocks : result () McpError :=
  if forallb is_tool_result blocks then Ok () else Err (EInvalidArgument MIXED_CONTENT).

Definition fail_if (cond : bool) (m : string) : result () McpError :=
  if cond then Err (EInvalidArgument m) else Ok ().
Definition is_assistant (m : SamplingMessage) : bool := match sm_role m with RoleAssistant => true | _ => false end.
Definition message_blocks (m : SamplingMessage) : list SamplingBlock := sampling_as_list (sm_content m).

(** The body of the loop at [message], between the messages around it. *)
Definition validate_message (prev : option SamplingMessage) (message : SamplingMessage)
    (next : option SamplingMessage) : result () McpError :=
  let blocks := message_blocks message in
  let? _ :=
    if contains_tool_result blocks then
      let? _ := ensure_only_tool_results blocks in
      let? _ := fail_if (is_assistant message) MIXED_CONTENT in
      match prev with
      | None => Err (EInvalidArgument MISSING_RESULT)
      | Some prev =>
          let use_ids := tool_use_ids (message_blocks prev) in
          let? _ := fail_if (bool_decide (use_ids = [])) MISSING_RESULT in
          fail_if (negb (bool_decide (use_ids = tool_result_ids blocks))) MISSING_RESULT
      end
    else Ok () in
  if contains_tool_use blocks then
    let? _ := fail_if (negb (is_assistant message)) MISSING_RESULT in
    match next with
    | None => Err (EInvalidArgument MISSING_RESULT)
    | Some next =>
        let next_blocks := message_blocks next in
        let? _ := fail_if (negb (contains_tool_result next_blocks)) MISSING_RESULT in
        let? _ := ensure_only_tool_results next_blocks in
        fail_if (negb (bool_decide (tool_use_ids blocks = tool_result_ids next_blocks))) MISSING_RESULT
    end
  else Ok ().

Fixpoint validate_from (prev : option SamplingMessage) (messages : list SamplingMessage) : result () McpError :=
  match messages with
  | [] => Ok ()
  | message :: rest =>
      let? _ := validate_message prev message (head rest) in
      validate_from (Some message) rest
  end.
Definition validate_tool_use_result_messages (messages : list SamplingMessage) : result () McpError :=
  validate_from None messages.
End sampling.

(** * What a schema says *)

Section spec.
Context `{!SchemaLib, !JsonText}.

(** The keywords of a schema object, for a notion [R] of validity of the
    sub-schemas: every keyword that is there, with a value of the shape it
    needs, holds; other keywords say nothing. *)
Record keywords_hold (R : Value → Value → Prop) (obj : JsonDict) (v : Value) : Prop := {
  kw_type : ∀ t, aget "type" obj = Some t →
    match t with
    | JString s => matches_type s v = true
    | JArray l => ∃ s, JString s ∈ l ∧ matches_type s v = true
    | _ => True
    end;
  kw_enum : ∀ l, aget "enum" obj = Some (JArray l) → ∃ w, w ∈ l ∧ value_eqb w v = true;
  kw_const : ∀ c, aget "const" obj = Some c → value_eqb c v = true;
  kw_number : ∀ n, v = JNumber n →
    let x := number_as_f64 n in
    (∀ m, aget "minimum" obj = Some (JNumber m) → f64_ltb x (number_as_f64 m) = false) ∧
    (∀ m, aget "maximum" obj = Some (JNumber m) → f64_gtb x (number_as_f64 m) = false) ∧
    (∀ m, aget "exclusiveMinimum" obj = Some (JNumber m) → SFleb x (number_as_f64 m) = false) ∧
    (∀ m, aget "exclusiveMaximum" obj = Some (JNumber m) → f64_geb x (number_as_f64 m) = false);
  kw_string : ∀ s, v = JString s →
    (∀ n, aget "minLength" obj = Some (JNumber (PosInt n)) → (n ≤ Z.of_nat (length (chars s)))%Z) ∧
    (∀ n, aget "maxLength" obj = Some (JNumber (PosInt n)) → (Z.of_nat (length (chars s)) ≤ n)%Z) ∧
    (∀ p, aget "pattern" obj = Some (JString p) → ∃ re, regex_new p = Ok re ∧ re s = true);
  kw_array : ∀ l, v = JArray l →
    (∀ n, aget "minItems" obj = Some (JNumber (PosInt n)) → (n ≤ Z.of_nat (length l))%Z) ∧
    (∀ n, aget "maxItems" obj = Some (JNumber (PosInt n)) → (Z.of_nat (length l) ≤ n)%Z) ∧
    (∀ s, aget "items" obj = Some s → Forall (R s) l);
  kw_object : ∀ fields, v = JObject fields →
    (∀ (l : list Value) k, aget "required" obj = Some (JArray l) → JString k ∈ l → is_Some (aget k fields)) ∧
    (∀ (props : JsonDict) k s w, aget "properties" obj = Some (JObject props) → (k, s) ∈ props → aget k fields = Some w → R s w) ∧
    (∀ a k (w : Value), aget "additionalProperties" obj = Some a → (k, w) ∈ fields →
       (∀ props, aget "properties" obj = Some (JObject props) → aget k props = None) →
       match a with JBool false => False | JObject _ => R a w | _ => True end);
  kw_all : ∀ l, aget "allOf" obj = Some (JArray l) → Forall (λ s, R s v) l;
  kw_any : ∀ l, aget "anyOf" obj = Some (JArray l) → Exists (λ s, R s v) l;
  kw_one : ∀ l, aget "oneOf" obj = Some (JArray l) →
    ∃ pre s post, l = pre ++ s :: post ∧ R s v ∧ Forall (λ s, ¬ R s v) (pre ++ post);
  kw_not : ∀ s, aget "not" obj = Some s → ¬ R s v
}.

(** The sub-schemas of an object. *)
Definition subschema (obj : JsonDict) (s : Value) : Prop :=
  (∃ k, aget k obj = Some s) ∨
  (∃ k l, aget k obj = Some (JArray l) ∧ s ∈ l) ∨
  (∃ k m n, aget k obj = Some (JObject m) ∧ (n, s) ∈ m).

Lemma vdepth_array l s : s ∈ l → vdepth s < vdepth (JArray l).
Proof.
  cbn [vdepth]. induction l as [|v l IH]; [set_solver|].
  rewrite elem_of_cons. intros [->|Hs%IH]; [lia|]. lia.
Qed.
Lemma vdepth_object k m s : (k, s) ∈ m → vdepth s < vdepth (JObject m).
Proof.
  cbn [vdepth]. induction m as [|[k' v] m IH]; [set_solver|].
  rewrite elem_of_cons. cbn [snd]. intros [[= -> ->]|Hs%IH]; lia.
Qed.
Lemma subschema_depth obj s : subschema obj s → vdepth s < vdepth (JObject obj).
Proof.
  intros [(k & Hk%aget_Some_elem)|[(k & l & Hk%aget_Some_elem & Hs)|(k & m & n & Hk%aget_Some_elem & Hs)]];
    apply vdepth_object in Hk; [done|..].
  - pose proof (vdepth_array l s Hs). lia.
  - pose proof (vdepth_object n m s Hs). lia.
Qed.

(** ** The pieces of a check *)

Lemma is_ok_bind {A B E} (r : result A E) (k : A → result B E) :
  is_ok (let? x := r in k x) ↔ ∃ a, r = Ok a ∧ is_ok (k a).
Proof. destruct r; cbn; naive_solver. Qed.
Lemma is_ok_seq {B E} (r : result () E) (k : result B E) : is_ok (let? _ := r in k) ↔ is_ok r ∧ is_ok k.
Proof. destruct r as [[]|]; cbn; tauto. Qed.
Lemma is_ok_err_if b m : is_ok (err_if b m) ↔ b = false.
Proof. by destruct b. Qed.
Lemma is_ok_on_some {A} (o : option A) f : is_ok (on_some o f) ↔ ∀ a, o = Some a → is_ok (f a).
Proof. destruct o; cbn; naive_solver. Qed.
Lemma is_ok_try_each {A} (f : A → result () string) l : is_ok (try_each f l) ↔ Forall (λ a, is_ok (f a)) l.
Proof.
  induction l as [|a l IH]; [by split|]. cbn [try_each]. by rewrite is_ok_seq, Forall_cons, IH.
Qed.
Lemma ok_b_spec {A E} (r : result A E) : ok_b r = true ↔ is_ok r.
Proof. by destruct r. Qed.
Lemma existsb_Exists {A} (f : A → bool) l : existsb f l = true ↔ Exists (λ a, f a = true) l.
Proof. rewrite existsb_exists, Exists_exists. by setoid_rewrite list_elem_of_In. Qed.

(** [filter(..).count() == 1]: exactly one. *)
Lemma filter_one {A} (f : A → bool) l :
  length (List.filter f l) = 1 ↔
  ∃ pre a post, l = pre ++ a :: post ∧ f a = true ∧ Forall (λ a, f a = false) (pre ++ post).
Proof.
  assert (Hnone : ∀ l, length (List.filter f l) = 0 ↔ Forall (λ a, f a = false) l).
  { induction l0 as [|a l0 IH]; [done|]. cbn. rewrite Forall_cons. destruct (f a); cbn; naive_solver. }
  split.
  - induction l as [|a l IH]; [done|]. cbn. destruct (f a) eqn:Ha; cbn.
    + intros [= Hl%Hnone]. by exists [], a, l.
    + intros (pre & b & post & -> & Hb & Hf)%IH. exists (a :: pre), b, post. split_and!; [done..|]. by constructor.
  - intros (pre & a & post & -> & Ha & [Hpre Hpost]%Forall_app).
    rewrite List.filter_app, length_app. cbn. rewrite Ha. cbn.
    apply Hnone in Hpre as ->, Hpost as ->. done.
Qed.

(** Lookups through an accessor. *)
Lemma lookup_as {A B} (get : Value → option B) (wrap : A → Value) (f : A → B) (o : option Value) (P : B → Prop) :
  (∀ v b, get v = Some b ↔ ∃ a, v = wrap a ∧ b = f a) →
  (∀ b, o ≫= get = Some b → P b) ↔ (∀ a, o = Some (wrap a) → P (f a)).
Proof.
  intros Hget. split.
  - intros HP a ->. apply HP. cbn. apply Hget. eauto.
  - intros HP b. destruct o as [v|]; [|done]. cbn. intros (a & -> & ->)%Hget. by apply HP.
Qed.
Lemma lookup_array o (P : list Value → Prop) :
  (∀ b, o ≫= as_array = Some b → P b) ↔ (∀ l, o = Some (JArray l) → P l).
Proof. apply (lookup_as as_array JArray Datatypes.id). intros [] x; cbn; naive_solver. Qed.
Lemma lookup_f64 o (P : f64 → Prop) :
  (∀ b, o ≫= as_f64 = Some b → P b) ↔ (∀ m, o = Some (JNumber m) → P (number_as_f64 m)).
Proof. apply (lookup_as as_f64 JNumber number_as_f64). intros [] x; cbn; naive_solver. Qed.
Lemma lookup_u64 o (P : Z → Prop) :
  (∀ b, o ≫= as_u64 = Some b → P b) ↔ (∀ n, o = Some (JNumber (PosInt n)) → P n).
Proof.
  apply (lookup_as as_u64 (JNumber ∘ PosInt) Datatypes.id). intros [| |[]| | |] x; cbn; naive_solver.
Qed.
Lemma lookup_str o (P : string → Prop) :
  (∀ b, o ≫= as_str = Some b → P b) ↔ (∀ s, o = Some (JString s) → P s).
Proof. apply (lookup_as as_str JString Datatypes.id). intros [] x; cbn; naive_solver. Qed.
Lemma lookup_object o (P : JsonDict → Prop) :
  (∀ b, o ≫= as_object = Some b → P b) ↔ (∀ m, o = Some (JObject m) → P m).
Proof. apply (lookup_as as_object JObject Datatypes.id). intros [] x; cbn; naive_solver. Qed.

Lemma type_ok obj v path :
  is_ok (check_type obj v path) ↔
  ∀ t, aget "type" obj = Some t →
    match t with
    | JString s => matches_type s v = true
    | JArray l => ∃ s, JString s ∈ l ∧ matches_type s v = true
    | _ => True
    end.
Proof.
  unfold check_type. rewrite is_ok_on_some. apply forall_proper; intros t. apply forall_proper; intros _.
  cbv zeta. rewrite is_ok_err_if, negb_false_iff. destruct t as [| | |s|l|]; try done.
  rewrite existsb_Exists, Exists_exists. split.
  - intros ([] & Hx & Hm); try done. eauto.
  - intros (s & Hs & Hm). by exists (JString s).
Qed.

Lemma values_ok obj v path :
  is_ok (check_values obj v path) ↔
  (∀ l, aget "enum" obj = Some (JArray l) → ∃ w, w ∈ l ∧ value_eqb w v = true) ∧
  (∀ c, aget "const" obj = Some c → value_eqb c v = true).
Proof.
  unfold check_values. rewrite is_ok_seq, !is_ok_on_some, lookup_array.
  setoid_rewrite is_ok_err_if. setoid_rewrite negb_false_iff. setoid_rewrite existsb_Exists.
  by setoid_rewrite Exists_exists.
Qed.

Lemma number_ok obj v path :
  is_ok (check_number obj v path) ↔
  ∀ n, v = JNumber n →
    let x := number_as_f64 n in
    (∀ m, aget "minimum" obj = Some (JNumber m) → f64_ltb x (number_as_f64 m) = false) ∧
    (∀ m, aget "maximum" obj = Some (JNumber m) → f64_gtb x (number_as_f64 m) = false) ∧
    (∀ m, aget "exclusiveMinimum" obj = Some (JNumber m) → SFleb x (number_as_f64 m) = false) ∧
    (∀ m, aget "exclusiveMaximum" obj = Some (JNumber m) → f64_geb x (number_as_f64 m) = false).
Proof.
  destruct v as [| |n| | |]; try (split; [|done]; by intros _ ? [=]). unfold check_number.
  rewrite !is_ok_seq, !is_ok_on_some, !lookup_f64. setoid_rewrite is_ok_err_if. cbv zeta.
  split; [by intros Hb n' [= <-]|intros Hb; by apply Hb].
Qed.

Lemma string_ok obj v path :
  is_ok (check_string obj v path) ↔
  ∀ s, v = JString s →
    (∀ n, aget "minLength" obj = Some (JNumber (PosInt n)) → (n ≤ Z.of_nat (length (chars s)))%Z) ∧
    (∀ n, aget "maxLength" obj = Some (JNumber (PosInt n)) → (Z.of_nat (length (chars s)) ≤ n)%Z) ∧
    (∀ p, aget "pattern" obj = Some (JString p) → ∃ re, regex_new p = Ok re ∧ re s = true).
Proof.
  destruct v as [| | |s| |]; try (split; [|done]; by intros _ ? [=]). unfold check_string. cbv zeta.
  rewrite !is_ok_seq, !is_ok_on_some, !lookup_u64, lookup_str. setoid_rewrite is_ok_err_if.
  setoid_rewrite Z.ltb_ge.
  assert (Hp : ∀ p, is_ok (match regex_new p with
    | Ok re => err_if (negb (re s)) (at_path path ("string does not match pattern " +:+ p))
    | Err e => Err (at_path path ("invalid pattern " +:+ p +:+ ": " +:+ e)) end) ↔
    ∃ re, regex_new p = Ok re ∧ re s = true).
  { intros p. destruct (regex_new p) as [re|]; [rewrite is_ok_err_if, negb_false_iff|cbn]; naive_solver. }
  setoid_rewrite Hp. split; [by intros Hb n' [= <-]|intros Hb; by apply Hb].
Qed.

(** ** The rules that look at sub-schemas *)

Section rec.
Context (rec : Value → Value → string → result () string) (R : Value → Value → Prop) (obj : JsonDict).
Hypothesis Hrec : ∀ s v p, subschema obj s → is_ok (rec s v p) ↔ R s v.

Lemma sub_key k s : aget k obj = Some s → subschema obj s.
Proof. left. by exists k. Qed.
Lemma sub_elem k l s : aget k obj = Some (JArray l) → s ∈ l → subschema obj s.
Proof. right; left. by exists k, l. Qed.
Lemma sub_entry k m n s : aget k obj = Some (JObject m) → (n, s) ∈ m → subschema obj s.
Proof. right; right. by exists k, m, n. Qed.

Lemma array_ok v path :
  is_ok (check_array rec obj v path) ↔
  ∀ l, v = JArray l →
    (∀ n, aget "minItems" obj = Some (JNumber (PosInt n)) → (n ≤ Z.of_nat (length l))%Z) ∧
    (∀ n, aget "maxItems" obj = Some (JNumber (PosInt n)) → (Z.of_nat (length l) ≤ n)%Z) ∧
    (∀ s, aget "items" obj = Some s → Forall (R s) l).
Proof.
  destruct v as [| | | |l|]; try (split; [|done]; by intros _ ? [=]). unfold check_array. cbv zeta.
  rewrite !is_ok_seq, !is_ok_on_some, !lookup_u64. setoid_rewrite is_ok_err_if. setoid_rewrite Z.ltb_ge.
  assert (Hitems : ∀ s, aget "items" obj = Some s →
    is_ok (try_each (λ p, rec s p.2 (path +:+ "/" +:+ pretty (N.of_nat p.1))) (imap pair l)) ↔ Forall (R s) l).
  { intros s Hs%sub_key. rewrite is_ok_try_each, !Forall_lookup. split.
    - intros Hl i x Hi. apply (Hrec s x (path +:+ "/" +:+ pretty (N.of_nat i)) Hs).
      apply (Hl i (i, x)). by rewrite list_lookup_imap, Hi.
    - intros Hl i [j x]. rewrite list_lookup_imap. destruct (l !! i) as [y|] eqn:Hi; [|done].
      intros [= <- <-]. cbn [fst snd]. apply (Hrec s y _ Hs). by apply (Hl i). }
  split; [intros (H1 & H2 & H3) l' [= <-]|intros Hb; destruct (Hb l eq_refl) as (H1 & H2 & H3)];
    (split_and!; [done..|]; intros s Hs; by apply (Hitems s Hs), H3).
Qed.

Lemma required_ok (fields : JsonDict) path (l : list Value) :
  (∀ k, k ∈ omap as_str l → is_ok (err_if (negb (ahas k fields))
     (at_path path ("required property '" +:+ k +:+ "' not found")))) ↔
  (∀ k, JString k ∈ l → is_Some (aget k fields)).
Proof.
  split; intros Hl k Hk.
  - apply ahas_true, negb_false_iff. eapply is_ok_err_if, Hl. apply list_elem_of_omap. by exists (JString k).
  - apply list_elem_of_omap in Hk as (x & Hx & Hk). destruct x; simplify_eq/=.
    by apply is_ok_err_if, negb_false_iff, ahas_true, Hl.
Qed.

Lemma property_ok (fields : JsonDict) path (props : JsonDict) k s :
  aget "properties" obj = Some (JObject props) → (k, s) ∈ props →
  is_ok (on_some (aget k fields) (λ v, rec s v (path +:+ "/" +:+ k))) ↔ (∀ w, aget k fields = Some w → R s w).
Proof.
  intros Hp Hin. pose proof (sub_entry _ _ _ _ Hp Hin) as Hs. rewrite is_ok_on_some.
  split; intros Hw w Hk; by apply (Hrec s w (path +:+ "/" +:+ k) Hs), Hw.
Qed.

(** Whether a name is declared. *)
Lemma not_declared k :
  from_option (ahas k) false (aget "properties" obj ≫= as_object) = false ↔
  (∀ props, aget "properties" obj = Some (JObject props) → aget k props = None).
Proof.
  rewrite <- (lookup_object _ (λ m, aget k m = None)). setoid_rewrite <- ahas_false.
  destruct (aget "properties" obj ≫= as_object); cbn; naive_solver.
Qed.

Lemma additional_ok path a k w :
  aget "additionalProperties" obj = Some a →
  is_ok (if from_option (ahas k) false (aget "properties" obj ≫= as_object) then Ok () else
    match a with
    | JBool false => Err (at_path path ("additional property '" +:+ k +:+ "' is not allowed"))
    | JObject _ => rec a w (path +:+ "/" +:+ k)
    | _ => Ok ()
    end) ↔
  ((∀ props, aget "properties" obj = Some (JObject props) → aget k props = None) →
     match a with JBool false => False | JObject _ => R a w | _ => True end).
Proof.
  intros Ha%sub_key. pose proof (not_declared k) as Hd.
  destruct (from_option _ _ _); [split; [intros _ Hn%Hd|]; done|].
  assert (Hm : is_ok (match a with
    | JBool false => Err (at_path path ("additional property '" +:+ k +:+ "' is not allowed"))
    | JObject _ => rec a w (path +:+ "/" +:+ k) | _ => Ok () end) ↔
    match a with JBool false => False | JObject _ => R a w | _ => True end).
  { destruct a as [|[]| | | |]; try done. by apply Hrec. }
  rewrite Hm. split; [done|]. intros Ht. by apply Ht, Hd.
Qed.

Lemma object_ok v path :
  is_ok (check_object rec obj v path) ↔
  ∀ fields, v = JObject fields →
    (∀ (l : list Value) k, aget "required" obj = Some (JArray l) → JString k ∈ l → is_Some (aget k fields)) ∧
    (∀ (props : JsonDict) k s w, aget "properties" obj = Some (JObject props) → (k, s) ∈ props → aget k fields = Some w → R s w) ∧
    (∀ a k (w : Value), aget "additionalProperties" obj = Some a → (k, w) ∈ fields →
       (∀ props, aget "properties" obj = Some (JObject props) → aget k props = None) →
       match a with JBool false => False | JObject _ => R a w | _ => True end).
Proof.
  destruct v as [| | | | |fields]; try (split; [|done]; by intros _ ? [=]). unfold check_object. cbv zeta.
  rewrite !is_ok_seq, !is_ok_on_some, lookup_array, lookup_object.
  setoid_rewrite is_ok_try_each. setoid_rewrite Forall_forall. setoid_rewrite required_ok. split.
  - intros (H1 & H2 & H3) f [= <-]. split_and!; [naive_solver|..].
    + intros props k s w Hp Hin. apply (property_ok fields path props k s Hp Hin). by apply (H2 props Hp (k, s)).
    + intros a k w Ha Hin. apply (additional_ok path a k w Ha). by apply (H3 a Ha (k, w)).
  - intros Hb. destruct (Hb fields eq_refl) as (H1 & H2 & H3). split_and!; [naive_solver|..].
    + intros props Hp [k s] Hin. cbn [fst snd]. apply (property_ok fields path props k s Hp Hin).
      intros w. by apply (H2 props k s w).
    + intros a Ha [k w] Hin. apply (additional_ok path a k w Ha). by apply (H3 a k w).
Qed.

Lemma and_iff_compat (A B A' B' : Prop) : A ↔ A' → B ↔ B' → A ∧ B ↔ A' ∧ B'.
Proof. tauto. Qed.

Lemma subs_ok (l : list Value) k v path (P : (Value → Prop) → Prop) :
  (∀ Q Q' : Value → Prop, (∀ s, s ∈ l → Q s ↔ Q' s) → P Q ↔ P Q') →
  aget k obj = Some (JArray l) → P (λ s, is_ok (rec s v path)) ↔ P (λ s, R s v).
Proof. intros HP Hk. apply HP. intros s Hs. by apply Hrec, (sub_elem k l). Qed.

Lemma combined_ok v path :
  is_ok (check_combined rec obj v path) ↔
  (∀ l, aget "allOf" obj = Some (JArray l) → Forall (λ s, R s v) l) ∧
  (∀ l, aget "anyOf" obj = Some (JArray l) → Exists (λ s, R s v) l) ∧
  (∀ l, aget "oneOf" obj = Some (JArray l) →
    ∃ pre s post, l = pre ++ s :: post ∧ R s v ∧ Forall (λ s, ¬ R s v) (pre ++ post)) ∧
  (∀ s, aget "not" obj = Some s → ¬ R s v).
Proof.
  unfold check_combined. cbv zeta. rewrite !is_ok_seq, !is_ok_on_some, !lookup_array.
  (apply and_iff_compat; [|apply and_iff_compat; [|apply and_iff_compat]]); apply forall_proper; intros l; apply forall_proper; intros Hl.
  - rewrite is_ok_try_each, !Forall_forall. apply (subs_ok l "allOf" v path (λ Q, ∀ s, s ∈ l → Q s)); [|done].
    naive_solver.
  - rewrite is_ok_err_if, negb_false_iff, existsb_Exists, !Exists_exists. setoid_rewrite ok_b_spec.
    apply (subs_ok l "anyOf" v path (λ Q, ∃ s, s ∈ l ∧ Q s)); [|done]. naive_solver.
  - rewrite is_ok_err_if, negb_false_iff, Nat.eqb_eq, filter_one.
    setoid_rewrite <- not_true_iff_false. setoid_rewrite ok_b_spec.
    apply (subs_ok l "oneOf" v path
      (λ Q, ∃ pre s post, l = pre ++ s :: post ∧ Q s ∧ Forall (λ s, ¬ Q s) (pre ++ post))); [|done].
    clear Hl. intros Q Q' HQ. do 3 (apply exist_proper; intros ?). split; intros (Hl & Hq & Hf);
      (split_and!; [done|apply HQ; [set_solver|done]|]);
      (rewrite Forall_forall in *; intros s Hs Hn; apply (Hf s Hs), HQ; [set_solver|done]).
  - rewrite is_ok_err_if, <- not_true_iff_false, ok_b_spec. by rewrite (Hrec l v path) by by eapply sub_key.
Qed.

Lemma rules_ok v path : is_ok (check_rules rec obj v path) ↔ keywords_hold R obj v.
Proof.
  unfold check_rules. rewrite !is_ok_seq, type_ok, values_ok, number_ok, string_ok, array_ok, object_ok, combined_ok.
  split; [intros (? & [? ?] & ? & ? & ? & ? & ? & ? & ? & ?); by constructor|].
  intros []. by split_and!.
Qed.
End rec.

(** ** The fuel is enough, and the path only shows in messages *)

Lemma validate_enough fuel s v path : vdepth s < fuel → is_ok (validate_at fuel s v path) ↔ schema_valid s v.
Proof.
  revert s v path. induction (lt_wf fuel) as [fuel _ IH]. intros s v path Hs.
  destruct fuel as [|fuel]; [lia|]. unfold schema_valid, validate. cbn [validate_at].
  destruct s as [|[]| | | |obj]; [done..|]. rewrite !(rules_ok _ schema_valid obj); [done|..];
    intros s w p Hsub%subschema_depth; apply IH; lia.
Qed.
End spec.

(** C26: A schema object accepts a value exactly when its keywords hold of it,
    with validity of the sub-schemas meaning the same; [true] and anything that
    is no schema accept every value, [false] none. *)
Theorem schema_valid_spec `{!SchemaLib, !JsonText} schema v :
  schema_valid schema v ↔
  match schema with
  | JBool false => False
  | JObject obj => keywords_hold schema_valid obj v
  | _ => True
  end.
Proof.
  destruct schema as [|[]| | | |obj]; [done..|]. unfold schema_valid at 1, validate. cbn [validate_at].
  apply rules_ok. intros s w p Hs%subschema_depth. by apply validate_enough.
Qed.

(** * What a conversation with tools looks like *)

(** A [BTreeSet] is determined by its elements. *)
Lemma bs_of_list_eq (l l' : list string) : bs_of_list l = bs_of_list l' ↔ ∀ x, x ∈ l ↔ x ∈ l'.
Proof.
  split; [intros E x; by rewrite <- (elem_of_bs_of_list x l), E, elem_of_bs_of_list|]. intros Hll.
  assert (Hs : ∀ l : list string, bs_sorted (bs_of_list l)) by (intros; apply bs_sorted_extend; constructor).
  assert (Hnd : ∀ s : list string, bs_sorted s → NoDup s).
  { intros s. induction 1 as [|x s Hs' IH Hx]; constructor; [|done]. intros Hin.
    pose proof (proj1 (Forall_forall _ _) Hx x Hin) as Hxx. cbn beta in Hxx. by rewrite cmp_refl in Hxx. }
  assert (Hle : ∀ s : list string, bs_sorted s → StronglySorted cmp_le s).
  { intros s. induction 1 as [|x s Hs' IH Hx]; constructor; [done|]. eapply Forall_impl; [exact Hx|].
    unfold cmp_le. by intros y ->. }
  apply (StronglySorted_unique cmp_le).
  - by apply Hle.
  - by apply Hle.
  - apply NoDup_Permutation; [by apply Hnd..|]. intros x. by rewrite !elem_of_bs_of_list.
Qed.

Section conversations.
Implicit Types (m p n : SamplingMessage) (ms : list SamplingMessage).

(** The ids of the tool calls and of the tool results of a message. *)
Definition calls m : list string :=
  omap (λ b, match b with SToolUse t => Some (tu_id t) | _ => None end) (message_blocks m).
Definition results m : list string :=
  omap (λ b, match b with SToolResult t => Some (to_tool_use_id t) | _ => None end) (message_blocks m).
Definition only_results m : Prop := ∀ b, b ∈ message_blocks m → ∃ t, b = SToolResult t.

(** [n] answers exactly the calls of [m]. *)
Definition answers m n : Prop := ∀ id, id ∈ calls m ↔ id ∈ results n.

(** Tool results are a user's, alone in their message, for the calls of the
    message before; tool calls are the assistant's, and the message after
    answers them. *)
Definition well_paired ms : Prop := ∀ i m, ms !! i = Some m →
  (results m ≠ [] → only_results m ∧ sm_role m = RoleUser ∧
     ∃ p, 0 < i ∧ ms !! pred i = Some p ∧ answers p m) ∧
  (calls m ≠ [] → sm_role m = RoleAssistant ∧
     ∃ n, ms !! S i = Some n ∧ results n ≠ [] ∧ only_results n ∧ answers m n).

Lemma omap_nonempty {A B} (f : A → option B) l : omap f l ≠ [] ↔ Exists (λ a, is_Some (f a)) l.
Proof.
  induction l as [|a l IH]; [split; [done|by inversion 1]|]. rewrite Exists_cons. cbn.
  destruct (f a) as [b|] eqn:Ha; [naive_solver|]. rewrite <- IH. split; [by right|]. by intros [[? [=]]|].
Qed.
Lemma contains_use m : contains_tool_use (message_blocks m) = true ↔ calls m ≠ [].
Proof.
  unfold contains_tool_use, calls. rewrite existsb_Exists, omap_nonempty, !Exists_exists.
  apply exist_proper; intros b. apply and_iff_compat; [done|]. destruct b; cbn; naive_solver.
Qed.
Lemma contains_result m : contains_tool_result (message_blocks m) = true ↔ results m ≠ [].
Proof.
  unfold contains_tool_result, results. rewrite existsb_Exists, omap_nonempty, !Exists_exists.
  apply exist_proper; intros b. apply and_iff_compat; [done|]. destruct b; cbn; naive_solver.
Qed.
Lemma ensure_results m : is_ok (ensure_only_tool_results (message_blocks m)) ↔ only_results m.
Proof.
  unfold ensure_only_tool_results, only_results. destruct (forallb _ _) eqn:E; cbn.
  - split; [|done]. intros _ b Hb. rewrite forallb_forall in E. apply list_elem_of_In, E in Hb.
    destruct b; try done. eauto.
  - split; [done|]. intros Hall. apply not_true_iff_false in E. apply E, forallb_forall. intros b Hb%list_elem_of_In.
    by apply Hall in Hb as [t ->].
Qed.
Lemma is_ok_fail_if b t : is_ok (fail_if b t) ↔ b = false.
Proof. by destruct b. Qed.
Lemma is_ok_if {A E} (b : bool) (r : result A E) (a : A) :
  is_ok (if b then r else Ok a) ↔ (b = true → is_ok r).
Proof. destruct b; naive_solver. Qed.
Lemma answers_ids m n :
  bool_decide (tool_use_ids (message_blocks m) = tool_result_ids (message_blocks n)) = true ↔ answers m n.
Proof. rewrite bool_decide_eq_true. apply bs_of_list_eq. Qed.

(** What the loop's body checks of one message. *)
Lemma message_ok prev m next :
  is_ok (validate_message prev m next) ↔
  (results m ≠ [] → only_results m ∧ sm_role m = RoleUser ∧ ∃ p, prev = Some p ∧ answers p m) ∧
  (calls m ≠ [] → sm_role m = RoleAssistant ∧
     ∃ n, next = Some n ∧ results n ≠ [] ∧ only_results n ∧ answers m n).
Proof.
  unfold validate_message. cbv zeta. rewrite is_ok_seq, !is_ok_if, contains_result, contains_use.
  apply and_iff_compat; apply forall_proper; intros Hm.
  - rewrite !is_ok_seq, ensure_results, is_ok_fail_if.
    apply and_iff_compat; [done|]. apply and_iff_compat; [unfold is_assistant; by destruct (sm_role m)|].
    destruct prev as [p|]; [|naive_solver]. rewrite is_ok_seq, !is_ok_fail_if, negb_false_iff, answers_ids.
    rewrite bool_decide_eq_false. split; [naive_solver|]. intros (? & [= <-] & Ha). split; [|done].
    intros E. destruct (results m) as [|id l] eqn:Er; [done|].
    assert (Hid : id ∈ calls p) by (apply Ha; rewrite Er; by left).
    apply (elem_of_bs_of_list id) in Hid. unfold tool_use_ids in E. unfold calls in Hid. rewrite E in Hid.
    by apply elem_of_nil in Hid.
  - rewrite is_ok_seq, is_ok_fail_if, negb_false_iff.
    apply and_iff_compat; [unfold is_assistant; by destruct (sm_role m)|].
    destruct next as [n|]; [|naive_solver].
    rewrite !is_ok_seq, !is_ok_fail_if, !negb_false_iff, contains_result, ensure_results, answers_ids.
    naive_solver.
Qed.

(** The loop, started behind [done_ms]. *)
Lemma validate_from_ok done_ms ms :
  is_ok (validate_from (last done_ms) ms) ↔
  ∀ i m, ms !! i = Some m → is_ok (validate_message (last (done_ms ++ take i ms)) m (ms !! S i)).
Proof.
  revert done_ms. induction ms as [|m ms IH]; intros done_ms; [done|].
  cbn [validate_from]. rewrite is_ok_seq.
  replace (Some m) with (last (done_ms ++ [m])) by apply last_snoc. rewrite IH. split.
  - intros [Hm Hms] [|i] m' Hi; cbn in Hi |- *.
    + simplify_eq. rewrite app_nil_r. by destruct ms.
    + specialize (Hms i m' Hi). rewrite <- app_assoc in Hms. exact Hms.
  - intros Hall. split.
    + specialize (Hall 0 m eq_refl). cbn in Hall. rewrite app_nil_r in Hall. by destruct ms.
    + intros i m' Hi. specialize (Hall (S i) m' Hi). cbn in Hall. by rewrite <- app_assoc.
Qed.
End conversations.

(** A message list passes exactly when its tool calls and tool results are
    paired: every message with results only has results, is a user's and
    answers exactly the calls of the message before it, and every message with
    calls is the assistant's and is answered by the next. *)
Theorem sampling_messages_paired ms :
  validate_tool_use_result_messages ms = Ok () ↔ well_paired ms.
Proof.
  transitivity (is_ok (validate_tool_use_result_messages ms)); [by destruct (validate_tool_use_result_messages _) as [[]|]|].
  unfold validate_tool_use_result_messages. change None with (last (@nil SamplingMessage)).
  rewrite validate_from_ok. unfold well_paired. apply forall_proper; intros i.
  apply forall_proper; intros m. apply forall_proper; intros Hi. rewrite message_ok. cbn [app].
  assert (Hlast : ∀ p, last (take i ms) = Some p ↔ 0 < i ∧ ms !! pred i = Some p).
  { intros p. pose proof (lookup_lt_Some _ _ _ Hi). rewrite last_lookup, length_take, Nat.min_l by lia.
    destruct i as [|i]; cbn [pred]; [split; [done|lia]|]. rewrite lookup_take_lt by lia. naive_solver lia. }
  setoid_rewrite Hlast. naive_solver.
Qed.
