(* ===== verification/McpServer.v ===== *)
(** The MCP server core: MCP/rust-sdk/src/server (the tool, resource and prompt
    registries, the dispatch of requests, the lifecycle of mod.rs).

    Handlers are the application's: functions of their context and arguments.
    A Rust panic is [None]. *)
From S2P Require Import Prelude F64 RustMap RustStr Json JsonRpc Serde McpTypes McpProtocol McpSchema.
From Stdlib Require Import Ascii.

(** [ServerContext]: the session is a number here. *)
Record ServerContext := mkServerContext { sx_session : nat; sx_meta : option RequestParamsMeta }.
Definition context_progress_token (c : ServerContext) : option ProgressToken := sx_meta c ≫= progress_token.

Notation outcome A := (result A McpError).
Definition ToolHandler : Type := ServerContext → string → Value → outcome CallToolResult.
Definition PromptHandler : Type := ServerContext → string → option Value → outcome GetPromptResult.
Definition ResourceHandler : Type := ServerContext → string → outcome ReadResourceResult.

(** * Completion references *)

Inductive CompleteReference := RefResource (uri : string) | RefPrompt (name : string).
(** [#[serde(tag = "type")]]: the variant is named by the entry [type] of an
    object or by the first element of an array. *)
Definition reference_variant (tag : string) (v : Value) : option CompleteReference :=
  if decide (tag = "ref/resource") then RefResource <$> dec (record id id (f_req "uri" c_string)) v
  else if decide (tag = "ref/prompt") then RefPrompt <$> dec (record id id (f_req "name" c_string)) v
  else None.
Definition c_reference : Codec CompleteReference :=
  mkCodec
    (λ r, match r with
          | RefResource u => JObject [("type", JString "ref/resource"); ("uri", JString u)]
          | RefPrompt n => JObject [("type", JString "ref/prompt"); ("name", JString n)]
          end)
    (λ v, match v with
          | JObject m => tag ← aget "type" m ≫= as_str; reference_variant tag v
          | JArray (t :: l) => tag ← as_str t; reference_variant tag (JArray l)
          | _ => None
          end)
    (λ _, True).
Record CompletionArgument := mkCompletionArgument { cg_name : string; cg_value : string }.
Definition c_completion_argument : Codec CompletionArgument :=
  record (λ '(n, v), mkCompletionArgument n v) (λ a, (cg_name a, cg_value a))
    (f_req "name" c_string ⊗ f_req "value" c_string).
(** [HashMap<String, String>]. *)
Definition c_string_map : Codec (list (string * string)) :=
  mkCodec (λ m, JObject (prod_map id JString <$> m))
    (λ v, m ← as_object v; mapM (λ kv, s ← as_str kv.2; Some (kv.1, s)) m)
    (λ _, True).
Definition c_completion_context : Codec (option (list (string * string))) :=
  record id id (f_opt "arguments" c_string_map).
Record CompleteRequestParams := mkCompleteParams {
  cq_reference : CompleteReference; cq_argument : CompletionArgument;
  cq_context : option (option (list (string * string)))
}.
Definition c_complete_params : Codec CompleteRequestParams :=
  record (λ '(r, a, c), mkCompleteParams r a c) (λ p, (cq_reference p, cq_argument p, cq_context p))
    (f_req "ref" c_reference ⊗ f_req "argument" c_completion_argument ⊗ f_opt "context" c_completion_context).
Definition CompleteHandler : Type :=
  CompleteReference → CompletionArgument → option (option (list (string * string))) → outcome CompleteResult.
Definition SetLoggingLevelHandler : Type := string → outcome ().

(** * Pages *)

(** [cursor_start]: an invalid cursor is the start. *)
Definition cursor_start (cursor : option string) (len : nat) : nat :=
  let start := match cursor ≫= λ c, parse_i64 (trim c) with Some v => Z.max 0 v | None => 0%Z end in
  Z.to_nat (Z.min start (Z.of_nat len)).

(** The slice [names[start..end]] of a registry's entries and the cursor behind
    it.  [start + page_size] is computed in [usize], and a slice that ends
    before it starts panics. *)
Definition list_page {A B} (entries : list (string * A)) (view : A → B) (page_size : Z) (cursor : option string)
    : option (Page B) :=
  let len := length entries in
  let start := cursor_start cursor len in
  let stop := Z.to_nat (Z.min ((Z.of_nat start + page_size) mod 2 ^ 64) (Z.of_nat len)) in
  if (stop <? start)%nat then None else
  Some (mkPage B (view <$> (take (stop - start) (drop start entries)).*2)
          (if (stop <? len)%nat then Some (pretty (N.of_nat stop)) else None) None).

(** * tool_manager.rs *)

Record ServerTool := mkServerTool { st_tool : Tool; st_handler : ToolHandler; st_structured_output : bool }.
Definition st_name (t : ServerTool) : string := tl_name (st_tool t).
Definition to_tool (t : ServerTool) : Tool := st_tool t.

Record ToolManager := mkToolManager {
  tm_overwrite : bool; tm_tools : list (string * ServerTool); tm_page_size : Z
}.
Definition tool_manager_new (overwrite : bool) (page_size : Z) : ToolManager := mkToolManager overwrite [] page_size.
Definition set_overwrite (overwrite : bool) (m : ToolManager) : ToolManager :=
  mkToolManager overwrite (tm_tools m) (tm_page_size m).
Definition set_tools_page_size (page_size : Z) (m : ToolManager) : ToolManager :=
  mkToolManager (tm_overwrite m) (tm_tools m) page_size.

Definition manager_add_tool (tool : ServerTool) (m : ToolManager) : outcome ToolManager :=
  if ahas (st_name tool) (tm_tools m) && negb (tm_overwrite m) then
    Err (EInvalidState ("Tool '" +:+ st_name tool +:+ "' already exists"))
  else Ok (mkToolManager (tm_overwrite m) (bm_insert (st_name tool) tool (tm_tools m)) (tm_page_size m)).
Definition manager_remove_tool (name : string) (m : ToolManager) : outcome ToolManager :=
  if str_is_empty name then Err (EInvalidArgument "Tool name cannot be empty")
  else if negb (ahas name (tm_tools m)) then Err (EInvalidState ("Tool '" +:+ name +:+ "' not found"))
  else Ok (mkToolManager (tm_overwrite m) (aremove name (tm_tools m)) (tm_page_size m)).
Definition list_tools (cursor : option string) (m : ToolManager) : option (Page Tool) :=
  list_page (tm_tools m) to_tool (tm_page_size m) cursor.

Section schema.
Context `{!SchemaLib, !JsonText}.

Definition call_tool (m : ToolManager) (ctx : ServerContext) (name : string) (arguments : Value)
    : outcome CallToolResult :=
  let? tool := ok_or (aget name (tm_tools m)) (EInvalidState ("Tool not found: " +:+ name)) in
  let? _ :=
    match tl_input_schema (st_tool tool) with
    | Some schema =>
        map_err (λ e, EValidation ("Input validation failed for tool '" +:+ name +:+ "': " +:+ e))
          (validate schema arguments)
    | None => Ok ()
    end in
  let result :=
    match st_handler tool ctx name arguments with
    | Ok r => r
    | Err e => call_result_error (error_message e)
    end in
  let? _ :=
    match tl_output_schema (st_tool tool), ctr_is_error result, ctr_structured_content result with
    | Some schema, false, Some structured =>
        if negb (is_object structured) then
          Err (EValidation ("Output validation failed for tool '" +:+ name +:+
                 "': structuredContent must be a JSON object for tool '" +:+ name +:+ "'"))
        else
          map_err (λ e, EValidation ("Output validation failed for tool '" +:+ name +:+ "': " +:+ e))
            (validate schema structured)
    | _, _, _ => Ok ()
    end in
  Ok result.
End schema.

(** * resource_manager.rs *)

Record ResourceEntry := mkResourceEntry { re_info : ResourceInfo; re_handler : ResourceHandler }.
Record ResourceManager := mkResourceManager {
  rm_overwrite : bool; rm_resources : list (string * ResourceEntry);
  rm_templates : list (string * ResourceTemplate); rm_page_size : Z
}.
Definition resource_manager_new (overwrite : bool) (page_size : Z) : ResourceManager :=
  mkResourceManager overwrite [] [] page_size.
Definition set_resources_page_size (page_size : Z) (m : ResourceManager) : ResourceManager :=
  mkResourceManager (rm_overwrite m) (rm_resources m) (rm_templates m) page_size.
Definition with_resources (m : ResourceManager) r : ResourceManager :=
  mkResourceManager (rm_overwrite m) r (rm_templates m) (rm_page_size m).
Definition with_templates (m : ResourceManager) t : ResourceManager :=
  mkResourceManager (rm_overwrite m) (rm_resources m) t (rm_page_size m).

Definition manager_add_resource (info : ResourceInfo) (handler : ResourceHandler) (m : ResourceManager)
    : outcome ResourceManager :=
  if str_is_empty (ri_uri info) then Err (EInvalidArgument "Resource URI cannot be empty")
  else if str_is_empty (ri_name info) then Err (EInvalidArgument "Resource name cannot be empty")
  else if ahas (ri_uri info) (rm_resources m) && negb (rm_overwrite m) then
    Err (EInvalidState ("Resource '" +:+ ri_uri info +:+ "' already exists"))
  else Ok (with_resources m (bm_insert (ri_uri info) (mkResourceEntry info handler) (rm_resources m))).
Definition manager_remove_resource (uri : string) (m : ResourceManager) : outcome ResourceManager :=
  if str_is_empty uri then Err (EInvalidArgument "Resource URI cannot be empty")
  else if negb (ahas uri (rm_resources m)) then Err (EInvalidState ("Resource '" +:+ uri +:+ "' not found"))
  else Ok (with_resources m (aremove uri (rm_resources m))).
Definition manager_add_resource_template (t : ResourceTemplate) (m : ResourceManager) : outcome ResourceManager :=
  if str_is_empty (rp_uri_template t) then Err (EInvalidArgument "Resource template URI cannot be empty")
  else if str_is_empty (rp_name t) then Err (EInvalidArgument "Resource template name cannot be empty")
  else if ahas (rp_uri_template t) (rm_templates m) && negb (rm_overwrite m) then
    Err (EInvalidState ("Resource template '" +:+ rp_uri_template t +:+ "' already exists"))
  else Ok (with_templates m (bm_insert (rp_uri_template t) t (rm_templates m))).
Definition manager_remove_resource_template (uri_template : string) (m : ResourceManager) : outcome ResourceManager :=
  if str_is_empty uri_template then Err (EInvalidArgument "Resource template URI cannot be empty")
  else if negb (ahas uri_template (rm_templates m)) then
    Err (EInvalidState ("Resource template '" +:+ uri_template +:+ "' not found"))
  else Ok (with_templates m (aremove uri_template (rm_templates m))).
Definition list_resources (cursor : option string) (m : ResourceManager) : option (Page ResourceInfo) :=
  list_page (rm_resources m) re_info (rm_page_size m) cursor.
Definition read_resource (m : ResourceManager) (ctx : ServerContext) (uri : string) : outcome ReadResourceResult :=
  let? e := ok_or (aget uri (rm_resources m)) (EInvalidState ("Resource not found:" +:+ uri)) in
  re_handler e ctx uri.
Definition list_resource_templates (m : ResourceManager) : Page ResourceTemplate :=
  mkPage _ (rm_templates m).*2 None None.
(** [subscribe_resource] and [unsubscribe_resource]. *)
Definition check_resource (m : ResourceManager) (uri : string) : outcome () :=
  if ahas uri (rm_resources m) then Ok () else Err (EInvalidState ("Resource not found:" +:+ uri)).

(** * prompt_manager.rs *)

Record PromptEntry := mkPromptEntry { pe_info : PromptInfo; pe_handler : PromptHandler }.
Record PromptManager := mkPromptManager { pm_overwrite : bool; pm_prompts : list (string * PromptEntry) }.
Definition prompt_manager_new (overwrite : bool) : PromptManager := mkPromptManager overwrite [].
Definition manager_add_prompt (info : PromptInfo) (handler : PromptHandler) (m : PromptManager) : outcome PromptManager :=
  if str_is_empty (pi_name info) then Err (EInvalidArgument "Prompt name cannot be empty")
  else if ahas (pi_name info) (pm_prompts m) && negb (pm_overwrite m) then
    Err (EInvalidState ("Prompt already exists: " +:+ pi_name info))
  else Ok (mkPromptManager (pm_overwrite m) (bm_insert (pi_name info) (mkPromptEntry info handler) (pm_prompts m))).
Definition manager_remove_prompt (name : string) (m : PromptManager) : PromptManager :=
  mkPromptManager (pm_overwrite m) (aremove name (pm_prompts m)).
Definition list_prompts (m : PromptManager) : Page PromptInfo :=
  mkPage _ (pe_info <$> (pm_prompts m).*2) None None.
Definition get_prompt (m : PromptManager) (ctx : ServerContext) (name : string) (arguments : option Value)
    : outcome GetPromptResult :=
  let? e := ok_or (aget name (pm_prompts m)) (EInvalidState ("Prompt not found: " +:+ name)) in
  pe_handler e ctx name arguments.

(** * The dispatch of requests *)

Record ServerInner := mkServerInner {
  sv_tools : ToolManager; sv_prompts : PromptManager; sv_resources : ResourceManager;
  sv_set_level_handler : option SetLoggingLevelHandler; sv_complete_handler : option CompleteHandler
}.

(** [ServerInner::params]: only an object is decoded. *)
Definition params_of {A} (c : Codec A) (request : Request) : option A :=
  p ← req_params request; if is_object p then dec c p else None.

(** What a request is answered with: [send_result] writes a result, and
    [send_error] an error of a known code. *)
Notation answer := (result Value RpcError).
Definition send_error (c : JsonRpcErrorCode) (message : string) : answer := Err (rpc_error (error_code c) message).
Definition send_outcome {A} (c : Codec A) (code : JsonRpcErrorCode) (o : outcome A) : answer :=
  match o with Ok r => Ok (enc c r) | Err e => send_error code (error_message e) end.

Section dispatch.
Context `{!SchemaLib, !JsonText}.

(** [ServerInner::dispatch]. *)
Definition dispatch (inner : ServerInner) (session : nat) (request : Request) : option answer :=
  let method := req_method request in
  let ctx := mkServerContext session (progress_meta (req_params request)) in
  let invalid_params := send_error InvalidParams ("Invalid params for " +:+ method) in
  let empty_uri := send_error InvalidParams "URI cannot be empty" in
  let cursor := params_of c_paginated_params request ≫= pp_cursor in
  if decide (method = TOOLS_LIST) then
    page ← list_tools cursor (sv_tools inner); Some (Ok (enc c_list_tools_result page))
  else if decide (method = TOOLS_CALL) then Some
    match params_of c_call_params request with
    | None => invalid_params
    | Some p =>
        send_outcome c_call_tool_result InvalidParams
          (call_tool (sv_tools inner) ctx (ca_name p) (default empty_object (ca_arguments p)))
    end
  else if decide (method = PROMPTS_LIST) then Some (Ok (enc c_list_prompts_result (list_prompts (sv_prompts inner))))
  else if decide (method = PROMPTS_GET) then Some
    match params_of c_call_params request with
    | None => invalid_params
    | Some p =>
        send_outcome c_get_prompt_result InvalidParams
          (get_prompt (sv_prompts inner) ctx (ca_name p) (ca_arguments p))
    end
  else if decide (method = RESOURCES_LIST) then
    page ← list_resources cursor (sv_resources inner); Some (Ok (enc c_list_resources_result page))
  else if decide (method = RESOURCES_READ) then Some
    match params_of c_uri_params request with
    | None => invalid_params
    | Some p =>
        if str_is_empty (up_uri p) then empty_uri
        else send_outcome c_read_resource_result InvalidParams (read_resource (sv_resources inner) ctx (up_uri p))
    end
  else if decide (method = RESOURCES_SUBSCRIBE ∨ method = RESOURCES_UNSUBSCRIBE) then Some
    match params_of c_uri_params request with
    | None => invalid_params
    | Some p =>
        if str_is_empty (up_uri p) then empty_uri
        else send_outcome c_marker ServerError (check_resource (sv_resources inner) (up_uri p))
    end
  else if decide (method = RESOURCES_TEMPLATES_LIST) then
    Some (Ok (enc c_list_resource_templates_result (list_resource_templates (sv_resources inner))))
  else if decide (method = LOGGING_SET_LEVEL) then Some
    match params_of c_set_level_params request, sv_set_level_handler inner with
    | None, _ => invalid_params
    | Some _, None => send_error InvalidParams "not set LoggingLevelHandler"
    | Some level, Some h => send_outcome c_marker ServerError (h level)
    end
  else if decide (method = PING) then Some (Ok empty_object)
  else if decide (method = COMPLETION_COMPLETE) then Some
    match params_of c_complete_params request, sv_complete_handler inner with
    | None, _ => send_error InvalidRequest "Invalid complete request"
    | Some _, None => send_error ServerError "Completion handler not registered"
    | Some p, Some h =>
        match h (cq_reference p) (cq_argument p) (cq_context p) with
        | Ok r => Ok (enc c_complete_result r)
        | Err e => send_error ServerError ("Complete handler error: " +:+ error_message e)
        end
    end
  else Some (send_error MethodNotFound ("Method not found: " +:+ method)).
End dispatch.

(** * The server: mod.rs *)

Record ServerConfig := mkServerConfig {
  cf_name : string; cf_version : string; cf_worker_threads : Z; cf_tools_page_size : Z;
  cf_resources_page_size : Z; cf_capabilities : ServerCapabilities
}.
Record TlsConfig := mkTlsConfig {
  tls_enabled : bool; tls_ca_file : string; tls_cert_file : string; tls_key_file : string;
  tls_server_name : string; tls_verify_peer : bool
}.
(** [StreamableHttpServerConfig] without its authenticator and authorizer. *)
Record HttpServerConfig := mkHttpServerConfig {
  hc_endpoint : string; hc_json_response : bool; hc_stateless : bool; hc_io_threads : Z; hc_tls : TlsConfig
}.

Definition validate_config (config : ServerConfig) (is_stdio : bool) : outcome () :=
  if str_is_empty (trim (cf_name config)) || str_is_empty (cf_version config) ||
     negb (str_contains "." (cf_version config)) then
    Err (EInvalidArgument "Invalid server configuration")
  else if is_stdio then Ok ()
  else if ((cf_worker_threads config =? 0) || (MAX_THREAD_NUM <? cf_worker_threads config))%Z then
    Err (EInvalidArgument "Invalid server configuration")
  else Ok ().

Definition bad_transport : outcome () := Err (EInvalidArgument "Invalid Streamable HTTP transport configuration").
Section files.
(** [std::fs::canonicalize] succeeds. *)
Variable path_exists : string → bool.

Definition validate_file_path (path : string) : outcome () :=
  if str_is_empty path || path_exists path then Ok () else bad_transport.
Definition validate_tls_config (config : TlsConfig) : outcome () :=
  if negb (tls_enabled config) then Ok () else
  let name := tls_server_name config in
  if negb (str_is_empty name) &&
     ((253 <? String.length name)%nat || any_char [" "; byte_str [9]; byte_str [13]; byte_str [10]] name ||
      str_contains ".." name) then bad_transport
  else
    let? _ := validate_file_path (tls_cert_file config) in
    let? _ := validate_file_path (tls_key_file config) in
    validate_file_path (tls_ca_file config).
Definition validate_streamable_http_config (config : HttpServerConfig) : outcome () :=
  match is_valid_streamable_http_endpoint (hc_endpoint config) with
  | Err _ => bad_transport
  | Ok _ =>
      if ((hc_io_threads config =? 0) || (MAX_THREAD_NUM <? hc_io_threads config))%Z then bad_transport
      else validate_tls_config (hc_tls config)
  end.

Inductive ServerState := SInit | SRunning | SStopped.
#[export] Instance ServerState_eq_dec : EqDecision ServerState.
Proof. solve_decision. Defined.
Definition state_name (s : ServerState) : string :=
  match s with SInit => "INIT" | SRunning => "RUNNING" | SStopped => "STOPPED" end.

Record McpServer := mkMcpServer {
  ms_config : ServerConfig; ms_transport : option HttpServerConfig; ms_inner : ServerInner; ms_state : ServerState
}.
Definition server_build (config : ServerConfig) (transport : option HttpServerConfig) : McpServer :=
  mkMcpServer config transport
    (mkServerInner (tool_manager_new true (cf_tools_page_size config)) (prompt_manager_new true)
       (resource_manager_new true (cf_resources_page_size config)) None None) SInit.
Definition new_stdio (config : ServerConfig) : outcome McpServer :=
  let? _ := validate_config config true in Ok (server_build config None).
Definition new_streamable_http (config : ServerConfig) (transport : HttpServerConfig) : outcome McpServer :=
  let? _ := validate_config config false in
  let? _ := validate_streamable_http_config transport in
  Ok (server_build config (Some transport)).
End files.

Definition with_state (s : ServerState) (m : McpServer) : McpServer :=
  mkMcpServer (ms_config m) (ms_transport m) (ms_inner m) s.
Definition with_inner (i : ServerInner) (m : McpServer) : McpServer :=
  mkMcpServer (ms_config m) (ms_transport m) i (ms_state m).

(** [run]: [started] is what [ServerManager::start] returns. *)
Definition server_run (started : outcome ()) (m : McpServer) : outcome () * McpServer :=
  if decide (ms_state m = SInit) then
    match started with Ok _ => (Ok (), with_state SRunning m) | Err e => (Err e, m) end
  else (Err (EInvalidState ("run failed. Server is not in init state, current state: " +:+ state_name (ms_state m))), m).
Definition server_stop (m : McpServer) : McpServer :=
  if decide (ms_state m = SRunning) then with_state SStopped m else m.
Definition check_state (m : McpServer) : outcome () :=
  if decide (ms_state m = SStopped) then
    Err (EInvalidState "Cannot perform operation: server has been stopped")
  else Ok ().

Definition inner_tools (t : ToolManager) (i : ServerInner) : ServerInner :=
  mkServerInner t (sv_prompts i) (sv_resources i) (sv_set_level_handler i) (sv_complete_handler i).
Definition inner_prompts (p : PromptManager) (i : ServerInner) : ServerInner :=
  mkServerInner (sv_tools i) p (sv_resources i) (sv_set_level_handler i) (sv_complete_handler i).
Definition inner_resources (r : ResourceManager) (i : ServerInner) : ServerInner :=
  mkServerInner (sv_tools i) (sv_prompts i) r (sv_set_level_handler i) (sv_complete_handler i).

(** [add_tool_handler]: [tool] carries the name and the optional parameters. *)
Definition server_add_tool (tool : ServerTool) (m : McpServer) : outcome McpServer :=
  let? _ := check_state m in
  if str_is_empty (st_name tool) then Err (EInvalidArgument "Tool name cannot be empty") else
  let? t := manager_add_tool tool (sv_tools (ms_inner m)) in
  Ok (with_inner (inner_tools t (ms_inner m)) m).
Definition server_remove_tool (name : string) (m : McpServer) : outcome McpServer :=
  let? _ := check_state m in
  let? t := manager_remove_tool name (sv_tools (ms_inner m)) in
  Ok (with_inner (inner_tools t (ms_inner m)) m).
Definition server_add_prompt (info : PromptInfo) (h : PromptHandler) (m : McpServer) : outcome McpServer :=
  let? _ := check_state m in
  let? p := manager_add_prompt info h (sv_prompts (ms_inner m)) in
  Ok (with_inner (inner_prompts p (ms_inner m)) m).
Definition server_remove_prompt (name : string) (m : McpServer) : outcome McpServer :=
  let? _ := check_state m in
  Ok (with_inner (inner_prompts (manager_remove_prompt name (sv_prompts (ms_inner m))) (ms_inner m)) m).
(** The four operations on resources and templates. *)
Definition server_resources (f : ResourceManager → outcome ResourceManager) (m : McpServer) : outcome McpServer :=
  let? _ := check_state m in
  let? r := f (sv_resources (ms_inner m)) in
  Ok (with_inner (inner_resources r (ms_inner m)) m).
Definition server_add_resource (info : ResourceInfo) (h : ResourceHandler) : McpServer → outcome McpServer :=
  server_resources (manager_add_resource info h).
Definition server_remove_resource (uri : string) : McpServer → outcome McpServer :=
  server_resources (manager_remove_resource uri).
Definition server_add_resource_template (t : ResourceTemplate) : McpServer → outcome McpServer :=
  server_resources (manager_add_resource_template t).
Definition server_remove_resource_template (uri : string) : McpServer → outcome McpServer :=
  server_resources (manager_remove_resource_template uri).
Definition register_set_logging_level_handler (h : SetLoggingLevelHandler) (m : McpServer) : McpServer :=
  with_inner (mkServerInner (sv_tools (ms_inner m)) (sv_prompts (ms_inner m)) (sv_resources (ms_inner m))
    (Some h) (sv_complete_handler (ms_inner m))) m.
Definition add_completion (h : CompleteHandler) (m : McpServer) : McpServer :=
  with_inner (mkServerInner (sv_tools (ms_inner m)) (sv_prompts (ms_inner m)) (sv_resources (ms_inner m))
    (sv_set_level_handler (ms_inner m)) (Some h)) m.

(** * Cursors *)

(** A text in which some character of every white space is missing has none to
    trim. *)
Lemma trim_id s :
  (∀ w, w ∈ white_space → ∃ c, contains_char c w = true ∧ contains_char c s = false) → trim s = s.
Proof.
  assert (Hrev : ∀ c t, contains_char c (String.rev t) = contains_char c t).
  { intros c t. induction t as [|a t IH]; [done|]. rewrite str_rev_cons, contains_char_app, IH.
    cbn. destruct (contains_char c t); [by rewrite orb_true_r|by rewrite !orb_false_r]. }
  intros Hs. unfold trim, trim_start, trim_end. rewrite (strip_all_id white_space); cycle 1.
  { apply strip_first_None. intros w r Hw ->. destruct (Hs w Hw) as (c & Hc & Hn).
    by rewrite contains_char_app, Hc in Hn. }
  rewrite strip_all_id; [apply str_rev_involutive|]. apply strip_first_None.
  intros w r (v & -> & Hv)%list_elem_of_fmap Hr. destruct (Hs v Hv) as (c & Hc & Hn).
  rewrite <- Hrev, Hr, contains_char_app, Hrev, Hc in Hn. done.
Qed.

(** A printed number survives trimming and parsing. *)
Lemma trim_pretty (n : N) : trim (pretty n) = pretty n.
Proof.
  apply trim_id. intros w Hw.
  assert (H : Forall (λ w, ∃ c, contains_char c w = true ∧
    bool_decide (c ∈ ("-"%char :: "0"%char :: (pretty_N_char <$> [0; 1; 2; 3; 4; 5; 6; 7; 8; 9]%N))) = false) white_space).
  { repeat constructor; match goal with |- ∃ c, contains_char c ?w = true ∧ _ =>
      let w := eval vm_compute in w in
      match w with String ?a _ => exists a; split; vm_compute; reflexivity end end. }
  pose proof (proj1 (Forall_forall _ _) H w Hw) as (c & Hc & Hn). exists c. split; [done|].
  replace (pretty n) with (pretty (Z.of_N n)) by (by destruct n). by apply pretty_no_char.
Qed.
Lemma parse_i64_pretty (n : N) : (Z.of_N n ≤ i64_max)%Z → parse_i64 (pretty n) = Some (Z.of_N n).
Proof.
  intros Hn. unfold parse_i64.
  assert (Hm : strip_prefix "-" (pretty n) = None).
  { destruct (strip_prefix "-" (pretty n)) as [r|] eqn:E; [|done].
    apply strip_prefix_Some in E. pose proof (parse_digits_pretty n) as H. by rewrite E in H. }
  rewrite Hm, pretty_N_no_plus. cbn [default from_option Datatypes.id]. rewrite parse_digits_pretty. cbn.
  unfold i64_min, i64_max in *. rewrite !(proj2 (Z.leb_le _ _)) by lia. done.
Qed.

(** * What pages add up to *)

Section pages.
Context {A B : Type} (entries : list (string * A)) (view : A → B) (page_size : Z).

(** A client that follows the cursors. *)
Fixpoint crawl (fuel : nat) (cursor : option string) : option (list B) :=
  match fuel with
  | O => None
  | S fuel =>
      page ← list_page entries view page_size cursor;
      match pg_next_cursor B page with
      | None => Some (pg_items B page)
      | Some c => rest ← crawl fuel (Some c); Some (pg_items B page ++ rest)
      end
  end.

Hypothesis Hlen : (Z.of_nat (length entries) ≤ i64_max)%Z.

(** The cursor of an index. *)
Lemma cursor_start_pretty n : n ≤ length entries → cursor_start (Some (pretty (N.of_nat n))) (length entries) = n.
Proof.
  intros Hn. unfold cursor_start. cbn [mbind option_bind]. rewrite trim_pretty, parse_i64_pretty by lia. lia.
Qed.

Definition cursor_at (n : nat) (cursor : option string) : Prop := cursor_start cursor (length entries) = n.

Lemma list_page_at n cursor :
  cursor_at n cursor → n ≤ length entries → (Z.of_nat n + page_size ≤ u64_max)%Z → (0 ≤ page_size)%Z →
  let stop := Z.to_nat (Z.min (Z.of_nat n + page_size) (Z.of_nat (length entries))) in
  list_page entries view page_size cursor =
  Some (mkPage B (view <$> (take (stop - n) (drop n entries)).*2)
          (if (stop <? length entries)%nat then Some (pretty (N.of_nat stop)) else None) None).
Proof.
  intros Hc Hn Hs Hp stop. unfold cursor_at in Hc. unfold list_page. cbv zeta. rewrite !Hc. unfold u64_max in *.
  rewrite !Z.mod_small by lia. fold stop. destruct (Nat.ltb_spec stop n); [lia|reflexivity].
Qed.

Lemma crawl_from fuel n cursor :
  (0 < page_size)%Z → (Z.of_nat (length entries) + page_size ≤ u64_max)%Z →
  cursor_at n cursor → n ≤ length entries → length entries - n < fuel →
  crawl fuel cursor = Some (view <$> (drop n entries).*2).
Proof.
  intros Hp Hs. revert n cursor. induction fuel as [|fuel IH]; intros n cursor Hc Hn Hf; [lia|].
  cbn [crawl]. rewrite (list_page_at n) by (done || lia). cbn [mbind option_bind pg_next_cursor pg_items].
  set (stop := Z.to_nat _). destruct (Nat.ltb_spec stop (length entries)) as [Hlt|Hge].
  - rewrite (IH stop); [|apply cursor_start_pretty; lia|lia..]. cbn [mbind option_bind].
    rewrite <- fmap_app, <- fmap_app. f_equal. f_equal. f_equal.
    rewrite <- (take_drop (stop - n) (drop n entries)) at 2. rewrite drop_drop. by replace (n + (stop - n)) with stop by lia.
  - f_equal. f_equal. f_equal. apply take_ge. rewrite length_drop. lia.
Qed.

(** A page that is not empty is at most as long as the page size. *)
Lemma page_bounded cursor page :
  (0 ≤ page_size)%Z → list_page entries view page_size cursor = Some page →
  (Z.of_nat (length (pg_items B page)) ≤ page_size)%Z.
Proof.
  intros Hp. unfold list_page. cbv zeta. set (start := cursor_start _ _). set (m := ((Z.of_nat start + page_size) mod 2 ^ 64)%Z).
  destruct (Nat.ltb_spec (Z.to_nat (m `min` Z.of_nat (length entries))) start); [done|].
  intros [= <-]. cbn [pg_items]. rewrite !length_fmap, length_take, length_drop.
  assert (m ≤ Z.of_nat start + page_size)%Z by (apply Z.mod_le; lia). lia.
Qed.
End pages.

(** A page size that does not fit behind the cursor panics. *)
Lemma list_page_overflow {A B} (entries : list (string * A)) (view : A → B) page_size n cursor :
  cursor_at entries n cursor → n ≤ length entries → (0 ≤ page_size ≤ u64_max)%Z →
  (Z.of_nat (length entries) ≤ i64_max)%Z → (u64_max < Z.of_nat n + page_size)%Z →
  list_page entries view page_size cursor = None.
Proof.
  intros Hc Hn Hp Hl Ho. unfold cursor_at in Hc. unfold list_page. cbv zeta. rewrite !Hc. unfold u64_max, i64_max in *.
  replace ((Z.of_nat n + page_size) mod 2 ^ 64)%Z with (Z.of_nat n + page_size - 2 ^ 64)%Z; cycle 1.
  { apply Z.mod_unique_pos with 1%Z; lia. }
  destruct (Nat.ltb_spec (Z.to_nat ((Z.of_nat n + page_size - 2 ^ 64) `min` Z.of_nat (length entries))) n); [done|lia].
Qed.


(** With a page size of 0 the cursor never moves. *)
Lemma empty_pages {A B} (entries : list (string * A)) (view : A → B) fuel cursor :
  (Z.of_nat (length entries) ≤ i64_max)%Z → entries ≠ [] → cursor_at entries 0 cursor →
  crawl entries view 0 fuel cursor = None.
Proof.
  intros Hl He. revert cursor. induction fuel as [|fuel IH]; intros cursor Hc; [done|]. cbn [crawl].
  assert (0 < length entries) by (destruct entries; [done|cbn; lia]).
  rewrite (list_page_at entries view 0 0) by (done || unfold u64_max; lia). cbn [mbind option_bind pg_next_cursor].
  replace (Z.to_nat _) with 0 by lia. destruct (Nat.ltb_spec 0 (length entries)); [|lia].
  rewrite IH; [done|]. apply (cursor_start_pretty entries Hl 0). lia.
Qed.

(** * The registries *)

(** Keys are the names of the entries, in order and without repetition; names
    are never empty. *)
Definition registry_ok {A} (name : A → string) (m : list (string * A)) : Prop :=
  bm_sorted m ∧ ∀ k a, (k, a) ∈ m → name a = k ∧ k ≠ "".

Lemma registry_insert {A} (name : A → string) a m :
  name a ≠ "" → registry_ok name m → registry_ok name (bm_insert (name a) a m).
Proof.
  intros Ha [Hs Hm]. split; [by apply bm_sorted_insert|]. intros k b Hin.
  apply aget_elem in Hin; [|by apply bm_sorted_NoDup, bm_sorted_insert].
  rewrite aget_bm_insert in Hin by done. destruct (decide (k = name a)) as [->|]; simplify_eq; [done|].
  by apply Hm, aget_Some_elem.
Qed.
Lemma registry_remove {A} (name : A → string) k m : registry_ok name m → registry_ok name (aremove k m).
Proof.
  intros [Hs Hm]. split; [by apply bm_sorted_remove|]. intros k' a Hin. apply Hm.
  unfold aremove in Hin. by apply list_elem_of_filter in Hin as [_ Hin].
Qed.

Definition inner_ok (i : ServerInner) : Prop :=
  registry_ok st_name (tm_tools (sv_tools i)) ∧
  registry_ok (pi_name ∘ pe_info) (pm_prompts (sv_prompts i)) ∧
  registry_ok (ri_uri ∘ re_info) (rm_resources (sv_resources i)) ∧
  registry_ok rp_uri_template (rm_templates (sv_resources i)).

(** What the application does with a server. *)
Section server.
Variable path_exists : string → bool.

Inductive server_step (m : McpServer) : McpServer → Prop :=
| step_run started : server_step m (server_run started m).2
| step_stop : server_step m (server_stop m)
| step_add_tool tool m' : server_add_tool tool m = Ok m' → server_step m m'
| step_remove_tool name m' : server_remove_tool name m = Ok m' → server_step m m'
| step_add_prompt info h m' : server_add_prompt info h m = Ok m' → server_step m m'
| step_remove_prompt name m' : server_remove_prompt name m = Ok m' → server_step m m'
| step_add_resource info h m' : server_add_resource info h m = Ok m' → server_step m m'
| step_remove_resource uri m' : server_remove_resource uri m = Ok m' → server_step m m'
| step_add_template t m' : server_add_resource_template t m = Ok m' → server_step m m'
| step_remove_template uri m' : server_remove_resource_template uri m = Ok m' → server_step m m'
| step_set_level h : server_step m (register_set_logging_level_handler h m)
| step_completion h : server_step m (add_completion h m).

Inductive server_reachable : McpServer → Prop :=
| reach_stdio config m : new_stdio config = Ok m → server_reachable m
| reach_http config transport m : new_streamable_http path_exists config transport = Ok m → server_reachable m
| reach_step m m' : server_reachable m → server_step m m' → server_reachable m'.

Lemma bind_Ok {A A' E} (r : result A E) (k : A → result A' E) a :
  (let? x := r in k x) = Ok a ↔ ∃ x, r = Ok x ∧ k x = Ok a.
Proof. destruct r; naive_solver. Qed.
Lemma registry_empty {A} (name : A → string) : registry_ok name [].
Proof. split; [constructor|]. intros k a []%elem_of_nil. Qed.

Lemma str_not_empty s : str_is_empty s = false → s ≠ "".
Proof. by destruct s. Qed.

Lemma add_tool_ok tool m m' :
  st_name tool ≠ "" → registry_ok st_name (tm_tools m) → manager_add_tool tool m = Ok m' →
  registry_ok st_name (tm_tools m').
Proof.
  intros Hn Hm. unfold manager_add_tool. destruct (_ && _); [done|]. intros [= <-]. by apply registry_insert.
Qed.
Lemma remove_tool_ok name m m' :
  registry_ok st_name (tm_tools m) → manager_remove_tool name m = Ok m' → registry_ok st_name (tm_tools m').
Proof.
  intros Hm. unfold manager_remove_tool. destruct (str_is_empty name); [done|]. destruct (ahas name _); [|done].
  intros [= <-]. by apply registry_remove.
Qed.
Lemma add_prompt_ok info h m m' :
  registry_ok (pi_name ∘ pe_info) (pm_prompts m) → manager_add_prompt info h m = Ok m' →
  registry_ok (pi_name ∘ pe_info) (pm_prompts m').
Proof.
  intros Hm. unfold manager_add_prompt. destruct (str_is_empty _) eqn:E; [done|]. destruct (_ && _); [done|].
  intros [= <-]. apply (registry_insert (pi_name ∘ pe_info) (mkPromptEntry info h)); [by apply str_not_empty|done].
Qed.

Definition resources_ok (m : ResourceManager) : Prop :=
  registry_ok (ri_uri ∘ re_info) (rm_resources m) ∧ registry_ok rp_uri_template (rm_templates m).
Lemma add_resource_ok info h m m' : resources_ok m → manager_add_resource info h m = Ok m' → resources_ok m'.
Proof.
  intros [Hr Ht]. unfold manager_add_resource. destruct (str_is_empty (ri_uri info)) eqn:E; [done|].
  destruct (str_is_empty (ri_name info)); [done|]. destruct (_ && _); [done|]. intros [= <-]. split; [|done].
  apply (registry_insert (ri_uri ∘ re_info) (mkResourceEntry info h)); [by apply str_not_empty|done].
Qed.
Lemma remove_resource_ok uri m m' : resources_ok m → manager_remove_resource uri m = Ok m' → resources_ok m'.
Proof.
  intros [Hr Ht]. unfold manager_remove_resource. destruct (str_is_empty uri); [done|]. destruct (ahas uri _); [|done].
  intros [= <-]. split; [by apply registry_remove|done].
Qed.
Lemma add_template_ok t m m' : resources_ok m → manager_add_resource_template t m = Ok m' → resources_ok m'.
Proof.
  intros [Hr Ht]. unfold manager_add_resource_template. destruct (str_is_empty (rp_uri_template t)) eqn:E; [done|].
  destruct (str_is_empty (rp_name t)); [done|]. destruct (_ && _); [done|]. intros [= <-]. split; [done|].
  apply registry_insert; [by apply str_not_empty|done].
Qed.
Lemma remove_template_ok uri m m' : resources_ok m → manager_remove_resource_template uri m = Ok m' → resources_ok m'.
Proof.
  intros [Hr Ht]. unfold manager_remove_resource_template. destruct (str_is_empty uri); [done|]. destruct (ahas uri _); [|done].
  intros [= <-]. split; [done|by apply registry_remove].
Qed.
Lemma server_resources_ok f m m' :
  (∀ r r', resources_ok r → f r = Ok r' → resources_ok r') →
  inner_ok (ms_inner m) → server_resources f m = Ok m' → inner_ok (ms_inner m').
Proof.
  intros Hf (Ht & Hp & Hr). unfold server_resources. rewrite bind_Ok. intros (_ & _ & (r & Hfr & [= <-])%bind_Ok).
  split_and!; [done..| |]; by apply (Hf _ _ Hr Hfr).
Qed.

Lemma server_step_ok m m' : server_step m m' → inner_ok (ms_inner m) → inner_ok (ms_inner m').
Proof.
  intros Hst Hm. pose proof Hm as (Ht & Hp & Hr & Hl).
  inversion Hst as [started| |tool ? Hop|name ? Hop|info h ? Hop|name ? Hop|info h ? Hop|uri ? Hop|t ? Hop|uri ? Hop|h|h];
    subst.
  - unfold server_run. case_decide; [|done]. by destruct started.
  - unfold server_stop. by case_decide.
  - unfold server_add_tool in Hop. apply bind_Ok in Hop as (_ & _ & Hop).
    destruct (str_is_empty _) eqn:E; [done|]. apply bind_Ok in Hop as (t & Hadd & [= <-]).
    split_and!; [|done..]. by eapply add_tool_ok; [apply str_not_empty| |].
  - apply bind_Ok in Hop as (_ & _ & (t & Hrem & [= <-])%bind_Ok). split_and!; [|done..]. by eapply remove_tool_ok.
  - apply bind_Ok in Hop as (_ & _ & (p & Hadd & [= <-])%bind_Ok). split_and!; [done| |done..]. by eapply add_prompt_ok.
  - apply bind_Ok in Hop as (_ & _ & [= <-]). split_and!; [done|by apply registry_remove|done..].
  - by eapply server_resources_ok; [apply add_resource_ok| |].
  - by eapply server_resources_ok; [apply remove_resource_ok| |].
  - by eapply server_resources_ok; [apply add_template_ok| |].
  - by eapply server_resources_ok; [apply remove_template_ok| |].
  - done.
  - done.
Qed.

Lemma server_reachable_ok m : server_reachable m → inner_ok (ms_inner m).
Proof.
  induction 1 as [config m Hm|config transport m Hm|m m' Hm IH Hst].
  - apply bind_Ok in Hm as (_ & _ & [= <-]). split_and!; apply registry_empty.
  - apply bind_Ok in Hm as (_ & _ & Hm). apply bind_Ok in Hm as (_ & _ & [= <-]). split_and!; apply registry_empty.
  - by eapply server_step_ok.
Qed.
End server.

(** * Tool calls *)

(** C27: A tool call succeeds exactly when the tool is registered, its input
    schema accepts the arguments and its output schema accepts the structured
    content the handler returned; the result is then the handler's, or the
    handler's failure as an [isError] result. *)
Theorem call_tool_exact `{!SchemaLib, !JsonText} m ctx name arguments r :
  call_tool m ctx name arguments = Ok r ↔
  ∃ tool, aget name (tm_tools m) = Some tool ∧
    (∀ schema, tl_input_schema (st_tool tool) = Some schema → schema_valid schema arguments) ∧
    match st_handler tool ctx name arguments with
    | Ok r' => r = r'
    | Err e => r = call_result_error (error_message e)
    end ∧
    (∀ schema v, tl_output_schema (st_tool tool) = Some schema → ctr_is_error r = false →
       ctr_structured_content r = Some v → is_object v = true ∧ schema_valid schema v).
Proof.
  unfold call_tool. rewrite bind_Ok.
  assert (Hok : ∀ (schema v : Value) f, map_err f (validate schema v) = @Ok () McpError () ↔ schema_valid schema v).
  { intros. unfold schema_valid. destruct (validate schema v) as [[]|]; cbn; naive_solver. }
  assert (Hget : ∀ tool e, ok_or (aget name (tm_tools m)) e = @Ok _ McpError tool ↔ aget name (tm_tools m) = Some tool).
  { intros. destruct (aget name (tm_tools m)); cbn; naive_solver. }
  apply exist_proper; intros tool. rewrite Hget. apply and_iff_compat; [done|]. rewrite bind_Ok. split.
  - intros (u & Hin & (u' & Hout & [= <-])%bind_Ok). split_and!.
    + intros schema Hs. rewrite Hs in Hin. destruct u. by apply Hok in Hin.
    + by destruct (st_handler tool ctx name arguments).
    + intros schema v Hs He Hv. rewrite Hs, He, Hv in Hout. destruct (is_object v); [|done]. cbn [negb] in Hout.
      destruct u'. by apply Hok in Hout.
  - intros (Hin & Hr & Hout). exists ().
    assert (match st_handler tool ctx name arguments with
            | Ok r => r | Err e => call_result_error (error_message e) end = r) as ->.
    { by destruct (st_handler tool ctx name arguments). }
    split.
    + destruct (tl_input_schema (st_tool tool)); [|done]. by apply Hok, Hin.
    + apply bind_Ok. exists (). split; [|done].
      destruct (tl_output_schema (st_tool tool)) as [schema|], (ctr_is_error r), (ctr_structured_content r) as [v|]; try done.
      destruct (Hout schema v) as [-> Hv]; [done..|]. by apply Hok.
Qed.

(** Three tools on pages of two. *)
Definition toy_tool (name : string) : ServerTool :=
  mkServerTool (mkTool name None None None None None None) (λ _ _ _, Err ENotInitialized) false.
Definition toy_tools : ToolManager :=
  mkToolManager false ((λ n, (n, toy_tool n)) <$> ["add"; "echo"; "sum"]) 2.
