(* ===== verification/McpSession.v ===== *)
(** MCP sessions: MCP/rust-sdk/src/session.rs (outstanding requests),
    transport/mod.rs (response sinks and contexts), the sending side of
    transport/streamable_http_server.rs and server/session.rs.

    The state of one server session with its transport is a [World]; the steps
    the scheduler takes are a relation on it.  An HTTP request becomes one task
    that hands its messages to the session one after the other; a request for
    the application keeps its task waiting until the handler returns.  Tasks
    interleave freely. *)
From S2P Require Import Prelude F64 RustMap RustStr Json JsonRpc Serde McpTypes McpProtocol McpSchema McpServer.

(** * session.rs: outstanding requests *)

Notation PendingResult := (result Value RpcError).

(** [PROGRESS_GRACE], in the nanoseconds of the monotonic clock. *)
Definition PROGRESS_GRACE : Z := 5 * 1000000000.

(** A completion channel is a number; [pd_sent] is what was sent on channels. *)
Record PendingRequests := mkPending {
  pd_next_id : Z;
  pd_map : list (RequestId * nat);
  pd_progress : list (RequestId * nat);
  pd_recent : list (Z * RequestId * nat);
  pd_channels : nat;
  pd_sent : list (nat * PendingResult)
}.
Definition pending_new : PendingRequests := mkPending 1 [] [] [] 0 [].

Definition retire_progress (now : Z) (id : RequestId) (p : PendingRequests) : PendingRequests :=
  let recent := filter (λ r : Z * RequestId * nat, (now - r.1.1 < PROGRESS_GRACE)%Z) (pd_recent p) in
  mkPending (pd_next_id p) (pd_map p) (aremove id (pd_progress p))
    (match aget id (pd_progress p) with Some cb => recent ++ [(now, id, cb)] | None => recent end)
    (pd_channels p) (pd_sent p).

(** [register]: the id, the channel and the new table. *)
Definition register (progress : option nat) (p : PendingRequests) : RequestId * nat * PendingRequests :=
  let id := Number (pd_next_id p) in
  (id, pd_channels p,
   mkPending (i64_add (pd_next_id p) 1) (im_insert id (pd_channels p) (pd_map p))
     (match progress with Some cb => im_insert id cb (pd_progress p) | None => pd_progress p end)
     (pd_recent p) (S (pd_channels p)) (pd_sent p)).

(** [complete], whose result nobody uses. *)
Definition complete (now : Z) (id : RequestId) (r : PendingResult) (p : PendingRequests) : PendingRequests :=
  let p := retire_progress now id p in
  match aget id (pd_map p) with
  | Some ch =>
      mkPending (pd_next_id p) (aremove id (pd_map p)) (pd_progress p) (pd_recent p) (pd_channels p)
        (pd_sent p ++ [(ch, r)])
  | None => p
  end.
Definition pending_remove (now : Z) (id : RequestId) (p : PendingRequests) : PendingRequests :=
  let p := retire_progress now id p in
  mkPending (pd_next_id p) (aremove id (pd_map p)) (pd_progress p) (pd_recent p) (pd_channels p) (pd_sent p).
Definition progress_callback (now : Z) (token : ProgressToken) (p : PendingRequests) : option nat :=
  let id := to_request_id token in
  match aget id (pd_progress p) with
  | Some cb => Some cb
  | None =>
      snd <$> head (rev (filter (λ r : Z * RequestId * nat, r.1.2 = id ∧ (now - r.1.1 < PROGRESS_GRACE)%Z) (pd_recent p)))
  end.
(** Every outstanding request fails; the order of the table is not seen. *)
Definition fail_all (e : RpcError) (p : PendingRequests) : PendingRequests :=
  mkPending (pd_next_id p) [] [] [] (pd_channels p) (pd_sent p ++ ((λ en, (en.2, Err e)) <$> pd_map p)).

(** [await_response] once its channel, the end of the table or its timeout
    wakes it up. *)
Inductive awaited := AValue (r : PendingResult) | AClosed | ATimeout (ms : Z).
Definition await_response (now : Z) (id : RequestId) (w : awaited) (p : PendingRequests)
    : outcome Value * PendingRequests :=
  match w with
  | AValue (Ok v) => (Ok v, p)
  | AValue (Err e) => (Err (ERpc e), p)
  | AClosed => (Err EClosed, pending_remove now id p)
  | ATimeout ms => (Err (ETimeout ms), pending_remove now id p)
  end.

(** * transport/mod.rs: sinks *)

(** A sink collects JSON responses into one HTTP response, whose body is
    [sk_reply], or streams frames, of which [None] is the end.  [sk_gone]: the
    receiver was dropped. *)
Record Sink := mkSink {
  sk_json : bool; sk_batch : bool; sk_expected : Z; sk_collected : list Value; sk_reply : option Value;
  sk_frames : list (option Message); sk_gone : bool
}.
Definition sink_json (expected : nat) (batch : bool) : Sink := mkSink true batch (Z.of_nat expected) [] None [] false.
Definition sink_sse (expected : nat) : Sink := mkSink false false (Z.of_nat expected) [] None [] false.

(** [fetch_sub(1)] on a [usize]; true when the sink is complete. *)
Definition response_delivered (s : Sink) : bool * Sink :=
  ((sk_expected s <=? 1)%Z,
   mkSink (sk_json s) (sk_batch s) ((sk_expected s - 1) mod 2 ^ 64) (sk_collected s) (sk_reply s) (sk_frames s) (sk_gone s)).
Definition with_collected (l : list Value) (s : Sink) : Sink :=
  mkSink (sk_json s) (sk_batch s) (sk_expected s) l (sk_reply s) (sk_frames s) (sk_gone s).
Definition with_reply (v : Value) (s : Sink) : Sink :=
  mkSink (sk_json s) (sk_batch s) (sk_expected s) (sk_collected s) (Some v) (sk_frames s) (sk_gone s).
Definition push_frame (f : option Message) (s : Sink) : Sink :=
  mkSink (sk_json s) (sk_batch s) (sk_expected s) (sk_collected s) (sk_reply s) (sk_frames s ++ [f]) (sk_gone s).

Definition send_frame (m : Message) (s : Sink) : outcome () * Sink :=
  if sk_json s then (Err (EInvalidState "cannot stream to a JSON response sink"), s)
  else if sk_gone s then (Err (ETransport "SSE stream is closed"), s)
  else (Ok (), push_frame (Some m) s).
Definition finish (s : Sink) : Sink := if sk_json s || sk_gone s then s else push_frame None s.

Definition json_body (batch : bool) (items : list Value) : Value :=
  if batch then JArray items else default JNull (head items).
Definition deliver_json (v : Value) (s : Sink) : outcome () * Sink :=
  if negb (sk_json s) then (Err (EInvalidState "cannot deliver JSON to an SSE sink"), s) else
  let '(done, s) := response_delivered (with_collected (sk_collected s ++ [v]) s) in
  if done then
    let body := json_body (sk_batch s) (sk_collected s) in
    let s := with_collected [] s in
    match sk_reply s with
    | None =>
        (if sk_gone s then Err (ETransport "HTTP response receiver is gone") else Ok (), with_reply body s)
    | Some _ => (Ok (), s)
    end
  else (Ok (), s).

Record RequestContext := mkContext {
  cx_connection_id : Z; cx_session_id : string; cx_method : string; cx_is_get_stream : bool;
  cx_is_cancelled : bool; cx_sink : option nat
}.
Definition server_initiated (session_id method : string) : RequestContext :=
  mkContext 0 session_id method false false None.
Definition cx_with_method (m : string) (c : RequestContext) : RequestContext :=
  mkContext (cx_connection_id c) (cx_session_id c) m (cx_is_get_stream c) (cx_is_cancelled c) (cx_sink c).
Definition cx_cancel (c : RequestContext) : RequestContext :=
  mkContext (cx_connection_id c) (cx_session_id c) (cx_method c) (cx_is_get_stream c) true (cx_sink c).

(** * The world of one server session *)

Record Transport := mkTransport {
  tr_session_id : string; tr_json : bool; tr_stateless : bool; tr_get_stream : option nat;
  tr_terminated : bool; tr_counter : Z
}.
(** A GET stream: its frames, and whether its receiver was dropped. *)
Record Stream := mkStream { sr_frames : list (option Message); sr_closed : bool }.

(** The loop of [deliver] over its messages, at [tk_pos]; [tk_running] while
    the handler of that message runs. *)
Record Task := mkTask { tk_messages : list (Message * RequestContext); tk_pos : nat; tk_running : bool }.

Record ServerSession := mkSession {
  ss_session_id : string; ss_stateless : bool; ss_name : string; ss_version : string;
  ss_capabilities : ServerCapabilities; ss_client : option ClientCapabilities; ss_initialized : bool;
  ss_handler : bool; ss_requests : list (RequestId * RequestContext); ss_pending : PendingRequests
}.

Record World := mkWorld {
  w_session : ServerSession; w_transport : Transport; w_sinks : list Sink; w_streams : list Stream;
  w_tasks : list Task
}.

Definition with_session (s : ServerSession) (w : World) : World :=
  mkWorld s (w_transport w) (w_sinks w) (w_streams w) (w_tasks w).
Definition with_sinks (s : list Sink) (w : World) : World :=
  mkWorld (w_session w) (w_transport w) s (w_streams w) (w_tasks w).
Definition with_streams (s : list Stream) (w : World) : World :=
  mkWorld (w_session w) (w_transport w) (w_sinks w) s (w_tasks w).
Definition with_transport (t : Transport) (w : World) : World :=
  mkWorld (w_session w) t (w_sinks w) (w_streams w) (w_tasks w).
Definition with_tasks (t : list Task) (w : World) : World :=
  mkWorld (w_session w) (w_transport w) (w_sinks w) (w_streams w) t.

Definition with_requests (r : list (RequestId * RequestContext)) (s : ServerSession) : ServerSession :=
  mkSession (ss_session_id s) (ss_stateless s) (ss_name s) (ss_version s) (ss_capabilities s) (ss_client s)
    (ss_initialized s) (ss_handler s) r (ss_pending s).
Definition with_client (c : ClientCapabilities) (s : ServerSession) : ServerSession :=
  mkSession (ss_session_id s) (ss_stateless s) (ss_name s) (ss_version s) (ss_capabilities s) (Some c)
    (ss_initialized s) (ss_handler s) (ss_requests s) (ss_pending s).
Definition mark_initialized (s : ServerSession) : ServerSession :=
  mkSession (ss_session_id s) (ss_stateless s) (ss_name s) (ss_version s) (ss_capabilities s) (ss_client s)
    true (ss_handler s) (ss_requests s) (ss_pending s).
Definition with_pending (p : PendingRequests) (s : ServerSession) : ServerSession :=
  mkSession (ss_session_id s) (ss_stateless s) (ss_name s) (ss_version s) (ss_capabilities s) (ss_client s)
    (ss_initialized s) (ss_handler s) (ss_requests s) p.

(** ** Sending: [StreamableHttpServerTransport::send_message] *)

Definition with_get_stream (g : option nat) (t : Transport) : Transport :=
  mkTransport (tr_session_id t) (tr_json t) (tr_stateless t) g (tr_terminated t) (tr_counter t).

(** On the GET stream.  The wait for a stream to attach is the scheduler's: the
    send happens when the stream is read. *)
Definition send_to_stream (m : Message) (w : World) : outcome () * World :=
  match tr_get_stream (w_transport w) with
  | None => (Err (EInvalidState "SSE stream request context not set"), w)
  | Some g =>
      match w_streams w !! g with
      | Some st =>
          if sr_closed st then
            (Err (ETransport "SSE stream is closed"), with_transport (with_get_stream None (w_transport w)) w)
          else (Ok (), with_streams (<[g := mkStream (sr_frames st ++ [Some m]) false]> (w_streams w)) w)
      | None => (Err (ETransport "SSE stream is closed"), w)
      end
  end.

(** On the sink of a request. *)
Definition send_to_sink (json : bool) (m : Message) (s : Sink) : outcome () * Sink :=
  if json && sk_json s then
    if is_response m then deliver_json (to_value m) s else (Ok (), s)
  else
    match send_frame m s with
    | (Err e, s) => (Err e, s)
    | (Ok _, s) =>
        if is_response m then
          let '(done, s) := response_delivered s in (Ok (), if done then finish s else s)
        else (Ok (), s)
    end.

Definition send_message (m : Message) (ctx : RequestContext) (w : World) : outcome () * World :=
  if cx_is_get_stream ctx || (cx_connection_id ctx =? 0)%Z then send_to_stream m w
  else
    match cx_sink ctx with
    | None => (Err (EInvalidState "HTTP callback not set"), w)
    | Some k =>
        match w_sinks w !! k with
        | None => (Err (EInvalidState "HTTP callback not set"), w)
        | Some s =>
            let '(r, s) := send_to_sink (tr_json (w_transport w)) m s in
            (r, with_sinks (<[k := s]> (w_sinks w)) w)
        end
    end.

(** ** server/session.rs *)

(** [set_server_capabilities]: subscription is not implemented. *)
Definition set_server_capabilities (c : ServerCapabilities) (s : ServerSession) : ServerSession :=
  let resources :=
    (λ r, mkResourcesCapabilities (Some false) (rc_list_changed r)) <$> sc_resources c in
  mkSession (ss_session_id s) (ss_stateless s) (ss_name s) (ss_version s)
    (mkServerCapabilities (sc_experimental c) (sc_logging c) (sc_prompts c) resources (sc_tools c))
    (ss_client s) (ss_initialized s) (ss_handler s) (ss_requests s) (ss_pending s).

Definition send_response (id : RequestId) (v : Value) (ctx : RequestContext) (w : World) : outcome () * World :=
  let s := w_session w in
  let cancelled := from_option cx_is_cancelled false (aget id (ss_requests s)) in
  let w := with_session (with_requests (aremove id (ss_requests s)) s) w in
  if cancelled || cx_is_cancelled ctx then (Ok (), w)
  else send_message (MResponse (success id v)) ctx w.
Definition send_error_response (id : RequestId) (e : RpcError) (ctx : RequestContext) (w : World) : outcome () * World :=
  let s := w_session w in
  let w := with_session (with_requests (aremove id (ss_requests s)) s) w in
  send_message (MResponse (JsonRpc.error (Some id) e)) ctx w.
(** What a handler answers, see [send_error]. *)
Definition send_answer (id : RequestId) (a : answer) (ctx : RequestContext) (w : World) : World :=
  (match a with Ok v => send_response id v ctx w | Err e => send_error_response id e ctx w end).2.

Definition send_notification (method : string) (params : option Value) (w : World) : outcome () * World :=
  let ctx := server_initiated (ss_session_id (w_session w)) method in
  send_message (MNotification (notification_new method params))
    (mkContext 0 (cx_session_id ctx) (cx_method ctx) true false None) w.

(** [send_request] up to its wait: the id it waits for. *)
Definition start_request (now : Z) (method : string) (params : option Value) (w : World) : outcome (RequestId * nat) * World :=
  let '(id, ch, p) := register None (ss_pending (w_session w)) in
  let w := with_session (with_pending p (w_session w)) w in
  match send_message (MRequest (request_new id method params))
          (server_initiated (ss_session_id (w_session w)) method) w with
  | (Ok _, w) => (Ok (id, ch), w)
  | (Err e, w) => (Err e, with_session (with_pending (pending_remove now id (ss_pending (w_session w))) (w_session w)) w)
  end.
(** [send_request] behind its wait. *)
Definition end_request {A} (c : Codec A) (op_name : string) (r : outcome Value) (de_error : string) : outcome A :=
  match r with
  | Err (ERpc e) => Err (EInvalidState (op_name +:+ " failed: " +:+ message e))
  | Err e => Err e
  | Ok v =>
      if is_null v then Err (EInvalidState (op_name +:+ " failed: null result"))
      else ok_or (dec c v) (EInvalidState (op_name +:+ " failed: result type mismatch (" +:+ de_error +:+ ")"))
  end.

Definition client_capabilities (s : ServerSession) : ClientCapabilities := default default_client_capabilities (ss_client s).
Definition check_can_request (what : string) (s : ServerSession) : outcome () :=
  if ss_stateless s then Err (EInvalidState (what +:+ " is not supported in stateless server mode"))
  else if negb (ss_initialized s) then Err (EInvalidState "Session is not initialized")
  else Ok ().

Section requests.
Context `{!JsonText}.

(** The checks of the requests a server makes, and what they send. *)
Definition list_roots_request (s : ServerSession) : outcome (string * option Value) :=
  let? _ := check_can_request ROOTS_LIST s in
  match cc_roots (client_capabilities s) with
  | None => Err (EInvalidState "Client does not support roots/list")
  | Some _ => Ok (ROOTS_LIST, Some JNull)
  end.

Definition sampling_request (params : CreateMessageParams) (s : ServerSession) : outcome (string * option Value) :=
  let? _ := check_can_request SAMPLING_CREATE_MESSAGE s in
  match cc_sampling (client_capabilities s) with
  | None => Err (EInvalidState "Client does not support sampling/createMessage")
  | Some sampling =>
      if bool_decide (is_Some (cp_tools params)) && negb (sa_tools sampling) then
        Err (EInvalidState
          "Tool-enabled sampling requested but client did not advertise sampling.tools capability")
      else if (match cp_include_context params with
               | Some v => bool_decide (v = "thisServer" ∨ v = "allServers") | None => false end)
              && negb (sa_context sampling) then
        Err (EInvalidState "includeContext requires sampling.context capability")
      else
        let? _ := map_err (EInvalidState ∘ error_message) (validate_tool_use_result_messages (cp_messages params)) in
        Ok (SAMPLING_CREATE_MESSAGE, Some (enc c_create_message_params params))
  end.

(** [elicit] and [elicit_url], with the [ElicitParams] they send. *)
Inductive ElicitParams :=
| EForm (message : string) (requested_schema : JsonDict)
| EUrl (message url elicitation_id : string).
Definition elicit_params_value (p : ElicitParams) : Value :=
  match p with
  | EForm m s => JObject [("mode", JString "form"); ("message", JString m); ("requestedSchema", JObject s)]
  | EUrl m u i =>
      JObject [("mode", JString "url"); ("message", JString m); ("url", JString u); ("elicitationId", JString i)]
  end.
Definition elicit_request (p : ElicitParams) (s : ServerSession) : outcome (string * option Value) :=
  let? _ := check_can_request ELICITATION_CREATE s in
  Ok (ELICITATION_CREATE, Some (elicit_params_value p)).
End requests.

(** ** Receiving *)

Definition default_initialize_params : InitializeRequestParams :=
  mkInitializeParams DEFAULT_PROTOCOL_VERSION default_client_capabilities default_implementation None.
Definition initialize_params (params : option Value) : InitializeRequestParams :=
  match params with
  | Some (JObject m) => default default_initialize_params (dec c_initialize_params (JObject m))
  | _ => default_initialize_params
  end.
Definition negotiate (requested : string) : string :=
  if is_supported_protocol_version requested then requested else LATEST_PROTOCOL_VERSION.
Definition initialize_result (p : InitializeRequestParams) (s : ServerSession) : InitializeResult :=
  mkInitializeResult (negotiate (ip_protocol_version p)) (ss_capabilities s)
    (implementation_new (ss_name s) (ss_version s)) None None.
Definition on_session (f : ServerSession → ServerSession) (w : World) : World := with_session (f (w_session w)) w.
Definition handle_initialize (id : RequestId) (params : option Value) (ctx : RequestContext) (w : World) : World :=
  let p := initialize_params params in
  let w := on_session (with_client (ip_capabilities p)) w in
  let w := (send_response id (enc c_initialize_result (initialize_result p (w_session w))) ctx w).2 in
  on_session mark_initialized w.

Definition handle_cancelled (params : option Value) (w : World) : World :=
  match dec c_cancelled_params (default JNull params) with
  | None => w
  | Some p =>
      let id := cn_request_id p in
      match aget id (ss_requests (w_session w)) with
      | None => w
      | Some ctx =>
          let w := on_session (λ s, with_requests (im_insert id (cx_cancel ctx) (ss_requests s)) s) w in
          (send_message (MResponse (JsonRpc.error (Some id) (rpc_error 0 "Request cancelled"))) (cx_cancel ctx) w).2
      end
  end.

(** [received_request]: true when the handler was started. *)
Definition received_request (r : Request) (ctx : RequestContext) (w : World) : bool * World :=
  let ctx := cx_with_method (req_method r) ctx in
  let s := w_session w in
  if decide (req_method r = INITIALIZE) then (false, handle_initialize (req_id r) (req_params r) ctx w)
  else if negb (ss_stateless s) && negb (ss_initialized s) then
    (false, (send_error_response (req_id r)
               (rpc_error (error_code InvalidRequest) ("Received request before initialization: " +:+ req_method r))
               ctx w).2)
  else if ss_handler s then (true, with_session (with_requests (im_insert (req_id r) ctx (ss_requests s)) s) w)
  else (false, w).

Definition received_notification (n : Notification) (w : World) : World :=
  if decide (not_method n = NOTIFICATION_INITIALIZED) then on_session mark_initialized w
  else if decide (not_method n = NOTIFICATION_CANCELLED) then handle_cancelled (not_params n) w
  else w.
Definition handle_response (now : Z) (r : Response) (w : World) : World :=
  match res_id r with
  | None => w
  | Some id =>
      let result := match res_error r with Some e => Err e | None => Ok (default JNull (res_result r)) end in
      on_session (λ s, with_pending (complete now id result (ss_pending s)) s) w
  end.

(** [on_message_received]. *)
Definition on_message_received (now : Z) (m : Message) (ctx : RequestContext) (w : World) : bool * World :=
  match m with
  | MRequest r => received_request r ctx w
  | MNotification n => (false, received_notification n w)
  | MResponse r => (false, handle_response now r w)
  end.
Definition on_disconnected (reason : string) (w : World) : World :=
  on_session (λ s, with_pending (fail_all (internal_error ("Transport disconnected: " +:+ reason)) (ss_pending s)) s) w.
