(* ===== verification/McpHttp.v ===== *)
(** MCP over HTTP: MCP/rust-sdk/src/transport/streamable_http_server.rs,
    server/manager.rs and auth.rs.

    One transport serves one session; the manager finds the session of a
    request.  [JsonText] and [JsonReader] are serde_json's printer and parser.
    Handling a request has no suspension point that another request could see,
    so it is one step; the tasks it starts are run by [task_step]. *)
From S2P Require Import Prelude F64 RustMap RustStr Json JsonRpc Canonical Serde McpTypes McpProtocol McpSchema McpServer McpSession.
From Stdlib Require Import Ascii.

Notation Headers := (list (string * string)).

(** * auth.rs *)

Record AuthContext := mkAuthContext { ac_client_id : option string; ac_scopes : option string }.
Record AuthenticationResult := mkAuthResult {
  authenticated : bool; auth_context : option AuthContext; error_description : option string
}.
Definition auth_failure (d : string) : AuthenticationResult := mkAuthResult false None (Some d).

Definition AUTHORIZATION : string := "authorization".
(** [BearerTokenProvider::apply]. *)
Definition apply_bearer (token : string) (h : Headers) : Headers :=
  if str_is_empty token || contains_char (ascii_of_nat 13) token || contains_char (ascii_of_nat 10) token then h
  else im_insert AUTHORIZATION ("Bearer " +:+ token) h.

Definition no_auth (h : Headers) : AuthenticationResult := mkAuthResult true (Some (mkAuthContext None None)) None.

(** [BearerTokenAuthenticator::authenticate]. *)
Definition bearer_authenticate (verifier : option (string → AuthenticationResult)) (h : Headers) : AuthenticationResult :=
  match verifier, aget AUTHORIZATION h with
  | None, _ => auth_failure "Token verifier not configured"
  | Some _, None => auth_failure "Missing Authorization header"
  | Some verify, Some value =>
      if (String.length value <? 7)%nat || negb (bool_decide (to_lowercase (str_take 7 value) = "bearer ")) then
        auth_failure "Authorization header must use Bearer scheme"
      else
        let token := strip_all (String.length value) [" "; byte_str [9]] (str_drop 7 value) in
        if str_is_empty token then auth_failure "Bearer token is empty" else verify token
  end.

(** [split_whitespace]. *)
Fixpoint words (fuel : nat) (word s : string) : list string :=
  let push l := if str_is_empty word then l else word :: l in
  match fuel with
  | O => push []
  | S fuel =>
      match strip_first white_space s with
      | Some r => push (words fuel "" r)
      | None => match s with
                | EmptyString => push []
                | String a r => words fuel (word +:+ String a "") r
                end
      end
  end.
Definition split_scopes (s : string) : list string := words (S (String.length s)) "" s.
(** [ScopeBasedAuthorizer]: the required scopes. *)
Definition scope_authorizer_new (required : string) : outcome (list string) :=
  let scopes := split_scopes required in
  if bool_decide (scopes = []) then Err (EInvalidArgument "requiredScopes must not be empty") else Ok scopes.
Definition scope_authorize (required : list string) (r : AuthenticationResult) : bool :=
  if negb (authenticated r) then false else
  match auth_context r ≫= ac_scopes with
  | None => false
  | Some scopes =>
      let provided := split_scopes scopes in
      if bool_decide (provided = []) then false
      else forallb (λ s, bool_decide (s ∈ provided)) required
  end.
(** [SimpleTokenVerifier::verify_token]. *)
Definition simple_verify (tokens : list (string * string)) (token : string) : AuthenticationResult :=
  if str_is_empty token then auth_failure "Token is empty" else
  match aget token tokens with
  | None => auth_failure "Invalid token"
  | Some scopes => mkAuthResult true (Some (mkAuthContext (Some ("client-" +:+ token)) (Some scopes))) None
  end.

(** * HTTP messages *)

Definition MCP_SESSION_ID : string := "mcp-session-id".
Definition MCP_PROTOCOL_VERSION : string := "mcp-protocol-version".
Definition CONTENT_TYPE : string := "content-type".
Definition CONTENT_TYPE_JSON : string := "application/json".
Definition CONTENT_TYPE_SSE : string := "text/event-stream".
Definition CONTENT_TYPE_TEXT_PLAIN : string := "text/plain".

Record HttpRequest := mkHttpRequest { hq_method : string; hq_headers : Headers; hq_body : string }.
Definition header (name : string) (r : HttpRequest) : option string := aget name (hq_headers r).
Record HttpResponse := mkHttpResponse { hs_status : Z; hs_headers : Headers; hs_body : string }.

Inductive HttpReply :=
| Full (r : HttpResponse)
| Deferred (sink : nat) (headers : Headers)
| SinkStream (status : Z) (headers : Headers) (sink : nat)
| GetStream (status : Z) (headers : Headers) (stream : nat).

(** * The transport *)

Section transport.
Context `{!JsonReader, !JsonText}.

(** [is_visible_ascii]. *)
Definition is_visible_ascii (s : string) : bool := Canonical.all_chars (byte_in 33 126) s.
Definition transport_new (session_id : string) (json stateless : bool) : outcome Transport :=
  if negb (str_is_empty session_id) && negb (is_visible_ascii session_id) then
    Err (EInvalidArgument "Session ID must only contain visible ASCII characters (0x21-0x7E)")
  else Ok (mkTransport session_id json stateless None false 1).

Definition session_header (t : Transport) : Headers :=
  if str_is_empty (tr_session_id t) then [] else [(MCP_SESSION_ID, tr_session_id t)].
Definition error_response (t : Transport) (m : string) (status code : Z) (extra : Headers) : HttpResponse :=
  mkHttpResponse status (extra ++ [(CONTENT_TYPE, CONTENT_TYPE_JSON)] ++ session_header t)
    (json_text (JObject [("jsonrpc", JString JSONRPC_VERSION); ("id", JString "server-error");
       ("error", JObject [("code", value_of_i64 code); ("message", JString m)])])).
Definition invalid_request_reply (t : Transport) (m : string) (status : Z) : HttpReply :=
  Full (error_response t m status (error_code InvalidRequest) []).
Definition json_response (t : Transport) (body : option string) (status : Z) : HttpResponse :=
  mkHttpResponse status ([(CONTENT_TYPE, CONTENT_TYPE_JSON)] ++ session_header t) (default "" body).
Definition sse_headers (t : Transport) (with_accel : bool) : Headers :=
  [(CONTENT_TYPE, CONTENT_TYPE_SSE); ("cache-control", "no-cache, no-transform"); ("connection", "keep-alive")] ++
  (if with_accel then [("x-accel-buffering", "no")] else []) ++ session_header t.

Definition validate_protocol_version (t : Transport) (r : HttpRequest) : option HttpReply :=
  let version := default DEFAULT_PROTOCOL_VERSION (header MCP_PROTOCOL_VERSION r) in
  if is_supported_protocol_version version then None else
  Some (invalid_request_reply t ("Bad Request: Unsupported protocol version: " +:+ version +:+
          ". Supported versions: " +:+ SUPPORTED_PROTOCOL_VERSIONS_STRING) 400).
Definition validate_post_headers (t : Transport) (r : HttpRequest) : option HttpReply :=
  let accept := default "" (header "accept" r) in
  let has_json := str_contains CONTENT_TYPE_JSON accept in
  let has_sse := str_contains CONTENT_TYPE_SSE accept in
  if tr_json t && negb has_json then
    Some (invalid_request_reply t "Not Acceptable: Client must accept application/json" 406)
  else if negb (tr_json t) && (negb has_json || negb has_sse) then
    Some (invalid_request_reply t
      "Not Acceptable: Client must accept both application/json and text/event-stream" 406)
  else if negb (str_contains CONTENT_TYPE_JSON (default "" (header CONTENT_TYPE r))) then
    Some (invalid_request_reply t "Unsupported Media Type: Content-Type must be application/json" 415)
  else None.
Definition validate_session_id (t : Transport) (r : HttpRequest) (is_initialization : bool) : option HttpReply :=
  let expected := tr_session_id t in
  if is_initialization || str_is_empty expected then None else
  match header MCP_SESSION_ID r with
  | None => Some (invalid_request_reply t "Bad Request: Missing session ID" 400)
  | Some id =>
      if str_is_empty id then Some (invalid_request_reply t "Bad Request: Missing session ID" 400)
      else if decide (id = expected) then None
      else Some (invalid_request_reply t "Not Found: Invalid or expired session ID" 404)
  end.

Definition is_initialize (v : Value) : bool := bool_decide (vget "method" v ≫= as_str = Some INITIALIZE).
Definition is_initialization (raw : Value) : bool :=
  match raw with JObject _ => is_initialize raw | JArray items => existsb is_initialize items | _ => false end.

(** [new_context] counts connections. *)
Definition new_context (sink : option nat) (w : World) : RequestContext * World :=
  let t := w_transport w in
  (mkContext (tr_counter t) (tr_session_id t) "" false false sink,
   with_transport (mkTransport (tr_session_id t) (tr_json t) (tr_stateless t) (tr_get_stream t) (tr_terminated t)
     (i64_add (tr_counter t) 1)) w).
(** [deliver]: one task for all the messages. *)
Definition deliver (ms : list (Message * RequestContext)) (w : World) : World :=
  with_tasks (w_tasks w ++ [mkTask ms 0 false]) w.
Definition message_context (ctx : RequestContext) (m : Message) : Message * RequestContext :=
  (m, cx_with_method (default "" (method m)) ctx).
Definition has_method_error (e : MessageParseError) : bool :=
  match e with InvalidMessage _ _ b => b | InvalidJson _ => false end.

(** The requests of a body that passed the checks. *)
Definition accept_messages (messages : list Message) (is_batch : bool) (w : World) : HttpReply * World :=
  let t := w_transport w in
  let count := length (List.filter is_request messages) in
  if (count =? 0)%nat then
    let '(ctx, w) := new_context None w in
    (Full (json_response t None 202), deliver ((λ m, (m, ctx)) <$> messages) w)
  else
    let k := length (w_sinks w) in
    let w := with_sinks (w_sinks w ++ [if tr_json t then sink_json count is_batch else sink_sse count]) w in
    let '(ctx, w) := new_context (Some k) w in
    let w := deliver (message_context ctx <$> messages) w in
    (if tr_json t then Deferred k ([(CONTENT_TYPE, CONTENT_TYPE_JSON)] ++ session_header t)
     else SinkStream 200 (sse_headers t true) k, w).

(** [handle_post]; [callback] says whether the session is still alive. *)
Definition handle_post (callback : bool) (r : HttpRequest) (w : World) : HttpReply * World :=
  let t := w_transport w in
  if negb callback then (Full (mkHttpResponse 500 [(CONTENT_TYPE, CONTENT_TYPE_TEXT_PLAIN)] "Callbacks not set"), w) else
  match validate_post_headers t r with
  | Some reply => (reply, w)
  | None =>
      match json_from_str (hq_body r) with
      | Err e => (Full (error_response t ("Parse error: " +:+ e) 400 (error_code ParseError) []), w)
      | Ok raw =>
          match validate_session_id t r (is_initialization raw), validate_protocol_version t r with
          | Some reply, _ | None, Some reply => (reply, w)
          | None, None =>
              match parse_payload (hq_body r) with
              | Ok (PSingle m) => accept_messages [m] false w
              | Ok (PBatch ms) => accept_messages ms true w
              | Err e =>
                  let response := MResponse (to_error_response e) in
                  if has_method_error e then
                    (Full (json_response t (Some (serialize_message response)) (if tr_json t then 200 else 400)), w)
                  else
                    let '(ctx, w) := new_context None w in
                    (Full (json_response t None 202), deliver [(response, ctx)] w)
              end
          end
      end
  end.

Definition stream_open (g : option nat) (w : World) : bool :=
  match g with Some g => match w_streams w !! g with Some s => negb (sr_closed s) | None => false end | None => false end.
Definition handle_get (r : HttpRequest) (w : World) : HttpReply * World :=
  let t := w_transport w in
  if negb (str_contains CONTENT_TYPE_SSE (default "" (header "accept" r))) then
    (invalid_request_reply t "Not Acceptable: Client must accept text/event-stream" 406, w)
  else
    let got := default "" (header MCP_SESSION_ID r) in
    if negb (str_is_empty (tr_session_id t)) && negb (bool_decide (got = tr_session_id t)) then
      (invalid_request_reply t "Bad Request: Invalid session ID" 400, w)
    else
      match validate_protocol_version t r with
      | Some reply => (reply, w)
      | None =>
          if stream_open (tr_get_stream t) w then
            (invalid_request_reply t "Conflict: Only one SSE stream is allowed per session" 409, w)
          else
            let g := length (w_streams w) in
            (GetStream 200 (sse_headers t false) g,
             with_transport (with_get_stream (Some g) t) (with_streams (w_streams w ++ [mkStream [] false]) w))
      end.

(** [terminate]. *)
Definition terminate (w : World) : World :=
  let t := w_transport w in
  let w :=
    match tr_get_stream t with
    | Some g =>
        match w_streams w !! g with
        | Some s => if sr_closed s then w else with_streams (<[g := mkStream (sr_frames s ++ [None]) false]> (w_streams w)) w
        | None => w
        end
    | None => w
    end in
  with_transport (mkTransport "" (tr_json t) (tr_stateless t) None true (tr_counter t)) w.

Definition handle_delete (r : HttpRequest) (w : World) : HttpReply * World :=
  let t := w_transport w in
  if str_is_empty (tr_session_id t) then
    (Full (error_response t "Method Not Allowed: Session termination not supported" 405 (error_code InvalidRequest) []), w)
  else if decide (default "" (header MCP_SESSION_ID r) = tr_session_id t) then
    (Full (json_response t None 200), terminate w)
  else (invalid_request_reply t "Bad Request: Invalid session ID" 400, w).

(** [StreamableHttpServerTransport::handle_request]. *)
Definition transport_handle (callback : bool) (r : HttpRequest) (w : World) : HttpReply * World :=
  let t := w_transport w in
  let not_allowed allow :=
    Full (error_response t "Method Not Allowed" 405 (error_code InvalidRequest) [("allow", allow)]) in
  if tr_stateless t && negb (bool_decide (hq_method r = "POST")) then (not_allowed "POST", w)
  else if tr_terminated t then (invalid_request_reply t "Not Found: Session has been terminated" 404, w)
  else if decide (hq_method r = "POST") then handle_post callback r w
  else if decide (hq_method r = "GET") then handle_get r w
  else if decide (hq_method r = "DELETE") then handle_delete r w
  else (not_allowed "GET, POST, DELETE", w).
End transport.

(** * The manager *)

(** Sessions live in [mg_worlds] as long as something holds them; [mg_sessions]
    is the table of live ones. *)
Record Manager := mkManager { mg_worlds : list World; mg_sessions : list (string * nat) }.

Record ManagerConfig := mkManagerConfig {
  mf_server : ServerConfig; mf_json : bool; mf_stateless : bool;
  mf_authenticator : option (Headers → AuthenticationResult);
  mf_authorizer : option (AuthenticationResult → bool)
}.

Section manager.
Context `{!JsonReader, !JsonText}.

(** [new_http_session]. *)
Definition new_http_session (cfg : ManagerConfig) (session_id : string) (stateless : bool) : outcome World :=
  let? t := transport_new (if stateless then "" else session_id) (mf_json cfg) stateless in
  let s := mkSession session_id stateless (cf_name (mf_server cfg)) (cf_version (mf_server cfg))
             default_server_capabilities None false true [] pending_new in
  Ok (mkWorld (set_server_capabilities (cf_capabilities (mf_server cfg)) s) t [] [] []).

Definition auth_error (status : Z) (text m : string) : HttpReply :=
  Full (mkHttpResponse status [(CONTENT_TYPE, CONTENT_TYPE_JSON); ("x-status-text", text)]
          (json_text (JObject [("error", JString m)]))).
(** The check of the credentials: the reply to a request that fails it. *)
Definition check_auth (cfg : ManagerConfig) (r : HttpRequest) : option HttpReply :=
  match mf_authenticator cfg with
  | None => None
  | Some authenticate =>
      let result := authenticate (hq_headers r) in
      if negb (authenticated result) then
        Some (auth_error 401 "Unauthorized" (default "Authentication failed" (error_description result)))
      else
        match mf_authorizer cfg with
        | Some authorize =>
            if authorize result then None else Some (auth_error 403 "Forbidden" "Insufficient permissions")
        | None => None
        end
  end.
Definition internal_error_reply (e : McpError) : HttpReply :=
  Full (mkHttpResponse 500 [(CONTENT_TYPE, CONTENT_TYPE_TEXT_PLAIN)] ("Error: " +:+ error_message e)).
Definition unknown_session : HttpReply :=
  Full (mkHttpResponse 404 [(CONTENT_TYPE, CONTENT_TYPE_JSON)]
    (json_text (JObject [("jsonrpc", JString JSONRPC_VERSION); ("id", JString "server-error");
       ("error", JObject [("code", value_of_i64 (-32600)); ("message", JString "Not Found: Invalid or expired session ID")])]))).

Definition rejected (reply : HttpReply) : bool :=
  match reply with Full r => (400 <=? hs_status r)%Z | _ => false end.
Definition with_world (i : nat) (w : World) (m : Manager) : Manager :=
  mkManager (<[i := w]> (mg_worlds m)) (mg_sessions m).
Definition set_sessions (s : list (string * nat)) (m : Manager) : Manager := mkManager (mg_worlds m) s.

(** A request for the session at [i]; [created] when it was made for it. *)
Definition serve_session (i : nat) (created : bool) (r : HttpRequest) (m : Manager) : HttpReply * Manager :=
  match mg_worlds m !! i with
  | None => (unknown_session, m)
  | Some w =>
      let id := ss_session_id (w_session w) in
      let m := if created then set_sessions (im_insert id i (mg_sessions m)) m else m in
      let '(reply, w) := transport_handle true r w in
      let m := with_world i w m in
      (reply, if tr_terminated (w_transport w) || (created && rejected reply)
              then set_sessions (aremove id (mg_sessions m)) m else m)
  end.

(** [ServerManager::handle_request]; [fresh] is the session id that would be
    generated.  The world that answers is the second component. *)
Definition handle_request (cfg : ManagerConfig) (fresh : string) (r : HttpRequest) (m : Manager)
    : HttpReply * option nat * Manager :=
  match check_auth cfg r with
  | Some reply => (reply, None, m)
  | None =>
      let id := default "" (header MCP_SESSION_ID r) in
      let i := length (mg_worlds m) in
      let add w := mkManager (mg_worlds m ++ [w]) (mg_sessions m) in
      if mf_stateless cfg then
        match new_http_session cfg id true with
        | Err e => (internal_error_reply e, None, m)
        | Ok w => let '(reply, w) := transport_handle true r w in (reply, Some i, add w)
        end
      else if str_is_empty id then
        match new_http_session cfg fresh false with
        | Err e => (internal_error_reply e, None, m)
        | Ok w => let '(reply, m) := serve_session i true r (add w) in (reply, Some i, m)
        end
      else
        match aget id (mg_sessions m) with
        | None => (unknown_session, None, m)
        | Some i => let '(reply, m) := serve_session i false r m in (reply, Some i, m)
        end
  end.
End manager.

(** * What happens to a session *)

Section steps.
Context `{!JsonReader, !JsonText}.
(** What the application may answer to a request. *)
Variable allowed : Request → answer → Prop.

Definition set_task (i : nat) (t : Task) (w : World) : World := with_tasks (<[i := t]> (w_tasks w)) w.
(** One turn of the loop of a task: the message is handed to the session, and
    the task waits when that started the handler. *)
Definition run_message (now : Z) (i : nat) (t : Task) (m : Message) (ctx : RequestContext) (w : World) : World :=
  let '(started, w) := on_message_received now m ctx w in
  set_task i (mkTask (tk_messages t) (if started then tk_pos t else S (tk_pos t)) started) w.
(** The handler of the task's request returns. *)
Definition finish_request (i : nat) (t : Task) (r : Request) (ctx : RequestContext) (a : answer) (w : World) : World :=
  set_task i (mkTask (tk_messages t) (S (tk_pos t)) false)
    (send_answer (req_id r) a (cx_with_method (req_method r) ctx) w).

(** The requests a server may send of its own. *)
Inductive server_request (s : ServerSession) : string → option Value → Prop :=
| asks_roots method params : list_roots_request s = Ok (method, params) → server_request s method params
| asks_sampling p method params : sampling_request p s = Ok (method, params) → server_request s method params
| asks_elicit p method params : elicit_request p s = Ok (method, params) → server_request s method params.

Definition is_cancel (m : Message) : bool :=
  match m with MNotification n => bool_decide (not_method n = NOTIFICATION_CANCELLED) | _ => false end.

(** A [Vec] has at most [isize::MAX] elements. *)
Definition body_fits (r : HttpRequest) : Prop :=
  ∀ ms, parse_payload (hq_body r) = Ok (PBatch ms) → (Z.of_nat (length ms) ≤ i64_max)%Z.

(** One step of the world; [quiet] forbids cancellations. *)
Inductive world_step (quiet : bool) (w : World) : World → Prop :=
| step_http callback r :
    (tr_counter (w_transport w) < i64_max)%Z → body_fits r → world_step quiet w (transport_handle callback r w).2
| step_message now i t m ctx :
    w_tasks w !! i = Some t → tk_running t = false → tk_messages t !! tk_pos t = Some (m, ctx) →
    (quiet = true → is_cancel m = false) →
    world_step quiet w (run_message now i t m ctx w)
| step_answer i t r ctx a :
    w_tasks w !! i = Some t → tk_running t = true → tk_messages t !! tk_pos t = Some (MRequest r, ctx) →
    allowed r a → world_step quiet w (finish_request i t r ctx a w)
| step_notify method params : world_step quiet w (send_notification method params w).2
| step_ask now method params :
    server_request (w_session w) method params → world_step quiet w (start_request now method params w).2
| step_await now id a :
    world_step quiet w (on_session (λ s, with_pending (await_response now id a (ss_pending s)).2 s) w)
| step_sink_gone k s :
    w_sinks w !! k = Some s →
    world_step quiet w (with_sinks (<[k := mkSink (sk_json s) (sk_batch s) (sk_expected s) (sk_collected s)
                                             (sk_reply s) (sk_frames s) true]> (w_sinks w)) w)
| step_stream_gone g s :
    w_streams w !! g = Some s → world_step quiet w (with_streams (<[g := mkStream (sr_frames s) true]> (w_streams w)) w)
| step_capabilities c : world_step quiet w (on_session (set_server_capabilities c) w).

(** A session of the manager, after any number of steps. *)
Inductive world_reachable (quiet : bool) (w0 : World) : World → Prop :=
| world_start : world_reachable quiet w0 w0
| world_next w w' : world_reachable quiet w0 w → world_step quiet w w' → world_reachable quiet w0 w'.
End steps.

(** * What the functions leave alone *)

Lemma send_message_tasks m ctx w : w_tasks (send_message m ctx w).2 = w_tasks w.
Proof.
  unfold send_message, send_to_stream. destruct (_ || _).
  - destruct (tr_get_stream _); [|done]. destruct (w_streams w !! _) as [s|]; [|done]. by destruct (sr_closed s).
  - destruct (cx_sink ctx); [|done]. destruct (w_sinks w !! _); [|done]. by destruct (send_to_sink _ _ _).
Qed.
Lemma send_message_session m ctx w : w_session (send_message m ctx w).2 = w_session w.
Proof.
  unfold send_message, send_to_stream. destruct (_ || _).
  - destruct (tr_get_stream _); [|done]. destruct (w_streams w !! _) as [s|]; [|done]. by destruct (sr_closed s).
  - destruct (cx_sink ctx); [|done]. destruct (w_sinks w !! _); [|done]. by destruct (send_to_sink _ _ _).
Qed.

(** The parts of a session that only grow or never change. *)
Definition session_kept (s s' : ServerSession) : Prop :=
  ss_stateless s' = ss_stateless s ∧ ss_handler s' = ss_handler s ∧ (ss_initialized s = true → ss_initialized s' = true) ∧
  ss_session_id s' = ss_session_id s.
#[export] Instance session_kept_preorder : PreOrder session_kept.
Proof. split; [by intros s|]. intros s1 s2 s3 (H1 & H2 & H3 & H4) (H5 & H6 & H7 & H8). split_and!; [congruence..|auto|congruence]. Qed.

Lemma send_response_session id v ctx w :
  w_session (send_response id v ctx w).2 = with_requests (aremove id (ss_requests (w_session w))) (w_session w) ∧
  w_tasks (send_response id v ctx w).2 = w_tasks w.
Proof. unfold send_response. destruct (_ || _); [done|]. by rewrite send_message_session, send_message_tasks. Qed.
Lemma send_error_session id e ctx w :
  w_session (send_error_response id e ctx w).2 = with_requests (aremove id (ss_requests (w_session w))) (w_session w) ∧
  w_tasks (send_error_response id e ctx w).2 = w_tasks w.
Proof. unfold send_error_response. by rewrite send_message_session, send_message_tasks. Qed.
Lemma send_answer_session id a ctx w :
  w_session (send_answer id a ctx w) = with_requests (aremove id (ss_requests (w_session w))) (w_session w) ∧
  w_tasks (send_answer id a ctx w) = w_tasks w.
Proof. unfold send_answer. destruct a; [apply send_response_session|apply send_error_session]. Qed.

Lemma received_kept now m ctx w started w' :
  on_message_received now m ctx w = (started, w') →
  session_kept (w_session w) (w_session w') ∧ w_tasks w' = w_tasks w ∧
  (started = true → ∃ r, m = MRequest r ∧ req_method r ≠ INITIALIZE ∧
     (ss_stateless (w_session w) = true ∨ ss_initialized (w_session w) = true)).
Proof.
  destruct m as [r|n|r]; cbn [on_message_received].
  - unfold received_request. case_decide as Hi.
    + intros [= <- <-]. unfold handle_initialize, on_session. cbn [w_session w_tasks with_session].
      match goal with |- context [send_response ?i ?v ?c ?x] => destruct (send_response_session i v c x) as [-> ->] end.
      split_and!; done.
    + destruct (_ && _) eqn:Hs.
      * intros [= <- <-]. match goal with |- context [send_error_response ?i ?v ?c ?x] =>
          destruct (send_error_session i v c x) as [-> ->] end. split_and!; done.
      * destruct (ss_handler _); intros [= <- <-]; (split_and!; [done..|]); [|done].
        intros _. exists r. split_and!; [done..|].
        destruct (ss_stateless _); [by left|]. destruct (ss_initialized _); [by right|done].
  - unfold received_notification. intros [= <- <-]. split_and!; [..|done].
    + case_decide; [done|]. case_decide; [|done]. unfold handle_cancelled. destruct (dec _ _); [|done].
      destruct (aget _ _); [|done]. by rewrite send_message_session.
    + case_decide; [done|]. case_decide; [|done]. unfold handle_cancelled. destruct (dec _ _); [|done].
      destruct (aget _ _); [|done]. by rewrite send_message_tasks.
  - unfold handle_response. intros [= <- <-]. by destruct (res_id r).
Qed.

Lemma start_request_kept now method params w :
  session_kept (w_session w) (w_session (start_request now method params w).2) ∧
  w_tasks (start_request now method params w).2 = w_tasks w ∧
  ss_requests (w_session (start_request now method params w).2) = ss_requests (w_session w).
Proof.
  unfold start_request. destruct (register _ _) as [[id ch] p].
  match goal with |- context [send_message ?a ?b ?c] =>
    pose proof (send_message_session a b c) as Hs; pose proof (send_message_tasks a b c) as Ht;
    destruct (send_message a b c) as [[u|e] w'] end; cbn [snd w_session w_tasks with_session] in *; by rewrite ?Hs, ?Ht.
Qed.

Section gate.
Context `{!JsonReader, !JsonText}.

(** What an HTTP request does: nothing to the session; a task that has not
    begun, at most. *)
Lemma accept_messages_kept messages is_batch w :
  w_session (accept_messages messages is_batch w).2 = w_session w ∧
  ∃ l, w_tasks (accept_messages messages is_batch w).2 = w_tasks w ++ [mkTask l 0 false].
Proof. unfold accept_messages. destruct (_ =? 0)%nat; cbn; eauto. Qed.
Lemma transport_handle_kept callback r w :
  w_session (transport_handle callback r w).2 = w_session w ∧
  (w_tasks (transport_handle callback r w).2 = w_tasks w ∨
   ∃ l, w_tasks (transport_handle callback r w).2 = w_tasks w ++ [mkTask l 0 false]).
Proof.
  unfold transport_handle. destruct (_ && _); [auto|]. destruct (tr_terminated _); [auto|].
  case_decide; [|case_decide; [|case_decide; [|auto]]].
  - unfold handle_post. destruct callback; cbn [negb]; [|auto]. destruct (validate_post_headers _ _); [auto|].
    destruct (json_from_str _); [|auto]. destruct (validate_session_id _ _ _); [auto|].
    destruct (validate_protocol_version _ _); [auto|].
    destruct (parse_payload _) as [[m|ms]|e];
      [match goal with |- context [accept_messages ?a ?b ?c] => destruct (accept_messages_kept a b c); auto end..|].
    destruct (has_method_error e); [auto|]. cbn. eauto.
  - unfold handle_get. destruct (negb _); [auto|]. destruct (_ && _); [auto|].
    destruct (validate_protocol_version _ _); [auto|]. destruct (stream_open _ _); auto.
  - unfold handle_delete. destruct (str_is_empty _); [auto|]. case_decide; [|auto]. unfold terminate. cbn.
    destruct (tr_get_stream _); [|auto]. destruct (w_streams w !! _) as [s|]; [|auto]. destruct (sr_closed s); auto.
Qed.
End gate.
