(* ===== verification/McpReplies.v ===== *)
(** What a client of MCP over HTTP is answered: the sinks of the requests of
    [McpHttp], over every interleaving of the tasks of a session. *)
From S2P Require Import Prelude F64 RustMap RustStr Json JsonRpc Serde McpTypes McpProtocol McpSchema McpServer McpSession McpHttp.

Definition requests_of (l : list (Message * RequestContext)) : list Request :=
  omap (λ p, match p.1 with MRequest r => Some r | _ => None end) l.
Definition early_error (r : Request) : RpcError :=
  rpc_error (error_code InvalidRequest) ("Received request before initialization: " +:+ req_method r).
Definition answer_response (id : RequestId) (a : answer) : Response :=
  match a with Ok v => success id v | Err e => JsonRpc.error (Some id) e end.

Section replies.
Context `{!JsonReader, !JsonText}.
Variable allowed : Request → answer → Prop.

(** The responses a request may get: the session's own to [initialize], a
    refusal before the handshake, or what the application answers. *)
Inductive answers (r : Request) : Response → Prop :=
| answers_initialize v : req_method r = INITIALIZE → answers r (success (req_id r) v)
| answers_early : req_method r ≠ INITIALIZE → answers r (JsonRpc.error (Some (req_id r)) (early_error r))
| answers_allowed a : req_method r ≠ INITIALIZE → allowed r a → answers r (answer_response (req_id r) a).

(** The sink of a body whose requests [past] were answered and whose requests
    [left] are to come.  A JSON sink collects one response per request, in
    order, and replies with all of them when none is left; a stream carries one
    frame per response and its end. *)
Definition sink_state (past left : list Request) (s : Sink) : Prop :=
  ∃ rs, Forall2 answers past rs ∧
  if sk_json s then
    match left with
    | [] => sk_reply s = Some (json_body (sk_batch s) (response_to_value <$> rs))
    | _ => sk_reply s = None ∧ sk_collected s = response_to_value <$> rs ∧ sk_expected s = Z.of_nat (length left)
    end
  else
    sk_gone s = false →
    match left with
    | [] => sk_frames s = (Some ∘ MResponse <$> rs) ++ [None]
    | _ => sk_frames s = Some ∘ MResponse <$> rs ∧ sk_expected s = Z.of_nat (length left)
    end.

(** One response more. *)
Lemma sink_state_answer past r left s res :
  (Z.of_nat (length left) ≤ i64_max)%Z → sink_state past (r :: left) s → answers r res →
  sink_state (past ++ [r]) left (send_to_sink (sk_json s) (MResponse res) s).2.
Proof.
  intros Hl (rs & Hrs & Hs) Hres. unfold i64_max in Hl.
  assert (Hrs' : Forall2 answers (past ++ [r]) (rs ++ [res])) by (apply Forall2_app; [done|by constructor]).
  unfold sink_state, send_to_sink. destruct s as [[] b ex coll rep fr gone]; cbn [sk_json] in *.
  - destruct Hs as (Hrep & Hcoll & Hex). cbn [sk_reply sk_collected sk_expected] in *. subst rep coll ex.
    cbn [andb is_response]. unfold deliver_json, response_delivered.
    cbn [negb sk_json with_collected sk_expected sk_collected sk_batch sk_reply sk_frames sk_gone].
    destruct left as [|r' left]; cbn [length] in *.
    + cbn. exists (rs ++ [res]). split; [done|]. by rewrite fmap_app.
    + destruct (Z.leb_spec (Z.of_nat (S (S (length left)))) 1); [lia|].
      cbn [fst snd sk_json sk_reply sk_collected sk_expected to_value]. exists (rs ++ [res]). split; [done|].
      rewrite fmap_app, Z.mod_small by lia. split_and!; [done..|]. lia.
  - cbn [andb is_response send_frame sk_json]. destruct gone.
    + cbn [fst snd sk_json sk_gone send_frame]. unfold send_frame. cbn. exists (rs ++ [res]). done.
    + specialize (Hs eq_refl) as [Hfr Hex]. cbn [sk_frames sk_expected sk_gone] in *. subst fr ex.
      unfold send_frame, response_delivered, push_frame, finish.
      cbn [sk_json sk_gone sk_frames sk_expected sk_batch sk_collected sk_reply fst snd].
      destruct left as [|r' left]; cbn [length] in *.
      * cbn. exists (rs ++ [res]). split; [done|]. intros _. by rewrite fmap_app.
      * destruct (Z.leb_spec (Z.of_nat (S (S (length left)))) 1); [lia|].
        cbn [fst snd sk_json sk_gone sk_frames sk_expected]. exists (rs ++ [res]). split; [done|]. intros _.
        rewrite fmap_app, Z.mod_small by lia. split; [done|]. lia.
Qed.

(** ** The invariant *)

Definition task_sink (t : Task) : option nat := head (tk_messages t) ≫= λ p, cx_sink p.2.
Definition context_ok (o : option nat) (ctx : RequestContext) : Prop :=
  cx_sink ctx = o ∧ cx_is_get_stream ctx = false ∧ cx_is_cancelled ctx = false ∧ (0 < cx_connection_id ctx)%Z.

Record task_ok (sinks : list Sink) (t : Task) : Prop := {
  ok_contexts : ∀ m ctx, (m, ctx) ∈ tk_messages t → context_ok (task_sink t) ctx;
  ok_length : (Z.of_nat (length (tk_messages t)) ≤ i64_max)%Z;
  ok_running : tk_running t = true → ∃ r ctx, tk_messages t !! tk_pos t = Some (MRequest r, ctx) ∧ req_method r ≠ INITIALIZE;
  ok_sink : match task_sink t with
    | None => requests_of (tk_messages t) = []
    | Some k => ∃ s, sinks !! k = Some s ∧
        sink_state (requests_of (take (tk_pos t) (tk_messages t))) (requests_of (drop (tk_pos t) (tk_messages t))) s
    end
}.

Definition session_ok (s : ServerSession) : Prop :=
  ss_handler s = true ∧ ∀ id ctx, (id, ctx) ∈ ss_requests s → cx_is_cancelled ctx = false.
Record world_ok (w : World) : Prop := {
  ok_session : session_ok (w_session w);
  ok_counter : (0 < tr_counter (w_transport w))%Z;
  ok_json : ∀ k s, w_sinks w !! k = Some s → sk_json s = tr_json (w_transport w);
  ok_tasks : ∀ i t, w_tasks w !! i = Some t → task_ok (w_sinks w) t;
  ok_distinct : ∀ i j t t' k, w_tasks w !! i = Some t → w_tasks w !! j = Some t' →
    task_sink t = Some k → task_sink t' = Some k → i = j
}.

(** Sinks may change as long as their state does not. *)
Definition sinks_kept (l l' : list Sink) : Prop :=
  ∀ k s, l !! k = Some s → ∃ s', l' !! k = Some s' ∧ sk_json s' = sk_json s ∧
    ∀ past left, sink_state past left s → sink_state past left s'.
Lemma task_ok_kept l l' t : sinks_kept l l' → task_ok l t → task_ok l' t.
Proof.
  intros Hl [Hc Hn Hr Hs]. split; [done..|]. destruct (task_sink t) as [k|]; [|done].
  destruct Hs as (s & Hk & Hs). destruct (Hl k s Hk) as (s' & Hk' & _ & Hst). eauto.
Qed.
Lemma sinks_kept_refl l : sinks_kept l l.
Proof. intros k s Hk. by exists s. Qed.

Lemma requests_of_app l l' : requests_of (l ++ l') = requests_of l ++ requests_of l'.
Proof. apply omap_app. Qed.

(** The message at the position moves from what is left to what is past. *)
Lemma requests_step l pos m ctx :
  l !! pos = Some (m, ctx) →
  requests_of (take (S pos) l) = requests_of (take pos l) ++ requests_of [(m, ctx)] ∧
  requests_of (drop pos l) = requests_of [(m, ctx)] ++ requests_of (drop (S pos) l).
Proof.
  intros Hl. split.
  - by rewrite (take_S_r _ _ _ Hl), requests_of_app.
  - by rewrite (drop_S _ _ _ Hl), <- requests_of_app.
Qed.
Lemma requests_length l : length (requests_of l) ≤ length l.
Proof. unfold requests_of. induction l as [|[[] ctx] l IH]; cbn; lia. Qed.

Lemma task_past l t m ctx running :
  task_ok l t → tk_messages t !! tk_pos t = Some (m, ctx) → requests_of [(m, ctx)] = [] → running = false →
  task_ok l (mkTask (tk_messages t) (S (tk_pos t)) running).
Proof.
  intros [Hc Hn Hr Hs] Hm Hreq ->. split; [done..|]. change (task_sink (mkTask _ _ _)) with (task_sink t).
  cbn [tk_messages tk_pos]. destruct (task_sink t) as [k|]; [|done].
  destruct (requests_step _ _ _ _ Hm) as [Htake Hdrop]. rewrite Hreq, ?app_nil_r in *. cbn [app] in *.
  by rewrite Htake, <- Hdrop.
Qed.

(** A response for the request at the position. *)
Lemma respond_ok w t r ctx res :
  world_ok w → task_ok (w_sinks w) t → tk_messages t !! tk_pos t = Some (MRequest r, ctx) → answers r res →
  let w' := (send_message (MResponse res) (cx_with_method (req_method r) ctx) w).2 in
  task_ok (w_sinks w') (mkTask (tk_messages t) (S (tk_pos t)) false) ∧
  w_session w' = w_session w ∧ w_transport w' = w_transport w ∧ w_tasks w' = w_tasks w ∧
  (∀ k s, w_sinks w' !! k = Some s → sk_json s = tr_json (w_transport w)) ∧
  (∀ k, task_sink t ≠ Some k → w_sinks w' !! k = w_sinks w !! k).
Proof.
  intros Hw [Hc Hn Hr Hs] Hm Hres w'. apply list_elem_of_lookup_2 in Hm as Hin.
  destruct (Hc _ _ Hin) as (Hk & Hg & _ & Hid). subst w'. unfold send_message. cbn [cx_with_method cx_is_get_stream cx_connection_id cx_sink].
  rewrite Hg, Hk. destruct (Z.eqb_spec (cx_connection_id ctx) 0); [lia|]. cbn [orb].
  destruct (requests_step _ _ _ _ Hm) as [Htake Hdrop]. cbn in Htake, Hdrop.
  destruct (task_sink t) as [k|] eqn:Et; cycle 1.
  { exfalso. rewrite <- (take_drop (tk_pos t) (tk_messages t)), requests_of_app, Hdrop in Hs. by destruct (requests_of (take _ _)). }
  destruct Hs as (s & Hks & Hst). rewrite Hks. rewrite <- (ok_json w Hw k s Hks).
  destruct (send_to_sink (sk_json s) (MResponse res) s) as [u s'] eqn:Es. cbn [fst snd w_sinks w_session w_transport w_tasks with_sinks].
  assert (Hs' : s' = (send_to_sink (sk_json s) (MResponse res) s).2) by (by rewrite Es).
  assert (Hjson : sk_json s' = sk_json s).
  { rewrite Hs'. unfold send_to_sink, deliver_json, send_frame, response_delivered, finish, push_frame.
    destruct s as [[] b ex coll rep fr []]; cbn; repeat case_match; by simplify_eq/=. }
  split_and!; [|done..| |].
  - assert (Esk : task_sink (mkTask (tk_messages t) (S (tk_pos t)) false) = Some k) by exact Et.
    split; rewrite ?Esk; [done..|]. exists s'. split; [by rewrite list_lookup_insert_eq by (by eapply lookup_lt_Some)|]. cbn [tk_messages tk_pos].
    rewrite Htake, Hs'. apply sink_state_answer; [|by rewrite <- Hdrop|done].
    pose proof (requests_length (drop (S (tk_pos t)) (tk_messages t))). rewrite length_drop in *. lia.
  - intros k' s2. destruct (decide (k' = k)) as [->|Hne].
    + rewrite list_lookup_insert_eq by (by eapply lookup_lt_Some). by intros [= <-].
    + rewrite list_lookup_insert_ne, (ok_json w Hw k s Hks) by done. apply (ok_json w Hw).
  - intros k' Hne. rewrite list_lookup_insert_ne; [done|congruence].
Qed.

(** ** The steps keep the invariant *)

Lemma task_ok_ext l l' t :
  (∀ k, task_sink t = Some k → l' !! k = l !! k) → task_ok l t → task_ok l' t.
Proof.
  intros Hl [Hc Hn Hr Hs]. split; [done..|]. destruct (task_sink t) as [k|]; [|done]. by rewrite Hl.
Qed.

Lemma world_advance w w' i t t' :
  world_ok w → w_tasks w !! i = Some t → w_tasks w' = <[i := t']> (w_tasks w) → task_sink t' = task_sink t →
  task_ok (w_sinks w') t' → (∀ k, task_sink t ≠ Some k → w_sinks w' !! k = w_sinks w !! k) →
  session_ok (w_session w') → w_transport w' = w_transport w →
  (∀ k s, w_sinks w' !! k = Some s → sk_json s = tr_json (w_transport w)) → world_ok w'.
Proof.
  intros Hw Hi Htasks Hsink Ht' Hother Hses Htr Hjson.
  assert (Hlook : ∀ j tj, w_tasks w' !! j = Some tj → (j = i ∧ tj = t') ∨ (j ≠ i ∧ w_tasks w !! j = Some tj)).
  { intros j tj. rewrite Htasks. destruct (decide (j = i)) as [->|Hne].
    - rewrite list_lookup_insert_eq by (by eapply lookup_lt_Some). intros [= <-]. by left.
    - rewrite list_lookup_insert_ne by done. by right. }
  split; [done|rewrite Htr; apply Hw|by rewrite Htr| |].
  - intros j tj [[-> ->]|[Hne Hj]]%Hlook; [done|]. apply (task_ok_ext (w_sinks w)); [|by eapply ok_tasks].
    intros k Hk. apply Hother. intros Hk'. apply Hne. by eapply (ok_distinct w Hw j i).
  - intros j j' tj tj' k [[-> ->]|[Hne Hj]]%Hlook [[-> ->]|[Hne' Hj']]%Hlook Hk Hk'; [done|..];
      rewrite ?Hsink in *; by eapply (ok_distinct w Hw).
Qed.

Lemma world_kept w w' :
  world_ok w → w_tasks w' = w_tasks w → sinks_kept (w_sinks w) (w_sinks w') → session_ok (w_session w') →
  tr_json (w_transport w') = tr_json (w_transport w) → (0 < tr_counter (w_transport w'))%Z →
  (∀ k s, w_sinks w' !! k = Some s → sk_json s = tr_json (w_transport w)) → world_ok w'.
Proof.
  intros Hw Htasks Hs Hses Hj Hc Hjson. split; [done|done|by rewrite Hj|..]; rewrite Htasks.
  - intros i t Hi. eapply task_ok_kept; [done|]. by eapply ok_tasks.
  - apply (ok_distinct w Hw).
Qed.

(** Steps that leave tasks and sinks alone. *)
Lemma world_same w w' :
  world_ok w → w_tasks w' = w_tasks w → w_sinks w' = w_sinks w → session_ok (w_session w') →
  tr_json (w_transport w') = tr_json (w_transport w) → (0 < tr_counter (w_transport w'))%Z → world_ok w'.
Proof.
  intros Hw Ht Hs Hses Hj Hc. apply (world_kept w); [done|done| |done..|].
  - rewrite Hs. apply sinks_kept_refl.
  - rewrite Hs. apply (ok_json w Hw).
Qed.

Lemma session_ok_requests s r :
  session_ok s → (∀ id ctx, (id, ctx) ∈ r → cx_is_cancelled ctx = false) → session_ok (with_requests r s).
Proof. by intros [Hh Hr] Hr'. Qed.
Lemma session_ok_remove id s : session_ok s → session_ok (with_requests (aremove id (ss_requests s)) s).
Proof.
  intros Hs. apply session_ok_requests; [done|]. intros id' ctx Hin. unfold aremove in Hin.
  apply list_elem_of_filter in Hin as [_ Hin]. by eapply Hs.
Qed.

(** The handler returns. *)
Lemma finish_ok w i t r ctx a :
  world_ok w → w_tasks w !! i = Some t → tk_running t = true →
  tk_messages t !! tk_pos t = Some (MRequest r, ctx) → allowed r a → world_ok (finish_request i t r ctx a w).
Proof.
  intros Hw Hi Hrun Hm Ha. pose proof (ok_tasks w Hw i t Hi) as Ht.
  destruct (ok_running _ _ Ht Hrun) as (r' & ctx' & Hm' & Hmeth). rewrite Hm in Hm'. injection Hm' as <- <-.
  set (w1 := with_session (with_requests (aremove (req_id r) (ss_requests (w_session w))) (w_session w)) w).
  assert (Hw1 : world_ok w1) by (apply (world_same w); [done..|apply session_ok_remove, Hw|done|apply Hw]).
  assert (Hsend : send_answer (req_id r) a (cx_with_method (req_method r) ctx) w =
    (send_message (MResponse (answer_response (req_id r) a)) (cx_with_method (req_method r) ctx) w1).2).
  { unfold send_answer. destruct a; [|done]. unfold send_response. destruct (ok_session w Hw) as [_ Hcan].
    destruct (ok_contexts _ _ Ht _ _ (list_elem_of_lookup_2 _ _ _ Hm)) as (_ & _ & Hn & _).
    cbn [cx_with_method cx_is_cancelled]. rewrite Hn. destruct (aget (req_id r) _) as [c|] eqn:Eg; [|done].
    cbn [from_option]. by rewrite (Hcan _ _ (aget_Some_elem _ _ _ Eg)). }
  unfold finish_request. rewrite Hsend.
  destruct (respond_ok w1 t r ctx (answer_response (req_id r) a) Hw1 Ht Hm ltac:(by constructor))
    as (Hok & Hses & Htr & Htasks & Hjson & Hother).
  eapply (world_advance w); [done|done|by cbn [set_task with_tasks w_tasks on_session with_session]; rewrite Htasks|done|exact Hok|exact Hother| |exact Htr|exact Hjson].
  cbn [w_session set_task with_tasks]. rewrite Hses. apply Hw1.
Qed.

(** A message that is not a request. *)
Lemma other_message_ok now w i t m ctx :
  world_ok w → w_tasks w !! i = Some t → tk_running t = false →
  tk_messages t !! tk_pos t = Some (m, ctx) → is_cancel m = false → requests_of [(m, ctx)] = [] →
  world_ok (run_message now i t m ctx w).
Proof.
  intros Hw Hi Hrun Hm Hcan Hreq. unfold run_message.
  assert (Hst : ∃ f, on_message_received now m ctx w = (false, on_session f w) ∧ session_ok (f (w_session w))).
  { destruct m as [r|n|r]; [done|..]; cbn [on_message_received].
    - unfold received_notification. cbn in Hcan. apply bool_decide_eq_false in Hcan.
      case_decide; [exists mark_initialized|rewrite decide_False by done; exists (λ s, s)].
      + split; [done|]. apply Hw.
      + split; [by destruct w|]. apply Hw.
    - unfold handle_response. destruct (res_id r) as [id|]; [eexists; split; [reflexivity|apply Hw]|].
      exists (λ s, s). split; [by destruct w|]. apply Hw. }
  destruct Hst as (f & -> & Hf). apply (world_advance w _ i t (mkTask (tk_messages t) (S (tk_pos t)) false));
    [done..| |done|done|done|apply (ok_json w Hw)].
  apply (task_past _ t m ctx); [by apply (ok_tasks w Hw i)|done..].
Qed.

(** A request: answered by the session, or handed to the application. *)
Lemma request_message_ok now w i t r ctx :
  world_ok w → w_tasks w !! i = Some t → tk_running t = false →
  tk_messages t !! tk_pos t = Some (MRequest r, ctx) → world_ok (run_message now i t (MRequest r) ctx w).
Proof.
  intros Hw Hi Hrun Hm. pose proof (ok_tasks w Hw i t Hi) as Ht. destruct (ok_session w Hw) as [Hh Hcan].
  destruct (ok_contexts _ _ Ht _ _ (list_elem_of_lookup_2 _ _ _ Hm)) as (Hk & Hg & Hn & Hid).
  unfold run_message. cbn [on_message_received]. unfold received_request. case_decide as Hinit.
  - (* initialize *)
    unfold handle_initialize. set (p := initialize_params (req_params r)).
    set (w1 := with_session (with_requests (aremove (req_id r) (ss_requests (w_session w)))
                 (with_client (ip_capabilities p) (w_session w))) w).
    assert (Hw1 : world_ok w1) by (apply (world_same w); [done..| |done|apply Hw]; by apply (session_ok_remove (req_id r) (w_session w))).
    match goal with |- context [send_response _ ?v _ _] => set (v0 := v) end.
    assert (Hsend : (send_response (req_id r) v0 (cx_with_method (req_method r) ctx) (on_session (with_client (ip_capabilities p)) w)).2 =
      (send_message (MResponse (success (req_id r) v0)) (cx_with_method (req_method r) ctx) w1).2).
    { unfold send_response. cbn [cx_with_method cx_is_cancelled]. rewrite Hn.
      destruct (aget (req_id r) _) as [c|] eqn:Eg; [|done].
      cbn [from_option]. by rewrite (Hcan _ _ (aget_Some_elem _ _ _ Eg)). }
    rewrite Hsend.
    destruct (respond_ok w1 t r ctx (success (req_id r) v0) Hw1 Ht Hm ltac:(by constructor))
      as (Hok & Hses & Htr & Htasks & Hjson & Hother).
    eapply (world_advance w); [done|done|by cbn [set_task with_tasks w_tasks on_session with_session]; rewrite Htasks|done|exact Hok|exact Hother| |exact Htr|exact Hjson].
    cbn [w_session set_task with_tasks on_session with_session]. rewrite Hses. apply (ok_session w1 Hw1).
  - destruct (_ && _) eqn:Hearly; [|rewrite Hh].
    + (* before the handshake *)
      set (w1 := with_session (with_requests (aremove (req_id r) (ss_requests (w_session w))) (w_session w)) w).
      assert (Hw1 : world_ok w1) by (apply (world_same w); [done..|apply session_ok_remove, Hw|done|apply Hw]).
      fold (early_error r).
      assert (Hsend : (send_error_response (req_id r) (early_error r) (cx_with_method (req_method r) ctx) w).2 =
        (send_message (MResponse (JsonRpc.error (Some (req_id r)) (early_error r))) (cx_with_method (req_method r) ctx) w1).2)
        by done.
      rewrite Hsend.
      destruct (respond_ok w1 t r ctx (JsonRpc.error (Some (req_id r)) (early_error r)) Hw1 Ht Hm ltac:(by constructor))
        as (Hok & Hses & Htr & Htasks & Hjson & Hother).
      eapply (world_advance w); [done|done|by cbn [set_task with_tasks w_tasks on_session with_session]; rewrite Htasks|done|exact Hok|exact Hother| |exact Htr|exact Hjson].
      cbn [w_session set_task with_tasks]. rewrite Hses. apply (ok_session w1 Hw1).
    + (* to the application *)
      eapply (world_advance w); [done|done|done|done| |done| |done|apply (ok_json w Hw)].
      * destruct Ht as [Hc Hl Hr Hs]. split; [done|done| |done]. intros _. by exists r, ctx.
      * apply session_ok_requests; [done|]. intros id c [[-> ->]|Hin]%elem_of_im_insert; [done|]. by eapply Hcan.
Qed.

(** ** An HTTP request *)

Lemma i64_succ n : (0 < n < i64_max)%Z → i64_add n 1 = (n + 1)%Z ∧ (0 < i64_add n 1)%Z.
Proof. intros Hn. rewrite i64_add_id by (unfold in_i64, i64_min, i64_max in *; lia). lia. Qed.

(** A task added behind the others, with a sink of its own or none. *)
Lemma world_deliver w w' t extra :
  world_ok w → w_tasks w' = w_tasks w ++ [t] → w_sinks w' = w_sinks w ++ extra → w_session w' = w_session w →
  tr_json (w_transport w') = tr_json (w_transport w) → (0 < tr_counter (w_transport w'))%Z →
  Forall (λ s, sk_json s = tr_json (w_transport w)) extra →
  (∀ k, task_sink t = Some k → k = length (w_sinks w)) → task_ok (w_sinks w') t → world_ok w'.
Proof.
  intros Hw Ht Hs Hses Hj Hc Hextra Hk Hok.
  assert (Hlook : ∀ j tj, w_tasks w' !! j = Some tj → (w_tasks w !! j = Some tj) ∨ (j = length (w_tasks w) ∧ tj = t)).
  { intros j tj. rewrite Ht, lookup_app. destruct (w_tasks w !! j) eqn:E; [by left|].
    apply lookup_ge_None in E. intros Hj'. right. destruct (j - length (w_tasks w)) as [|n] eqn:En; [|by destruct n].
    cbn in Hj'. simplify_eq. split; [lia|done]. }
  assert (Hold : ∀ j tj k, w_tasks w !! j = Some tj → task_sink tj = Some k → k < length (w_sinks w)).
  { intros j tj k Hj' Hk'. pose proof (ok_sink _ _ (ok_tasks w Hw _ _ Hj')) as Hsk. rewrite Hk' in Hsk.
    destruct Hsk as (s & Hsk & _). by eapply lookup_lt_Some. }
  split; [by rewrite Hses; apply Hw|done| | |].
  - intros k s. rewrite Hs, Hj, lookup_app. destruct (w_sinks w !! k) as [s0|] eqn:E.
    + intros [= <-]. by eapply (ok_json w Hw).
    + intros Hks. rewrite Forall_lookup in Hextra. by eapply Hextra.
  - intros j tj [Hj'|[-> ->]]%Hlook; [|done]. apply (task_ok_ext (w_sinks w)); [|by eapply (ok_tasks w Hw)].
    intros k Hk'. rewrite Hs, lookup_app_l; [done|by eapply Hold].
  - intros i j ti tj k [Hi|[-> ->]]%Hlook [Hj'|[-> ->]]%Hlook Hki Hkj; [by eapply (ok_distinct w Hw)|..|done].
    + pose proof (Hold _ _ _ Hi Hki). apply Hk in Hkj. lia.
    + pose proof (Hold _ _ _ Hj' Hkj). apply Hk in Hki. lia.
Qed.

Lemma filter_requests ms (f : Message → RequestContext) :
  length (List.filter is_request ms) = length (requests_of ((λ m, (m, f m)) <$> ms)).
Proof. induction ms as [|[] ms IH]; cbn in *; [done|by rewrite IH|done|done]. Qed.

Lemma task_sink_fmap ms (f : Message → RequestContext) o pos running :
  (∀ m, cx_sink (f m) = o) → ms ≠ [] → task_sink (mkTask ((λ m, (m, f m)) <$> ms) pos running) = o.
Proof. intros Hf. destruct ms as [|m ms]; [done|]. intros _. apply Hf. Qed.

(** A task of messages without a sink and without requests. *)
Lemma plain_task_ok l ms ctx :
  context_ok None ctx → (Z.of_nat (length ms) ≤ i64_max)%Z → length (List.filter is_request ms) = 0 →
  task_sink (mkTask ((λ m, (m, ctx)) <$> ms) 0 false) = None ∧ task_ok l (mkTask ((λ m, (m, ctx)) <$> ms) 0 false).
Proof.
  intros Hctx Hl Hreq. assert (Hsink : task_sink (mkTask ((λ m, (m, ctx)) <$> ms) 0 false) = None).
  { destruct ms as [|m ms]; [done|]. by apply (task_sink_fmap (m :: ms) (λ _, ctx)); [intros; apply Hctx|]. }
  split; [done|]. split; rewrite ?Hsink; cbn [tk_messages tk_running]; [|by rewrite length_fmap|done|].
  - intros m c (m' & [= -> ->] & _)%list_elem_of_fmap. done.
  - rewrite (filter_requests ms (λ _, ctx)) in Hreq. by apply nil_length_inv in Hreq.
Qed.

Lemma accept_messages_ok messages is_batch w :
  world_ok w → (tr_counter (w_transport w) < i64_max)%Z → (Z.of_nat (length messages) ≤ i64_max)%Z →
  world_ok (accept_messages messages is_batch w).2.
Proof.
  intros Hw Hc Hl. destruct (i64_succ (tr_counter (w_transport w))) as [_ Hpos]; [split; [apply Hw|done]|].
  unfold accept_messages. destruct (Nat.eqb_spec (length (List.filter is_request messages)) 0) as [Hzero|Hn].
  - unfold new_context, deliver. cbn [snd].
    destruct (plain_task_ok (w_sinks w) messages (mkContext (tr_counter (w_transport w)) (tr_session_id (w_transport w)) "" false false None))
      as [Hsink Hok]; [split_and!; [done..|apply Hw]|done|done|].
    eapply (world_deliver w _ _ []); [done|reflexivity|by rewrite app_nil_r|done..|constructor| |exact Hok].
    intros k. by rewrite Hsink.
  - unfold new_context, deliver. cbn [snd].
    set (k := length (w_sinks w)). set (n := length (List.filter is_request messages)) in *.
    set (s := if tr_json (w_transport w) then sink_json n is_batch else sink_sse n).
    set (ctx := mkContext (tr_counter _) (tr_session_id _) "" false false (Some k)).
    set (f := λ m, cx_with_method (default "" (method m)) ctx).
    change (message_context ctx <$> messages) with ((λ m, (m, f m)) <$> messages).
    assert (Hne : messages ≠ []) by (by intros ->).
    assert (Hsink : task_sink (mkTask ((λ m, (m, f m)) <$> messages) 0 false) = Some k) by (by apply task_sink_fmap).
    eapply (world_deliver w _ _ [s]); [done|reflexivity|done..| | |].
    + constructor; [|constructor]. subst s. by destruct (tr_json (w_transport w)).
    + rewrite Hsink. by intros k' [= <-].
    + split; rewrite ?Hsink; cbn [tk_messages tk_running tk_pos]; [|by rewrite length_fmap|done|].
      * intros m c (m' & [= -> ->] & _)%list_elem_of_fmap. split_and!; [done..|]. apply Hw.
      * exists s. split; [cbn [w_sinks with_tasks with_transport with_sinks]; by rewrite lookup_app_r, Nat.sub_diag by done|]. exists []. split; [constructor|].
        rewrite drop_0. assert (Hreq : length (requests_of ((λ m, (m, f m)) <$> messages)) = n) by (by rewrite <- filter_requests).
        destruct (requests_of _) as [|r0 left]; [done|]. rewrite Hreq. subst s.
        destruct (tr_json (w_transport w)); cbn; [done|]. by intros _.
Qed.

Lemma transport_handle_ok callback r w :
  world_ok w → (tr_counter (w_transport w) < i64_max)%Z → body_fits r → world_ok (transport_handle callback r w).2.
Proof.
  intros Hw Hc Hb. unfold transport_handle. destruct (_ && _); [done|]. destruct (tr_terminated _); [done|].
  case_decide; [|case_decide; [|case_decide; [|done]]].
  - unfold handle_post. destruct callback; cbn [negb]; [|done]. destruct (validate_post_headers _ _); [done|].
    destruct (json_from_str _); [|done]. destruct (validate_session_id _ _ _); [done|].
    destruct (validate_protocol_version _ _); [done|]. destruct (parse_payload _) as [[m|ms]|e] eqn:Ep.
    + apply accept_messages_ok; [done..|]. cbn. unfold i64_max. lia.
    + apply accept_messages_ok; [done..|]. by apply Hb.
    + destruct (has_method_error e); [done|]. unfold new_context, deliver. cbn [snd].
      destruct (i64_succ (tr_counter (w_transport w))) as [_ Hpos]; [split; [apply Hw|done]|].
      destruct (plain_task_ok (w_sinks w) [MResponse (to_error_response e)]
        (mkContext (tr_counter (w_transport w)) (tr_session_id (w_transport w)) "" false false None)) as [Hsink Hok];
        [split_and!; [done..|apply Hw]|cbn; unfold i64_max; lia|done|].
      eapply (world_deliver w _ _ []); [done|reflexivity|by rewrite app_nil_r|done..|constructor| |exact Hok].
      intros k. cbn in Hsink |- *. congruence.
  - unfold handle_get. destruct (negb _); [done|]. destruct (_ && _); [done|].
    destruct (validate_protocol_version _ _); [done|]. destruct (stream_open _ _); [done|].
    apply (world_same w); [done..|apply Hw|done|apply Hw].
  - unfold handle_delete. destruct (str_is_empty _); [done|]. case_decide; [|done].
    unfold terminate.
    destruct (tr_get_stream _) as [g|]; [destruct (w_streams w !! g) as [s|]; [destruct (sr_closed s)|]|];
      (apply (world_same w); [done..|apply Hw|done|apply Hw]).
Qed.

Lemma world_step_ok w w' : world_ok w → world_step allowed true w w' → world_ok w'.
Proof.
  intros Hw Hst.
  inversion Hst as [callback r Hc Hb|now i t m ctx Hi Hrun Hm Hq|i t r ctx a Hi Hrun Hm Ha|meth ps|now meth ps Hreq
    |now id a|k s Hk|g s Hg|c]; subst.
  - by apply transport_handle_ok.
  - destruct m as [r|n|r].
    + by apply request_message_ok.
    + apply other_message_ok; [done..|by apply Hq|done].
    + by apply other_message_ok.
  - by apply finish_ok.
  - apply (world_same w); [done|apply send_message_tasks| | |..];
      unfold send_notification, send_message; cbn [cx_is_get_stream orb]; unfold send_to_stream;
      (destruct (tr_get_stream _) as [g|]; [destruct (w_streams w !! g) as [s|]; [destruct (sr_closed s)|]|]);
      try done; apply Hw.
  - unfold start_request. destruct (register _ _) as [[id ch] p]. unfold send_message. cbn [server_initiated cx_is_get_stream cx_connection_id orb].
    unfold send_to_stream. cbn [w_transport w_streams with_session].
    destruct (tr_get_stream _) as [g|]; [destruct (w_streams w !! g) as [s|]; [destruct (sr_closed s)|]|];
      (apply (world_same w); [done..|apply Hw|done|apply Hw]).
  - apply (world_same w); [done..|apply Hw|done|apply Hw].
  - apply (world_kept w); [done|done| |apply Hw|done|apply Hw|].
    + intros k' s' Hk'. cbn [w_sinks with_sinks]. destruct (decide (k' = k)) as [->|Hne].
      * rewrite Hk in Hk'. injection Hk' as <-. eexists. rewrite list_lookup_insert_eq by (by eapply lookup_lt_Some).
        split_and!; [done..|]. intros past left (rs & Hrs & Hs). exists rs. split; [done|]. cbn. by destruct (sk_json s).
      * exists s'. by rewrite list_lookup_insert_ne by done.
    + intros k' s'. cbn [w_sinks with_sinks]. destruct (decide (k' = k)) as [->|Hne].
      * rewrite list_lookup_insert_eq by (by eapply lookup_lt_Some). intros [= <-]. by apply (ok_json w Hw k s).
      * rewrite list_lookup_insert_ne by done. apply (ok_json w Hw).
  - apply (world_same w); [done..|apply Hw|done|apply Hw].
  - apply (world_same w); [done..|apply Hw|done|apply Hw].
Qed.

(** The worlds a manager starts. *)
Lemma new_session_ok cfg id stateless w : new_http_session cfg id stateless = Ok w → world_ok w.
Proof.
  unfold new_http_session. rewrite bind_Ok. intros (t & Ht & [= <-]). unfold transport_new in Ht.
  destruct (_ && _) in Ht; [done|]. injection Ht as <-. split; cbn.
  - split; [done|]. intros i c []%elem_of_nil.
  - done.
  - intros k s [=].
  - intros i t [=].
  - intros i j t t' k [=].
Qed.
End replies.

(** C5: As long as nothing is cancelled, the reply to a body of messages is made
    of exactly one response per request of the body, in its order and under its
    ids: each the session's own answer to [initialize], the refusal before the
    handshake or an answer the application gave.  A JSON reply is sent when the
    last request is answered and not before; a stream carries each response as
    it comes and ends behind the last. *)
Theorem replies_complete `{!JsonReader, !JsonText} allowed cfg id stateless w0 w i t k :
  new_http_session cfg id stateless = Ok w0 → world_reachable allowed true w0 w →
  w_tasks w !! i = Some t → task_sink t = Some k →
  ∃ s, w_sinks w !! k = Some s ∧
    sink_state allowed (requests_of (take (tk_pos t) (tk_messages t))) (requests_of (drop (tk_pos t) (tk_messages t))) s.
Proof.
  intros Hnew Hr Hi Hk. assert (Hw : world_ok allowed w).
  { clear Hi Hk. induction Hr as [|w1 w2 Hr IH Hst]; [by eapply new_session_ok|]. by eapply world_step_ok. }
  pose proof (ok_sink _ _ _ (ok_tasks _ w Hw i t Hi)) as Hs. by rewrite Hk in Hs.
Qed.

(** * The application is only asked after the handshake *)

Section gate.
Context `{!JsonReader, !JsonText}.
Variable allowed : Request → answer → Prop.

Definition gate_ok (w : World) : Prop :=
  ∀ i t, w_tasks w !! i = Some t → tk_running t = true →
    ∃ r ctx, tk_messages t !! tk_pos t = Some (MRequest r, ctx) ∧ req_method r ≠ INITIALIZE ∧
      (ss_stateless (w_session w) = true ∨ ss_initialized (w_session w) = true).

Lemma gate_kept w w' :
  gate_ok w → session_kept (w_session w) (w_session w') →
  (∀ i t, w_tasks w' !! i = Some t → tk_running t = true →
     w_tasks w !! i = Some t ∨
     ∃ r ctx, tk_messages t !! tk_pos t = Some (MRequest r, ctx) ∧ req_method r ≠ INITIALIZE ∧
       (ss_stateless (w_session w) = true ∨ ss_initialized (w_session w) = true)) → gate_ok w'.
Proof.
  intros Hw (Hst & _ & Hin & _) Hnew i t Hi Hrun. rewrite Hst.
  destruct (Hnew i t Hi Hrun) as [Hold|(r & ctx & Hm & Hme & Hg)];
    [destruct (Hw i t Hold Hrun) as (r & ctx & Hm & Hme & Hg)|]; exists r, ctx; (split_and!; [done..|]);
    (destruct Hg; [by left|right; auto]).
Qed.
Lemma gate_set w w1 i t running :
  w_tasks w1 = w_tasks w →
  (running = true → ∃ r ctx, tk_messages t !! tk_pos t = Some (MRequest r, ctx) ∧ req_method r ≠ INITIALIZE ∧
     (ss_stateless (w_session w) = true ∨ ss_initialized (w_session w) = true)) →
  gate_ok w → session_kept (w_session w) (w_session w1) →
  gate_ok (set_task i (mkTask (tk_messages t) (if running then tk_pos t else S (tk_pos t)) running) w1).
Proof.
  intros Ht Hrun Hw Hk. eapply gate_kept; [exact Hw|exact Hk|]. cbn [w_tasks set_task with_tasks]. rewrite Ht.
  intros j tj Hj Hrj. destruct (decide (j = i)) as [->|Hne].
  - apply list_lookup_insert_Some in Hj as [(_ & <- & _)|(? & _)]; [|done]. cbn in Hrj |- *. subst running.
    right. by apply Hrun.
  - rewrite list_lookup_insert_ne in Hj by done. by left.
Qed.

Lemma gate_step quiet w w' : gate_ok w → world_step allowed quiet w w' → gate_ok w'.
Proof.
  intros Hw Hst.
  inversion Hst as [callback r Hc Hb|now i t m ctx Hi Hrun Hm Hq|i t r ctx a Hi Hrun Hm Ha|meth ps|now meth ps Hreq
    |now id a|k s Hk|g s Hg|c]; subst.
  - destruct (transport_handle_kept callback r w) as [Hs Ht]. apply (gate_kept w); [done|by rewrite Hs|].
    intros i t Hi Hrun. destruct Ht as [Ht|[l Ht]]; rewrite Ht in Hi; [by left|].
    apply lookup_app_Some in Hi as [Hi|[_ Hi]]; [by left|]. apply list_lookup_singleton_Some in Hi as [_ <-]. done.
  - unfold run_message. destruct (on_message_received now m ctx w) as [started w1] eqn:E.
    apply received_kept in E as (Hk & Ht & Hstart). apply gate_set with (w := w); [done| |done|done].
    intros ->. destruct (Hstart eq_refl) as (r & -> & Hme & Hg). by exists r, ctx.
  - unfold finish_request. match goal with |- context [send_answer ?i ?a ?c ?w] => destruct (send_answer_session i a c w) as [Hs Ht] end.
    apply (gate_set w _ i t false); [done|done|done|by rewrite Hs].
  - apply (gate_kept w); [done|unfold send_notification; by rewrite send_message_session|].
    intros i t. unfold send_notification. rewrite send_message_tasks. by left.
  - destruct (start_request_kept now meth ps w) as (Hs & Ht & _). apply (gate_kept w); [done..|].
    intros i t. rewrite Ht. by left.
  - apply (gate_kept w); [done..|]. intros; by left.
  - apply (gate_kept w); [done..|]. intros; by left.
  - apply (gate_kept w); [done..|]. intros; by left.
  - apply (gate_kept w); [done..|]. intros; by left.
Qed.
End gate.


(** * Every request can be answered *)

Section progress.
Context `{!JsonReader, !JsonText}.
Variable allowed : Request → answer → Prop.
Hypothesis app_answers : ∀ r : Request, ∃ a : answer, allowed r a.

(** A run of the steps of one task. *)
Inductive task_run (i : nat) : nat → World → World → Prop :=
| run_nil w : task_run i 0 w w
| run_cons n w w1 w2 t :
    w_tasks w !! i = Some t →
    ((∃ now m ctx, tk_running t = false ∧ tk_messages t !! tk_pos t = Some (m, ctx) ∧ w1 = run_message now i t m ctx w) ∨
     (∃ r ctx a, tk_running t = true ∧ tk_messages t !! tk_pos t = Some (MRequest r, ctx) ∧ allowed r a ∧
        w1 = finish_request i t r ctx a w)) →
    task_run i n w1 w2 → task_run i (S n) w w2.

(** Each step starts the request at the position or passes it. *)
Lemma run_message_task now i t m ctx w :
  w_tasks w !! i = Some t →
  ∃ started : bool, w_tasks (run_message now i t m ctx w) !! i =
    Some (mkTask (tk_messages t) (if started then tk_pos t else S (tk_pos t)) started) ∧
    (started = true → ∃ r, m = MRequest r).
Proof.
  intros Hi. unfold run_message. destruct (on_message_received now m ctx w) as [started w1] eqn:E.
  apply received_kept in E as (_ & Ht & Hs). exists started. cbn [w_tasks set_task with_tasks]. split.
  - rewrite Ht. apply list_lookup_insert_eq. by eapply lookup_lt_Some.
  - intros ->. destruct (Hs eq_refl) as (r & -> & _). eauto.
Qed.
Lemma finish_request_task i t r ctx a w :
  w_tasks w !! i = Some t →
  w_tasks (finish_request i t r ctx a w) !! i = Some (mkTask (tk_messages t) (S (tk_pos t)) false).
Proof.
  intros Hi. unfold finish_request. cbn [w_tasks set_task with_tasks].
  match goal with |- context [send_answer ?i ?a ?c ?w] => destruct (send_answer_session i a c w) as [_ ->] end.
  apply list_lookup_insert_eq. by eapply lookup_lt_Some.
Qed.

Definition steps_left (t : Task) : nat :=
  2 * (length (tk_messages t) - tk_pos t) - (if tk_running t then 1 else 0).

Lemma task_finishes i w t :
  w_tasks w !! i = Some t → tk_pos t ≤ length (tk_messages t) →
  (tk_running t = true → ∃ r ctx, tk_messages t !! tk_pos t = Some (MRequest r, ctx)) →
  ∃ n w', n ≤ steps_left t ∧ task_run i n w w' ∧
    w_tasks w' !! i = Some (mkTask (tk_messages t) (length (tk_messages t)) false).
Proof.
  assert (Hgen : ∀ n w t, steps_left t ≤ n → w_tasks w !! i = Some t → tk_pos t ≤ length (tk_messages t) →
    (tk_running t = true → ∃ r ctx, tk_messages t !! tk_pos t = Some (MRequest r, ctx)) →
    ∃ k w', k ≤ steps_left t ∧ task_run i k w w' ∧
      w_tasks w' !! i = Some (mkTask (tk_messages t) (length (tk_messages t)) false)); [|eauto].
  clear w t. intros n. induction n as [n IH] using lt_wf_ind. intros w [l p run] Hn Hi Hp Hrun.
  cbn [tk_messages tk_pos tk_running] in *. unfold steps_left in Hn. cbn in Hn. destruct run.
  - destruct (Hrun eq_refl) as (r & ctx & Hm). destruct (app_answers r) as [a Ha]. apply lookup_lt_Some in Hm as Hlt.
    pose proof (finish_request_task i (mkTask l p true) r ctx a w Hi) as Hi'. cbn [tk_messages tk_pos] in Hi'.
    edestruct (IH (n - 1)) as (k & w' & Hk & Hrun' & Hfin); [lia| |exact Hi'|cbn; lia|done|];
      [unfold steps_left; cbn; lia|]. exists (S k), w'. unfold steps_left in *. cbn in *. split; [lia|]. split; [|done].
    econstructor; [exact Hi| |exact Hrun']. right. by exists r, ctx, a.
  - destruct (decide (p = length l)) as [->|Hne]; [exists 0, w; split; [lia|]; split; [constructor|done]|].
    destruct (lookup_lt_is_Some_2 l p) as [[m ctx] Hm]; [lia|].
    destruct (run_message_task 0 i (mkTask l p false) m ctx w Hi) as (started & Hi' & Hst). cbn [tk_messages tk_pos] in Hi'.
    edestruct (IH (n - 1)) as (k & w' & Hk & Hrun' & Hfin); [lia| |exact Hi'|cbn; destruct started; lia| |];
      [unfold steps_left; cbn; destruct started; lia| |].
    { cbn. intros ->. destruct (Hst eq_refl) as [r ->]. eauto. }
    exists (S k), w'. unfold steps_left in *. cbn in *. split; [destruct started; lia|]. split; [|done].
    econstructor; [exact Hi| |exact Hrun']. left. by exists 0%Z, m, ctx.
Qed.

(** The messages a task holds, its sinks' flags and what it may do do not depend
    on its own steps. *)
Definition sinks_shape (l l' : list Sink) : Prop :=
  ∀ k s, l !! k = Some s → ∃ s', l' !! k = Some s' ∧ sk_batch s' = sk_batch s ∧ sk_json s' = sk_json s ∧ sk_gone s' = sk_gone s.
#[export] Instance sinks_shape_preorder : PreOrder sinks_shape.
Proof.
  split; [intros l k s Hk; by exists s|]. intros l1 l2 l3 H12 H23 k s Hk.
  destruct (H12 k s Hk) as (s2 & Hk2 & <- & <- & <-). by apply H23.
Qed.
Lemma send_to_sink_shape json m s :
  let s' := (send_to_sink json m s).2 in sk_batch s' = sk_batch s ∧ sk_json s' = sk_json s ∧ sk_gone s' = sk_gone s.
Proof.
  destruct s as [js b ex coll rep fr gone]. unfold send_to_sink, deliver_json, send_frame, response_delivered, finish.
  cbn. repeat (case_match; simplify_eq/=; try done).
Qed.
Lemma send_message_shape m ctx w : sinks_shape (w_sinks w) (w_sinks (send_message m ctx w).2).
Proof.
  unfold send_message, send_to_stream. destruct (_ || _).
  - destruct (tr_get_stream _); [|done]. destruct (w_streams w !! _) as [s|]; [|done]. by destruct (sr_closed s).
  - destruct (cx_sink ctx) as [k|]; [|done]. destruct (w_sinks w !! k) as [s|] eqn:Hk; [|done].
    pose proof (send_to_sink_shape (tr_json (w_transport w)) m s) as Hs.
    destruct (send_to_sink _ _ _) as [o s']. cbn [snd w_sinks with_sinks] in *. intros k' s0 Hk'.
    destruct (decide (k' = k)) as [->|Hne].
    + rewrite Hk in Hk'. injection Hk' as <-. rewrite list_lookup_insert_eq by (by eapply lookup_lt_Some). eauto.
    + rewrite list_lookup_insert_ne by done. eauto.
Qed.
Lemma send_answer_shape id a ctx w : sinks_shape (w_sinks w) (w_sinks (send_answer id a ctx w)).
Proof.
  unfold send_answer, send_response, send_error_response.
  destruct a as [v|e]; [destruct (_ || _); [done|]|]; apply (send_message_shape _ _ (with_session _ w)).
Qed.
Lemma received_shape now m ctx w : sinks_shape (w_sinks w) (w_sinks (on_message_received now m ctx w).2).
Proof.
  destruct m as [r|n|r]; cbn [on_message_received].
  - unfold received_request. case_decide.
    + unfold handle_initialize. cbn [snd].
      apply (send_answer_shape (req_id r) (Ok _) _ (on_session (with_client (ip_capabilities (initialize_params (req_params r)))) w)).
    + destruct (_ && _); [apply (send_answer_shape (req_id r) (Err _) _ w)|]. by destruct (ss_handler _).
  - unfold received_notification. cbn [snd]. case_decide; [done|]. case_decide; [|done].
    unfold handle_cancelled. destruct (dec _ _) as [p|]; [|done]. destruct (aget _ _) as [c|]; [|done].
    apply (send_message_shape _ _ (on_session _ w)).
  - unfold handle_response. by destruct (res_id r).
Qed.

Definition cancel_free (l : list (Message * RequestContext)) : Prop := ∀ m ctx, (m, ctx) ∈ l → is_cancel m = false.
Lemma task_run_ok i n w w' t w0 :
  task_run i n w w' → w_tasks w !! i = Some t → cancel_free (tk_messages t) →
  world_reachable allowed true w0 w → world_reachable allowed true w0 w' ∧ sinks_shape (w_sinks w) (w_sinks w').
Proof.
  intros Hrun. revert t. induction Hrun as [w|n w w1 w2 t Hi Hstep Hrun IH]; [done|]. intros t' Hi' Hfree Hr.
  rewrite Hi in Hi'. injection Hi' as <-.
  destruct Hstep as [(now & m & ctx & Hst & Hm & ->)|(r & ctx & a & Hst & Hm & Ha & ->)].
  - destruct (run_message_task now i t m ctx w Hi) as (started & Hi1 & _). destruct (IH _ Hi1) as [Hr2 Hs2]; [done|..].
    + eapply world_next; [exact Hr|]. eapply step_message; [done..|]. intros _. by eapply Hfree, list_elem_of_lookup_2.
    + split; [done|]. etrans; [|exact Hs2]. unfold run_message.
      pose proof (received_shape now m ctx w) as Hs. by destruct (on_message_received now m ctx w).
  - pose proof (finish_request_task i t r ctx a w Hi) as Hi1. destruct (IH _ Hi1) as [Hr2 Hs2]; [done|..].
    + eapply world_next; [exact Hr|]. by eapply step_answer.
    + split; [done|]. etrans; [|exact Hs2]. apply send_answer_shape.
Qed.
End progress.

(** The requests of a body, and the sink of the reply to it. *)
Definition payload_messages (p : IncomingPayload) : list Message :=
  match p with PSingle m => [m] | PBatch ms => ms end.
Definition payload_batch (p : IncomingPayload) : bool := match p with PSingle _ => false | PBatch _ => true end.
Definition message_requests (ms : list Message) : list Request :=
  omap (λ m, match m with MRequest r => Some r | _ => None end) ms.
Definition reply_sink (reply : HttpReply) : option nat :=
  match reply with Deferred k _ | SinkStream _ _ k => Some k | _ => None end.

Lemma requests_of_fmap (f : Message → RequestContext) ms : requests_of ((λ m, (m, f m)) <$> ms) = message_requests ms.
Proof. unfold requests_of, message_requests. induction ms as [|[] ms IH]; cbn; by rewrite ?IH. Qed.

Section posts.
Context `{!JsonReader, !JsonText}.

(** What a reply from a sink says of the request it replies to. *)
Record posted (r : HttpRequest) (w : World) (reply : HttpReply) (w1 : World) (k : nat) (p : IncomingPayload) : Prop := {
  posted_task : ∃ f, (∀ m, cx_sink (f m) = Some k) ∧
    w_tasks w1 = w_tasks w ++ [mkTask ((λ m, (m, f m)) <$> payload_messages p) 0 false];
  posted_sink : ∃ s, w_sinks w1 !! k = Some s ∧ (sk_json s = true → sk_batch s = payload_batch p) ∧ sk_gone s = false ∧
    sk_json s = match reply with Deferred _ _ => true | _ => false end;
  posted_some : payload_messages p ≠ []
}.
Lemma accept_posted p r w reply w1 k :
  accept_messages (payload_messages p) (payload_batch p) w = (reply, w1) → reply_sink reply = Some k →
  posted r w reply w1 k p.
Proof.
  unfold accept_messages. destruct (Nat.eqb_spec (length (List.filter is_request (payload_messages p))) 0) as [E|E].
  { intros [= <- <-] [=]. }
  unfold new_context, deliver. intros [= <- <-] Hk. assert (Ek : k = length (w_sinks w)) by (by destruct (tr_json (w_transport w)); cbn in Hk; simplify_eq).
  subst k. split; [| |by intros Hp; rewrite Hp in E].
  - eexists. split; [|reflexivity]. done.
  - eexists. cbn [w_sinks with_tasks with_transport with_sinks]. rewrite lookup_app_r, Nat.sub_diag by done.
    split; [reflexivity|]. by destruct (tr_json (w_transport w)).
Qed.
Lemma post_posted callback r w reply w1 k :
  transport_handle callback r w = (reply, w1) → reply_sink reply = Some k →
  ∃ p, parse_payload (hq_body r) = Ok p ∧ posted r w reply w1 k p.
Proof.
  unfold transport_handle. destruct (_ && _); [by intros [= <- <-] [=]|]. destruct (tr_terminated _); [by intros [= <- <-] [=]|].
  case_decide; [|case_decide; [|case_decide; [|by intros [= <- <-] [=]]]].
  - unfold handle_post. destruct callback; cbn [negb]; [|by intros [= <- <-] [=]].
    destruct (validate_post_headers _ _) as [x|] eqn:Ev.
    { intros [= <- <-]. revert Ev. unfold validate_post_headers. repeat case_match; by intros [= <-] [=]. }
    destruct (json_from_str _) as [raw|]; [|by intros [= <- <-] [=]].
    destruct (validate_session_id _ _ _) as [x|] eqn:Es.
    { intros [= <- <-]. revert Es. unfold validate_session_id. repeat case_match; by intros [= <-] [=]. }
    destruct (validate_protocol_version _ _) as [x|] eqn:Ep.
    { intros [= <- <-]. revert Ep. unfold validate_protocol_version. repeat case_match; by intros [= <-] [=]. }
    destruct (parse_payload _) as [p|e] eqn:Epay.
    + intros Hacc Hk. exists p. split; [done|].
      assert (Hacc' : accept_messages (payload_messages p) (payload_batch p) w = (reply, w1)) by (by destruct p).
      by apply accept_posted.
    + destruct (has_method_error e); unfold new_context; by intros [= <- <-] [=].
  - unfold handle_get. destruct (negb _); [by intros [= <- <-] [=]|]. destruct (_ && _); [by intros [= <- <-] [=]|].
    destruct (validate_protocol_version _ _) as [x|] eqn:Ep.
    { intros [= <- <-]. revert Ep. unfold validate_protocol_version. repeat case_match; by intros [= <-] [=]. }
    destruct (stream_open _ _); by intros [= <- <-] [=].
  - unfold handle_delete. destruct (str_is_empty _); [by intros [= <- <-] [=]|]. case_decide; by intros [= <- <-] [=].
Qed.
End posts.

