(* ===== verification/McpManager.v ===== *)
(** What the manager of [McpHttp] guarantees: its table holds live sessions, a
    request reaches the session it names and no other, sessions start with an
    [initialize] and end with a DELETE; and the limits of what a session
    guarantees. *)
From S2P Require Import Prelude F64 RustMap RustStr Json JsonRpc Canonical A4PUtil Serde McpTypes McpProtocol McpSchema McpServer McpSession McpHttp McpReplies.

Section manager_facts.
Context `{!JsonReader, !JsonText}.
Variable allowed : Request → answer → Prop.
Variable cfg : ManagerConfig.

(** What happens to a manager: requests, for which an id that no session has
    can be drawn, and what the sessions do on their own, which does not end
    them. *)
Inductive manager_step (m : Manager) : Manager → Prop :=
| manager_request fresh r : fresh ≠ "" → manager_step m (handle_request cfg fresh r m).2
| manager_session i w w' :
    mg_worlds m !! i = Some w → world_step allowed false w w' →
    tr_terminated (w_transport w') = tr_terminated (w_transport w) → manager_step m (with_world i w' m).
Inductive manager_reachable : Manager → Prop :=
| manager_start : manager_reachable (mkManager [] [])
| manager_next m m' : manager_reachable m → manager_step m m' → manager_reachable m'.

(** An entry of the table. *)
Definition entry_ok (worlds : list World) (id : string) (i : nat) : Prop :=
  id ≠ "" ∧ ∃ w, worlds !! i = Some w ∧ ss_session_id (w_session w) = id ∧ tr_session_id (w_transport w) = id ∧
    tr_terminated (w_transport w) = false ∧ tr_stateless (w_transport w) = false.
Definition table_ok (m : Manager) : Prop := ∀ id i, aget id (mg_sessions m) = Some i → entry_ok (mg_worlds m) id i.

(** The session a request asks to open or to close. *)
Definition opens (fresh : string) (r : HttpRequest) (id : string) : Prop :=
  id = fresh ∧ hq_method r = "POST" ∧ default "" (header MCP_SESSION_ID r) = "" ∧
  is_supported_protocol_version (default DEFAULT_PROTOCOL_VERSION (header MCP_PROTOCOL_VERSION r)) = true ∧
  ∃ raw, json_from_str (hq_body r) = Ok raw ∧ is_initialization raw = true.
Definition closes (r : HttpRequest) (id : string) : Prop :=
  hq_method r = "DELETE" ∧ header MCP_SESSION_ID r = Some id.

(** ** The parts of a transport that stay *)

Definition transport_kept (t t' : Transport) : Prop :=
  tr_terminated t' = tr_terminated t ∧ tr_session_id t' = tr_session_id t ∧ tr_stateless t' = tr_stateless t ∧
  tr_json t' = tr_json t.
#[export] Instance transport_kept_preorder : PreOrder transport_kept.
Proof. split; [by intros t|]. intros t1 t2 t3 (H1 & H2 & H3 & H4) (H5 & H6 & H7 & H8). split_and!; congruence. Qed.

Lemma send_message_transport m ctx w : transport_kept (w_transport w) (w_transport (send_message m ctx w).2).
Proof.
  unfold send_message, send_to_stream. destruct (_ || _).
  - destruct (tr_get_stream _); [|done]. destruct (w_streams w !! _) as [s|]; [|done]. by destruct (sr_closed s).
  - destruct (cx_sink ctx); [|done]. destruct (w_sinks w !! _); [|done]. by destruct (send_to_sink _ _ _).
Qed.
Lemma send_answer_transport id a ctx w : transport_kept (w_transport w) (w_transport (send_answer id a ctx w)).
Proof.
  unfold send_answer, send_response, send_error_response.
  destruct a as [v|e]; [destruct (_ || _); [done|]|]; apply (send_message_transport _ _ (with_session _ w)).
Qed.
Lemma received_transport now m ctx w : transport_kept (w_transport w) (w_transport (on_message_received now m ctx w).2).
Proof.
  destruct m as [r|n|r]; cbn [on_message_received].
  - unfold received_request. case_decide.
    + unfold handle_initialize. cbn [snd].
      apply (send_answer_transport (req_id r) (Ok _) _ (on_session (with_client (ip_capabilities (initialize_params (req_params r)))) w)).
    + destruct (_ && _); [apply (send_answer_transport (req_id r) (Err _) _ w)|]. by destruct (ss_handler _).
  - unfold received_notification. cbn [snd]. case_decide; [done|]. case_decide; [|done].
    unfold handle_cancelled. destruct (dec _ _) as [p|]; [|done]. destruct (aget _ _) as [c|]; [|done].
    apply (send_message_transport _ _ (on_session _ w)).
  - unfold handle_response. by destruct (res_id r).
Qed.

(** An HTTP request: it ends the session, or leaves the transport's parts. *)
Lemma transport_handle_transport r w :
  transport_kept (w_transport w) (w_transport (transport_handle true r w).2) ∨
  hq_method r = "DELETE" ∧ header MCP_SESSION_ID r = Some (tr_session_id (w_transport w)) ∧
  tr_session_id (w_transport w) ≠ "" ∧ tr_terminated (w_transport (transport_handle true r w).2) = true ∧
  rejected (transport_handle true r w).1 = false.
Proof.
  unfold transport_handle. destruct (_ && _); [by left|]. destruct (tr_terminated _); [by left|].
  case_decide; [|case_decide; [|case_decide as Hd; [|by left]]].
  - left. unfold handle_post. cbn [negb]. destruct (validate_post_headers _ _); [done|]. destruct (json_from_str _); [|done].
    destruct (validate_session_id _ _ _); [done|]. destruct (validate_protocol_version _ _); [done|].
    unfold accept_messages, new_context, deliver.
    destruct (parse_payload _) as [[m|ms]|e]; [destruct (_ =? 0)%nat; done..|]. by destruct (has_method_error e).
  - left. unfold handle_get. destruct (negb _); [done|]. destruct (_ && _); [done|].
    destruct (validate_protocol_version _ _); [done|]. by destruct (stream_open _ _).
  - unfold handle_delete. destruct (str_is_empty _) eqn:Ee; [by left|]. case_decide as Hid; [|by left]. right.
    apply str_is_empty_false in Ee. destruct (header MCP_SESSION_ID r) as [h|]; [|done]. cbn in Hid. subst h.
    unfold terminate. destruct (tr_get_stream _) as [g|]; [destruct (w_streams w !! g) as [st|]; [destruct (sr_closed st)|]|]; done.
Qed.

(** A request without a session id that a session with one does not reject. *)
Lemma accepted_opens r w :
  tr_session_id (w_transport w) ≠ "" → tr_terminated (w_transport w) = false → default "" (header MCP_SESSION_ID r) = "" →
  rejected (transport_handle true r w).1 = false → opens (tr_session_id (w_transport w)) r (tr_session_id (w_transport w)).
Proof.
  intros Hid Hterm Hno. pose proof (proj2 (str_is_empty_false _) Hid) as He. unfold transport_handle. rewrite Hterm.
  destruct (_ && _); [done|]. case_decide as Hpost; [|case_decide; [|case_decide; [|done]]].
  - unfold handle_post. cbn [negb]. destruct (validate_post_headers _ _) as [x|] eqn:Ev.
    { revert Ev. unfold validate_post_headers. repeat case_match; by intros [= <-]. }
    destruct (json_from_str _) as [raw|] eqn:Eraw; [|done]. unfold validate_session_id. rewrite He, orb_false_r.
    destruct (is_initialization raw) eqn:Ei; cycle 1.
    { destruct (header MCP_SESSION_ID r) as [h|]; [|done]. cbn in Hno. by subst h. }
    unfold validate_protocol_version. destruct (is_supported_protocol_version _) eqn:Esup; [|done]. intros _.
    split_and!; [done..|]. eauto.
  - unfold handle_get. destruct (negb _); [done|]. rewrite He, Hno. by rewrite bool_decide_eq_false_2.
  - unfold handle_delete. rewrite He, Hno. by rewrite decide_False by done.
Qed.

(** ** A request at the manager *)

Lemma new_session_entry id w :
  id ≠ "" → new_http_session cfg id false = Ok w → entry_ok [w] id 0.
Proof.
  intros Hid. unfold new_http_session. rewrite bind_Ok. intros (t & Ht & [= <-]). unfold transport_new in Ht.
  destruct (_ && _) in Ht; [done|]. injection Ht as <-. split; [done|]. eexists. by split.
Qed.
Lemma entry_ok_app l l' id i : entry_ok l id i → entry_ok (l ++ l') id i.
Proof. intros (Hid & w & Hi & Hw). split; [done|]. exists w. by rewrite (lookup_app_l_Some _ _ _ _ Hi). Qed.

(** An entry whose session made a step that did not end it. *)
Lemma entry_ok_insert l i w w' :
  l !! i = Some w → ss_session_id (w_session w') = ss_session_id (w_session w) →
  transport_kept (w_transport w) (w_transport w') → ∀ id j, entry_ok l id j → entry_ok (<[i := w']> l) id j.
Proof.
  intros Hi Hses (Hterm & Htid & Htst & _) id j (Hid & wj & Hj & Hs & Ht & Hte & Hst). split; [done|].
  destruct (decide (j = i)) as [->|Hne].
  - rewrite Hi in Hj. injection Hj as <-. exists w'. rewrite list_lookup_insert_eq by (by eapply lookup_lt_Some).
    split_and!; congruence.
  - exists wj. by rewrite list_lookup_insert_ne.
Qed.
Lemma entry_ok_other l i w' id j : j ≠ i → entry_ok l id j → entry_ok (<[i := w']> l) id j.
Proof. intros Hne (Hid & wj & Hj & Hw). split; [done|]. exists wj. by rewrite list_lookup_insert_ne. Qed.

(** A request to the session at [i]: what is left of the table. *)
Lemma serve_session_spec i created r m id :
  (∀ id' j, aget id' (mg_sessions m) = Some j → entry_ok (mg_worlds m) id' j) → entry_ok (mg_worlds m) id i →
  (created = true → default "" (header MCP_SESSION_ID r) = "") →
  (created = false → aget id (mg_sessions m) = Some i) →
  let '(reply, m') := serve_session i created r m in
  ∃ w, mg_worlds m !! i = Some w ∧ ss_session_id (w_session w) = id ∧ tr_terminated (w_transport w) = false ∧
    reply = (transport_handle true r w).1 ∧ mg_worlds m' = <[i := (transport_handle true r w).2]> (mg_worlds m) ∧
    table_ok m' ∧
    (∀ id', id' ≠ id → aget id' (mg_sessions m') = aget id' (mg_sessions m)) ∧
    (aget id (mg_sessions m') = Some i ∧ (created = true → opens id r id) ∨
     aget id (mg_sessions m') = None ∧ (created = false → closes r id)).
Proof.
  intros Htab (Hid & w & Hi & Hses & Htid & Hte & Hst) Hcr Hold. unfold serve_session. rewrite Hi, Hses.
  pose proof (transport_handle_transport r w) as Htr. pose proof (transport_handle_kept true r w) as [Hsk _].
  assert (Hop : rejected (transport_handle true r w).1 = false → created = true → opens id r id).
  { intros Hrej Hc. rewrite <- Htid. apply accepted_opens; [by rewrite Htid|done|by apply Hcr|done]. }
  destruct (transport_handle true r w) as [reply w'] eqn:Eh. cbn [fst snd] in *.
  set (sessions := if created then im_insert id i (mg_sessions m) else mg_sessions m).
  assert (Hs : mg_sessions (if created then set_sessions (im_insert id i (mg_sessions m)) m else m) = sessions) by (by destruct created).
  assert (Hw : mg_worlds (if created then set_sessions (im_insert id i (mg_sessions m)) m else m) = mg_worlds m) by (by destruct created).
  assert (Hget : ∀ id', aget id' sessions = if decide (id' = id) then Some i else aget id' (mg_sessions m)).
  { intros id'. subst sessions. destruct created; [apply aget_im_insert|]. case_decide as Hd; [subst id'; by apply Hold|done]. }
  assert (Hclosed : tr_terminated (w_transport w') = true → hq_method r = "DELETE" ∧ header MCP_SESSION_ID r = Some id).
  { destruct Htr as [(Hte' & _)|(Hm & Hh & _)]; [congruence|]. intros _. by rewrite <- Htid. }
  assert (Hent : ∀ id' j, id' ≠ id → aget id' (mg_sessions m) = Some j → entry_ok (<[i := w']> (mg_worlds m)) id' j).
  { intros id' j Hne Hj%Htab. apply entry_ok_other; [|done]. intros ->. destruct Hj as (_ & w2 & Hi2 & Hses2 & _). congruence. }
  exists w. destruct (tr_terminated (w_transport w') || created && rejected reply) eqn:Eend;
    cbn [mg_worlds mg_sessions set_sessions with_world]; rewrite ?Hs, ?Hw; (split_and!; [done|done|done|by rewrite Eh|by rewrite Eh| | |]).
  - intros id' j. cbn [mg_worlds mg_sessions set_sessions with_world]. rewrite ?Hs, Hw, aget_aremove.
    case_decide as Hd; [done|]. rewrite Hget, decide_False by done. by apply Hent.
  - intros id' Hne. by rewrite aget_aremove, Hget, !decide_False by done.
  - right. rewrite aget_aremove, decide_True by done. split; [done|]. intros ->. cbn [andb] in Eend. rewrite orb_false_r in Eend.
    by apply Hclosed.
  - apply orb_false_iff in Eend as [Ete Erej]. destruct Htr as [Hkept|(_ & _ & _ & Hte' & _)]; [|congruence].
    intros id' j. cbn [mg_worlds mg_sessions set_sessions with_world]. rewrite ?Hs, Hw, Hget. case_decide as Hd; [subst id'|by apply Hent].
    intros [= <-]. eapply entry_ok_insert; [done|by rewrite Hsk|done|]. split; [done|]. by exists w.
  - intros id' Hne. by rewrite Hget, decide_False by done.
  - left. rewrite Hget, decide_True by done. split; [done|]. intros ->. apply orb_false_iff in Eend as [_ Erej]. by apply Hop.
Qed.

(** Every case of [handle_request]. *)
Lemma handle_request_spec fresh r m reply o m' :
  table_ok m → fresh ≠ "" → handle_request cfg fresh r m = (reply, o, m') →
  table_ok m' ∧
  (∀ j w, mg_worlds m !! j = Some w → mg_worlds m' !! j = Some w ∨
     check_auth cfg r = None ∧ mf_stateless cfg = false ∧ o = Some j ∧
     header MCP_SESSION_ID r = Some (ss_session_id (w_session w)) ∧ tr_terminated (w_transport w) = false ∧
     (reply, mg_worlds m' !! j) = ((transport_handle true r w).1, Some (transport_handle true r w).2)) ∧
  (∀ id, aget id (mg_sessions m') = aget id (mg_sessions m) ∨
     check_auth cfg r = None ∧ mf_stateless cfg = false ∧
     (opens fresh r id ∨ id = fresh ∧ aget id (mg_sessions m') = None ∨ closes r id ∧ aget id (mg_sessions m') = None)).
Proof.
  intros Htab Hfresh. assert (Hsame : ∀ j w, mg_worlds m !! j = Some w → mg_worlds m !! j = Some w) by done.
  unfold handle_request. destruct (check_auth cfg r); [intros [= <- <- <-]; eauto 10|].
  destruct (mf_stateless cfg).
  { destruct (new_http_session _ _ _) as [w|e] eqn:Ew; [|intros [= <- <- <-]; eauto 10].
    destruct (transport_handle true r w) as [reply' w']. intros [= <- <- <-]. cbn [mg_worlds mg_sessions]. split_and!; [| |auto].
    - intros id j Hj. by apply entry_ok_app, Htab.
    - intros j wj Hj. left. by rewrite (lookup_app_l_Some _ _ _ _ Hj). }
  destruct (str_is_empty _) eqn:Eid.
  - destruct (new_http_session _ _ _) as [w|e] eqn:Ew; [|intros [= <- <- <-]; eauto 10].
    pose proof (serve_session_spec (length (mg_worlds m)) true r (mkManager (mg_worlds m ++ [w]) (mg_sessions m)) fresh) as Hserve.
    destruct (serve_session _ _ _ _) as [reply' m1]. intros [= <- <- <-].
    destruct Hserve as (w1 & Hw1 & _ & _ & _ & Hworlds & Hok & Hne & Heq); cbn [mg_worlds mg_sessions].
    + intros id j Hj. by apply entry_ok_app, Htab.
    + destruct (new_session_entry _ _ Hfresh Ew) as (Hid & w1 & [= <-] & Hw1). split; [done|]. exists w.
      by rewrite lookup_app_r, Nat.sub_diag.
    + intros _. by destruct (default "" (header MCP_SESSION_ID r)).
    + done.
    + cbn [mg_worlds mg_sessions] in *. split_and!; [done| |].
      * intros j wj Hj. left. apply lookup_lt_Some in Hj as Hlt. rewrite Hworlds, list_lookup_insert_ne by lia.
        by rewrite (lookup_app_l_Some _ _ _ _ Hj).
      * intros id. destruct (decide (id = fresh)) as [->|Hd]; [|left; by apply Hne]. right.
        destruct Heq as [[_ Ho]|[Hn _]]; auto 6.
  - destruct (aget _ _) as [i|] eqn:Ei; [|intros [= <- <- <-]; eauto 10].
    assert (Hh : header MCP_SESSION_ID r = Some (default "" (header MCP_SESSION_ID r))) by (by destruct (header MCP_SESSION_ID r)).
    pose proof (serve_session_spec i false r m _ Htab (Htab _ _ Ei) ltac:(done) (λ _, Ei)) as Hserve.
    destruct (serve_session _ _ _ _) as [reply' m1]. intros [= <- <- <-].
    destruct Hserve as (w & Hw & Hses & Hte & -> & Hworlds & Hok & Hne & Heq). split_and!; [done| |].
    + intros j wj Hj. destruct (decide (j = i)) as [->|Hd]; [|left; by rewrite Hworlds, list_lookup_insert_ne]. right.
      rewrite Hw in Hj. injection Hj as <-. split_and!; [done..|by rewrite Hses|done|].
      by rewrite Hworlds, list_lookup_insert_eq by (by eapply lookup_lt_Some).
    + intros id. destruct (decide (id = default "" (header MCP_SESSION_ID r))) as [->|Hd]; [|left; by apply Hne].
      destruct Heq as [[Hi _]|[Hn Hc]]; [left; congruence|right; auto 8].
Qed.

(** What a session does on its own. *)
Lemma step_transport quiet w w' :
  world_step allowed quiet w w' → tr_terminated (w_transport w') = tr_terminated (w_transport w) →
  transport_kept (w_transport w) (w_transport w') ∧ ss_session_id (w_session w') = ss_session_id (w_session w).
Proof.
  intros Hst Hte.
  inversion Hst as [callback r Hc Hb|now i t m ctx Hi Hrun Hm Hq|i t r ctx a Hi Hrun Hm Ha|meth ps|now meth ps Hreq
    |now id a|k s Hk|g s Hg|c]; subst.
  - destruct (transport_handle_kept callback r w) as [-> _]. split; [|done]. revert Hte. unfold transport_handle.
    destruct (_ && _); [done|]. destruct (tr_terminated (w_transport w)) eqn:Et; [done|].
    case_decide; [|case_decide; [|case_decide as Hd; [|done]]].
    + intros _. unfold handle_post. destruct callback; cbn [negb]; [|done]. destruct (validate_post_headers _ _); [done|].
      destruct (json_from_str _); [|done].
      destruct (validate_session_id _ _ _); [done|]. destruct (validate_protocol_version _ _); [done|].
      unfold accept_messages, new_context, deliver.
      destruct (parse_payload _) as [[m|ms]|e]; [destruct (_ =? 0)%nat; done..|]. by destruct (has_method_error e).
    + intros _. unfold handle_get. destruct (negb _); [done|]. destruct (_ && _); [done|].
      destruct (validate_protocol_version _ _); [done|]. by destruct (stream_open _ _).
    + unfold handle_delete. destruct (str_is_empty _); [done|]. case_decide; [|done]. done.
  - unfold run_message. pose proof (received_transport now m ctx w) as Ht.
    destruct (on_message_received now m ctx w) as [started w1] eqn:E. apply received_kept in E as ((_ & _ & _ & Hs) & _).
    by split.
  - unfold finish_request. cbn [w_transport w_session set_task with_tasks].
    match goal with |- context [send_answer ?i ?a ?c ?w] =>
      pose proof (send_answer_transport i a c w); destruct (send_answer_session i a c w) as [-> _] end. by split.
  - unfold send_notification. split; [apply send_message_transport|by rewrite send_message_session].
  - destruct (start_request_kept now meth ps w) as ((_ & _ & _ & Hs) & _). split; [|done]. unfold start_request.
    destruct (register _ _) as [[id ch] p].
    match goal with |- context [send_message ?a ?b ?c] => pose proof (send_message_transport a b c); by destruct (send_message a b c) as [[] ?] end.
  - by split.
  - by split.
  - by split.
  - by split.
Qed.

Lemma manager_step_table m m' : table_ok m → manager_step m m' → table_ok m'.
Proof.
  intros Hm [fresh r Hf|i w w' Hi Hst Hte].
  - destruct (handle_request cfg fresh r m) as [[reply o] m1] eqn:E. by eapply handle_request_spec.
  - destruct (step_transport _ _ _ Hst Hte) as [Hk Hs]. intros id j Hj%Hm. by eapply entry_ok_insert.
Qed.
Lemma reachable_table m : manager_reachable m → table_ok m.
Proof. induction 1 as [|m m' Hr IH Hst]; [done|by eapply manager_step_table]. Qed.
End manager_facts.

(** In every reachable state of the manager, an id of its table leads to the
    one session that answers to it: a stateful session under that id, whose
    transport has that id and was not terminated. *)
Theorem session_table_sound `{!JsonReader, !JsonText} allowed cfg m id i :
  manager_reachable allowed cfg m → aget id (mg_sessions m) = Some i → entry_ok (mg_worlds m) id i.
Proof. intros Hr%reachable_table. apply Hr. Qed.

(** C13: A request changes no session but the one it names.  A session of a
    reachable manager that a request changes is a live one whose id is the
    session id header of the request, the credentials of the request passed the
    check, and the reply and the change are what the session's transport makes
    of the request. *)
Theorem sessions_isolated `{!JsonReader, !JsonText} allowed cfg m fresh r reply o m' j w :
  manager_reachable allowed cfg m → fresh ≠ "" → handle_request cfg fresh r m = (reply, o, m') →
  mg_worlds m !! j = Some w →
  mg_worlds m' !! j = Some w ∨
  check_auth cfg r = None ∧ mf_stateless cfg = false ∧ o = Some j ∧
    header MCP_SESSION_ID r = Some (ss_session_id (w_session w)) ∧ tr_terminated (w_transport w) = false ∧
    (reply, mg_worlds m' !! j) = ((transport_handle true r w).1, Some (transport_handle true r w).2).
Proof. intros Hr%reachable_table Hf Hh Hj. by eapply handle_request_spec. Qed.


(** * Examples *)

#[local] Instance toy_reader : JsonReader :=
  λ s, match text_value s with Some v => Ok v | None => Err "expected value" end.
#[local] Instance toy_text : JsonText := value_text.

(** A server that answers everything with null, or fails. *)
Definition toy_allowed (r : Request) (a : answer) : Prop := a = Ok JNull ∨ a = Err (internal_error "failed").
Definition toy_server : ServerConfig := mkServerConfig "toy" "1.0" 1 10 10 default_server_capabilities.
Definition toy_config : ManagerConfig := mkManagerConfig toy_server true false None None.
Definition toy_world : World :=
  match new_http_session toy_config "s1" false with Ok w => w | Err _ => mkWorld (mkSession "" true "" "" default_server_capabilities None false true [] pending_new) (mkTransport "" true true None false 1) [] [] [] end.

Definition post_of (headers : Headers) (body : Value) : HttpRequest :=
  mkHttpRequest "POST" ([("accept", CONTENT_TYPE_JSON); (CONTENT_TYPE, CONTENT_TYPE_JSON)] ++ headers) (value_text body).
Definition call_value (id : Z) (method : string) : Value :=
  JObject [("jsonrpc", JString "2.0"); ("id", value_of_i64 id); ("method", JString method)].
Definition open_request : HttpRequest := post_of [] (call_value 1 INITIALIZE).
Definition session_request (body : Value) : HttpRequest := post_of [(MCP_SESSION_ID, "s1")] body.
Definition two_calls : HttpRequest := session_request (JArray [call_value 2 TOOLS_LIST; call_value 3 PING]).
Definition cancel_value : Value :=
  JObject [("jsonrpc", JString "2.0"); ("method", JString NOTIFICATION_CANCELLED);
           ("params", JObject [("requestId", value_of_i64 2)])].

Lemma toy_new : new_http_session toy_config "s1" false = Ok toy_world.
Proof. reflexivity. Qed.

(** The handshake, as a run of the session. *)
Definition run_at (i : nat) (w : World) : World :=
  match w_tasks w !! i with
  | Some t =>
      match tk_messages t !! tk_pos t, tk_running t with
      | Some (m, ctx), false => run_message 0 i t m ctx w
      | _, _ => w
      end
  | None => w
  end.
Definition fail_at (i : nat) (w : World) : World :=
  match w_tasks w !! i with
  | Some t =>
      match tk_messages t !! tk_pos t, tk_running t with
      | Some (MRequest r, ctx), true => finish_request i t r ctx (Err (internal_error "failed")) w
      | _, _ => w
      end
  | None => w
  end.
Lemma run_at_reachable i w w0 :
  world_reachable toy_allowed false w0 w → world_reachable toy_allowed false w0 (run_at i w).
Proof.
  intros Hr. unfold run_at. destruct (w_tasks w !! i) as [t|] eqn:Hi; [|done].
  destruct (tk_messages t !! tk_pos t) as [[m ctx]|] eqn:Hm; [|done]. destruct (tk_running t) eqn:Hrun; [done|].
  eapply world_next; [done|]. by apply step_message.
Qed.
Lemma fail_at_reachable i w w0 :
  world_reachable toy_allowed false w0 w → world_reachable toy_allowed false w0 (fail_at i w).
Proof.
  intros Hr. unfold fail_at. destruct (w_tasks w !! i) as [t|] eqn:Hi; [|done].
  destruct (tk_messages t !! tk_pos t) as [[[r| |] ctx]|] eqn:Hm; [|done..]. destruct (tk_running t) eqn:Hrun; [|done].
  eapply world_next; [done|]. apply step_answer; [done..|by right].
Qed.
Lemma http_reachable quiet r w w0 :
  (tr_counter (w_transport w) < i64_max)%Z → body_fits r → world_reachable toy_allowed quiet w0 w →
  world_reachable toy_allowed quiet w0 (transport_handle true r w).2.
Proof. intros Hc Hb Hr. eapply world_next; [done|]. by apply step_http. Qed.

Definition opened : World := run_at 0 (transport_handle true open_request toy_world).2.
Definition asked : World := (transport_handle true two_calls opened).2.
Definition cancelled : World :=
  run_at 2 (transport_handle true (session_request cancel_value) (run_at 1 asked)).2.
Definition failed : World := fail_at 1 cancelled.

Lemma open_fits : body_fits open_request.
Proof. intros ms Hms. vm_compute in Hms. by simplify_eq. Qed.
Lemma two_fits : body_fits two_calls.
Proof. intros ms Hms. vm_compute in Hms. simplify_eq. by vm_compute. Qed.

Lemma cancel_fits : body_fits (session_request cancel_value).
Proof. intros ms Hms. vm_compute in Hms. by simplify_eq. Qed.
Lemma opened_reachable : world_reachable toy_allowed true toy_world opened.
Proof.
  unfold opened, run_at. destruct (w_tasks _ !! 0) as [t|] eqn:Hi; [|vm_compute in Hi; done].
  vm_compute in Hi. injection Hi as <-. cbn [tk_messages tk_pos tk_running lookup list_lookup].
  eapply world_next; [apply (http_reachable true open_request toy_world); [done|apply open_fits|constructor]|].
  apply step_message; [by vm_compute|done|done|done].
Qed.
Lemma asked_reachable : world_reachable toy_allowed true toy_world asked.
Proof. apply http_reachable; [by vm_compute|apply two_fits|apply opened_reachable]. Qed.
Lemma world_reachable_quiet quiet w0 w :
  world_reachable toy_allowed true w0 w → world_reachable toy_allowed quiet w0 w.
Proof.
  destruct quiet; [done|]. induction 1 as [|w1 w2 Hr IH Hst]; [constructor|]. eapply world_next; [done|].
  inversion Hst; subst; by econstructor.
Qed.

(** A request that is cancelled and then fails is answered twice.  In a JSON
    batch of two requests its two answers fill the reply, which is then sent
    without an answer to the other request. *)
Theorem cancelled_failure_displaces :
  world_reachable toy_allowed false toy_world failed ∧
  message_requests (match parse_payload (hq_body two_calls) with Ok p => payload_messages p | Err _ => [] end) =
    [request_new (Number 2) TOOLS_LIST None; request_new (Number 3) PING None] ∧
  ∃ s, w_sinks failed !! 1 = Some s ∧
    sk_reply s = Some (JArray (response_to_value <$>
      [JsonRpc.error (Some (Number 2)) (rpc_error 0 "Request cancelled");
       JsonRpc.error (Some (Number 2)) (internal_error "failed")])).
Proof.
  split; [|split; [by vm_compute|eexists; split; by vm_compute]].
  apply fail_at_reachable, run_at_reachable, http_reachable; [by vm_compute|apply cancel_fits|].
  apply run_at_reachable. apply world_reachable_quiet, asked_reachable.
Qed.

Lemma replies_complete_witness :
  ∃ t s, w_tasks asked !! 1 = Some t ∧ w_sinks asked !! 1 = Some s ∧
    sink_state toy_allowed (requests_of (take (tk_pos t) (tk_messages t))) (requests_of (drop (tk_pos t) (tk_messages t))) s.
Proof.
  destruct (w_tasks asked !! 1) as [t|] eqn:Hi; [|vm_compute in Hi; done]. exists t.
  assert (task_sink t = Some 1) as Hk by (vm_compute in Hi; by injection Hi as <-).
  destruct (replies_complete toy_allowed toy_config "s1" false toy_world asked 1 t 1 toy_new asked_reachable Hi Hk)
    as (s & Hs & Hst). exists s. exact (conj eq_refl (conj Hs Hst)).
Defined.



(** A manager with one session. *)
Definition toy_manager : Manager := (handle_request toy_config "s1" open_request (mkManager [] [])).2.
Lemma toy_manager_reachable : manager_reachable toy_allowed toy_config toy_manager.
Proof. eapply manager_next; [constructor|]. by apply manager_request. Qed.
Definition two_managers : Manager := (handle_request toy_config "s2" open_request toy_manager).2.
Lemma two_managers_reachable : manager_reachable toy_allowed toy_config two_managers.
Proof. eapply manager_next; [apply toy_manager_reachable|]. by apply manager_request. Qed.

Lemma session_table_sound_witness :
  aget "s2" (mg_sessions two_managers) = Some 1 ∧ entry_ok (mg_worlds two_managers) "s2" 1.
Proof.
  split; [by vm_compute|].
  apply (session_table_sound toy_allowed toy_config two_managers "s2" 1 two_managers_reachable). by vm_compute.
Defined.

Lemma sessions_isolated_witness :
  ∃ reply m' w, handle_request toy_config "s3" two_calls two_managers = (reply, Some 0, m') ∧
    mg_worlds two_managers !! 1 = Some w ∧ mg_worlds m' !! 1 = Some w.
Proof.
  destruct (handle_request toy_config "s3" two_calls two_managers) as [[reply o] m'] eqn:E.
  assert (o = Some 0) as -> by (vm_compute in E; by injection E as _ <- _).
  destruct (mg_worlds two_managers !! 1) as [w|] eqn:Hw; [|vm_compute in Hw; done].
  exists reply, m', w. refine (conj eq_refl (conj eq_refl _)).
  by destruct (sessions_isolated toy_allowed toy_config two_managers "s3" two_calls reply (Some 0) m' 1 w
    two_managers_reachable ltac:(done) E Hw) as [Hs|(_ & _ & [=] & _)].
Defined.

