(* ===== verification/McpClient.v ===== *)
(** The MCP client: client/session.rs, client/mod.rs and the HTTP transport
    transport/streamable_http_client.rs of MCP/rust-sdk/src.

    A [Client] is the client object with its session and its transport.  Every
    message the transport sends is a [Post], a task of its own that goes from
    the queue to the network, takes the answer and hands what it carries to the
    session.  The callbacks of the application are functions; connections, TLS
    and the clock are the environment's. *)
From S2P Require Import Prelude F64 RustMap RustStr Json Sse JsonRpc A4PUtil Serde McpTypes McpProtocol McpSchema McpServer McpSession McpHttp.

(** * client/session.rs *)

(** The registered callbacks, with what they answer. *)
Record ClientApp := mkClientApp {
  ca_list_roots : option (outcome ListRootsResult); ca_logging : bool;
  ca_elicit : option (string → JsonDict → outcome ElicitResult);
  ca_elicit_url : option (string → string → string → outcome ElicitResult);
  ca_sampling : option ((CreateMessageParams → outcome (option CreateMessageResult)) * SamplingCapability)
}.
Definition no_callbacks : ClientApp := mkClientApp None false None None None.

Definition build_client_capabilities (app : ClientApp) : ClientCapabilities :=
  let form := bool_decide (is_Some (ca_elicit app)) in
  let url := bool_decide (is_Some (ca_elicit_url app)) in
  mkClientCapabilities None (snd <$> ca_sampling app)
    (if form || url then Some (mkElicitationCapability (if form then Some () else None) (if url then Some () else None)) else None)
    ((λ _, mkRootsCapability true) <$> ca_list_roots app) None.

(** [#[serde(tag = "mode")]]: the variant is named by the entry [mode] of an
    object or by the first element of an array. *)
Definition elicit_variant (mode : string) (v : Value) : option ElicitParams :=
  if decide (mode = "form") then
    dec (record (λ '(m, s), EForm m s) (λ p, match p with EForm m s => (m, s) | EUrl m _ _ => (m, []) end)
           (f_req "message" c_string ⊗ f_req "requestedSchema" c_map)) v
  else if decide (mode = "url") then
    dec (record (λ '(m, u, i), EUrl m u i) (λ p, match p with EForm m _ => (m, "", "") | EUrl m u i => (m, u, i) end)
           (f_req "message" c_string ⊗ f_req "url" c_string ⊗ f_req "elicitationId" c_string)) v
  else None.
Definition elicit_params_of (v : Value) : option ElicitParams :=
  match v with
  | JObject m => mode ← aget "mode" m ≫= as_str; elicit_variant mode v
  | JArray (t :: l) => mode ← as_str t; elicit_variant mode (JArray l)
  | _ => None
  end.

Section session.
Context `{!JsonText}.

Definition method_not_found (method : string) : answer :=
  Err (rpc_error (error_code MethodNotFound) ("Method not found: " +:+ method)).
Definition callback_answer {A} (c : Codec A) (o : outcome A) : answer :=
  match o with Ok r => Ok (enc c r) | Err e => Err (rpc_error (error_code InternalError) (error_message e)) end.

Definition answer_roots_list (app : ClientApp) (method : string) : answer :=
  match ca_list_roots app with None => method_not_found method | Some o => callback_answer c_list_roots_result o end.
(** [de_error] is serde's text for parameters that do not decode. *)
Definition answer_elicit (app : ClientApp) (method de_error : string) (params : option Value) : answer :=
  match elicit_params_of (default JNull params) with
  | Some (EForm text schema) =>
      match ca_elicit app with
      | None => method_not_found method
      | Some cb => callback_answer c_elicit_result (cb text schema)
      end
  | Some (EUrl text url id) =>
      match ca_elicit_url app with
      | None => method_not_found method
      | Some cb => callback_answer c_elicit_result (cb text url id)
      end
  | None =>
      Err (rpc_error (error_code InvalidParams) ("Invalid params for elicitation/create: " +:+ de_error))
  end.

(** The checks of a sampling request before its callback. *)
Definition check_sampling (capability : SamplingCapability) (params : option Value) : result CreateMessageParams string :=
  let? p := ok_or (match params with Some (JObject m) => dec c_create_message_params (JObject m) | _ => None end)
              "Invalid params for sampling/createMessage" in
  if bool_decide (is_Some (cp_tools p)) && negb (sa_tools capability) then
    Err "Tool-enabled sampling request received but client did not advertise sampling.tools capability"
  else if (match cp_include_context p with
           | Some v => bool_decide (v = "thisServer" ∨ v = "allServers") | None => false end)
          && negb (sa_context capability) then
    Err "includeContext requires sampling.context capability"
  else
    let? _ := map_err error_message (validate_tool_use_result_messages (cp_messages p)) in
    Ok p.
Definition answer_sampling (app : ClientApp) (method : string) (params : option Value) : answer :=
  match ca_sampling app with
  | None => method_not_found method
  | Some (cb, capability) =>
      match check_sampling capability params with
      | Err m => Err (rpc_error (error_code InvalidParams) m)
      | Ok p =>
          match cb p with
          | Ok (Some r) => Ok (enc c_create_message_result r)
          | Ok None => Err (rpc_error (-1) "User rejected sampling request")
          | Err e => Err (rpc_error (error_code InternalError) (error_message e))
          end
      end
  end.
(** [received_request]. *)
Definition client_answer (app : ClientApp) (de_error : string) (r : Request) : answer :=
  let method := req_method r in
  if decide (method = ROOTS_LIST) then answer_roots_list app method
  else if decide (method = ELICITATION_CREATE) then answer_elicit app method de_error (req_params r)
  else if decide (method = SAMPLING_CREATE_MESSAGE) then answer_sampling app method (req_params r)
  else method_not_found method.
End session.

(** What a session tells the application: progress and log messages. *)
Inductive ClientEvent :=
| OnProgress (callback : nat) (progress : f64) (total : option f64) (text : option string)
| OnLog (level : string) (data : Value) (logger : string).

Record ClientSession := mkClientSession {
  cs_pending : PendingRequests; cs_initialized : bool; cs_capabilities : option ServerCapabilities;
  cs_app : ClientApp; cs_schemas : list (string * Value); cs_events : list ClientEvent
}.
Definition session_new (app : ClientApp) : ClientSession := mkClientSession pending_new false None app [] [].
Definition cs_with_pending (p : PendingRequests) (s : ClientSession) : ClientSession :=
  mkClientSession p (cs_initialized s) (cs_capabilities s) (cs_app s) (cs_schemas s) (cs_events s).
Definition cs_event (e : ClientEvent) (s : ClientSession) : ClientSession :=
  mkClientSession (cs_pending s) (cs_initialized s) (cs_capabilities s) (cs_app s) (cs_schemas s) (cs_events s ++ [e]).
Definition cs_with_app (a : ClientApp) (s : ClientSession) : ClientSession :=
  mkClientSession (cs_pending s) (cs_initialized s) (cs_capabilities s) a (cs_schemas s) (cs_events s).
Definition cs_mark_initialized (s : ClientSession) : ClientSession :=
  mkClientSession (cs_pending s) true (cs_capabilities s) (cs_app s) (cs_schemas s) (cs_events s).
Definition cs_with_capabilities (c : ServerCapabilities) (s : ClientSession) : ClientSession :=
  mkClientSession (cs_pending s) (cs_initialized s) (Some c) (cs_app s) (cs_schemas s) (cs_events s).
Definition server_capabilities (s : ClientSession) : ServerCapabilities :=
  default default_server_capabilities (cs_capabilities s).

(** [cache_tool_schemas]: a tool without a schema leaves the one it had. *)
Definition cache_tool_schemas (tools : list Tool) (s : ClientSession) : ClientSession :=
  mkClientSession (cs_pending s) (cs_initialized s) (cs_capabilities s) (cs_app s)
    (foldl (λ cache t, match tl_output_schema t with Some o => im_insert (tl_name t) o cache | None => cache end)
       (cs_schemas s) tools) (cs_events s).

Section results.
Context `{!SchemaLib, !JsonText}.
Definition validate_tool_result (name : string) (r : CallToolResult) (s : ClientSession) : outcome () :=
  match ctr_structured_content r, aget name (cs_schemas s) with
  | Some structured, Some schema =>
      if negb (is_object structured) then
        Err (EValidation ("Invalid structured content for tool " +:+ name +:+ ": structuredContent must be a JSON object"))
      else map_err (λ e, EValidation ("Invalid structured content for tool " +:+ name +:+ ": " +:+ e))
             (validate schema structured)
  | _, _ => Ok ()
  end.

(** [send_request] behind its wait. *)
Definition typed_result {A} (c : Codec A) (method de_error : string) (r : outcome Value) : outcome A :=
  let? v := r in
  ok_or (dec c v) (EInvalidState ("Result type mismatch for " +:+ method +:+ ": " +:+ de_error)).
(** [call_tool] and [list_tools] behind their wait. *)
Definition call_tool_result (name de_error : string) (r : outcome Value) (s : ClientSession) : outcome CallToolResult :=
  let? result := typed_result c_call_tool_result TOOLS_CALL de_error r in
  if ctr_is_error result then Ok result else let? _ := validate_tool_result name result s in Ok result.
Definition list_tools_result (de_error : string) (r : outcome Value) (s : ClientSession)
    : outcome (Page Tool) * ClientSession :=
  match typed_result c_list_tools_result TOOLS_LIST de_error r with
  | Ok page => (Ok page, cache_tool_schemas (pg_items Tool page) s)
  | Err e => (Err e, s)
  end.
End results.

(** The parameters of the requests of the public interface. *)
Definition cursor_params (cursor : option string) : option Value :=
  Some (match cursor with Some c => JObject [("cursor", JString c)] | None => JNull end).
Definition named_params (name : string) (arguments : option Value) : option Value :=
  Some (JObject ([("name", JString name)] ++ option_list (pair "arguments" <$> arguments))).
Definition uri_params (uri : string) : option Value := Some (JObject [("uri", JString uri)]).
Definition level_params (level : string) : option Value := Some (JObject [("level", JString level)]).

Inductive ClientCall :=
| CallListTools (cursor : option string) | CallTool (name : string) (arguments : option Value)
| CallListResources (cursor : option string) | CallReadResource (uri : string) | CallSubscribe (uri : string)
| CallUnsubscribe (uri : string) | CallListTemplates | CallListPrompts
| CallGetPrompt (name : string) (arguments : option Value) | CallPing | CallComplete (params : CompleteRequestParams)
| CallSetLevel (level : string).
Definition call_method (c : ClientCall) : string :=
  match c with
  | CallListTools _ => TOOLS_LIST | CallTool _ _ => TOOLS_CALL | CallListResources _ => RESOURCES_LIST
  | CallReadResource _ => RESOURCES_READ | CallSubscribe _ => RESOURCES_SUBSCRIBE
  | CallUnsubscribe _ => RESOURCES_UNSUBSCRIBE | CallListTemplates => RESOURCES_TEMPLATES_LIST
  | CallListPrompts => PROMPTS_LIST | CallGetPrompt _ _ => PROMPTS_GET | CallPing => PING
  | CallComplete _ => COMPLETION_COMPLETE | CallSetLevel _ => LOGGING_SET_LEVEL
  end.
Definition call_params (c : ClientCall) : option Value :=
  match c with
  | CallListTools cursor | CallListResources cursor => cursor_params cursor
  | CallTool name arguments | CallGetPrompt name arguments => named_params name arguments
  | CallReadResource uri | CallSubscribe uri | CallUnsubscribe uri => uri_params uri
  | CallListTemplates | CallListPrompts => Some JNull
  | CallPing => None
  | CallComplete params => Some (enc c_complete_params params)
  | CallSetLevel level => level_params level
  end.

(** [received_notification] and [handle_response]. *)
Definition client_notified (now : Z) (n : Notification) (s : ClientSession) : ClientSession :=
  let params := default JNull (not_params n) in
  if decide (not_method n = NOTIFICATION_PROGRESS) then
    match dec c_progress_params params with
    | Some p =>
        match progress_callback now (pr_token p) (cs_pending s) with
        | Some cb => cs_event (OnProgress cb (pr_progress p) (pr_total p) (pr_message p)) s
        | None => s
        end
    | None => s
    end
  else if decide (not_method n = NOTIFICATION_MESSAGE) then
    match dec c_logging_message_params params with
    | Some p => if ca_logging (cs_app s) then cs_event (OnLog (lm_level p) (lm_data p) (lm_logger p)) s else s
    | None => s
    end
  else s.
Definition response_result (r : Response) : PendingResult :=
  match res_error r with Some e => Err e | None => Ok (default JNull (res_result r)) end.
Definition client_responded (now : Z) (r : Response) (s : ClientSession) : ClientSession :=
  match res_id r with
  | Some id => cs_with_pending (complete now id (response_result r) (cs_pending s)) s
  | None => s
  end.
Definition client_disconnected (reason : string) (s : ClientSession) : ClientSession :=
  cs_with_pending (fail_all (internal_error ("Transport disconnected: " +:+ reason)) (cs_pending s)) s.

(** * The HTTP transport *)

Definition MAX_TIMEOUT_MS : Z := 30 * 60 * 1000.
Definition DEFAULT_CLIENT_NAME : string := "MCP Client".
Definition DEFAULT_VERSION : string := "1.0.0".

(** reqwest accepts the header. *)
Class HttpLib := header_valid : string → string → bool.

(** [hc_get]: the task of the GET stream. *)
Record HttpClient := mkHttpClient {
  hc_headers : Headers; hc_auth : option (Headers → Headers); hc_session_id : string; hc_version : string;
  hc_running : bool; hc_callback : bool; hc_get : option nat
}.
(** [new]: the checks of the two timeouts and the headers of every request. *)
Definition http_client_new (headers : Headers) (timeout_ms sse_ms : Z) (auth : option (Headers → Headers)) : outcome HttpClient :=
  if (timeout_ms =? 0)%Z || (MAX_TIMEOUT_MS <? timeout_ms)%Z then Err (EInvalidArgument "Invalid timeout value")
  else if (sse_ms =? 0)%Z || (MAX_TIMEOUT_MS <? sse_ms)%Z then Err (EInvalidArgument "Invalid SSE read timeout value")
  else
    Ok (mkHttpClient
          (foldl (λ h kv, im_insert kv.1 kv.2 h)
             [("accept", CONTENT_TYPE_JSON +:+ ", " +:+ CONTENT_TYPE_SSE); (CONTENT_TYPE, CONTENT_TYPE_JSON)] headers)
          auth "" "" true false None).
Definition prepare_headers (t : HttpClient) : Headers :=
  let h := match hc_auth t with Some apply => apply (hc_headers t) | None => hc_headers t end in
  let h := if str_is_empty (hc_session_id t) then h else im_insert MCP_SESSION_ID (hc_session_id t) h in
  if str_is_empty (hc_version t) then h else im_insert MCP_PROTOCOL_VERSION (hc_version t) h.
Definition hc_with_get (g : option nat) (t : HttpClient) : HttpClient :=
  mkHttpClient (hc_headers t) (hc_auth t) (hc_session_id t) (hc_version t) (hc_running t) (hc_callback t) g.
Definition hc_with_version (v : string) (t : HttpClient) : HttpClient :=
  mkHttpClient (hc_headers t) (hc_auth t) (hc_session_id t) v (hc_running t) (hc_callback t) (hc_get t).
Definition hc_with_session (id : string) (t : HttpClient) : HttpClient :=
  mkHttpClient (hc_headers t) (hc_auth t) id (hc_version t) (hc_running t) (hc_callback t) (hc_get t).
Definition hc_with_callback (b : bool) (t : HttpClient) : HttpClient :=
  mkHttpClient (hc_headers t) (hc_auth t) (hc_session_id t) (hc_version t) (hc_running t) b (hc_get t).

(** [apply_headers]: invalid headers are skipped; names go in lower case. *)
Definition wire_headers `{!HttpLib} (h : Headers) : Headers :=
  (λ kv : string * string, (to_lowercase kv.1, kv.2)) <$> filter (λ kv : string * string, header_valid kv.1 kv.2 = true) h.

(** A task of the transport: [do_post] of a message, or the GET stream
    ([po_get]).  The headers are those of the moment it starts. *)
Inductive PostState := Queued | Sent (r : HttpRequest) | Reading (p : SseParser) | Done.
Record Post := mkPost {
  po_get : bool; po_body : string; po_request_id : option RequestId; po_method : option string; po_state : PostState
}.
Definition po_with_state (s : PostState) (p : Post) : Post :=
  mkPost (po_get p) (po_body p) (po_request_id p) (po_method p) s.
Definition po_init (p : Post) : bool := bool_decide (po_method p = Some INITIALIZE).

(** The client object: [cl_open] while it has a session, [cl_started] its flag
    [initialized], [cl_pre] the callbacks set before there is a session. *)
Record Client := mkClient {
  cl_name : string; cl_version : string; cl_session : ClientSession; cl_http : HttpClient; cl_posts : list Post;
  cl_open : bool; cl_started : bool; cl_pre : ClientApp
}.
Definition client_new (name version : string) (t : HttpClient) : Client :=
  mkClient name version (session_new no_callbacks) t [] false false no_callbacks.
Definition cl_with_session (s : ClientSession) (c : Client) : Client :=
  mkClient (cl_name c) (cl_version c) s (cl_http c) (cl_posts c) (cl_open c) (cl_started c) (cl_pre c).
Definition cl_with_http (t : HttpClient) (c : Client) : Client :=
  mkClient (cl_name c) (cl_version c) (cl_session c) t (cl_posts c) (cl_open c) (cl_started c) (cl_pre c).
Definition cl_with_posts (l : list Post) (c : Client) : Client :=
  mkClient (cl_name c) (cl_version c) (cl_session c) (cl_http c) l (cl_open c) (cl_started c) (cl_pre c).
Definition on_cs (f : ClientSession → ClientSession) (c : Client) : Client := cl_with_session (f (cl_session c)) c.
Definition set_post (i : nat) (s : PostState) (c : Client) : Client := cl_with_posts (alter (po_with_state s) i (cl_posts c)) c.

Section transport.
Context `{!JsonReader, !JsonText, !HttpLib}.

(** [start_get_stream] aborts the stream there was. *)
Definition start_get_stream (c : Client) : Client :=
  if str_is_empty (hc_session_id (cl_http c)) then c else
  let posts := match hc_get (cl_http c) with
               | Some g => alter (po_with_state Done) g (cl_posts c) | None => cl_posts c end in
  cl_with_posts (posts ++ [mkPost true "" None None Queued])
    (cl_with_http (hc_with_get (Some (length (cl_posts c))) (cl_http c)) c).
(** [ClientTransport::send_message]. *)
Definition client_send (m : Message) (c : Client) : outcome () * Client :=
  if negb (hc_running (cl_http c)) then (Err (ETransport "HttpClientService is not running"), c) else
  let c := match m with
           | MNotification n => if decide (not_method n = NOTIFICATION_INITIALIZED) then start_get_stream c else c
           | _ => c
           end in
  let '(id, method) := match m with MRequest r => (Some (req_id r), Some (req_method r)) | _ => (None, None) end in
  (Ok (), cl_with_posts (cl_posts c ++ [mkPost false (serialize_message m) id method Queued]) c).

(** [on_message_received]: [de_error] as for [answer_elicit]. *)
Definition client_received (now : Z) (de_error : string) (m : Message) (c : Client) : Client :=
  match m with
  | MRequest r =>
      let response :=
        match client_answer (cs_app (cl_session c)) de_error r with
        | Ok v => success (req_id r) v | Err e => JsonRpc.error (Some (req_id r)) e end in
      (client_send (MResponse response) c).2
  | MNotification n => on_cs (client_notified now n) c
  | MResponse r => on_cs (client_responded now r) c
  end.
(** [report_error] and [deliver]: without a callback nothing happens. *)
Definition report_error (now : Z) (id : option RequestId) (code : JsonRpcErrorCode) (m : string) (c : Client) : Client :=
  match id with
  | Some id =>
      if decide (id = Number 0) then c
      else if hc_callback (cl_http c) then
        client_received now "" (MResponse (JsonRpc.error (Some id) (rpc_error (error_code code) m))) c
      else c
  | None => c
  end.
Definition extract_version (m : Message) (c : Client) : Client :=
  match m with
  | MResponse r =>
      match (v ← res_result r; vget "protocolVersion" v ≫= as_str) with
      | Some v => cl_with_http (hc_with_version v (cl_http c)) c
      | None => c
      end
  | _ => c
  end.
Definition client_deliver (now : Z) (de_error : string) (m : Message) (is_initialization : bool) (c : Client) : Client :=
  let c := if is_initialization then extract_version m c else c in
  if hc_callback (cl_http c) then client_received now de_error m c else c.
Definition extract_session (headers : Headers) (c : Client) : Client :=
  match aget MCP_SESSION_ID headers with
  | Some v => if str_is_empty v then c else cl_with_http (hc_with_session v (cl_http c)) c
  | None => c
  end.

(** [do_post] and the GET task from their start: the request they send. *)
Definition start_post (i : nat) (p : Post) (c : Client) : Client :=
  set_post i (Sent (mkHttpRequest (if po_get p then "GET" else "POST") (wire_headers (prepare_headers (cl_http c))) (po_body p))) c.

(** What the connection gives: no answer, an answer with its body at once, or an
    answer whose body is read in chunks. *)
Inductive PostAnswer :=
| NoAnswer (e : string)
| Answer (status : Z) (headers : Headers) (body : result string string).
(** The text of a type error of the body: see [de_error]. *)
Definition take_answer (now : Z) (de_error parse_text : string) (i : nat) (p : Post) (a : PostAnswer) (c : Client) : Client :=
  let c := set_post i Done c in
  let report := report_error now (po_request_id p) in
  match a with
  | NoAnswer e => if po_get p then c else report InternalError ("HTTP request failed: " +:+ e) c
  | Answer status headers body =>
      if po_get p then
        if ((200 <=? status) && (status <? 300))%Z then set_post i (Reading parser_new) c else c
      else if (status =? 202)%Z then c
      else if (status =? 404)%Z then report InvalidRequest "Session terminated" c
      else if negb ((200 <=? status) && (status <? 300))%Z then report InvalidRequest ("HTTP error: " +:+ pretty status) c
      else
        let c := if po_init p then extract_session headers c else c in
        match aget CONTENT_TYPE headers with
        | Some ct =>
            if str_contains CONTENT_TYPE_JSON ct then
              match body with
              | Err e => report InternalError ("HTTP request failed: " +:+ e) c
              | Ok text =>
                  match parse_message text with
                  | Ok m => client_deliver now de_error m (po_init p) c
                  | Err _ => report InternalError ("Failed to parse response: " +:+ parse_text) c
                  end
              end
            else if str_contains CONTENT_TYPE_SSE ct then set_post i (Reading parser_new) c
            else report InternalError ("Unexpected content type: " +:+ ct) c
        | None => report InternalError "Unexpected content type: <missing>" c
        end
  end.

(** [handle_sse_event]. *)
Definition handle_event (now : Z) (de_error : string) (init : bool) (ev : SseEvent) (c : Client) : option bool * Client :=
  if decide (default "message" (ev_event ev) = "message") then
    match parse_message (ev_data ev) with
    | Ok m => (Some (is_response m), client_deliver now de_error m init c)
    | Err _ => (None, c)
    end
  else (None, c).
(** The events of a chunk, up to the response that ends a POST. *)
Fixpoint handle_events (now : Z) (de_error : string) (p : Post) (evs : list SseEvent) (c : Client) : bool * Client :=
  match evs with
  | [] => (false, c)
  | ev :: evs =>
      let '(o, c) := handle_event now de_error (po_init p) ev c in
      if bool_decide (o = Some true) && negb (po_get p) then (true, c) else handle_events now de_error p evs c
  end.
(** A chunk of the body; the end of the body; an error ends it without more. *)
Definition post_chunk (now : Z) (de_error : string) (i : nat) (p : Post) (parser : SseParser) (chunk : string) (c : Client) : option Client :=
  '(evs, parser) ← feed parser chunk;
  let '(stop, c) := handle_events now de_error p evs c in
  Some (set_post i (if stop then Done else Reading parser) c).
Definition post_end (now : Z) (de_error : string) (i : nat) (p : Post) (parser : SseParser) (c : Client) : Client :=
  let c := set_post i Done c in
  match (Sse.finish parser).1 with
  | Some ev => (handle_event now de_error (po_init p) ev c).2
  | None => c
  end.

(** ** Requests of the session *)

(** [send_request_raw] up to its wait. *)
Definition start_call (now : Z) (method : string) (params : option Value) (progress : option nat) (c : Client)
    : outcome (RequestId * nat) * Client :=
  let '(id, ch, p) := register progress (cs_pending (cl_session c)) in
  let c := on_cs (cs_with_pending p) c in
  let params := match progress with Some _ => inject_progress_token params (token_of_id id) | None => params end in
  match client_send (MRequest (request_new id method params)) c with
  | (Ok _, c) => (Ok (id, ch), c)
  | (Err e, c) =>
      (Err (ERpc (internal_error ("Transport error: " +:+ error_message e))),
       on_cs (λ s, cs_with_pending (pending_remove now id (cs_pending s)) s) c)
  end.
Definition client_notify (method : string) (params : option Value) (c : Client) : outcome () * Client :=
  client_send (MNotification (notification_new method params)) c.

(** ** client/mod.rs *)

(** [initialize] up to its wait: [connect] opens nothing for HTTP. *)
Definition initialize_request (c : Client) : InitializeRequestParams :=
  mkInitializeParams LATEST_PROTOCOL_VERSION (build_client_capabilities (cs_app (cl_session c)))
    (implementation_new (if str_is_empty (cl_name c) then DEFAULT_CLIENT_NAME else cl_name c)
       (if str_is_empty (cl_version c) then DEFAULT_VERSION else cl_version c)) None.
Definition start_initialize (now : Z) (c : Client) : outcome (RequestId * nat) * Client :=
  if cl_started c then (Err EAlreadyInitialized, c) else
  let c := mkClient (cl_name c) (cl_version c) (session_new (cl_pre c)) (hc_with_callback true (cl_http c)) (cl_posts c)
             true true no_callbacks in
  start_call now INITIALIZE (Some (enc c_initialize_params (initialize_request c))) None c.
(** Behind the wait. *)
Definition end_initialize (de_error : string) (r : outcome Value) (c : Client) : outcome InitializeResult * Client :=
  match typed_result c_initialize_result INITIALIZE de_error r with
  | Err e => (Err e, c)
  | Ok result =>
      if negb (is_supported_protocol_version (ir_protocol_version result)) then
        (Err (EInvalidState ("Unsupported protocol version from the server: " +:+ ir_protocol_version result)), c)
      else
        let c := on_cs (cs_with_capabilities (ir_capabilities result)) c in
        match client_notify NOTIFICATION_INITIALIZED (Some (JObject [])) c with
        | (Err e, c) => (Err e, c)
        | (Ok _, c) => (Ok result, on_cs cs_mark_initialized c)
        end
  end.
(** The guard of every method, [session()]. *)
Definition client_session (c : Client) : outcome () :=
  if negb (cl_started c) then Err ENotInitialized
  else if negb (cl_open c) then Err (EInvalidState "client session is not created.") else Ok ().
Definition client_call (now : Z) (call : ClientCall) (progress : option nat) (c : Client) : outcome (RequestId * nat) * Client :=
  match client_session c with
  | Err e => (Err e, c)
  | Ok _ => start_call now (call_method call) (call_params call) progress c
  end.
(** [set_*_callback]: on the session, or kept for it. *)
Definition set_callbacks (f : ClientApp → ClientApp) (c : Client) : Client :=
  if cl_open c then on_cs (λ s, cs_with_app (f (cs_app s)) s) c
  else mkClient (cl_name c) (cl_version c) (cl_session c) (cl_http c) (cl_posts c) (cl_open c) (cl_started c) (f (cl_pre c)).

(** [ClientTransport::terminate]. *)
Definition client_terminate (c : Client) : Client :=
  let t := cl_http c in
  let posts := match hc_get t with Some g => alter (po_with_state Done) g (cl_posts c) | None => cl_posts c end in
  cl_with_posts posts (cl_with_http (mkHttpClient (hc_headers t) (hc_auth t) "" "" false false None) c).
(** [close_gracefully]; the DELETE it sends is the second component. *)
Definition close_gracefully (c : Client) : Client * option HttpRequest :=
  if negb (cl_started c) then (c, None) else
  let delete := if str_is_empty (hc_session_id (cl_http c)) then None
                else Some (mkHttpRequest "DELETE" (wire_headers (prepare_headers (cl_http c))) "") in
  let c := client_terminate c in
  (mkClient (cl_name c) (cl_version c) (cl_session c) (cl_http c) (cl_posts c) false false (cl_pre c), delete).
End transport.
