(* ===== verification/McpEndToEnd.v ===== *)
(** A client and a server of MCP over HTTP: what [McpClient] sends is what
    [McpHttp] accepts, and the answer of the application reaches the call. *)
From S2P Require Import Prelude F64 RustMap RustStr Json Sse JsonRpc Canonical A4PUtil Serde McpTypes McpProtocol McpSchema McpServer McpSession McpHttp McpReplies McpManager McpClient.

(** * Every call is settled at most once *)

(** What the two sessions do with their table of outstanding requests. *)
Inductive pending_step (p : PendingRequests) : PendingRequests → Prop :=
| pend_register progress : pending_step p (register progress p).2
| pend_complete now id r : pending_step p (complete now id r p)
| pend_remove now id : pending_step p (pending_remove now id p)
| pend_fail e : pending_step p (fail_all e p).

(** Channels are settled at most once, and an outstanding one was not. *)
Record pending_ok (p : PendingRequests) : Prop := {
  pend_once : NoDup (pd_sent p).*1;
  pend_open : NoDup (pd_map p).*2;
  pend_apart id ch : (id, ch) ∈ pd_map p → ch ∉ (pd_sent p).*1;
  pend_known ch : ch ∈ (pd_map p).*2 ++ (pd_sent p).*1 → ch < pd_channels p
}.

Lemma aremove_subset (id : RequestId) (l : list (RequestId * nat)) e : e ∈ aremove id l → e ∈ l.
Proof. unfold aremove. by intros [_ Hin]%list_elem_of_filter. Qed.
Lemma aremove_NoDup (id : RequestId) (l : list (RequestId * nat)) : NoDup l.*2 → NoDup (aremove id l).*2.
Proof.
  unfold aremove. induction l as [|[i ch] l IH]; [done|]. cbn [fmap list_fmap snd]. intros [Hn Hl]%NoDup_cons.
  rewrite filter_cons. destruct (decide _); [|auto]. cbn [fmap list_fmap snd]. apply NoDup_cons. split; [|auto].
  intros (e & He & Hin)%list_elem_of_fmap. apply Hn. apply list_elem_of_fmap. exists e. split; [done|].
  by apply list_elem_of_filter in Hin as [_ Hin].
Qed.
Lemma fmap_snd_in (l : list (RequestId * nat)) id ch : (id, ch) ∈ l → ch ∈ l.*2.
Proof. intros Hin. apply list_elem_of_fmap. by exists (id, ch). Qed.

Lemma channel_owner (l : list (RequestId * nat)) i j ch : NoDup l.*2 → (i, ch) ∈ l → (j, ch) ∈ l → i = j.
Proof.
  intros Hn Hi Hj. apply list_elem_of_lookup in Hi as [a Ha]. apply list_elem_of_lookup in Hj as [b Hb].
  assert (a = b) as ->; [|congruence].
  eapply NoDup_lookup; [exact Hn|..]; rewrite list_lookup_fmap; [by rewrite Ha|by rewrite Hb].
Qed.

Lemma pending_remove_ok now id p : pending_ok p → pending_ok (pending_remove now id p).
Proof.
  intros [Ho Hn Ha Hk]. split; cbn; [done|by apply aremove_NoDup| |].
  - intros i ch Hin%aremove_subset. by eapply Ha.
  - intros ch [Hin|Hin]%elem_of_app; apply Hk, elem_of_app; [left|by right].
    apply list_elem_of_fmap in Hin as (e & -> & Hin%aremove_subset). apply list_elem_of_fmap. by exists e.
Qed.
Lemma pending_complete_ok now id r p : pending_ok p → pending_ok (complete now id r p).
Proof.
  intros Hp. unfold complete. cbn [retire_progress pd_map]. destruct (aget id (pd_map p)) as [ch|] eqn:Ech; [|by destruct Hp].
  destruct Hp as [Ho Hn Ha Hk]. apply aget_Some_elem in Ech as Hin.
  assert (Hgone : ch ∉ (aremove id (pd_map p)).*2).
  { intros (e & -> & Hin')%list_elem_of_fmap. destruct e as [i ch]. cbn [snd] in *. apply aremove_subset in Hin' as Hin2.
    assert (i = id) as ->.
    { by eapply channel_owner. }
    unfold aremove in Hin'. apply list_elem_of_filter in Hin' as [Hne _]. done. }
  split; cbn.
  - rewrite fmap_app. apply NoDup_app. split_and!; [done|intros x Hx ->%list_elem_of_singleton; by eapply Ha|apply NoDup_singleton].
  - by apply aremove_NoDup.
  - intros i ch' Hin'. rewrite fmap_app, not_elem_of_app. split; [by eapply Ha, aremove_subset|].
    intros ->%list_elem_of_singleton. by apply fmap_snd_in, Hgone in Hin'.
  - intros ch'. rewrite fmap_app, !elem_of_app. intros [Hin'|[Hin'| ->%list_elem_of_singleton]]; apply Hk, elem_of_app; [left|by right|left].
    + apply list_elem_of_fmap in Hin' as (e & -> & Hin'%aremove_subset). apply list_elem_of_fmap. by exists e.
    + by apply fmap_snd_in in Hin.
Qed.
Lemma pending_fail_ok e p : pending_ok p → pending_ok (fail_all e p).
Proof.
  intros [Ho Hn Ha Hk]. assert (Hs : (pd_sent (fail_all e p)).*1 = (pd_sent p).*1 ++ (pd_map p).*2).
  { cbn. rewrite fmap_app. f_equal. by rewrite <- list_fmap_compose. }
  split; [|constructor|intros i ch []%elem_of_nil|].
  - rewrite Hs. apply NoDup_app. split_and!; [done| |done]. intros ch Hch ([i c] & -> & Hin)%list_elem_of_fmap. by eapply Ha.
  - intros ch. rewrite Hs. cbn. rewrite elem_of_app. intros Hin. apply Hk, elem_of_app. tauto.
Qed.
Lemma im_insert_channels (id : RequestId) ch (l : list (RequestId * nat)) :
  NoDup l.*2 → ch ∉ l.*2 → NoDup (im_insert id ch l).*2 ∧ (∀ e, e ∈ im_insert id ch l → e = (id, ch) ∨ e ∈ l).
Proof.
  induction l as [|[i c] l IH]; cbn [im_insert]; intros Hn Hch.
  - split; [apply NoDup_singleton|]. intros e ->%list_elem_of_singleton. by left.
  - cbn [fmap list_fmap snd] in Hn, Hch. apply NoDup_cons in Hn as [Hc Hn]. apply not_elem_of_cons in Hch as [Hne Hch].
    destruct (decide (id = i)) as [->|Hd]; cbn [fmap list_fmap snd].
    + split; [by apply NoDup_cons|]. intros e [->|Hin]%elem_of_cons; [by left|right; by constructor].
    + destruct (IH Hn Hch) as [IH1 IH2]. split.
      * apply NoDup_cons. split; [|done]. intros ([j d] & Hj & Hin)%list_elem_of_fmap. cbn in Hj. subst d.
        apply IH2 in Hin as [[= -> ->]|Hin]; [done|]. by apply fmap_snd_in in Hin.
      * intros e [->|Hin]%elem_of_cons; [right; constructor|]. apply IH2 in Hin as [->|Hin]; [by left|right; by constructor].
Qed.
Lemma pending_register_ok progress p : pending_ok p → pending_ok (register progress p).2.
Proof.
  intros [Ho Hn Ha Hk]. assert (Hnew : pd_channels p ∉ (pd_map p).*2 ∧ pd_channels p ∉ (pd_sent p).*1).
  { split; intros Hin; [assert (pd_channels p < pd_channels p) by (apply Hk, elem_of_app; by left)|
      assert (pd_channels p < pd_channels p) by (apply Hk, elem_of_app; by right)]; lia. }
  destruct (im_insert_channels (Number (pd_next_id p)) (pd_channels p) (pd_map p) Hn (proj1 Hnew)) as [Hd Hin'].
  split; cbn; [done|done| |].
  - intros id ch [[= -> ->]|Hin]%Hin'; [apply Hnew|by eapply Ha].
  - intros ch [(e & -> & Hin)%list_elem_of_fmap|Hin]%elem_of_app.
    + apply Hin' in Hin as [->|Hin]; [cbn; lia|]. destruct e as [i c]. apply fmap_snd_in in Hin. cbn [snd].
      assert (c < pd_channels p) by (apply Hk, elem_of_app; by left). lia.
    + assert (ch < pd_channels p) by (apply Hk, elem_of_app; by right). lia.
Qed.
Lemma pending_new_ok : pending_ok pending_new.
Proof. split; [constructor|constructor|intros id ch []%elem_of_nil|intros ch []%elem_of_nil]. Qed.
Lemma pending_steps_ok p : rtc pending_step pending_new p → pending_ok p.
Proof.
  intros Hr. remember pending_new as p0 eqn:E. assert (H0 : pending_ok p0) by (subst; apply pending_new_ok). clear E.
  induction Hr as [p|p1 p2 p3 Hs Hr IH]; [done|]. apply IH. destruct Hs;
    [by apply pending_register_ok|by apply pending_complete_ok|by apply pending_remove_ok|by apply pending_fail_ok].
Qed.

Section client.
Context `{!JsonReader, !JsonText, !HttpLib, !SchemaLib}.

(** What happens to a client: calls of its interface, and what its tasks do. *)
Inductive client_step (c : Client) : Client → Prop :=
| client_calls now call progress : client_step c (client_call now call progress c).2
| client_waits now id a : client_step c (on_cs (λ s, cs_with_pending (await_response now id a (cs_pending s)).2 s) c)
| client_lists de_error r : client_step c (on_cs (λ s, (list_tools_result de_error r s).2) c)
| client_starts now : client_step c (start_initialize now c).2
| client_started de_error r : client_step c (end_initialize de_error r c).2
| client_notifies method params : client_step c (client_notify method params c).2
| client_sets f : client_step c (set_callbacks f c)
| client_closes : client_step c (close_gracefully c).1
| client_lost reason : client_step c (on_cs (client_disconnected reason) c)
| post_starts i p : cl_posts c !! i = Some p → po_state p = Queued → client_step c (start_post i p c)
| post_answers now de_error parse_text i p r a :
    cl_posts c !! i = Some p → po_state p = Sent r → client_step c (take_answer now de_error parse_text i p a c)
| post_reads now de_error i p parser chunk c' :
    cl_posts c !! i = Some p → po_state p = Reading parser → post_chunk now de_error i p parser chunk c = Some c' →
    client_step c c'
| post_ends now de_error i p parser :
    cl_posts c !! i = Some p → po_state p = Reading parser → client_step c (post_end now de_error i p parser c).

Definition pending_of (c : Client) : PendingRequests := cs_pending (cl_session c).

Lemma client_send_session m c : cl_session (client_send m c).2 = cl_session c.
Proof.
  unfold client_send. destruct (negb _); [done|]. destruct m as [r|n|r]; [done| |done].
  case_decide; [|done]. unfold start_get_stream. by destruct (str_is_empty _).
Qed.
Lemma responded_pending now r s : rtc pending_step (cs_pending s) (cs_pending (client_responded now r s)).
Proof. unfold client_responded. destruct (res_id r); [|done]. apply rtc_once, pend_complete. Qed.
Lemma notified_pending now n s : cs_pending (client_notified now n s) = cs_pending s.
Proof.
  unfold client_notified. cbv zeta. destruct (decide (not_method n = NOTIFICATION_PROGRESS)).
  - destruct (dec _ _); [|done]. by destruct (progress_callback _ _ _).
  - destruct (decide (not_method n = NOTIFICATION_MESSAGE)); [|done]. destruct (dec _ _); [|done]. by destruct (ca_logging _).
Qed.
Lemma received_pending now de m c : rtc pending_step (pending_of c) (pending_of (client_received now de m c)).
Proof.
  unfold pending_of. destruct m as [r|n|r]; cbn [client_received].
  - by rewrite client_send_session.
  - unfold on_cs. cbn [cl_session cl_with_session]. by rewrite notified_pending.
  - apply responded_pending.
Qed.
Lemma report_pending now id code m c : rtc pending_step (pending_of c) (pending_of (report_error now id code m c)).
Proof.
  unfold report_error. destruct id as [id|]; [|done]. case_decide; [done|]. destruct (hc_callback _); [|done]. apply received_pending.
Qed.
Lemma extract_version_session m c : cl_session (extract_version m c) = cl_session c.
Proof. unfold extract_version. destruct m as [|?|r]; [done..|]. by destruct (res_result r ≫= _). Qed.
Lemma extract_session_session h c : cl_session (extract_session h c) = cl_session c.
Proof. unfold extract_session. destruct (aget _ _) as [v|]; [|done]. by destruct (str_is_empty v). Qed.
Lemma deliver_pending now de m init c : rtc pending_step (pending_of c) (pending_of (client_deliver now de m init c)).
Proof.
  unfold client_deliver. assert (He : pending_of (if init then extract_version m c else c) = pending_of c).
  { unfold pending_of. destruct init; [|done]. by rewrite extract_version_session. }
  destruct (hc_callback _); rewrite <- He; [apply received_pending|done].
Qed.
Lemma take_answer_pending now de pt i p a c : rtc pending_step (pending_of c) (pending_of (take_answer now de pt i p a c)).
Proof.
  unfold take_answer. change (pending_of c) with (pending_of (set_post i Done c)). generalize (set_post i Done c). intros c1.
  destruct a as [e|status headers body].
  - destruct (po_get p); [done|]. apply report_pending.
  - destruct (po_get p); [by destruct (_ && _)|]. destruct (status =? 202)%Z; [done|]. destruct (status =? 404)%Z; [apply report_pending|].
    destruct (negb _); [apply report_pending|].
    assert (He : pending_of (if po_init p then extract_session headers c1 else c1) = pending_of c1).
    { unfold pending_of. destruct (po_init p); [|done]. by rewrite extract_session_session. }
    rewrite <- He. destruct (aget _ _) as [ct|]; [|apply report_pending]. destruct (str_contains CONTENT_TYPE_JSON ct).
    + destruct body as [text|e]; [|apply report_pending]. destruct (parse_message text); [apply deliver_pending|apply report_pending].
    + destruct (str_contains _ ct); [done|apply report_pending].
Qed.
Lemma event_pending now de init ev c : rtc pending_step (pending_of c) (pending_of (handle_event now de init ev c).2).
Proof. unfold handle_event. case_decide; [|done]. destruct (parse_message _); [apply deliver_pending|done]. Qed.
Lemma events_pending now de p evs c : rtc pending_step (pending_of c) (pending_of (handle_events now de p evs c).2).
Proof.
  revert c. induction evs as [|ev evs IH]; intros c; [done|]. cbn [handle_events].
  pose proof (event_pending now de (po_init p) ev c) as He. destruct (handle_event _ _ _ _ _) as [o c1].
  destruct (_ && _); [done|]. etrans; [exact He|apply IH].
Qed.

Lemma start_call_pending now method params progress c :
  rtc pending_step (pending_of c) (pending_of (start_call now method params progress c).2).
Proof.
  unfold start_call. pose proof (pend_register (pending_of c) progress) as Hr. unfold pending_of in *.
  destruct (register progress (cs_pending (cl_session c))) as [[id ch] p]. cbn [snd] in Hr.
  match goal with |- context [client_send ?m ?c] => pose proof (client_send_session m c) as Hs; destruct (client_send m c) as [[u|e] c1] end;
    cbn [snd] in *; unfold on_cs; cbn [cl_session cl_with_session]; rewrite Hs; cbn.
  - by apply rtc_once.
  - eapply rtc_l; [exact Hr|]. apply rtc_once, pend_remove.
Qed.

Lemma client_step_pending c c' :
  client_step c c' → rtc pending_step (pending_of c) (pending_of c') ∨ rtc pending_step pending_new (pending_of c').
Proof.
  intros [now call progress|now id a|de r|now|de r|method ps|f| |reason|i p Hi Hp|now de pt i p r a Hi Hp
    |now de i p parser chunk c1 Hi Hp Hc|now de i p parser Hi Hp].
  - left. unfold client_call. destruct (client_session c); [apply start_call_pending|done].
  - left. unfold pending_of, on_cs. cbn [cl_session cl_with_session cs_with_pending cs_pending].
    destruct a as [[v|e]| |ms]; cbn [await_response snd]; [done|done|apply rtc_once, pend_remove..].
  - left. unfold pending_of, on_cs, list_tools_result. by destruct (typed_result _ _ _ _).
  - unfold start_initialize. destruct (cl_started c); [by left|right].
    match goal with |- context [start_call ?a ?b ?p ?d ?e] => exact (start_call_pending a b p d e) end.
  - left. unfold end_initialize. destruct (typed_result _ _ _ _) as [v|e]; [|done]. destruct (negb _); [done|].
    unfold client_notify. match goal with |- context [client_send ?m ?c] => pose proof (client_send_session m c) as Hs; destruct (client_send m c) as [[u|e] c1] end;
      unfold pending_of; cbn [snd on_cs cl_session cl_with_session cs_mark_initialized cs_pending] in *; by rewrite Hs.
  - left. unfold pending_of, client_notify. by rewrite client_send_session.
  - left. unfold set_callbacks. by destruct (cl_open c).
  - left. unfold close_gracefully. by destruct (negb _).
  - left. apply rtc_once, pend_fail.
  - by left.
  - left. apply take_answer_pending.
  - left. unfold post_chunk in Hc. destruct (feed parser chunk) as [[evs parser']|]; [|done]. cbn in Hc.
    pose proof (events_pending now de p evs c) as He. destruct (handle_events now de p evs c) as [stop c2]. by injection Hc as <-.
  - left. unfold post_end. destruct (Sse.finish parser) as [[ev|] parser']; cbn [fst]; [|done].
    apply (event_pending now de (po_init p) ev (set_post i Done c)).
Qed.
Lemma client_pending name version t c : rtc client_step (client_new name version t) c → rtc pending_step pending_new (pending_of c).
Proof.
  intros Hr. remember (client_new name version t) as c0 eqn:E.
  assert (Hnew : rtc pending_step pending_new (pending_of c0)) by (by subst). clear E.
  induction Hr as [c|c1 c2 c3 Hs Hr IH]; [done|]. apply IH. apply client_step_pending in Hs as [Hs|Hs]; [by etrans|done].
Qed.
End client.

(** C16: Whatever is called and whatever the network answers, in whatever order,
    the call of a client is settled at most once: no completion channel of its
    session was sent two results, and a request still outstanding was sent none.
    *)
Theorem calls_settled_once `{!JsonReader, !JsonText, !HttpLib, !SchemaLib} name version t c :
  rtc client_step (client_new name version t) c →
  NoDup (pd_sent (pending_of c)).*1 ∧ NoDup (pd_map (pending_of c)).*2 ∧
  ∀ id ch, (id, ch) ∈ pd_map (pending_of c) → ch ∉ (pd_sent (pending_of c)).*1.
Proof. intros [Ho Hn Ha _]%client_pending%pending_steps_ok. by split_and!. Qed.

(** * A call over HTTP *)

(** reqwest takes header names of letters and dashes with printable values. *)
Class HttpLibLaws `{!HttpLib} : Prop :=
  header_printable (k v : string) :
    k ≠ "" → all_chars (λ a, byte_in 97 122 a || byte_in 45 45 a) k = true → all_chars (byte_in 32 126) v = true →
    header_valid k v = true.

Definition default_headers : Headers :=
  [("accept", CONTENT_TYPE_JSON +:+ ", " +:+ CONTENT_TYPE_SSE); (CONTENT_TYPE, CONTENT_TYPE_JSON)].
(** A transport without extra headers in the session [sid]. *)
Record connected (sid : string) (t : HttpClient) : Prop := {
  conn_headers : hc_headers t = default_headers;
  conn_auth : hc_auth t = None;
  conn_session : hc_session_id t = sid;
  conn_version : hc_version t = "" ∨ is_supported_protocol_version (hc_version t) = true
}.

Lemma visible_printable s : is_visible_ascii s = true → all_chars (byte_in 32 126) s = true.
Proof.
  apply all_chars_impl. intros a. rewrite !byte_in_spec. lia.
Qed.
Lemma supported_version v : is_supported_protocol_version v = true → v = "2025-03-26" ∨ v = "2025-06-18".
Proof.
  unfold is_supported_protocol_version. rewrite bool_decide_eq_true. unfold SUPPORTED_PROTOCOL_VERSIONS.
  intros [->|[->|[]%elem_of_nil]%elem_of_cons]%elem_of_cons; auto.
Qed.

Section headers.
Context `{!HttpLib, !HttpLibLaws}.
Lemma wire_headers_id h :
  Forall (λ kv : string * string, header_valid kv.1 kv.2 = true ∧ to_lowercase kv.1 = kv.1) h → wire_headers h = h.
Proof.
  unfold wire_headers. induction 1 as [|[k v] h [Hv Hl] Hh IH]; [done|]. cbn [fst snd] in *.
  rewrite filter_cons, decide_True by done. rewrite fmap_cons, IH. cbn [fst snd]. by rewrite Hl.
Qed.
(** What a connected client sends. *)
Lemma connected_headers sid t (r : HttpRequest) :
  connected sid t → sid ≠ "" → is_visible_ascii sid = true → hq_headers r = wire_headers (prepare_headers t) →
  header "accept" r = Some (CONTENT_TYPE_JSON +:+ ", " +:+ CONTENT_TYPE_SSE) ∧
  header CONTENT_TYPE r = Some CONTENT_TYPE_JSON ∧ header MCP_SESSION_ID r = Some sid ∧
  is_supported_protocol_version (default DEFAULT_PROTOCOL_VERSION (header MCP_PROTOCOL_VERSION r)) = true.
Proof.
  intros [Hh Ha Hs Hv] Hne Hvis%visible_printable Hr. unfold header. rewrite Hr.
  assert (Hp : prepare_headers t = default_headers ++ [(MCP_SESSION_ID, sid)] ++
    (if str_is_empty (hc_version t) then [] else [(MCP_PROTOCOL_VERSION, hc_version t)])).
  { unfold prepare_headers. rewrite Ha, Hh, Hs. destruct (str_is_empty sid) eqn:E; [by destruct sid|].
    by destruct (str_is_empty (hc_version t)). }
  rewrite wire_headers_id, Hp; [destruct Hv as [->|Hv]; [by split_and!|]|].
  - apply supported_version in Hv as [->| ->]; by split_and!.
  - rewrite Hp. repeat constructor; cbn [fst snd];
      [by apply header_printable|by apply header_printable|by apply header_printable|].
    destruct Hv as [->|Hv]; [constructor|]. apply supported_version in Hv as [->| ->]; repeat constructor; by apply header_printable.
Qed.
End headers.

Section call.
Context `{!JsonReader, !JsonText, !HttpLib, !HttpLibLaws}.
Hypothesis reader_inverts : ∀ v, json_from_str (json_text v) = Ok v.
Variable allowed : Request → answer → Prop.
Hypothesis codes_fit : ∀ r e, allowed r (Err e) → in_i64 (code e).

(** The server takes what a connected client sends. *)
Lemma post_accepted sid t m w :
  connected sid t → sid ≠ "" → is_visible_ascii sid = true → sendable m →
  tr_stateless (w_transport w) = false → tr_terminated (w_transport w) = false → tr_session_id (w_transport w) = sid →
  transport_handle true (mkHttpRequest "POST" (wire_headers (prepare_headers t)) (serialize_message m)) w =
  accept_messages [m] false w.
Proof.
  intros Hc Hne Hvis Hm Hst Hte Hid. set (r := mkHttpRequest _ _ _).
  destruct (connected_headers sid t r Hc Hne Hvis eq_refl) as (Hacc & Hct & Hsid & Hver).
  unfold transport_handle. rewrite Hst, Hte. cbn [andb hq_method r]. rewrite decide_True by done.
  unfold handle_post, validate_post_headers. cbn [negb]. rewrite Hacc, Hct. cbn [from_option default].
  replace (str_contains CONTENT_TYPE_JSON _) with true by done. replace (str_contains CONTENT_TYPE_SSE _) with true by done.
  replace (str_contains CONTENT_TYPE_JSON CONTENT_TYPE_JSON) with true by done.
  replace (if tr_json (w_transport w) && negb true then _ else _) with (None : option HttpReply) by (by destruct (tr_json (w_transport w))).
  cbn [hq_body r]. rewrite (payload_written reader_inverts m Hm). unfold serialize_message. rewrite reader_inverts.
  unfold validate_session_id, validate_protocol_version. rewrite Hid, Hsid, Hver.
  destruct (is_initialization (to_value m)); [done|]. destruct (str_is_empty sid) eqn:E; [by destruct sid|].
  cbn [orb]. by rewrite decide_True by done.
Qed.

(** A task keeps its messages. *)
Lemma step_messages quiet w w' i t :
  world_step allowed quiet w w' → w_tasks w !! i = Some t →
  ∃ t', w_tasks w' !! i = Some t' ∧ tk_messages t' = tk_messages t.
Proof.
  assert (Hset : ∀ w1 j tj t', w_tasks w1 = w_tasks w → w_tasks w !! j = Some tj → tk_messages t' = tk_messages tj →
    w_tasks w !! i = Some t → ∃ t'', w_tasks (set_task j t' w1) !! i = Some t'' ∧ tk_messages t'' = tk_messages t).
  { intros w1 j tj t' Ht Hj Hm Hi. cbn [set_task with_tasks w_tasks]. rewrite Ht. destruct (decide (i = j)) as [->|Hne].
    - rewrite Hi in Hj. injection Hj as <-. exists t'. by rewrite list_lookup_insert_eq by (by eapply lookup_lt_Some).
    - exists t. by rewrite list_lookup_insert_ne. }
  intros Hst Hi. inversion Hst as [callback r Hc Hb|now j tj m ctx Hj Hrun Hm Hq|j tj r ctx a Hj Hrun Hm Ha|meth ps|now meth ps Hreq
    |now id a|k s Hk|g s Hg|c]; subst.
  - destruct (transport_handle_kept callback r w) as [_ [->|[l ->]]]; [by exists t|]. exists t. by rewrite (lookup_app_l_Some _ _ _ _ Hi).
  - unfold run_message. destruct (on_message_received now m ctx w) as [started w1] eqn:E. apply received_kept in E as (_ & Ht & _).
    by eapply Hset.
  - eapply (Hset _ j tj); [|done..]. by match goal with |- context [send_answer ?i ?a ?c ?w] => destruct (send_answer_session i a c w) end.
  - unfold send_notification. rewrite send_message_tasks. by exists t.
  - destruct (start_request_kept now meth ps w) as (_ & -> & _). by exists t.
  - by exists t.
  - by exists t.
  - by exists t.
  - by exists t.
Qed.
Lemma reachable_messages quiet w w' i t :
  world_reachable allowed quiet w w' → w_tasks w !! i = Some t →
  ∃ t', w_tasks w' !! i = Some t' ∧ tk_messages t' = tk_messages t.
Proof.
  induction 1 as [|w1 w2 Hr IH Hst]; intros Hi; [by exists t|]. destruct (IH Hi) as (t1 & Hi1 & <-). by eapply step_messages.
Qed.
Lemma reachable_trans quiet w0 w1 w2 :
  world_reachable allowed quiet w0 w1 → world_reachable allowed quiet w1 w2 → world_reachable allowed quiet w0 w2.
Proof. intros H01. induction 1 as [|w2 w3 Hr IH Hst]; [done|]. by eapply world_next. Qed.

(** Responses can be sent. *)
Lemma answers_sendable r res : id_ok (req_id r) → answers allowed r res → sendable (MResponse res) ∧ res_id res = Some (req_id r).
Proof.
  intros Hid [v Hm|Hm|a Hm Ha]; cbn.
  - split_and!; eauto.
  - split_and!; eauto. done.
  - destruct a as [v|e]; cbn; split_and!; eauto.
Qed.

(** A sink keeps its kind. *)
Definition sink_kind (l l' : list Sink) : Prop :=
  ∀ k s, l !! k = Some s → ∃ s', l' !! k = Some s' ∧ sk_batch s' = sk_batch s ∧ sk_json s' = sk_json s.
Lemma shape_kind l l' : sinks_shape l l' → sink_kind l l'.
Proof. intros Hs k s Hk. destruct (Hs k s Hk) as (s' & Hk' & Hb & Hj & _). eauto. Qed.
Lemma transport_handle_sinks callback r w : ∃ extra, w_sinks (transport_handle callback r w).2 = w_sinks w ++ extra.
Proof.
  assert (Hsame : ∃ extra, w_sinks w = w_sinks w ++ extra) by (exists []; by rewrite app_nil_r).
  unfold transport_handle. destruct (_ && _); [done|]. destruct (tr_terminated _); [done|].
  case_decide; [|case_decide; [|case_decide; [|done]]].
  - unfold handle_post. destruct callback; cbn [negb]; [|done]. destruct (validate_post_headers _ _); [done|].
    destruct (json_from_str _); [|done]. destruct (validate_session_id _ _ _); [done|].
    destruct (validate_protocol_version _ _); [done|]. unfold accept_messages, new_context, deliver.
    destruct (parse_payload _) as [[m|ms]|e]; [destruct (_ =? 0)%nat; [done|by eexists]..|]. by destruct (has_method_error e).
  - unfold handle_get. destruct (negb _); [done|]. destruct (_ && _); [done|].
    destruct (validate_protocol_version _ _); [done|]. by destruct (stream_open _ _).
  - unfold handle_delete. destruct (str_is_empty _); [done|]. case_decide; [|done]. unfold terminate.
    destruct (tr_get_stream _) as [g|]; [destruct (w_streams w !! g) as [st|]; [destruct (sr_closed st)|]|]; done.
Qed.
Lemma step_sinks quiet w w' : world_step allowed quiet w w' → sink_kind (w_sinks w) (w_sinks w').
Proof.
  intros Hst. inversion Hst as [callback r Hc Hb|now j tj m ctx Hj Hrun Hm Hq|j tj r ctx a Hj Hrun Hm Ha|meth ps|now meth ps Hreq
    |now id a|k s Hk|g s Hg|c]; subst; [|apply shape_kind..| | |].
  - destruct (transport_handle_sinks callback r w) as [extra ->]. intros k s Hk. exists s. by rewrite (lookup_app_l_Some _ _ _ _ Hk).
  - unfold run_message. pose proof (received_shape now m ctx w) as Hs. by destruct (on_message_received now m ctx w).
  - apply send_answer_shape.
  - apply send_message_shape.
  - unfold start_request. destruct (register _ _) as [[id ch] p].
    match goal with |- context [send_message ?a ?b ?c] => pose proof (send_message_shape a b c); by destruct (send_message a b c) as [[] ?] end.
  - done.
  - intros k' s' Hk'. cbn [w_sinks with_sinks]. destruct (decide (k' = k)) as [->|Hne].
    + rewrite Hk in Hk'. injection Hk' as <-. eexists. by rewrite list_lookup_insert_eq by (by eapply lookup_lt_Some).
    + exists s'. by rewrite list_lookup_insert_ne.
  - intros k' s' Hk'. by exists s'.
  - intros k' s' Hk'. by exists s'.
Qed.
Lemma reachable_sinks quiet w w' : world_reachable allowed quiet w w' → sink_kind (w_sinks w) (w_sinks w').
Proof.
  induction 1 as [|w1 w2 Hr IH Hst]; intros k s Hk; [by exists s|]. destruct (IH k s Hk) as (s1 & Hk1 & <- & <-).
  by eapply step_sinks.
Qed.
Lemma server_world_ok cfg id stateless w0 w :
  new_http_session cfg id stateless = Ok w0 → world_reachable allowed true w0 w → world_ok allowed w.
Proof. intros Hnew. induction 1 as [|w1 w2 Hr IH Hs]; [by eapply new_session_ok|by eapply world_step_ok]. Qed.

(** The reply to a single request, whatever the session does meanwhile. *)
Lemma single_reply cfg id stateless w0 r w w1 w2 t :
  new_http_session cfg id stateless = Ok w0 → world_reachable allowed true w0 w1 →
  w1 = (accept_messages [MRequest r] false w).2 →
  tr_json (w_transport w) = true → world_reachable allowed true w1 w2 →
  w_tasks w2 !! length (w_tasks w) = Some t → tk_pos t = 1 →
  ∃ s res, w_sinks w2 !! length (w_sinks w) = Some s ∧ sk_reply s = Some (response_to_value res) ∧ answers allowed r res.
Proof.
  intros Hnew Hr1 Hacc Hj Hr2 Hi Hpos.
  pose proof (server_world_ok _ _ _ _ _ Hnew (reachable_trans _ _ _ _ Hr1 Hr2)) as Hok.
  assert (Ht1 : w_tasks w1 !! length (w_tasks w) = Some (mkTask [message_context (mkContext (tr_counter (w_transport w))
    (tr_session_id (w_transport w)) "" false false (Some (length (w_sinks w)))) (MRequest r)] 0 false)).
  { rewrite Hacc. unfold accept_messages. cbn. by rewrite lookup_app_r, Nat.sub_diag. }
  assert (Hs1 : w_sinks w1 !! length (w_sinks w) = Some (sink_json 1 false)).
  { rewrite Hacc. unfold accept_messages. cbn. by rewrite Hj, lookup_app_r, Nat.sub_diag. }
  destruct (reachable_messages _ _ _ _ _ Hr2 Ht1) as (t' & Hi' & Hm). rewrite Hi in Hi'. injection Hi' as <-. cbn [tk_messages] in Hm.
  destruct (reachable_sinks _ _ _ Hr2 _ _ Hs1) as (s & Hs & Hb & Hjs).
  pose proof (ok_sink _ _ _ (ok_tasks _ w2 Hok _ _ Hi)) as Hsink. unfold task_sink in Hsink. rewrite Hm, Hpos in Hsink. cbn in Hsink.
  destruct Hsink as (s' & Hs' & rs & Hrs & Hrep). rewrite Hs in Hs'. injection Hs' as <-. rewrite Hjs, Hb in Hrep. cbn in Hrep.
  apply Forall2_cons_inv_l in Hrs as (res & rs' & Hres & Hnil%Forall2_nil_inv_l & ->). subst rs'. by exists s, res.
Qed.

(** The client hands a response of the body to the call it is for. *)
Lemma answer_taken now de pt j p hs res id ch c :
  po_get p = false → hc_callback (cl_http c) = true → aget CONTENT_TYPE hs = Some CONTENT_TYPE_JSON →
  sendable (MResponse res) → res_id res = Some id → aget id (pd_map (pending_of c)) = Some ch →
  pd_sent (pending_of (take_answer now de pt j p (Answer 200 hs (Ok (json_text (response_to_value res)))) c)) =
  pd_sent (pending_of c) ++ [(ch, response_result res)].
Proof.
  intros Hg Hcb Hct Hs Hid Hch. unfold take_answer. rewrite Hg. cbn [Z.eqb Z.leb Z.ltb Z.compare andb negb Pos.eqb Pos.compare Pos.compare_cont].
  rewrite Hct. replace (str_contains CONTENT_TYPE_JSON CONTENT_TYPE_JSON) with true by done.
  assert (Hparse : parse_message (json_text (response_to_value res)) = Ok (MResponse res)).
  { unfold parse_message. rewrite reader_inverts. apply (classify_written (MResponse res) Hs). }
  rewrite Hparse. unfold client_deliver.
  set (c1 := if po_init p then extract_session hs (set_post j Done c) else set_post j Done c).
  assert (Hc1 : cl_session c1 = cl_session c ∧ hc_callback (cl_http c1) = true).
  { subst c1. destruct (po_init p); [|done]. rewrite extract_session_session. split; [done|].
    unfold extract_session. destruct (aget MCP_SESSION_ID hs) as [v|]; [destruct (str_is_empty v)|]; exact Hcb. }
  set (c2 := if po_init p then extract_version (MResponse res) c1 else c1).
  assert (Hc2 : cl_session c2 = cl_session c ∧ hc_callback (cl_http c2) = true).
  { subst c2. destruct (po_init p); [|done]. rewrite extract_version_session. split; [apply Hc1|].
    cbn [extract_version]. destruct (res_result res ≫= _); apply Hc1. }
  destruct Hc2 as [Hses ->]. cbn [client_received]. unfold pending_of, on_cs in *. cbn [cl_session cl_with_session].
  unfold client_responded. rewrite Hid, Hses. cbn [cs_with_pending cs_pending]. unfold complete.
  cbn [retire_progress pd_map]. by rewrite Hch.
Qed.
End call.

Section sent.
Context `{!JsonReader, !JsonText, !HttpLib}.

(** The request a call sends, and the task that sends it. *)
Definition call_request (method : string) (params : option Value) (progress : option nat) (c : Client) : Request :=
  let id := Number (pd_next_id (pending_of c)) in
  request_new id method (match progress with Some _ => inject_progress_token params (token_of_id id) | None => params end).
Lemma start_call_sent now method params progress id ch c c1 :
  start_call now method params progress c = (Ok (id, ch), c1) →
  let r := call_request method params progress c in
  id = req_id r ∧
  cl_posts c1 = cl_posts c ++ [mkPost false (serialize_message (MRequest r)) (Some id) (Some method) Queued] ∧
  aget id (pd_map (pending_of c1)) = Some ch.
Proof.
  unfold start_call. unfold register. cbv zeta. unfold client_send. destruct (negb _); [by intros [=]|].
  intros [= <- <- <-]. split_and!; [done|done|]. unfold pending_of. cbn. apply aget_im_insert_eq.
Qed.
End sent.

(** The transport of a session that was opened and not closed, in JSON mode. *)
Record live_session (sid : string) (t : Transport) : Prop := {
  live_running : tr_terminated t = false;
  live_id : tr_session_id t = sid;
  live_stateful : tr_stateless t = false;
  live_json : tr_json t = true
}.
Lemma new_session_visible cfg sid w0 : new_http_session cfg sid false = Ok w0 → sid ≠ "" → is_visible_ascii sid = true.
Proof.
  unfold new_http_session, transport_new. intros Hnew Hne. destruct (str_is_empty sid) eqn:E; [by destruct sid|].
  cbn [negb andb] in Hnew. by destruct (is_visible_ascii sid).
Qed.


(** * What is written is read back *)

#[export] Instance initialize_params_laws : CodecLaws c_initialize_params. Proof. codec. Qed.
#[export] Instance request_id_laws : CodecLaws c_request_id.
Proof. exact id_roundtrip. Qed.
#[export] Instance call_params_laws : CodecLaws c_call_params. Proof. codec. Qed.
#[export] Instance progress_params_laws : CodecLaws c_progress_params. Proof. codec. Qed.


(** * What both ends check *)

(** C28: A server sends a sampling request exactly when the session is stateful
    and initialized and the client, by the capability it advertised, would hand
    the request to its callback: the two ends make the same checks. *)
Theorem sampling_agreed `{!JsonText} capability p s :
  cc_sampling (client_capabilities s) = Some capability → ok c_create_message_params p →
  sampling_request p s = Ok (SAMPLING_CREATE_MESSAGE, Some (enc c_create_message_params p)) ↔
  ss_stateless s = false ∧ ss_initialized s = true ∧
  check_sampling capability (Some (enc c_create_message_params p)) = Ok p.
Proof.
  intros Hcap Hok. pose proof (dec_enc (c := c_create_message_params) p Hok) as Hdec.
  unfold sampling_request, check_can_request, check_sampling. rewrite Hcap.
  destruct (ss_stateless s); [by split; [|intros [? _]]|]. destruct (ss_initialized s); [|by split; [|intros (_ & ? & _)]].
  cbn [negb]. assert (∃ m, enc c_create_message_params p = JObject m) as [m Hm] by (by eexists).
  rewrite Hm in *. rewrite Hdec. cbn [ok_or].
  destruct (_ && negb (sa_tools capability)); [by split; [|intros (_ & _ & ?)]|].
  destruct (_ && negb (sa_context capability)); [by split; [|intros (_ & _ & ?)]|].
  destruct (validate_tool_use_result_messages (cp_messages p)) as [[]|e]; [by split|by split; [|intros (_ & _ & ?)]].
Qed.

(** The client gives a tool's result to its caller exactly when the server's
    value is such a result and, unless it reports an error, its structured
    content is an object that satisfies the output schema the server last listed
    for the tool. *)
Theorem tool_result_checked `{!SchemaLib, !JsonText} name de_error r s result :
  call_tool_result name de_error r s = Ok result ↔
  ∃ v, r = Ok v ∧ dec c_call_tool_result v = Some result ∧
    (ctr_is_error result = false → ∀ structured schema, ctr_structured_content result = Some structured →
       aget name (cs_schemas s) = Some schema → is_object structured = true ∧ schema_valid schema structured).
Proof.
  unfold call_tool_result, typed_result. rewrite bind_Ok. split.
  - intros (res & Hres & Hok). apply bind_Ok in Hres as (v & -> & Hd). unfold ok_or in Hd.
    destruct (dec _ v) as [res'|] eqn:Edec; [|done]. injection Hd as ->. destruct (ctr_is_error res) eqn:Ee.
    + injection Hok as ->. exists v. split_and!; [done..|congruence].
    + apply bind_Ok in Hok as ([] & Hval & [= ->]). exists v. split_and!; [done..|]. intros _ structured schema Hs Hsch.
      unfold validate_tool_result in Hval. rewrite Hs, Hsch in Hval. destruct (is_object structured); [|done].
      split; [done|]. unfold schema_valid. cbn [negb] in Hval. by destruct (validate schema structured).
  - intros (v & -> & Hd & Hval). exists result. split; [by rewrite Hd|]. destruct (ctr_is_error result); [done|].
    specialize (Hval eq_refl). unfold validate_tool_result.
    destruct (ctr_structured_content result) as [structured|]; [|done]. destruct (aget name (cs_schemas s)) as [schema|]; [|done].
    destruct (Hval structured schema eq_refl eq_refl) as [-> Hv]. cbn [negb]. unfold schema_valid in Hv.
    by destruct (validate schema structured).
Qed.

(** * Examples *)

#[local] Existing Instance toy_reader.
#[local] Existing Instance toy_text.
#[local] Instance toy_http : HttpLib := λ _ _, true.
#[local] Instance toy_http_laws : HttpLibLaws.
Proof. done. Qed.
#[local] Instance toy_schemas : SchemaLib := {| regex_new := λ _, Err "no patterns"; display_f64 := λ _, "" |}.

Lemma toy_reads v : json_from_str (json_text v) = Ok v.
Proof. unfold json_from_str, json_text, toy_reader, toy_text. by rewrite text_value_text. Qed.
Lemma toy_codes r e : toy_allowed r (Err e) → in_i64 (code e).
Proof. intros [[=]|[= ->]]. done. Qed.

(** A client in the session of the toy server. *)
Definition toy_client : Client :=
  mkClient "toy" "1.0" (session_new no_callbacks) (mkHttpClient default_headers None "s1" "2025-06-18" true true None) []
    true true no_callbacks.
Definition called : Client := (start_call 0 TOOLS_LIST (Some JNull) None toy_client).2.
Lemma toy_connected : connected "s1" (cl_http called).
Proof. split; [done..|]. right. by vm_compute. Qed.
Lemma opened_live : live_session "s1" (w_transport opened).
Proof. split; by vm_compute. Qed.


(** A handshake whose connection is lost. *)
Definition toy_transport : HttpClient := mkHttpClient default_headers None "" "" true false None.
Definition new_client : Client := client_new "toy" "1.0" toy_transport.
Definition asking : Client := (start_initialize 0 new_client).2.
Definition asking_post : Post := default (mkPost true "" None None Done) (cl_posts asking !! 0).
Definition waiting : Client := start_post 0 asking_post asking.
Definition waiting_post : Post := default (mkPost true "" None None Done) (cl_posts waiting !! 0).
Definition lost : Client := take_answer 0 "" "" 0 waiting_post (NoAnswer "reset") waiting.
Lemma toy_transport_new : http_client_new [] 1000 1000 None = Ok toy_transport.
Proof. reflexivity. Qed.
Lemma lost_reachable : rtc client_step new_client lost.
Proof.
  apply rtc_l with asking; [apply (client_starts new_client 0)|]. apply rtc_l with waiting; [apply (post_starts asking 0 asking_post); by vm_compute|].
  apply rtc_once. eapply (post_answers waiting 0 "" "" 0 waiting_post); [by vm_compute|reflexivity].
Qed.

Lemma calls_settled_once_witness :
  pd_sent (pending_of lost) = [(0, Err (internal_error "HTTP request failed: reset"))] ∧ NoDup (pd_sent (pending_of lost)).*1.
Proof. split; [by vm_compute|]. apply (calls_settled_once "toy" "1.0" toy_transport lost lost_reachable). Defined.

(** A sampling request of a server to a client that offers sampling. *)
Definition toy_sampling : CreateMessageParams :=
  mkCreateMessageParams [mkSamplingMessage RoleUser (Single (SText (text_new "hi"))) None] None None (Some "thisServer")
    None 100 None None None None.
Definition sampling_session : ServerSession :=
  mkSession "s1" false "toy" "1.0" default_server_capabilities
    (Some (mkClientCapabilities None (Some (mkSamplingCapability true false)) None None None)) true true [] pending_new.
Lemma toy_sampling_ok : ok c_create_message_params toy_sampling.
Proof. cbn. split_and!; try done. by repeat constructor. Qed.
Lemma sampling_agreed_witness :
  sampling_request toy_sampling sampling_session =
  Ok (SAMPLING_CREATE_MESSAGE, Some (enc c_create_message_params toy_sampling)).
Proof.
  apply (sampling_agreed (mkSamplingCapability true false) toy_sampling sampling_session eq_refl toy_sampling_ok).
  split_and!; by vm_compute.
Defined.
