(* ===== verification/A4PExamples.v ===== *)
(** A concrete A4P server on which the hypotheses of the A4P theorems hold: toy
    instances of the interfaces (keys that are a byte, signatures that repeat
    the signed text, dates that are numbers), with the laws the theorems use,
    and for each theorem the instance that shows its hypotheses can be met.

    The A4P server of A4PExamples.v behind HTTP and with WebAuthn: a JSON codec,
    toy crates, and the instances that show the hypotheses of the theorems on
    the server facade, its HTTP surface and WebAuthn can be met. *)
From S2P Require Import Prelude RustMap RustStr F64 Json A4PUtil IntentScope UsageStore Canonical A4PCrypto WebAuthnData CredentialStore Mandate Ticket Ed25519 WebAuthn IntentMandate IntentToken IntentService IntentFlow OperationService A4PServer A4PHttp.
From Stdlib Require Import Ascii.

(** * Text *)

Lemma base64url_app a b : is_base64url (a +:+ b) = is_base64url a && is_base64url b.
Proof. induction a as [|c a IH]; simpl; [done|]. by rewrite IH, andb_assoc. Qed.

Lemma base64url_rev s : is_base64url (String.rev s) = is_base64url s.
Proof.
  induction s as [|c s IH]; [done|]. rewrite str_rev_cons, base64url_app, IH. simpl.
  by rewrite andb_true_r, andb_comm.
Qed.

(** No pattern starts with [c]. *)
Definition starts_none (c : ascii) (pats : list string) : bool :=
  forallb (λ p, negb (bool_decide (p = "")) && negb (bool_decide (String.get 0 p = Some c))) pats.

Lemma starts_none_spec c s pats : starts_none c pats = true → strip_first pats (String c s) = None.
Proof.
  induction pats as [|p pats IH]; [done|]. simpl. intros [[Hp Hc]%andb_true_iff Hpats]%andb_true_iff.
  apply negb_true_iff, bool_decide_eq_false in Hp, Hc. destruct p as [|d p]; [done|]. cbn [strip_prefix].
  simpl in Hc. destruct (decide _) as [->|]; [done|]. by apply IH.
Qed.

Lemma base64url_starts_none c :
  is_base64url (String c "") = true →
  starts_none c white_space = true ∧ starts_none c (String.rev <$> white_space) = true.
Proof.
  intros Hc. apply andb_true_iff.
  assert (Hall : implb (is_base64url (String c "")) (starts_none c white_space &&
    starts_none c (String.rev <$> white_space)) = true); [|by rewrite Hc in Hall].
  clear Hc. destruct c as [[] [] [] [] [] [] [] []]; vm_compute; reflexivity.
Qed.

Lemma base64url_visible s :
  is_base64url s = true →
  strip_first white_space s = None ∧ strip_first (String.rev <$> white_space) s = None.
Proof.
  destruct s as [|c s]; [done|]. intros Hs. cbn [is_base64url] in Hs. apply andb_true_iff in Hs as [Hc _].
  destruct (base64url_starts_none c) as [H1' H2']; [cbn [is_base64url]; by rewrite Hc|].
  split; by apply starts_none_spec.
Qed.

(** Such text has nothing to trim. *)
Lemma base64url_trim s : is_base64url s = true → trim s = s.
Proof.
  intros Hs. destruct (base64url_visible s Hs) as [Hstart _].
  destruct (base64url_visible (String.rev s)) as [_ Hend]; [by rewrite base64url_rev|].
  unfold trim, trim_start. rewrite (strip_all_id _ _ _ Hstart). unfold trim_end.
  rewrite (strip_all_id _ _ _ Hend).
  apply str_rev_involutive.
Qed.

Lemma base64url_no_padding s : is_base64url s = true → trim_end_char "=" s = s.
Proof.
  induction s as [|c s IH]; [done|]. intros [Hc Hs]%andb_true_iff. cbn [trim_end_char].
  rewrite IH by done. destruct s; [|done]. rewrite decide_False; [done|]. intros ->. by vm_compute in Hc.
Qed.

(** * Cryptography *)

(** A byte as two letters. *)
Definition letter (n : N) : ascii := ascii_of_N (97 + n).
Definition letter_value (c : ascii) : N := N_of_ascii c - 97.

Fixpoint letters_encode (s : string) : string :=
  match s with
  | EmptyString => EmptyString
  | String a s => String (letter (byte_of a / 16)) (String (letter (byte_of a mod 16)) (letters_encode s))
  end.

Fixpoint letters_decode (s : string) : option string :=
  match s with
  | EmptyString => Some EmptyString
  | String h (String l s) => String (ascii_of_N (letter_value h * 16 + letter_value l)) <$> letters_decode s
  | _ => None
  end.

Lemma letters_byte a :
  ascii_of_N (letter_value (letter (byte_of a / 16)) * 16 + letter_value (letter (byte_of a mod 16))) = a ∧
  is_base64url (String (letter (byte_of a / 16)) (String (letter (byte_of a mod 16)) "")) = true.
Proof. destruct a as [[] [] [] [] [] [] [] []]; split; vm_compute; reflexivity. Qed.

Lemma letters_decode_encode s : letters_decode (letters_encode s) = Some s.
Proof.
  induction s as [|a s IH]; [done|]. cbn [letters_encode letters_decode]. rewrite IH.
  by rewrite (proj1 (letters_byte a)).
Qed.

Lemma letters_alphabet s : is_base64url (letters_encode s) = true.
Proof.
  induction s as [|a s IH]; [done|]. cbn [letters_encode].
  change (is_base64url (String ?h (String ?l ?s))) with (is_base64url (String h (String l "") +:+ s)).
  by rewrite base64url_app, (proj2 (letters_byte a)).
Qed.

(** Text cut or filled to 32 bytes. *)
Definition pad32 (s : string) : string := str_take 32 (s +:+ zeros 32).

Definition head_byte (s : string) : ascii := match s with String c _ => c | EmptyString => "0"%char end.

Definition toy_crypto : Crypto :=
  {| SigningKey := ascii; VerifyingKey := ascii; Signature := ascii * string;
     verifying_key := λ k, k; dalek_sign := λ k text, (k, text);
     dalek_verify := λ k text s, bool_decide (s = (k, text));
     signature_to_bytes := λ s, String s.1 s.2;
     signature_from_slice := λ s, match s with String k text => Some (k, text) | EmptyString => None end;
     verifying_key_as_bytes := λ k, String k (zeros 31);
     verifying_key_from_bytes := λ s, Some (head_byte s);
     signing_key_from_bytes := head_byte; signing_key_from_pkcs8_pem := λ _, None;
     engine_encode := letters_encode; engine_decode := letters_decode; standard_decode := letters_decode;
     hex_encode := letters_encode; hex_decode := letters_decode; sha256 := pad32 |}.
#[export] Existing Instance toy_crypto | 0.

#[export] Instance toy_crypto_laws : CryptoLaws.
Proof.
  split.
  - intros k t. by apply bool_decide_true.
  - by intros [k t].
  - apply letters_decode_encode.
  - intros b. apply base64url_no_padding, letters_alphabet.
  - intros b. apply base64url_trim, letters_alphabet.
  - apply letters_alphabet.
  - by intros [|a b].
  - done.
  - done.
  - done.
Qed.

(** * Dates and JSON text *)

(** A date is its sign and its number. *)
Definition toy_chrono : Chrono :=
  {| format_utc := λ z, Some (String (if (z <? 0)%Z then "m" else "p")%char (pretty (Z.abs_N z)));
     parse_naive := λ s,
       match s with
       | String c s => n ← parse_digits s; Some (if decide (c = "m"%char) then - n else n)%Z
       | EmptyString => None
       end;
     format_beijing := λ z, Some (pretty z) |}.
#[export] Existing Instance toy_chrono | 0.

#[export] Instance toy_chrono_laws : ChronoLaws.
Proof.
  split. intros z t [= <-]. cbn [parse_naive toy_chrono]. rewrite parse_digits_pretty. cbn [mbind option_bind].
  split; [|split; [done|]].
  - f_equal. destruct (Z.ltb_spec z 0); [rewrite decide_True by done|rewrite decide_False by done]; lia.
  - apply base64url_trim. simpl.
    assert (is_base64url (pretty (Z.abs_N z)) = true) as ->; [|by destruct (z <? 0)%Z].
    pose proof (digits_pretty_N (Z.abs_N z)) as Hd. induction (pretty (Z.abs_N z)) as [|c s IH]; [done|].
    simpl in Hd |- *. apply andb_true_iff in Hd as [Hc Hs]. rewrite IH by done.
    unfold is_digit in Hc. rewrite Hc. done.
Qed.

(** Quotes and backslashes are escaped. *)
Definition C_backslash : ascii := ascii_of_nat 92.
Fixpoint escape_json (s : string) : string :=
  match s with
  | EmptyString => String C_quote EmptyString
  | String c s =>
      if decide (c = C_quote ∨ c = C_backslash) then String C_backslash (String c (escape_json s))
      else String c (escape_json s)
  end.

Definition toy_json_text : JsonText :=
  {| serde_to_string := λ s, Some (String C_quote (escape_json s)); scientific := λ _, "0e0" |}.
#[export] Existing Instance toy_json_text | 0.

Lemma escape_json_delimits s1 s2 r1 r2 :
  escape_json s1 +:+ r1 = escape_json s2 +:+ r2 → s1 = s2 ∧ r1 = r2.
Proof.
  revert s2. induction s1 as [|c1 s1 IH]; intros [|c2 s2]; simpl.
  - intros Heq. split; [done|]. by injection Heq.
  - destruct (decide (c2 = C_quote ∨ c2 = C_backslash)) as [_|Hc]; simpl; intros Heq; [done|].
    injection Heq as <- _. exfalso. apply Hc. by left.
  - destruct (decide (c1 = C_quote ∨ c1 = C_backslash)) as [_|Hc]; simpl; intros Heq; [done|].
    injection Heq as -> _. exfalso. apply Hc. by left.
  - destruct (decide (c1 = C_quote ∨ c1 = C_backslash)) as [H1'|H1'],
      (decide (c2 = C_quote ∨ c2 = C_backslash)) as [H2'|H2']; simpl; intros Heq; injection Heq.
    + intros Heq' ->. destruct (IH _ Heq') as [-> ->]. done.
    + intros Heq' <-. exfalso. apply H2'. by right.
    + intros Heq' ->. exfalso. apply H1'. by right.
    + intros Heq' ->. destruct (IH _ Heq') as [-> ->]. done.
Qed.

#[export] Instance toy_json_text_laws : JsonTextLaws.
Proof.
  split.
  - intros s. by eexists.
  - intros s1 s2 t1 t2 r1 r2 [= <-] [= <-]. intros Heq. injection Heq as Heq.
    by apply escape_json_delimits.
Qed.

#[export] Instance toy_display : JsonDisplay := λ _, "value".

(** * A server with one user *)

(** A user's record of an Ed25519 key, the server's key and the user's. *)
Definition ex_server_key : SigningKey := "s"%char.
Definition ex_user_key : SigningKey := "u"%char.
Definition ex_record : UserCredentialRecord :=
  mkCredential "ann" "cred-1" ED25519_SIGNATURE_METHOD (ed25519_public_jwk ex_user_key) [] [] "".

Definition ex_method : A4PUserSignatureMethod records := RegisteredEd25519Method InMemoryCredentialStore.
Definition ex_builder : A4PServerBuilder records usage_rows :=
  mkServerBuilder _ _ (Some "local://a4p") (Some ex_method) None None (Some true)
    (Some InMemoryIntentTokenUsageStore).
Definition ex_service : IntentAuthorizationService records usage_rows :=
  mkIntentService _ _ "local://a4p" None true (Some ex_method) InMemoryIntentTokenUsageStore.
Definition ex_operations : OperationAuthorizationService records :=
  mkOperationService _ "local://a4p" None true (Some ex_method).
Definition ex_server : A4PServer records usage_rows :=
  mkServer _ _ "local://a4p" (Some ex_method) true InMemoryIntentTokenUsageStore ex_service ex_operations.

Definition ex_intent_state : IntentState records usage_rows := mkIntentState ∅ [ex_record] ∅.
Definition ex_state : ServerState records usage_rows := mkServerState ∅ ∅ [ex_record] ∅.

(** An intent: two payments of any amount. *)
Definition ex_actions : Value := JArray [JObject [("name", JString "pay"); ("params", JString "*")]].
Definition ex_request : JsonDict :=
  [("userId", JString "ann"); ("agentId", JString "agent-1");
   ("intent", JObject [("actions", ex_actions);
                       ("executionPolicy", JObject [("maxExecutions", JNumber (PosInt 2))])])].

Definition ok_value {A E} (r : result A E) (d : A) : A := match r with Ok a => a | Err _ => d end.

(** What preparing answers, its mandate, and the state after. *)
Definition no_answer : IntentAuthorizationResponse := mkIntentAuthorizationResponse None [] None None false None.
Definition ex_prepared : IntentAuthorizationResponse * IntentState records usage_rows :=
  Eval vm_compute in
    let (r, st) := prepare ex_service (Ok ex_server_key) "rnd" 1000 ex_request ex_intent_state in
    (ok_value r no_answer, st).
Definition ex_mandate : JsonDict := Eval vm_compute in default [] (ir_mandate ex_prepared.1).

Lemma ex_prepare :
  prepare ex_service (Ok ex_server_key) "rnd" 1000 ex_request ex_intent_state =
  (Ok ex_prepared.1, ex_prepared.2).
Proof. vm_compute. reflexivity. Qed.

Lemma ex_prepare_mandate : ir_mandate ex_prepared.1 = Some ex_mandate.
Proof. reflexivity. Qed.

(** The signer of the user and the signed mandate. *)
Definition ex_signer : Ed25519UserSigner := mkEd25519Signer "cred-1" ex_user_key.
Definition ex_signed : JsonDict := Eval vm_compute in
  ok_value (sign_user_mandate_with_signer ex_mandate (ed25519_user_signer ex_signer) None) [].

(** Completing it, the token. *)
Definition ex_completed : IntentAuthorizationResponse * IntentState records usage_rows :=
  Eval vm_compute in
    let (r, st) := complete ex_service (Ok ex_server_key) "id" "nonce" 1001 1002
      [("signedMandate", JObject ex_signed)] ex_prepared.2 in
    (ok_value r no_answer, st).
Definition ex_token : JsonDict := Eval vm_compute in default [] (ir_intent_token ex_completed.1).

(** Closed values are well formed. *)
Ltac wf_now :=
  repeat match goal with
  | |- wf_value (JObject _) => apply wf_object_literal; [reflexivity|]
  | |- Forall _ [] => apply List.Forall_nil
  | |- Forall _ (_ :: _) => apply List.Forall_cons; cbn [snd]
  | |- wf_value (JArray _) => apply wf_array
  | |- wf_value (JNumber _) => apply wf_num; simpl; unfold u64_max, i64_min; lia
  | |- wf_value _ => constructor
  end.

Lemma ex_request_wf : wf_value (JObject ex_request).
Proof. unfold ex_request, ex_actions. wf_now. Qed.

(** * Witnesses: intents *)

Lemma ed25519_intent_completes_witness :
  ∃ signed token st2,
    sign_user_mandate_with_signer ex_mandate (ed25519_user_signer ex_signer) None = Ok signed ∧
    complete ex_service (Ok ex_server_key) "id" "nonce" 1001 1002 [("signedMandate", JObject signed)]
      ex_prepared.2 =
      (Ok (mkIntentAuthorizationResponse (Some signed) [] (Some token) (Some (vr_ok None)) true None), st2).
Proof.
  eapply (ed25519_intent_completes InMemoryCredentialStore ex_service ex_server_key "rnd" 1000 ex_request
    ex_intent_state ex_prepared.1 ex_prepared.2 ex_mandate 3600 "cred-1" ex_user_key ex_signer ex_record
    [ex_record] "id" "nonce" 1001 1002);
    first [exact ex_request_wf|exact ex_prepare|by eexists|vm_compute; done|vm_compute; by split].
Defined.

(** The context of the user's signature, and the signature. *)
Definition no_context : UserSignatureContext := mkUserSignatureContext "" [] "" None.
Definition ex_context : UserSignatureContext := Eval vm_compute in
  ok_value (intent_user_signature_context ex_mandate (Some "ann")) no_context.
Definition ex_signature : JsonDict := Eval vm_compute in
  object_or_empty (object_or_empty ex_signed "signatures") "user".

Lemma prepared_intent_completes_witness :
  ∃ token st2 intent,
    complete ex_service (Ok ex_server_key) "id" "nonce" 1001 1002
      [("signedMandate", JObject (attach_user_signature ex_mandate ex_signature))] ex_prepared.2 =
      (Ok (mkIntentAuthorizationResponse (Some (attach_user_signature ex_mandate ex_signature)) []
         (Some token) (Some (vr_ok None)) true None), st2) ∧
    aget "intent" ex_mandate = Some (JObject intent) ∧
    ∀ options nt, verify_intent_token (Ok ex_server_key) nt token options = Ok () ↔
      IntentToken.admits 4600 "agent:agent-1" (agent_key_id (object_or_empty ex_mandate "subject")) "ann"
        intent options nt.
Proof.
  eapply (prepared_intent_completes ex_service ex_server_key "rnd" 1000 ex_request ex_intent_state
    ex_prepared.1 ex_prepared.2 ex_mandate 3600 ex_context ex_signature [ex_record] "id" "nonce" 1001 1002);
    first [exact ex_request_wf|exact ex_prepare|intros method [= <-]; apply wf_empty|by eexists
          |vm_compute; done|vm_compute; by split].
Defined.

Definition ex_scope : JsonDict := Eval vm_compute in object_or_empty ex_mandate "intent".

Lemma issued_token_authorizes_witness :
  ∃ token, issue_verified (Ok ex_server_key) "id" "nonce" 1002 ex_mandate "ann" = Ok token ∧
    ∀ options, verify_intent_token (Ok ex_server_key) 2000 token options = Ok () ↔
      IntentToken.admits 4600 "agent:agent-1" "" "ann" ex_scope options 2000.
Proof.
  eexists. split; [vm_compute; reflexivity|]. intros options.
  eapply (issued_token_authorizes ex_server_key "id" "nonce" 1002 ex_mandate "ann" _ ex_scope 4600 2000
    options); vm_compute; reflexivity.
Defined.

Lemma signing_input_binds_witness :
  ∃ c1 c2, intent_token_core_payload ex_token = Ok c1 ∧
    intent_token_core_payload (im_insert "note" (JString "n") ex_token) = Ok c2 ∧
    same_value (JObject c1) (JObject c2).
Proof.
  eapply (signing_input_binds ex_token (im_insert "note" (JString "n") ex_token)
    (ok_value (intent_token_signing_input ex_token) "")); [..|vm_compute; reflexivity|vm_compute; reflexivity].
  - unfold ex_token. wf_now.
  - unfold ex_token. cbv [im_insert]. simpl. wf_now.
Defined.

Lemma canonical_json_injective_witness :
  canonical_json_value (JObject [("a", JNull); ("b", JBool true)]) =
    canonical_json_value (JObject [("b", JBool true); ("a", JNull)]) ∧
  same_value (JObject [("a", JNull); ("b", JBool true)]) (JObject [("b", JBool true); ("a", JNull)]).
Proof.
  split; [reflexivity|].
  eapply (canonical_json_injective (JObject [("a", JNull); ("b", JBool true)])
    (JObject [("b", JBool true); ("a", JNull)])); [wf_now|wf_now|reflexivity|reflexivity].
Defined.

(** Prepare, complete, present the token. *)
Definition ex_present : JsonDict :=
  [("token", JObject ex_token); ("expected", JObject [("action", JString "pay")])].
Definition ex_calls : list IntentCall :=
  [CallPrepare (Ok ex_server_key) "rnd" 1000 ex_request;
   CallComplete (Ok ex_server_key) "id" "nonce" 1001 1002 [("signedMandate", JObject ex_signed)];
   CallVerify (Ok ex_server_key) 1003 1003 ex_present; CallVerify (Ok ex_server_key) 1004 1004 ex_present;
   CallVerify (Ok ex_server_key) 1005 1005 ex_present].

Lemma one_token_per_mandate_witness :
  ∃ l st', intent_calls ex_service ex_calls ex_intent_state = (l, st') ∧
    times (Redeemed "mdt_hcgoge") (answer_event <$> l) = 1%nat ∧
    (times (Redeemed "mdt_hcgoge") (answer_event <$> l) ≤ times (Issued "mdt_hcgoge") (answer_event <$> l))%nat.
Proof.
  eexists _, _. split; [vm_compute; reflexivity|]. split; [vm_compute; reflexivity|].
  eapply (one_token_per_mandate ex_service "mdt_hcgoge" ex_calls ex_intent_state); vm_compute; reflexivity.
Defined.

Lemma token_executions_bounded_witness :
  ∃ l st', intent_calls ex_service ex_calls ex_intent_state = (l, st') ∧
    executions (str_trimmed ex_token "tokenId") 2 4600 ex_calls l = 2%nat ∧
    (Z.of_nat (executions (str_trimmed ex_token "tokenId") 2 4600 ex_calls l) ≤ Z.max 0 2)%Z.
Proof.
  eexists _, _. split; [vm_compute; reflexivity|]. split; [vm_compute; reflexivity|].
  eapply (token_executions_bounded ex_service (str_trimmed ex_token "tokenId") 2 4600 ex_calls
    ex_intent_state); [reflexivity|unfold i64_max; lia|reflexivity| |vm_compute; reflexivity].
  repeat (apply List.Forall_cons; [simpl; lia || done|]). apply List.Forall_nil.
Defined.

(** * Witnesses: the usage store and operations *)

Lemma usage_store_refines_counter_witness :
  (filter (λ cr : ConsumeCall * _, trim (cc_token cr.1) = "t")
     (zip [mkConsumeCall 1 "t" 1 100; mkConsumeCall 2 "u" 5 9; mkConsumeCall 3 " t" 1 100]
        (consume_all [mkConsumeCall 1 "t" 1 100; mkConsumeCall 2 "u" 5 9; mkConsumeCall 3 " t" 1 100] ∅).1)).*2 =
  counter_all 1 2 0 ∧ counter_all 1 2 0 = [Ok (true, 1%Z); Ok (false, 1%Z)].
Proof.
  split; [|reflexivity].
  eapply (usage_store_refines_counter "t" 1 100
    [mkConsumeCall 1 "t" 1 100; mkConsumeCall 2 "u" 5 9; mkConsumeCall 3 " t" 1 100]);
    [done|unfold i64_max; lia|lia| | |vm_compute; reflexivity].
  - repeat (apply List.Forall_cons; [simpl; lia|]). apply List.Forall_nil.
  - repeat (apply List.Forall_cons; [|]); [..|apply List.Forall_nil]; vm_compute; done.
Defined.

Definition ex_operation_request : JsonDict :=
  [("userId", JString "ann"); ("agentId", JString "agent-1");
   ("operation", JObject [("action", JString "wipe"); ("params", JObject [])])].
Definition ex_operation_state : OperationState records := mkOperationState ∅ [ex_record].
Definition no_challenge : OperationAuthorizationChallenge := mkOperationChallenge None [] None None.
Definition ex_challenge : OperationAuthorizationChallenge * OperationState records := Eval vm_compute in
  let (r, st) := prepare_operation ex_operations (Ok ex_server_key) "op" 1000 1000 ex_operation_request
    ex_operation_state in
  (ok_value r no_challenge, st).
Definition ex_operation_completion : JsonDict := Eval vm_compute in
  [("operation", JObject (object_or_empty ex_operation_request "operation"));
   ("signedMandate", JObject (ok_value (sign_user_mandate_with_signer
      (default [] (oc_mandate ex_challenge.1)) (ed25519_user_signer ex_signer) None) []))].

Lemma approved_operation_was_prepared_witness :
  ∃ r st', complete_operation ex_operations (Ok ex_server_key) 1010 1011 ex_operation_completion
      ex_challenge.2 = (r, st') ∧ or_approved r = true ∧
    ∃ id p m op signed_op,
      or_operation_id r = Some id ∧ ost_pending ex_challenge.2 !! id = Some p ∧
      (1010 < po_expire_at_epoch p)%Z ∧
      normalize_operation (aget "operation" ex_operation_completion) = Ok op ∧
      dict_eqb op (po_operation p) = true ∧
      get_object ex_operation_completion "signedMandate" = Some m ∧
      normalize_operation (aget "operation" m) = Ok signed_op ∧ dict_eqb signed_op op = true ∧
      mandate_matches_pending m (po_mandate p) normalize_operation_mandate = true ∧
      ost_pending st' !! id = None.
Proof.
  eexists _, _. split; [vm_compute; reflexivity|]. split; [reflexivity|].
  eapply (approved_operation_was_prepared ex_operations (Ok ex_server_key) 1010 1011 ex_operation_completion
    ex_challenge.2); vm_compute; reflexivity.
Defined.

Definition ex_operation_calls : list OperationCall :=
  [CallPrepareOperation (Ok ex_server_key) "op" 1000 1000 ex_operation_request;
   CallCompleteOperation (Ok ex_server_key) 1010 1011 ex_operation_completion;
   CallCompleteOperation (Ok ex_server_key) 1020 1021 ex_operation_completion].

Lemma operation_service_refines_tickets_witness :
  ∃ l st', operation_calls ex_operations ex_operation_calls ex_operation_state = (l, st') ∧
    ticket_steps (dom (ost_pending ex_operation_state) : gset string) (operation_event <$> l)
      (dom (ost_pending st') : gset string).
Proof.
  eexists _, _. split; [vm_compute; reflexivity|].
  eapply (operation_service_refines_tickets ex_operations ex_operation_calls ex_operation_state).
  vm_compute. reflexivity.
Defined.

(** * Witnesses: registered keys *)

(** Ann registers a key, Bob presents it. *)
Definition ex_register (user : string) : JsonDict :=
  [("userId", JString user); ("publicKey", JObject (ed25519_public_jwk ex_user_key))].

Definition ex_ann_record : UserCredentialRecord :=
  mkCredential "ann" "cred_hcdb" ED25519_SIGNATURE_METHOD (ed25519_public_jwk ex_user_key) [] [] "t1".

Lemma registered_key_one_user_witness :
  registrations InMemoryCredentialStore [("r1", "t1", ex_register "ann")] [] = [ex_ann_record] ∧
  (∀ r', r' ∈ registrations InMemoryCredentialStore [("r1", "t1", ex_register "ann")] [] →
     is_ed25519 r' → cr_public_key r' = ed25519_public_jwk ex_user_key → r' = ex_ann_record) ∧
  ∃ e, (register InMemoryCredentialStore "r2" "t2" (ex_register "bob") [ex_ann_record]).1 = Err e.
Proof.
  split; [reflexivity|].
  destruct (registered_key_one_user InMemoryCredentialStore [("r1", "t1", ex_register "ann")] [] "r2" "t2"
    (ex_register "bob") "bob" (ed25519_public_jwk ex_user_key) ex_ann_record
    (register InMemoryCredentialStore "r2" "t2" (ex_register "bob") [ex_ann_record]).1
    (register InMemoryCredentialStore "r2" "t2" (ex_register "bob") [ex_ann_record]).2) as [Hone Hother].
  - split; [intros r Hr|intros r1 r2 Hr]; by apply elem_of_nil in Hr.
  - by apply list_elem_of_singleton.
  - reflexivity.
  - reflexivity.
  - split; [exact Hone|]. apply Hother; [reflexivity|done|done|reflexivity|reflexivity].
Defined.

(** * Witnesses: keys *)

Definition ex_production_env : EnvSource := λ name,
  if decide (name = "APP_ENV") then Some "Production"
  else if decide (name = "KEY") then Some (" " +:+ letters_encode (String "s" (zeros 31)))
  else None.

Lemma production_key_configured_witness :
  ed25519_private_key_from_env_in ex_production_env "KEY" "dev-label" "key" = Ok ex_server_key ∧
  ∃ raw, ex_production_env "KEY" = Some raw ∧ trim raw ≠ "" ∧ trim raw ≠ "dev-label" ∧
    load_ed25519_private_key (trim raw) "KEY" = Ok ex_server_key.
Proof.
  split; [vm_compute; reflexivity|].
  eapply (production_key_configured ex_production_env "KEY" "dev-label" "key" ex_server_key);
    vm_compute; reflexivity.
Defined.

(** * Witnesses: the server's keys and its HTTP surface *)

(** The keys of both services, as seeds. *)
Definition ex_env : EnvSource := λ name,
  if decide (name = "INTENT_SERVER_ED25519_PRIVATE_KEY") then
    Some (letters_encode (String "s" (zeros 31)))
  else if decide (name = "OPERATION_SERVER_ED25519_PRIVATE_KEY") then
    Some (letters_encode (String "o" (zeros 31)))
  else None.
Definition ex_operation_key : SigningKey := "o"%char.
Definition ex_prepared_state : ServerState records usage_rows := Eval vm_compute in
  (prepare_intent_authorization ex_server (Ok ex_server_key) "rnd" 1000 ex_request ex_state).2.

Lemma prepared_mandate_trusted_witness :
  ∃ config ts core, server_trust_config ex_server ex_env = Ok config ∧
    trust_store_new config = Ok ts ∧ verify_trusted_server_mandate ex_mandate ts = Ok core ∧
    intent_mandate_core_payload ex_mandate = Ok core ∧
    ∀ t, (1000 ≤ t ≤ 4600)%Z → verify_mandate_valid_time_at core t = Ok ().
Proof.
  exists (ok_value (server_trust_config ex_server ex_env) []).
  destruct (prepared_mandate_trusted ex_server (Err (AValue "")) ex_builder ex_env
    (ok_value (server_trust_config ex_server ex_env) []) ex_server_key ex_operation_key "rnd" 1000
    ex_request ex_state ex_prepared.1 ex_prepared_state ex_mandate 3600) as (ts & core & H1' & H2' & H3' & H4').
  1: reflexivity.
  1: exact ex_request_wf.
  1: (intros method [= <-]; apply wf_empty).
  2: discriminate.
  1-5: (vm_compute; reflexivity).
  1-2: reflexivity.
  1-2: by eexists.
  exists ts, core. split; [vm_compute; reflexivity|]. by split_and!.
Defined.

Definition toy_http_json : HttpJson :=
  {| utf8_error := λ _, None; json_to_string := λ v, Some (value_text v);
     json_from_str := λ s, match text_value s with Some v => Ok v | None => Err "not JSON" end |}.
#[local] Existing Instance toy_http_json | 0.

Lemma digits_visible s : all_chars is_digit s = true → s ≠ "" → trim s ≠ "".
Proof.
  intros Hs Hne. rewrite base64url_trim; [done|]. clear Hne. induction s as [|c s IH]; [done|].
  simpl in Hs |- *. apply andb_true_iff in Hs as [Hc Hs]. rewrite IH by done.
  unfold is_digit in Hc. by rewrite Hc.
Qed.

Lemma toy_http_json_laws : HttpJsonLaws.
Proof.
  split; cbn [json_to_string json_from_str utf8_error toy_http_json].
  - intros v _. by eexists.
  - intros v t _ [= <-]. by rewrite text_value_text.
  - done.
  - intros v t [= <-]. apply digits_visible; [apply value_text_digits|apply value_text_nonempty].
Qed.

(** Presenting the token over HTTP. *)
Definition ex_inputs : RequestInputs :=
  mkRequestInputs _ (Ok ex_server_key) (Ok ex_server_key) "r1" "r2" 1003 1003 "t".

Lemma remote_calls_are_local_witness :
  ∃ payload st', post_to_server ex_server ex_inputs "/a4p/v1/intent-tokens/verify" ex_present ex_state =
      Some (Ok payload, st') ∧ tr_valid (read_token_verification payload) = true.
Proof.
  pose proof toy_http_json_laws as Hlaws.
  destruct (server_verify_intent_token ex_server (Ok ex_server_key) 1003 1003 ex_present ex_state)
    as [r st'] eqn:Hcall.
  destruct (remote_calls_are_local ex_server ex_inputs ex_present ex_state st') as (_ & _ & Hverify & _).
  { unfold ex_present, ex_token. wf_now. }
  assert (Hr : tr_valid r = true ∧ sendable (tr_matched_scope r)).
  { vm_compute in Hcall. injection Hcall as <- _. split; [done|]. split; [intros m [= <-]; wf_now|done]. }
  destruct Hr as [Hr Hscope].
  destruct (Hverify r Hcall Hscope) as (payload & Hpost & Hread). exists payload, st'.
  split; [exact Hpost|]. by rewrite Hread.
Defined.

(** An agent key with a null in it. *)
Definition ex_null_request : JsonDict :=
  ex_request ++ [("agentPublicKey", JObject [("kty", JString "OKP"); ("x5c", JNull)])].
Definition ex_null_prepared : IntentAuthorizationResponse * IntentState records usage_rows :=
  Eval vm_compute in
    let (r, st) := prepare ex_service (Ok ex_server_key) "rnd" 1000 ex_null_request ex_intent_state in
    (ok_value r no_answer, st).
Definition ex_null_pending : PendingIntent :=
  mkPendingIntent ex_null_request (default [] (ir_mandate ex_null_prepared.1)).

Lemma null_fields_never_complete_witness :
  complete ex_service (Ok ex_server_key) "id" "nonce" 1001 1002
    [("signedMandate",
      JObject (attach_user_signature (strip_nulls_object (pi_mandate ex_null_pending)) ex_signature))]
    ex_null_prepared.2 =
  (Ok (rejected (Some (pi_mandate ex_null_pending)) "Signed mandate does not match pending intent authorization"
     "MANDATE_PENDING_MISMATCH"), ex_null_prepared.2).
Proof.
  eapply (null_fields_never_complete ex_service (Ok ex_server_key) "id" "nonce" 1001 1002 _
    ex_null_prepared.2 ex_null_pending "subject"
    (JObject (object_or_empty (pi_mandate ex_null_pending) "subject")) ex_signature "mdt_hcgoge");
    try first [reflexivity|vm_compute; reflexivity|done].
  - unfold ex_null_pending, ex_null_prepared. simpl. wf_now.
  - by apply (bool_decide_unpack _).
Defined.

(** * Witnesses: WebAuthn *)

(** Crates under which a CBOR item is a byte, a client's data are the challenge
    and a signature is the signed data. *)
Definition toy_crates : WebAuthnCrates :=
  {| from_reader := λ b, match b with String c _ => Ok (CInteger (Z.of_N (N_of_ascii c)), 1%nat)
                                    | EmptyString => Err "empty" end;
     json_from_slice := λ b, Some (JObject
       [("type", JString "webauthn.get"); ("challenge", JString b);
        ("origin", JString "http://localhost:8970")]);
     P256Key := string; P256Signature := string;
     p256_from_point := λ x y, Some (x +:+ y); p256_from_der := Some;
     p256_verify := λ _ data s, bool_decide (s = data);
     RsaKey := string; RsaSignature := string; rsa_new := λ _ _, None; rsa_from_slice := λ _, None;
     rsa_verify := λ _ _ _, false |}.
#[local] Existing Instance toy_crates | 0.

Lemma toy_cbor_laws : CborLaws.
Proof. split. intros [|c b] v n; [done|]. intros [= <- <-]. simpl. lia. Qed.

(** Data of a present, verified user with the counter at seven. *)
Definition ex_auth_data : string :=
  pad32 "localhost" +:+ String (ascii_of_nat 5) (byte_str [0; 0; 0; 7]).

Lemma parse_authenticator_data_spec_witness :
  parse_authenticator_data ex_auth_data =
    Ok (mkAuthenticatorData (pad32 "localhost") (flags_of 5) 7 None None) ∧
  authenticator_data_layout (mkAuthenticatorData (pad32 "localhost") (flags_of 5) 7 None None) ex_auth_data.
Proof.
  split; [vm_compute; reflexivity|].
  eapply (@parse_authenticator_data_spec _ toy_cbor_laws). vm_compute. reflexivity.
Defined.

(** The user's authenticator and the challenge of the mandate. *)
Definition ex_webauthn_record : UserCredentialRecord :=
  mkCredential "ann" (letters_encode "c") WEBAUTHN_SIGNATURE_METHOD
    [("format", JString "cose"); ("value", JString (letters_encode (String (ascii_of_nat 4) (zeros 64))))]
    [("signCount", value_of_u64 6)] [] "".
Definition ex_webauthn_context : UserSignatureContext :=
  mkUserSignatureContext INTENT_MANDATE_TYPE (server_signed_mandate ex_context) WEBAUTHN_SIGNATURE_METHOD
    (Some "ann").
Definition ex_client_data : string := Eval vm_compute in
  letters_encode (ok_value (derive_user_authorization_challenge (server_signed_mandate ex_context)) "").
Definition ex_assertion : JsonDict :=
  [("id", JString (letters_encode "c")); ("rawId", JString (letters_encode "c"));
   ("type", JString "public-key");
   ("response", JObject
      [("clientDataJSON", JString (letters_encode ex_client_data));
       ("authenticatorData", JString (letters_encode ex_auth_data));
       ("signature", JString (letters_encode (ex_auth_data +:+ pad32 ex_client_data)))])].
Definition ex_webauthn_signature : JsonDict :=
  [("signatureMethod", JString WEBAUTHN_SIGNATURE_METHOD); ("credentialId", JString (letters_encode "c"));
   ("proof", JObject [("assertion", JObject ex_assertion)])].
Definition ex_webauthn_state : WebAuthnState records := mkWebAuthnState [ex_webauthn_record] ∅.
Definition ex_webauthn_method : A4PUserSignatureMethod (WebAuthnState records) :=
  WebAuthnSignatureMethod InMemoryCredentialStore default_webauthn_config.
Definition ex_webauthn_after : WebAuthnState records := Eval vm_compute in
  (verify_user_signature ex_webauthn_context ex_webauthn_signature (Some ex_webauthn_method) true
     ex_webauthn_state).2.


(** The same assertion, twice. *)
Definition ex_verifications : list (UserSignatureContext * JsonDict) :=
  [(ex_webauthn_context, ex_webauthn_signature); (ex_webauthn_context, ex_webauthn_signature)].

Lemma assertion_accepted_once_witness :
  ∃ l s', verifications InMemoryCredentialStore default_webauthn_config ex_verifications ex_webauthn_state =
      (l, s') ∧
    acceptances (letters_encode "c") 7 ex_verifications l = 1%nat ∧
    (acceptances (letters_encode "c") 7 ex_verifications l ≤ 1)%nat.
Proof.
  eexists _, _. split; [vm_compute; reflexivity|]. split; [vm_compute; reflexivity|].
  eapply (assertion_accepted_once InMemoryCredentialStore default_webauthn_config (letters_encode "c") 7
    ex_verifications ex_webauthn_state); [vm_compute; reflexivity|lia].
Defined.
