(* ===== verification/AuthTokens.v ===== *)
(** Tokens and records of the registry's authorization module
    (a2x-registry/src/auth/tokens.rs, models.rs, errors.rs) and the JSON lines
    of its audit log (util/pyjson.rs).

    SHA-256 (crate sha2), hex (crate hex) and URL-safe base64 (crate base64)
    are the class [AuthCrates]; the text of a JSON string or float, as
    serde_json writes it, is the class [SerdeText]. *)
From S2P Require Import Prelude F64 RustMap RustStr Json Common.
From Stdlib Require Import Ascii.

Class AuthCrates := {
  token_sha256 : string → string;
  token_hex : string → string;
  token_base64 : string → string
}.

(** A digest has 32 bytes, hex writes two digits per byte. *)
Class AuthCratesLaws `{!AuthCrates} : Prop := {
  token_sha256_length s : String.length (token_sha256 s) = 32%nat;
  token_hex_length s : String.length (token_hex s) = (2 * String.length s)%nat;
  token_hex_inj a b : token_hex a = token_hex b → a = b
}.

Class SerdeText := {
  json_string_text : string → string;
  json_float_text : f64 → string
}.

(** * tokens.rs *)

Definition TOKEN_PREFIX : string := "a2x_pat_".
Definition DISPLAY_PREFIX_LEN : nat := String.length TOKEN_PREFIX + 4.

(** The bytes of the character that starts with a byte. *)
Definition char_width (a : ascii) : nat :=
  if byte_in 0 127 a then 1
  else if byte_in 194 223 a then 2
  else if byte_in 224 239 a then 3
  else if byte_in 240 244 a then 4
  else 1.

(** [s.chars().take(n).collect()]. *)
Fixpoint take_chars (n : nat) (s : string) : string :=
  match n, s with
  | S n, String a _ => str_take (char_width a) s +:+ take_chars n (str_drop (char_width a) s)
  | _, _ => EmptyString
  end.

(** The bytes of the result are those of whole characters of [s]. *)
Definition token_prefix (token : string) : string := take_chars DISPLAY_PREFIX_LEN token.

Section tokens.
Context `{!AuthCrates}.

(** [generate_token], from the 32 random bytes drawn. *)
Definition generate_token (random : string) : string := TOKEN_PREFIX +:+ token_base64 random.

Definition hash_token (token : string) : string := token_hex (token_sha256 token).

(** [new_id] of store.rs, from the 6 random bytes drawn. *)
Definition new_id (prefix random : string) : string := prefix +:+ "_" +:+ token_hex random.
End tokens.

(** [(a.len() ^ b.len()) as u8]. *)
Definition length_diff (a b : string) : Z :=
  Z.land (Z.lxor (Z.of_nat (String.length a)) (Z.of_nat (String.length b))) 255.

(** One round of the loop; bytes past the end read as 0. *)
Definition diff_step (a b : string) (diff : Z) (i : nat) : Z :=
  Z.lor diff (Z.lxor (byte_at i a) (byte_at i b)).

Definition constant_time_equals (a b : string) : bool :=
  (foldl (diff_step a b) (length_diff a b)
     (seq 0 (Nat.max (String.length a) (String.length b))) =? 0)%Z.

(** * errors.rs *)

Inductive AuthenticationError := mkAuthenticationError (text : string).
Inductive AuthorizationError := mkAuthorizationError (text : string).

(** * models.rs *)

Definition VALID_ROLES : list string := ["admin"; "provider"; "user"].

Record Principal := mkPrincipal {
  p_id : string;
  p_handle : string;
  p_role : Role;
  p_namespaces : option (list string);
  p_created_at : string;
  p_disabled_at : option string;
  p_note : string
}.
#[export] Instance Principal_eq_dec : EqDecision Principal.
Proof. solve_decision. Defined.

(** [Principal::to_context], [is_disabled], [is_admin]. *)
Definition to_context (p : Principal) : AuthContext :=
  mkAuthContext (p_id p) (p_role p) (list_to_set <$> p_namespaces p).
Definition is_disabled (p : Principal) : bool := bool_decide (is_Some (p_disabled_at p)).
Definition principal_is_admin (p : Principal) : bool := bool_decide (p_role p = Admin).

Record ApiKey := mkApiKey {
  k_id : string;
  k_principal : string;
  k_hash : string;
  k_prefix : string;
  k_name : string;
  k_created_at : string;
  k_expires_at : option string;
  k_last_used_at : option string;
  k_revoked_at : option string
}.
#[export] Instance ApiKey_eq_dec : EqDecision ApiKey.
Proof. solve_decision. Defined.

(** [ApiKey::is_revoked]. *)
Definition is_revoked (k : ApiKey) : bool := bool_decide (is_Some (k_revoked_at k)).

(** Serialization, as serde derives it: fields in order, [None] as null. *)
Definition optional_string (o : option string) : Value :=
  match o with Some s => JString s | None => JNull end.
Definition string_array (l : list string) : Value := JArray (JString <$> l).
Definition optional_strings (o : option (list string)) : Value :=
  match o with Some l => string_array l | None => JNull end.

Definition principal_to_value (p : Principal) : Value :=
  JObject [("id", JString (p_id p)); ("handle", JString (p_handle p));
           ("role", JString (role_as_str (p_role p)));
           ("namespaces", optional_strings (p_namespaces p));
           ("created_at", JString (p_created_at p));
           ("disabled_at", optional_string (p_disabled_at p)); ("note", JString (p_note p))].
Definition key_to_value (k : ApiKey) : Value :=
  JObject [("key_id", JString (k_id k)); ("principal_id", JString (k_principal k));
           ("key_hash", JString (k_hash k)); ("key_prefix", JString (k_prefix k));
           ("name", JString (k_name k)); ("created_at", JString (k_created_at k));
           ("expires_at", optional_string (k_expires_at k));
           ("last_used_at", optional_string (k_last_used_at k));
           ("revoked_at", optional_string (k_revoked_at k))].

(** * pyjson.rs *)

Section pyjson.
Context `{!SerdeText}.

(** [PythonCompact]: [", "] between items, [": "] after a key. *)
Definition number_text (n : number) : string :=
  match n with PosInt z | NegInt z => pretty z | NFloat f => json_float_text f end.

Fixpoint dumps (v : Value) : string :=
  match v with
  | JNull => "null"
  | JBool b => if b then "true" else "false"
  | JNumber n => number_text n
  | JString s => json_string_text s
  | JArray items =>
      "[" +:+ str_join ", "
        ((fix go items :=
            match items with [] => [] | item :: items => dumps item :: go items end) items) +:+ "]"
  | JObject map =>
      "{" +:+ str_join ", "
        ((fix go map :=
            match map with
            | [] => []
            | (key, value) :: map => (json_string_text key +:+ ": " +:+ dumps value) :: go map
            end) map) +:+ "}"
  end.
End pyjson.

(** * Facts *)

Lemma token_byte_range i s : (0 ≤ byte_at i s < 2 ^ 8)%Z.
Proof.
  unfold byte_at. destruct (String.get i s) as [c|]; [|lia].
  pose proof (N_ascii_bounded c). lia.
Qed.

Lemma byte_at_past i s : (String.length s ≤ i)%nat → byte_at i s = 0%Z.
Proof.
  unfold byte_at. intros Hi. enough (String.get i s = None) as -> by done.
  revert i Hi. induction s as [|a s IH]; intros [|i] Hi; simpl in *; try done; [lia|].
  apply IH. lia.
Qed.

Lemma foldl_diff_zero a b l : ∀ d,
  foldl (diff_step a b) d l = 0%Z ↔ d = 0%Z ∧ ∀ i, i ∈ l → byte_at i a = byte_at i b.
Proof.
  induction l as [|i l IH]; intros d; cbn [foldl].
  - split; [|by intros [? _]]. intros ->. split; [done|]. intros i Hi. by apply not_elem_of_nil in Hi.
  - rewrite IH. unfold diff_step. rewrite Z.lor_eq_0_iff, Z.lxor_eq_0_iff.
    setoid_rewrite elem_of_cons. naive_solver.
Qed.

(** What the comparison decides: the bytes agree, the shorter side padded
    with zero bytes, and the lengths agree in their last eight bits. *)
Lemma constant_time_equals_spec a b :
  constant_time_equals a b = true ↔
  length_diff a b = 0%Z ∧ ∀ i, byte_at i a = byte_at i b.
Proof.
  unfold constant_time_equals. rewrite Z.eqb_eq, foldl_diff_zero. f_equiv. split; [|by auto].
  intros H i. destruct (decide (i < Nat.max (String.length a) (String.length b))%nat) as [Hi|Hi].
  - apply H, elem_of_seq. lia.
  - rewrite !byte_at_past; lia.
Qed.

Lemma byte_at_ext a : ∀ b,
  String.length a = String.length b → (∀ i, byte_at i a = byte_at i b) → a = b.
Proof.
  induction a as [|x a IH]; intros [|y b] Hl H; simpl in *; try done. f_equal.
  - specialize (H 0%nat). cbn in H. rewrite <-(ascii_N_embedding x), <-(ascii_N_embedding y). f_equal. lia.
  - apply IH; [lia|]. intros i. apply (H (S i)).
Qed.

(** On texts of one length it is equality. *)
Lemma constant_time_equals_same_length a b :
  String.length a = String.length b → constant_time_equals a b = true ↔ a = b.
Proof.
  intros Hl. rewrite constant_time_equals_spec. split.
  - intros [_ H]. by apply byte_at_ext.
  - intros <-. split; [|done]. unfold length_diff. by rewrite Z.lxor_nilpotent.
Qed.

(** Different texts it takes for equal: one is the other with 256 zero
    bytes more. *)
Lemma constant_time_equals_padding : ∃ a b, a ≠ b ∧ constant_time_equals a b = true.
Proof.
  exists "", (byte_str (replicate 256 0%nat)). split; [by vm_compute|by vm_compute].
Qed.

Lemma str_length_hash `{!AuthCrates, !AuthCratesLaws} t : String.length (hash_token t) = 64%nat.
Proof. unfold hash_token. by rewrite token_hex_length, token_sha256_length. Qed.

Lemma generated_starts `{!AuthCrates} r : starts_with TOKEN_PREFIX (generate_token r) = true.
Proof. unfold starts_with, generate_token. by rewrite strip_prefix_app. Qed.
