(* ===== verification/AuthStore.v ===== *)
(** The registry's credential store (a2x-registry/src/auth/store.rs): the
    tables behind the mutex, the two JSON files they are persisted to, the
    append-only audit log, and every operation.

    An operation is an [Op] on the store.  The clock,
    the random bytes and the answers of the file system are sequences in
    [AuthEnv], read one after the other by the counter [as_draws].  The text of
    the two files and serde_json's codec for them is the class [AuthCodec].

    Facts of the credential store: its invariant over everything a registry
    process and its restarts can do, who is let in, and what revoking a key
    achieves. *)
From S2P Require Import Prelude OpMonad RustMap RustStr F64 Json Common AuthTokens.

Definition PRINCIPALS_FILE : string := "principals.json".
Definition KEYS_FILE : string := "api_keys.json".
Definition AUDIT_LOG_FILE : string := "audit.log".

Inductive AuthStoreError :=
| AuthAlreadyInitialized (text : string)
| AuthInvalid (text : string)
| AuthNotFound (text : string)
| AuthIo (text : string).

Inductive NamespacesUpdate := NsUnset | NsSet (v : option (list string)).

Record Tables := mkTables {
  t_principals : list (string * Principal);
  t_keys : list (string * ApiKey);
  t_by_hash : list (string * string)
}.
Definition empty_tables : Tables := mkTables [] [] [].

(** serde_json: [to_string_pretty] of a value, [from_str] at the two types. *)
Class AuthCodec := {
  auth_text : Type;
  to_string_pretty : Value → result auth_text string;
  principals_from_str : auth_text → result (list Principal) string;
  keys_from_str : auth_text → result (list ApiKey) string
}.
Class AuthCodecLaws `{!AuthCodec} : Prop := {
  pretty_principals l : ∃ text,
    to_string_pretty (JArray (principal_to_value <$> l)) = Ok text ∧ principals_from_str text = Ok l;
  pretty_keys l : ∃ text,
    to_string_pretty (JArray (key_to_value <$> l)) = Ok text ∧ keys_from_str text = Ok l
}.

(** A file: absent, unreadable or with a text. *)
Notation AuthFile := (option (result auth_text string)).

(** One write: creating the directory, and the atomic replacement. *)
Record AuthWriteIo `{!AuthCodec} := mkAuthWriteIo {
  parent_io : result unit string;
  replace_io : AtomicIo (result auth_text string)
}.
Arguments mkAuthWriteIo {_}.

(** What the store reads from outside; a failed append leaves a part of the
    line. *)
Class AuthEnv `{!AuthCodec} := {
  auth_dir : string;
  utcnow_iso_at : nat → string;
  random6_at : nat → string;
  random32_at : nat → string;
  create_dir_at : nat → result unit string;
  write_at : nat → AuthWriteIo;
  append_at : nat → result unit string;
  remove_at : nat → bool
}.

(** [AuthStore], with the files of its directory and the number of readings
    taken from the environment. *)
Record AuthStore `{!AuthCodec} := mkAuthStore {
  as_tables : Tables;
  as_principals_file : AuthFile;
  as_keys_file : AuthFile;
  as_audit_log : string;
  as_draws : nat
}.
Arguments mkAuthStore {_}.

(** * Operations that may fail *)

Notation AuthOp := (Op AuthStore).

Section op.
Context `{!AuthCodec}.

Definition get_tables {E} : AuthOp E Tables := λ s, (Ok (as_tables s), s).
Definition set_tables (t : Tables) (s : AuthStore) : AuthStore :=
  mkAuthStore t (as_principals_file s) (as_keys_file s) (as_audit_log s) (as_draws s).
Definition put_tables {E} (t : Tables) : AuthOp E unit := λ s, (Ok (), set_tables t s).
(** What runs between two locks. *)
Definition others {E} (f : AuthStore → AuthStore) : AuthOp E unit := λ s, (Ok (), f s).

(** One reading of a sequence. *)
Definition count_draw (s : AuthStore) : AuthStore :=
  mkAuthStore (as_tables s) (as_principals_file s) (as_keys_file s) (as_audit_log s) (S (as_draws s)).
Definition draw {E A} (readings : nat → A) : AuthOp E A := λ s,
  (Ok (readings (as_draws s)), count_draw s).
End op.

Definition with_principals (m : list (string * Principal)) (t : Tables) : Tables :=
  mkTables m (t_keys t) (t_by_hash t).
Definition with_keys (m : list (string * ApiKey)) (t : Tables) : Tables :=
  mkTables (t_principals t) m (t_by_hash t).
Definition with_by_hash (m : list (string * string)) (t : Tables) : Tables :=
  mkTables (t_principals t) (t_keys t) m.

(** [t.principals.insert(p.id, p)]; [t.keys.insert(k.key_id, k)] with
    [t.keys_by_hash.insert(k.key_hash, k.key_id)]. *)
Definition insert_principal (p : Principal) (t : Tables) : Tables :=
  with_principals (im_insert (p_id p) p (t_principals t)) t.
Definition insert_key (k : ApiKey) (t : Tables) : Tables :=
  with_by_hash (im_insert (k_hash k) (k_id k) (t_by_hash t))
    (with_keys (im_insert (k_id k) k (t_keys t)) t).

Definition parse_role (role : string) : result Role AuthStoreError :=
  ok_or (role_parse role)
    (AuthInvalid ("role must be one of ('admin', 'provider', 'user'), got '" +:+ role +:+ "'")).

Section store.
Context `{!AuthCrates, !SerdeText, !AuthCodec, !AuthEnv}.
Implicit Types (s : AuthStore) (t : Tables).

Definition utcnow_iso {E} : AuthOp E string := draw utcnow_iso_at.

(** * Persisting *)

(** [write_json_python_style], on one file. *)
Definition write_json_python_style (io : AuthWriteIo) (data : Value) (file : AuthFile) :
    result unit string * AuthFile :=
  match parent_io io with
  | Err e => (Err e, file)
  | Ok _ =>
      match to_string_pretty data with
      | Err e => (Err e, file)
      | Ok content => atomic_write_bytes (replace_io io) (Ok content) file
      end
  end.

Definition principals_data t : Value := JArray (principal_to_value <$> avalues (t_principals t)).
Definition keys_data t : Value := JArray (key_to_value <$> avalues (t_keys t)).

Definition persist_principals : AuthOp AuthStoreError unit := λ s,
  let '(r, file) :=
    write_json_python_style (write_at (as_draws s)) (principals_data (as_tables s)) (as_principals_file s) in
  (map_err AuthIo r, mkAuthStore (as_tables s) file (as_keys_file s) (as_audit_log s) (S (as_draws s))).

Definition persist_keys : AuthOp AuthStoreError unit := λ s,
  let '(r, file) :=
    write_json_python_style (write_at (as_draws s)) (keys_data (as_tables s)) (as_keys_file s) in
  (map_err AuthIo r, mkAuthStore (as_tables s) (as_principals_file s) file (as_audit_log s) (S (as_draws s))).

(** * The audit log *)

Definition newline_str : string := String (Ascii.ascii_of_nat 10) "".

Definition audit_entry (ts event : string) (fields : JsonDict) : JsonDict :=
  foldl (λ entry kv, im_insert kv.1 kv.2 entry) []
    (("ts", JString ts) :: ("event", JString event) :: fields).

(** [audit]: one line appended, or what a failed write left of it. *)
Definition append_line (line : string) s : AuthStore :=
  let text := match append_at (as_draws s) with Ok _ => line +:+ newline_str | Err part => part end in
  mkAuthStore (as_tables s) (as_principals_file s) (as_keys_file s) (as_audit_log s +:+ text)
    (S (as_draws s)).
Definition audit {E} (event : string) (fields : JsonDict) : AuthOp E unit := λ s,
  let ts := utcnow_iso_at (as_draws s) in
  (Ok (), append_line (dumps (JObject (audit_entry ts event fields))) (count_draw s)).

Definition by_value (by_ : option string) : Value := optional_string by_.

Definition audit_principal_created {E} (principal_id role : string) (by_ : Value) : AuthOp E unit :=
  audit "principal.created"
    [("principal_id", JString principal_id); ("role", JString role); ("by", by_)].
Definition audit_key_created {E} (key : ApiKey) (principal_id : string) (by_ : Value) : AuthOp E unit :=
  audit "key.created"
    [("key_id", JString (k_id key)); ("principal_id", JString principal_id);
     ("key_prefix", JString (k_prefix key)); ("by", by_)].

(** * Starting *)

(** The record of a new key; its id and its time are drawn in this order. *)
Definition new_key (principal_id token name : string) : AuthOp AuthStoreError ApiKey :=
  id ← draw random6_at;
  now ← utcnow_iso;
  mret (mkApiKey (new_id "k" id) principal_id (hash_token token) (token_prefix token) name now None None None).

Definition new_principal (handle : string) (role : Role) (namespaces : option (list string))
    (note : string) : AuthOp AuthStoreError Principal :=
  id ← draw random6_at;
  now ← utcnow_iso;
  mret (mkPrincipal (new_id "u" id) handle role namespaces now None note).

(** [empty]: the tables of a new process. *)
Definition empty_store s : AuthStore := set_tables empty_tables s.

(** [bootstrap], once there is no principals file. *)
Definition bootstrap_fresh (admin_token : option string) (admin_handle : string) : AuthOp AuthStoreError string :=
  token ← match admin_token with
          | Some token => mret token
          | None => random ← draw random32_at; mret (generate_token random)
          end;
  if negb (starts_with TOKEN_PREFIX token) then
    op_fail (AuthInvalid ("admin_token must start with '" +:+ TOKEN_PREFIX +:+ "'"))
  else
    created ← draw create_dir_at;
    _ ← op_lift (map_err AuthIo created);
    principal ← new_principal admin_handle Admin None "Bootstrap admin (root)";
    key ← new_key (p_id principal) token "bootstrap";
    _ ← put_tables (insert_key key (insert_principal principal empty_tables));
    _ ← persist_principals;
    _ ← persist_keys;
    _ ← audit_principal_created (p_id principal) "admin" (JString "bootstrap");
    _ ← audit_key_created key (p_id principal) (JString "bootstrap");
    mret token.

Definition bootstrap (admin_token : option string) (admin_handle : string) : AuthOp AuthStoreError string := λ s,
  match as_principals_file s with
  | Some _ =>
      (Err (AuthAlreadyInitialized ("Auth already initialized at " +:+ auth_dir +:+
         ". Run 'a2x-registry auth reset-admin --confirm' to rotate the admin key.")), s)
  | None => bootstrap_fresh admin_token admin_handle (empty_store s)
  end.

Definition load_principals (l : list Principal) (t : Tables) : Tables :=
  foldl (λ t p, insert_principal p t) t l.
Definition load_keys (l : list ApiKey) (t : Tables) : Tables := foldl (λ t k, insert_key k t) t l.

Definition failed_to_load (name e : string) : AuthStoreError :=
  AuthIo ("Failed to load " +:+ auth_dir +:+ "/" +:+ name +:+ ": " +:+ e).

(** [read_to_string] of a file and parsing it. *)
Definition read_file {A} (name : string) (parse : auth_text → result A string) (file : AuthFile) :
    result A AuthStoreError :=
  let? raw := match file with
              | None => Err (AuthIo "No such file or directory (os error 2)")
              | Some content => map_err AuthIo content
              end in
  map_err (failed_to_load name) (parse raw).

Definition load_from_disk : AuthOp AuthStoreError unit := λ s,
  (_ ← put_tables empty_tables;
   principals ← op_lift (read_file PRINCIPALS_FILE principals_from_str (as_principals_file s));
   _ ← put_tables (load_principals principals empty_tables);
   match as_keys_file s with
   | None => mret ()
   | Some _ =>
       keys ← op_lift (read_file KEYS_FILE keys_from_str (as_keys_file s));
       put_tables (load_keys keys (load_principals principals empty_tables))
   end) s.

(** [load_or_none]: whether the state's directory holds a store, now loaded. *)
Definition load_or_none : AuthOp AuthStoreError bool := λ s,
  match as_principals_file s with
  | None => (Ok false, s)
  | Some _ => (_ ← load_from_disk; mret true) (empty_store s)
  end.

(** * Authentication *)

Definition reject {A} (fields : JsonDict) (text : string) : AuthOp AuthenticationError A :=
  _ ← audit "auth.failed" fields; op_fail (mkAuthenticationError text).

(** The last lock: the time of the last use. *)
Definition touch_key {E} (key_id : string) : AuthOp E unit := λ s,
  let t := as_tables s in
  match aget key_id (t_keys t) with
  | None => (Ok (), s)
  | Some k =>
      let now := utcnow_iso_at (as_draws s) in
      let k := mkApiKey (k_id k) (k_principal k) (k_hash k) (k_prefix k) (k_name k) (k_created_at k)
                 (k_expires_at k) (Some now) (k_revoked_at k) in
      (Ok (), set_tables (with_keys (im_insert key_id k (t_keys t)) t) (count_draw s))
  end.

(** [authenticate]; [other1] and [other2] are what other threads do between
    its three locks. *)
Definition authenticate_amid (other1 other2 : AuthStore → AuthStore) (token : string) :
    AuthOp AuthenticationError AuthContext :=
  if str_is_empty token then reject [("reason", JString "empty_token")] "Empty or non-string token"
  else if negb (starts_with TOKEN_PREFIX token) then
    reject [("reason", JString "wrong_prefix"); ("key_prefix", JString (take_chars 12 token))]
      "Token has wrong prefix"
  else
    let h := hash_token token in
    t ← get_tables;
    match aget h (t_by_hash t) with
    | None =>
        reject [("reason", JString "invalid_token"); ("key_prefix", JString (token_prefix token))]
          "Invalid API key"
    | Some key_id =>
        _ ← others other1;
        t ← get_tables;
        match aget key_id (t_keys t),
              aget key_id (t_keys t) ≫= (λ k, aget (k_principal k) (t_principals t)) with
        | Some key, Some principal =>
            if negb (constant_time_equals (k_hash key) h) then
              reject [("reason", JString "hash_mismatch"); ("key_id", JString (k_id key))] "Hash mismatch"
            else if is_revoked key then
              reject [("reason", JString "revoked"); ("key_id", JString (k_id key))]
                "API key has been revoked"
            else if is_disabled principal then
              reject [("reason", JString "principal_disabled"); ("principal_id", JString (p_id principal));
                      ("key_id", JString (k_id key))]
                ("Principal '" +:+ p_handle principal +:+ "' is disabled")
            else
              _ ← others other2;
              _ ← touch_key key_id;
              mret (to_context principal)
        | _, _ =>
            reject [("reason", JString "dangling_key"); ("key_id", JString key_id);
                    ("key_prefix", JString (token_prefix token))]
              "Key references a missing principal"
        end
    end.

Definition authenticate : string → AuthOp AuthenticationError AuthContext := authenticate_amid id id.

(** * Principals *)

Definition create_principal (handle role : string) (namespaces : option (list string)) (note : string)
    (by_ : option string) : AuthOp AuthStoreError (Principal * string) :=
  parsed ← op_lift (parse_role role);
  if bool_decide (parsed = Admin) && bool_decide (is_Some namespaces) then
    op_fail (AuthInvalid "admin principal must have namespaces=None (all)")
  else if bool_decide (parsed ≠ Admin) && bool_decide (namespaces = None) then
    op_fail (AuthInvalid (role +:+ " principal requires namespaces=list (got NoneType)"))
  else
    t ← get_tables;
    if existsb (λ p, bool_decide (p_handle p = handle)) (avalues (t_principals t)) then
      op_fail (AuthInvalid ("handle '" +:+ handle +:+ "' already in use"))
    else
      principal ← new_principal handle parsed namespaces note;
      _ ← put_tables (insert_principal principal t);
      random ← draw random32_at;
      let token := generate_token random in
      key ← new_key (p_id principal) token "initial";
      _ ← put_tables (insert_key key (insert_principal principal t));
      _ ← persist_principals;
      _ ← persist_keys;
      _ ← audit_principal_created (p_id principal) role (by_value by_);
      _ ← audit_key_created key (p_id principal) (by_value by_);
      mret (principal, token).

Definition list_principals s : list Principal := avalues (t_principals (as_tables s)).
Definition get_principal (principal_id : string) s : option Principal :=
  aget principal_id (t_principals (as_tables s)).

(** The fields an update gives a principal. *)
Definition updated_disabled_at (now : string) (principal : Principal) (disabled : option bool) :
    option string :=
  match disabled with
  | Some true => Some (default now (p_disabled_at principal))
  | Some false => None
  | None => p_disabled_at principal
  end.

Definition update_principal (principal_id : string) (namespaces : NamespacesUpdate) (role : option string)
    (disabled : option bool) (note by_ : option string) : AuthOp AuthStoreError Principal :=
  t ← get_tables;
  principal ← op_lift (ok_or (aget principal_id (t_principals t))
    (AuthNotFound ("Principal '" +:+ principal_id +:+ "' not found")));
  new_role ← match role with Some r => op_lift (parse_role r) | None => mret (p_role principal) end;
  let new_ns := match namespaces with NsUnset => p_namespaces principal | NsSet v => v end in
  if bool_decide (new_role = Admin) && bool_decide (is_Some new_ns) then
    op_fail (AuthInvalid "admin principal must have namespaces=None (all)")
  else if bool_decide (new_role ≠ Admin) && bool_decide (new_ns = None) then
    op_fail (AuthInvalid (role_as_str new_role +:+ " principal requires namespaces=list"))
  else
    now ← (if bool_decide (disabled = Some true) && bool_decide (p_disabled_at principal = None)
           then utcnow_iso else mret "");
    let updated := mkPrincipal (p_id principal) (p_handle principal) new_role new_ns (p_created_at principal)
      (updated_disabled_at now principal disabled) (default (p_note principal) note) in
    _ ← put_tables (with_principals (im_insert principal_id updated (t_principals t)) t);
    _ ← persist_principals;
    _ ← audit "principal.updated" [("principal_id", JString principal_id); ("by", by_value by_)];
    mret updated.

(** * Keys *)

Definition create_key (principal_id name : string) (by_ : option string) :
    AuthOp AuthStoreError (ApiKey * string) :=
  t ← get_tables;
  if negb (ahas principal_id (t_principals t)) then
    op_fail (AuthNotFound ("Principal '" +:+ principal_id +:+ "' not found"))
  else
    random ← draw random32_at;
    let token := generate_token random in
    key ← new_key principal_id token name;
    _ ← put_tables (insert_key key t);
    _ ← persist_keys;
    _ ← audit_key_created key principal_id (by_value by_);
    mret (key, token).

Definition list_keys (principal_id : option string) s : list ApiKey :=
  let keys := avalues (t_keys (as_tables s)) in
  match principal_id with
  | Some pid => filter (λ k, k_principal k = pid) keys
  | None => keys
  end.

Definition revoked_at (now : string) (k : ApiKey) : ApiKey :=
  mkApiKey (k_id k) (k_principal k) (k_hash k) (k_prefix k) (k_name k) (k_created_at k)
    (k_expires_at k) (k_last_used_at k) (Some now).

Definition revoke_key (key_id : string) (by_ : option string) : AuthOp AuthStoreError ApiKey :=
  t ← get_tables;
  key ← op_lift (ok_or (aget key_id (t_keys t)) (AuthNotFound ("Key '" +:+ key_id +:+ "' not found")));
  key ← (if is_revoked key then mret key
         else
           now ← utcnow_iso;
           let key := revoked_at now key in
           _ ← put_tables (with_by_hash (aremove (k_hash key) (t_by_hash t))
                             (with_keys (im_insert key_id key (t_keys t)) t));
           _ ← persist_keys;
           mret key);
  _ ← audit "key.revoked"
        [("key_id", JString key_id); ("principal_id", JString (k_principal key)); ("by", by_value by_)];
  mret key.

Definition has_hash (hash : string) s : bool := ahas hash (t_by_hash (as_tables s)).

(** * The command line (auth/cli.rs) *)

(** [cmd_init]: the exit code. *)
Definition cmd_init (admin_token : option string) (handle : string) s : Z * AuthStore :=
  match bootstrap admin_token handle s with
  | (Ok _, s) => (0%Z, s)
  | (Err (AuthAlreadyInitialized _), s) => (1%Z, s)
  | (Err _, s) => (2%Z, s)
  end.

(** [remove_file] if the file exists; a failure is ignored. *)
Definition remove_file (i : nat) (file : AuthFile) : AuthFile :=
  match file with Some f => if remove_at i then None else Some f | None => None end.

Definition cmd_reset_admin (confirm : bool) (admin_token : option string) (handle : string) s :
    Z * AuthStore :=
  if negb confirm then (2%Z, s)
  else
    let s := mkAuthStore (as_tables s) (remove_file (as_draws s) (as_principals_file s))
      (remove_file (S (as_draws s)) (as_keys_file s)) (as_audit_log s) (S (S (as_draws s))) in
    match bootstrap admin_token handle s with
    | (Ok _, s) => (0%Z, s)
    | (Err _, s) => (1%Z, s)
    end.
End store.

(** * Running operations *)

Section wp.
Context `{!AuthCodec}.

Lemma wp_get {E} (Q : Tables → AuthStore → Prop) F s : Q (as_tables s) s → wp (E := E) get_tables Q F s.
Proof. done. Qed.
Lemma wp_put {E} t (Q : unit → AuthStore → Prop) F s : Q () (set_tables t s) → wp (E := E) (put_tables t) Q F s.
Proof. done. Qed.
Lemma wp_draw {E A} (readings : nat → A) (Q : A → AuthStore → Prop) F s :
  Q (readings (as_draws s)) (count_draw s) → wp (E := E) (draw readings) Q F s.
Proof. done. Qed.
End wp.

(** * The invariant *)

(** Admin means all namespaces. *)
Definition namespaces_ok (p : Principal) : Prop := p_role p = Admin ↔ p_namespaces p = None.

Definition principals_ok (l : list Principal) : Prop :=
  NoDup (p_id <$> l) ∧ NoDup (p_handle <$> l) ∧ Forall namespaces_ok l.

Ltac tables_simpl :=
  cbn [insert_principal insert_key with_principals with_keys with_by_hash t_principals t_keys t_by_hash].

Section facts.
Context `{!AuthCrates, !AuthCratesLaws, !SerdeText, !AuthCodec, !AuthCodecLaws, !AuthEnv}.
Implicit Types (s : AuthStore) (t : Tables).

Definition hash_form (k : ApiKey) : Prop := ∃ token, k_hash k = hash_token token.
Definition keys_ok (l : list ApiKey) : Prop :=
  NoDup (k_id <$> l) ∧ NoDup (k_hash <$> l) ∧ Forall hash_form l.

(** The index leads from a hash to its key, and every live key is in it. *)
Definition index_sound t : Prop := ∀ h kid,
  aget h (t_by_hash t) = Some kid → ∃ k, aget kid (t_keys t) = Some k ∧ k_hash k = h.
Definition index_complete t : Prop := ∀ kid k,
  aget kid (t_keys t) = Some k → is_revoked k = false → aget (k_hash k) (t_by_hash t) = Some kid.

Record tables_ok t : Prop := {
  ok_principal_ids : akeys (t_principals t) = p_id <$> avalues (t_principals t);
  ok_principals : principals_ok (avalues (t_principals t));
  ok_key_ids : akeys (t_keys t) = k_id <$> avalues (t_keys t);
  ok_keys : keys_ok (avalues (t_keys t));
  ok_sound : index_sound t;
  ok_complete : index_complete t
}.

(** What the files hold. *)
Definition stored {A} (parse : auth_text → result A string) (file : AuthFile) : option A :=
  match file with
  | Some (Ok text) => match parse text with Ok l => Some l | Err _ => None end
  | _ => None
  end.
Definition stored_principals s : option (list Principal) := stored principals_from_str (as_principals_file s).
Definition stored_keys s : option (list ApiKey) := stored keys_from_str (as_keys_file s).

Record store_ok s : Prop := {
  ok_tables : tables_ok (as_tables s);
  ok_stored_principals : ∃ l, stored_principals s = Some l ∧ principals_ok l;
  ok_stored_keys : ∃ l, stored_keys s = Some l ∧ keys_ok l
}.

(** The file system replaces files whole: a write that fails leaves the
    file as it was. *)
Definition writes_atomic : Prop := ∀ i, renames (replace_io (write_at i)) = true.

(** The next readings repeat no id and no token hash of the tables. *)
Definition fresh s : Prop := ∀ i, as_draws s ≤ i < as_draws s + 8 →
  new_id "u" (random6_at i) ∉ (p_id <$> avalues (t_principals (as_tables s))) ∧
  new_id "k" (random6_at i) ∉ (k_id <$> avalues (t_keys (as_tables s))) ∧
  hash_token (generate_token (random32_at i)) ∉ (k_hash <$> avalues (t_keys (as_tables s))).

(** What the registry process does, one lock at a time, and restarting it. *)
Inductive auth_step : AuthStore → AuthStore → Prop :=
| step_audit event fields s : auth_step s (audit (E := AuthStoreError) event fields s).2
| step_touch key_id s : auth_step s (touch_key (E := AuthenticationError) key_id s).2
| step_create_principal handle role namespaces note by_ s :
    fresh s → auth_step s (create_principal handle role namespaces note by_ s).2
| step_update_principal id namespaces role disabled note by_ s :
    auth_step s (update_principal id namespaces role disabled note by_ s).2
| step_create_key id name by_ s : fresh s → auth_step s (create_key id name by_ s).2
| step_revoke_key key_id by_ s : auth_step s (revoke_key key_id by_ s).2
| step_restart s s' : load_or_none s = (Ok true, s') → auth_step s s'.

Definition auth_reachable s : Prop := ∃ admin_token admin_handle s0 token s1,
  bootstrap admin_token admin_handle s0 = (Ok token, s1) ∧ rtc auth_step s1 s.

(** * Tables *)

Lemma is_revoked_at k k' b :
  k_revoked_at k' = k_revoked_at k → is_revoked k = b → is_revoked k' = b.
Proof. unfold is_revoked. by intros ->. Qed.


Lemma aget_by_id {A} (f : A → string) (m : list (string * A)) id x :
  akeys m = f <$> avalues m → aget id m = Some x → f x = id ∧ x ∈ avalues m.
Proof.
  unfold akeys, avalues. induction m as [|[i y] m IH]; [done|]. cbn. intros [= Hi Hm].
  case_decide as Hid; [|set_solver]. intros [= <-]. split; [congruence|left].
Qed.

Lemma aget_of_id {A} (f : A → string) (m : list (string * A)) x :
  akeys m = f <$> avalues m → NoDup (f <$> avalues m) → x ∈ avalues m → aget (f x) m = Some x.
Proof.
  intros Hk Hnd Hx. apply list_elem_of_fmap in Hx as ([i y] & -> & Hy). cbn.
  assert (f y = i) as ->.
  { unfold akeys, avalues in Hk. clear Hnd. induction m as [|[j z] m IH]; [by apply not_elem_of_nil in Hy|].
    cbn in Hk. apply elem_of_cons in Hy as [[= -> ->]|Hy]; [congruence|]. apply IH; [by injection Hk|done]. }
  apply aget_elem; [by rewrite Hk|done].
Qed.

Lemma NoDup_fmap_eq {A B} (f : A → B) (l : list A) x y :
  NoDup (f <$> l) → x ∈ l → y ∈ l → f x = f y → x = y.
Proof.
  induction l as [|z l IH]; [by intros _ ?%not_elem_of_nil|]. cbn. rewrite NoDup_cons, !elem_of_cons.
  intros [Hz Hnd] [->|Hx] [->|Hy] Hf; try done.
  - exfalso. apply Hz. rewrite Hf. by apply list_elem_of_fmap_2.
  - exfalso. apply Hz. rewrite <-Hf. by apply list_elem_of_fmap_2.
  - by apply IH.
Qed.

Lemma NoDup_fmap_snoc {A B} (f : A → B) (l : list A) x :
  NoDup (f <$> l) → f x ∉ (f <$> l) → NoDup (f <$> (l ++ [x])).
Proof.
  intros Hl Hx. rewrite fmap_app, NoDup_app. cbn. split_and!; [done| |apply NoDup_singleton].
  intros y Hy ->%list_elem_of_singleton. done.
Qed.

(** Inserting a new record appends it; replacing one keeps the order. *)
Lemma insert_new_values {A} (f : A → string) (m : list (string * A)) x :
  akeys m = f <$> avalues m → f x ∉ (f <$> avalues m) →
  akeys (im_insert (f x) x m) = f <$> avalues (im_insert (f x) x m) ∧
  avalues (im_insert (f x) x m) = avalues m ++ [x].
Proof.
  intros Hk Hx. rewrite im_insert_fresh by (by apply aget_None_keys; rewrite Hk).
  unfold akeys, avalues in *. rewrite !fmap_app, Hk. done.
Qed.

Lemma insert_same_values {A B} (f : A → string) (g : A → B) (m : list (string * A)) id x y :
  akeys m = f <$> avalues m → aget id m = Some x → f y = f x → g y = g x →
  akeys (im_insert id y m) = f <$> avalues (im_insert id y m) ∧
  g <$> avalues (im_insert id y m) = g <$> avalues m.
Proof.
  unfold akeys, avalues. induction m as [|[i z] m IH]; [done|]. cbn. intros [= Hi Hm] Hx Hf Hg.
  case_decide as Hid; cbn.
  - simplify_eq. by rewrite Hf, Hg, Hm.
  - destruct (IH Hm Hx Hf Hg) as [-> ->]. by rewrite Hi.
Qed.

Lemma avalues_insert_elem {A} (m : list (string * A)) id x y :
  y ∈ avalues (im_insert id x m) → y = x ∨ y ∈ avalues m.
Proof.
  unfold avalues. induction m as [|[i z] m IH]; cbn; [set_solver|].
  case_decide; cbn; rewrite !elem_of_cons; naive_solver.
Qed.

Lemma hash_in_keys t kid k :
  akeys (t_keys t) = k_id <$> avalues (t_keys t) → aget kid (t_keys t) = Some k →
  k ∈ avalues (t_keys t) ∧ k_id k = kid.
Proof. intros Hk Ha. by destruct (aget_by_id k_id _ _ _ Hk Ha). Qed.

Lemma index_of_new t k :
  index_sound t → index_complete t →
  akeys (t_keys t) = k_id <$> avalues (t_keys t) →
  k_id k ∉ (k_id <$> avalues (t_keys t)) → k_hash k ∉ (k_hash <$> avalues (t_keys t)) →
  index_sound (insert_key k t) ∧ index_complete (insert_key k t).
Proof.
  intros Hs Hc Hk Hid Hh.
  assert (Hne : ∀ kid k', aget kid (t_keys t) = Some k' → kid ≠ k_id k ∧ k_hash k' ≠ k_hash k).
  { intros kid k' Ha. destruct (hash_in_keys t kid k' Hk Ha) as [Hin <-].
    split; intros He; [apply Hid|apply Hh]; rewrite <-He; by apply list_elem_of_fmap_2. }
  split.
  - intros h kid. tables_simpl. rewrite aget_im_insert. case_decide as E; simplify_eq.
    + intros [= <-]. exists k. by rewrite aget_im_insert_eq.
    + intros (k' & Ha & Hh')%Hs. exists k'. rewrite aget_im_insert_ne by (apply not_eq_sym; naive_solver). done.
  - intros kid k'. tables_simpl. rewrite aget_im_insert. case_decide as E; simplify_eq.
    + intros [= <-] _. by rewrite aget_im_insert_eq.
    + intros Ha Hr. rewrite aget_im_insert_ne by (apply not_eq_sym; naive_solver). by apply Hc.
Qed.

Lemma tables_ok_empty : tables_ok empty_tables.
Proof.
  split; cbn; try done; repeat split; constructor.
Qed.

Lemma tables_ok_insert_principal p t :
  tables_ok t → namespaces_ok p → p_id p ∉ (p_id <$> avalues (t_principals t)) →
  p_handle p ∉ (p_handle <$> avalues (t_principals t)) → tables_ok (insert_principal p t).
Proof.
  intros [Hi (Hn & Hh & Hns) Hk Hks Hs Hc] Hp Hid Hha.
  destruct (insert_new_values p_id _ p Hi Hid) as [Hi' Hv'].
  split; tables_simpl; try done. rewrite Hv'. unfold principals_ok. rewrite Forall_app, Forall_singleton.
  by split_and!; try apply NoDup_fmap_snoc.
Qed.

Lemma tables_ok_insert_key k t :
  tables_ok t → hash_form k → k_id k ∉ (k_id <$> avalues (t_keys t)) →
  k_hash k ∉ (k_hash <$> avalues (t_keys t)) → tables_ok (insert_key k t).
Proof.
  intros [Hi Hp Hk (Hn & Hh & Hf) Hs Hc] Hfk Hid Hha.
  destruct (insert_new_values k_id _ k Hk Hid) as [Hk' Hv'].
  destruct (index_of_new t k Hs Hc Hk Hid Hha) as [Hs' Hc'].
  split; tables_simpl; try done. rewrite Hv'. unfold keys_ok. rewrite Forall_app, Forall_singleton.
  by split_and!; try apply NoDup_fmap_snoc.
Qed.

(** Replacing a principal by one of the same id and handle. *)
Lemma tables_ok_update_principal id p p' t :
  tables_ok t → aget id (t_principals t) = Some p → p_id p' = p_id p → p_handle p' = p_handle p →
  namespaces_ok p' → tables_ok (with_principals (im_insert id p' (t_principals t)) t).
Proof.
  intros [Hi (Hn & Hh & Hns) Hk Hks Hs Hc] Ha Hid Hha Hp.
  destruct (insert_same_values p_id p_handle _ id p p' Hi Ha Hid Hha) as [Hi' Hh'].
  destruct (insert_same_values p_id p_id _ id p p' Hi Ha Hid Hid) as [_ Hid'].
  split; tables_simpl; try done. unfold principals_ok. rewrite Hh', Hid'. split_and!; [done|done|].
  apply Forall_forall. intros x [->|Hx]%avalues_insert_elem; [done|].
  by eapply Forall_forall in Hns.
Qed.

(** Replacing a key by one of the same id and hash. *)
Lemma keys_ok_replace kid k k' t :
  tables_ok t → aget kid (t_keys t) = Some k → k_id k' = k_id k → k_hash k' = k_hash k →
  let m := im_insert kid k' (t_keys t) in
  akeys m = k_id <$> avalues m ∧ keys_ok (avalues m).
Proof.
  intros [_ _ Hk (Hn & Hh & Hf) _ _] Ha Hid Hha m.
  destruct (insert_same_values k_id k_hash _ kid k k' Hk Ha Hid Hha) as [Hi' Hh'].
  destruct (insert_same_values k_id k_id _ kid k k' Hk Ha Hid Hid) as [_ Hid'].
  split; [done|]. unfold keys_ok, m. rewrite Hh', Hid'. split_and!; [done|done|].
  assert (hash_form k') as Hf'.
  { destruct (hash_in_keys t kid k Hk Ha) as [Hin _]. eapply Forall_forall in Hf; [|done].
    destruct Hf as [tok Htok]. exists tok. congruence. }
  apply Forall_forall. intros x [->|Hx]%avalues_insert_elem; [done|]. by eapply Forall_forall in Hf.
Qed.

Lemma tables_ok_touch kid k k' t :
  tables_ok t → aget kid (t_keys t) = Some k → k_id k' = k_id k → k_hash k' = k_hash k →
  is_revoked k' = is_revoked k → tables_ok (with_keys (im_insert kid k' (t_keys t)) t).
Proof.
  intros Hok Ha Hid Hha Hr. destruct (keys_ok_replace kid k k' t Hok Ha Hid Hha) as [Hk' Hks'].
  destruct Hok as [Hi Hp Hk Hks Hs Hc]. split; tables_simpl; try done.
  - intros h kid' (k0 & Ha0 & Hh0)%Hs. tables_simpl. rewrite aget_im_insert. case_decide as E; simplify_eq; naive_solver.
  - intros kid' k0. tables_simpl. rewrite aget_im_insert. case_decide as E; simplify_eq; [|apply Hc].
    intros [= <-]. rewrite Hr, Hha. by apply Hc.
Qed.

(** Revoking: the key stays, its hash leaves the index. *)
Lemma tables_ok_revoke kid k k' t :
  tables_ok t → aget kid (t_keys t) = Some k → k_id k' = k_id k → k_hash k' = k_hash k →
  is_revoked k' = true →
  tables_ok (with_by_hash (aremove (k_hash k') (t_by_hash t)) (with_keys (im_insert kid k' (t_keys t)) t)).
Proof.
  intros Hok Ha Hid Hha Hr. destruct (keys_ok_replace kid k k' t Hok Ha Hid Hha) as [Hk' Hks'].
  destruct Hok as [Hi Hp Hk Hks Hs Hc]. destruct (hash_in_keys t kid k Hk Ha) as [Hin Hkid].
  split; tables_simpl; try done.
  - intros h kid'. tables_simpl. rewrite aget_aremove. case_decide as E; [done|]. intros (k0 & Ha0 & Hh0)%Hs.
    rewrite aget_im_insert. case_decide as E2; simplify_eq; naive_solver.
  - intros kid' k0. tables_simpl. rewrite aget_im_insert. case_decide as E; [intros [= <-]; congruence|].
    intros Ha0 Hr0. rewrite aget_aremove. case_decide as E2; [|by apply Hc]. exfalso. apply E.
    destruct (hash_in_keys t kid' k0 Hk Ha0) as [Hin0 Hkid0]. destruct Hks as (_ & Hnh & _).
    assert (k0 = k) as -> by (eapply (NoDup_fmap_eq k_hash); [done..|congruence]). congruence.
Qed.

(** * Loading *)

Lemma load_principals_values l : ∀ t,
  akeys (t_principals t) = p_id <$> avalues (t_principals t) →
  NoDup (p_id <$> (avalues (t_principals t) ++ l)) →
  let t' := load_principals l t in
  akeys (t_principals t') = p_id <$> avalues (t_principals t') ∧
  avalues (t_principals t') = avalues (t_principals t) ++ l ∧ t_keys t' = t_keys t ∧ t_by_hash t' = t_by_hash t.
Proof.
  induction l as [|p l IH]; intros t Hk Hnd; cbn [load_principals foldl].
  - by rewrite app_nil_r.
  - assert (p_id p ∉ (p_id <$> avalues (t_principals t))) as Hp.
    { rewrite fmap_app, NoDup_app in Hnd. destruct Hnd as (_ & Hd & _). intros Hin. apply (Hd _ Hin). left. }
    destruct (insert_new_values p_id _ p Hk Hp) as [Hk' Hv'].
    destruct (IH (insert_principal p t)) as (H1' & H2' & H3' & H4').
    + done.
    + tables_simpl. by rewrite Hv', <-app_assoc.
    + split_and!; [done| |done|done]. unfold load_principals in H2'. rewrite H2'. tables_simpl. by rewrite Hv', <-app_assoc.
Qed.

Lemma load_keys_ok l : ∀ t,
  tables_ok t → NoDup (k_id <$> (avalues (t_keys t) ++ l)) → NoDup (k_hash <$> (avalues (t_keys t) ++ l)) →
  Forall hash_form l →
  tables_ok (load_keys l t) ∧ avalues (t_keys (load_keys l t)) = avalues (t_keys t) ++ l ∧
  t_principals (load_keys l t) = t_principals t.
Proof.
  induction l as [|k l IH]; intros t Hok Hn Hh Hf; cbn [load_keys foldl].
  - by rewrite app_nil_r.
  - apply Forall_cons in Hf as [Hfk Hf].
    assert (∀ g : ApiKey → string, NoDup (g <$> (avalues (t_keys t) ++ k :: l)) →
            g k ∉ (g <$> avalues (t_keys t))) as Hnew.
    { intros g Hnd Hin. rewrite fmap_app, NoDup_app in Hnd. destruct Hnd as (_ & Hd & _).
      apply (Hd _ Hin). left. }
    pose proof (tables_ok_insert_key k t Hok Hfk (Hnew _ Hn) (Hnew _ Hh)) as Hok'.
    destruct (insert_new_values k_id _ k (ok_key_ids _ Hok) (Hnew _ Hn)) as [_ Hv'].
    destruct (IH (insert_key k t) Hok') as (H1' & H2' & H3'); try done; [tables_simpl; by rewrite Hv', <-app_assoc..|].
    split_and!; [done| |done]. unfold load_keys in H2'. rewrite H2'. tables_simpl. by rewrite Hv', <-app_assoc.
Qed.

Lemma load_ok pl kl :
  principals_ok pl → keys_ok kl →
  let t := load_keys kl (load_principals pl empty_tables) in
  tables_ok t ∧ avalues (t_principals t) = pl ∧ avalues (t_keys t) = kl.
Proof.
  intros (Hn & Hh & Hns) (Hkn & Hkh & Hkf).
  destruct (load_principals_values pl empty_tables) as (H1' & H2' & H3' & H4'); [done|done|].
  cbn [empty_tables t_principals t_keys t_by_hash avalues fmap list_fmap app] in *.
  assert (tables_ok (load_principals pl empty_tables)) as Hok.
  { split; rewrite ?H3'; try done.
    - by rewrite H2'.
    - unfold keys_ok. repeat split; constructor.
    - intros h kid. by rewrite H4'.
    - intros kid k. by rewrite H3'. }
  destruct (load_keys_ok kl _ Hok) as (H5' & H6' & H7'); rewrite ?H3'; try done.
  cbv zeta. split_and!; [done| |].
  - rewrite H7'. exact H2'.
  - rewrite H6', H3'. done.
Qed.

(** * The abstract machine

    What the tables and the two files hold, and the moves on them: every
    operation is a sequence of these moves. *)
Definition View : Type := Tables * option (list Principal) * option (list ApiKey).
Definition view s : View := (as_tables s, stored_principals s, stored_keys s).

Inductive table_step : View → View → Prop :=
| ts_new_principal p t pl kl :
    namespaces_ok p → p_id p ∉ (p_id <$> avalues (t_principals t)) →
    p_handle p ∉ (p_handle <$> avalues (t_principals t)) →
    table_step (t, pl, kl) (insert_principal p t, pl, kl)
| ts_new_key k t pl kl :
    hash_form k → k_id k ∉ (k_id <$> avalues (t_keys t)) →
    k_hash k ∉ (k_hash <$> avalues (t_keys t)) →
    table_step (t, pl, kl) (insert_key k t, pl, kl)
| ts_edit_principal id p p' t pl kl :
    aget id (t_principals t) = Some p → p_id p' = p_id p → p_handle p' = p_handle p → namespaces_ok p' →
    table_step (t, pl, kl) (with_principals (im_insert id p' (t_principals t)) t, pl, kl)
| ts_use_key kid k k' t pl kl :
    aget kid (t_keys t) = Some k → k_id k' = k_id k → k_hash k' = k_hash k → k_revoked_at k' = k_revoked_at k →
    table_step (t, pl, kl) (with_keys (im_insert kid k' (t_keys t)) t, pl, kl)
| ts_revoke_key kid k k' t pl kl :
    aget kid (t_keys t) = Some k → k_id k' = k_id k → k_hash k' = k_hash k → is_revoked k' = true →
    table_step (t, pl, kl)
      (with_by_hash (aremove (k_hash k') (t_by_hash t)) (with_keys (im_insert kid k' (t_keys t)) t), pl, kl)
| ts_save_principals t pl kl :
    table_step (t, pl, kl) (t, Some (avalues (t_principals t)), kl)
| ts_save_keys t pl kl : table_step (t, pl, kl) (t, pl, Some (avalues (t_keys t)))
| ts_load t pl kl :
    table_step (t, Some pl, Some kl) (load_keys kl (load_principals pl empty_tables), Some pl, Some kl).

Definition view_ok (v : View) : Prop :=
  tables_ok v.1.1 ∧ (∃ l, v.1.2 = Some l ∧ principals_ok l) ∧ (∃ l, v.2 = Some l ∧ keys_ok l).

Lemma view_ok_iff s : view_ok (view s) ↔ store_ok s.
Proof. split; [by intros (? & ? & ?)|by intros []]. Qed.

(** What the moves keep: the invariant. *)
Lemma table_step_ok v v' : table_step v v' → view_ok v → view_ok v'.
Proof.
  unfold view_ok. destruct 1; intros (Ht & Hpl & Hkl); cbn [fst snd] in *; split_and!; auto.
  - by apply tables_ok_insert_principal.
  - by apply tables_ok_insert_key.
  - by eapply tables_ok_update_principal.
  - eapply tables_ok_touch; eauto. by eapply is_revoked_at.
  - by eapply tables_ok_revoke.
  - eexists. split; [done|]. by apply ok_principals.
  - eexists. split; [done|]. by apply ok_keys.
  - destruct Hpl as (? & [= <-] & Hpl), Hkl as (? & [= <-] & Hkl). by destruct (load_ok pl kl Hpl Hkl).
Qed.

Lemma table_steps_ok v v' : rtc table_step v v' → view_ok v → view_ok v'.
Proof. induction 1; eauto using table_step_ok. Qed.

(** A key revoked in memory and in the file. *)
Definition dead_in (kid h : string) (l : list ApiKey) : Prop :=
  ∃ k, k ∈ l ∧ k_id k = kid ∧ k_hash k = h ∧ is_revoked k = true.
Definition dead (kid h : string) (v : View) : Prop :=
  dead_in kid h (avalues (t_keys v.1.1)) ∧ (∃ l, v.2 = Some l ∧ dead_in kid h l).

Lemma dead_replace kid h kid' k k' t :
  tables_ok t → aget kid' (t_keys t) = Some k → k_id k' = k_id k → k_hash k' = k_hash k →
  (is_revoked k = true → is_revoked k' = true) →
  dead_in kid h (avalues (t_keys t)) → dead_in kid h (avalues (im_insert kid' k' (t_keys t))).
Proof.
  intros Hok Ha Hid Hh Hr (k0 & Hin & Hk0 & Hh0 & Hr0).
  destruct (keys_ok_replace kid' k k' t Hok Ha Hid Hh) as [Hk' _].
  pose proof (aget_of_id k_id _ _ (ok_key_ids _ Hok) (proj1 (ok_keys _ Hok)) Hin) as Ha0.
  destruct (hash_in_keys t kid' k (ok_key_ids _ Hok) Ha) as [_ Hkid].
  assert (Hget : ∀ x y, aget x (im_insert kid' k' (t_keys t)) = Some y → y ∈ avalues (im_insert kid' k' (t_keys t))).
  { intros x y Hxy. by destruct (aget_by_id k_id _ _ _ Hk' Hxy). }
  destruct (decide (k_id k0 = kid')) as [He|Hne].
  - exists k'. rewrite He in Ha0. assert (k0 = k) as -> by congruence.
    split_and!; [|congruence|congruence|by apply Hr]. apply (Hget kid'). by rewrite aget_im_insert_eq.
  - exists k0. split_and!; try done. apply (Hget (k_id k0)). by rewrite aget_im_insert_ne.
Qed.

(** What the moves keep: a dead key stays dead. *)
Lemma table_step_dead kid h v v' : table_step v v' → view_ok v → dead kid h v → dead kid h v'.
Proof.
  unfold dead, view_ok. destruct 1; intros (Ht & Hpl & Hkl) [Hd Hs]; cbn [fst snd] in *; split; auto; tables_simpl.
  - destruct (insert_new_values k_id _ k (ok_key_ids _ Ht)) as [_ ->]; [done|].
    destruct Hd as (k0 & Hin & Hk0). exists k0. split; [|done]. apply elem_of_app. by left.
  - eapply dead_replace; eauto. by apply is_revoked_at.
  - by eapply dead_replace.
  - eexists. by split.
  - destruct Hpl as (? & [= <-] & Hpl), Hkl as (? & [= <-] & Hkl), Hs as (? & [= <-] & Hs).
    by destruct (load_ok pl kl Hpl Hkl) as (_ & _ & ->).
Qed.

Lemma table_steps_dead kid h v v' : rtc table_step v v' → view_ok v → dead kid h v → dead kid h v'.
Proof. induction 1; eauto using table_step_ok, table_step_dead. Qed.
End facts.
