(* ===== verification/AuthAccess.v ===== *)
(** The credential store as a machine: every operation is a sequence of moves
    of [table_step], so what the moves keep holds in every reachable store.

    Who the credential store lets in: theorems on every reachable store,
    with other threads between the locks of [authenticate], with restarts and
    with writes that fail. *)
From S2P Require Import Prelude OpMonad RustMap RustStr F64 Json Common AuthTokens AuthStore.

Section reach.
Context `{!AuthCrates, !AuthCratesLaws, !SerdeText, !AuthCodec, !AuthCodecLaws, !AuthEnv}.
Context (Hio : writes_atomic).
Implicit Types (s : AuthStore) (t : Tables).

(** * What each step does to the view *)

Lemma wp_audit {E} event fields (Q : unit → AuthStore → Prop) F s :
  (∀ s', view s' = view s → Q () s') → wp (E := E) (audit event fields) Q F s.
Proof. intros HQ. by apply HQ. Qed.

Lemma write_stored {A} (parse : auth_text → result A string) io data file (l : A) :
  renames (replace_io io) = true →
  (∃ text, to_string_pretty data = Ok text ∧ parse text = Ok l) →
  match write_json_python_style io data file with
  | (Ok _, file') => stored parse file' = Some l
  | (Err _, file') => file' = file
  end.
Proof.
  intros Hr (text & Ht & Hp). unfold write_json_python_style.
  destruct (parent_io io); [|done]. rewrite Ht.
  destruct (atomic_write_bytes (replace_io io) (Ok text) file) as [[u|e] file'] eqn:E.
  - apply atomic_write_Ok in E as ->. cbn. by rewrite Hp.
  - by apply atomic_write_Err in E.
Qed.

Lemma wp_persist_principals t pl kl (Q : unit → AuthStore → Prop) (F : AuthStore → Prop) s :
  view s = (t, pl, kl) →
  (∀ s', view s' = (t, Some (avalues (t_principals t)), kl) → Q () s') →
  (∀ s', view s' = (t, pl, kl) → F s') → wp persist_principals Q F s.
Proof.
  unfold view. intros [= <- <- <-] HQ HF. unfold wp, persist_principals.
  pose proof (write_stored principals_from_str (write_at (as_draws s)) (principals_data (as_tables s))
    (as_principals_file s) _ (Hio _) (pretty_principals _)) as Hw.
  destruct (write_json_python_style _ _ _) as [[[]|e] file']; cbn.
  - apply HQ. unfold view, stored_principals. cbn. by rewrite Hw.
  - apply HF. unfold view, stored_principals. cbn. by rewrite Hw.
Qed.

Lemma wp_persist_keys t pl kl (Q : unit → AuthStore → Prop) (F : AuthStore → Prop) s :
  view s = (t, pl, kl) →
  (∀ s', view s' = (t, pl, Some (avalues (t_keys t))) → Q () s') →
  (∀ s', view s' = (t, pl, kl) → F s') → wp persist_keys Q F s.
Proof.
  unfold view. intros [= <- <- <-] HQ HF. unfold wp, persist_keys.
  pose proof (write_stored keys_from_str (write_at (as_draws s)) (keys_data (as_tables s))
    (as_keys_file s) _ (Hio _) (pretty_keys _)) as Hw.
  destruct (write_json_python_style _ _ _) as [[[]|e] file']; cbn.
  - apply HQ. unfold view, stored_keys. cbn. by rewrite Hw.
  - apply HF. unfold view, stored_keys. cbn. by rewrite Hw.
Qed.

Lemma wp_new_key principal_id token name (Q : ApiKey → AuthStore → Prop) F s :
  (∀ k s', k_id k = new_id "k" (random6_at (as_draws s)) → k_principal k = principal_id →
     k_hash k = hash_token token → is_revoked k = false → view s' = view s → Q k s') →
  wp (new_key principal_id token name) Q F s.
Proof. intros HQ. by apply HQ. Qed.

Lemma wp_new_principal handle role namespaces note (Q : Principal → AuthStore → Prop) F s :
  (∀ p s', p_id p = new_id "u" (random6_at (as_draws s)) → p_handle p = handle → p_role p = role →
     p_namespaces p = namespaces → is_disabled p = false → as_draws s' = S (S (as_draws s)) →
     view s' = view s → Q p s') →
  wp (new_principal handle role namespaces note) Q F s.
Proof. intros HQ. by apply HQ. Qed.

Lemma view_parts s s' :
  view s' = view s →
  as_tables s' = as_tables s ∧ stored_principals s' = stored_principals s ∧ stored_keys s' = stored_keys s.
Proof. by intros [= -> -> ->]. Qed.

Lemma view_set_tables t s : view (set_tables t s) = (t, stored_principals s, stored_keys s).
Proof. done. Qed.

Lemma namespaces_ok_intro role (ns : option (list string)) :
  (bool_decide (role = Admin) && bool_decide (is_Some ns)) = false →
  (bool_decide (role ≠ Admin) && bool_decide (ns = None)) = false →
  role = Admin ↔ ns = None.
Proof.
  intros H1' H2'. apply andb_false_iff in H1', H2'. rewrite !bool_decide_eq_false in H1', H2'.
  destruct role, ns; naive_solver eauto.
Qed.
End reach.

Ltac wp_step :=
  lazymatch goal with
  | |- wp get_tables _ _ _ => apply wp_get
  | |- wp (put_tables _) _ _ _ => apply wp_put
  | |- wp (draw _) _ _ _ => apply wp_draw
  | |- wp utcnow_iso _ _ _ => apply wp_draw
  | |- wp (audit _ _) _ _ _ => apply wp_audit; intros ? ?
  | |- wp (audit_principal_created _ _ _) _ _ _ => apply wp_audit; intros ? ?
  | |- wp (audit_key_created _ _ _) _ _ _ => apply wp_audit; intros ? ?
  | |- wp persist_principals _ _ _ => eapply wp_persist_principals; [eassumption|eassumption|intros s3 Hv3|intros s3 Hv3]
  | |- wp persist_keys _ _ _ => eapply wp_persist_keys; [eassumption|eassumption|intros s4 Hv4|intros s4 Hv4]
  | |- wp (new_key _ _ _) _ _ _ => apply wp_new_key; intros k s2 Hkid Hkprin Hkhash Hkrev Hkview
  | |- wp (new_principal _ _ _ _) _ _ _ => apply wp_new_principal; intros p s1 Hpid Hphandle Hprole Hpns Hpdis Hpdraws Hpview
  | _ => wp_op
  end.

(** The moves of a known run end in the view of the state reached. *)
Ltac moves R :=
  lazymatch goal with
  | |- rtc _ _ (view ?x) =>
      lazymatch type of R with rtc _ _ ?w => replace (view x) with w by congruence; exact R end
  end.

Section ops.
Context `{!AuthCrates, !AuthCratesLaws, !SerdeText, !AuthCodec, !AuthCodecLaws, !AuthEnv}.
Context (Hio : writes_atomic).
Implicit Types (s : AuthStore) (t : Tables).

Lemma touch_key_moves {E} kid s :
  rtc table_step (view s) (view (touch_key (E := E) kid s).2).
Proof.
  unfold touch_key. destruct (aget kid (t_keys (as_tables s))) as [k|] eqn:Hk; [|done].
  apply rtc_once. cbn [snd]. unfold view at 1. by eapply ts_use_key.
Qed.

(** A new key on top of known tables, saved. *)
Lemma fresh_key k s n :
  fresh s → n < 8 → k_id k = new_id "k" (random6_at (as_draws s + n)) →
  k_id k ∉ (k_id <$> avalues (t_keys (as_tables s))).
Proof. intros Hf Hn ->. apply (Hf (as_draws s + n)). lia. Qed.

Lemma fresh_hash s n :
  fresh s → n < 8 →
  hash_token (generate_token (random32_at (as_draws s + n))) ∉ (k_hash <$> avalues (t_keys (as_tables s))).
Proof. intros Hf Hn. apply (Hf (as_draws s + n)). lia. Qed.

(** [create_principal]: on success the new principal and its key are in
    tables and files; a failure is at most a failed write. *)
Definition created p k token t (v : View) : Prop :=
  v = (insert_key k (insert_principal p t),
       Some (avalues (t_principals (insert_key k (insert_principal p t)))),
       Some (avalues (t_keys (insert_key k (insert_principal p t))))) ∧
  k_principal k = p_id p ∧ k_hash k = hash_token token ∧ is_revoked k = false ∧ is_disabled p = false.

Lemma handle_unused handle t :
  existsb (λ p, bool_decide (p_handle p = handle)) (avalues (t_principals t)) = false →
  handle ∉ (p_handle <$> avalues (t_principals t)).
Proof.
  intros Hh (p & -> & Hp)%list_elem_of_fmap. apply not_true_iff_false in Hh.
  apply Hh, existsb_exists. exists p. split; [by apply list_elem_of_In|by apply bool_decide_true].
Qed.

(** The moves that add a principal with its key, up to each save. *)
Lemma creating_moves p k t pl kl :
  tables_ok t → namespaces_ok p → hash_form k →
  p_id p ∉ (p_id <$> avalues (t_principals t)) → p_handle p ∉ (p_handle <$> avalues (t_principals t)) →
  k_id k ∉ (k_id <$> avalues (t_keys t)) → k_hash k ∉ (k_hash <$> avalues (t_keys t)) →
  let t' := insert_key k (insert_principal p t) in
  rtc table_step (t, pl, kl) (t', pl, kl) ∧
  rtc table_step (t, pl, kl) (t', Some (avalues (t_principals t')), kl) ∧
  rtc table_step (t, pl, kl) (t', Some (avalues (t_principals t')), Some (avalues (t_keys t'))).
Proof.
  intros Hok Hns Hf Hid Hh Hkid Hkh t'.
  assert (rtc table_step (t, pl, kl) (t', pl, kl)) as R.
  { eapply rtc_l; [by apply ts_new_principal|]. apply rtc_once. by apply ts_new_key. }
  split_and!; [done| |]; (etrans; [exact R|]).
  - apply rtc_once, ts_save_principals.
  - eapply rtc_l; [apply ts_save_principals|]. apply rtc_once, ts_save_keys.
Qed.

Lemma create_principal_wp handle role ns note by_ s :
  fresh s → tables_ok (as_tables s) →
  wp (create_principal handle role ns note by_)
    (λ pt s', (∃ k, created pt.1 k pt.2 (as_tables s) (view s')) ∧
       starts_with TOKEN_PREFIX pt.2 = true ∧
       (p_handle pt.1 = handle ∧ parse_role role = Ok (p_role pt.1) ∧ p_namespaces pt.1 = ns) ∧
       rtc table_step (view s) (view s'))
    (λ s', rtc table_step (view s) (view s')) s.
Proof.
  intros Hf Hok. unfold create_principal. do 2 wp_step; [|done].
  destruct (_ && _) eqn:Hns1; [by wp_step|].
  destruct (bool_decide (x ≠ Admin) && _) eqn:Hns2; [by wp_step|].
  do 2 wp_step. destruct (existsb _ _) eqn:Hh; [by wp_step|]. apply handle_unused in Hh.
  do 2 wp_step. destruct (view_parts _ _ Hpview) as (Ht & Hp & Hk).
  do 6 wp_step. cbn [count_draw as_draws set_tables] in *. rewrite Hpdraws in *.
  destruct (creating_moves p k (as_tables s) (stored_principals s) (stored_keys s)) as (R2 & R3 & R4).
  { done. }
  { unfold namespaces_ok. rewrite Hprole, Hpns. by apply namespaces_ok_intro. }
  { by eexists. }
  { rewrite Hpid. apply (Hf (as_draws s)). lia. }
  { by rewrite Hphandle. }
  { rewrite Hkid. apply (Hf (S (S (S (as_draws s))))). lia. }
  { rewrite Hkhash. apply (Hf (S (S (as_draws s)))). lia. }
  assert (view (set_tables (insert_key k (insert_principal p (as_tables s))) s2) =
          (insert_key k (insert_principal p (as_tables s)), stored_principals s, stored_keys s)) as Hv.
  { apply view_parts in Hkview as (_ & Hp2 & Hk2). rewrite view_set_tables.
    f_equal; [f_equal; exact (eq_trans Hp2 Hp)|exact (eq_trans Hk2 Hk)]. }
  do 2 wp_step. do 2 wp_step; [|moves R2]. do 2 wp_step; [|moves R3].
  do 5 wp_step. cbn [fst snd]. split_and!; [|by apply generated_starts|done|congruence|done|moves R4].
  exists k. unfold created. cbn [fst snd]. split_and!; congruence.
Qed.

(** [create_key]. *)
Lemma create_key_wp principal_id name by_ s :
  fresh s → tables_ok (as_tables s) →
  wp (create_key principal_id name by_)
    (λ kt s', let k := kt.1 in
       k_principal k = principal_id ∧ k_hash k = hash_token kt.2 ∧ is_revoked k = false ∧
       is_Some (aget principal_id (t_principals (as_tables s))) ∧
       k_id k ∉ (k_id <$> avalues (t_keys (as_tables s))) ∧
       view s' = (insert_key k (as_tables s), stored_principals s,
                  Some (avalues (t_keys (insert_key k (as_tables s))))) ∧
       rtc table_step (view s) (view s'))
    (λ s', rtc table_step (view s) (view s')) s.
Proof.
  intros Hf Hok. unfold create_key. do 2 wp_step.
  destruct (ahas principal_id _) eqn:Hhas; cbn [negb]; [|by wp_step]. apply ahas_true in Hhas.
  do 6 wp_step. cbn [count_draw as_draws] in *. destruct (view_parts _ _ Hkview) as (Ht & Hp & Hk).
  assert (k_id k ∉ (k_id <$> avalues (t_keys (as_tables s)))) as Hid.
  { rewrite Hkid. apply (Hf (S (as_draws s))). lia. }
  assert (k_hash k ∉ (k_hash <$> avalues (t_keys (as_tables s)))) as Hh.
  { rewrite Hkhash. apply (Hf (as_draws s)). lia. }
  assert (rtc table_step (view s) (insert_key k (as_tables s), stored_principals s, stored_keys s)) as R.
  { apply rtc_once. apply ts_new_key; [by eexists|done..]. }
  assert (view (set_tables (insert_key k (as_tables s)) s2) =
          (insert_key k (as_tables s), stored_principals s, stored_keys s)) as Hv.
  { rewrite view_set_tables. f_equal; [f_equal; exact Hp|exact Hk]. }
  do 2 wp_step; [|by rewrite Hv4]. do 3 wp_step. cbn [fst snd].
  split_and!; try done; [congruence|]. etrans; [exact R|]. replace (view s') with (view s4) by done.
  rewrite Hv4. apply rtc_once, ts_save_keys.
Qed.

(** [update_principal]. *)
Lemma update_principal_wp id ns role disabled note by_ s :
  tables_ok (as_tables s) →
  wp (update_principal id ns role disabled note by_)
    (λ p' s', ∃ p, aget id (t_principals (as_tables s)) = Some p ∧ p_id p' = p_id p ∧ p_handle p' = p_handle p ∧
       namespaces_ok p' ∧ rtc table_step (view s) (view s') ∧
       view s' = (with_principals (im_insert id p' (t_principals (as_tables s))) (as_tables s),
                  Some (avalues (im_insert id p' (t_principals (as_tables s)))), stored_keys s))
    (λ s', rtc table_step (view s) (view s')) s.
Proof.
  intros Hok. unfold update_principal. do 2 wp_step. do 2 wp_step; [|done].
  destruct (aget id _) as [p|] eqn:Hp; [|done]. simplify_eq/=.
  apply wp_bind. eapply (wp_mono _ (λ _ s', s' = s) _ (λ s', s' = s)); [by destruct role; [apply wp_lift|apply wp_ret]| |by intros ? ->].
  intros r s0 ->. set (new_ns := match ns with NsUnset => _ | NsSet v => v end).
  destruct (_ && _) eqn:Hns1; [by wp_step|]. destruct (bool_decide (r ≠ Admin) && _) eqn:Hns2; [by wp_step|].
  apply wp_bind. eapply (wp_mono _ (λ _ s', view s' = view s) _ (λ s', view s' = view s));
    [destruct (bool_decide (disabled = Some true) && _); [by apply wp_draw|by apply wp_ret]| |by intros s' ->].
  intros now s0 Hv0. destruct (view_parts _ _ Hv0) as (Ht & Hpl & Hk).
  set (p' := mkPrincipal _ _ _ _ _ _ _).
  assert (namespaces_ok p') as Hns by (by apply namespaces_ok_intro).
  set (t' := with_principals (im_insert id p' (t_principals (as_tables s))) (as_tables s)).
  assert (rtc table_step (view s) (t', stored_principals s, stored_keys s)) as R.
  { apply rtc_once. by eapply ts_edit_principal. }
  assert (view (set_tables t' s0) = (t', stored_principals s, stored_keys s)) as Hv.
  { rewrite view_set_tables. f_equal; [f_equal; exact Hpl|exact Hk]. }
  do 2 wp_step. do 2 wp_step; [|moves R]. do 3 wp_step. exists x.
  replace (view s') with (view s3) by congruence. rewrite Hv3.
  split_and!; try done. etrans; [exact R|]. apply rtc_once, ts_save_principals.
Qed.

(** [revoke_key]: a key that was live is dead in tables and file. *)
Lemma revoke_key_wp kid by_ s :
  tables_ok (as_tables s) →
  wp (revoke_key kid by_)
    (λ k' s', rtc table_step (view s) (view s') ∧
       ∃ k, aget kid (t_keys (as_tables s)) = Some k ∧ k_hash k' = k_hash k ∧ is_revoked k' = true ∧
         (is_revoked k = true → k' = k ∧ view s' = view s) ∧
         (is_revoked k = false → dead kid (k_hash k) (view s')))
    (λ s', rtc table_step (view s) (view s') ∧
       (is_Some (aget kid (t_keys (as_tables s))) →
          stored_principals s' = stored_principals s ∧ stored_keys s' = stored_keys s ∧
          ∃ k, aget kid (t_keys (as_tables s')) = Some k ∧ is_revoked k = true)) s.
Proof.
  intros Hok. unfold revoke_key. do 2 wp_step. do 2 wp_step;
    [|split; [done|]; intros [k Hk]; by rewrite Hk in Hfail].
  destruct (aget kid _) as [k|] eqn:Hk; [|done]. simplify_eq/=. wp_step.
  destruct (is_revoked x) eqn:Hr.
  { do 4 wp_step. split; [by replace (view s') with (view s)|]. exists x.
    split_and!; [done..|by intros _|congruence]. }
  set (k' := revoked_at (utcnow_iso_at (as_draws s)) x).
  set (t' := with_by_hash (aremove (k_hash k') (t_by_hash (as_tables s)))
     (with_keys (im_insert kid k' (t_keys (as_tables s))) (as_tables s))).
  assert (rtc table_step (view s) (t', stored_principals s, stored_keys s)) as R.
  { apply rtc_once. by eapply ts_revoke_key. }
  assert (view (set_tables t' (count_draw s)) = (t', stored_principals s, stored_keys s)) as Hv by done.
  do 4 wp_step. do 2 wp_step;
    [|split; [moves R|]; intros _; injection Hv4 as Ht -> ->; split_and!; [done..|];
      exists k'; rewrite Ht; subst t'; tables_simpl; by rewrite aget_im_insert_eq].
  do 4 wp_step.
  assert (view s' = (t', stored_principals s, Some (avalues (t_keys t')))) as Hv' by congruence.
  split. { rewrite Hv'. etrans; [exact R|]. apply rtc_once, ts_save_keys. }
  exists x. split_and!; [done..|congruence|]. intros _. rewrite Hv'.
  enough (dead_in kid (k_hash x) (avalues (t_keys t'))) by (split; [done|by eexists]).
  exists k'. destruct (keys_ok_replace kid x k' _ Hok Hk) as [Hk' _]; [done..|].
  destruct (hash_in_keys _ _ _ (ok_key_ids _ Hok) Hk) as [_ Hkid].
  split_and!; [|done..]. refine (proj2 (aget_by_id k_id _ kid _ Hk' _)). by rewrite aget_im_insert_eq.
Qed.

(** [load_or_none]: what the files hold becomes the tables. *)
Lemma load_stored s pl kl :
  stored_principals s = Some pl → stored_keys s = Some kl →
  load_or_none s =
    (Ok true, set_tables (load_keys kl (load_principals pl empty_tables)) s).
Proof.
  unfold stored_principals, stored_keys, stored, load_or_none, load_from_disk, read_file.
  destruct (as_principals_file s) as [[pt|]|] eqn:Hp; [|done..].
  destruct (as_keys_file s) as [[kt|]|] eqn:Hk; [|done..].
  destruct (principals_from_str pt) eqn:Hpt; [|done]. destruct (keys_from_str kt) eqn:Hkt; [|done].
  intros [= ->] [= ->].
  unfold mbind, op_bind, put_tables, op_lift, mret, op_ret, empty_store, set_tables.
  cbn [as_principals_file as_keys_file as_tables as_audit_log as_draws]. rewrite Hp, Hk. cbn [map_err].
  rewrite Hpt. cbn [map_err]. by rewrite Hkt.
Qed.

(** * Every operation is a sequence of moves *)

Lemma auth_step_moves s s' : auth_step s s' → store_ok s → rtc table_step (view s) (view s').
Proof.
  intros Hstep Hok. pose proof (ok_tables _ Hok) as Ht. destruct Hstep as [| | | | | |s s' Hl].
  - done.
  - apply touch_key_moves.
  - eapply wp_state, wp_mono; [by apply create_principal_wp|by intros ?? (_ & _ & _ & ?)|done].
  - eapply wp_state, wp_mono; [by apply update_principal_wp| |done].
    by intros ?? (? & _ & _ & _ & _ & ? & _).
  - eapply wp_state, wp_mono; [by apply create_key_wp| |done]. by intros ?? (_ & _ & _ & _ & _ & _ & ?).
  - eapply wp_state, wp_mono; [by apply revoke_key_wp|by intros ?? (? & _)|by intros ? (? & _)].
  - destruct (ok_stored_principals _ Hok) as (pl & Hp & _), (ok_stored_keys _ Hok) as (kl & Hk & _).
    rewrite (load_stored s pl kl Hp Hk) in Hl. injection Hl as <-. rewrite view_set_tables.
    unfold view. rewrite Hp, Hk. apply rtc_once, ts_load.
Qed.

(** * Bootstrapping *)

Lemma bootstrap_wp admin_token admin_handle s :
  wp (bootstrap admin_token admin_handle)
    (λ token s', as_principals_file s = None ∧ starts_with TOKEN_PREFIX token = true ∧ store_ok s' ∧
       ∃ p k, created p k token empty_tables (view s') ∧ p_role p = Admin ∧ p_handle p = admin_handle)
    (λ _, True) s.
Proof.
  unfold wp, bootstrap. destruct (as_principals_file s); [done|]. unfold bootstrap_fresh.
  lazymatch goal with |- match ?m ?s with _ => _ end => change (wp m
    (λ token s', @None (result auth_text string) = None ∧ starts_with TOKEN_PREFIX token = true ∧ store_ok s' ∧
       ∃ p k, created p k token empty_tables (view s') ∧ p_role p = Admin ∧ p_handle p = admin_handle)
    (λ _, True) s) end.
  apply wp_bind. eapply (wp_mono _ (λ _ _, True) _ (λ _, True)); [by destruct admin_token| |done].
  intros token s0 _. destruct (starts_with TOKEN_PREFIX token) eqn:Hstart; cbn [negb]; [|by wp_step].
  do 4 wp_step; [|done]. do 6 wp_step.
  set (t' := insert_key k (insert_principal p empty_tables)).
  assert (tables_ok t') as Hok.
  { apply tables_ok_insert_key; [apply tables_ok_insert_principal; [apply tables_ok_empty| |by apply not_elem_of_nil..]|
      by eexists|by apply not_elem_of_nil..]. unfold namespaces_ok. by rewrite Hprole, Hpns. }
  pose proof (view_set_tables t' s2) as Hv.
  do 2 wp_step; [|done]. do 2 wp_step; [|done]. do 5 wp_step.
  assert (view s'0 = (t', Some (avalues (t_principals t')), Some (avalues (t_keys t')))) as Hv' by congruence.
  split_and!; [done|done| |].
  - apply view_ok_iff. rewrite Hv'. split_and!; [done| |]; eexists; (split; [done|]).
    + by apply ok_principals.
    + by apply ok_keys.
  - exists p, k. by split_and!.
Qed.

(** * Reachable stores *)

Lemma auth_step_ok s s' : auth_step s s' → store_ok s → store_ok s'.
Proof.
  intros Hs Hok. apply view_ok_iff. eapply table_steps_ok; [by apply auth_step_moves|by apply view_ok_iff].
Qed.
Lemma auth_steps_moves s s' : rtc auth_step s s' → store_ok s → store_ok s' ∧ rtc table_step (view s) (view s').
Proof.
  induction 1 as [s|s s1 s' Hs Hr IH]; intros Hok; [done|].
  destruct (IH (auth_step_ok _ _ Hs Hok)) as [? ?]. split; [done|].
  etrans; [by apply auth_step_moves|done].
Qed.
Lemma reachable_ok s : auth_reachable s → store_ok s.
Proof.
  intros (tok & h & s0 & token & s1 & Hb & Hr).
  pose proof (bootstrap_wp tok h s0) as Hw. unfold wp in Hw. rewrite Hb in Hw.
  destruct Hw as (_ & _ & Hok & _). by destruct (auth_steps_moves _ _ Hr Hok).
Qed.
End ops.

Section access.
Context `{!AuthCrates, !AuthCratesLaws, !SerdeText, !AuthCodec, !AuthCodecLaws, !AuthEnv}.
Implicit Types (s : AuthStore) (t : Tables).

(** The token of a key that is not revoked, of a principal that is not
    disabled. *)
Definition live_key s (token : string) (k : ApiKey) (p : Principal) : Prop :=
  ∃ kid, aget kid (t_keys (as_tables s)) = Some k ∧ k_hash k = hash_token token ∧ is_revoked k = false ∧
    aget (k_principal k) (t_principals (as_tables s)) = Some p ∧ is_disabled p = false.

Lemma hash_compare k token : hash_form k → constant_time_equals (k_hash k) (hash_token token) = true ↔ k_hash k = hash_token token.
Proof.
  intros [tok ->]. apply constant_time_equals_same_length. by rewrite !str_length_hash.
Qed.

(** Acceptance needs a live key at the second lock. *)
Lemma amid_accepts o1 o2 token s ctx s' :
  store_ok (o1 s) → authenticate_amid o1 o2 token s = (Ok ctx, s') →
  starts_with TOKEN_PREFIX token = true ∧ ∃ k p, live_key (o1 s) token k p ∧ ctx = to_context p.
Proof.
  intros Hok. unfold authenticate_amid, reject. destruct (str_is_empty token); [done|].
  destruct (starts_with TOKEN_PREFIX token); cbn [negb]; [|done].
  unfold mbind, op_bind, get_tables, others, mret, op_ret.
  destruct (aget (hash_token token) _) as [kid|]; [|done].
  destruct (aget kid (t_keys (as_tables (o1 s)))) as [k|] eqn:Hk; [|done]. cbn [option_bind].
  destruct (aget (k_principal k) _) as [p|] eqn:Hp; [|done].
  destruct (constant_time_equals _ _) eqn:Hc; cbn [negb]; [|done].
  destruct (is_revoked k) eqn:Hr; [done|]. destruct (is_disabled p) eqn:Hd; [done|].
  destruct (touch_key kid (o2 (o1 s))) as [[] ?]; [|done]. intros [= <- _]. split; [done|].
  exists k, p. split; [|done]. exists kid. split_and!; try done.
  apply hash_compare; [|done]. pose proof (ok_tables _ Hok) as Ht.
  destruct (hash_in_keys _ _ _ (ok_key_ids _ Ht) Hk) as [Hin _].
  by eapply Forall_forall in Hin; [|apply (ok_keys _ Ht)].
Qed.

(** Undisturbed, a live key is let in. *)
Lemma live_accepted token s k p :
  store_ok s → starts_with TOKEN_PREFIX token = true → live_key s token k p →
  (authenticate token s).1 = Ok (to_context p).
Proof.
  intros Hok Hs (kid & Hk & Hh & Hr & Hp & Hd). unfold authenticate, authenticate_amid.
  destruct token as [|c token]; [done|]. cbn [str_is_empty]. rewrite Hs. cbn [negb].
  unfold mbind, op_bind, get_tables, others, mret, op_ret, id.
  rewrite <-Hh, (ok_complete _ (ok_tables _ Hok) kid k Hk Hr), Hk. cbn [option_bind]. rewrite Hp.
  rewrite (proj2 (constant_time_equals_same_length _ _ eq_refl) eq_refl). cbn [negb]. rewrite Hr, Hd.
  destruct (touch_key kid s) as [[[]|e] s'] eqn:Ht; [done|]. unfold touch_key in Ht. by rewrite Hk in Ht.
Qed.

Lemma live_dead token s k p kid :
  store_ok s → live_key s token k p → dead kid (hash_token token) (view s) → False.
Proof.
  intros Hok (kid' & Hk & Hh & Hr & _) [(k' & Hin' & _ & Hh' & Hr') _]. pose proof (ok_tables _ Hok) as Ht.
  destruct (hash_in_keys _ _ _ (ok_key_ids _ Ht) Hk) as [Hin _].
  assert (k' = k) as ->; [|congruence].
  eapply (NoDup_fmap_eq k_hash); [apply (ok_keys _ Ht)|done|done|congruence].
Qed.

(** A key and its principal found in the lists. *)
Lemma live_key_intro s token k p :
  tables_ok (as_tables s) → k ∈ avalues (t_keys (as_tables s)) → p ∈ avalues (t_principals (as_tables s)) →
  k_principal k = p_id p → k_hash k = hash_token token → is_revoked k = false → is_disabled p = false →
  live_key s token k p.
Proof.
  intros Ht Hk Hp Hkp Hh Hr Hd. exists (k_id k). split_and!; try done.
  - by apply (aget_of_id k_id); [apply Ht|apply (ok_keys _ Ht)|].
  - rewrite Hkp. by apply (aget_of_id p_id); [apply Ht|apply (ok_principals _ Ht)|].
Qed.

Lemma live_key_lists s token k p :
  tables_ok (as_tables s) → live_key s token k p →
  k ∈ avalues (t_keys (as_tables s)) ∧ p ∈ avalues (t_principals (as_tables s)) ∧ k_principal k = p_id p ∧
  k_hash k = hash_token token ∧ is_revoked k = false ∧ is_disabled p = false.
Proof.
  intros Ht (kid & Hk & Hh & Hr & Hp & Hd).
  destruct (aget_by_id p_id _ _ _ (ok_principal_ids _ Ht) Hp) as [? ?].
  destruct (hash_in_keys _ _ _ (ok_key_ids _ Ht) Hk) as [? _]. by split_and!.
Qed.

(** What a restart loads. *)
Lemma restart_tables s : store_ok s → ∃ s',
  load_or_none s = (Ok true, s') ∧ store_ok s' ∧
  Some (list_principals s') = stored_principals s ∧ Some (list_keys None s') = stored_keys s.
Proof.
  intros Hok. destruct (ok_stored_principals _ Hok) as (pl & Hp & Hpl), (ok_stored_keys _ Hok) as (kl & Hk & Hkl).
  destruct (load_ok pl kl Hpl Hkl) as (Ht & Hvp & Hvk).
  eexists. split; [by apply load_stored|]. split_and!.
  - split; [done|by exists pl|by exists kl].
  - unfold list_principals. cbn. by rewrite Hvp.
  - unfold list_keys. cbn. by rewrite Hvk.
Qed.

(** * Theorems *)

(** C20: In every reachable store, whatever other threads do between the
    locks, a token is let in only as the principal of a key that is live at
    the second lock; undisturbed, exactly the tokens of live keys are. *)
Theorem authenticate_exact (Hio : writes_atomic) s :
  auth_reachable s →
  (∀ o1 o2 token ctx s', rtc auth_step s (o1 s) → authenticate_amid o1 o2 token s = (Ok ctx, s') →
     starts_with TOKEN_PREFIX token = true ∧ ∃ k p, live_key (o1 s) token k p ∧ ctx = to_context p) ∧
  (∀ token ctx, (authenticate token s).1 = Ok ctx ↔
     starts_with TOKEN_PREFIX token = true ∧ ∃ k p, live_key s token k p ∧ ctx = to_context p).
Proof.
  intros Hr. pose proof (reachable_ok Hio s Hr) as Hok. split.
  - intros o1 o2 token ctx s' Hsteps. apply amid_accepts.
    by destruct (auth_steps_moves Hio s (o1 s) Hsteps Hok).
  - intros token ctx. split.
    + destruct (authenticate token s) as [r s'] eqn:Ha. cbn. intros ->. by apply amid_accepts in Ha.
    + intros (Hs & k & p & Hl & ->). by eapply live_accepted.
Qed.



(** A principal created with success is the one asked for and enters with
    the token it was given, as itself, at once and after a restart. *)
Theorem created_principal_enters (Hio : writes_atomic) handle role ns note by_ s p token s1 :
  auth_reachable s → fresh s → create_principal handle role ns note by_ s = (Ok (p, token), s1) →
  p_handle p = handle ∧ role_parse role = Some (p_role p) ∧ p_namespaces p = ns ∧
  (authenticate token s1).1 = Ok (to_context p) ∧
  ∃ s2, load_or_none s1 = (Ok true, s2) ∧ (authenticate token s2).1 = Ok (to_context p).
Proof.
  intros Hr Hf Hc. pose proof (reachable_ok Hio s Hr) as Hok.
  pose proof (auth_step_ok Hio _ _ (step_create_principal handle role ns note by_ s Hf) Hok) as Hok1.
  pose proof (create_principal_wp Hio handle role ns note by_ s Hf (ok_tables _ Hok)) as Hw. unfold wp in Hw.
  rewrite Hc in Hw, Hok1. cbn [fst snd] in *.
  destruct Hw as ((k & Hv & Hkp & Hkh & Hkr & Hpd) & Hstart & (Hh & Hrole & Hns) & _).
  destruct (restart_tables s1 Hok1) as (s2 & Hl & Hok2 & Hp2 & Hk2).
  injection Hv as Hvt Hvp Hvk. rewrite Hvp in Hp2. rewrite Hvk in Hk2.
  assert (k ∈ avalues (t_keys (insert_key k (insert_principal p (as_tables s))))) as Hink.
  { eapply aget_by_id; [|by apply aget_im_insert_eq]. rewrite <-Hvt. apply Hok1. }
  assert (p ∈ avalues (t_principals (insert_key k (insert_principal p (as_tables s))))) as Hinp.
  { eapply aget_by_id; [|by apply aget_im_insert_eq]. rewrite <-Hvt. apply Hok1. }
  split_and!; try done.
  - unfold parse_role in Hrole. by destruct (role_parse role) as [r|]; cbn in Hrole; simplify_eq.
  - eapply live_accepted; [done..|]. apply (live_key_intro s1 token k p); rewrite ?Hvt; try done. rewrite <-Hvt. apply Hok1.
  - exists s2. split; [done|]. eapply live_accepted; [done..|].
    injection Hp2 as Hp2. injection Hk2 as Hk2. unfold list_keys in Hk2. unfold list_principals in Hp2.
    apply (live_key_intro s2 token k p); rewrite ?Hp2, ?Hk2; try done. apply Hok2.
Qed.

(** C36: When saving a revocation fails, asking again reports success without
    saving: the key is back after a restart. *)
Theorem revoke_retry_not_durable (Hio : writes_atomic) s token k p by_ e s1 :
  auth_reachable s → starts_with TOKEN_PREFIX token = true → live_key s token k p →
  stored_principals s = Some (list_principals s) → stored_keys s = Some (list_keys None s) →
  revoke_key (k_id k) by_ s = (Err e, s1) →
  ∃ k' s2 s3, revoke_key (k_id k) by_ s1 = (Ok k', s2) ∧ is_revoked k' = true ∧
    load_or_none s2 = (Ok true, s3) ∧ (authenticate token s3).1 = Ok (to_context p).
Proof.
  intros Hr Hstart Hl Hp Hk Hrk. pose proof (reachable_ok Hio s Hr) as Hok. pose proof (ok_tables _ Hok) as Ht.
  destruct (live_key_lists _ _ _ _ Ht Hl) as (Hink & Hinp & Hkp & Hkh & Hkr & Hpd).
  pose proof (aget_of_id k_id _ _ (ok_key_ids _ Ht) (proj1 (ok_keys _ Ht)) Hink) as Hget.
  pose proof (auth_step_ok Hio _ _ (step_revoke_key (k_id k) by_ s) Hok) as Hok1.
  pose proof (revoke_key_wp Hio (k_id k) by_ s Ht) as Hw. unfold wp in Hw. rewrite Hrk in Hw, Hok1.
  destruct Hw as (_ & Hw). destruct Hw as (Hp1 & Hk1 & k1 & Hget1 & Hr1); [by eexists|]. cbn [snd] in Hok1.
  pose proof (revoke_key_wp Hio (k_id k) by_ s1 (ok_tables _ Hok1)) as Hw.
  pose proof (auth_step_ok Hio _ _ (step_revoke_key (k_id k) by_ s1) Hok1) as Hok2.
  assert (∃ s2, revoke_key (k_id k) by_ s1 = (Ok k1, s2) ∧ view s2 = view s1) as (s2 & Hrk2 & Hv2).
  { eexists. unfold revoke_key, mbind, op_bind, get_tables, op_lift. rewrite Hget1. cbn [ok_or]. by rewrite Hr1. }
  rewrite Hrk2 in Hok2. cbn [snd] in Hok2. apply view_parts in Hv2 as (_ & Hp2 & Hk2).
  destruct (restart_tables s2 Hok2) as (s3 & Hl3 & Hok3 & Hp3 & Hk3).
  exists k1, s2, s3. split_and!; try done. eapply live_accepted; [done..|].
  rewrite Hp2, Hp1, Hp in Hp3. rewrite Hk2, Hk1, Hk in Hk3. injection Hp3 as Hp3. injection Hk3 as Hk3.
  unfold list_keys, list_principals in Hp3, Hk3. apply live_key_intro; rewrite ?Hp3, ?Hk3; try done. apply Hok3.
Qed.
End access.

(** * Plaintext *)

(** Two environments that differ only in the random bytes of tokens, whose
    tokens have the same hashes and display prefixes. *)
Record same_but_tokens `{!AuthCrates, !AuthCodec} (env1 env2 : AuthEnv) : Prop := {
  same_dir : @auth_dir _ env1 = @auth_dir _ env2;
  same_now : @utcnow_iso_at _ env1 = @utcnow_iso_at _ env2;
  same_random6 : @random6_at _ env1 = @random6_at _ env2;
  same_create_dir : @create_dir_at _ env1 = @create_dir_at _ env2;
  same_write : @write_at _ env1 = @write_at _ env2;
  same_append : @append_at _ env1 = @append_at _ env2;
  same_remove : @remove_at _ env1 = @remove_at _ env2;
  same_hash i : hash_token (generate_token (@random32_at _ env1 i)) = hash_token (generate_token (@random32_at _ env2 i));
  same_prefix i : token_prefix (generate_token (@random32_at _ env1 i)) = token_prefix (generate_token (@random32_at _ env2 i))
}.

Section plaintext.
Context `{!AuthCrates, !SerdeText, !AuthCodec}.
Implicit Types (s : AuthStore).

(** A record of a key depends on hash and prefix only. *)
Lemma new_key_same env principal_id token1 token2 name :
  hash_token token1 = hash_token token2 → token_prefix token1 = token_prefix token2 →
  @new_key _ _ env principal_id token1 name = @new_key _ _ env principal_id token2 name.
Proof. unfold new_key. by intros -> ->. Qed.

Lemma bind_draw_same {E A B} (r1 r2 : nat → A) (f g : A → AuthOp E B) s :
  (∀ i s, (f (r1 i) s).2 = (g (r2 i) s).2) → ((draw r1 ≫= f) s).2 = ((draw r2 ≫= g) s).2.
Proof. intros Hfg. apply Hfg. Qed.
Lemma bind_draw_ret_same {E A B C} (r1 r2 : nat → A) (h : A → B) (f g : B → AuthOp E C) s :
  (∀ i s, (f (h (r1 i)) s).2 = (g (h (r2 i)) s).2) →
  (((draw r1 ≫= λ r, mret (h r)) ≫= f) s).2 = (((draw r2 ≫= λ r, mret (h r)) ≫= g) s).2.
Proof. intros Hfg. apply Hfg. Qed.

(** Of the tokens it makes the store keeps only hash and display prefix:
    tables, files and audit log are the same for other tokens that agree in
    these two. *)
Theorem plaintext_leaves_no_trace env1 env2 s :
  same_but_tokens env1 env2 →
  (∀ handle role ns note by_,
     (@create_principal _ _ _ env1 handle role ns note by_ s).2 =
     (@create_principal _ _ _ env2 handle role ns note by_ s).2) ∧
  (∀ id name by_, (@create_key _ _ _ env1 id name by_ s).2 = (@create_key _ _ _ env2 id name by_ s).2) ∧
  (∀ handle, (@bootstrap _ _ _ env1 None handle s).2 = (@bootstrap _ _ _ env2 None handle s).2).
Proof.
  destruct env1 as [d1 n1 r1 t1 c1 w1 a1 m1], env2 as [d2 n2 r2 t2 c2 w2 a2 m2].
  intros [Hd Hn Hr Hc Hw Ha Hm Hh Hp].
  cbn [auth_dir utcnow_iso_at random6_at random32_at create_dir_at write_at append_at remove_at] in *. subst.
  set (env1 := Build_AuthEnv _ _ _ _ t1 _ _ _ _) in *. set (env2 := Build_AuthEnv _ _ _ _ t2 _ _ _ _) in *.
  assert (Hkey : ∀ pid i name, @new_key _ _ env1 pid (generate_token (t1 i)) name =
                               @new_key _ _ env2 pid (generate_token (t2 i)) name).
  { intros pid i name. apply (new_key_same env1); [apply Hh|apply Hp]. }
  split_and!.
  - intros handle role ns note by_. unfold create_principal. apply bind_same. intros x s'.
    destruct (_ && _); [done|]. destruct (_ && _); [done|]. apply bind_same. intros t s1.
    destruct (existsb _ _); [done|]. do 2 (apply bind_same; intros ??). apply bind_draw_same. intros i u.
    cbv zeta. cbn [random32_at env1 env2]. rewrite Hkey. by do 6 (apply bind_same; intros ??).
  - intros id name by_. unfold create_key. apply bind_same. intros t s1.
    destruct (negb _); [done|]. apply bind_draw_same. intros i u.
    cbv zeta. cbn [random32_at env1 env2]. rewrite Hkey. by do 4 (apply bind_same; intros ??).
  - intros handle. unfold bootstrap. destruct (as_principals_file s); [done|].
    unfold bootstrap_fresh. apply bind_draw_ret_same. intros i u. cbn [random32_at env1 env2].
    rewrite !generated_starts. cbn [negb]. do 3 (apply bind_same; intros ??). rewrite Hkey.
    by do 6 (apply bind_same; intros ??).
Qed.
End plaintext.
