(* ===== verification/AuthGate.v ===== *)
(** HTTP errors of the registry backend (a2x-registry/src/backend/errors.rs):
    a status with the body FastAPI would answer.

    The gate of the registry's HTTP surface (a2x-registry/src/auth/extractors.rs):
    who a request is from, and whether it may touch a namespace.  The flag that
    protects a namespace is the registry service's (register/service.rs,
    register/store.rs: auth_config.json behind a cache). *)
From S2P Require Import Prelude OpMonad RustMap RustStr F64 Json Common Lease Heartbeat AuthTokens AuthStore.
From Stdlib Require Import Ascii.

Record ApiError := mkApiError {
  ae_status : Z;
  ae_body : Value;
  www_authenticate : bool;
  raw_body : bool
}.

(** [ApiError::new], [detail] and the named statuses. *)
Definition api_detail (status : Z) (detail : Value) : ApiError := mkApiError status detail false false.
Definition api_new (status : Z) (detail : string) : ApiError := api_detail status (JString detail).
Definition bad_request : string → ApiError := api_new 400.
Definition not_found : string → ApiError := api_new 404.
Definition forbidden : string → ApiError := api_new 403.
Definition conflict : string → ApiError := api_new 409.
Definition internal : string → ApiError := api_new 500.
Definition unprocessable : string → ApiError := api_new 422.

(** [unauthorized]: 401 that asks for a bearer token. *)
Definition unauthorized (detail : string) : ApiError := mkApiError 401 (JString detail) true false.

(** [feature_not_installed] and [llm_not_configured]: the body as a whole. *)
Definition feature_not_installed (feature extras detail : string) : ApiError :=
  mkApiError 503 (JObject [("feature", JString feature); ("extras", JString extras); ("detail", JString detail)])
    false true.
Definition llm_not_configured (detail : string) : ApiError :=
  mkApiError 503 (JObject [("reason", JString "llm_not_configured"); ("detail", JString detail)]) false true.

(** [json_body] and [into_response]: status, [WWW-Authenticate], body. *)
Definition json_body (e : ApiError) : Value :=
  if raw_body e then ae_body e else JObject [("detail", ae_body e)].
Definition into_response (e : ApiError) : Z * option string * Value :=
  (ae_status e, if www_authenticate e then Some "Bearer" else None, json_body e).

(** [From<HeartbeatError>]. *)
Definition api_of_heartbeat (e : HeartbeatError) : ApiError := api_detail 400 (JObject (he_body e)).

(** [From<AuthStoreError>]. *)
Definition api_of_auth_store (e : AuthStoreError) : ApiError :=
  match e with
  | AuthNotFound m => not_found m
  | AuthInvalid m | AuthAlreadyInitialized m => bad_request m
  | AuthIo m => internal m
  end.

(** * The flag of a namespace *)

Record AuthConfig := mkAuthConfig { required : bool; auth_schema_version : Z }.
Definition default_auth_config : AuthConfig := mkAuthConfig false 1.

(** [load_auth_config], from what [read_json] answers: [None] when the file
    does not exist. *)
Definition load_auth_config (file : option (result Value string)) : AuthConfig :=
  match file with
  | Some (Ok (JObject data)) =>
      let required := match aget "required" data with Some v => py_truthy v | None => false end in
      match aget "schema_version" data with
      | None => mkAuthConfig required 1
      | Some v =>
          match py_int v with
          | Some i => mkAuthConfig required i
          | None => default_auth_config
          end
      end
  | _ => default_auth_config
  end.

(** The dataset directories with their auth_config.json, and the cache. *)
Record AuthConfigs := mkAuthConfigs {
  auth_dirs : gmap string (option (result Value string));
  auth_required_cache : gmap string bool
}.

(** [is_auth_required]; [open_ok] is whether [get_store] succeeds. *)
Definition is_auth_required (open_ok : bool) (dataset : string) (c : AuthConfigs) : bool * AuthConfigs :=
  match auth_required_cache c !! dataset with
  | Some v => (v, c)
  | None =>
      match auth_dirs c !! dataset with
      | None => (false, c)
      | Some file =>
          let required := if open_ok then required (load_auth_config file) else false in
          (required, mkAuthConfigs (auth_dirs c) (<[dataset := required]> (auth_required_cache c)))
      end
  end.

(** [dataset_exists]. *)
Definition dataset_exists (name : string) (c : AuthConfigs) : bool := bool_decide (is_Some (auth_dirs c !! name)).

(** * The token of a request *)

(** [splitn(2, char::is_whitespace)]: the text before the first white space,
    and the text after it. *)
Fixpoint split_whitespace_once (s : string) : string * option string :=
  match strip_first white_space s with
  | Some rest => ("", Some rest)
  | None =>
      match s with
      | EmptyString => ("", None)
      | String a s => let '(before, rest) := split_whitespace_once s in (String a before, rest)
      end
  end.

Definition parse_bearer (authorization : option string) : option string :=
  value ← trim <$> authorization;
  let '(scheme, rest) := split_whitespace_once value in
  token ← trim <$> rest;
  if negb (bool_decide (to_lowercase scheme = "bearer")) || str_is_empty token then None else Some token.

(** * The application *)

Definition AUTH_NOT_INITIALIZED : string :=
  "Auth is not initialized on this registry. Run 'a2x-registry auth init' to enable the authentication module.".

(** Of [AppState]: the active credential store, and the namespaces. *)
Record AppState `{!AuthCodec} := mkAppState {
  app_auth : option AuthStore;
  app_configs : AuthConfigs
}.
Arguments mkAppState {_}.
Notation AppOp := (Op AppState).

Section gate.
Context `{!AuthCrates, !SerdeText, !AuthCodec, !AuthEnv}.
Context (store_opens : string → bool).
Implicit Types (st : AppState).

Definition set_auth (a : option AuthStore) st : AppState := mkAppState a (app_configs st).

(** An operation on the store the application holds; the router's [store]
    answers 404 without one. *)
Definition on_store {A} (m : AuthStore → result A ApiError * AuthStore) : AppOp ApiError A := λ st,
  match app_auth st with
  | None => (Err (not_found AUTH_NOT_INITIALIZED), st)
  | Some s => let '(r, s) := m s in (r, set_auth (Some s) st)
  end.
Definition audit_app (event : string) (fields : JsonDict) : AppOp ApiError unit := on_store (audit event fields).

Definition authenticate_app (token : string) : AppOp ApiError AuthContext :=
  on_store (op_map_err (λ '(mkAuthenticationError text), unauthorized text) (authenticate token)).

Definition auth_required_app (dataset : string) : AppOp ApiError bool := λ st,
  let '(b, c) := is_auth_required (store_opens dataset) dataset (app_configs st) in
  (Ok b, mkAppState (app_auth st) c).

Definition dataset_value (dataset : option string) : Value := optional_string dataset.

Definition in_namespaces (dataset : string) (ctx : AuthContext) : bool :=
  match namespaces ctx with Some n => bool_decide (dataset ∈ n) | None => false end.

(** [authorize], after the anonymous fast paths. *)
Definition authorize_token (dataset : option string) (header : option string) :
    AppOp ApiError (option AuthContext) :=
  match parse_bearer header with
  | None =>
      _ ← audit_app "auth.failed" [("reason", JString "no_token"); ("dataset", dataset_value dataset)];
      op_fail (unauthorized "Authentication required for this namespace")
  | Some token =>
      ctx ← authenticate_app token;
      match dataset with
      | Some ds =>
          if negb (is_admin ctx) && negb (in_namespaces ds ctx) then
            _ ← audit_app "permission.denied"
                  [("reason", JString "namespace_out_of_scope");
                   ("principal_id", JString (principal_id ctx)); ("dataset", dataset_value dataset)];
            op_fail (forbidden ("Principal lacks access to namespace '" +:+ ds +:+ "'"))
          else mret (Some ctx)
      | None => mret (Some ctx)
      end
  end.

(** [authorize]; [dataset] is the path's, [header] the Authorization header. *)
Definition authorize (dataset header : option string) : AppOp ApiError (option AuthContext) := λ st,
  match app_auth st with
  | None => (Ok None, st)
  | Some _ =>
      (match dataset with
       | Some ds =>
           required ← auth_required_app ds;
           if negb required then mret None else authorize_token dataset header
       | None => authorize_token dataset header
       end) st
  end.

Definition audit_admin_required (ctx : AuthContext) (reason : string) : AppOp ApiError unit :=
  audit_app "permission.denied"
    [("reason", JString reason); ("principal_id", JString (principal_id ctx));
     ("role", JString (role_as_str (role ctx)))].

(** [if let Some(store) = state.auth_store()]. *)
Definition audit_if_store (ctx : AuthContext) (reason : string) : AppOp ApiError unit := λ st,
  match app_auth st with Some _ => audit_admin_required ctx reason st | None => (Ok (), st) end.

(** The extractors [RequirePrincipal], [RequireAdmin], [RequireAdminOrAnon]. *)
Definition require_principal (dataset header : option string) : AppOp ApiError AuthContext :=
  ctx ← authorize dataset header;
  match ctx with
  | Some ctx => mret ctx
  | None => op_fail (unauthorized "Authentication required")
  end.

Definition require_admin (dataset header : option string) : AppOp ApiError AuthContext :=
  ctx ← require_principal dataset header;
  if negb (is_admin ctx) then
    _ ← audit_if_store ctx "admin_required";
    op_fail (forbidden "Admin role required")
  else mret ctx.

Definition require_admin_or_anon (dataset header : option string) : AppOp ApiError (option AuthContext) :=
  ctx ← authorize dataset header;
  match ctx with
  | None => mret None
  | Some c =>
      if is_admin c then mret (Some c)
      else
        _ ← audit_if_store c "admin_required_for_dataset_ops";
        op_fail (forbidden "Admin role required for dataset-level operation")
  end.

(** [RequireAdminStrict::check]. *)
Definition require_admin_strict (header : option string) (missing_token_detail not_admin_detail : string) :
    AppOp ApiError AuthContext := λ st,
  match app_auth st with
  | None => (Err (not_found AUTH_NOT_INITIALIZED), st)
  | Some _ =>
      (match parse_bearer header with
       | None => op_fail (unauthorized missing_token_detail)
       | Some token =>
           ctx ← authenticate_app token;
           if negb (is_admin ctx) then
             _ ← audit_admin_required ctx "admin_required";
             op_fail (forbidden not_admin_detail)
           else mret ctx
       end) st
  end.
End gate.
