(* ===== verification/AuthRouter.v ===== *)
(** The endpoints under /api/auth (a2x-registry/src/auth/router.rs).

    What the gate and the endpoints under /api/auth let a caller do. *)
From S2P Require Import Prelude OpMonad RustMap RustStr F64 Json Common AuthTokens AuthStore AuthAccess AuthGate.

Record CreatePrincipalRequest := mkCreatePrincipalRequest {
  cp_handle : string;
  cp_role : string;
  cp_namespaces : option (list string);
  cp_note : string
}.
Record UpdatePrincipalRequest := mkUpdatePrincipalRequest {
  up_namespaces : option (option (list string));
  up_role : option string;
  up_disabled : option bool;
  up_note : option string
}.

(** A request to the group: route, path parameters, query and body. *)
Inductive AuthRequest :=
| Whoami
| CreatePrincipal (req : CreatePrincipalRequest)
| ListPrincipals
| GetPrincipal (id : string)
| UpdatePrincipal (id : string) (req : UpdatePrincipalRequest)
| ListKeys (principal_id : option string)
| CreateKey (name : string)
| RevokeKey (key_id : string).

Notation HttpAnswer := (Z * Value)%type.

Section router.
Context `{!AuthCrates, !SerdeText, !AuthCodec, !AuthEnv}.
Context (store_opens : string → bool).

(** [store.op(..)?], with [From<AuthStoreError>]. *)
Definition store_op {A} (m : AuthOp AuthStoreError A) : AppOp ApiError A :=
  on_store (op_map_err api_of_auth_store m).
Definition store_get {A} (f : AuthStore → A) : AppOp ApiError A := on_store (op_gets f).

Definition whoami (header : option string) : AppOp ApiError HttpAnswer :=
  ctx ← require_principal store_opens None header;
  p ← store_get (get_principal (principal_id ctx));
  match p with
  | None => op_fail (unauthorized "Principal not found")
  | Some p =>
      mret (200%Z, JObject [("principal_id", JString (p_id p)); ("handle", JString (p_handle p));
        ("role", JString (role_as_str (p_role p))); ("namespaces", optional_strings (p_namespaces p));
        ("disabled", JBool (is_disabled p))])
  end.

(** [max_by(created_at)]: the last of the latest. *)
Definition latest_key (keys : list ApiKey) : option ApiKey :=
  foldl (λ best k,
    match best with
    | Some b => if gtb (k_created_at b) (k_created_at k) then Some b else Some k
    | None => Some k
    end) None keys.

Definition unknown_namespaces (namespaces : list string) (c : AuthConfigs) : list string :=
  filter (λ n, dataset_exists n c = false) namespaces.

(** The guard of [create_principal] on the namespaces of the request. *)
Definition check_namespaces (req : CreatePrincipalRequest) : AppOp ApiError unit :=
  if bool_decide (cp_role req = "admin") then mret ()
  else
    match cp_namespaces req with
    | None => mret ()
    | Some namespaces =>
        unknown ← op_gets (λ st : AppState, unknown_namespaces namespaces (app_configs st));
        if bool_decide (unknown = []) then mret ()
        else
          op_fail (bad_request ("Unknown namespace(s): [" +:+
            str_join ", " ((λ n, "'" +:+ n +:+ "'") <$> unknown) +:+ "]. Create the dataset first."))
    end.

Definition create_principal_handler (header : option string) (req : CreatePrincipalRequest) :
    AppOp ApiError HttpAnswer :=
  ctx ← require_admin store_opens None header;
  _ ← check_namespaces req;
  created ← on_store (op_map_err
    (λ e, match e with AuthNotFound m => bad_request m | other => api_of_auth_store other end)
    (create_principal (cp_handle req) (cp_role req) (cp_namespaces req) (cp_note req)
       (Some (principal_id ctx))));
  let '(principal, token) := (created : Principal * string) in
  key ← store_get (λ s, latest_key (list_keys (Some (p_id principal)) s));
  mret (201%Z, JObject [("principal_id", JString (p_id principal)); ("handle", JString (p_handle principal));
    ("role", JString (role_as_str (p_role principal))); ("namespaces", optional_strings (p_namespaces principal));
    ("key_id", optional_string (k_id <$> key)); ("key_prefix", optional_string (k_prefix <$> key));
    ("token", JString token)]).

Definition list_principals_handler (header : option string) : AppOp ApiError HttpAnswer :=
  _ ← require_admin store_opens None header;
  l ← store_get list_principals;
  mret (200%Z, JArray (principal_to_value <$> l)).

Definition get_principal_handler (header : option string) (id : string) : AppOp ApiError HttpAnswer :=
  _ ← require_admin store_opens None header;
  p ← store_get (get_principal id);
  match p with
  | Some p => mret (200%Z, principal_to_value p)
  | None => op_fail (not_found ("Principal '" +:+ id +:+ "' not found"))
  end.

Definition update_principal_handler (header : option string) (id : string) (req : UpdatePrincipalRequest) :
    AppOp ApiError HttpAnswer :=
  ctx ← require_admin store_opens None header;
  let namespaces := match up_namespaces req with None => NsUnset | Some v => NsSet v end in
  updated ← store_op (update_principal id namespaces (up_role req) (up_disabled req) (up_note req)
    (Some (principal_id ctx)));
  mret (200%Z, principal_to_value updated).

Definition list_keys_handler (header query : option string) : AppOp ApiError HttpAnswer :=
  ctx ← require_principal store_opens None header;
  let pid := if is_admin ctx then query else Some (principal_id ctx) in
  l ← store_get (list_keys pid);
  mret (200%Z, JArray (key_to_value <$> l)).

Definition create_key_handler (header : option string) (name : string) : AppOp ApiError HttpAnswer :=
  ctx ← require_principal store_opens None header;
  created ← store_op (create_key (principal_id ctx) name (Some (principal_id ctx)));
  let '(key, token) := (created : ApiKey * string) in
  mret (201%Z, JObject [("key_id", JString (k_id key)); ("principal_id", JString (k_principal key));
    ("key_prefix", JString (k_prefix key)); ("name", JString (k_name key));
    ("created_at", JString (k_created_at key)); ("token", JString token)]).

Definition revoke_key_handler (header : option string) (key_id : string) : AppOp ApiError HttpAnswer :=
  ctx ← require_principal store_opens None header;
  keys ← store_get (list_keys None);
  match snd <$> list_find (λ k, k_id k = key_id) keys with
  | None => op_fail (not_found ("Key '" +:+ key_id +:+ "' not found"))
  | Some target =>
      if negb (is_admin ctx) && negb (bool_decide (k_principal target = principal_id ctx)) then
        _ ← audit_app "permission.denied"
              [("reason", JString "not_key_owner"); ("principal_id", JString (principal_id ctx));
               ("key_id", JString key_id)];
        op_fail (forbidden "You can only revoke your own keys")
      else
        revoked ← store_op (revoke_key key_id (Some (principal_id ctx)));
        mret (200%Z, JObject [("key_id", JString (k_id revoked));
          ("revoked_at", optional_string (k_revoked_at revoked))])
  end.

(** [router], behind the layer [require_initialized_auth]. *)
Definition auth_router (req : AuthRequest) (header : option string) : AppOp ApiError HttpAnswer := λ st,
  match app_auth st with
  | None => (Err (not_found AUTH_NOT_INITIALIZED), st)
  | Some _ =>
      match req with
      | Whoami => whoami header
      | CreatePrincipal req => create_principal_handler header req
      | ListPrincipals => list_principals_handler header
      | GetPrincipal id => get_principal_handler header id
      | UpdatePrincipal id req => update_principal_handler header id req
      | ListKeys q => list_keys_handler header q
      | CreateKey name => create_key_handler header name
      | RevokeKey key_id => revoke_key_handler header key_id
      end st
  end.
End router.

(** What one principal may do to the tables: its own keys only. *)
Definition confined (pid : string) (t t' : Tables) : Prop :=
  t_principals t' = t_principals t ∧ ∀ kid,
  (∀ k', aget kid (t_keys t') = Some k' → aget kid (t_keys t) = Some k' ∨ k_principal k' = pid) ∧
  (∀ k, aget kid (t_keys t) = Some k → aget kid (t_keys t') = Some k ∨ k_principal k = pid).

#[export] Instance confined_refl pid : Reflexive (confined pid).
Proof. intros t. split; [done|]. intros kid. split; auto. Qed.
#[export] Instance confined_trans pid : Transitive (confined pid).
Proof.
  intros t1 t2 t3 [Hp1 Hk1] [Hp2 Hk2]. split; [congruence|]. intros kid. split; [|].
  - intros k' [Hk'|?]%(proj1 (Hk2 kid)); [|by right]. by apply (Hk1 kid).
  - intros k [Hk|?]%(proj2 (Hk1 kid)); [|by right]. by apply (Hk2 kid).
Qed.

(** One key replaced by a key of the same owner, or added. *)
Lemma confined_insert pid kid k' h t :
  k_principal k' = pid → (∀ k, aget kid (t_keys t) = Some k → k_principal k = pid) →
  confined pid t (with_by_hash h (with_keys (im_insert kid k' (t_keys t)) t)).
Proof.
  intros Hk' Hk. split; [done|]. intros kid0. tables_simpl. rewrite aget_im_insert. case_decide; naive_solver.
Qed.

Section router_facts.
Context `{!AuthCrates, !AuthCratesLaws, !SerdeText, !AuthCodec, !AuthCodecLaws, !AuthEnv}.
Implicit Types (s : AuthStore) (t : Tables) (st : AppState).

(** * Operations and the tables *)

Lemma wp_tables_persist_principals (Q : unit → AuthStore → Prop) (F : AuthStore → Prop) s :
  (∀ s', as_tables s' = as_tables s → Q () s') → (∀ s', as_tables s' = as_tables s → F s') →
  wp persist_principals Q F s.
Proof.
  intros HQ HF. unfold wp, persist_principals. destruct (write_json_python_style _ _ _) as [[[]|e] file']; cbn.
  - by apply HQ. - by apply HF.
Qed.
Lemma wp_tables_persist_keys (Q : unit → AuthStore → Prop) (F : AuthStore → Prop) s :
  (∀ s', as_tables s' = as_tables s → Q () s') → (∀ s', as_tables s' = as_tables s → F s') →
  wp persist_keys Q F s.
Proof.
  intros HQ HF. unfold wp, persist_keys. destruct (write_json_python_style _ _ _) as [[[]|e] file']; cbn.
  - by apply HQ. - by apply HF.
Qed.

(** What a successful use of a key changes: its own time of last use. *)
Lemma touch_effect {E} kid k s :
  tables_ok (as_tables s) → aget kid (t_keys (as_tables s)) = Some k →
  ∃ s', touch_key (E := E) kid s = (Ok (), s') ∧ confined (k_principal k) (as_tables s) (as_tables s') ∧
    tables_ok (as_tables s') ∧ as_draws s' = S (as_draws s) ∧
    k_id <$> avalues (t_keys (as_tables s')) = k_id <$> avalues (t_keys (as_tables s)).
Proof.
  intros Hok Hk. unfold touch_key. rewrite Hk. eexists. split; [done|]. cbn [as_tables as_draws set_tables count_draw].
  split_and!.
  - apply (confined_insert _ _ _ (t_by_hash (as_tables s))); [done|]. intros k0. rewrite Hk. by intros [= <-].
  - by eapply tables_ok_touch.
  - done.
  - tables_simpl. by eapply (insert_same_values k_id k_id); [apply Hok|done..].
Qed.

Lemma authenticate_effect token s :
  store_ok s →
  wp (authenticate token)
    (λ ctx s', starts_with TOKEN_PREFIX token = true ∧ ∃ k p, live_key s token k p ∧ ctx = to_context p ∧
       confined (p_id p) (as_tables s) (as_tables s') ∧ tables_ok (as_tables s') ∧
       as_draws s' = S (as_draws s) ∧
       k_id <$> avalues (t_keys (as_tables s')) = k_id <$> avalues (t_keys (as_tables s)))
    (λ s', as_tables s' = as_tables s ∧
       ∀ k p, starts_with TOKEN_PREFIX token = true → live_key s token k p → False) s.
Proof.
  intros Hok. pose proof (ok_tables _ Hok) as Ht. unfold wp.
  destruct (authenticate token s) as [[ctx|e] s'] eqn:Ha.
  - destruct (amid_accepts id id token s ctx s' Hok Ha) as (Hs & k & p & Hl & ->). unfold id in Hl.
    split; [done|]. exists k, p. split; [done|]. split; [done|].
    destruct Hl as (kid & Hk & Hh & Hr & Hp & Hd).
    destruct (touch_effect (E := AuthenticationError) kid k s Ht Hk) as (s1 & Hs1 & Hrest).
    enough (s1 = s') as <-.
    { destruct (aget_by_id p_id _ _ _ (ok_principal_ids _ Ht) Hp) as [-> _]. done. }
    revert Ha. unfold authenticate, authenticate_amid. destruct token as [|c token]; [done|].
    cbn [str_is_empty]. rewrite Hs. cbn [negb].
    unfold mbind, op_bind, get_tables, others, mret, op_ret, id.
    rewrite <-Hh, (ok_complete _ Ht kid k Hk Hr), Hk. cbn [option_bind]. rewrite Hp.
    rewrite (proj2 (constant_time_equals_same_length _ _ eq_refl) eq_refl). cbn [negb]. rewrite Hr, Hd, Hs1.
    by intros [= ->].
  - split.
    + revert Ha. unfold authenticate, authenticate_amid, reject.
      destruct (str_is_empty token); [by intros [= _ <-]|].
      destruct (starts_with TOKEN_PREFIX token); cbn [negb]; [|by intros [= _ <-]].
      unfold mbind, op_bind, get_tables, others, mret, op_ret, id.
      destruct (aget (hash_token token) _) as [kid|]; [|by intros [= _ <-]].
      destruct (aget kid (t_keys (as_tables s))) as [k|] eqn:Hk; [|by intros [= _ <-]]. cbn [option_bind].
      destruct (aget (k_principal k) _) as [p|]; [|by intros [= _ <-]].
      destruct (constant_time_equals _ _); cbn [negb]; [|by intros [= _ <-]].
      destruct (is_revoked k); [by intros [= _ <-]|]. destruct (is_disabled p); [by intros [= _ <-]|].
      destruct (touch_effect (E := AuthenticationError) kid k s Ht Hk) as (s1 & -> & _). done.
    + intros k p Hs Hl. pose proof (live_accepted token s k p Hok Hs Hl) as Hacc. by rewrite Ha in Hacc.
Qed.

(** * On the application *)

Lemma wp_on_store {A} (m : AuthStore → result A ApiError * AuthStore) (Q : A → AppState → Prop) (F : AppState → Prop) st s :
  app_auth st = Some s →
  wp m (λ x s', Q x (set_auth (Some s') st)) (λ s', F (set_auth (Some s') st)) s → wp (on_store m) Q F st.
Proof. unfold wp, on_store. intros ->. by destruct (m s) as [[] ?]. Qed.

(** The application with a store whose tables a condition holds of. *)
Definition with_tables (P : Tables → Prop) st : Prop := ∃ s, app_auth st = Some s ∧ P (as_tables s).

Lemma wp_audit_app event fields (Q : unit → AppState → Prop) F st s :
  app_auth st = Some s →
  (∀ s', as_tables s' = as_tables s → Q () (set_auth (Some s') st)) →
  wp (audit_app event fields) Q F st.
Proof. intros Hs HQ. unfold audit_app. eapply wp_on_store; [done|]. by apply HQ. Qed.

(** The caller of a request to the group: no token, no live key, or a
    principal. *)
Definition caller_is s (header : option string) (p : Principal) : Prop :=
  ∃ token k, parse_bearer header = Some token ∧ starts_with TOKEN_PREFIX token = true ∧ live_key s token k p.

Context (store_opens : string → bool).

Lemma require_principal_wp header st s (Q : AuthContext → AppState → Prop) (F : AppState → Prop) :
  app_auth st = Some s → store_ok s →
  (∀ p s', caller_is s header p → confined (p_id p) (as_tables s) (as_tables s') → tables_ok (as_tables s') →
     as_draws s' = S (as_draws s) →
     k_id <$> avalues (t_keys (as_tables s')) = k_id <$> avalues (t_keys (as_tables s)) →
     Q (to_context p) (set_auth (Some s') st)) →
  (∀ s', (∀ p, ¬ caller_is s header p) → as_tables s' = as_tables s → F (set_auth (Some s') st)) →
  wp (require_principal store_opens None header) Q F st.
Proof.
  intros Hs Hok HQ HF. unfold require_principal. apply wp_bind.
  unfold wp at 1, authorize. rewrite Hs.
  change (wp (authorize_token None header)
    (λ x, wp (match x with Some ctx => mret ctx | None => op_fail (unauthorized "Authentication required") end) Q F)
    F st).
  unfold authorize_token. destruct (parse_bearer header) as [token|] eqn:Hb.
  - apply wp_bind. unfold authenticate_app. eapply wp_on_store; [done|]. apply wp_map_err.
    eapply wp_mono; [by apply authenticate_effect| |]; cbv beta.
    + intros ctx s' (Hstart & k & p & Hl & -> & Hrest). apply wp_ret, wp_ret. apply HQ; try apply Hrest.
      by exists token, k.
    + intros s' [Ht Hno]. apply HF; [|done]. intros p (tok & k & ? & ? & ?). simplify_eq. by eapply Hno.
  - apply wp_bind. eapply wp_audit_app; [done|]. intros s' Ht. apply wp_fail. apply HF; [|done].
    intros p (tok & k & ? & _). by simplify_eq.
Qed.

(** The admin's extractor turns everybody else away. *)
Lemma require_admin_wp header st s (Q : AuthContext → AppState → Prop) (F : AppState → Prop) :
  app_auth st = Some s → store_ok s →
  (∀ p s', caller_is s header p → p_role p = Admin → Q (to_context p) (set_auth (Some s') st)) →
  (∀ p s', caller_is s header p → p_role p ≠ Admin → confined (p_id p) (as_tables s) (as_tables s') →
     F (set_auth (Some s') st)) →
  (∀ s', (∀ p, ¬ caller_is s header p) → as_tables s' = as_tables s → F (set_auth (Some s') st)) →
  wp (require_admin store_opens None header) Q F st.
Proof.
  intros Hs Hok HQ HF HN. unfold require_admin. apply wp_bind.
  apply (require_principal_wp header st s); [done|done| |done].
  intros p s' Hp Hc _ _ _. unfold is_admin. cbn [role to_context].
  destruct (decide (p_role p = Admin)) as [Hr|Hr].
  - rewrite bool_decide_true by done. cbn [negb]. apply wp_ret. by apply HQ.
  - rewrite bool_decide_false by done. cbn [negb]. apply wp_bind.
    unfold audit_if_store, wp at 1. cbn [app_auth set_auth].
    change (wp (audit_admin_required (to_context p) "admin_required")
      (λ x, wp (op_fail (forbidden "Admin role required")) Q F) F (set_auth (Some s') st)).
    eapply wp_audit_app; [done|]. intros s2 Ht2. apply wp_fail. eapply HF; [done|done|]. by rewrite Ht2.
Qed.

(** A token is one caller's. *)
Lemma caller_unique s header p p' : store_ok s → caller_is s header p → caller_is s header p' → p = p'.
Proof.
  intros Hok (tok & k & Hb & _ & Hl) (tok' & k' & Hb' & _ & Hl'). pose proof (ok_tables _ Hok) as Ht. simplify_eq.
  destruct Hl as (kid & Hk & Hh & _ & Hp & _), Hl' as (kid' & Hk' & Hh' & _ & Hp' & _).
  destruct (hash_in_keys _ _ _ (ok_key_ids _ Ht) Hk) as [Hin _].
  destruct (hash_in_keys _ _ _ (ok_key_ids _ Ht) Hk') as [Hin' _].
  assert (k = k') as -> by (eapply (NoDup_fmap_eq k_hash); [apply (ok_keys _ Ht)|done|done|congruence]). congruence.
Qed.

(** The tables after a request: unchanged for who is nobody, the caller's
    own keys for who is no admin. *)
Definition within_authority s (header : option string) st' : Prop :=
  ∃ s', app_auth st' = Some s' ∧
    ((∀ p, ¬ caller_is s header p) → as_tables s' = as_tables s) ∧
    (∀ p, caller_is s header p → p_role p ≠ Admin → confined (p_id p) (as_tables s) (as_tables s')).

Lemma within_nobody s header s' st :
  (∀ p, ¬ caller_is s header p) → as_tables s' = as_tables s → within_authority s header (set_auth (Some s') st).
Proof. intros Hno Ht. exists s'. split_and!; [done|done|]. intros p Hp. by destruct (Hno p). Qed.
Lemma within_own s header p s' st :
  store_ok s → caller_is s header p → confined (p_id p) (as_tables s) (as_tables s') →
  within_authority s header (set_auth (Some s') st).
Proof.
  intros Hok Hp Hc. exists s'. split_and!; [done| |].
  - intros Hno. by destruct (Hno p).
  - intros p' Hp' _. by rewrite (caller_unique s header p' p).
Qed.
Lemma within_admin s header p s' st :
  store_ok s → caller_is s header p → p_role p = Admin → within_authority s header (set_auth (Some s') st).
Proof.
  intros Hok Hp Hr. exists s'. split_and!; [done| |].
  - intros Hno. by destruct (Hno p).
  - intros p' Hp' Hr'. by rewrite (caller_unique s header p' p) in Hr'.
Qed.

(** [create_key] for its caller. *)
Lemma create_key_confined pid name by_ s (Q : ApiKey * string → AuthStore → Prop) (F : AuthStore → Prop) :
  (∀ i, i < 3 → new_id "k" (random6_at (as_draws s + i)) ∉ (k_id <$> avalues (t_keys (as_tables s)))) →
  tables_ok (as_tables s) →
  (∀ x s', confined pid (as_tables s) (as_tables s') → Q x s') →
  (∀ s', confined pid (as_tables s) (as_tables s') → F s') →
  wp (create_key pid name by_) Q F s.
Proof.
  intros Hf Hok HQ HF. unfold create_key. do 2 wp_step. destruct (negb _); [wp_step; by apply HF|].
  do 6 wp_step. cbn [as_draws count_draw] in *.
  assert (confined pid (as_tables s) (insert_key k (as_tables s))) as Hc.
  { apply confined_insert; [done|]. intros k0 Hk0. exfalso.
    destruct (hash_in_keys _ _ _ (ok_key_ids _ Hok) Hk0) as [Hin Hid].
    apply (Hf 1); [lia|]. rewrite Nat.add_1_r, <-Hkid, <-Hid. by apply list_elem_of_fmap_2. }
  wp_step. apply wp_tables_persist_keys; intros s3 Hs3; cbn [as_tables set_tables] in Hs3.
  - do 3 wp_step. apply HQ. destruct (view_parts _ _ ltac:(eassumption)) as (-> & _ & _). by rewrite Hs3.
  - apply HF. by rewrite Hs3.
Qed.

(** [revoke_key] on a key of its caller. *)
Lemma revoke_key_confined pid kid by_ s (Q : ApiKey → AuthStore → Prop) (F : AuthStore → Prop) :
  (∀ k, aget kid (t_keys (as_tables s)) = Some k → k_principal k = pid) →
  (∀ x s', confined pid (as_tables s) (as_tables s') → Q x s') →
  (∀ s', confined pid (as_tables s) (as_tables s') → F s') →
  wp (revoke_key kid by_) Q F s.
Proof.
  intros Hown HQ HF. unfold revoke_key. do 2 wp_step. do 2 wp_step; [|by apply HF].
  destruct (aget kid _) as [k|] eqn:Hk; [|done]. simplify_eq/=. specialize (Hown _ eq_refl) as <-. wp_step.
  destruct (is_revoked x).
  { do 4 wp_step. apply HQ. by destruct (view_parts _ _ ltac:(eassumption)) as (-> & _ & _). }
  assert (∀ h now, confined (k_principal x) (as_tables s)
    (with_by_hash h (with_keys (im_insert kid (revoked_at now x) (t_keys (as_tables s))) (as_tables s)))) as Hc.
  { intros h now. apply confined_insert; [done|]. intros k0. rewrite Hk. by intros [= <-]. }
  do 5 wp_step. apply wp_tables_persist_keys; intros s3 Hs3; cbn [as_tables set_tables] in Hs3.
  - do 4 wp_step. apply HQ. destruct (view_parts _ _ ltac:(eassumption)) as (-> & _ & _). by rewrite Hs3.
  - apply HF. by rewrite Hs3.
Qed.

(** * Endpoints *)

Lemma wp_store_get {A} (f : AuthStore → A) (Q : A → AppState → Prop) F st s :
  app_auth st = Some s → Q (f s) (set_auth (Some s) st) → wp (store_get f) Q F st.
Proof. intros Hs HQ. unfold store_get. by eapply wp_on_store. Qed.

(** The endpoints of admins: whatever they do afterwards. *)
Definition keeps_store {A} (m : AppOp ApiError A) : Prop := ∀ st s, app_auth st = Some s →
  wp m (λ _ st', ∃ s', st' = set_auth (Some s') st) (λ st', ∃ s', st' = set_auth (Some s') st) st.

Lemma keeps_on_store {A} (m : AuthStore → result A ApiError * AuthStore) : keeps_store (on_store m).
Proof. intros st s Hs. eapply wp_on_store; [done|]. apply wp_any; [intros _ s'|intros s']; by exists s'. Qed.
Lemma keeps_ret {A} (x : A) : keeps_store (mret x).
Proof. intros [a c] s Hs. apply wp_ret. exists s. cbn in Hs. by rewrite <-Hs. Qed.
Lemma keeps_fail {A} (e : ApiError) : keeps_store (op_fail e : AppOp ApiError A).
Proof. intros [a c] s Hs. apply wp_fail. exists s. cbn in Hs. by rewrite <-Hs. Qed.
Lemma keeps_gets {A} (f : AppState → A) : keeps_store (op_gets f).
Proof. intros [a c] s Hs. apply wp_gets. exists s. cbn in Hs. by rewrite <-Hs. Qed.
Lemma keeps_bind {A B} (m : AppOp ApiError A) (f : A → AppOp ApiError B) :
  keeps_store m → (∀ x, keeps_store (f x)) → keeps_store (m ≫= f).
Proof.
  intros Hm Hf st s Hs. apply wp_bind. eapply wp_mono; [by eapply Hm| |done]. cbv beta.
  intros x st' [s' ->]. eapply wp_mono; [by eapply (Hf x _ s')| |]; cbv beta.
  - intros ? st' [s2 ->]. by exists s2.
  - intros st' [s2 ->]. by exists s2.
Qed.
Lemma keeps_store_get {A} (f : AuthStore → A) : keeps_store (store_get f).
Proof. apply keeps_on_store. Qed.
Lemma keeps_store_op {A} (m : AuthOp AuthStoreError A) : keeps_store (store_op m).
Proof. apply keeps_on_store. Qed.
#[local] Hint Resolve keeps_on_store keeps_ret keeps_fail keeps_gets keeps_store_get keeps_store_op : keeps.

Lemma keeps_check_namespaces req : keeps_store (check_namespaces req).
Proof.
  unfold check_namespaces. destruct (bool_decide _); [auto with keeps|].
  destruct (cp_namespaces req); [|auto with keeps]. apply keeps_bind; [auto with keeps|].
  intros x. destruct (bool_decide _); auto with keeps.
Qed.

(** An endpoint behind the admin extractor. *)
Lemma admin_endpoint {A} header (f : AuthContext → AppOp ApiError A) st s :
  app_auth st = Some s → store_ok s → (∀ ctx, keeps_store (f ctx)) →
  wp (require_admin store_opens None header ≫= f)
    (λ _ st', (∃ p, caller_is s header p ∧ p_role p = Admin) ∧ within_authority s header st')
    (within_authority s header) st.
Proof.
  intros Hs Hok Hf. apply wp_bind. apply (require_admin_wp header st s); [done|done| | |].
  - intros p s' Hp Hr. eapply wp_mono; [by eapply (Hf _ _ s')| |]; cbv beta.
    + intros _ st' [s2 ->]. split; [by exists p|]. by eapply within_admin.
    + intros st' [s2 ->]. by eapply within_admin.
  - intros p s' Hp Hr Hc. by eapply within_own.
  - intros s' Hno Ht. by apply within_nobody.
Qed.

(** An endpoint for every principal: what follows is given the caller. *)
Lemma principal_endpoint {A} header (f : AuthContext → AppOp ApiError A) st s :
  app_auth st = Some s → store_ok s →
  (∀ p s', caller_is s header p → confined (p_id p) (as_tables s) (as_tables s') → tables_ok (as_tables s') →
     as_draws s' = S (as_draws s) →
     k_id <$> avalues (t_keys (as_tables s')) = k_id <$> avalues (t_keys (as_tables s)) →
     wp (f (to_context p)) (λ _ st', within_authority s header st') (within_authority s header)
       (set_auth (Some s') st)) →
  wp (require_principal store_opens None header ≫= f)
    (λ _ st', (∃ p, caller_is s header p) ∧ within_authority s header st')
    (within_authority s header) st.
Proof.
  intros Hs Hok Hf. apply wp_bind. apply (require_principal_wp header st s); [done|done| |].
  - intros p s' Hp Hc Ht Hd Hids. eapply wp_mono; [by apply Hf| |done]. cbv beta. intros _ st' Hst.
    split; [by exists p|done].
  - intros s' Hno Ht. by apply within_nobody.
Qed.

Lemma create_key_endpoint header name st s :
  app_auth st = Some s → store_ok s → fresh s →
  wp (create_key_handler store_opens header name)
    (λ _ st', (∃ p, caller_is s header p) ∧ within_authority s header st') (within_authority s header) st.
Proof.
  intros Hs Hok Hf. apply (principal_endpoint header _ st s); [done|done|].
  intros p s' Hp Hc Ht Hd Hids. apply wp_bind. unfold store_op. eapply wp_on_store; [done|]. apply wp_map_err.
  apply (create_key_confined (p_id p)); [|done| |].
  - intros i Hi. rewrite Hids, Hd. replace (S (as_draws s) + i) with (as_draws s + S i) by lia. apply Hf. lia.
  - intros [key token] s2 Hc2. apply wp_ret. eapply within_own; [done|done|]. by etrans.
  - intros s2 Hc2. eapply within_own; [done|done|]. by etrans.
Qed.

Lemma revoke_key_endpoint header key_id st s :
  app_auth st = Some s → store_ok s →
  wp (revoke_key_handler store_opens header key_id)
    (λ _ st', (∃ p, caller_is s header p) ∧ within_authority s header st') (within_authority s header) st.
Proof.
  intros Hs Hok. apply (principal_endpoint header _ st s); [done|done|].
  intros p s' Hp Hc Ht Hd Hids. apply wp_bind. eapply wp_store_get; [done|].
  destruct (list_find _ _) as [[i target]|] eqn:Hfind; cbn [fmap option_fmap option_map].
  2: { apply wp_fail. by eapply within_own. }
  apply list_find_Some in Hfind as (Hi & Hid & _). cbn [snd].
  destruct (decide (p_role p = Admin)) as [Hr|Hr].
  { unfold is_admin. cbn [role to_context]. rewrite bool_decide_true by done. cbn [negb andb].
    apply wp_bind. unfold store_op. eapply wp_on_store; [done|]. apply wp_any; intros; by eapply within_admin. }
  unfold is_admin. cbn [role to_context]. rewrite bool_decide_false by done. cbn [negb andb principal_id].
  destruct (decide (k_principal target = p_id p)) as [Hown|Hown].
  - rewrite bool_decide_true by done. cbn [negb]. apply wp_bind. unfold store_op.
    eapply wp_on_store; [done|]. apply wp_map_err. apply (revoke_key_confined (p_id p)).
    + intros k Hk. assert (k = target) as ->; [|done].
      destruct (hash_in_keys _ _ _ (ok_key_ids _ Ht) Hk) as [Hin Hkid].
      eapply (NoDup_fmap_eq k_id); [apply (ok_keys _ Ht)|done|by eapply list_elem_of_lookup_2|congruence].
    + intros key s2 Hc2. apply wp_ret. eapply within_own; [done|done|]. by etrans.
    + intros s2 Hc2. eapply within_own; [done|done|]. by etrans.
  - rewrite bool_decide_false by done. cbn [negb]. apply wp_bind. eapply wp_audit_app; [done|].
    intros s2 Hs2. apply wp_fail. eapply within_own; [done|done|]. by rewrite Hs2.
Qed.

(** * Theorems *)

(** C18: The endpoints under /api/auth keep everybody to their authority: only
    callers with a live key get an answer, everybody else changes no table; a
    caller who is no admin leaves every principal and every other principal's
    keys as they are. *)
Theorem auth_router_authority (Hio : writes_atomic) req header st s :
  app_auth st = Some s → auth_reachable s → fresh s →
  wp (auth_router store_opens req header)
    (λ _ st', (∃ p, caller_is s header p) ∧ within_authority s header st')
    (within_authority s header) st.
Proof.
  intros Hs Hr Hf. pose proof (reachable_ok Hio s Hr) as Hok.
  unfold wp, auth_router. rewrite Hs.
  lazymatch goal with |- match ?m st with _ => _ end => change (wp m
    (λ _ st', (∃ p, caller_is s header p) ∧ within_authority s header st') (within_authority s header) st) end.
  assert (Hadm : ∀ (f : AuthContext → AppOp ApiError HttpAnswer), (∀ ctx, keeps_store (f ctx)) →
    wp (require_admin store_opens None header ≫= f)
      (λ _ st', (∃ p, caller_is s header p) ∧ within_authority s header st') (within_authority s header) st).
  { intros f Hfk. eapply wp_mono; [by apply (admin_endpoint header f st s)| |done].
    by intros _ st' [(p & Hp & _) ?]; split; [exists p|]. }
  destruct req as [|req| |id|id req|q|name|key_id].
  - apply (principal_endpoint header _ st s); [done|done|]. intros p s' Hp Hc _ _ _.
    apply wp_bind. eapply wp_store_get; [done|]. destruct (get_principal _ _); [apply wp_ret|apply wp_fail]; by eapply within_own.
  - apply Hadm. intros ctx. apply keeps_bind; [apply keeps_check_namespaces|]. intros _.
    apply keeps_bind; [auto with keeps|]. intros [p tok]. apply keeps_bind; auto with keeps.
  - apply Hadm. intros ctx. apply keeps_bind; auto with keeps.
  - apply Hadm. intros ctx. apply keeps_bind; [auto with keeps|]. intros []; auto with keeps.
  - apply Hadm. intros ctx. apply keeps_bind; auto with keeps.
  - apply (principal_endpoint header _ st s); [done|done|]. intros p s' Hp Hc _ _ _.
    apply wp_bind. eapply wp_store_get; [done|]. apply wp_ret. by eapply within_own.
  - by apply create_key_endpoint.
  - by apply revoke_key_endpoint.
Qed.

(** * The gate of a namespace *)

Lemma caller_namespaces_ok s header p : store_ok s → caller_is s header p → namespaces_ok p.
Proof.
  intros Hok (tok & k & _ & _ & kid & _ & _ & _ & Hp & _). pose proof (ok_tables _ Hok) as Ht.
  destruct (aget_by_id p_id _ _ _ (ok_principal_ids _ Ht) Hp) as [_ Hin].
  by eapply Forall_forall in Hin; [|apply (ok_principals _ Ht)].
Qed.

(** The code's test is the one of the identity. *)
Lemma namespace_test p ds :
  namespaces_ok p →
  negb (is_admin (to_context p)) && negb (in_namespaces ds (to_context p)) = negb (allows_namespace (to_context p) ds).
Proof.
  unfold namespaces_ok, is_admin, in_namespaces, allows_namespace. cbn [role namespaces to_context].
  intros Hns. destruct (decide (p_role p = Admin)) as [Hr|Hr].
  - rewrite bool_decide_true by done. cbn [negb andb]. rewrite (proj1 Hns Hr). unfold is_admin. cbn. by rewrite bool_decide_true.
  - rewrite bool_decide_false by done. cbn [negb andb]. destruct (p_namespaces p) as [l|]; [done|].
    by destruct Hr; apply Hns.
Qed.

Lemma authorize_token_wp ds header st s :
  app_auth st = Some s → store_ok s →
  wp (authorize_token (Some ds) header)
    (λ r _, ∃ p, r = Some (to_context p) ∧ caller_is s header p ∧ allows_namespace (to_context p) ds = true)
    (λ _, ∀ p, caller_is s header p → allows_namespace (to_context p) ds = false) st.
Proof.
  intros Hs Hok. unfold authorize_token. destruct (parse_bearer header) as [token|] eqn:Hb.
  2: { apply wp_bind. eapply wp_audit_app; [done|]. intros s' _. apply wp_fail.
       intros p (tok & k & ? & _). by simplify_eq. }
  apply wp_bind. unfold authenticate_app. eapply wp_on_store; [done|]. apply wp_map_err.
  eapply wp_mono; [by apply authenticate_effect| |]; cbv beta.
  - intros ctx s' (Hstart & k & p & Hl & -> & _).
    assert (caller_is s header p) as Hp by (by exists token, k).
    rewrite namespace_test by (by eapply caller_namespaces_ok).
    destruct (allows_namespace (to_context p) ds) eqn:Ha; cbn [negb].
    + apply wp_ret. by exists p.
    + apply wp_bind. eapply wp_audit_app; [done|]. intros s2 _. apply wp_fail.
      intros p' Hp'. by rewrite (caller_unique s header p' p).
  - intros s' [_ Hno] p (tok & k & ? & ? & ?). simplify_eq. by destruct (Hno k p).
Qed.

(** A protected namespace is open exactly to the callers with a live key
    whose principal the namespace is granted to, each as itself; nobody enters
    it anonymously. *)
Theorem protected_namespace_admits (Hio : writes_atomic) ds header st s r :
  app_auth st = Some s → auth_reachable s →
  (is_auth_required (store_opens ds) ds (app_configs st)).1 = true →
  (authorize store_opens (Some ds) header st).1 = Ok r ↔
  ∃ p, r = Some (to_context p) ∧ caller_is s header p ∧ allows_namespace (to_context p) ds = true.
Proof.
  intros Hs Hr Hreq. pose proof (reachable_ok Hio s Hr) as Hok.
  destruct (is_auth_required (store_opens ds) ds (app_configs st)) as [b c] eqn:Hc. cbn [fst] in Hreq. subst b.
  pose proof (authorize_token_wp ds header (mkAppState (app_auth st) c) s Hs Hok) as Hw.
  unfold authorize. rewrite Hs. unfold mbind, op_bind, auth_required_app. rewrite Hc. cbn [negb].
  unfold wp in Hw. destruct (authorize_token (Some ds) header (mkAppState (app_auth st) c)) as [[r'|e] st']; cbn [fst].
  - destruct Hw as (p & -> & Hp & Ha). split; [intros [= <-]; by exists p|].
    intros (p' & -> & Hp' & _). by rewrite (caller_unique s header p p').
  - split; [done|]. intros (p & _ & Hp & Ha). apply Hw in Hp. congruence.
Qed.
End router_facts.
