(* ===== verification/AuthExamples.v ===== *)
(** A concrete credential store on which the theorems of the authorization
    module apply: a registry bootstrapped on an empty directory, with a
    provider, and file systems whose writes work or fail at a given point. *)
From S2P Require Import Prelude OpMonad F64 RustMap RustStr Json Canonical A4PCrypto A4PExamples.
From S2P Require Import Common AuthTokens AuthStore AuthAccess AuthGate AuthRouter.

Definition toy_auth_crates : AuthCrates :=
  {| token_sha256 := pad32; token_hex := letters_encode; token_base64 := letters_encode |}.
#[local] Existing Instance toy_auth_crates.

Lemma letters_length s : String.length (letters_encode s) = (2 * String.length s)%nat.
Proof. induction s as [|a s IH]; [done|]. cbn [letters_encode String.length]. rewrite IH. lia. Qed.

Lemma toy_take_length n : ∀ s, (n ≤ String.length s)%nat → String.length (str_take n s) = n.
Proof. induction n as [|n IH]; intros [|a s] Hn; simpl in *; [done|done|lia|]. rewrite IH; lia. Qed.

#[local] Instance toy_auth_crates_laws : AuthCratesLaws.
Proof.
  split.
  - intros s. cbn [token_sha256 toy_auth_crates]. unfold pad32. apply toy_take_length. rewrite str_length_app.
    assert (String.length (zeros 32) = 32%nat) as -> by reflexivity. lia.
  - apply letters_length.
  - intros a b Hab. pose proof (letters_decode_encode a) as Ha. cbn [token_hex toy_auth_crates] in Hab.
    rewrite Hab, letters_decode_encode in Ha. congruence.
Qed.

#[local] Instance toy_serde_text : SerdeText := {| json_string_text := λ s, s; json_float_text := λ _, "0.0" |}.

(** A file text that is the JSON value. *)
Definition optional_string_of (v : Value) : option string := as_str v.
Definition strings_of (v : Value) : option (list string) :=
  match v with JArray l => mapM as_str l | _ => None end.

Definition principal_of_value (v : Value) : option Principal :=
  match v with
  | JObject [(_, JString id); (_, JString handle); (_, JString role); (_, ns); (_, JString created);
             (_, disabled); (_, JString note)] =>
      role ← role_parse role;
      Some (mkPrincipal id handle role (strings_of ns) created (optional_string_of disabled) note)
  | _ => None
  end.
Definition key_of_value (v : Value) : option ApiKey :=
  match v with
  | JObject [(_, JString id); (_, JString principal); (_, JString hash); (_, JString prefix); (_, JString name);
             (_, JString created); (_, expires); (_, used); (_, revoked)] =>
      Some (mkApiKey id principal hash prefix name created (optional_string_of expires) (optional_string_of used)
        (optional_string_of revoked))
  | _ => None
  end.
Definition list_of {A} (f : Value → option A) (v : Value) : result (list A) string :=
  match v with JArray l => ok_or (mapM f l) "invalid" | _ => Err "invalid" end.

#[local] Instance toy_auth_codec : AuthCodec :=
  {| auth_text := Value; to_string_pretty := λ v, Ok v;
     principals_from_str := list_of principal_of_value; keys_from_str := list_of key_of_value |}.

Lemma optional_string_roundtrip o : optional_string_of (optional_string o) = o.
Proof. by destruct o. Qed.

Lemma mapM_roundtrip {A B} (f : A → B) (g : B → option A) (l : list A) :
  (∀ x, g (f x) = Some x) → mapM g (f <$> l) = Some l.
Proof. intros Hfg. induction l as [|x l IH]; [done|]. cbn. by rewrite Hfg, IH. Qed.

#[local] Instance toy_auth_codec_laws : AuthCodecLaws.
Proof.
  split; intros l; eexists; (split; [reflexivity|]);
    cbn [principals_from_str keys_from_str toy_auth_codec list_of]; rewrite mapM_roundtrip; try done.
  - intros [id handle role ns created disabled note]. cbn [principal_to_value principal_of_value
      p_id p_handle p_role p_namespaces p_created_at p_disabled_at p_note].
    rewrite role_roundtrip. cbn [mbind option_bind]. rewrite optional_string_roundtrip. repeat f_equal.
    destruct ns as [ns|]; [|done]. cbn. by apply mapM_roundtrip.
  - intros [id principal hash prefix name created expires used revoked].
    cbn [key_to_value key_of_value k_id k_principal k_hash k_prefix k_name k_created_at k_expires_at
      k_last_used_at k_revoked_at]. by rewrite !optional_string_roundtrip.
Qed.

(** Writes fail at the readings of [bad]. *)
Definition failing_write : AuthWriteIo :=
  mkAuthWriteIo (Ok ()) (mkAtomicIo (Err "No space left on device (os error 28)") true false (Ok ()) None).
Definition toy_auth_env (bad : nat → bool) (tokens : nat → string) : AuthEnv :=
  {| auth_dir := "/srv/auth_data"; utcnow_iso_at := λ i, pretty i; random6_at := λ i, pretty i;
     random32_at := tokens; create_dir_at := λ _, Ok ();
     write_at := λ i, if bad i then failing_write else mkAuthWriteIo (Ok ()) rename_works;
     append_at := λ _, Ok (); remove_at := λ _, true |}.

Lemma toy_writes_atomic bad tokens : @writes_atomic _ (toy_auth_env bad tokens).
Proof. intros i. cbn [write_at toy_auth_env]. by destruct (bad i). Qed.

(** The disk of the examples: a write at reading 24 fails. *)
Definition ex_env : AuthEnv := toy_auth_env (λ i, bool_decide (i = 24)) (λ i, pretty i).
#[local] Existing Instance ex_env.

Lemma ex_atomic : writes_atomic.
Proof. apply toy_writes_atomic. Qed.

(** Freshness is a finite check. *)
Lemma fresh_seq s : Forall (λ i,
    new_id "u" (random6_at i) ∉ (p_id <$> avalues (t_principals (as_tables s))) ∧
    new_id "k" (random6_at i) ∉ (k_id <$> avalues (t_keys (as_tables s))) ∧
    hash_token (generate_token (random32_at i)) ∉ (k_hash <$> avalues (t_keys (as_tables s))))
    (seq (as_draws s) 8) → fresh s.
Proof. intros Hf i Hi. eapply Forall_forall in Hf; [done|]. apply elem_of_seq. lia. Qed.

Definition ex_disk : AuthStore := mkAuthStore empty_tables None None "" 0.
Definition ex_root : result string AuthStoreError * AuthStore := Eval vm_compute in bootstrap None "root" ex_disk.
Definition ex_alice : result (Principal * string) AuthStoreError * AuthStore := Eval vm_compute in
  create_principal "alice" "provider" (Some ["team"]) "" (Some "root") ex_root.2.
Definition ex_store : AuthStore := ex_alice.2.
Definition ex_token : string := Eval vm_compute in
  match ex_alice.1 with Ok (_, token) => token | Err _ => "" end.

Lemma ex_root_eq : bootstrap None "root" ex_disk = ex_root.
Proof. vm_compute. reflexivity. Qed.
Lemma ex_alice_eq : create_principal "alice" "provider" (Some ["team"]) "" (Some "root") ex_root.2 = ex_alice.
Proof. vm_compute. reflexivity. Qed.

Lemma ex_root_fresh : fresh ex_root.2.
Proof. apply fresh_seq. compute_done. Qed.
Lemma ex_store_fresh : fresh ex_store.
Proof. apply fresh_seq. compute_done. Qed.

Lemma ex_root_reachable : auth_reachable ex_root.2.
Proof. by exists None, "root", ex_disk, (match ex_root.1 with Ok t => t | Err _ => "" end), ex_root.2. Qed.

Lemma ex_store_reachable : auth_reachable ex_store.
Proof.
  exists None, "root", ex_disk, (match ex_root.1 with Ok t => t | Err _ => "" end), ex_root.2.
  split; [exact ex_root_eq|]. apply rtc_once.
  pose proof (step_create_principal "alice" "provider" (Some ["team"]) "" (Some "root") _ ex_root_fresh) as Hs.
  rewrite ex_alice_eq in Hs. exact Hs.
Qed.

(** The provider and its key. *)
Definition ex_provider : Principal := Eval vm_compute in
  match ex_alice.1 with Ok (p, _) => p | Err _ => mkPrincipal "" "" User None "" None "" end.
Definition ex_provider_key : ApiKey := Eval vm_compute in
  default (mkApiKey "" "" "" "" "" "" None None None) (last (list_keys None ex_store)).
Definition ex_root_token : string := Eval vm_compute in match ex_root.1 with Ok t => t | Err _ => "" end.
Definition ex_root_key : ApiKey := Eval vm_compute in
  default ex_provider_key (head (list_keys None ex_root.2)).

Lemma ex_live : live_key ex_store ex_token ex_provider_key ex_provider.
Proof. exists (k_id ex_provider_key). vm_compute. by repeat split. Qed.

Lemma authenticate_exact_witness :
  (authenticate ex_token ex_store).1 = Ok (to_context ex_provider) ∧
  starts_with TOKEN_PREFIX ex_token = true ∧ live_key ex_store ex_token ex_provider_key ex_provider.
Proof.
  assert (starts_with TOKEN_PREFIX ex_token = true) as Hs by (vm_compute; reflexivity).
  split; [|split; [exact Hs|exact ex_live]].
  apply (proj2 (authenticate_exact ex_atomic ex_store ex_store_reachable)).
  split; [exact Hs|]. exists ex_provider_key, ex_provider. split; [exact ex_live|reflexivity].
Defined.

Definition ex_revoked : result ApiKey AuthStoreError * AuthStore := Eval vm_compute in
  revoke_key (k_id ex_root_key) None ex_root.2.



Lemma created_principal_enters_witness :
  p_handle ex_provider = "alice" ∧ role_parse "provider" = Some (p_role ex_provider) ∧
  p_namespaces ex_provider = Some ["team"] ∧
  (authenticate ex_token ex_store).1 = Ok (to_context ex_provider) ∧
  ∃ s2, load_or_none ex_store = (Ok true, s2) ∧ (authenticate ex_token s2).1 = Ok (to_context ex_provider).
Proof.
  apply (created_principal_enters ex_atomic "alice" "provider" (Some ["team"]) "" (Some "root") ex_root.2
    ex_provider ex_token ex_store ex_root_reachable ex_root_fresh). exact ex_alice_eq.
Defined.

Lemma revoke_retry_not_durable_witness :
  let s1 := (revoke_key (k_id ex_provider_key) None ex_store).2 in
  ∃ k' s2 s3, revoke_key (k_id ex_provider_key) None s1 = (Ok k', s2) ∧ is_revoked k' = true ∧
    load_or_none s2 = (Ok true, s3) ∧ (authenticate ex_token s3).1 = Ok (to_context ex_provider).
Proof.
  intros s1.
  apply (revoke_retry_not_durable ex_atomic ex_store ex_token ex_provider_key ex_provider None
    (AuthIo "No space left on device (os error 28)") s1);
    [exact ex_store_reachable|vm_compute; reflexivity|exact ex_live|vm_compute; reflexivity..].
Defined.

(** Tokens that differ in their last byte. *)
Definition ex_env_a : AuthEnv := toy_auth_env (λ _, false) (λ _, zeros 32).
Definition ex_env_b : AuthEnv := toy_auth_env (λ _, false) (λ _, zeros 31 +:+ "1").

Lemma plaintext_leaves_no_trace_witness :
  (@create_principal _ _ _ ex_env_a "alice" "user" (Some []) "" None ex_root.2).2 =
  (@create_principal _ _ _ ex_env_b "alice" "user" (Some []) "" None ex_root.2).2.
Proof.
  apply (plaintext_leaves_no_trace ex_env_a ex_env_b ex_root.2).
  split; [reflexivity|reflexivity|reflexivity|reflexivity|reflexivity|reflexivity|reflexivity| |];
    intros i; vm_compute; reflexivity.
Defined.

(** The application in front of it, with one protected namespace. *)
Definition ex_configs : AuthConfigs :=
  mkAuthConfigs {["team" := Some (Ok (JObject [("required", JBool true)])); "open" := None]} ∅.
Definition ex_app : AppState := mkAppState (Some ex_store) ex_configs.
Definition ex_header : option string := Some ("Bearer " +:+ ex_token).

Lemma ex_caller : caller_is ex_store ex_header ex_provider.
Proof.
  exists ex_token, ex_provider_key. split; [vm_compute; reflexivity|]. split; [vm_compute; reflexivity|].
  exact ex_live.
Qed.

Definition ex_run : result HttpAnswer ApiError * AppState := Eval vm_compute in
  auth_router (λ _, true) (CreateKey "laptop") ex_header ex_app.
Definition ex_answer : HttpAnswer := Eval vm_compute in
  match ex_run.1 with Ok a => a | Err _ => (0%Z, JNull) end.

Lemma ex_run_eq : auth_router (λ _, true) (CreateKey "laptop") ex_header ex_app = (Ok ex_answer, ex_run.2).
Proof. vm_compute. reflexivity. Qed.

Lemma auth_router_authority_witness :
  auth_router (λ _, true) (CreateKey "laptop") ex_header ex_app = (Ok ex_answer, ex_run.2) ∧
  within_authority ex_store ex_header ex_run.2.
Proof.
  split; [exact ex_run_eq|].
  exact (proj2 (wp_Ok _ _ _ _ _ _ (auth_router_authority (λ _, true) ex_atomic (CreateKey "laptop") ex_header
    ex_app ex_store eq_refl ex_store_reachable ex_store_fresh) ex_run_eq)).
Defined.

Lemma ex_team_protected : (is_auth_required true "team" (app_configs ex_app)).1 = true.
Proof. vm_compute. reflexivity. Qed.
Lemma ex_team_granted : allows_namespace (to_context ex_provider) "team" = true.
Proof. vm_compute. reflexivity. Qed.

Lemma ex_no_caller p : ¬ caller_is ex_store None p.
Proof. by intros (tok & k & Hb & _). Qed.

Lemma protected_namespace_admits_witness :
  (authorize (λ _, true) (Some "team") ex_header ex_app).1 = Ok (Some (to_context ex_provider)) ∧
  ∀ r, (authorize (λ _, true) (Some "team") None ex_app).1 ≠ Ok r.
Proof.
  split.
  - apply (proj2 (protected_namespace_admits (λ _, true) ex_atomic "team" ex_header ex_app ex_store
      (Some (to_context ex_provider)) eq_refl ex_store_reachable ex_team_protected)).
    exists ex_provider. exact (conj eq_refl (conj ex_caller ex_team_granted)).
  - intros r Hr.
    destruct (proj1 (protected_namespace_admits (λ _, true) ex_atomic "team" None ex_app ex_store r eq_refl
      ex_store_reachable ex_team_protected) Hr) as (p & _ & Hp & _).
    exact (ex_no_caller p Hp).
Defined.
