(* ===== verification/A2AData.v ===== *)
(** The A2A protocol's data and its wire JSON: A2A/rust-sdk/src/types.rs (the
    core types, requests, events and errors), the constants of protocol.rs it
    uses, the codes of error.rs and the helpers of utils/.

    The trait [WireJson] is a class; decoding reads fields in the order the
    struct literals of the source evaluate them, so that the first error is the
    source's.  Strings of error messages are kept. *)
From S2P Require Import Prelude RustMap RustStr Json.

(** protocol.rs. *)
Definition JSON_FIELD_ID : string := "id".
Definition JSON_FIELD_MESSAGE : string := "message".
Definition JSON_FIELD_METADATA : string := "metadata".
Definition STREAM_RESPONSE_TYPE_TASK : string := "task".
Definition STREAM_RESULT_KEY_STATUS_UPDATE : string := "statusUpdate".
Definition STREAM_RESULT_KEY_ARTIFACT_UPDATE : string := "artifactUpdate".

(** [JsonResult]. *)
Notation JsonResult T := (result T string).

Class WireJson (T : Type) := {
  to_json_value : T → JsonResult Value;
  from_json_value : Value → JsonResult T
}.

(** * JSON helpers *)

Definition json_object (value : Value) (type_name : string) : JsonResult JsonDict :=
  ok_or (as_object value) (type_name +:+ " must be a JSON object").

(** [obj[key]], written only where the key was checked to be present. *)
Definition obj_index (key : string) (obj : JsonDict) : Value := default JNull (aget key obj).

Section readers.
Implicit Types (obj : JsonDict) (key type_name : string).

Definition must_be (type_name key what : string) : string := type_name +:+ "." +:+ key +:+ " must be " +:+ what.

Definition get_string obj key type_name : JsonResult string :=
  match aget key obj with
  | Some (JString s) => Ok s
  | Some _ => Err (must_be type_name key "a string")
  | None => Err (type_name +:+ " must contain '" +:+ key +:+ "' field")
  end.

Definition opt_string obj key type_name : JsonResult (option string) :=
  match aget key obj with
  | None => Ok None
  | Some v => ok_or (Some <$> as_str v) (must_be type_name key "a string")
  end.

Definition opt_string_nullable obj key type_name : JsonResult (option string) :=
  match aget key obj with
  | None | Some JNull => Ok None
  | Some v => ok_or (Some <$> as_str v) (must_be type_name key "a string")
  end.

Definition opt_bool obj key type_name : JsonResult (option bool) :=
  match aget key obj with
  | None => Ok None
  | Some v => ok_or (Some <$> as_bool v) (must_be type_name key "a boolean")
  end.

(** [n as i32]: the low 32 bits. *)
Definition as_i32 (n : Z) : Z := ((n + 2 ^ 31) mod 2 ^ 32 - 2 ^ 31)%Z.

Definition opt_i32 obj key type_name : JsonResult (option Z) :=
  match aget key obj with
  | None => Ok None
  | Some v => ok_or (Some ∘ as_i32 <$> as_i64 v) (must_be type_name key "an integer")
  end.

Definition string_vec (value : Value) (what : string) : JsonResult (list string) :=
  match value with
  | JArray items => collect_results (λ v, ok_or (as_str v) (what +:+ " must contain only strings")) items
  | _ => Err (what +:+ " must be an array")
  end.

Definition opt_string_vec obj key type_name : JsonResult (option (list string)) :=
  match aget key obj with
  | None => Ok None
  | Some v => let? l := string_vec v (type_name +:+ "." +:+ key) in Ok (Some l)
  end.

Definition opt_metadata obj : option Value :=
  match aget JSON_FIELD_METADATA obj with
  | None | Some JNull => None
  | Some v => Some v
  end.

Definition vec_of {T} `{!WireJson T} (value : Value) (what : string) : JsonResult (list T) :=
  match value with
  | JArray items => collect_results from_json_value items
  | _ => Err (what +:+ " must be an array")
  end.

(** [match obj.get(key) { Some(v) => Some(T::from_json_value(v)?), None => None }]. *)
Definition opt_field {T} (read : Value → JsonResult T) obj key : JsonResult (option T) :=
  match aget key obj with
  | Some v => let? x := read v in Ok (Some x)
  | None => Ok None
  end.
End readers.

Definition vec_to_json {T} `{!WireJson T} (items : list T) : JsonResult Value :=
  let? l := collect_results to_json_value items in Ok (JArray l).
Definition string_vec_json (items : list string) : Value := JArray (JString <$> items).

Definition insert (obj : JsonDict) (key : string) (value : Value) : JsonDict := im_insert key value obj.
Definition insert_str (obj : JsonDict) (key value : string) : JsonDict := im_insert key (JString value) obj.
(** [if let Some(v) = value { insert(obj, key, v) }]. *)
Definition insert_opt (obj : JsonDict) (key : string) (value : option Value) : JsonDict :=
  match value with Some v => insert obj key v | None => obj end.
Definition insert_opt_str (obj : JsonDict) (key : string) (value : option string) : JsonDict :=
  match value with Some v => insert_str obj key v | None => obj end.
Definition insert_opt_bool (obj : JsonDict) (key : string) (value : option bool) : JsonDict :=
  match value with Some v => im_insert key (JBool v) obj | None => obj end.
Definition insert_opt_metadata (obj : JsonDict) (value : option Value) : JsonDict :=
  match value with Some v => im_insert JSON_FIELD_METADATA v obj | None => obj end.

(** [if let Some(x) = o { insert(.., x.to_json_value()?) }]: the value to insert. *)
Definition opt_to_json {T} (write : T → JsonResult Value) (o : option T) : JsonResult (option Value) :=
  match o with Some x => let? v := write x in Ok (Some v) | None => Ok None end.

(** * Parts, artifacts, messages *)

Inductive Role := RAgent | RUser | RUnspecified.
Definition role_from_wire (s : string) : JsonResult Role :=
  if decide (s = "ROLE_AGENT") then Ok RAgent
  else if decide (s = "ROLE_USER") then Ok RUser
  else if decide (s = "ROLE_UNSPECIFIED") then Ok RUnspecified
  else Err ("Invalid Role value: " +:+ s).
Definition role_as_wire (r : Role) : string :=
  match r with RAgent => "ROLE_AGENT" | RUser => "ROLE_USER" | RUnspecified => "ROLE_UNSPECIFIED" end.

Record Part := mkPart {
  pt_text : option string; pt_raw : option string; pt_url : option string; pt_data : option Value;
  pt_metadata : option Value; pt_filename : option string; pt_media_type : option string
}.
Definition default_part : Part := mkPart None None None None None None None.
Definition part_text (text : string) : Part := mkPart (Some text) None None None None None None.
Definition part_data (data : Value) : Part := mkPart None None None (Some data) None None None.
Definition with_media_type (media_type : string) (p : Part) : Part :=
  mkPart (pt_text p) (pt_raw p) (pt_url p) (pt_data p) (pt_metadata p) (pt_filename p) (Some media_type).

Definition part_to_json (p : Part) : JsonResult Value :=
  let obj := match pt_text p, pt_raw p, pt_url p, pt_data p with
             | Some t, _, _, _ => insert_str [] "text" t
             | None, Some r, _, _ => insert_str [] "raw" r
             | None, None, Some u, _ => insert_str [] "url" u
             | None, None, None, Some d => insert [] "data" d
             | None, None, None, None => []
             end in
  let obj := insert_opt_metadata obj (pt_metadata p) in
  let obj := insert_opt_str obj "filename" (pt_filename p) in
  let obj := insert_opt_str obj "mediaType" (pt_media_type p) in
  Ok (JObject obj).

Definition is_data (v : Value) : bool :=
  match v with JString _ | JObject _ | JNumber _ | JBool _ => true | _ => false end.

(** What one entry contributes: the loop of [from_json_value] stops at the
    first that does. *)
Definition part_entry (key : string) (v : Value) : JsonResult (option Part) :=
  if is_null v then Ok None
  else if decide (key = "text") then
    let? s := ok_or (as_str v) "Part.text must be a string" in
    Ok (Some (mkPart (Some s) None None None None None None))
  else if decide (key = "raw") then
    let? s := ok_or (as_str v) "Part.raw must be a string" in
    Ok (Some (mkPart None (Some s) None None None None None))
  else if decide (key = "url") then
    let? s := ok_or (as_str v) "Part.url must be a string" in
    Ok (Some (mkPart None None (Some s) None None None None))
  else if decide (key = "data") then
    if is_data v then Ok (Some (mkPart None None None (Some v) None None None))
    else Err "data field must be a string, bool, integer double or JSON object"
  else Ok None.

Fixpoint part_content (obj : JsonDict) : JsonResult (option Part) :=
  match obj with
  | [] => Ok None
  | (key, v) :: obj =>
      let? found := part_entry key v in
      match found with Some p => Ok (Some p) | None => part_content obj end
  end.

Definition part_from_json (value : Value) : JsonResult Part :=
  let? obj := json_object value "Part" in
  let? found := part_content obj in
  match found with
  | None => Err "Part must contain one of: text, raw, url, data"
  | Some p =>
      let? filename := opt_string_nullable obj "filename" "Part" in
      let? media_type := opt_string_nullable obj "mediaType" "Part" in
      Ok (mkPart (pt_text p) (pt_raw p) (pt_url p) (pt_data p) (opt_metadata obj) filename media_type)
  end.
#[export] Instance WireJson_Part : WireJson Part := {
  to_json_value := part_to_json; from_json_value := part_from_json
}.

Record Artifact := mkArtifact {
  art_id : string; art_description : option string; art_extensions : option (list string);
  art_metadata : option Value; art_name : option string; art_parts : list Part
}.

Definition artifact_to_json (a : Artifact) : JsonResult Value :=
  if str_is_empty (art_id a) then Err "Artifact.artifactId cannot be empty" else
  let obj := insert_str [] "artifactId" (art_id a) in
  let? parts := vec_to_json (art_parts a) in
  let obj := insert obj "parts" parts in
  let obj := insert_opt_str obj "description" (art_description a) in
  let obj := insert_opt obj "extensions" (string_vec_json <$> art_extensions a) in
  let obj := insert_opt_metadata obj (art_metadata a) in
  let obj := insert_opt_str obj "name" (art_name a) in
  Ok (JObject obj).

Definition artifact_from_json (value : Value) : JsonResult Artifact :=
  let? obj := json_object value "Artifact" in
  if negb (ahas "artifactId" obj) || negb (ahas "parts" obj) then Err "Artifact missing required fields" else
  let? artifact_id := get_string obj "artifactId" "Artifact" in
  if str_is_empty artifact_id then Err "Artifact.artifactId cannot be empty" else
  let? description := opt_string obj "description" "Artifact" in
  let? extensions := opt_string_vec obj "extensions" "Artifact" in
  let? name := opt_string obj "name" "Artifact" in
  let? parts := vec_of (obj_index "parts" obj) "Artifact.parts" in
  Ok (mkArtifact artifact_id description extensions (opt_metadata obj) name parts).
#[export] Instance WireJson_Artifact : WireJson Artifact := {
  to_json_value := artifact_to_json; from_json_value := artifact_from_json
}.

Record Message := mkMessage {
  msg_context_id : option string; msg_extensions : option (list string); msg_id : string;
  msg_metadata : option Value; msg_parts : list Part; msg_reference_task_ids : option (list string);
  msg_role : Role; msg_task_id : option string
}.
Definition default_message : Message := mkMessage None None "" None [] None RUser None.

Definition message_to_json (m : Message) : JsonResult Value :=
  if str_is_empty (msg_id m) then Err "Message.messageId cannot be empty" else
  let obj := insert_str [] "messageId" (msg_id m) in
  let? parts := vec_to_json (msg_parts m) in
  let obj := insert obj "parts" parts in
  let obj := insert_str obj "role" (role_as_wire (msg_role m)) in
  let obj := insert_opt_str obj "contextId" (msg_context_id m) in
  let obj := insert_opt obj "extensions" (string_vec_json <$> msg_extensions m) in
  let obj := insert_opt_metadata obj (msg_metadata m) in
  let obj := insert_opt obj "referenceTaskIds" (string_vec_json <$> msg_reference_task_ids m) in
  let obj := insert_opt_str obj "taskId" (msg_task_id m) in
  Ok (JObject obj).

Definition message_from_json (value : Value) : JsonResult Message :=
  let? obj := json_object value "Message" in
  if negb (ahas "messageId" obj) || negb (ahas "parts" obj) then Err "Message missing required fields" else
  let? message_id := get_string obj "messageId" "Message" in
  if str_is_empty message_id then Err "Message.messageId cannot be empty" else
  let? role := match aget "role" obj with
               | Some v => let? s := ok_or (as_str v) "Message.role must be a string" in role_from_wire s
               | None => Ok RUser
               end in
  let? context_id := opt_string obj "contextId" "Message" in
  let? extensions := opt_string_vec obj "extensions" "Message" in
  let? parts := vec_of (obj_index "parts" obj) "Message.parts" in
  let? reference_task_ids := opt_string_vec obj "referenceTaskIds" "Message" in
  let? task_id := opt_string obj "taskId" "Message" in
  Ok (mkMessage context_id extensions message_id (opt_metadata obj) parts reference_task_ids role task_id).
#[export] Instance WireJson_Message : WireJson Message := {
  to_json_value := message_to_json; from_json_value := message_from_json
}.

(** * Tasks *)

Inductive TaskState :=
| Submitted | Working | InputRequired | Completed | Canceled | Failed | Rejected | AuthRequired | Unspecified.
#[export] Instance TaskState_eq_dec : EqDecision TaskState.
Proof. solve_decision. Defined.

Definition state_as_wire (s : TaskState) : string :=
  match s with
  | Submitted => "TASK_STATE_SUBMITTED"
  | Working => "TASK_STATE_WORKING"
  | InputRequired => "TASK_STATE_INPUT_REQUIRED"
  | Completed => "TASK_STATE_COMPLETED"
  | Canceled => "TASK_STATE_CANCELED"
  | Failed => "TASK_STATE_FAILED"
  | Rejected => "TASK_STATE_REJECTED"
  | AuthRequired => "TASK_STATE_AUTH_REQUIRED"
  | Unspecified => "TASK_STATE_UNSPECIFIED"
  end.
(** Unknown strings are [Unspecified]. *)
Definition state_from_wire (s : string) : TaskState :=
  if decide (s = "TASK_STATE_SUBMITTED") then Submitted
  else if decide (s = "TASK_STATE_WORKING") then Working
  else if decide (s = "TASK_STATE_INPUT_REQUIRED") then InputRequired
  else if decide (s = "TASK_STATE_COMPLETED") then Completed
  else if decide (s = "TASK_STATE_CANCELED") then Canceled
  else if decide (s = "TASK_STATE_FAILED") then Failed
  else if decide (s = "TASK_STATE_REJECTED") then Rejected
  else if decide (s = "TASK_STATE_AUTH_REQUIRED") then AuthRequired
  else Unspecified.

Record TaskStatus := mkTaskStatus {
  ts_message : option Message; ts_state : TaskState; ts_timestamp : option string
}.
Definition status_new (state : TaskState) : TaskStatus := mkTaskStatus None state None.

Definition status_to_json (s : TaskStatus) : JsonResult Value :=
  let obj := insert_str [] "state" (state_as_wire (ts_state s)) in
  let? message := opt_to_json to_json_value (ts_message s) in
  let obj := insert_opt obj JSON_FIELD_MESSAGE message in
  let obj := insert_opt_str obj "timestamp" (ts_timestamp s) in
  Ok (JObject obj).
Definition status_from_json (value : Value) : JsonResult TaskStatus :=
  let? obj := json_object value "TaskStatus" in
  let state := match aget "state" obj with Some (JString s) => state_from_wire s | _ => Unspecified end in
  let? message := opt_field from_json_value obj JSON_FIELD_MESSAGE in
  let? timestamp := opt_string obj "timestamp" "TaskStatus" in
  Ok (mkTaskStatus message state timestamp).
#[export] Instance WireJson_TaskStatus : WireJson TaskStatus := {
  to_json_value := status_to_json; from_json_value := status_from_json
}.

Record Task := mkTask {
  tk_artifacts : option (list Artifact); tk_context_id : string; tk_history : option (list Message);
  tk_id : string; tk_metadata : option Value; tk_status : TaskStatus;
  tk_creat_at : option string; tk_last_modified : option string
}.

Definition task_to_json (t : Task) : JsonResult Value :=
  if str_is_empty (tk_id t) then Err "Task.id cannot be empty" else
  let obj := insert_str [] "contextId" (tk_context_id t) in
  let obj := insert_str obj JSON_FIELD_ID (tk_id t) in
  let? status := to_json_value (tk_status t) in
  let obj := insert obj "status" status in
  let? artifacts := opt_to_json vec_to_json (tk_artifacts t) in
  let obj := insert_opt obj "artifacts" artifacts in
  let? history := opt_to_json vec_to_json (tk_history t) in
  let obj := insert_opt obj "history" history in
  let obj := insert_opt_metadata obj (tk_metadata t) in
  Ok (JObject obj).
Definition task_from_json (value : Value) : JsonResult Task :=
  let? obj := json_object value "Task" in
  if negb (ahas "contextId" obj) || negb (ahas JSON_FIELD_ID obj) || negb (ahas "status" obj)
  then Err "Task missing required fields" else
  let? id := get_string obj JSON_FIELD_ID "Task" in
  if str_is_empty id then Err "Task.id cannot be empty" else
  let? artifacts := opt_field (λ v, vec_of v "Task.artifacts") obj "artifacts" in
  let? history := opt_field (λ v, vec_of v "Task.history") obj "history" in
  let? context_id := get_string obj "contextId" "Task" in
  let? status := from_json_value (obj_index "status" obj) in
  Ok (mkTask artifacts context_id history id (opt_metadata obj) status None None).
#[export] Instance WireJson_Task : WireJson Task := {
  to_json_value := task_to_json; from_json_value := task_from_json
}.

(** * Push notification configurations *)

Record PushNotificationAuthenticationInfo := mkPushAuth {
  pa_credentials : option string; pa_schemes : list string
}.
Definition push_auth_to_json (a : PushNotificationAuthenticationInfo) : JsonResult Value :=
  let obj := insert [] "schemes" (string_vec_json (pa_schemes a)) in
  Ok (JObject (insert_opt_str obj "credentials" (pa_credentials a))).
Definition push_auth_from_json (value : Value) : JsonResult PushNotificationAuthenticationInfo :=
  let? obj := json_object value "PushNotificationAuthenticationInfo" in
  let? schemes_json := ok_or (aget "schemes" obj)
    "PushNotificationAuthenticationInfo must contain 'schemes' field" in
  let? schemes := string_vec schemes_json "PushNotificationAuthenticationInfo.schemes" in
  let? credentials := opt_string obj "credentials" "PushNotificationAuthenticationInfo" in
  Ok (mkPushAuth credentials schemes).
#[export] Instance WireJson_PushAuth : WireJson PushNotificationAuthenticationInfo := {
  to_json_value := push_auth_to_json; from_json_value := push_auth_from_json
}.

Record PushNotificationConfig := mkPushConfig {
  pc_authentication : option PushNotificationAuthenticationInfo; pc_config_id : option string;
  pc_id : option string; pc_token : option string; pc_url : string; pc_created_at : option string
}.
Definition default_push_config : PushNotificationConfig := mkPushConfig None None None None "" None.

Definition push_config_to_json (c : PushNotificationConfig) : JsonResult Value :=
  if str_is_empty (pc_url c) then Err "PushNotificationConfig.url cannot be empty" else
  let obj := insert_str [] "url" (pc_url c) in
  let? authentication := opt_to_json to_json_value (pc_authentication c) in
  let obj := insert_opt obj "authentication" authentication in
  let obj := insert_opt_str obj "configId" (pc_config_id c) in
  let obj := insert_opt_str obj JSON_FIELD_ID (pc_id c) in
  let obj := insert_opt_str obj "token" (pc_token c) in
  Ok (JObject obj).
Definition push_config_from_json (value : Value) : JsonResult PushNotificationConfig :=
  let? obj := json_object value "PushNotificationConfig" in
  if negb (ahas "url" obj) then Err "PushNotificationConfig must contain 'url' field" else
  let? url := get_string obj "url" "PushNotificationConfig" in
  if str_is_empty url then Err "PushNotificationConfig.url cannot be empty" else
  let? authentication := opt_field from_json_value obj "authentication" in
  let? id := opt_string obj JSON_FIELD_ID "PushNotificationConfig" in
  let? cid := opt_string obj "configId" "PushNotificationConfig" in
  let id := match cid with Some cid => Some cid | None => id end in
  let? token := opt_string obj "token" "PushNotificationConfig" in
  Ok (mkPushConfig authentication None id token url None).
#[export] Instance WireJson_PushConfig : WireJson PushNotificationConfig := {
  to_json_value := push_config_to_json; from_json_value := push_config_from_json
}.

(** * Requests *)

Record MessageSendConfiguration := mkSendConfig {
  sc_accepted_output_modes : option (list string); sc_history_length : option Z;
  sc_push_notification_config : option PushNotificationConfig; sc_return_immediately : option bool
}.
Definition send_config_to_json (c : MessageSendConfiguration) : JsonResult Value :=
  let obj := insert_opt [] "acceptedOutputModes" (string_vec_json <$> sc_accepted_output_modes c) in
  let obj := insert_opt obj "historyLength" (value_of_i64 <$> sc_history_length c) in
  let? push := opt_to_json to_json_value (sc_push_notification_config c) in
  let obj := insert_opt obj "pushNotificationConfig" push in
  Ok (JObject (insert_opt_bool obj "returnImmediately" (sc_return_immediately c))).
Definition send_config_from_json (value : Value) : JsonResult MessageSendConfiguration :=
  let? obj := json_object value "MessageSendConfiguration" in
  let? modes := match aget "acceptedOutputModes" obj with
                | None | Some JNull => Ok None
                | Some v => let? l := string_vec v "acceptedOutputModes" in Ok (Some l)
                end in
  let? push := opt_field from_json_value obj "pushNotificationConfig" in
  let? history_length := opt_i32 obj "historyLength" "MessageSendConfiguration" in
  let? return_immediately := opt_bool obj "returnImmediately" "MessageSendConfiguration" in
  Ok (mkSendConfig modes history_length push return_immediately).
#[export] Instance WireJson_SendConfig : WireJson MessageSendConfiguration := {
  to_json_value := send_config_to_json; from_json_value := send_config_from_json
}.

Record MessageSendParams := mkSendParams {
  sp_configuration : option MessageSendConfiguration; sp_message : Message; sp_metadata : option Value
}.
Definition send_params_to_json (p : MessageSendParams) : JsonResult Value :=
  let? message := to_json_value (sp_message p) in
  let obj := insert [] JSON_FIELD_MESSAGE message in
  let? configuration := opt_to_json to_json_value (sp_configuration p) in
  let obj := insert_opt obj "configuration" configuration in
  Ok (JObject (insert_opt_metadata obj (sp_metadata p))).
Definition send_params_from_json (value : Value) : JsonResult MessageSendParams :=
  let? obj := json_object value "MessageSendParams" in
  let? message_json := ok_or (aget JSON_FIELD_MESSAGE obj) "MessageSendParams must contain 'message' field" in
  let? configuration := opt_field from_json_value obj "configuration" in
  let? message := from_json_value message_json in
  Ok (mkSendParams configuration message (opt_metadata obj)).
#[export] Instance WireJson_SendParams : WireJson MessageSendParams := {
  to_json_value := send_params_to_json; from_json_value := send_params_from_json
}.

Definition id_params_to_json (type_name id : string) (metadata : option Value) : JsonResult JsonDict :=
  if str_is_empty id then Err (type_name +:+ ".id cannot be empty")
  else Ok (insert_opt_metadata (insert_str [] JSON_FIELD_ID id) metadata).
Definition id_params_from_json (type_name : string) (value : Value) : JsonResult (JsonDict * string) :=
  let? obj := json_object value type_name in
  if negb (ahas JSON_FIELD_ID obj) then Err (type_name +:+ " must contain 'id' field") else
  let? id := get_string obj JSON_FIELD_ID type_name in
  if str_is_empty id then Err (type_name +:+ ".id cannot be empty") else Ok (obj, id).

Record TaskIdParams := mkTaskIdParams { ip_id : string; ip_metadata : option Value }.
Definition task_id_params_to_json (p : TaskIdParams) : JsonResult Value :=
  let? obj := id_params_to_json "TaskIdParams" (ip_id p) (ip_metadata p) in Ok (JObject obj).
Definition task_id_params_from_json (value : Value) : JsonResult TaskIdParams :=
  let? (obj, id) := id_params_from_json "TaskIdParams" value in Ok (mkTaskIdParams id (opt_metadata obj)).
#[export] Instance WireJson_TaskIdParams : WireJson TaskIdParams := {
  to_json_value := task_id_params_to_json; from_json_value := task_id_params_from_json
}.

Record TaskQueryParams := mkTaskQuery { q_history_length : option Z; q_id : string; q_metadata : option Value }.
Definition task_query_to_json (p : TaskQueryParams) : JsonResult Value :=
  let? obj := id_params_to_json "TaskQueryParams" (q_id p) None in
  let obj := insert_opt obj "historyLength" (value_of_i64 <$> q_history_length p) in
  Ok (JObject (insert_opt_metadata obj (q_metadata p))).
Definition task_query_from_json (value : Value) : JsonResult TaskQueryParams :=
  let? (obj, id) := id_params_from_json "TaskQueryParams" value in
  let? history_length := opt_i32 obj "historyLength" "TaskQueryParams" in
  Ok (mkTaskQuery history_length id (opt_metadata obj)).
#[export] Instance WireJson_TaskQueryParams : WireJson TaskQueryParams := {
  to_json_value := task_query_to_json; from_json_value := task_query_from_json
}.

Record TaskPushNotificationConfig := mkTaskPush { tp_config : PushNotificationConfig; tp_task_id : string }.
Definition task_push_to_json (c : TaskPushNotificationConfig) : JsonResult Value :=
  if str_is_empty (tp_task_id c) then Err "TaskPushNotificationConfig.taskId cannot be empty" else
  let? config := to_json_value (tp_config c) in
  let obj := insert [] "pushNotificationConfig" config in
  Ok (JObject (insert_str obj "taskId" (tp_task_id c))).
Definition task_push_from_json (value : Value) : JsonResult TaskPushNotificationConfig :=
  let? obj := json_object value "TaskPushNotificationConfig" in
  if negb (ahas "pushNotificationConfig" obj) || negb (ahas "taskId" obj)
  then Err "TaskPushNotificationConfig missing required fields" else
  let? task_id := get_string obj "taskId" "TaskPushNotificationConfig" in
  if str_is_empty task_id then Err "TaskPushNotificationConfig.taskId cannot be empty" else
  let? config := from_json_value (obj_index "pushNotificationConfig" obj) in
  Ok (mkTaskPush config task_id).
#[export] Instance WireJson_TaskPush : WireJson TaskPushNotificationConfig := {
  to_json_value := task_push_to_json; from_json_value := task_push_from_json
}.

Record GetTaskPushNotificationConfigParams := mkGetPush {
  gp_id : string; gp_metadata : option Value; gp_config_id : option string
}.
Definition get_push_to_json (p : GetTaskPushNotificationConfigParams) : JsonResult Value :=
  let? obj := id_params_to_json "GetTaskPushNotificationConfigParams" (gp_id p) (gp_metadata p) in
  Ok (JObject (insert_opt_str obj "pushNotificationConfigId" (gp_config_id p))).
Definition get_push_from_json (value : Value) : JsonResult GetTaskPushNotificationConfigParams :=
  let? (obj, id) := id_params_from_json "GetTaskPushNotificationConfigParams" value in
  let? config_id := opt_string obj "pushNotificationConfigId" "GetTaskPushNotificationConfigParams" in
  Ok (mkGetPush id (opt_metadata obj) config_id).
#[export] Instance WireJson_GetPush : WireJson GetTaskPushNotificationConfigParams := {
  to_json_value := get_push_to_json; from_json_value := get_push_from_json
}.

Record ListTaskPushNotificationConfigParams := mkListPush { lp_id : string; lp_metadata : option Value }.
Definition list_push_to_json (p : ListTaskPushNotificationConfigParams) : JsonResult Value :=
  let? obj := id_params_to_json "ListTaskPushNotificationConfigParams" (lp_id p) (lp_metadata p) in
  Ok (JObject obj).
Definition list_push_from_json (value : Value) : JsonResult ListTaskPushNotificationConfigParams :=
  let? (obj, id) := id_params_from_json "ListTaskPushNotificationConfigParams" value in
  Ok (mkListPush id (opt_metadata obj)).
#[export] Instance WireJson_ListPush : WireJson ListTaskPushNotificationConfigParams := {
  to_json_value := list_push_to_json; from_json_value := list_push_from_json
}.

Record DeleteTaskPushNotificationConfigParams := mkDeletePush {
  dp_id : string; dp_metadata : option Value; dp_config_id : string
}.
Definition delete_push_to_json (p : DeleteTaskPushNotificationConfigParams) : JsonResult Value :=
  if str_is_empty (dp_id p) then Err "DeleteTaskPushNotificationConfigParams.id cannot be empty"
  else if str_is_empty (dp_config_id p) then
    Err "DeleteTaskPushNotificationConfigParams.pushNotificationConfigId cannot be empty"
  else
    let obj := insert_str [] JSON_FIELD_ID (dp_id p) in
    let obj := insert_str obj "pushNotificationConfigId" (dp_config_id p) in
    Ok (JObject (insert_opt_metadata obj (dp_metadata p))).
Definition delete_push_from_json (value : Value) : JsonResult DeleteTaskPushNotificationConfigParams :=
  let? obj := json_object value "DeleteTaskPushNotificationConfigParams" in
  if negb (ahas JSON_FIELD_ID obj) || negb (ahas "pushNotificationConfigId" obj)
  then Err "DeleteTaskPushNotificationConfigParams missing required fields" else
  let? id := get_string obj JSON_FIELD_ID "DeleteTaskPushNotificationConfigParams" in
  let? config_id := get_string obj "pushNotificationConfigId" "DeleteTaskPushNotificationConfigParams" in
  if str_is_empty id then Err "DeleteTaskPushNotificationConfigParams.id cannot be empty"
  else if str_is_empty config_id then
    Err "DeleteTaskPushNotificationConfigParams.pushNotificationConfigId cannot be empty"
  else Ok (mkDeletePush id (opt_metadata obj) config_id).
#[export] Instance WireJson_DeletePush : WireJson DeleteTaskPushNotificationConfigParams := {
  to_json_value := delete_push_to_json; from_json_value := delete_push_from_json
}.

(** * Events *)

Record TaskArtifactUpdateEvent := mkArtifactUpdate {
  au_append : option bool; au_artifact : Artifact; au_context_id : string; au_last_chunk : option bool;
  au_metadata : option Value; au_task_id : string; au_index : option Z
}.
Definition artifact_update_to_json (e : TaskArtifactUpdateEvent) : JsonResult Value :=
  let? artifact := to_json_value (au_artifact e) in
  let obj := insert [] "artifact" artifact in
  let obj := insert_str obj "contextId" (au_context_id e) in
  let obj := insert_str obj "taskId" (au_task_id e) in
  let obj := insert_opt_bool obj "append" (au_append e) in
  let obj := insert_opt_bool obj "lastChunk" (au_last_chunk e) in
  Ok (JObject (insert_opt_metadata obj (au_metadata e))).
Definition artifact_update_from_json (value : Value) : JsonResult TaskArtifactUpdateEvent :=
  let? obj := json_object value "TaskArtifactUpdateEvent" in
  if negb (ahas "artifact" obj) || negb (ahas "contextId" obj) || negb (ahas "taskId" obj)
  then Err "TaskArtifactUpdateEvent missing required fields" else
  let? task_id := get_string obj "taskId" "TaskArtifactUpdateEvent" in
  if str_is_empty task_id then Err "TaskArtifactUpdateEvent.taskId cannot be empty" else
  let? append := opt_bool obj "append" "TaskArtifactUpdateEvent" in
  let? artifact := from_json_value (obj_index "artifact" obj) in
  let? context_id := get_string obj "contextId" "TaskArtifactUpdateEvent" in
  let? last_chunk := opt_bool obj "lastChunk" "TaskArtifactUpdateEvent" in
  Ok (mkArtifactUpdate append artifact context_id last_chunk (opt_metadata obj) task_id None).
#[export] Instance WireJson_ArtifactUpdate : WireJson TaskArtifactUpdateEvent := {
  to_json_value := artifact_update_to_json; from_json_value := artifact_update_from_json
}.

Record TaskStatusUpdateEvent := mkStatusUpdate {
  su_context_id : string; su_metadata : option Value; su_status : TaskStatus; su_task_id : string
}.
Definition status_update_to_json (e : TaskStatusUpdateEvent) : JsonResult Value :=
  let obj := insert_str [] "contextId" (su_context_id e) in
  let? status := to_json_value (su_status e) in
  let obj := insert obj "status" status in
  let obj := insert_str obj "taskId" (su_task_id e) in
  Ok (JObject (insert_opt_metadata obj (su_metadata e))).
Definition status_update_from_json (value : Value) : JsonResult TaskStatusUpdateEvent :=
  let? obj := json_object value "TaskStatusUpdateEvent" in
  if negb (ahas "contextId" obj) || negb (ahas "status" obj) || negb (ahas "taskId" obj)
  then Err "TaskStatusUpdateEvent missing required fields" else
  let? task_id := get_string obj "taskId" "TaskStatusUpdateEvent" in
  if str_is_empty task_id then Err "TaskStatusUpdateEvent.taskId cannot be empty" else
  let? context_id := get_string obj "contextId" "TaskStatusUpdateEvent" in
  let? status := from_json_value (obj_index "status" obj) in
  Ok (mkStatusUpdate context_id (opt_metadata obj) status task_id).
#[export] Instance WireJson_StatusUpdate : WireJson TaskStatusUpdateEvent := {
  to_json_value := status_update_to_json; from_json_value := status_update_from_json
}.

Inductive StreamEvent :=
| EvTask (t : Task)
| EvMessage (m : Message)
| EvArtifactUpdate (e : TaskArtifactUpdateEvent)
| EvStatusUpdate (e : TaskStatusUpdateEvent).

Definition event_task_id (ev : StreamEvent) : option string :=
  match ev with
  | EvTask t => Some (tk_id t)
  | EvMessage m => msg_task_id m
  | EvArtifactUpdate e => Some (au_task_id e)
  | EvStatusUpdate e => Some (su_task_id e)
  end.

Definition event_to_json (ev : StreamEvent) : JsonResult Value :=
  match ev with
  | EvStatusUpdate e =>
      let? v := to_json_value e in Ok (JObject (insert [] STREAM_RESULT_KEY_STATUS_UPDATE v))
  | EvArtifactUpdate e =>
      let? v := to_json_value e in Ok (JObject (insert [] STREAM_RESULT_KEY_ARTIFACT_UPDATE v))
  | EvTask t => let? v := to_json_value t in Ok (JObject (insert [] STREAM_RESPONSE_TYPE_TASK v))
  | EvMessage m => let? v := to_json_value m in Ok (JObject (insert [] JSON_FIELD_MESSAGE v))
  end.
Definition event_from_json (value : Value) : JsonResult StreamEvent :=
  let? obj := json_object value "SendStreamingMessage result" in
  match aget STREAM_RESPONSE_TYPE_TASK obj, aget JSON_FIELD_MESSAGE obj,
        aget STREAM_RESULT_KEY_STATUS_UPDATE obj, aget STREAM_RESULT_KEY_ARTIFACT_UPDATE obj with
  | Some v, _, _, _ => let? t := from_json_value v in Ok (EvTask t)
  | None, Some v, _, _ => let? m := from_json_value v in Ok (EvMessage m)
  | None, None, Some v, _ => let? e := from_json_value v in Ok (EvStatusUpdate e)
  | None, None, None, Some v => let? e := from_json_value v in Ok (EvArtifactUpdate e)
  | None, None, None, None => Err "result deserialize field"
  end.
#[export] Instance WireJson_StreamEvent : WireJson StreamEvent := {
  to_json_value := event_to_json; from_json_value := event_from_json
}.

Inductive SendMessageResult := SendTask (t : Task) | SendMessage (m : Message).
Definition send_result_to_json (r : SendMessageResult) : JsonResult Value :=
  match r with
  | SendTask t => let? v := to_json_value t in Ok (JObject (insert [] STREAM_RESPONSE_TYPE_TASK v))
  | SendMessage m => let? v := to_json_value m in Ok (JObject (insert [] JSON_FIELD_MESSAGE v))
  end.
Definition send_result_from_json (value : Value) : JsonResult SendMessageResult :=
  let? obj := json_object value "SendMessage result" in
  let has_message := ahas JSON_FIELD_MESSAGE obj in
  let has_task := ahas STREAM_RESPONSE_TYPE_TASK obj in
  if has_message && has_task then Err "Response must contain either 'message' or 'task', not both"
  else if has_message then let? m := from_json_value (obj_index JSON_FIELD_MESSAGE obj) in Ok (SendMessage m)
  else if has_task then let? t := from_json_value (obj_index STREAM_RESPONSE_TYPE_TASK obj) in Ok (SendTask t)
  else Err "Response must contain either 'message' or 'task' field".
#[export] Instance WireJson_SendResult : WireJson SendMessageResult := {
  to_json_value := send_result_to_json; from_json_value := send_result_from_json
}.

(** * Errors *)

Record A2AError := mkA2AError { ae_code : Z; ae_data : option Value; ae_message : option string }.
Definition a2a_error_to_json (e : A2AError) : JsonResult Value :=
  let obj := insert [] "code" (value_of_i64 (ae_code e)) in
  let obj := insert_str obj JSON_FIELD_MESSAGE (default "" (ae_message e)) in
  Ok (JObject (insert_opt obj "data" (ae_data e))).
Definition a2a_error_from_json (value : Value) : JsonResult A2AError :=
  let? obj := json_object value "A2AError" in
  let? code := ok_or (aget "code" obj ≫= as_i64) "A2AError must contain an integer 'code' field" in
  let? message := opt_string obj JSON_FIELD_MESSAGE "A2AError" in
  Ok (mkA2AError code (aget "data" obj) message).
#[export] Instance WireJson_A2AError : WireJson A2AError := {
  to_json_value := a2a_error_to_json; from_json_value := a2a_error_from_json
}.

(** * JSON text and methods *)

(** [serde_json::from_str], [serde_json::to_string]. *)
Class A2AText := {
  parse_text : string → result Value string;
  print_value : Value → string
}.

Definition METHOD_MESSAGE_SEND : string := "SendMessage".
Definition METHOD_MESSAGE_STREAM : string := "SendStreamingMessage".
Definition METHOD_TASK_GET : string := "GetTask".
Definition METHOD_TASK_CANCEL : string := "CancelTask".
Definition METHOD_TASK_RESUBSCRIBE : string := "SubscribeToTask".
Definition METHOD_PUSH_SET : string := "CreateTaskPushNotificationConfig".
Definition METHOD_PUSH_GET : string := "GetTaskPushNotificationConfig".
Definition METHOD_PUSH_LIST : string := "ListTaskPushNotificationConfigs".
Definition METHOD_PUSH_DELETE : string := "DeleteTaskPushNotificationConfig".
Definition METHOD_AGENT_CARD_GET : string := "GetAgentCard".
