(* ===== verification/A2AWireFacts.v ===== *)
(** What the wire JSON of A2A carries: the class [WireLaws] says that the
    values a decoder can return are exactly the well-formed ones, and that each
    of them is written as something that reads back as itself. *)
From S2P Require Import Prelude RustMap RustStr Json A2AData.

Class WireLaws (T : Type) `{!WireJson T} := {
  wire_ok : T → Prop;
  wire_roundtrips x : wire_ok x → ∃ v, to_json_value x = Ok v ∧ from_json_value v = Ok x;
  wire_sound v x : from_json_value v = Ok x → wire_ok x
}.

(** * Reading what was inserted *)

Lemma aget_insert k k' v m : aget k (insert m k' v) = if String.eqb k k' then Some v else aget k m.
Proof.
  unfold insert. rewrite aget_im_insert. destruct (String.eqb_spec k k'); [by rewrite decide_True|by rewrite decide_False].
Qed.
Lemma aget_insert_str k k' v m :
  aget k (insert_str m k' v) = if String.eqb k k' then Some (JString v) else aget k m.
Proof. apply (aget_insert k k' (JString v) m). Qed.
Lemma aget_insert_opt k k' o m :
  aget k (insert_opt m k' o) =
    if String.eqb k k' then match o with Some v => Some v | None => aget k m end else aget k m.
Proof. destruct o; cbn [insert_opt]; [by rewrite aget_insert|by destruct (String.eqb k k')]. Qed.
Lemma insert_opt_str_eq m k o : insert_opt_str m k o = insert_opt m k (JString <$> o).
Proof. by destruct o. Qed.
Lemma insert_opt_bool_eq m k o : insert_opt_bool m k o = insert_opt m k (JBool <$> o).
Proof. by destruct o. Qed.
Lemma insert_opt_metadata_eq m o : insert_opt_metadata m o = insert_opt m JSON_FIELD_METADATA o.
Proof. by destruct o. Qed.
Lemma option_eta {A} (o : option A) : match o with Some x => Some x | None => None end = o.
Proof. by destruct o. Qed.

(** Evaluates the lookup of a literal key in an object built by insertions. *)
Ltac json_get :=
  unfold JSON_FIELD_METADATA, JSON_FIELD_ID, JSON_FIELD_MESSAGE;
  repeat (first [ rewrite insert_opt_str_eq | rewrite insert_opt_bool_eq | rewrite insert_opt_metadata_eq
                | rewrite aget_insert | rewrite aget_insert_str | rewrite aget_insert_opt ];
          unfold JSON_FIELD_METADATA, JSON_FIELD_ID, JSON_FIELD_MESSAGE;
          cbn [String.eqb Ascii.eqb Bool.eqb]);
  cbn [aget]; rewrite ?option_eta.
Ltac json_lookup := json_get; reflexivity.
Ltac json_field := first [json_lookup | done].

(** * Optional fields *)

Definition metadata_ok (o : option Value) : Prop := o ≠ Some JNull.

Lemma opt_metadata_ok obj : metadata_ok (opt_metadata obj).
Proof. unfold metadata_ok, opt_metadata. by destruct (aget _ obj) as [[]|]. Qed.
Lemma opt_metadata_read obj o :
  aget JSON_FIELD_METADATA obj = o → metadata_ok o → opt_metadata obj = o.
Proof. unfold opt_metadata, metadata_ok. intros ->. by destruct o as [[]|]. Qed.

Lemma opt_string_read obj k tn o : aget k obj = JString <$> o → opt_string obj k tn = Ok o.
Proof. unfold opt_string. intros ->. by destruct o. Qed.
Lemma opt_nullable_read obj k tn o : aget k obj = JString <$> o → opt_string_nullable obj k tn = Ok o.
Proof. unfold opt_string_nullable. intros ->. by destruct o. Qed.
Lemma opt_bool_read obj k tn o : aget k obj = JBool <$> o → opt_bool obj k tn = Ok o.
Proof. unfold opt_bool. intros ->. by destruct o. Qed.
Lemma get_string_read obj k tn s : aget k obj = Some (JString s) → get_string obj k tn = Ok s.
Proof. unfold get_string. by intros ->. Qed.

Definition in_i32 (n : Z) : Prop := (- 2 ^ 31 ≤ n < 2 ^ 31)%Z.
Definition opt_in_i32 (o : option Z) : Prop := match o with Some n => in_i32 n | None => True end.
Lemma as_i32_id n : in_i32 n → as_i32 n = n.
Proof. unfold in_i32, as_i32. intros. rewrite Z.mod_small; lia. Qed.
Lemma as_i32_range n : in_i32 (as_i32 n).
Proof. unfold in_i32, as_i32. pose proof (Z.mod_pos_bound (n + 2 ^ 31) (2 ^ 32) ltac:(lia)). lia. Qed.
Lemma opt_i32_read obj k tn o : aget k obj = value_of_i64 <$> o → opt_in_i32 o → opt_i32 obj k tn = Ok o.
Proof.
  unfold opt_i32. intros ->. destruct o as [n|]; [|done]. cbn [fmap option_fmap option_map opt_in_i32]. intros Hn.
  rewrite as_i64_value_of_i64 by (unfold in_i32 in Hn; unfold in_i64, i64_min, i64_max; lia). cbn.
  by rewrite as_i32_id.
Qed.
Lemma opt_i32_ok obj k tn o : opt_i32 obj k tn = Ok o → opt_in_i32 o.
Proof.
  unfold opt_i32. destruct (aget k obj) as [v|]; [|by intros [= <-]].
  destruct (as_i64 v); cbn; [|done]. intros [= <-]. apply as_i32_range.
Qed.

(** * Arrays *)

Lemma string_vec_read l what : string_vec (string_vec_json l) what = Ok l.
Proof. unfold string_vec, string_vec_json. induction l as [|s l IH]; [done|]. cbn. cbn in IH. by rewrite IH. Qed.
Lemma opt_string_vec_read obj k tn o : aget k obj = string_vec_json <$> o → opt_string_vec obj k tn = Ok o.
Proof. unfold opt_string_vec. intros ->. destruct o; [|done]. unfold fmap, option_fmap, option_map. by rewrite string_vec_read. Qed.

Section collected.
Context {A B E : Type} (f : A → result B E).

Lemma collect_Forall (P : B → Prop) l l' :
  (∀ x y, f x = Ok y → P y) → collect_results f l = Ok l' → Forall P l'.
Proof.
  intros Hf. revert l'. induction l as [|x l IH]; cbn; intros l' Hl; [by simplify_eq; constructor|].
  destruct (f x) eqn:Hx; [|done]. destruct (collect_results f l); [|done]. simplify_eq. constructor; eauto.
Qed.
End collected.

Section vec.
Context {T : Type} `{!WireJson T, !WireLaws T}.

Lemma vec_roundtrip (l : list T) what :
  Forall wire_ok l → ∃ v, vec_to_json l = Ok v ∧ vec_of v what = Ok l.
Proof.
  unfold vec_to_json, vec_of. induction 1 as [|x l Hx _ (v & Hv & Hl)]; cbn; [by eexists|].
  destruct (wire_roundtrips x Hx) as (w & -> & Hw). destruct (collect_results to_json_value l) as [vs|]; [|done].
  simplify_eq. eexists; split; [done|]. cbn. by rewrite Hw, Hl.
Qed.
Lemma vec_sound v what (l : list T) : vec_of v what = Ok l → Forall wire_ok l.
Proof. unfold vec_of. destruct v; try done. apply collect_Forall. intros v x. apply wire_sound. Qed.

Definition opt_ok (o : option T) : Prop := match o with Some x => wire_ok x | None => True end.
Lemma opt_roundtrip (o : option T) :
  opt_ok o → ∃ w, opt_to_json to_json_value o = Ok w ∧ ∀ obj k, aget k obj = w → opt_field from_json_value obj k = Ok o.
Proof.
  destruct o as [x|]; cbn; [|intros _; exists None; split; [done|unfold opt_field; by intros ?? ->]].
  intros (v & -> & Hv)%wire_roundtrips. exists (Some v). split; [done|]. unfold opt_field. intros ?? ->. by rewrite Hv.
Qed.
Lemma opt_sound obj k (o : option T) : opt_field from_json_value obj k = Ok o → opt_ok o.
Proof.
  unfold opt_field. destruct (aget k obj) as [v|]; [|by intros [= <-]].
  destruct (from_json_value v) eqn:Hv; [|done]. intros [= <-]. by eapply wire_sound.
Qed.

Definition opt_vec_ok (o : option (list T)) : Prop := match o with Some l => Forall wire_ok l | None => True end.
Lemma opt_vec_roundtrip (o : option (list T)) what :
  opt_vec_ok o → ∃ w, opt_to_json vec_to_json o = Ok w ∧
    ∀ obj k, aget k obj = w → opt_field (λ v, vec_of v what) obj k = Ok o.
Proof.
  destruct o as [l|]; cbn; [|intros _; exists None; split; [done|unfold opt_field; by intros ?? ->]].
  intros (v & -> & Hv)%(vec_roundtrip _ what). exists (Some v). split; [done|]. unfold opt_field. intros ?? ->. by rewrite Hv.
Qed.
Lemma opt_vec_sound obj k what (o : option (list T)) : opt_field (λ v, vec_of v what) obj k = Ok o → opt_vec_ok o.
Proof.
  unfold opt_field. destruct (aget k obj) as [v|]; [|by intros [= <-]].
  destruct (vec_of v what) eqn:Hv; [|done]. intros [= <-]. by eapply vec_sound.
Qed.
End vec.

Lemma str_nonempty s : s ≠ "" → str_is_empty s = false.
Proof. by destruct s. Qed.
Lemma nonempty_str s : str_is_empty s = false → s ≠ "".
Proof. by destruct s. Qed.

(** Opens the successful run of a decoder. *)
Ltac decode_inv H :=
  repeat first
    [ lazymatch type of H with
      | match ?m with Ok _ => _ | Err _ => _ end = Ok _ => let E := fresh "Hd" in destruct m eqn:E; [|discriminate H]
      | (if ?b then _ else _) = Ok _ => let E := fresh "Hd" in destruct b eqn:E; try discriminate H
      | (let '(_, _) := ?p in _) = Ok _ => destruct p
      end ];
  try (injection H as H); try subst.

Lemma json_object_read m tn : json_object (JObject m) tn = Ok m.
Proof. done. Qed.
Lemma ahas_read k (obj : JsonDict) v : aget k obj = Some v → ahas k obj = true.
Proof. unfold ahas. by intros ->. Qed.
Lemma obj_index_read k obj v : aget k obj = Some v → obj_index k obj = v.
Proof. unfold obj_index. by intros ->. Qed.

Lemma ok_or_read {E} k (obj : JsonDict) v (e : E) : aget k obj = Some v → ok_or (aget k obj) e = Ok v.
Proof. by intros ->. Qed.

(** Runs a decoder on an object built by insertions. *)
Ltac json_read :=
  rewrite ?json_object_read;
  repeat first
    [ erewrite ahas_read by json_lookup
    | erewrite obj_index_read by json_lookup
    | erewrite ok_or_read by json_lookup
    | erewrite get_string_read by json_lookup
    | erewrite opt_string_read by json_lookup
    | erewrite opt_bool_read by json_lookup
    | erewrite opt_i32_read by json_field
    | erewrite opt_string_vec_read by json_lookup
    | rewrite string_vec_read
    | erewrite opt_metadata_read by json_field
    | rewrite str_nonempty by done
    | progress cbn [negb orb ok_or] ];
  repeat match goal with |- context [match aget ?k ?o with _ => _ end] =>
    let E := fresh in eassert (aget k o = _) as E by json_lookup; rewrite E; clear E end.

(** * Instances *)

(** One of the four payloads, in the form the wire allows. *)
Definition part_ok (p : Part) : Prop :=
  match pt_text p, pt_raw p, pt_url p, pt_data p with
  | Some _, None, None, None | None, Some _, None, None | None, None, Some _, None => True
  | None, None, None, Some d => is_data d = true
  | _, _, _, _ => False
  end ∧ metadata_ok (pt_metadata p).

Lemma part_content_shape obj p : part_content obj = Ok (Some p) →
  part_ok (mkPart (pt_text p) (pt_raw p) (pt_url p) (pt_data p) None (pt_filename p) (pt_media_type p)).
Proof.
  induction obj as [|[k v] obj IH]; [done|]. cbn [part_content]. intros Hp.
  destruct (part_entry k v) as [[q|]|] eqn:Hq; [|by apply IH|done]. simplify_eq. unfold part_entry in Hq.
  repeat case_decide; destruct v; cbn in Hq; simplify_eq; by split.
Qed.

#[export] Program Instance WireLaws_Part : WireLaws Part := { wire_ok := part_ok }.
Next Obligation.
  intros [t r u d m f mt] [Hc Hm]. cbn [pt_text pt_raw pt_url pt_data pt_metadata] in Hc, Hm.
  eexists; split; [reflexivity|]. cbn [from_json_value WireJson_Part]. unfold part_from_json.
  cbn [json_object as_object ok_or pt_text pt_raw pt_url pt_data pt_metadata pt_filename pt_media_type].
  lazymatch goal with |- context [part_content ?o] => set (obj := o) end.
  assert (Hpc : part_content obj = Ok (Some (mkPart t r u d None None None))).
  { subst obj. destruct t, r, u, d as [d|]; try done; destruct m, f, mt; try done; cbn in Hc |- *; by destruct d. }
  rewrite Hpc. cbn [pt_text pt_raw pt_url pt_data].
  assert (aget JSON_FIELD_METADATA obj = m ∧ aget "filename" obj = JString <$> f ∧
                  aget "mediaType" obj = JString <$> mt) as (Hmeta & Hf & Hmt).
  { subst obj. split_and!; json_get; destruct t, r, u, d, m, f, mt; done. }
  by rewrite (opt_nullable_read _ _ _ f), (opt_nullable_read _ _ _ mt), (opt_metadata_read _ m).
Qed.
Next Obligation.
  intros v p Hp. cbn [from_json_value WireJson_Part] in Hp. unfold part_from_json in Hp.
  destruct (json_object v "Part") as [obj|]; [|done]. destruct (part_content obj) as [[q|]|] eqn:Hq; try done.
  decode_inv Hp. destruct (part_content_shape _ _ Hq) as [Hc _]. split; [done|]. apply opt_metadata_ok.
Qed.

Definition artifact_ok (a : Artifact) : Prop :=
  art_id a ≠ "" ∧ metadata_ok (art_metadata a) ∧ Forall wire_ok (art_parts a).
#[export] Program Instance WireLaws_Artifact : WireLaws Artifact := { wire_ok := artifact_ok }.
Next Obligation.
  intros [id d e m n ps] (Hid & Hm & Hps). cbn [art_id art_metadata art_parts] in *.
  destruct (vec_roundtrip ps "Artifact.parts" Hps) as (v & Hv & Hr).
  cbn [to_json_value from_json_value WireJson_Artifact]. unfold artifact_to_json, artifact_from_json.
  cbn [art_id art_description art_extensions art_metadata art_name art_parts].
  rewrite Hv, str_nonempty by done. eexists; split; [reflexivity|]. json_read. by rewrite Hr.
Qed.
Next Obligation.
  intros v x Hx. cbn [from_json_value WireJson_Artifact] in Hx. unfold artifact_from_json in Hx. decode_inv Hx.
  split_and!; cbn; [by apply nonempty_str|apply opt_metadata_ok|by eapply (@vec_sound Part _ WireLaws_Part)].
Qed.

Lemma role_wire r : role_from_wire (role_as_wire r) = Ok r.
Proof. by destruct r. Qed.

Definition message_ok (m : Message) : Prop :=
  msg_id m ≠ "" ∧ metadata_ok (msg_metadata m) ∧ Forall wire_ok (msg_parts m).
#[export] Program Instance WireLaws_Message : WireLaws Message := { wire_ok := message_ok }.
Next Obligation.
  intros [c e id m ps refs r t] (Hid & Hm & Hps). cbn [msg_id msg_metadata msg_parts] in *.
  destruct (vec_roundtrip ps "Message.parts" Hps) as (v & Hv & Hr).
  cbn [to_json_value from_json_value WireJson_Message]. unfold message_to_json, message_from_json.
  cbn [msg_context_id msg_extensions msg_id msg_metadata msg_parts msg_reference_task_ids msg_role msg_task_id].
  rewrite Hv, str_nonempty by done. eexists; split; [reflexivity|]. json_read. cbn [as_str ok_or].
  by rewrite role_wire, Hr.
Qed.
Next Obligation.
  intros v x Hx. cbn [from_json_value WireJson_Message] in Hx. unfold message_from_json in Hx. decode_inv Hx.
  split_and!; cbn; [by apply nonempty_str|apply opt_metadata_ok|by eapply (@vec_sound Part _ WireLaws_Part)].
Qed.

Lemma state_roundtrip s : state_from_wire (state_as_wire s) = s.
Proof. by destruct s. Qed.

#[export] Program Instance WireLaws_TaskStatus : WireLaws TaskStatus := { wire_ok s := opt_ok (ts_message s) }.
Next Obligation.
  intros [m st t] Hm. cbn [ts_message] in Hm. destruct (opt_roundtrip m Hm) as (w & Hw & Hr).
  cbn [to_json_value from_json_value WireJson_TaskStatus]. unfold status_to_json, status_from_json.
  cbn [ts_message ts_state ts_timestamp]. rewrite Hw. eexists; split; [reflexivity|].
  erewrite json_object_read, Hr by json_lookup. json_read. by rewrite state_roundtrip.
Qed.
Next Obligation.
  intros v x Hx. cbn [from_json_value WireJson_TaskStatus] in Hx. unfold status_from_json in Hx. decode_inv Hx.
  by eapply (@opt_sound Message _ WireLaws_Message).
Qed.

(** The two times of a task are not on the wire. *)
Definition task_ok (t : Task) : Prop :=
  tk_id t ≠ "" ∧ metadata_ok (tk_metadata t) ∧ opt_vec_ok (tk_artifacts t) ∧ opt_vec_ok (tk_history t) ∧
  wire_ok (tk_status t) ∧ tk_creat_at t = None ∧ tk_last_modified t = None.
#[export] Program Instance WireLaws_Task : WireLaws Task := { wire_ok := task_ok }.
Next Obligation.
  intros [a c h id m s ca lm] (Hid & Hm & Ha & Hh & Hs & Hca & Hlm).
  cbn [tk_id tk_metadata tk_artifacts tk_history tk_status tk_creat_at tk_last_modified] in *. subst.
  destruct (opt_vec_roundtrip a "Task.artifacts" Ha) as (wa & Hwa & Hra), (opt_vec_roundtrip h "Task.history" Hh) as (wh & Hwh & Hrh),
    (wire_roundtrips s Hs) as (v & Hv & Hr).
  cbn [to_json_value from_json_value WireJson_Task]. unfold task_to_json, task_from_json.
  cbn [tk_id tk_metadata tk_artifacts tk_history tk_status tk_context_id]. rewrite Hv, Hwa, Hwh, str_nonempty by done.
  eexists; split; [reflexivity|]. rewrite json_object_read. erewrite Hra, Hrh by json_lookup. json_read. by rewrite Hr.
Qed.
Next Obligation.
  intros v x Hx. cbn [from_json_value WireJson_Task] in Hx. unfold task_from_json in Hx. decode_inv Hx.
  split_and!; cbn; [by apply nonempty_str|apply opt_metadata_ok|by eapply (@opt_vec_sound Artifact _ WireLaws_Artifact)|by eapply (@opt_vec_sound Message _ _)|by apply (@wire_sound TaskStatus _ WireLaws_TaskStatus _ _ Hd6)|done|done].
Qed.

#[export] Program Instance WireLaws_PushAuth : WireLaws PushNotificationAuthenticationInfo := { wire_ok _ := True }.
Next Obligation.
  intros [c s] _. eexists; split; [reflexivity|]. cbn [from_json_value WireJson_PushAuth]. unfold push_auth_from_json.
  cbn [pa_credentials pa_schemes]. by json_read.
Qed.
Next Obligation. done. Qed.

(** On the wire [configId] is another name of [id]; the creation time is not
    on it. *)
Definition push_config_ok (c : PushNotificationConfig) : Prop :=
  pc_url c ≠ "" ∧ pc_config_id c = None ∧ pc_created_at c = None.
#[export] Program Instance WireLaws_PushConfig : WireLaws PushNotificationConfig := { wire_ok := push_config_ok }.
Next Obligation.
  intros [a ci id t u cr] (Hu & Hci & Hcr). cbn [pc_url pc_config_id pc_created_at] in *. subst.
  destruct (opt_roundtrip a) as (w & Hw & Hr); [by destruct a|].
  cbn [to_json_value from_json_value WireJson_PushConfig]. unfold push_config_to_json, push_config_from_json.
  cbn [pc_authentication pc_config_id pc_id pc_token pc_url]. rewrite Hw, str_nonempty by done.
  eexists; split; [reflexivity|]. rewrite json_object_read. erewrite Hr by json_lookup. json_read.
  done.
Qed.
Next Obligation.
  intros v x Hx. cbn [from_json_value WireJson_PushConfig] in Hx. unfold push_config_from_json in Hx. decode_inv Hx.
  split_and!; cbn; [by apply nonempty_str|done|done].
Qed.

#[export] Program Instance WireLaws_SendConfig : WireLaws MessageSendConfiguration := {
  wire_ok c := opt_in_i32 (sc_history_length c) ∧ opt_ok (sc_push_notification_config c)
}.
Next Obligation.
  intros [m h p r] [Hh Hp]. cbn [sc_history_length sc_push_notification_config] in *.
  destruct (opt_roundtrip p Hp) as (w & Hw & Hr).
  cbn [to_json_value from_json_value WireJson_SendConfig]. unfold send_config_to_json, send_config_from_json.
  cbn [sc_accepted_output_modes sc_history_length sc_push_notification_config sc_return_immediately]. rewrite Hw.
  eexists; split; [reflexivity|]. rewrite json_object_read. erewrite Hr by json_lookup. json_read.
  destruct m; cbn [fmap option_fmap option_map string_vec_json]; [|done].
  by change (JArray (JString <$> l)) with (string_vec_json l); rewrite string_vec_read.
Qed.
Next Obligation.
  intros v x Hx. cbn [from_json_value WireJson_SendConfig] in Hx. unfold send_config_from_json in Hx. decode_inv Hx.
  split; cbn; [by eapply opt_i32_ok|by eapply (@opt_sound PushNotificationConfig _ WireLaws_PushConfig)].
Qed.

#[export] Program Instance WireLaws_SendParams : WireLaws MessageSendParams := {
  wire_ok p := opt_ok (sp_configuration p) ∧ wire_ok (sp_message p) ∧ metadata_ok (sp_metadata p)
}.
Next Obligation.
  intros [c m md] (Hc & Hm & Hmd). cbn [sp_configuration sp_message sp_metadata] in *.
  destruct (opt_roundtrip c Hc) as (w & Hw & Hr), (wire_roundtrips m Hm) as (v & Hv & Hrv).
  cbn [to_json_value from_json_value WireJson_SendParams]. unfold send_params_to_json, send_params_from_json.
  cbn [sp_configuration sp_message sp_metadata]. rewrite Hv, Hw. eexists; split; [reflexivity|].
  rewrite json_object_read. erewrite Hr by json_lookup. json_read. by rewrite Hrv.
Qed.
Next Obligation.
  intros v x Hx. cbn [from_json_value WireJson_SendParams] in Hx. unfold send_params_from_json in Hx. decode_inv Hx.
  split_and!; cbn; [by eapply (@opt_sound MessageSendConfiguration _ WireLaws_SendConfig)|
    by eapply (@wire_sound Message _ WireLaws_Message)|apply opt_metadata_ok].
Qed.

Lemma id_params_ok tn v obj id : id_params_from_json tn v = Ok (obj, id) → id ≠ "".
Proof. unfold id_params_from_json. intros Hx. decode_inv Hx. by apply nonempty_str. Qed.
Lemma id_params_read tn obj id :
  aget JSON_FIELD_ID obj = Some (JString id) → id ≠ "" → id_params_from_json tn (JObject obj) = Ok (obj, id).
Proof.
  intros Hid Hne. unfold id_params_from_json. rewrite json_object_read. unfold ahas. rewrite Hid.
  by rewrite (get_string_read _ _ _ id), str_nonempty.
Qed.

#[export] Program Instance WireLaws_TaskIdParams : WireLaws TaskIdParams := {
  wire_ok p := ip_id p ≠ "" ∧ metadata_ok (ip_metadata p)
}.
Next Obligation.
  intros [id m] [Hid Hm]. cbn [ip_id ip_metadata] in *. cbn [to_json_value from_json_value WireJson_TaskIdParams].
  unfold task_id_params_to_json, task_id_params_from_json, id_params_to_json. cbn [ip_id ip_metadata].
  rewrite str_nonempty by done. eexists; split; [reflexivity|]. erewrite id_params_read by json_field. by json_read.
Qed.
Next Obligation.
  intros v x Hx. cbn [from_json_value WireJson_TaskIdParams] in Hx. unfold task_id_params_from_json in Hx. decode_inv Hx.
  split; cbn; [by eapply id_params_ok|apply opt_metadata_ok].
Qed.

#[export] Program Instance WireLaws_TaskQueryParams : WireLaws TaskQueryParams := {
  wire_ok p := opt_in_i32 (q_history_length p) ∧ q_id p ≠ "" ∧ metadata_ok (q_metadata p)
}.
Next Obligation.
  intros [h id m] (Hh & Hid & Hm). cbn [q_id q_metadata q_history_length] in *.
  cbn [to_json_value from_json_value WireJson_TaskQueryParams].
  unfold task_query_to_json, task_query_from_json, id_params_to_json. cbn [q_id q_metadata q_history_length].
  rewrite str_nonempty by done. eexists; split; [reflexivity|]. erewrite id_params_read by json_field. by json_read.
Qed.
Next Obligation.
  intros v x Hx. cbn [from_json_value WireJson_TaskQueryParams] in Hx. unfold task_query_from_json in Hx. decode_inv Hx.
  split_and!; cbn; [by eapply opt_i32_ok|by eapply id_params_ok|apply opt_metadata_ok].
Qed.

#[export] Program Instance WireLaws_TaskPush : WireLaws TaskPushNotificationConfig := {
  wire_ok c := wire_ok (tp_config c) ∧ tp_task_id c ≠ ""
}.
Next Obligation.
  intros [c id] [Hc Hid]. cbn [tp_config tp_task_id] in *. destruct (wire_roundtrips c Hc) as (v & Hv & Hrv).
  cbn [to_json_value from_json_value WireJson_TaskPush]. unfold task_push_to_json, task_push_from_json.
  cbn [tp_config tp_task_id]. rewrite Hv, str_nonempty by done. eexists; split; [reflexivity|]. json_read. by rewrite Hrv.
Qed.
Next Obligation.
  intros v x Hx. cbn [from_json_value WireJson_TaskPush] in Hx. unfold task_push_from_json in Hx. decode_inv Hx.
  split; cbn; [by eapply (@wire_sound PushNotificationConfig _ WireLaws_PushConfig)|by apply nonempty_str].
Qed.

#[export] Program Instance WireLaws_GetPush : WireLaws GetTaskPushNotificationConfigParams := {
  wire_ok p := gp_id p ≠ "" ∧ metadata_ok (gp_metadata p)
}.
Next Obligation.
  intros [id m c] [Hid Hm]. cbn [gp_id gp_metadata] in *. cbn [to_json_value from_json_value WireJson_GetPush].
  unfold get_push_to_json, get_push_from_json, id_params_to_json. cbn [gp_id gp_metadata gp_config_id].
  rewrite str_nonempty by done. eexists; split; [reflexivity|]. erewrite id_params_read by json_field. by json_read.
Qed.
Next Obligation.
  intros v x Hx. cbn [from_json_value WireJson_GetPush] in Hx. unfold get_push_from_json in Hx. decode_inv Hx.
  split; cbn; [by eapply id_params_ok|apply opt_metadata_ok].
Qed.

#[export] Program Instance WireLaws_ListPush : WireLaws ListTaskPushNotificationConfigParams := {
  wire_ok p := lp_id p ≠ "" ∧ metadata_ok (lp_metadata p)
}.
Next Obligation.
  intros [id m] [Hid Hm]. cbn [lp_id lp_metadata] in *. cbn [to_json_value from_json_value WireJson_ListPush].
  unfold list_push_to_json, list_push_from_json, id_params_to_json. cbn [lp_id lp_metadata].
  rewrite str_nonempty by done. eexists; split; [reflexivity|]. erewrite id_params_read by json_field. by json_read.
Qed.
Next Obligation.
  intros v x Hx. cbn [from_json_value WireJson_ListPush] in Hx. unfold list_push_from_json in Hx. decode_inv Hx.
  split; cbn; [by eapply id_params_ok|apply opt_metadata_ok].
Qed.

#[export] Program Instance WireLaws_DeletePush : WireLaws DeleteTaskPushNotificationConfigParams := {
  wire_ok p := dp_id p ≠ "" ∧ dp_config_id p ≠ "" ∧ metadata_ok (dp_metadata p)
}.
Next Obligation.
  intros [id m c] (Hid & Hc & Hm). cbn [dp_id dp_config_id dp_metadata] in *.
  cbn [to_json_value from_json_value WireJson_DeletePush]. unfold delete_push_to_json, delete_push_from_json.
  cbn [dp_id dp_config_id dp_metadata]. rewrite !str_nonempty by done. eexists; split; [reflexivity|]. by json_read.
Qed.
Next Obligation.
  intros v x Hx. cbn [from_json_value WireJson_DeletePush] in Hx. unfold delete_push_from_json in Hx. decode_inv Hx.
  split_and!; cbn; [by apply nonempty_str..|apply opt_metadata_ok].
Qed.

#[export] Program Instance WireLaws_ArtifactUpdate : WireLaws TaskArtifactUpdateEvent := {
  wire_ok e := wire_ok (au_artifact e) ∧ au_task_id e ≠ "" ∧ metadata_ok (au_metadata e) ∧ au_index e = None
}.
Next Obligation.
  intros [a art c l m t i] (Ha & Ht & Hm & Hi). cbn [au_artifact au_task_id au_metadata au_index] in *. subst.
  destruct (wire_roundtrips art Ha) as (v & Hv & Hrv). cbn [to_json_value from_json_value WireJson_ArtifactUpdate].
  unfold artifact_update_to_json, artifact_update_from_json.
  cbn [au_artifact au_task_id au_metadata au_context_id au_append au_last_chunk].
  rewrite Hv. eexists; split; [reflexivity|]. json_read. by rewrite Hrv.
Qed.
Next Obligation.
  intros v x Hx. cbn [from_json_value WireJson_ArtifactUpdate] in Hx. unfold artifact_update_from_json in Hx.
  decode_inv Hx. split_and!; cbn; [by eapply (@wire_sound Artifact _ WireLaws_Artifact)|by apply nonempty_str|
    apply opt_metadata_ok|done].
Qed.

#[export] Program Instance WireLaws_StatusUpdate : WireLaws TaskStatusUpdateEvent := {
  wire_ok e := wire_ok (su_status e) ∧ su_task_id e ≠ "" ∧ metadata_ok (su_metadata e)
}.
Next Obligation.
  intros [c m s t] (Hs & Ht & Hm). cbn [su_status su_task_id su_metadata] in *.
  destruct (wire_roundtrips s Hs) as (v & Hv & Hrv). cbn [to_json_value from_json_value WireJson_StatusUpdate].
  unfold status_update_to_json, status_update_from_json. cbn [su_status su_task_id su_metadata su_context_id].
  rewrite Hv. eexists; split; [reflexivity|]. json_read. by rewrite Hrv.
Qed.
Next Obligation.
  intros v x Hx. cbn [from_json_value WireJson_StatusUpdate] in Hx. unfold status_update_from_json in Hx.
  decode_inv Hx. split_and!; cbn; [by eapply (@wire_sound TaskStatus _ WireLaws_TaskStatus)|
    by apply nonempty_str|apply opt_metadata_ok].
Qed.

Definition event_ok (ev : StreamEvent) : Prop :=
  match ev with
  | EvTask t => wire_ok t
  | EvMessage m => wire_ok m
  | EvArtifactUpdate e => wire_ok e
  | EvStatusUpdate e => wire_ok e
  end.
#[export] Program Instance WireLaws_StreamEvent : WireLaws StreamEvent := { wire_ok := event_ok }.
Next Obligation.
  intros [t|m|e|e]; intros (v & Hv & Hrv)%wire_roundtrips; cbn [to_json_value from_json_value WireJson_StreamEvent];
    unfold event_to_json, event_from_json; rewrite Hv; (eexists; split; [reflexivity|]); cbn in Hrv |- *;
    unfold STREAM_RESPONSE_TYPE_TASK, JSON_FIELD_MESSAGE, STREAM_RESULT_KEY_STATUS_UPDATE, STREAM_RESULT_KEY_ARTIFACT_UPDATE;
    decide_literals; cbn [negb andb]; by rewrite ?Hrv.
Qed.
Next Obligation.
  intros v x Hx. cbn [from_json_value WireJson_StreamEvent] in Hx. unfold event_from_json in Hx.
  destruct (json_object v _) as [obj|]; [|done].
  repeat case_match; simplify_eq; cbn [event_ok]; by eapply wire_sound.
Qed.

Definition send_result_ok (r : SendMessageResult) : Prop :=
  match r with SendTask t => wire_ok t | SendMessage m => wire_ok m end.
#[export] Program Instance WireLaws_SendResult : WireLaws SendMessageResult := { wire_ok := send_result_ok }.
Next Obligation.
  intros [t|m]; intros (v & Hv & Hrv)%wire_roundtrips; cbn [to_json_value from_json_value WireJson_SendResult];
    unfold send_result_to_json, send_result_from_json; rewrite Hv; (eexists; split; [reflexivity|]);
    unfold STREAM_RESPONSE_TYPE_TASK, JSON_FIELD_MESSAGE, ahas, obj_index, insert; rewrite json_object_read;
    cbn [aget im_insert]; decide_literals; cbn [negb andb default from_option]; unfold Datatypes.id;
    cbn in Hrv |- *; by rewrite Hrv.
Qed.
Next Obligation.
  intros v x Hx. cbn [from_json_value WireJson_SendResult] in Hx. unfold send_result_from_json in Hx.
  destruct (json_object v _) as [obj|]; [|done].
  repeat case_match; simplify_eq; cbn [send_result_ok]; by eapply wire_sound.
Qed.

(** * The theorem *)

(** A decoded value is written as something that reads back as itself. *)
Definition resendable (T : Type) `{!WireJson T} : Prop :=
  ∀ v (x : T), from_json_value v = Ok x → ∃ v', to_json_value x = Ok v' ∧ from_json_value v' = Ok x.

Lemma laws_resendable (T : Type) `{!WireJson T, !WireLaws T} : resendable T.
Proof. intros v x Hx. apply wire_roundtrips. by eapply wire_sound. Qed.

(** C32: What the wire carries: the events and results a decoder accepts are
    exactly the well-formed ones, each written as a value that reads back as
    itself, and every request that was received is sent on unchanged. *)
Theorem wire_exact :
  (∀ ev, event_ok ev ↔ ∃ v, event_to_json ev = Ok v ∧ event_from_json v = Ok ev) ∧
  (∀ r, send_result_ok r ↔ ∃ v, send_result_to_json r = Ok v ∧ send_result_from_json v = Ok r) ∧
  (∀ v ev, event_from_json v = Ok ev → event_ok ev) ∧ (∀ v r, send_result_from_json v = Ok r → send_result_ok r) ∧
  resendable MessageSendParams ∧ resendable TaskIdParams ∧ resendable TaskQueryParams ∧
  resendable TaskPushNotificationConfig ∧ resendable GetTaskPushNotificationConfigParams ∧
  resendable ListTaskPushNotificationConfigParams ∧ resendable DeleteTaskPushNotificationConfigParams.
Proof.
  split_and!; try (apply laws_resendable; exact _).
  - intros ev. split; [apply (@wire_roundtrips _ _ WireLaws_StreamEvent)|].
    intros (v & _ & Hv). by apply (@wire_sound _ _ WireLaws_StreamEvent v).
  - intros r. split; [apply (@wire_roundtrips _ _ WireLaws_SendResult)|].
    intros (v & _ & Hv). by apply (@wire_sound _ _ WireLaws_SendResult v).
  - intros v ev. apply (@wire_sound _ _ WireLaws_StreamEvent).
  - intros v r. apply (@wire_sound _ _ WireLaws_SendResult).
Qed.
