(* ===== verification/A2ATasks.v ===== *)
(** Tasks of an A2A server: error.rs, utils/helpers.rs, utils/message.rs,
    utils/artifact.rs, server/task_store.rs, server/task_manager.rs and
    server/task_updater.rs of A2A/rust-sdk.

    The task store is the in-memory one; the call context that the trait hands
    to it is unused there and left out.  [Arc<TaskExecuteInfo>] is shared
    between the map of executions and the calls in progress, so infos live in a
    heap and the map holds addresses.  The callbacks are the two closures that
    server/request_handler.rs registers, as data; what they emit goes to a log,
    tagged with the connection of the request.  Log output is left out, and
    with it [save_task_context_id], which does nothing else. *)
From S2P Require Import Prelude RustMap RustStr Json A2AData.

(** * Errors *)

Inductive A2AErrorCode :=
| A2aSuccess
| JsonrpcParseError | JsonrpcInvalidRequest | JsonrpcMethodNotFound | JsonrpcInvalidParams | JsonrpcInternalError
| TaskNotFound | TaskNotCancelable | PushNotificationNotSupported | UnsupportedOperation
| ContentTypeNotSupported | InvalidAgentResponse | AuthenticatedExtendedCardNotConfigured
| ExtensionSupportRequiredError | VersionNotSupportedError
| A2aRequestTimeout | A2aTransportException | A2aInvalidTransport | A2aInvalidFormat | A2aUnauthorized
| A2aStatusError | A2aInvalidInput | A2aBadAlloc | A2aConcurrentLimit.
#[export] Instance A2AErrorCode_eq_dec : EqDecision A2AErrorCode.
Proof. solve_decision. Defined.

Definition error_code (c : A2AErrorCode) : Z :=
  match c with
  | A2aSuccess => 0
  | JsonrpcParseError => -32700
  | JsonrpcInvalidRequest => -32600
  | JsonrpcMethodNotFound => -32601
  | JsonrpcInvalidParams => -32602
  | JsonrpcInternalError => -32603
  | TaskNotFound => -32001
  | TaskNotCancelable => -32002
  | PushNotificationNotSupported => -32003
  | UnsupportedOperation => -32004
  | ContentTypeNotSupported => -32005
  | InvalidAgentResponse => -32006
  | AuthenticatedExtendedCardNotConfigured => -32007
  | ExtensionSupportRequiredError => -32008
  | VersionNotSupportedError => -32009
  | A2aRequestTimeout => -32101
  | A2aTransportException => -32102
  | A2aInvalidTransport => -32103
  | A2aInvalidFormat => -32106
  | A2aUnauthorized => -32107
  | A2aStatusError => -32108
  | A2aInvalidInput => -32109
  | A2aBadAlloc => -32110
  | A2aConcurrentLimit => -32111
  end.
Definition all_codes : list A2AErrorCode :=
  [A2aSuccess; JsonrpcParseError; JsonrpcInvalidRequest; JsonrpcMethodNotFound; JsonrpcInvalidParams;
   JsonrpcInternalError; TaskNotFound; TaskNotCancelable; PushNotificationNotSupported; UnsupportedOperation;
   ContentTypeNotSupported; InvalidAgentResponse; AuthenticatedExtendedCardNotConfigured;
   ExtensionSupportRequiredError; VersionNotSupportedError; A2aRequestTimeout; A2aTransportException;
   A2aInvalidTransport; A2aInvalidFormat; A2aUnauthorized; A2aStatusError; A2aInvalidInput; A2aBadAlloc;
   A2aConcurrentLimit].
Definition error_from_code (code : Z) : option A2AErrorCode :=
  snd <$> list_find (λ c, error_code c = code) all_codes.

Inductive A2aServerError := ServerError (code : Z) (message : string) | MethodNotImplemented (message : string).

Definition server_error_new (message : string) : A2aServerError :=
  ServerError (error_code JsonrpcInternalError) message.
Definition server_error_from_code (message : string) (code : A2AErrorCode) : A2aServerError :=
  ServerError (error_code code) message.
Definition status_code (e : A2aServerError) : Z :=
  match e with ServerError code _ => code | MethodNotImplemented _ => error_code JsonrpcMethodNotFound end.
Definition error_message (e : A2aServerError) : string :=
  match e with
  | ServerError _ message => message
  | MethodNotImplemented message => "Not Implemented operation Error: " +:+ message
  end.

(** * Helpers *)

Definition is_final (state : TaskState) : bool := bool_decide (state ∈ [Completed; Canceled; Failed; Rejected]).
Definition is_interrupted (state : TaskState) : bool := bool_decide (state ∈ [InputRequired; AuthRequired]).
Definition is_final_or_interrupted (state : TaskState) : bool := is_final state || is_interrupted state.

Definition is_final_event (ev : StreamEvent) : bool :=
  match ev with
  | EvTask t =>
      let st := ts_state (tk_status t) in is_final_or_interrupted st || bool_decide (st = Unspecified)
  | EvMessage _ => true
  | EvStatusUpdate e => is_final_or_interrupted (ts_state (su_status e))
  | EvArtifactUpdate _ => false
  end.

(** Records written back with some fields changed. *)
Definition with_artifacts (a : option (list Artifact)) (t : Task) : Task :=
  mkTask a (tk_context_id t) (tk_history t) (tk_id t) (tk_metadata t) (tk_status t) (tk_creat_at t) (tk_last_modified t).
Definition with_history (h : option (list Message)) (t : Task) : Task :=
  mkTask (tk_artifacts t) (tk_context_id t) h (tk_id t) (tk_metadata t) (tk_status t) (tk_creat_at t) (tk_last_modified t).
Definition with_metadata (m : option Value) (t : Task) : Task :=
  mkTask (tk_artifacts t) (tk_context_id t) (tk_history t) (tk_id t) m (tk_status t) (tk_creat_at t) (tk_last_modified t).
Definition with_status (st : TaskStatus) (t : Task) : Task :=
  mkTask (tk_artifacts t) (tk_context_id t) (tk_history t) (tk_id t) (tk_metadata t) st (tk_creat_at t) (tk_last_modified t).
Definition with_state (state : TaskState) (t : Task) : Task :=
  with_status (mkTaskStatus (ts_message (tk_status t)) state (ts_timestamp (tk_status t))) t.
Definition with_parts (ps : list Part) (a : Artifact) : Artifact :=
  mkArtifact (art_id a) (art_description a) (art_extensions a) (art_metadata a) (art_name a) ps.

(** [opt.get_or_insert_with(Vec::new).push(x)]. *)
Definition push_to {A} (x : A) (o : option (list A)) : option (list A) := Some (default [] o ++ [x]).

Definition append_artifact_to_task (event : TaskArtifactUpdateEvent) (task : Task) : Task :=
  let list := default [] (tk_artifacts task) in
  let new_artifact := au_artifact event in
  let append_parts := default false (au_append event) in
  let existing := list_find (λ a, art_id a = art_id new_artifact) list in
  with_artifacts (Some
    match append_parts, existing with
    | false, Some (i, _) => <[i := new_artifact]> list
    | false, None => list ++ [new_artifact]
    | true, Some (i, slot) => <[i := with_parts (art_parts slot ++ art_parts new_artifact) slot]> list
    | true, None => list
    end) task.

Definition are_modalities_compatible (server_output_modes client_output_modes : option (list string)) : bool :=
  match client_output_modes, server_output_modes with
  | None, _ | Some [], _ => true
  | Some _, (None | Some []) => true
  | Some client, Some server => existsb (λ c, bool_decide (c ∈ server)) client
  end.

Definition build_text_artifact (text artifact_id : string) : Artifact :=
  mkArtifact artifact_id None None None None [with_media_type "text/plain" (part_text text)].

(** [uuid] is what [generate_uuid] returns. *)
Definition new_agent_parts_message (uuid : string) (parts : list Part) (context_id task_id : option string) : Message :=
  mkMessage context_id None uuid None parts None RAgent task_id.
Definition new_agent_text_message (uuid text : string) (context_id task_id : option string) : Message :=
  new_agent_parts_message uuid [with_media_type "text/plain" (part_text text)] context_id task_id.
Definition get_text_parts (parts : list Part) : list string := omap pt_text parts.
Definition get_message_text (message : Message) (delimiter : string) : string :=
  String.concat delimiter (get_text_parts (msg_parts message)).

Definition new_artifact (uuid : string) (parts : list Part) (name description : string) : Artifact :=
  mkArtifact uuid (if str_is_empty description then None else Some description) None None (Some name) parts.
Definition new_text_artifact (uuid name text description : string) : Artifact :=
  new_artifact uuid [with_media_type "text/plain" (part_text text)] name description.
Definition new_data_artifact (uuid name data description : string) : Artifact :=
  new_artifact uuid [with_media_type "application/octet-stream" (part_data (JString data))] name description.

(** * The state of the server *)

(** The closures of server/request_handler.rs: of [execute_agent_and_get_result]
    and of [setup_and_execute_streaming_agent], with what they capture; [conn]
    is the connection their [emit] writes to. *)
Inductive EventCb :=
| SendCb (task_id : string) (blocking : bool) (conn : nat)
| StreamCb (task_id : string) (resubscribe : bool) (conn : nat).

Record TaskExecuteInfo := mkInfo { message_sent : bool; event_cb : list EventCb }.
Definition default_info : TaskExecuteInfo := mkInfo false [].

Record ServerState := mkServer {
  sv_tasks : gmap string Task;
  sv_infos : list TaskExecuteInfo;
  sv_exec : gmap string nat;
  sv_push : gmap string (list PushNotificationConfig);
  sv_log : list (nat * StreamEvent);
  sv_notified : list Task;
  sv_uuids : nat;
  sv_clock : nat
}.
Definition empty_server : ServerState := mkServer ∅ [] ∅ ∅ [] [] 0 0.

Implicit Types s : ServerState.

Definition set_tasks m s : ServerState :=
  mkServer m (sv_infos s) (sv_exec s) (sv_push s) (sv_log s) (sv_notified s) (sv_uuids s) (sv_clock s).
Definition set_infos l s : ServerState :=
  mkServer (sv_tasks s) l (sv_exec s) (sv_push s) (sv_log s) (sv_notified s) (sv_uuids s) (sv_clock s).
Definition set_exec m s : ServerState :=
  mkServer (sv_tasks s) (sv_infos s) m (sv_push s) (sv_log s) (sv_notified s) (sv_uuids s) (sv_clock s).
Definition set_push m s : ServerState :=
  mkServer (sv_tasks s) (sv_infos s) (sv_exec s) m (sv_log s) (sv_notified s) (sv_uuids s) (sv_clock s).

(** A call of [emit], and of the push sender. *)
Definition emit (conn : nat) (ev : StreamEvent) s : ServerState :=
  mkServer (sv_tasks s) (sv_infos s) (sv_exec s) (sv_push s) (sv_log s ++ [(conn, ev)]) (sv_notified s)
    (sv_uuids s) (sv_clock s).
Definition send_notification (t : Task) s : ServerState :=
  mkServer (sv_tasks s) (sv_infos s) (sv_exec s) (sv_push s) (sv_log s) (sv_notified s ++ [t]) (sv_uuids s) (sv_clock s).

(** Random identifiers, timestamps, and whether a push sender is configured. *)
Class A2AEnv := {
  uuid_at : nat → string;
  timestamp_at : nat → string;
  push_sender : bool
}.

Section env.
Context `{!A2AEnv}.

Definition generate_uuid s : string * ServerState :=
  (uuid_at (sv_uuids s),
   mkServer (sv_tasks s) (sv_infos s) (sv_exec s) (sv_push s) (sv_log s) (sv_notified s) (S (sv_uuids s)) (sv_clock s)).
Definition get_current_timestamp s : string * ServerState :=
  (timestamp_at (sv_clock s),
   mkServer (sv_tasks s) (sv_infos s) (sv_exec s) (sv_push s) (sv_log s) (sv_notified s) (sv_uuids s) (S (sv_clock s))).

(** * Task store *)

Definition store_save (task : Task) s : ServerState := set_tasks (<[tk_id task := task]> (sv_tasks s)) s.
Definition store_get (task_id : string) s : option Task := sv_tasks s !! task_id.
Definition store_delete (task_id : string) s : ServerState := set_tasks (delete task_id (sv_tasks s)) s.

(** * Task manager *)

(** A new [Arc] of [info] in the heap, registered under [task_id]. *)
Definition register_task (task_id : string) (info : TaskExecuteInfo) s : result () A2aServerError * ServerState :=
  if str_is_empty task_id then (Err (server_error_new "Task ID must be a non-empty string"), s)
  else (Ok (), set_exec (<[task_id := length (sv_infos s)]> (sv_exec s)) (set_infos (sv_infos s ++ [info]) s)).
Definition is_registered (task_id : string) s : bool := bool_decide (is_Some (sv_exec s !! task_id)).
Definition task_info (task_id : string) s : option TaskExecuteInfo := sv_exec s !! task_id ≫= λ a, sv_infos s !! a.

Definition get_task (task_id : string) s : option Task := store_get task_id s.
Definition get_context_id (task_id : string) s : string := default "" (tk_context_id <$> store_get task_id s).
Definition save_task (task : Task) s : ServerState := store_save task s.

(** [task.status.message.take()] pushed to the history. *)
Definition flush_status_message (task : Task) : Task :=
  match ts_message (tk_status task) with
  | Some m =>
      with_history (push_to m (tk_history task))
        (with_status (mkTaskStatus None (ts_state (tk_status task)) (ts_timestamp (tk_status task))) task)
  | None => task
  end.

Definition merge_metadata (old new : option Value) : option Value :=
  match old, new with
  | None, m => m
  | Some (JObject existing), Some (JObject incoming) =>
      Some (JObject (foldl (λ obj kv, im_insert kv.1 kv.2 obj) existing incoming))
  | Some _, Some incoming => Some incoming
  | Some old, None => Some old
  end.

(** What a status or artifact event makes of the task. *)
Definition apply_status (e : TaskStatusUpdateEvent) (task : Task) : Task :=
  let task := flush_status_message task in
  with_status (su_status e) (with_metadata (merge_metadata (tk_metadata task) (su_metadata e)) task).

(** Load the task of an event, or create and register a submitted one. *)
Definition ensure_task (eid ecid : string) s : Task * ServerState :=
  match store_get eid s with
  | Some task => (task, s)
  | None =>
      let task := mkTask None ecid None eid None (status_new Submitted) None None in
      let s := (register_task eid default_info s).2 in
      (task, save_task task s)
  end.

Definition save_task_event (ev : StreamEvent) s : ServerState :=
  match ev with
  | EvTask t => save_task t s
  | EvMessage _ => s
  | EvStatusUpdate e =>
      let '(task, s) := ensure_task (su_task_id e) (su_context_id e) s in save_task (apply_status e task) s
  | EvArtifactUpdate e =>
      let '(task, s) := ensure_task (au_task_id e) (au_context_id e) s in save_task (append_artifact_to_task e task) s
  end.

Definition update_with_message (message : Message) (task : Task) s : Task * ServerState :=
  let task := flush_status_message task in
  let task := with_history (push_to message (tk_history task)) task in
  (task, save_task task s).

(** The previous value of the flag. *)
Definition exchange_message_sent (task_id : string) (value : bool) s : bool * ServerState :=
  match sv_exec s !! task_id with
  | Some a =>
      match sv_infos s !! a with
      | Some info => (message_sent info, set_infos (<[a := mkInfo value (event_cb info)]> (sv_infos s)) s)
      | None => (false, s)
      end
  | None => (false, s)
  end.

Definition add_event_callback (task_id : string) (callback : EventCb) s : ServerState :=
  match sv_exec s !! task_id with
  | Some a =>
      match sv_infos s !! a with
      | Some info => set_infos (<[a := mkInfo (message_sent info) (event_cb info ++ [callback])]> (sv_infos s)) s
      | None => s
      end
  | None => s
  end.

(** The body of the closures. *)
Definition answer_once (task_id : string) (conn : nat) (ev : StreamEvent) s : ServerState :=
  let '(sent, s) := exchange_message_sent task_id true s in if sent then s else emit conn ev s.

Definition run_callback (ev : StreamEvent) s (cb : EventCb) : ServerState :=
  match cb with
  | SendCb task_id blocking conn =>
      match get_task task_id s with
      | None => s
      | Some task =>
          match ev with
          | EvMessage _ => answer_once task_id conn ev (save_task (with_state Completed task) s)
          | _ => if is_final_event ev || negb blocking then answer_once task_id conn (EvTask task) s else s
          end
      end
  | StreamCb task_id resubscribe conn =>
      let s := emit conn ev s in
      if push_sender && negb resubscribe then
        match get_task task_id s with Some task => send_notification task s | None => s end
      else s
  end.

Definition run_callbacks (a : nat) (ev : StreamEvent) s : ServerState :=
  foldl (run_callback ev) s (default [] (event_cb <$> sv_infos s !! a)).
Definition unregister (task_id : string) s : ServerState := set_exec (delete task_id (sv_exec s)) s.

(** [process] looks the info up, then waits for its lock: [process_found] is
    what it does under the lock. *)
Definition process_found (task_id : string) (a : nat) (ev : StreamEvent) s : ServerState :=
  let s := save_task_event ev s in
  let s := run_callbacks a ev s in
  if is_final_event ev then unregister task_id s else s.
Definition process (task_id : string) (ev : StreamEvent) s : ServerState :=
  match sv_exec s !! task_id with None => s | Some a => process_found task_id a ev s end.

(** [cancel_task]: the task it leaves in its argument, and the state. *)
Definition cancel_task (task : Task) s : Task * ServerState :=
  if is_final (ts_state (tk_status task)) then (task, s)
  else
    let canceled := with_state Canceled task in
    match sv_exec s !! tk_id task with
    | None => (canceled, save_task canceled s)
    | Some a =>
        let event := EvStatusUpdate (mkStatusUpdate (tk_context_id task) None (status_new Canceled) (tk_id task)) in
        let s := save_task canceled s in
        let s := run_callbacks a event s in
        (canceled, unregister (tk_id task) s)
    end.

(** * Task updater *)

Record TaskUpdater := mkUpdater { up_task_id : string; up_context_id : string; up_terminal : bool }.
Definition updater_new (task_id context_id : string) : TaskUpdater := mkUpdater task_id context_id false.
Definition set_terminal (u : TaskUpdater) : TaskUpdater := mkUpdater (up_task_id u) (up_context_id u) true.

Record TaskArtifactParam := mkArtifactParam {
  ap_parts : list Part; ap_artifact_id : option string; ap_name : option string; ap_metadata : option Value;
  ap_append : bool; ap_last_chunk : bool; ap_extensions : list string
}.

Definition update_status (state : TaskState) (message : option Message) (timestamp : option string)
    (metadata : option Value) (u : TaskUpdater) s : TaskUpdater * ServerState :=
  if up_terminal u then (u, s)
  else
    let u := if is_final state then set_terminal u else u in
    let '(ts, s) := match timestamp with Some ts => (ts, s) | None => get_current_timestamp s end in
    let event := mkStatusUpdate (up_context_id u) metadata (mkTaskStatus message state (Some ts)) (up_task_id u) in
    (u, process (up_task_id u) (EvStatusUpdate event) s).

Definition add_artifact (param : TaskArtifactParam) (u : TaskUpdater) s : TaskUpdater * ServerState :=
  if up_terminal u then (u, s)
  else
    let '(aid, s) := match ap_artifact_id param with Some aid => (aid, s) | None => generate_uuid s end in
    let artifact := mkArtifact aid None (Some (ap_extensions param)) (ap_metadata param) (ap_name param) (ap_parts param) in
    let event := mkArtifactUpdate (Some (ap_append param)) artifact (up_context_id u) (Some (ap_last_chunk param))
                   (ap_metadata param) (up_task_id u) None in
    (u, process (up_task_id u) (EvArtifactUpdate event) s).

Definition send_response_message (message : Message) (u : TaskUpdater) s : TaskUpdater * ServerState :=
  (set_terminal u, process (up_task_id u) (EvMessage message) s).

Definition new_agent_message (parts : list Part) (metadata : option Value) (u : TaskUpdater) s : Message * ServerState :=
  let '(id, s) := generate_uuid s in
  (mkMessage (Some (up_context_id u)) None id metadata parts None RAgent (Some (up_task_id u)), s).

(** What an executor may ask of its updater; [complete], [failed] and the
    other shorthands of the trait are [UpdateStatus]. *)
Inductive UpdaterCall :=
| UpdateStatus (state : TaskState) (message : option Message) (timestamp : option string) (metadata : option Value)
| AddArtifact (param : TaskArtifactParam)
| SendResponseMessage (message : Message)
| NewAgentMessage (parts : list Part) (metadata : option Value).

Definition up_complete (message : option Message) : UpdaterCall := UpdateStatus Completed message None None.
Definition up_failed (message : option Message) : UpdaterCall := UpdateStatus Failed message None None.
Definition up_reject (message : option Message) : UpdaterCall := UpdateStatus Rejected message None None.
Definition up_submit (message : option Message) : UpdaterCall := UpdateStatus Submitted message None None.
Definition up_start_work (message : option Message) : UpdaterCall := UpdateStatus Working message None None.
Definition up_cancel (message : option Message) : UpdaterCall := UpdateStatus Canceled message None None.
Definition up_requires_input (message : option Message) : UpdaterCall := UpdateStatus InputRequired message None None.
Definition up_requires_auth (message : option Message) : UpdaterCall := UpdateStatus AuthRequired message None None.

Definition updater_call (c : UpdaterCall) (u : TaskUpdater) s : TaskUpdater * ServerState :=
  match c with
  | UpdateStatus state message timestamp metadata => update_status state message timestamp metadata u s
  | AddArtifact param => add_artifact param u s
  | SendResponseMessage message => send_response_message message u s
  | NewAgentMessage parts metadata => (u, (new_agent_message parts metadata u s).2)
  end.

(** A sequence of calls. *)
Definition updater_calls (cs : list UpdaterCall) (u : TaskUpdater) s : TaskUpdater * ServerState :=
  foldl (λ us c, updater_call c us.1 us.2) (u, s) cs.
End env.
