(* ===== verification/A2AHandler.v ===== *)
(** The request handler of an A2A server: server/push_notification.rs,
    server/request_context.rs, server/executor.rs and the default handler of
    server/request_handler.rs.

    What the executor does in one execution is data: the calls it makes on its
    updater, and its result.  A handler of [message/send] is its part before
    the executor runs ([begin_send]), the execution, and its part after it, so
    that executions of several requests can interleave. *)
From S2P Require Import Prelude OpMonad RustMap RustStr Json A2AData A2ATasks.

(** * Push notification configurations *)

(** [vec.iter().position(pred)], then [vec.remove(pos)]. *)
Definition remove_first (P : PushNotificationConfig → bool) (l : list PushNotificationConfig) :
    list PushNotificationConfig :=
  match list_find (λ c, P c = true) l with Some (i, _) => delete i l | None => l end.

Definition set_info (task_id : string) (c : PushNotificationConfig) s : ServerState :=
  let vec := default [] (sv_push s !! task_id) in
  let c := match pc_id c with
           | None => mkPushConfig (pc_authentication c) (pc_config_id c) (Some task_id) (pc_token c) (pc_url c) (pc_created_at c)
           | Some _ => c
           end in
  set_push (<[task_id := remove_first (λ c', bool_decide (pc_id c' = pc_id c)) vec ++ [c]]> (sv_push s)) s.

Definition get_info (task_id : string) s : list PushNotificationConfig := default [] (sv_push s !! task_id).

Definition delete_info (task_id : string) (config_id : option string) s : ServerState :=
  match sv_push s !! task_id with
  | None => s
  | Some vec =>
      let cid := default task_id config_id in
      let vec := remove_first (λ c, bool_decide (pc_id c = Some cid)) vec in
      match vec with
      | [] => set_push (delete task_id (sv_push s)) s
      | _ => set_push (<[task_id := vec]> (sv_push s)) s
      end
  end.

(** * Request context *)

(** The task store of the context is the server's. *)
Record RequestContext := mkContext {
  rc_params : option MessageSendParams; rc_task_id : option string; rc_context_id : option string;
  rc_related_tasks : list Task
}.
Definition context_new (request : option MessageSendParams) (task_id context_id : option string) (related : list Task) :
    RequestContext :=
  let set_ids p :=
    let m := sp_message p in
    mkSendParams (sp_configuration p)
      (mkMessage context_id (msg_extensions m) (msg_id m) (msg_metadata m) (msg_parts m) (msg_reference_task_ids m)
         (msg_role m) task_id) (sp_metadata p) in
  mkContext (set_ids <$> request) task_id context_id related.
Definition get_user_input (delimiter : string) (c : RequestContext) : string :=
  match rc_params c with Some p => get_message_text (sp_message p) delimiter | None => "" end.
Definition attach_related_task (task : Task) (c : RequestContext) : RequestContext :=
  mkContext (rc_params c) (rc_task_id c) (rc_context_id c) (rc_related_tasks c ++ [task]).
Definition get_current_task (c : RequestContext) s : option Task := rc_task_id c ≫= λ id, store_get id s.
Definition get_configuration (c : RequestContext) : option MessageSendConfiguration :=
  rc_params c ≫= sp_configuration.

(** * The handler *)

(** Answers, errors, and the state left behind. *)
Notation Handler A := (Op ServerState A2aServerError A).

(** The parts a server may be built without; the sender is in [A2AEnv]. *)
Record HandlerConfig := mkConfig { cf_executor : bool; cf_push_store : bool }.

(** One execution: the calls the agent makes, then its result. *)
Record Execution := mkExecution { ex_calls : list UpdaterCall; ex_result : result () A2aServerError }.

Section handler.
Context `{!A2AEnv}.

Definition get_related_tasks_from_reference_task_ids (params : MessageSendParams) s : list Task :=
  match msg_reference_task_ids (sp_message params) with
  | None => []
  | Some ids => omap (λ id, if str_is_empty id then None else store_get id s) ids
  end.

Definition fresh_uuid : Handler string := λ s, let '(u, s) := generate_uuid s in (Ok u, s).
Definition generate_task_id : Handler string := u ← fresh_uuid; mret ("task-" +:+ u).

Definition task_not_found : A2aServerError := server_error_from_code "Task id not found" TaskNotFound.

Definition determine_task_id (params : MessageSendParams) : Handler (string * option Task) :=
  let new := id ← generate_task_id; mret (id, None) in
  match msg_task_id (sp_message params) with
  | None => new
  | Some task_id =>
      if str_is_empty task_id then new
      else
        found ← op_gets (store_get task_id);
        match found with
        | None => op_fail task_not_found
        | Some task =>
            match msg_context_id (sp_message params) with
            | Some cid =>
                if negb (str_is_empty cid) && negb (bool_decide (tk_context_id task = cid))
                then op_fail (server_error_from_code "Existing task contextId does not match requested contextId"
                                JsonrpcInvalidRequest)
                else mret (task_id, Some task)
            | None => mret (task_id, Some task)
            end
        end
  end.

Definition update_push_notification_config (cfg : HandlerConfig) (params : MessageSendParams) (task_id : string) s :
    ServerState :=
  match cf_push_store cfg, sp_configuration params ≫= sc_push_notification_config with
  | true, Some push => set_info task_id push s
  | _, _ => s
  end.

Definition create_new_task (cfg : HandlerConfig) (params : MessageSendParams) (task_id context_id : string) s : ServerState :=
  let new_task := mkTask None context_id (Some [sp_message params]) task_id None (status_new Submitted) None None in
  update_push_notification_config cfg params task_id (store_save new_task s).

(** The context id of a request: the task's, the message's, or a new one. *)
Definition context_id_of (params : MessageSendParams) (existing : option Task) : Handler string :=
  match existing, msg_context_id (sp_message params) with
  | Some t, _ => mret (tk_context_id t)
  | None, Some cid => mret cid
  | None, None => fresh_uuid
  end.

Definition register (task_id : string) : Handler () := λ s, register_task task_id default_info s.
Definition final_state_error : A2aServerError :=
  server_error_from_code "Cannot execute task in final state" UnsupportedOperation.
Definition no_executor : A2aServerError := server_error_new "Agent executor not available".

Definition blocking (params : MessageSendParams) : bool :=
  match sp_configuration params with Some c => negb (default false (sc_return_immediately c)) | None => true end.

(** What [on_send_message] and [initialize_streaming_task] do once the task is
    determined; [other] is what other threads do between the locks of
    determining and of registering. *)
Definition take_up_task (cfg : HandlerConfig) (other : ServerState → ServerState) (params : MessageSendParams)
    (task_id context_id : string) (existing : option Task) : Handler () :=
  _ ← op_modify other;
  match existing with
  | Some existing =>
      if is_final (ts_state (tk_status existing)) then op_fail final_state_error
      else
        _ ← register task_id;
        op_modify (λ s, (update_with_message (sp_message params) existing s).2)
  | None =>
      _ ← op_modify (create_new_task cfg params task_id context_id);
      register task_id
  end.

(** [message/send] up to the call of the executor: the updater it is given. *)
Definition begin_send_amid (cfg : HandlerConfig) (other : ServerState → ServerState) (params : MessageSendParams)
    (conn : nat) : Handler (string * TaskUpdater) :=
  '(task_id, existing) ← determine_task_id params;
  context_id ← context_id_of params existing;
  _ ← take_up_task cfg other params task_id context_id existing;
  _ ← op_modify (λ s, (exchange_message_sent task_id false s).2);
  context_id ← op_gets (get_context_id task_id);
  _ ← op_modify (add_event_callback task_id (SendCb task_id (blocking params) conn));
  if cf_executor cfg then mret (task_id, updater_new task_id context_id) else op_fail no_executor.
Definition begin_send (cfg : HandlerConfig) : MessageSendParams → nat → Handler (string * TaskUpdater) :=
  begin_send_amid cfg id.

(** The context the executor of [message/send] is given. *)
Definition send_context (params : MessageSendParams) (task_id context_id : string) s : RequestContext :=
  context_new (Some params) (Some task_id) (Some context_id) (get_related_tasks_from_reference_task_ids params s).

(** The executor's part. *)
Definition execute (u : TaskUpdater) (ex : Execution) : Handler () := λ s,
  (ex_result ex, (updater_calls (ex_calls ex) u s).2).

Definition send_push_notification_if_needed (task_id : string) s : ServerState :=
  if push_sender && negb (str_is_empty task_id) then
    match store_get task_id s with Some task => send_notification task s | None => s end
  else s.

Definition on_send_message (cfg : HandlerConfig) (params : MessageSendParams) (conn : nat) (ex : Execution) : Handler () :=
  '(task_id, u) ← begin_send cfg params conn;
  _ ← execute u ex;
  op_modify (send_push_notification_if_needed task_id).

(** [historyLength] keeps the last messages. *)
Definition trim_history (limit : option Z) (task : Task) : Task :=
  match limit, tk_history task with
  | Some limit, Some history =>
      if (0 <? limit)%Z && (limit <? Z.of_nat (length history))%Z
      then with_history (Some (drop (length history - Z.to_nat limit) history)) task
      else task
  | _, _ => task
  end.

Definition load_task (task_id : string) : Handler Task :=
  found ← op_gets (store_get task_id);
  match found with Some task => mret task | None => op_fail task_not_found end.

Definition on_get_task (params : TaskQueryParams) : Handler Task :=
  task ← load_task (q_id params); mret (trim_history (q_history_length params) task).

(** [tasks/cancel] up to the call of the executor, and after it. *)
Definition begin_cancel (params : TaskIdParams) : Handler Task :=
  task ← load_task (ip_id params);
  if is_final (ts_state (tk_status task)) then op_fail (server_error_from_code "Cancel task failed" TaskNotCancelable)
  else mret task.
Definition end_cancel (params : TaskIdParams) (task : Task) : Handler Task := λ s,
  let task := default task (store_get (ip_id params) s) in
  let '(task, s) := cancel_task task s in (Ok task, s).
Definition cancel_without_executor (task : Task) : Handler Task := λ s,
  let task := with_state Canceled task in (Ok task, store_save task s).
Definition cancel_updater (task : Task) : TaskUpdater := updater_new (tk_id task) (tk_context_id task).

Definition on_cancel_task (cfg : HandlerConfig) (params : TaskIdParams) (ex : Execution) : Handler Task :=
  task ← begin_cancel params;
  if cf_executor cfg then
    _ ← execute (cancel_updater task) ex;
    end_cancel params task
  else cancel_without_executor task.

(** * Push notification configurations over the handler *)

Definition push_config_store_or_err (cfg : HandlerConfig) : Handler () :=
  if cf_push_store cfg then mret ()
  else op_fail (server_error_from_code "Push notification config is not set" PushNotificationNotSupported).
Definition require_task (task_id : string) : Handler () := _ ← load_task task_id; mret ().

Definition on_set_task_push_notification_config (cfg : HandlerConfig) (c : TaskPushNotificationConfig) : Handler () :=
  _ ← push_config_store_or_err cfg;
  _ ← require_task (tp_task_id c);
  op_modify (set_info (tp_task_id c) (tp_config c)).
Definition on_get_task_push_notification_config (cfg : HandlerConfig) (params : GetTaskPushNotificationConfigParams) :
    Handler TaskPushNotificationConfig :=
  _ ← push_config_store_or_err cfg;
  _ ← require_task (gp_id params);
  configs ← op_gets (get_info (gp_id params));
  mret (mkTaskPush (default default_push_config (head configs)) (gp_id params)).
Definition on_list_task_push_notification_configs (cfg : HandlerConfig) (params : ListTaskPushNotificationConfigParams) :
    Handler (list TaskPushNotificationConfig) :=
  _ ← push_config_store_or_err cfg;
  _ ← require_task (lp_id params);
  configs ← op_gets (get_info (lp_id params));
  mret ((λ c, mkTaskPush c (lp_id params)) <$> configs).
Definition on_delete_task_push_notification_config (cfg : HandlerConfig) (params : DeleteTaskPushNotificationConfigParams) :
    Handler () :=
  _ ← push_config_store_or_err cfg;
  _ ← require_task (dp_id params);
  op_modify (delete_info (dp_id params) (Some (dp_config_id params))).

(** * Streaming *)

(** The pre-update snapshot of the task, and its id. *)
Definition initialize_streaming_task (cfg : HandlerConfig) (params : MessageSendParams) : Handler (option Task * string) :=
  '(task_id, existing) ← determine_task_id params;
  context_id ← context_id_of params existing;
  match existing with
  | Some existing =>
      _ ← take_up_task cfg id params task_id context_id (Some existing);
      mret (Some existing, task_id)
  | None =>
      _ ← op_modify (create_new_task cfg params task_id context_id);
      created ← op_gets (store_get task_id);
      _ ← register task_id;
      mret (created, task_id)
  end.

(** [setup_and_execute_streaming_agent] up to the call of the executor. *)
Definition setup_streaming (cfg : HandlerConfig) (task_id : string) (resubscribe : bool) (conn : nat) :
    Handler (option TaskUpdater) :=
  _ ← op_modify (add_event_callback task_id (StreamCb task_id resubscribe conn));
  if resubscribe then mret None
  else
    context_id ← op_gets (get_context_id task_id);
    if cf_executor cfg then mret (Some (updater_new task_id context_id)) else op_fail no_executor.

Definition begin_stream (cfg : HandlerConfig) (params : MessageSendParams) (conn : nat) : Handler (option TaskUpdater) :=
  '(existing, task_id) ← initialize_streaming_task cfg params;
  match existing with
  | Some task =>
      _ ← op_modify (emit conn (EvTask task));
      setup_streaming cfg task_id false conn
  | None => op_fail (server_error_new "find or create task failed")
  end.

Definition on_send_message_streaming (cfg : HandlerConfig) (params : MessageSendParams) (conn : nat) (ex : Execution) :
    Handler () :=
  u ← begin_stream cfg params conn;
  match u with Some u => execute u ex | None => mret () end.

Definition on_resubscribe_to_task (cfg : HandlerConfig) (params : TaskIdParams) (conn : nat) : Handler () :=
  task ← load_task (ip_id params);
  _ ← op_modify (emit conn (EvTask task));
  if is_final_or_interrupted (ts_state (tk_status task)) then mret ()
  else _ ← setup_streaming cfg (tk_id task) true conn; mret ().
End handler.
