(* ===== verification/A2AServerReach.v ===== *)
(** What one event does to the tasks, the registrations and the log of an A2A
    server: frames of every operation of the task manager, and the two
    invariants behind "a final task stays as it is" and "a request is answered
    once".

    The calls of an A2A server in any order: a step per call of the handler
    between two awaits and per call an executor makes on its updater, the
    invariant of every state they reach, and what no step does to a task that
    is final. *)
From S2P Require Import Prelude OpMonad RustMap RustStr Json A2AData A2ATasks A2AHandler.

Definition cb_task (cb : EventCb) : string := match cb with SendCb id _ _ | StreamCb id _ _ => id end.
Definition cb_conn (cb : EventCb) : nat := match cb with SendCb _ _ c | StreamCb _ _ c => c end.
Definition callbacks (s : ServerState) : list EventCb := mjoin (event_cb <$> sv_infos s).

(** What a connection was sent. *)
Definition events_of (conn : nat) (s : ServerState) : list StreamEvent :=
  snd <$> filter (λ p, p.1 = conn) (sv_log s).

Definition task_final (t : Task) : Prop := is_final (ts_state (tk_status t)) = true.

Lemma events_of_emit conn conn' ev s :
  events_of conn (emit conn' ev s) = events_of conn s ++ (if decide (conn' = conn) then [ev] else []).
Proof.
  unfold events_of. cbn [sv_log emit]. rewrite filter_app, fmap_app, filter_cons, filter_nil. cbn [fst].
  by destruct (decide (conn' = conn)).
Qed.

Lemma events_of_unused conn s : conn ∉ (sv_log s).*1 → events_of conn s = [].
Proof.
  intros Hl. unfold events_of. destruct (filter _ _) as [|p l] eqn:Hf; [done|]. exfalso. apply Hl.
  assert (p ∈ filter (λ p, p.1 = conn) (sv_log s)) as [<- Hp]%list_elem_of_filter by (rewrite Hf; by left).
  by apply list_elem_of_fmap_2.
Qed.

Section facts.
Context `{!A2AEnv}.
Implicit Types (s : ServerState) (t : Task) (id : string).

(** * Frames *)

(** Only the task [id] may have changed, the registrations and the callbacks
    have not. *)
Record touches id s s' : Prop := {
  touches_exec : sv_exec s' = sv_exec s;
  touches_cbs : event_cb <$> sv_infos s' = event_cb <$> sv_infos s;
  touches_uuids : sv_uuids s ≤ sv_uuids s';
  touches_other j : j ≠ id → sv_tasks s' !! j = sv_tasks s !! j;
  touches_task t : sv_tasks s !! id = Some t → ∃ t', sv_tasks s' !! id = Some t' ∧ (tk_id t = id → tk_id t' = id)
}.

Lemma touches_refl id s : touches id s s.
Proof. split; [done..|lia|done|]. intros t Ht. by exists t. Qed.
Lemma touches_trans id s1 s2 s3 : touches id s1 s2 → touches id s2 s3 → touches id s1 s3.
Proof.
  intros [E1 C1 U1 O1 T1] [E2 C2 U2 O2 T2]. split; [congruence|congruence|lia| |].
  - intros j Hj. by rewrite O2, O1.
  - intros t Ht. destruct (T1 t Ht) as (t1 & H1 & ?), (T2 t1 H1) as (t2 & ? & ?). eauto.
Qed.
#[local] Instance touches_preorder id : PreOrder (touches id).
Proof. split; [exact (touches_refl id)|exact (touches_trans id)]. Qed.

Lemma touches_save t s : touches (tk_id t) s (save_task t s).
Proof.
  split; [done..| |]; cbn.
  - intros j Hj. by rewrite lookup_insert_ne.
  - intros t0 _. exists t. by rewrite lookup_insert_eq.
Qed.
Lemma touches_exchange id j v s : touches id s (exchange_message_sent j v s).2.
Proof.
  unfold exchange_message_sent. destruct (sv_exec s !! j) as [a|]; [|apply touches_refl].
  destruct (sv_infos s !! a) as [i|] eqn:Ha; [|apply touches_refl]. split; try done.
  - cbn. rewrite list_fmap_insert. cbn. apply list_insert_id. by rewrite list_lookup_fmap, Ha.
  - intros t Ht. by exists t.
Qed.
Lemma touches_emit id conn ev s : touches id s (emit conn ev s).
Proof. split; try done. intros t Ht. by exists t. Qed.
Lemma touches_notify id t s : touches id s (send_notification t s).
Proof. split; try done. intros t' Ht. by exists t'. Qed.
Lemma touches_answer id j conn ev s : touches id s (answer_once j conn ev s).
Proof.
  unfold answer_once. pose proof (touches_exchange id j true s) as Ht.
  destruct (exchange_message_sent j true s) as [[] s']; cbn [snd] in Ht; [done|].
  etrans; [done|apply touches_emit].
Qed.

(** Tasks of the store carry their key. *)
Definition keyed s : Prop := ∀ id t, sv_tasks s !! id = Some t → tk_id t = id.

Lemma touches_keyed id s s' : touches id s s' → keyed s → (is_Some (sv_tasks s !! id) ∨ sv_tasks s' !! id = None) → keyed s'.
Proof.
  intros [_ _ _ O T] Hk Hid j t Hj. destruct (decide (j = id)) as [->|Hne]; [|apply Hk; by rewrite <-O].
  destruct Hid as [[t0 H0]|Hn]; [|congruence]. destruct (T t0 H0) as (t' & ? & Ht'). simplify_eq. by apply Ht', Hk.
Qed.

Lemma run_callback_touches ev s cb :
  keyed s → touches (cb_task cb) s (run_callback ev s cb).
Proof.
  intros Hk. destruct cb as [id b conn|id r conn]; cbn [run_callback cb_task].
  - unfold get_task, store_get. destruct (sv_tasks s !! id) as [t|] eqn:Ht; [|apply touches_refl].
    assert (touches id s (save_task (with_state Completed t) s)) as Hsave.
    { rewrite <-(Hk id t Ht). apply (touches_save (with_state Completed t)). }
    destruct ev; try (destruct (_ || _); [apply touches_answer|apply touches_refl]).
    etrans; [apply Hsave|apply touches_answer].
  - destruct (push_sender && negb r); [|apply touches_emit].
    destruct (get_task id _); [|apply touches_emit]. etrans; [apply touches_emit|apply touches_notify].
Qed.

Lemma callbacks_touch id ev l s :
  Forall (λ cb, cb_task cb = id) l → keyed s → is_Some (sv_tasks s !! id) →
  touches id s (foldl (run_callback ev) s l).
Proof.
  intros Hl. revert s. induction Hl as [|cb l Hcb _ IH]; intros s Hk Hid; [apply touches_refl|]. cbn [foldl].
  pose proof (run_callback_touches ev s cb Hk) as Ht. rewrite Hcb in Ht.
  etrans; [done|]. apply IH; [eapply touches_keyed; [done..|by left]|].
  destruct Hid as [t Ht0]. destruct (touches_task _ _ _ Ht t Ht0) as (? & -> & _). by eexists.
Qed.

(** Callbacks leave the states of tasks alone, unless the event is a
    message. *)
Definition keeps_states s s' : Prop :=
  ∀ id t, sv_tasks s !! id = Some t → ∃ t', sv_tasks s' !! id = Some t' ∧ ts_state (tk_status t') = ts_state (tk_status t).
Definition is_message (ev : StreamEvent) : bool := match ev with EvMessage _ => true | _ => false end.

Lemma exchange_tasks j v s : sv_tasks (exchange_message_sent j v s).2 = sv_tasks s.
Proof. unfold exchange_message_sent. destruct (sv_exec s !! j) as [a|]; [|done]. by destruct (sv_infos s !! a). Qed.
Lemma answer_tasks j conn ev s : sv_tasks (answer_once j conn ev s) = sv_tasks s.
Proof.
  unfold answer_once. pose proof (exchange_tasks j true s) as Ht.
  by destruct (exchange_message_sent j true s) as [[] s'].
Qed.

Lemma run_callback_tasks ev s cb : is_message ev = false → sv_tasks (run_callback ev s cb) = sv_tasks s.
Proof.
  intros Hev. destruct cb as [id b conn|id r conn]; cbn [run_callback].
  - destruct (get_task id s); [|done]. destruct ev; try done; (destruct (_ || _); [apply answer_tasks|done]).
  - destruct (push_sender && negb r); [|done]. by destruct (get_task id _).
Qed.
Lemma run_callbacks_tasks ev l s : is_message ev = false → sv_tasks (foldl (run_callback ev) s l) = sv_tasks s.
Proof. intros Hev. revert s. induction l as [|cb l IH]; intros s; [done|]. cbn [foldl]. by rewrite IH, run_callback_tasks. Qed.

(** * Events *)

(** The events updaters make: about their own task. *)
Definition own_event id (ev : StreamEvent) : Prop :=
  match ev with
  | EvStatusUpdate e => su_task_id e = id
  | EvArtifactUpdate e => au_task_id e = id
  | EvMessage _ => True
  | EvTask _ => False
  end.

Lemma flush_id t : tk_id (flush_status_message t) = tk_id t.
Proof. unfold flush_status_message. by destruct (ts_message (tk_status t)). Qed.
Lemma flush_context t : tk_context_id (flush_status_message t) = tk_context_id t.
Proof. unfold flush_status_message. by destruct (ts_message (tk_status t)). Qed.
Lemma flush_state t : ts_state (tk_status (flush_status_message t)) = ts_state (tk_status t).
Proof. unfold flush_status_message. by destruct (ts_message (tk_status t)). Qed.
Lemma apply_status_id e t : tk_id (apply_status e t) = tk_id t.
Proof. unfold apply_status. cbn. apply flush_id. Qed.
Lemma append_artifact_id e t : tk_id (append_artifact_to_task e t) = tk_id t.
Proof. done. Qed.

(** The task an event makes of a stored one. *)
Definition event_task (ev : StreamEvent) t : Task :=
  match ev with
  | EvStatusUpdate e => apply_status e t
  | EvArtifactUpdate e => append_artifact_to_task e t
  | EvMessage _ => t
  | EvTask t' => t'
  end.

Lemma save_task_event_eq id ev t s :
  own_event id ev → sv_tasks s !! id = Some t → tk_id t = id →
  sv_tasks (save_task_event ev s) = <[id := event_task ev t]> (sv_tasks s) ∧ touches id s (save_task_event ev s).
Proof.
  intros Hev Ht Hid. destruct ev as [t'|m|e|e]; cbn [own_event] in Hev; [done|..]; cbn [save_task_event event_task].
  - split; [|apply touches_refl]. by rewrite insert_id.
  - unfold ensure_task, store_get. rewrite Hev, Ht. cbn [sv_tasks save_task store_save set_tasks].
    rewrite append_artifact_id, Hid. split; [done|]. rewrite <-Hid, <-(append_artifact_id e t). apply touches_save.
  - unfold ensure_task, store_get. rewrite Hev, Ht. cbn [sv_tasks save_task store_save set_tasks].
    rewrite apply_status_id, Hid. split; [done|]. rewrite <-Hid, <-(apply_status_id e t). apply touches_save.
Qed.

Lemma event_task_state ev id t : own_event id ev → is_final_event ev = false → ¬ task_final t → ¬ task_final (event_task ev t).
Proof.
  destruct ev as [t'|m|e|e]; cbn; try done. intros _ Hf _. unfold task_final, apply_status. cbn.
  unfold is_final_or_interrupted in Hf. by destruct (is_final _).
Qed.
End facts.

(** A connection no request has used. *)
Definition conn_fresh (conn : nat) (s : ServerState) : Prop :=
  conn ∉ cb_conn <$> callbacks s ∧ conn ∉ (sv_log s).*1.

(** The answer of a [message/send]. *)
Definition is_answer (ev : StreamEvent) : Prop :=
  match ev with EvTask _ | EvMessage _ => True | _ => False end.

(** Every [message/send] was answered at most once, with a task or a message,
    and not at all while its flag is down. *)
Record log_inv (s : ServerState) : Prop := {
  log_conns : NoDup (cb_conn <$> callbacks s);
  log_answers a info id b conn :
    sv_infos s !! a = Some info → SendCb id b conn ∈ event_cb info →
    length (events_of conn s) ≤ 1 ∧ Forall is_answer (events_of conn s) ∧
    (message_sent info = false → events_of conn s = [])
}.

Section reach.
Context `{!A2AEnv} (cfg : HandlerConfig).
Implicit Types (s : ServerState) (t : Task) (id : string).

(** One call, or one part of a call that awaits the executor.  An executor may
    make any call on the updater of any task at any time; [end_cancel] runs for
    a task that was found when the request began, and no step removes one. *)
Inductive server_step : ServerState → ServerState → Prop :=
| step_send params conn s : conn_fresh conn s → server_step s (begin_send cfg params conn s).2
| step_stream params conn s : conn_fresh conn s → server_step s (begin_stream cfg params conn s).2
| step_resubscribe params conn s : conn_fresh conn s → server_step s (on_resubscribe_to_task cfg params conn s).2
| step_update c u s : cf_executor cfg = true → server_step s (updater_call c u s).2
| step_end_send id s : server_step s (send_push_notification_if_needed id s)
| step_end_cancel params task s :
    cf_executor cfg = true → is_Some (store_get (ip_id params) s) → server_step s (end_cancel params task s).2
| step_cancel_alone params ex s : cf_executor cfg = false → server_step s (on_cancel_task cfg params ex s).2
| step_set_push c s : server_step s (on_set_task_push_notification_config cfg c s).2
| step_delete_push params s : server_step s (on_delete_task_push_notification_config cfg params s).2.

Definition server_reachable s : Prop := rtc server_step empty_server s.

Record server_inv s : Prop := {
  inv_keyed : keyed s;
  inv_ids id : is_Some (sv_tasks s !! id) → ∃ i, i < sv_uuids s ∧ id = "task-" +:+ uuid_at i;
  inv_exec id a : sv_exec s !! id = Some a →
    (∃ info, sv_infos s !! a = Some info ∧ Forall (λ cb, cb_task cb = id) (event_cb info)) ∧
    ∃ t, sv_tasks s !! id = Some t ∧ (cf_executor cfg = true → ¬ task_final t);
  inv_log : log_inv s;
  inv_inj id j a : sv_exec s !! id = Some a → sv_exec s !! j = Some a → id = j
}.

(** Tasks stay, final ones as they are; so do callbacks. *)
Definition frozen s s' : Prop :=
  (∀ id t, sv_tasks s !! id = Some t → ∃ t', sv_tasks s' !! id = Some t' ∧ (task_final t → t' = t)) ∧
  callbacks s ⊆ callbacks s'.
Lemma frozen_same s s' : sv_tasks s' = sv_tasks s → event_cb <$> sv_infos s' = event_cb <$> sv_infos s → frozen s s'.
Proof.
  intros Ht Hc. split; [intros id t; rewrite Ht; by exists t|]. unfold callbacks. by rewrite Hc.
Qed.
Lemma frozen_refl s : frozen s s.
Proof. by apply frozen_same. Qed.
Lemma frozen_trans s1 s2 s3 : frozen s1 s2 → frozen s2 s3 → frozen s1 s3.
Proof.
  intros [H1 C1] [H2 C2]. split; [|by etrans]. intros id t Ht. destruct (H1 id t Ht) as (t' & Ht' & Hf).
  destruct (H2 id t' Ht') as (t'' & ? & Hf'). exists t''. split; [done|]. intros Hfin. pose proof (Hf Hfin). subst t'. by apply Hf'.
Qed.

(** Good moves: the invariant and the final tasks are kept. *)
Definition good s s' : Prop := server_inv s' ∧ frozen s s'.

(** * The log *)

Lemma infos_cbs s s' a info' :
  event_cb <$> sv_infos s' = event_cb <$> sv_infos s → sv_infos s' !! a = Some info' →
  ∃ info, sv_infos s !! a = Some info ∧ event_cb info = event_cb info'.
Proof.
  intros Heq Ha. assert ((event_cb <$> sv_infos s') !! a = Some (event_cb info')) as Hb.
  { by rewrite list_lookup_fmap, Ha. }
  rewrite Heq, list_lookup_fmap in Hb. destruct (sv_infos s !! a) as [info|]; [|done]. cbn in Hb. exists info. by simplify_eq.
Qed.

Lemma log_inv_same s s' : sv_infos s' = sv_infos s → sv_log s' = sv_log s → log_inv s → log_inv s'.
Proof. intros Hi Hl [Hn Ha]. unfold callbacks, events_of in *. split; unfold callbacks, events_of; rewrite Hi, ?Hl; [exact Hn|exact Ha]. Qed.

Lemma joined_position {A B} (f : A → B) (ls : list (list A)) a a' l l' x y :
  NoDup (f <$> mjoin ls) → ls !! a = Some l → ls !! a' = Some l' → x ∈ l → y ∈ l' → f x = f y → a = a' ∧ x = y.
Proof.
  revert a a'. induction ls as [|l0 ls IH]; intros a a'; [done|]. cbn [mjoin list_join]. rewrite fmap_app, NoDup_app.
  intros (Hn & Hd & Hn') Ha Ha' Hx Hy Hf.
  assert (Hin : ∀ a l z, ls !! a = Some l → z ∈ l → f z ∈ f <$> mjoin ls).
  { intros b m z Hb Hz. apply list_elem_of_fmap. exists z. split; [done|].
    apply list_elem_of_join. exists m. split; [done|]. by eapply list_elem_of_lookup_2. }
  destruct a as [|a], a' as [|a']; cbn in Ha, Ha'; simplify_eq.
  - split; [done|]. apply list_elem_of_lookup in Hx as [i Hi], Hy as [j Hj].
    assert (i = j) as ->; [|congruence]. eapply NoDup_lookup; [exact Hn|rewrite list_lookup_fmap, Hi; reflexivity|].
    by rewrite list_lookup_fmap, Hj, Hf.
  - exfalso. apply (Hd (f x)); [by apply list_elem_of_fmap; eauto|]. rewrite Hf. by eapply Hin.
  - exfalso. apply (Hd (f y)); [by apply list_elem_of_fmap; eauto|]. rewrite <-Hf. by eapply Hin.
  - destruct (IH a a'); try done. by subst.
Qed.

(** Two callbacks with the same connection are the same, in the same info. *)
Lemma conn_position s a a' info info' cb cb' :
  log_inv s → sv_infos s !! a = Some info → sv_infos s !! a' = Some info' → cb ∈ event_cb info → cb' ∈ event_cb info' →
  cb_conn cb = cb_conn cb' → a = a' ∧ cb = cb'.
Proof.
  intros [Hn _] Ha Ha' Hcb Hcb' Heq. eapply (joined_position cb_conn (event_cb <$> sv_infos s)); [exact Hn|..|exact Hcb|exact Hcb'|done].
  - by rewrite list_lookup_fmap, Ha.
  - by rewrite list_lookup_fmap, Ha'.
Qed.

Lemma answer_once_log id a info b conn ev s :
  log_inv s → is_answer ev → sv_exec s !! id = Some a → sv_infos s !! a = Some info → SendCb id b conn ∈ event_cb info →
  log_inv (answer_once id conn ev s).
Proof.
  intros Hl Hev Hex Ha Hcb. unfold answer_once, exchange_message_sent. rewrite Hex, Ha.
  destruct (log_answers s Hl a info id b conn Ha Hcb) as (_ & _ & Hempty).
  assert (Hcbs : event_cb <$> <[a:=mkInfo true (event_cb info)]> (sv_infos s) = event_cb <$> sv_infos s).
  { rewrite list_fmap_insert. apply list_insert_id. by rewrite list_lookup_fmap, Ha. }
  destruct (message_sent info) eqn:Hsent.
  - destruct info as [ms cbs]. cbn in Hsent |- *. subst. rewrite list_insert_id by done. by destruct s.
  - specialize (Hempty eq_refl). split; [unfold callbacks; cbn; rewrite Hcbs; apply Hl|].
    intros a' info' id' b' conn' Ha' Hcb'. rewrite events_of_emit. change (events_of conn' _) with (events_of conn' s).
    destruct (infos_cbs s (set_infos _ s) a' info' Hcbs Ha') as (info0 & Ha0 & Hcb0). rewrite <-Hcb0 in Hcb'.
    destruct (log_answers s Hl a' info0 id' b' conn' Ha0 Hcb') as (Hlen & Hans & Hemp).
    destruct (decide (conn = conn')) as [<-|Hne].
    + rewrite Hempty. cbn. destruct (conn_position s a' a info0 info _ _ Hl Ha0 Ha Hcb' Hcb) as [-> _]; [done|].
      cbn in Ha'. rewrite list_lookup_insert_eq in Ha' by (by eapply lookup_lt_Some). simplify_eq.
      split_and!; [done|by repeat constructor|done].
    + rewrite app_nil_r. split_and!; [done..|]. cbn in Ha'. destruct (decide (a = a')) as [<-|Hna].
      * rewrite list_lookup_insert_eq in Ha' by (by eapply lookup_lt_Some). by simplify_eq.
      * rewrite list_lookup_insert_ne in Ha' by done. by simplify_eq.
Qed.

Lemma run_callback_log ev a info cb s :
  log_inv s → sv_exec s !! cb_task cb = Some a → sv_infos s !! a = Some info → cb ∈ event_cb info →
  log_inv (run_callback ev s cb).
Proof.
  intros Hl Hex Ha Hcb. destruct cb as [id b conn|id r conn]; cbn [run_callback cb_task] in *.
  - destruct (get_task id s) as [t|]; [|done].
    assert (Hans : ∀ ev s', is_answer ev → sv_exec s' = sv_exec s → sv_infos s' = sv_infos s → sv_log s' = sv_log s →
      log_inv (answer_once id conn ev s')).
    { intros ev' s' Hev He Hi Hlog. eapply answer_once_log; [by eapply log_inv_same|done|by rewrite He|by rewrite Hi|done]. }
    destruct ev; try (destruct (_ || _); [by apply Hans|done]). by apply Hans.
  - assert (log_inv (emit conn ev s)) as Hemit.
    { split; [apply Hl|]. intros a' info' id' b' conn' Ha' Hcb'. rewrite events_of_emit.
      destruct (decide (conn = conn')) as [<-|Hne]; [|rewrite app_nil_r; by eapply log_answers].
      by destruct (conn_position s a' a info' info _ _ Hl Ha' Ha Hcb' Hcb). }
    destruct (push_sender && negb r); [|done]. destruct (get_task id _); [|done]. by apply (log_inv_same (emit conn ev s)).
Qed.

Lemma run_callbacks_log ev a info id l s :
  log_inv s → keyed s → is_Some (sv_tasks s !! id) → sv_exec s !! id = Some a → sv_infos s !! a = Some info →
  Forall (λ cb, cb_task cb = id) l → l ⊆ event_cb info → log_inv (foldl (run_callback ev) s l).
Proof.
  intros Hl Hk Ht Hex Ha Hid. revert s info Hl Hk Ht Hex Ha. induction Hid as [|cb l Hcb _ IH]; intros s info Hl Hk Ht Hex Ha Hsub; [done|].
  cbn [foldl]. pose proof (run_callback_touches ev s cb Hk) as Htch. rewrite Hcb in Htch.
  assert (is_Some (sv_infos (run_callback ev s cb) !! a)) as [info' Ha'].
  { apply lookup_lt_is_Some. rewrite <-(length_fmap event_cb), (touches_cbs _ _ _ Htch), length_fmap. by eapply lookup_lt_Some. }
  destruct (infos_cbs s _ a info' (touches_cbs _ _ _ Htch) Ha') as (info0 & Ha0 & Hcbs). assert (info0 = info) as -> by congruence.
  eapply (IH _ info'); [eapply run_callback_log; [done|by rewrite Hcb|done|]|..].
  - apply Hsub. by left.
  - eapply touches_keyed; [done..|by left].
  - destruct Ht as [t0 Ht0]. destruct (touches_task _ _ _ Htch t0 Ht0) as (? & -> & _). by eexists.
  - by rewrite (touches_exec _ _ _ Htch).
  - done.
  - rewrite <-Hcbs. intros x Hx. apply Hsub. by right.
Qed.

(** * Events and cancelling *)

(** After running the callbacks of a registered task whose event was saved:
    the invariant but for the registration of that task. *)
Lemma notified_inv ev id a s s1 s2 t t1 :
  server_inv s → sv_exec s !! id = Some a → sv_tasks s !! id = Some t →
  touches id s s1 → sv_tasks s1 = <[id := t1]> (sv_tasks s) → sv_infos s1 = sv_infos s → sv_log s1 = sv_log s →
  tk_id t1 = id → s2 = run_callbacks a ev s1 →
  touches id s s2 ∧ keyed s2 ∧ log_inv s2 ∧ sv_exec s2 = sv_exec s ∧
  (is_message ev = false → sv_tasks s2 !! id = Some t1).
Proof.
  intros Hinv Hex Ht Htch Htasks Hinfos Hlog Hid ->.
  destruct (inv_exec s Hinv id a Hex) as ((info & Hinfo & Hcbs) & _).
  assert (is_Some (sv_tasks s1 !! id)) as Hin by (by rewrite Htasks, lookup_insert_eq; eexists).
  assert (keyed s1) as Hk1. { eapply touches_keyed; [done|apply Hinv|left; by eexists]. }
  unfold run_callbacks. rewrite Hinfos, Hinfo. cbn [fmap option_fmap option_map default from_option]. unfold Datatypes.id.
  pose proof (callbacks_touch id ev (event_cb info) s1 Hcbs Hk1 Hin) as Htch2. split_and!.
  - by eapply touches_trans.
  - eapply touches_keyed; [done..|by left].
  - eapply (run_callbacks_log ev a info id); try done.
    + by apply (log_inv_same s); [..|apply Hinv].
    + by rewrite (touches_exec _ _ _ Htch).
    + by rewrite Hinfos.
  - by rewrite (touches_exec _ _ _ Htch2), (touches_exec _ _ _ Htch).
  - intros Hm. by rewrite run_callbacks_tasks, Htasks, lookup_insert_eq.
Qed.

(** What is left to show when only one registered task was touched. *)
Lemma touched_good id s s2 s3 :
  server_inv s → touches id s s2 → keyed s2 → log_inv s2 →
  (∃ t, sv_tasks s !! id = Some t ∧ ¬ task_final t) →
  (s3 = unregister id s2 ∨ s3 = s2 ∧ ∃ t', sv_tasks s2 !! id = Some t' ∧ ¬ task_final t') →
  good s s3.
Proof.
  intros Hinv Htch Hk Hl (t & Ht & Hnf) Hs3.
  assert (Htasks : sv_tasks s3 = sv_tasks s2 ∧ sv_infos s3 = sv_infos s2 ∧ sv_log s3 = sv_log s2 ∧ sv_uuids s3 = sv_uuids s2).
  { by destruct Hs3 as [->|[-> _]]. }
  destruct Htasks as (Htasks & Hinfos & Hlog & Huuids). split; [split|].
  - unfold keyed. by rewrite Htasks.
  - intros j Hj. rewrite Htasks in Hj. rewrite Huuids.
    assert (is_Some (sv_tasks s !! j)) as Hin.
    { destruct (decide (j = id)) as [->|Hne]; [by eexists|]. by rewrite <-(touches_other _ _ _ Htch). }
    destruct (inv_ids s Hinv j Hin) as (i & Hi & ->). exists i. split; [|done]. pose proof (touches_uuids _ _ _ Htch). lia.
  - intros j a Hj. assert (sv_exec s !! j = Some a) as Hj0.
    { rewrite <-(touches_exec _ _ _ Htch). destruct Hs3 as [->|[-> _]]; [|done]. cbn in Hj. by apply lookup_delete_Some in Hj as []. }
    destruct (inv_exec s Hinv j a Hj0) as ((info & Hinfo & Hcbs) & t0 & Ht0 & Hf0). rewrite Hinfos, Htasks. split.
    + assert (is_Some (sv_infos s2 !! a)) as [info' Hi'].
      { apply lookup_lt_is_Some. rewrite <-(length_fmap event_cb), (touches_cbs _ _ _ Htch), length_fmap. by eapply lookup_lt_Some. }
      exists info'. split; [done|]. destruct (infos_cbs s s2 a info' (touches_cbs _ _ _ Htch) Hi') as (info0 & ? & <-). by simplify_eq.
    + destruct (decide (j = id)) as [->|Hne].
      * destruct Hs3 as [->|[_ (t' & ? & ?)]]; [cbn in Hj; by rewrite lookup_delete_eq in Hj|]. by exists t'.
      * exists t0. by rewrite (touches_other _ _ _ Htch).
  - by apply (log_inv_same s2).
  - assert (sv_exec s3 ⊆ sv_exec s) as Hsub.
    { rewrite <-(touches_exec _ _ _ Htch). destruct Hs3 as [->|[-> _]]; [apply delete_subseteq|done]. }
    intros i j a Hi Hj. eapply (inv_inj s Hinv); by eapply lookup_weaken.
  - split; [|unfold callbacks; by rewrite Hinfos, (touches_cbs _ _ _ Htch)].
    intros j tj Hj. rewrite Htasks. destruct (decide (j = id)) as [->|Hne].
    + destruct (touches_task _ _ _ Htch tj Hj) as (t' & ? & _). exists t'. split; [done|]. intros ?. by simplify_eq.
    + exists tj. by rewrite (touches_other _ _ _ Htch).
Qed.

Lemma good_refl s : server_inv s → good s s.
Proof. intros. split; [done|apply frozen_refl]. Qed.

Lemma process_good id ev s :
  cf_executor cfg = true → server_inv s → own_event id ev → good s (process id ev s).
Proof.
  intros Hcfg Hinv Hev. unfold process, process_found. destruct (sv_exec s !! id) as [a|] eqn:Hex; [|by apply good_refl].
  destruct (inv_exec s Hinv id a Hex) as (_ & t & Ht & Hnf). specialize (Hnf Hcfg).
  pose proof (inv_keyed s Hinv id t Ht) as Hid.
  destruct (save_task_event_eq id ev t s Hev Ht Hid) as [Htasks Htch].
  assert (Hsame : sv_infos (save_task_event ev s) = sv_infos s ∧ sv_log (save_task_event ev s) = sv_log s).
  { destruct ev; cbn [own_event] in Hev; try done; cbn [save_task_event]; unfold ensure_task, store_get; by rewrite Hev, Ht. }
  assert (tk_id (event_task ev t) = id) as Hid'.
  { destruct ev; cbn [own_event event_task] in *; try done. by rewrite apply_status_id. }
  destruct (notified_inv ev id a s _ _ t _ Hinv Hex Ht Htch Htasks (proj1 Hsame) (proj2 Hsame) Hid' eq_refl) as (Htch2 & Hk2 & Hl2 & _ & Htask2).
  eapply (touched_good id s); [done..|by exists t|]. destruct (is_final_event ev) eqn:Hfin; [by left|right].
  split; [done|]. exists (event_task ev t). split; [|by eapply event_task_state].
  apply Htask2. by destruct ev.
Qed.

Lemma tick_good s s' :
  sv_tasks s' = sv_tasks s → sv_infos s' = sv_infos s → sv_exec s' = sv_exec s → sv_log s' = sv_log s →
  sv_uuids s ≤ sv_uuids s' → server_inv s → good s s'.
Proof.
  intros Ht Hi He Hl Hu [K I E L J]. split; [|apply frozen_same; [done|by rewrite Hi]]. split.
  - unfold keyed. by rewrite Ht.
  - intros id. rewrite Ht. intros (i & ? & ->)%I. exists i. split; [lia|done].
  - intros id a. rewrite He, Hi, Ht. apply E.
  - by apply (log_inv_same s).
  - intros id j a. rewrite He. apply J.
Qed.

Lemma good_trans s1 s2 s3 : good s1 s2 → (server_inv s2 → good s2 s3) → good s1 s3.
Proof. intros [Hi Hf] H23. destruct (H23 Hi) as [? ?]. split; [done|by eapply frozen_trans]. Qed.

Lemma generate_uuid_good s : server_inv s → good s (generate_uuid s).2.
Proof. apply tick_good; try done. cbn. lia. Qed.
Lemma timestamp_good s : server_inv s → good s (get_current_timestamp s).2.
Proof. by apply tick_good. Qed.

Lemma updater_call_good c u s : cf_executor cfg = true → server_inv s → good s (updater_call c u s).2.
Proof.
  intros Hcfg Hinv. destruct c as [state message ts md|param|m|ps md]; cbn [updater_call].
  - unfold update_status. destruct (up_terminal u); [by apply good_refl|].
    assert (∀ ts s', good s s' → good s (process (up_task_id u)
      (EvStatusUpdate (mkStatusUpdate (up_context_id u) md (mkTaskStatus message state ts) (up_task_id u))) s')) as Hp.
    { intros ts' s' Hg. eapply good_trans; [done|]. intros. by apply process_good. }
    destruct (is_final state), ts; cbn; apply Hp; (apply good_refl || apply timestamp_good); done.
  - unfold add_artifact. destruct (up_terminal u); [by apply good_refl|].
    destruct (ap_artifact_id param); cbn [fst snd]; [by apply process_good|].
    eapply good_trans; [by apply generate_uuid_good|]. intros. by apply process_good.
  - by apply process_good.
  - by apply generate_uuid_good.
Qed.

Lemma cancel_task_good id t s :
  cf_executor cfg = true → server_inv s → sv_tasks s !! id = Some t → good s (cancel_task t s).2.
Proof.
  intros Hcfg Hinv Ht. pose proof (inv_keyed s Hinv id t Ht) as Hid. unfold cancel_task.
  destruct (is_final (ts_state (tk_status t))) eqn:Hf; [by apply good_refl|].
  assert (¬ task_final t) as Hnf by (unfold task_final; congruence).
  pose proof (touches_save (with_state Canceled t) s) as Htch. cbn [tk_id with_state with_status] in Htch. rewrite Hid in Htch |- *.
  destruct (sv_exec s !! id) as [a|] eqn:Hex; cbn [snd].
  - assert (sv_tasks (save_task (with_state Canceled t) s) = <[id := with_state Canceled t]> (sv_tasks s)) as Htasks by (cbn; by rewrite Hid).
    destruct (notified_inv (EvStatusUpdate (mkStatusUpdate (tk_context_id t) None (status_new Canceled) id)) id a s
      _ _ t _ Hinv Hex Ht Htch Htasks eq_refl eq_refl Hid eq_refl) as (Htch2 & Hk2 & Hl2 & _).
    eapply (touched_good id s); [done..|by exists t|by left].
  - destruct Hinv as [K I E L J]. split; [split|].
    + eapply touches_keyed; [exact Htch|exact K|left; by eexists].
    + intros j Hj. apply I. destruct (decide (j = id)) as [->|Hne]; [by eexists|]. by rewrite <-(touches_other _ _ _ Htch).
    + intros j a Hj. destruct (E j a Hj) as (Hi & t0 & Ht0 & Hf0). split; [done|]. exists t0. split; [|done].
      rewrite (touches_other _ _ _ Htch); [done|]. intros ->. cbn in Hj. congruence.
    + by apply (log_inv_same s).
    + exact J.
    + split; [|done]. intros j tj Hj. destruct (decide (j = id)) as [->|Hne]; [|exists tj; by rewrite (touches_other _ _ _ Htch)].
      destruct (touches_task _ _ _ Htch tj Hj) as (t' & ? & _). exists t'. split; [done|]. intros. by simplify_eq.
Qed.
End reach.
