(* ===== verification/A2AServerFacts.v ===== *)
(** What an A2A server guarantees, in every order of its calls: final tasks
    never change, a [message/send] is answered at most once; and what one
    request sees of an undisturbed execution. *)
From S2P Require Import Prelude OpMonad RustMap RustStr Json A2AData A2ATasks A2AHandler A2AServerReach.

(** [generate_uuid] never repeats itself. *)
Definition uuids_fresh `{!A2AEnv} : Prop := ∀ i j, uuid_at i = uuid_at j → i = j.

Definition bump (n : nat) (s : ServerState) : ServerState :=
  mkServer (sv_tasks s) (sv_infos s) (sv_exec s) (sv_push s) (sv_log s) (sv_notified s) (n + sv_uuids s) (sv_clock s).

(** A request that was taken up: its task stored and registered with its
    callback. *)
Definition opened (id : string) (t : Task) (cb : EventCb) (push : gmap string (list PushNotificationConfig))
    (s : ServerState) : ServerState :=
  mkServer (<[id := t]> (sv_tasks s)) (sv_infos s ++ [mkInfo false [cb]]) (<[id := length (sv_infos s)]> (sv_exec s))
    push (sv_log s) (sv_notified s) (sv_uuids s) (sv_clock s).

Section facts.
Context `{!A2AEnv} (cfg : HandlerConfig) (Hfresh : uuids_fresh).
Implicit Types (s : ServerState) (t : Task) (id : string).

(** The task [t] may be opened under [id]: it continues a task that is not
    final, or its id is new. *)
Definition openable id t s : Prop :=
  id ≠ "" ∧ tk_id t = id ∧ ¬ task_final t ∧
  ((∃ t0, sv_tasks s !! id = Some t0 ∧ ¬ task_final t0) ∨
   (sv_tasks s !! id = None ∧ ∃ i, i < sv_uuids s ∧ id = "task-" +:+ uuid_at i)).

Lemma callbacks_opened id t cb push s : callbacks (opened id t cb push s) = callbacks s ++ [cb].
Proof. unfold callbacks, opened. cbn [sv_infos]. by rewrite fmap_app, join_app. Qed.

Lemma opened_good id t cb push s :
  server_inv cfg s → openable id t s → cb_task cb = id → cb_conn cb ∉ cb_conn <$> callbacks s →
  (∀ b conn, cb = SendCb id b conn → events_of conn s = []) → good cfg s (opened id t cb push s).
Proof.
  intros [K I E [Ln La] J] (_ & Htid & Hnf & Hopen) Hcb Hconn Hev. split; [split|].
  - intros j tj Hj. cbn in Hj. apply lookup_insert_Some in Hj as [[<- <-]|[_ Hj]]; [done|by apply K].
  - intros j [tj Hj]. cbn in Hj |- *. apply lookup_insert_Some in Hj as [[<- _]|[_ Hj]]; [|by apply I; eexists].
    destruct Hopen as [(t0 & ? & _)|[_ ?]]; [by apply I; eexists|done].
  - intros j a Hj. cbn in Hj |- *. apply lookup_insert_Some in Hj as [[<- <-]|[Hne Hj]].
    + split; [|exists t; by rewrite lookup_insert_eq]. exists (mkInfo false [cb]).
      split; [by rewrite lookup_app_r, Nat.sub_diag|by repeat constructor].
    + destruct (E j a Hj) as ((info & Hi & Hc) & t0 & Ht0 & Hf0). split.
      * exists info. split; [by apply lookup_app_l_Some|done].
      * exists t0. by rewrite lookup_insert_ne.
  - split.
    + rewrite callbacks_opened, fmap_app, NoDup_app. cbn.
      split_and!; [done| |apply NoDup_singleton]. intros c Hc ->%list_elem_of_singleton. done.
    + intros a info j b conn Ha Hin. cbn in Ha. change (events_of conn _) with (events_of conn s).
      apply lookup_app_Some in Ha as [Ha|[_ Ha]]; [by eapply La|].
      apply list_lookup_singleton_Some in Ha as [_ <-]. cbn in Hin. apply list_elem_of_singleton in Hin as <-.
      cbn in Hcb. subst j. rewrite (Hev b conn eq_refl). cbn. split_and!; [lia|constructor|done].
  - assert (∀ i, sv_exec s !! i ≠ Some (length (sv_infos s))) as Hlen.
    { intros i Hi. destruct (E i _ Hi) as ((info & Hinfo & _) & _). apply lookup_lt_Some in Hinfo. lia. }
    intros i j a Hi Hj. cbn in Hi, Hj. apply lookup_insert_Some in Hi as [[<- <-]|[? Hi]], Hj as [[<- Hj]|[? Hj]]; try done.
    + by destruct (Hlen j).
    + subst. by destruct (Hlen i).
    + by eapply J.
  - split; [|rewrite callbacks_opened; set_solver].
    intros j tj Hj. cbn. destruct (decide (id = j)) as [<-|Hne]; [|exists tj; by rewrite lookup_insert_ne].
    exists t. rewrite lookup_insert_eq. split; [done|]. intros Hf.
    destruct Hopen as [(t0 & ? & ?)|[? _]]; by simplify_eq.
Qed.

Lemma bump_good n s : server_inv cfg s → good cfg s (bump n s).
Proof. apply tick_good; try done. cbn. lia. Qed.

Lemma bump_0 s : bump 0 s = s.
Proof. by destruct s. Qed.

(** * Taking up a request *)

Lemma determine_wp params (Q : string * option Task → ServerState → Prop) (F : ServerState → Prop) s :
  F s → Q ("task-" +:+ uuid_at (sv_uuids s), None) (bump 1 s) →
  (∀ id t, id ≠ "" → sv_tasks s !! id = Some t → Q (id, Some t) s) → wp (determine_task_id params) Q F s.
Proof.
  intros HF Hnew Hold. unfold determine_task_id.
  assert (wp (id ← generate_task_id; mret (id, None)) Q F s) as Hn by exact Hnew.
  destruct (msg_task_id _) as [id|]; [|done]. destruct (str_is_empty id) eqn:Hid; [done|]. do 2 wp_op. destruct (store_get id s) as [t|] eqn:Ht; [|by wp_op].
  assert (Q (id, Some t) s) by (apply Hold; [by destruct id|done]).
  destruct (msg_context_id _); [destruct (_ && _)|]; by wp_op.
Qed.

Lemma context_id_wp params existing (Q : string → ServerState → Prop) F s :
  (∀ c, match existing with Some t => c = tk_context_id t | None => True end → Q c s ∧ Q c (bump 1 s)) →
  wp (context_id_of params existing) Q F s.
Proof.
  intros HQ. unfold context_id_of. destruct existing as [t|]; [by apply HQ|].
  destruct (msg_context_id _); [by apply HQ|]. unfold wp, fresh_uuid, generate_uuid. by apply HQ.
Qed.

(** Registering an id, and the callback after it. *)
Definition registered id s : ServerState :=
  set_exec (<[id := length (sv_infos s)]> (sv_exec s)) (set_infos (sv_infos s ++ [default_info]) s).
Lemma register_eq id s : id ≠ "" → register id s = (Ok (), registered id s).
Proof. intros. unfold register, register_task. by destruct id. Qed.

Lemma exchange_registered id s s' :
  sv_exec s' = sv_exec (registered id s) → sv_infos s' = sv_infos (registered id s) → (exchange_message_sent id false s').2 = s'.
Proof.
  intros He Hi. unfold exchange_message_sent. rewrite He, Hi. cbn. rewrite lookup_insert_eq.
  rewrite lookup_app_r, Nat.sub_diag by done. cbn. rewrite list_insert_id by (by rewrite lookup_app_r, Nat.sub_diag).
  destruct s'. cbn in *. by subst.
Qed.
Lemma attach_registered id cb s s' :
  sv_exec s' = sv_exec (registered id s) → sv_infos s' = sv_infos (registered id s) →
  add_event_callback id cb s' = set_infos (sv_infos s ++ [mkInfo false [cb]]) s'.
Proof.
  intros He Hi. unfold add_event_callback. rewrite He, Hi. cbn. rewrite lookup_insert_eq.
  rewrite lookup_app_r, Nat.sub_diag by done. cbn. by rewrite insert_app_r_alt, Nat.sub_diag.
Qed.

(** What [take_up_task] leaves of a task that continues or begins. *)
Lemma existing_openable id t m s :
  id ≠ "" → keyed s → sv_tasks s !! id = Some t → is_final (ts_state (tk_status t)) = false →
  openable id (update_with_message m t s).1 s ∧ (update_with_message m t s).2 = save_task (update_with_message m t s).1 s ∧
  tk_context_id (update_with_message m t s).1 = tk_context_id t.
Proof.
  intros Hne Hk Ht Hf. split_and!; [|done|].
  - split_and!; [done| | |].
    + cbn. rewrite flush_id. by apply Hk.
    + unfold task_final. cbn. unfold flush_status_message. by destruct (ts_message (tk_status t)); cbn; rewrite Hf.
    + left. exists t. split; [done|]. unfold task_final. by rewrite Hf.
  - cbn. unfold flush_status_message. by destruct (ts_message (tk_status t)).
Qed.

Lemma new_id_openable t n s :
  server_inv cfg s → tk_id t = "task-" +:+ uuid_at (sv_uuids s) → ¬ task_final t →
  openable ("task-" +:+ uuid_at (sv_uuids s)) t (bump (S n) s).
Proof.
  intros Hinv Hid Hnf. split_and!; [done..|]. right. split; [|exists (sv_uuids s); split; [cbn; lia|done]].
  cbn. destruct (sv_tasks s !! _) eqn:Ht; [|done]. exfalso.
  destruct (inv_ids cfg s Hinv ("task-" +:+ uuid_at (sv_uuids s))) as (i & Hi & Heq); [by eexists|].
  cbn in Heq. injection Heq as Heq%Hfresh. lia.
Qed.

(** A state in which the task is stored and registered, without callback. *)
Definition taken_up id t push s : ServerState :=
  mkServer (<[id := t]> (sv_tasks s)) (sv_infos (registered id s)) (sv_exec (registered id s)) push
    (sv_log s) (sv_notified s) (sv_uuids s) (sv_clock s).

Definition new_task (params : MessageSendParams) id (c : string) : Task :=
  mkTask None c (Some [sp_message params]) id None (status_new Submitted) None None.

Lemma create_new_eq params id c s :
  create_new_task cfg params id c s =
    mkServer (<[id := new_task params id c]> (sv_tasks s)) (sv_infos s) (sv_exec s) (sv_push (create_new_task cfg params id c s))
      (sv_log s) (sv_notified s) (sv_uuids s) (sv_clock s).
Proof.
  unfold create_new_task, update_push_notification_config.
  destruct (cf_push_store cfg), (sp_configuration params ≫= sc_push_notification_config); reflexivity.
Qed.

Lemma take_new_wp params c n s :
  server_inv cfg s →
  wp (take_up_task cfg Datatypes.id params ("task-" +:+ uuid_at (sv_uuids s)) c None)
    (λ _ s2, ∃ t push, openable ("task-" +:+ uuid_at (sv_uuids s)) t (bump (S n) s) ∧
       s2 = taken_up ("task-" +:+ uuid_at (sv_uuids s)) t push (bump (S n) s)) (λ _, False) (bump (S n) s).
Proof.
  intros Hinv. unfold take_up_task. do 4 wp_op. unfold wp. rewrite register_eq, create_new_eq by done.
  exists (new_task params ("task-" +:+ uuid_at (sv_uuids s)) c). eexists. split; [by apply new_id_openable|reflexivity].
Qed.

Lemma take_existing_wp params c id t s :
  server_inv cfg s → id ≠ "" → sv_tasks s !! id = Some t →
  wp (take_up_task cfg Datatypes.id params id c (Some t))
    (λ _ s2, ∃ t', openable id t' s ∧ s2 = taken_up id t' (sv_push s) s) (λ s2, s2 = s) s.
Proof.
  intros Hinv Hne Ht. unfold take_up_task. do 2 wp_op. destruct (is_final _) eqn:Hf; [by wp_op|]. wp_op. unfold wp at 1.
  rewrite register_eq by done. wp_op. unfold Datatypes.id. cbv beta.
  destruct (existing_openable id t (sp_message params) (registered id s) Hne) as (Hop & -> & _); [apply Hinv|done..|].
  eexists. split; [exact Hop|]. destruct Hop as (_ & Hid & _). unfold save_task, store_save. by rewrite Hid.
Qed.

(** What a request finds once it is taken up. *)
Definition taken params conn s id s' : Prop :=
  ∃ n t push, openable id t (bump n s) ∧
    s' = opened id t (SendCb id (blocking params) conn) push (bump n s).

Definition sent params conn s (r : string * TaskUpdater) s' : Prop :=
  cf_executor cfg = true ∧ taken params conn s r.1 s' ∧ r.2 = updater_new r.1 (get_context_id r.1 s').
Definition not_sent params conn s s' : Prop :=
  (∃ n, s' = bump n s) ∨ cf_executor cfg = false ∧ ∃ id, taken params conn s id s'.

Lemma attach_wp params conn s id n t push :
  openable id t (bump n s) →
  wp (_ ← op_modify (λ s, (exchange_message_sent id false s).2);
      context_id ← op_gets (get_context_id id);
      _ ← op_modify (add_event_callback id (SendCb id (blocking params) conn));
      if cf_executor cfg then mret (id, updater_new id context_id) else op_fail no_executor)
    (sent params conn s) (not_sent params conn s) (taken_up id t push (bump n s)).
Proof.
  intros Hop. do 6 wp_op. rewrite (exchange_registered id s), (attach_registered id _ s) by done.
  assert (taken params conn s id (set_infos (sv_infos s ++ [mkInfo false [SendCb id (blocking params) conn]])
    (taken_up id t push (bump n s)))) as Ht by by exists n, t, push.
  destruct (cf_executor cfg) eqn:Hcfg; wp_op; [split_and!; [done|exact Ht|done]|right; split; [done|exists id; exact Ht]].
Qed.

Lemma begin_send_wp params conn s :
  server_inv cfg s → wp (begin_send cfg params conn) (sent params conn s) (not_sent params conn s) s.
Proof.
  intros Hinv. unfold begin_send, begin_send_amid. apply wp_bind.
  apply determine_wp; [left; exists 0; by rewrite bump_0|..].
  - apply wp_bind, context_id_wp. intros c _. split; apply wp_bind.
    + eapply wp_mono; [by apply (take_new_wp params c 0)| |done]. intros _ s2 (t & push & Ht & ->). by apply attach_wp.
    + eapply wp_mono; [by apply (take_new_wp params c 1)| |done]. intros _ s2 (t & push & Ht & ->). by apply (attach_wp _ _ s _ 2).
  - intros id t Hne Ht. apply wp_bind, context_id_wp. intros c ->. split; apply wp_bind.
    + eapply wp_mono; [by apply take_existing_wp|..]; [|intros s2 ->; left; exists 0; by rewrite bump_0].
      intros _ s2 (t' & Ht' & ->). pose proof (attach_wp params conn s id 0 t' (sv_push s)) as Ha.
      rewrite bump_0 in Ha. by apply Ha.
    + eapply wp_mono; [apply take_existing_wp; [by apply bump_good|done..]|..]; [|intros s2 ->; left; by exists 1].
      intros _ s2 (t' & Ht' & ->). by apply attach_wp.
Qed.

(** * Streams *)

Lemma emit_fresh_good conn ev s : server_inv cfg s → conn ∉ cb_conn <$> callbacks s → good cfg s (emit conn ev s).
Proof.
  intros [K I E [Ln La] J] Hc. split; [|by apply frozen_same]. split; [exact K|exact I|exact E| |exact J]. split; [exact Ln|].
  intros a info id b conn' Ha Hin. rewrite events_of_emit. destruct (decide (conn = conn')) as [<-|_].
  - exfalso. apply Hc. apply list_elem_of_fmap. exists (SendCb id b conn). split; [done|].
    apply list_elem_of_join. exists (event_cb info). split; [done|]. apply list_elem_of_fmap.
    exists info. split; [done|]. by eapply list_elem_of_lookup_2.
  - rewrite app_nil_r. by eapply La.
Qed.

Lemma join_insert_snoc {A} (ls : list (list A)) a l x :
  ls !! a = Some l → mjoin (<[a := l ++ [x]]> ls) ≡ₚ x :: mjoin ls.
Proof.
  intros Ha. rewrite <-(take_drop_middle ls a l Ha) at 2. rewrite insert_take_drop by (by eapply lookup_lt_Some).
  rewrite !join_app. cbn [mjoin list_join]. solve_Permutation.
Qed.

Lemma add_stream_good id r conn s :
  server_inv cfg s → conn ∉ cb_conn <$> callbacks s → good cfg s (add_event_callback id (StreamCb id r conn) s).
Proof.
  intros Hinv Hc. unfold add_event_callback. destruct (sv_exec s !! id) as [a|] eqn:Hex; [|by apply good_refl].
  destruct (sv_infos s !! a) as [info|] eqn:Ha; [|by apply good_refl]. destruct Hinv as [K I E [Ln La] J].
  assert (Hin : ∀ a' info', <[a := mkInfo (message_sent info) (event_cb info ++ [StreamCb id r conn])]> (sv_infos s) !! a' = Some info' →
    a' = a ∧ info' = mkInfo (message_sent info) (event_cb info ++ [StreamCb id r conn]) ∨ sv_infos s !! a' = Some info').
  { intros a' info'. rewrite list_lookup_insert_Some. naive_solver. }
  assert (callbacks (set_infos (<[a := mkInfo (message_sent info) (event_cb info ++ [StreamCb id r conn])]> (sv_infos s)) s)
    ≡ₚ StreamCb id r conn :: callbacks s) as Hcbs.
  { unfold callbacks. cbn. rewrite list_fmap_insert. cbn.
    by rewrite (join_insert_snoc _ a (event_cb info)) by (by rewrite list_lookup_fmap, Ha). }
  split; [split; [exact K|exact I| | |exact J]|split; [intros j t Ht; by exists t|rewrite Hcbs; set_solver]].
  - intros j a' Hj. destruct (E j a' Hj) as ((info0 & Hi0 & Hc0) & ?). split; [|done]. cbn.
    destruct (decide (a' = a)) as [->|Hne]; [|exists info0; by rewrite list_lookup_insert_ne].
    assert (info0 = info) as -> by congruence. eexists. split; [by rewrite list_lookup_insert_eq by (by eapply lookup_lt_Some)|].
    cbn. apply Forall_app. split; [done|]. repeat constructor. cbn.
    by apply (J id j a).
  - split.
    + rewrite Hcbs. cbn. by apply NoDup_cons.
    + intros a' info' j b conn' Ha' Hin'. apply Hin in Ha' as [[-> ->]|Ha']; [|by eapply La]. cbn in Hin'.
      apply elem_of_app in Hin' as [Hin'|[=]%list_elem_of_singleton].
      exact (La a info j b conn' Ha Hin').
Qed.

(** What a stream finds once it is set up: the snapshot was sent, and the
    callback is in place. *)
Definition streaming conn s s' id : Prop :=
  ∃ n t t0 push, openable id t (bump n s) ∧
    (sv_tasks s !! id = Some t0 ∨ t = t0 ∧ tk_status t = status_new Submitted) ∧
    s' = opened id t (StreamCb id false conn) push (emit conn (EvTask t0) (bump n s)).
Definition stream_begun conn s (u : option TaskUpdater) s' : Prop :=
  cf_executor cfg = true ∧ ∃ id, streaming conn s s' id ∧ u = Some (updater_new id (get_context_id id s')).
Definition stream_not_begun conn s s' : Prop :=
  (∃ n, s' = bump n s) ∨ cf_executor cfg = false ∧ ∃ id, streaming conn s s' id.

Lemma setup_wp conn s id n t t0 push :
  openable id t (bump n s) → (sv_tasks s !! id = Some t0 ∨ t = t0 ∧ tk_status t = status_new Submitted) →
  wp (_ ← op_modify (emit conn (EvTask t0)); setup_streaming cfg id false conn)
    (stream_begun conn s) (stream_not_begun conn s) (taken_up id t push (bump n s)).
Proof.
  intros Hop Ht0. unfold setup_streaming. do 6 wp_op. rewrite (attach_registered id _ s) by done.
  assert (streaming conn s (set_infos (sv_infos s ++ [mkInfo false [StreamCb id false conn]])
    (emit conn (EvTask t0) (taken_up id t push (bump n s)))) id) as Hs by by exists n, t, t0, push.
  destruct (cf_executor cfg) eqn:Hcfg; wp_op.
  - split; [done|]. exists id. split; [exact Hs|done].
  - right. split; [done|]. exists id. exact Hs.
Qed.

Lemma create_stream_wp params c n s :
  server_inv cfg s →
  wp (_ ← op_modify (create_new_task cfg params ("task-" +:+ uuid_at (sv_uuids s)) c);
      created ← op_gets (store_get ("task-" +:+ uuid_at (sv_uuids s)));
      _ ← register ("task-" +:+ uuid_at (sv_uuids s));
      mret (created, "task-" +:+ uuid_at (sv_uuids s)))
    (λ x s2, ∃ t push, x = (Some t, "task-" +:+ uuid_at (sv_uuids s)) ∧
       openable ("task-" +:+ uuid_at (sv_uuids s)) t (bump (S n) s) ∧ tk_status t = status_new Submitted ∧
       s2 = taken_up ("task-" +:+ uuid_at (sv_uuids s)) t push (bump (S n) s)) (λ _, False) (bump (S n) s).
Proof.
  intros Hinv. do 5 wp_op. unfold wp at 1. rewrite register_eq, create_new_eq by done. wp_op.
  unfold store_get. cbn [sv_tasks]. rewrite lookup_insert_eq.
  exists (new_task params ("task-" +:+ uuid_at (sv_uuids s)) c). eexists. split; [reflexivity|].
  split; [by apply new_id_openable|]. split; reflexivity.
Qed.

Lemma begin_stream_wp params conn s :
  server_inv cfg s → wp (begin_stream cfg params conn) (stream_begun conn s) (stream_not_begun conn s) s.
Proof.
  intros Hinv. unfold begin_stream, initialize_streaming_task. do 2 apply wp_bind.
  apply determine_wp; [left; exists 0; by rewrite bump_0|..].
  - apply wp_bind, context_id_wp. intros c _. split.
    + eapply wp_mono; [by apply (create_stream_wp params c 0)| |done].
      intros _ s2 (t & push & -> & Ht & Hst & ->). apply setup_wp; [done|by right].
    + eapply wp_mono; [by apply (create_stream_wp params c 1)| |done].
      intros _ s2 (t & push & -> & Ht & Hst & ->). apply (setup_wp _ s _ 2); [done|by right].
  - intros id t Hne Ht. apply wp_bind, context_id_wp. intros c ->. split; apply wp_bind.
    + eapply wp_mono; [by apply take_existing_wp|..]; [|intros s2 ->; left; exists 0; by rewrite bump_0].
      intros _ s2 (t' & Ht' & ->). wp_op. pose proof (setup_wp conn s id 0 t' t (sv_push s)) as Ha.
      rewrite bump_0 in Ha. apply Ha; [done|by left].
    + eapply wp_mono; [apply take_existing_wp; [by apply bump_good|done..]|..]; [|intros s2 ->; left; by exists 1].
      intros _ s2 (t' & Ht' & ->). wp_op. apply setup_wp; [done|by left].
Qed.

(** * Every step *)

Lemma bumped_callbacks n s : callbacks (bump n s) = callbacks s.
Proof. done. Qed.

Lemma taken_good params conn s id s' : server_inv cfg s → conn_fresh conn s → taken params conn s id s' → good cfg s s'.
Proof.
  intros Hinv [Hc Hl] (n & t & push & Hop & ->). eapply good_trans; [by apply (bump_good n)|]. intros Hinv'.
  apply opened_good; try done. intros b conn' [= _ <-]. by apply (events_of_unused conn s).
Qed.

Lemma streaming_good conn s id s' : server_inv cfg s → conn_fresh conn s → streaming conn s s' id → good cfg s s'.
Proof.
  intros Hinv [Hc Hl] (n & t & t0 & push & Hop & _ & ->). eapply good_trans; [by apply (bump_good n)|]. intros Hinv'.
  eapply good_trans; [by apply (emit_fresh_good conn (EvTask t0))|]. intros Hinv2. by apply opened_good.
Qed.

Lemma on_set_push_eq c s : ∃ push, (on_set_task_push_notification_config cfg c s).2 = set_push push s.
Proof.
  unfold on_set_task_push_notification_config, push_config_store_or_err, require_task, load_task, mbind, op_bind, op_gets.
  destruct (cf_push_store cfg); cbn; [|by exists (sv_push s); destruct s].
  destruct (store_get _ s); cbn; [by eexists|by exists (sv_push s); destruct s].
Qed.
Lemma on_delete_push_eq c s : ∃ push, (on_delete_task_push_notification_config cfg c s).2 = set_push push s.
Proof.
  unfold on_delete_task_push_notification_config, push_config_store_or_err, require_task, load_task, mbind, op_bind, op_gets.
  assert (∃ push, s = set_push push s) as Hs by by exists (sv_push s); destruct s.
  destruct (cf_push_store cfg); cbn; [|done]. destruct (store_get _ s); cbn; [|done].
  unfold delete_info. destruct (sv_push s !! _); [|done]. destruct (remove_first _ _); by eexists.
Qed.

Lemma cancel_alone_good params ex s :
  cf_executor cfg = false → server_inv cfg s → good cfg s (on_cancel_task cfg params ex s).2.
Proof.
  intros Hcfg Hinv. unfold on_cancel_task, begin_cancel, load_task, mbind, op_bind, op_gets. rewrite Hcfg.
  destruct (store_get (ip_id params) s) as [t|] eqn:Ht; cbn; [|by apply good_refl].
  destruct (is_final _) eqn:Hf; cbn; [by apply good_refl|]. destruct Hinv as [K I E L J].
  pose proof (K _ _ Ht) as Hid. split; [split|].
  - intros j tj Hj. cbn in Hj. rewrite Hid in Hj. apply lookup_insert_Some in Hj as [[<- <-]|[_ Hj]]; [done|by apply K].
  - intros j [tj Hj]. cbn in Hj. rewrite Hid in Hj. apply I.
    apply lookup_insert_Some in Hj as [[<- _]|[_ Hj]]; [by eexists|by eexists].
  - intros j a Hj. destruct (E j a Hj) as (Hi & t0 & Ht0 & _). split; [done|]. cbn. rewrite Hid.
    destruct (decide (ip_id params = j)) as [<-|Hne]; [rewrite lookup_insert_eq|rewrite lookup_insert_ne by done];
      eexists; (split; [done|congruence]).
  - by apply (log_inv_same s).
  - exact J.
  - split; [|done]. intros j tj Hj. cbn. rewrite Hid. destruct (decide (ip_id params = j)) as [<-|Hne].
    + rewrite lookup_insert_eq. eexists. split; [done|]. unfold store_get in Ht. assert (tj = t) as -> by congruence.
      unfold task_final. rewrite Hf. done.
    + rewrite lookup_insert_ne by done. by exists tj.
Qed.

Lemma resubscribe_good params conn s :
  server_inv cfg s → conn_fresh conn s → good cfg s (on_resubscribe_to_task cfg params conn s).2.
Proof.
  intros Hinv [Hc Hl]. unfold on_resubscribe_to_task, load_task, setup_streaming, mbind, op_bind, op_gets, op_modify.
  destruct (store_get (ip_id params) s) as [t|]; cbn; [|by apply good_refl].
  eapply good_trans; [by apply (emit_fresh_good conn (EvTask t))|]. intros Hinv'.
  destruct (is_final_or_interrupted _); cbn; [by apply good_refl|by apply add_stream_good].
Qed.

Lemma server_step_good s s' : server_step cfg s s' → server_inv cfg s → good cfg s s'.
Proof.
  intros [params conn s1 Hc|params conn s1 Hc|params conn s1 Hc|c u s1 Hcfg|id s1|params task s1 Hcfg [t Ht]|params ex s1 Hcfg|c s1|c s1] Hinv.
  - eapply (wp_state (begin_send cfg params conn) (good cfg s1)), wp_mono; [by apply begin_send_wp|..].
    + intros r s2 (_ & Ht & _). by eapply taken_good.
    + intros s2 [[n ->]|(_ & id & Ht)]; [by apply bump_good|by eapply taken_good].
  - eapply (wp_state (begin_stream cfg params conn) (good cfg s1)), wp_mono; [by apply begin_stream_wp|..].
    + intros r s2 (_ & id & Ht & _). by eapply streaming_good.
    + intros s2 [[n ->]|(_ & id & Ht)]; [by apply bump_good|by eapply streaming_good].
  - by apply resubscribe_good.
  - by apply updater_call_good.
  - unfold send_push_notification_if_needed. destruct (_ && _); [|by apply good_refl].
    destruct (store_get id s1); [by apply tick_good|by apply good_refl].
  - unfold end_cancel. rewrite Ht. cbn [default from_option]. unfold Datatypes.id.
    pose proof (cancel_task_good cfg (ip_id params) t s1 Hcfg Hinv Ht). by destruct (cancel_task t s1).
  - by apply cancel_alone_good.
  - destruct (on_set_push_eq c s1) as [push ->]. by apply tick_good.
  - destruct (on_delete_push_eq c s1) as [push ->]. by apply tick_good.
Qed.

Lemma empty_server_inv : server_inv cfg empty_server.
Proof.
  split; try done.
  - intros id [t Ht]. done.
  - split; [constructor|]. intros a info id b conn Ha. done.
Qed.

Lemma server_steps_good s s' : rtc (server_step cfg) s s' → server_inv cfg s → good cfg s s'.
Proof.
  induction 1 as [|s1 s2 s3 H12 _ IH]; intros Hinv; [by apply good_refl|].
  eapply good_trans; [by eapply server_step_good|done].
Qed.
Lemma server_reachable_inv s : server_reachable cfg s → server_inv cfg s.
Proof. intros Hr. by apply (server_steps_good _ _ Hr), empty_server_inv. Qed.
End facts.
