(* ===== verification/A2AAnswers.v ===== *)
(** What the callers of an A2A server get: final tasks that stay as they are,
    one answer per [message/send], and which one. *)
From S2P Require Import Prelude OpMonad RustMap RustStr Json A2AData A2ATasks A2AHandler A2AServerReach A2AServerFacts.

(** The calls that end a request: a final or interrupted state, a message. *)
Definition closing (c : UpdaterCall) : bool :=
  match c with
  | UpdateStatus state _ _ _ => is_final_or_interrupted state
  | SendResponseMessage _ => true
  | AddArtifact _ | NewAgentMessage _ _ => false
  end.
(** The calls that make an event. *)
Definition eventful (c : UpdaterCall) : bool := match c with NewAgentMessage _ _ => false | _ => true end.

Section answers.
Context `{!A2AEnv} (cfg : HandlerConfig) (Hfresh : uuids_fresh).
Implicit Types (s : ServerState) (t : Task) (id : string) (u : TaskUpdater).

(** * One call of the updater of a registered task *)

(** The request [conn] listens to the task of the updater, alone. *)
Record listening id cb (sent : bool) u s : Prop := {
  lis_task : ∃ t, sv_tasks s !! id = Some t ∧ tk_id t = id;
  lis_info : ∃ a, sv_exec s !! id = Some a ∧ sv_infos s !! a = Some (mkInfo sent [cb]);
  lis_updater : up_task_id u = id ∧ up_terminal u = false;
  lis_cb : cb_task cb = id
}.

(** Nobody listens: calls change neither tasks nor log. *)
Lemma process_silent id ev s : sv_exec s !! id = None → process id ev s = s.
Proof. unfold process. by intros ->. Qed.
Lemma call_silent c u s :
  sv_exec s !! up_task_id u = None → let '(u', s') := updater_call c u s in
  up_task_id u' = up_task_id u ∧ sv_exec s' = sv_exec s ∧ sv_tasks s' = sv_tasks s ∧ sv_log s' = sv_log s.
Proof.
  intros Hex. destruct c as [st m ts md|param|m|ps md]; cbn [updater_call].
  - unfold update_status. destruct (up_terminal u); [done|].
    destruct (is_final st), ts; cbn; by rewrite process_silent.
  - unfold add_artifact. destruct (up_terminal u); [done|]. destruct (ap_artifact_id param); cbn; by rewrite process_silent.
  - unfold send_response_message. cbn. by rewrite process_silent.
  - done.
Qed.
Lemma calls_silent cs u s :
  sv_exec s !! up_task_id u = None → let s' := (updater_calls cs u s).2 in
  sv_tasks s' = sv_tasks s ∧ sv_log s' = sv_log s.
Proof.
  unfold updater_calls. revert u s. induction cs as [|c cs IH]; intros u s Hex; [done|]. cbn.
  pose proof (call_silent c u s Hex) as Hc. destruct (updater_call c u s) as [u' s']. destruct Hc as (Hu & He & Ht & Hl).
  destruct (IH u' s') as [Ht' Hl']; [by rewrite He, Hu|]. cbn in Ht', Hl'. by rewrite Ht', Hl'.
Qed.

(** The event of a call, for an updater whose task is not ended. *)
Definition call_event (c : UpdaterCall) u s : option StreamEvent :=
  match c with
  | UpdateStatus state m ts md =>
      Some (EvStatusUpdate (mkStatusUpdate (up_context_id u) md
        (mkTaskStatus m state (Some (default (timestamp_at (sv_clock s)) ts))) (up_task_id u)))
  | AddArtifact p =>
      Some (EvArtifactUpdate (mkArtifactUpdate (Some (ap_append p))
        (mkArtifact (default (uuid_at (sv_uuids s)) (ap_artifact_id p)) None (Some (ap_extensions p)) (ap_metadata p)
           (ap_name p) (ap_parts p))
        (up_context_id u) (Some (ap_last_chunk p)) (ap_metadata p) (up_task_id u) None))
  | SendResponseMessage m => Some (EvMessage m)
  | NewAgentMessage _ _ => None
  end.
(** The clocks and ids a call draws. *)
Definition call_drawn (c : UpdaterCall) s : ServerState :=
  match c with
  | UpdateStatus _ _ None _ => (get_current_timestamp s).2
  | AddArtifact p => match ap_artifact_id p with None => (generate_uuid s).2 | Some _ => s end
  | NewAgentMessage _ _ => (generate_uuid s).2
  | _ => s
  end.
Definition call_terminal (c : UpdaterCall) u : TaskUpdater :=
  match c with
  | UpdateStatus state _ _ _ => if is_final state then set_terminal u else u
  | SendResponseMessage _ => set_terminal u
  | _ => u
  end.

Lemma updater_call_eq c u s :
  up_terminal u = false →
  updater_call c u s =
    (call_terminal c u, match call_event c u s with Some ev => process (up_task_id u) ev (call_drawn c s) | None => call_drawn c s end).
Proof.
  intros Hu. destruct c as [st m [ts|] md|param|m|ps md]; cbn [updater_call call_event call_drawn call_terminal].
  - unfold update_status. rewrite Hu. cbn. by destruct (is_final st).
  - unfold update_status. rewrite Hu. cbn. by destruct (is_final st).
  - unfold add_artifact. rewrite Hu. by destruct (ap_artifact_id param).
  - done.
  - done.
Qed.

Lemma call_event_own c u s ev : call_event c u s = Some ev → own_event (up_task_id u) ev.
Proof. destruct c; cbn; intros [= <-]; done. Qed.
Lemma call_event_closing c u s ev : call_event c u s = Some ev → is_final_event ev = closing c.
Proof. destruct c; cbn; intros [= <-]; done. Qed.
Lemma call_eventful c u s : eventful c = true ↔ is_Some (call_event c u s).
Proof. destruct c; cbn; split; try done; by intros [? ?]. Qed.

Lemma listening_drawn id cb sent u s c : listening id cb sent u s → listening id cb sent u (call_drawn c s).
Proof. intros [T I U C]. destruct c as [? ? [] ?|p| |]; try (by split). cbn. destruct (ap_artifact_id p); by split. Qed.

(** What a call leaves of the updater and of the registration. *)
Lemma closing_terminal c u : closing c = false → call_terminal c u = u.
Proof. destruct c as [st m ts md|p|m|ps md]; cbn; try done. unfold is_final_or_interrupted. by destruct (is_final st). Qed.

(** ** The callback of [message/send] *)

(** The answer to an event that ends a request. *)
Definition answer_of (ev : StreamEvent) t : StreamEvent := match ev with EvMessage _ => ev | _ => EvTask t end.
(** The task it leaves: a message completes it. *)
Definition closed_task (ev : StreamEvent) t : Task := match ev with EvMessage _ => with_state Completed t | _ => event_task ev t end.

Lemma answer_once_sent id a b conn sent e s :
  sv_exec s !! id = Some a → sv_infos s !! a = Some (mkInfo sent [SendCb id b conn]) →
  let s' := answer_once id conn e s in
  sv_tasks s' = sv_tasks s ∧ sv_exec s' = sv_exec s ∧
  events_of conn s' = events_of conn s ++ (if sent then [] else [e]) ∧
  sv_infos s' !! a = Some (mkInfo true [SendCb id b conn]).
Proof.
  intros Hex Ha. cbv zeta. split; [apply answer_tasks|].
  split; [apply (touches_exec id), touches_answer|].
  unfold answer_once, exchange_message_sent. rewrite Hex, Ha. cbn [message_sent event_cb].
  assert (<[a:=mkInfo true [SendCb id b conn]]> (sv_infos s) !! a = Some (mkInfo true [SendCb id b conn])) as Hi
    by by rewrite list_lookup_insert_eq by (by eapply lookup_lt_Some).
  destruct sent; [by rewrite app_nil_r|]. split; [|done]. by rewrite events_of_emit, decide_True.
Qed.

Lemma saved_event id ev t s :
  own_event id ev → sv_tasks s !! id = Some t → tk_id t = id → let s1 := save_task_event ev s in
  sv_tasks s1 = <[id := event_task ev t]> (sv_tasks s) ∧ sv_infos s1 = sv_infos s ∧ sv_log s1 = sv_log s ∧
  sv_exec s1 = sv_exec s ∧ tk_id (event_task ev t) = id.
Proof.
  intros Hev Ht Hid. destruct (save_task_event_eq id ev t s Hev Ht Hid) as [Htasks _]. split; [done|].
  destruct ev; cbn [own_event] in Hev; try done; cbn [save_task_event event_task]; unfold ensure_task, store_get;
    by rewrite ?Hev, ?Ht, ?apply_status_id.
Qed.

Lemma process_send id b conn sent u s ev t :
  listening id (SendCb id b conn) sent u s → own_event id ev → sv_tasks s !! id = Some t →
  let s' := process id ev s in let t' := closed_task ev t in
  sv_tasks s' !! id = Some t' ∧
  events_of conn s' = events_of conn s ++ (if (is_final_event ev || negb b) && negb sent then [answer_of ev t'] else []) ∧
  (if is_final_event ev then sv_exec s' !! id = None else listening id (SendCb id b conn) (sent || negb b) u s').
Proof.
  intros [(t0 & Ht0 & Hid) (a & Hex & Ha) Hu Hcb] Hev Ht. assert (t0 = t) as -> by congruence.
  destruct (saved_event id ev t s Hev Ht Hid) as (Htasks & Hinfos & Hlog & Hexec & Hid').
  cbv zeta. unfold process, process_found. rewrite Hex. set (s1 := save_task_event ev s) in *.
  assert (events_of conn s1 = events_of conn s) as Hev1 by (unfold events_of; by rewrite Hlog).
  unfold run_callbacks. rewrite Hinfos, Ha. cbn [fmap option_fmap option_map event_cb default from_option]. unfold Datatypes.id.
  cbn [foldl run_callback]. unfold get_task, store_get. rewrite Htasks, lookup_insert_eq.
  destruct (is_message ev) eqn:Hm.
  - destruct ev as [|m| |]; try done. cbn [is_final_event closed_task event_task answer_of orb andb].
    destruct (answer_once_sent id a b conn sent (EvMessage m) (save_task (with_state Completed t) s1)) as (Hst & Hse & Hlg & _);
      [by rewrite <-Hexec in Hex|by rewrite <-Hinfos in Ha|].
    split_and!; [|unfold events_of in *; cbn [sv_log unregister set_exec]; rewrite Hlg; cbn [sv_log save_task store_save set_tasks];
      rewrite Hlog; by destruct sent|by cbn; rewrite lookup_delete_eq].
    change (sv_tasks (answer_once id conn (EvMessage m) (save_task (with_state Completed t) s1)) !! id = Some (with_state Completed t)).
    rewrite Hst. cbn. rewrite Hid. by rewrite lookup_insert_eq.
  - assert (closed_task ev t = event_task ev t ∧ answer_of ev (event_task ev t) = EvTask (event_task ev t)) as [-> ->] by (by destruct ev).
    replace (match ev with EvMessage _ => _ | _ => _ end) with
      (if is_final_event ev || negb b then answer_once id conn (EvTask (event_task ev t)) s1 else s1) by (by destruct ev).
    destruct (answer_once_sent id a b conn sent (EvTask (event_task ev t)) s1) as (Hst & Hse & Hlg & Hi);
      [by rewrite Hexec|by rewrite Hinfos|]. rewrite Htasks in Hst. rewrite Hev1 in Hlg. rewrite Hexec in Hse.
    destruct (is_final_event ev); cbn [orb andb].
    + split_and!; [cbn; by rewrite Hst, lookup_insert_eq|by destruct sent|by cbn; rewrite lookup_delete_eq].
    + destruct b; cbn [negb orb andb].
      * rewrite Htasks, lookup_insert_eq, Hev1, app_nil_r, orb_false_r. split_and!; [done..|].
        split; [exists (event_task ev t); by rewrite Htasks, lookup_insert_eq|exists a; by rewrite Hexec, Hinfos|done|done].
      * rewrite Hst, lookup_insert_eq, orb_true_r. split_and!; [done|by destruct sent|].
        split; [exists (event_task ev t); by rewrite Hst, lookup_insert_eq|exists a; by rewrite Hse|done|done].
Qed.

(** * Runs of calls *)

Lemma updater_calls_app cs cs' u s :
  updater_calls (cs ++ cs') u s = updater_calls cs' (updater_calls cs u s).1 (updater_calls cs u s).2.
Proof. unfold updater_calls. rewrite foldl_app. by destruct (foldl _ (u, s) cs). Qed.
Lemma updater_calls_cons c cs u s :
  updater_calls (c :: cs) u s = updater_calls cs (updater_call c u s).1 (updater_call c u s).2.
Proof. unfold updater_calls. cbn. by destruct (updater_call c u s). Qed.

Lemma drawn_log c s : sv_log (call_drawn c s) = sv_log s ∧ sv_tasks (call_drawn c s) = sv_tasks s ∧ sv_exec (call_drawn c s) = sv_exec s.
Proof. destruct c as [? ? [] ?|p| |]; try done. cbn. by destruct (ap_artifact_id p). Qed.

(** One call of a request that listens. *)
Lemma call_send id b conn sent u s c t ev :
  listening id (SendCb id b conn) sent u s → sv_tasks s !! id = Some t → call_event c u s = Some ev →
  let '(u', s') := updater_call c u s in let t' := closed_task ev t in
  up_task_id u' = id ∧ sv_tasks s' !! id = Some t' ∧
  events_of conn s' = events_of conn s ++ (if (closing c || negb b) && negb sent then [answer_of ev t'] else []) ∧
  (if closing c then sv_exec s' !! id = None else listening id (SendCb id b conn) (sent || negb b) u' s').
Proof.
  intros Hlis Ht Hev. destruct (lis_updater _ _ _ _ _ Hlis) as [Hu Hterm]. rewrite updater_call_eq, Hev by done.
  pose proof (call_event_own c u s ev Hev) as Hown. rewrite Hu in Hown |- *.
  destruct (drawn_log c s) as (Hl & Htk & He).
  destruct (process_send id b conn sent u (call_drawn c s) ev t (listening_drawn _ _ _ _ _ c Hlis) Hown) as (Ht' & Hev' & Hlis');
    [by rewrite Htk|]. rewrite (call_event_closing c u s ev Hev) in Hev', Hlis'. split_and!.
  - by destruct c as [st m ts md|p|m|ps md]; cbn; [destruct (is_final st)|..].
  - done.
  - rewrite Hev'. unfold events_of. by rewrite Hl.
  - destruct (closing c) eqn:Hc; [done|]. rewrite closing_terminal by done. exact Hlis'.
Qed.

Lemma call_quiet id cb sent u s c :
  listening id cb sent u s → call_event c u s = None →
  let '(u', s') := updater_call c u s in
  listening id cb sent u' s' ∧ sv_log s' = sv_log s ∧ sv_tasks s' = sv_tasks s.
Proof.
  intros Hlis Hev. destruct (lis_updater _ _ _ _ _ Hlis) as [Hu Hterm]. rewrite updater_call_eq, Hev by done.
  destruct (drawn_log c s) as (Hl & Htk & He). split_and!; [|done..].
  destruct c; cbn in Hev; try done. by apply (listening_drawn _ _ _ _ _ (NewAgentMessage parts metadata)).
Qed.

(** A blocking request hears nothing before the call that ends it. *)
Lemma blocking_waits id conn cs u s :
  listening id (SendCb id true conn) false u s → Forall (λ c, closing c = false) cs →
  let '(u', s') := updater_calls cs u s in
  listening id (SendCb id true conn) false u' s' ∧ events_of conn s' = events_of conn s.
Proof.
  revert u s. induction cs as [|c cs IH]; intros u s Hlis Hcs; [done|]. apply Forall_cons in Hcs as [Hc Hcs].
  rewrite updater_calls_cons. destruct (lis_task _ _ _ _ _ Hlis) as (t & Ht & _).
  destruct (call_event c u s) as [ev|] eqn:Hev.
  - pose proof (call_send id true conn false u s c t ev Hlis Ht Hev) as Hstep.
    destruct (updater_call c u s) as [u1 s1]. cbn [fst snd]. rewrite Hc in Hstep. destruct Hstep as (_ & _ & He & Hl1).
    cbn in He. rewrite app_nil_r in He. specialize (IH u1 s1 Hl1 Hcs). destruct (updater_calls cs u1 s1). by rewrite <-He.
  - pose proof (call_quiet id _ false u s c Hlis Hev) as Hstep. destruct (updater_call c u s) as [u1 s1]. cbn [fst snd].
    destruct Hstep as (Hl1 & Hlog & _). specialize (IH u1 s1 Hl1 Hcs). destruct (updater_calls cs u1 s1).
    unfold events_of in *. by rewrite <-Hlog.
Qed.

(** The answer to a call that ends a request. *)
Lemma answer_of_call c u s ev t :
  call_event c u s = Some ev → answer_of ev t = match c with SendResponseMessage m => EvMessage m | _ => EvTask t end.
Proof. intros Hev. by destruct c; cbn in Hev; simplify_eq. Qed.

Lemma closing_answer id conn pre c post u s :
  listening id (SendCb id true conn) false u s → Forall (λ c, closing c = false) pre → closing c = true →
  let s2 := (updater_calls (pre ++ [c]) u s).2 in let s3 := (updater_calls (pre ++ c :: post) u s).2 in
  ∃ t, sv_tasks s2 !! id = Some t ∧ sv_tasks s3 = sv_tasks s2 ∧
    events_of conn s3 = events_of conn s ++ [match c with SendResponseMessage m => EvMessage m | _ => EvTask t end].
Proof.
  intros Hlis Hpre Hclo. cbv zeta. rewrite !updater_calls_app, !updater_calls_cons.
  pose proof (blocking_waits id conn pre u s Hlis Hpre) as Hw. destruct (updater_calls pre u s) as [u2 s2]. cbn [fst snd].
  destruct Hw as [Hl2 He2]. destruct (lis_task _ _ _ _ _ Hl2) as (t & Ht & _).
  destruct (proj1 (call_eventful c u2 s2)) as [ev Hev]; [by destruct c|].
  pose proof (call_send id true conn false u2 s2 c t ev Hl2 Ht Hev) as Hstep. destruct (updater_call c u2 s2) as [u3 s3]. cbn [fst snd].
  destruct Hstep as (Hu3 & Ht3 & He3 & Hex3). rewrite Hclo in He3, Hex3. destruct (calls_silent post u3 s3) as [Htk Hlog]; [by rewrite Hu3|].
  exists (closed_task ev t). split; [exact Ht3|]. split; [exact Htk|].
  rewrite <-(answer_of_call c u2 s2 ev _ Hev). unfold events_of at 1. rewrite Hlog. fold (events_of conn s3). by rewrite He3, He2.
Qed.

(** Before its first event a request hears nothing. *)
Lemma quiet_calls id cb sent conn cs u s :
  listening id cb sent u s → Forall (λ c, eventful c = false) cs →
  let '(u', s') := updater_calls cs u s in listening id cb sent u' s' ∧ events_of conn s' = events_of conn s.
Proof.
  revert u s. induction cs as [|c cs IH]; intros u s Hlis Hcs; [done|]. apply Forall_cons in Hcs as [Hc Hcs].
  rewrite updater_calls_cons. assert (call_event c u s = None) as Hev by (by destruct c).
  pose proof (call_quiet id _ sent u s c Hlis Hev) as Hstep. destruct (updater_call c u s) as [u1 s1]. cbn [fst snd].
  destruct Hstep as (Hl1 & Hlog & _). specialize (IH u1 s1 Hl1 Hcs). destruct (updater_calls cs u1 s1).
  unfold events_of in *. by rewrite <-Hlog.
Qed.

(** Once answered, a request hears nothing more. *)
Lemma answered_calls id b conn cs u s :
  listening id (SendCb id b conn) true u s → events_of conn (updater_calls cs u s).2 = events_of conn s.
Proof.
  revert u s. induction cs as [|c cs IH]; intros u s Hlis; [done|].
  rewrite updater_calls_cons. destruct (lis_task _ _ _ _ _ Hlis) as (t & Ht & _).
  destruct (call_event c u s) as [ev|] eqn:Hev.
  - pose proof (call_send id b conn true u s c t ev Hlis Ht Hev) as Hstep.
    destruct (updater_call c u s) as [u1 s1]. cbn [fst snd]. destruct Hstep as (Hu & _ & He & Hl1).
    rewrite andb_false_r, app_nil_r in He. destruct (closing c).
    + destruct (calls_silent cs u1 s1) as [_ Hlog]; [by rewrite Hu|]. unfold events_of in *. by rewrite Hlog.
    + rewrite IH by exact Hl1. done.
  - pose proof (call_quiet id _ true u s c Hlis Hev) as Hstep. destruct (updater_call c u s) as [u1 s1]. cbn [fst snd].
    destruct Hstep as (Hl1 & Hlog & _). rewrite IH by exact Hl1. unfold events_of. by rewrite Hlog.
Qed.

(** What [message/send] leaves for its executor. *)
Lemma sent_listening params conn s r s1 :
  server_inv cfg s → conn_fresh conn s → begin_send cfg params conn s = (Ok r, s1) →
  listening r.1 (SendCb r.1 (blocking params) conn) false r.2 s1 ∧ events_of conn s1 = [].
Proof.
  intros Hinv Hc Hb. destruct (wp_Ok _ _ _ _ _ _ (begin_send_wp cfg Hfresh params conn s Hinv) Hb) as (_ & Ht & Hu).
  clear Hinv.
  destruct Ht as (n & t & push & (_ & Hid & _ & _) & ->). destruct r as [id u]. cbn [fst snd] in *. split.
  - split; [exists t; cbn; by rewrite lookup_insert_eq| |by rewrite Hu|done].
    exists (length (sv_infos s)). cbn. rewrite lookup_insert_eq. by rewrite lookup_app_r, Nat.sub_diag.
  - by apply (events_of_unused conn s), Hc.
Qed.

(** * A task that ends while it is taken up *)

(** The locks of a [message/send] are taken one after the other: when the task
    it continues was loaded, other threads may do anything before it is
    registered again, end the task for instance.  What was loaded is then
    saved and registered over what they left. *)
Theorem raced_send_revives other params conn s t id :
  cf_executor cfg = true → msg_task_id (sp_message params) = Some id → id ≠ "" →
  (∀ c, msg_context_id (sp_message params) = Some c → c = tk_context_id t) →
  sv_tasks s !! id = Some t → tk_id t = id → ¬ task_final t →
  ∃ s', begin_send_amid cfg other params conn s = (Ok (id, updater_new id (tk_context_id t)), s') ∧
    sv_tasks s' = <[id := (update_with_message (sp_message params) t s).1]> (sv_tasks (other s)) ∧
    (∀ t', sv_tasks s' !! id = Some t' → ts_state (tk_status t') = ts_state (tk_status t)) ∧
    is_Some (task_info id s').
Proof.
  intros Hcfg Hm Hne Hctx Ht Hid Hnf. unfold begin_send_amid, determine_task_id, mbind, op_bind, op_gets, store_get.
  rewrite Hm. replace (str_is_empty id) with false by (by destruct id). rewrite Ht.
  assert (match msg_context_id (sp_message params) with
    | Some cid => if negb (str_is_empty cid) && negb (bool_decide (tk_context_id t = cid))
        then op_fail (server_error_from_code "Existing task contextId does not match requested contextId" JsonrpcInvalidRequest)
        else mret (id, Some t)
    | None => mret (id, Some t) end = (mret (id, Some t) : Handler (string * option Task))) as ->.
  { destruct (msg_context_id _) as [c|]; [|done]. rewrite (Hctx c eq_refl). rewrite bool_decide_true by done. by rewrite andb_false_r. }
  destruct (is_final (ts_state (tk_status t))) eqn:Hf; [done|].
  unfold mret, op_ret, context_id_of, take_up_task, mbind, op_bind, op_modify. rewrite Hf. cbn [mret op_ret]. rewrite register_eq by done. cbv beta iota.
  set (s1 := (update_with_message _ t _).2). rewrite (exchange_registered id (other s)), (attach_registered id _ (other s)) by done.
  assert (get_context_id id s1 = tk_context_id t) as ->.
  { unfold get_context_id, store_get, s1. cbn. rewrite flush_id, Hid, lookup_insert_eq. cbn. apply flush_context. }
  rewrite Hcfg. eexists. split; [reflexivity|]. cbn. rewrite flush_id, Hid. split; [done|]. split.
  - intros t'. rewrite lookup_insert_eq. intros [= <-]. cbn. apply flush_state.
  - unfold task_info. cbn. rewrite lookup_insert_eq. cbn. rewrite lookup_app_r, Nat.sub_diag by done. by eexists.
Qed.

(** Nor does an event of a registered task look again at the task's state
    once it has the lock: one that waited for it while another event ended the
    task is applied to the final task. *)
Lemma late_event_revives id a e s t :
  sv_tasks s !! id = Some t → tk_id t = id → su_task_id e = id →
  sv_tasks (process_found id a (EvStatusUpdate e) s) !! id = Some (apply_status e t).
Proof.
  intros Ht Hid He. unfold process_found. destruct (saved_event id (EvStatusUpdate e) t s He Ht Hid) as (Htasks & _).
  assert (sv_tasks (run_callbacks a (EvStatusUpdate e) (save_task_event (EvStatusUpdate e) s)) !! id = Some (apply_status e t)) as Hr.
  { unfold run_callbacks. rewrite run_callbacks_tasks by done. by rewrite Htasks, lookup_insert_eq. }
  by destruct (is_final_event _).
Qed.

(** * Theorems *)

(** C11: In any order of any calls, executors of other requests included, a
    task that is final stays exactly as it is. *)
Theorem final_task_frozen s s' id t :
  server_reachable cfg s → rtc (server_step cfg) s s' → sv_tasks s !! id = Some t → task_final t →
  sv_tasks s' !! id = Some t.
Proof.
  intros Hr Hs Ht Hf. destruct (server_steps_good cfg Hfresh s s' Hs) as [_ [Hfr _]]; [by apply server_reachable_inv|].
  destruct (Hfr id t Ht) as (t' & ? & Heq). by rewrite <-(Heq Hf).
Qed.

(** C12: In any order of any calls, a [message/send] is answered at most once,
    with a task or a message. *)
Theorem send_answered_once params conn s r s1 s2 :
  server_reachable cfg s → conn_fresh conn s → begin_send cfg params conn s = (Ok r, s1) → rtc (server_step cfg) s1 s2 →
  length (events_of conn s2) ≤ 1 ∧ Forall is_answer (events_of conn s2).
Proof.
  intros Hr Hc Hb Hs. pose proof (server_reachable_inv cfg Hfresh s Hr) as Hinv.
  destruct (sent_listening params conn s r s1 Hinv Hc Hb) as [[_ (a & _ & Ha) _ _] _].
  assert (server_inv cfg s1) as Hinv1.
  { replace s1 with (begin_send cfg params conn s).2 by (by rewrite Hb). eapply server_step_good; [done|by constructor|done]. }
  destruct (server_steps_good cfg Hfresh s1 s2 Hs Hinv1) as [Hinv2 [_ Hcbs]].
  assert (SendCb r.1 (blocking params) conn ∈ callbacks s2) as Hin.
  { apply Hcbs, list_elem_of_join. eexists. split; [by left|]. apply list_elem_of_fmap. eexists (mkInfo false _).
    split; [reflexivity|]. by eapply list_elem_of_lookup_2. }
  apply list_elem_of_join in Hin as (l & Hin & Hl). apply list_elem_of_fmap in Hl as (info & -> & Hinfo).
  apply list_elem_of_lookup in Hinfo as [a' Ha']. destruct (log_answers s2 (inv_log cfg s2 Hinv2) _ _ _ _ _ Ha' Hin) as (? & ? & _). done.
Qed.

Lemma blocking_spec params (rao := sp_configuration params ≫= sc_return_immediately) :
  (rao ≠ Some true → blocking params = true) ∧ (rao = Some true → blocking params = false).
Proof.
  subst rao. unfold blocking. destruct (sp_configuration params) as [c|]; [|done]. cbn.
  by destruct (sc_return_immediately c) as [[]|].
Qed.

End answers.
