(* ===== verification/A2AServer.v ===== *)
(** The A2A server around the request handler: server/jsonrpc_handler.rs,
    server/server_impl.rs, server/emitter.rs and the two request paths of
    server/http_transport.rs.

    A request is served as a whole, with the execution its executor makes; what
    the handler emits on the request's connection is then written by the
    emitter closure of the request, which only writes.  The JSON text layer of
    serde_json is the interface [A2AText]; the agent card is a parameter: its
    JSON and whether it announces streaming.  Sockets, headers and the axum
    router are left out.

    What the HTTP paths of an A2A server write: the chunks of a stream, the
    answer of a [message/send], and one answer with its id for every other
    request. *)
From S2P Require Import Prelude OpMonad RustMap RustStr Json Sse JsonRpc A2AData A2AWireFacts A2ATasks A2AHandler A2AServerReach A2AServerFacts A2AAnswers.

Record AgentCardView := mkCard { card_streaming : option bool; card_json : JsonResult Value }.

(** * The emitter of a connection *)

(** The ends of the two channels, and what was written to them. *)
Record Emitter := mkEmitter {
  em_streaming : bool; em_chunks : list string;
  em_non_streaming : bool; em_body : option string; em_response_sent : bool
}.
Definition streaming_emitter : Emitter := mkEmitter true [] false None false.
Definition non_streaming_emitter : Emitter := mkEmitter false [] true None false.

Definition write_streaming_data (data : string) (e : Emitter) : Emitter :=
  if em_streaming e then
    mkEmitter true (em_chunks e ++ [to_wire (data_event data)])
      (em_non_streaming e) (em_body e) (em_response_sent e)
  else e.
Definition write_non_streaming_data (data : string) (e : Emitter) : Emitter :=
  if em_response_sent e then e
  else if em_non_streaming e then mkEmitter (em_streaming e) (em_chunks e) false (Some data) true
  else mkEmitter (em_streaming e) (em_chunks e) false (em_body e) true.
Definition write_done (e : Emitter) : Emitter :=
  mkEmitter false (em_chunks e) (em_non_streaming e) (em_body e) (em_response_sent e).

(** * Responses *)

Definition make_error (id : option RequestId) (code : Z) (msg : string) : Response := error id (rpc_error code msg).
Definition success_response {T} `{!WireJson T} (id : option RequestId) (x : T) : JsonResult Response :=
  let? value := to_json_value x in
  Ok {| res_jsonrpc := JSONRPC_VERSION; res_id := id; res_result := Some value; res_error := None |}.

Definition request_id_of (req : Value) : option RequestId := vget "id" req ≫= id_from_value.
Definition params_of {T} `{!WireJson T} (req : Value) : JsonResult T :=
  match vget "params" req with
  | None => Err "key 'params' not found"
  | Some params => from_json_value params
  end.
Definition internal_response (id : option RequestId) (message : string) : Response :=
  make_error id (error_code JsonrpcInternalError) message.
Definition server_error_response (id : option RequestId) (e : A2aServerError) : Response :=
  make_error id (status_code e) (error_message e).
Definition ok_response {T} `{!WireJson T} (id : option RequestId) (x : T) : Response :=
  match success_response id x with Ok r => r | Err e => internal_response id e end.

(** Lists are written item by item; results that are only sent have no reader. *)
#[export] Instance WireJson_list {T} `{!WireJson T} : WireJson (list T) := {
  to_json_value := vec_to_json; from_json_value v := vec_of v ""
}.

Section server.
Context `{!A2AEnv, !A2AText} (cfg : HandlerConfig) (card : AgentCardView).

Definition to_json (r : Response) : string := print_value (response_to_value r).

(** * JSON-RPC handlers *)

(** Reads the params, runs the handler, answers. *)
Definition answer_with {P R} `{!WireJson P} (req : Value) (h : P → Handler R) (answer : option RequestId → R → Response) s :
    Response * ServerState :=
  let id := request_id_of req in
  match params_of req with
  | Err e => (internal_response id e, s)
  | Ok p =>
      match h p s with
      | (Ok r, s) => (answer id r, s)
      | (Err e, s) => (server_error_response id e, s)
      end
  end.

Definition rpc_get_task (req : Value) : ServerState → Response * ServerState :=
  answer_with req on_get_task ok_response.
Definition rpc_cancel_task (req : Value) (ex : Execution) : ServerState → Response * ServerState :=
  answer_with req (λ p, on_cancel_task cfg p ex) ok_response.
Definition rpc_set_push (req : Value) : ServerState → Response * ServerState :=
  answer_with req (λ c, _ ← on_set_task_push_notification_config cfg c; mret c) ok_response.
Definition rpc_get_push (req : Value) : ServerState → Response * ServerState :=
  answer_with req (on_get_task_push_notification_config cfg) ok_response.
Definition rpc_list_push (req : Value) : ServerState → Response * ServerState :=
  answer_with req (on_list_task_push_notification_configs cfg) ok_response.
Definition rpc_delete_push (req : Value) : ServerState → Response * ServerState :=
  answer_with req (on_delete_task_push_notification_config cfg) (λ id _,
    {| res_jsonrpc := JSONRPC_VERSION; res_id := id; res_result := Some JNull; res_error := None |}).
Definition rpc_get_agent_card (req : Value) : Response :=
  let id := request_id_of req in
  match card_json card with
  | Ok v => {| res_jsonrpc := JSONRPC_VERSION; res_id := id; res_result := Some v; res_error := None |}
  | Err e => internal_response id e
  end.

(** [message/send]: a response of its own only for errors. *)
Definition rpc_message_send (req : Value) (conn : nat) (ex : Execution) s : option Response * ServerState :=
  let id := request_id_of req in
  match params_of req with
  | Err e => (Some (internal_response id e), s)
  | Ok p =>
      match on_send_message cfg p conn ex s with
      | (Ok _, s) => (None, s)
      | (Err e, s) => (Some (server_error_response id e), s)
      end
  end.

Definition rpc_message_stream (req : Value) (conn : nat) (ex : Execution) : Handler () := λ s,
  match params_of req with
  | Err e => (Err (server_error_new ("Streaming error: " +:+ e)), s)
  | Ok p => on_send_message_streaming cfg p conn ex s
  end.
Definition rpc_resubscribe (req : Value) (conn : nat) : Handler () := λ s,
  match params_of req with
  | Err e => (Err (server_error_new ("Streaming error: " +:+ e)), s)
  | Ok p => on_resubscribe_to_task cfg p conn s
  end.

(** * The emitter closures *)

Definition stream_emit (id : option RequestId) (e : Emitter) (ev : StreamEvent) : Emitter :=
  let e := match success_response id ev with
           | Ok resp => write_streaming_data (to_json resp) e
           | Err _ => e
           end in
  if is_final_event ev then write_done e else e.

Definition non_stream_emit (id : option RequestId) (e : Emitter) (ev : StreamEvent) : Emitter :=
  let write r := match success_response id r with
                 | Ok resp => write_non_streaming_data (to_json resp) e
                 | Err _ => e
                 end in
  match ev with
  | EvTask t => write (SendTask t)
  | EvMessage m => write (SendMessage m)
  | _ => e
  end.

(** * Requests *)

Definition is_supported_streaming_method (method : string) : bool :=
  bool_decide (method = METHOD_MESSAGE_STREAM) || bool_decide (method = METHOD_TASK_RESUBSCRIBE).
Definition method_of (req : Value) : string := default "" (vget "method" req ≫= as_str).

Definition handle_streaming_request (req : Value) (method : string) (conn : nat) (ex : Execution) (e : Emitter) s :
    Emitter * ServerState :=
  let id := request_id_of req in
  let '(r, s') :=
    if negb (default false (card_streaming card)) then
      (Err (server_error_from_code "Streaming is not supported by the agent" UnsupportedOperation), s)
    else if decide (method = METHOD_MESSAGE_STREAM) then rpc_message_stream req conn ex s
    else if decide (method = METHOD_TASK_RESUBSCRIBE) then rpc_resubscribe req conn s
    else (Err (server_error_from_code ("Unsupported streaming method: " +:+ method) JsonrpcMethodNotFound), s) in
  let e := foldl (stream_emit id) e (events_of conn s') in
  match r with
  | Ok _ => (e, s')
  | Err err => (write_done (write_streaming_data (to_json (server_error_response id err)) e), s')
  end.

(** The text answered directly, if any. *)
Definition process_standard_json_rpc (req : Value) (method : string) (conn : nat) (ex : Execution) (e : Emitter) s :
    option string * Emitter * ServerState :=
  let direct r := (Some (to_json r.1), e, r.2) in
  if decide (method = METHOD_AGENT_CARD_GET) then direct (rpc_get_agent_card req, s)
  else if decide (method = METHOD_MESSAGE_SEND) then
    let '(resp, s') := rpc_message_send req conn ex s in
    (to_json <$> resp, foldl (non_stream_emit (request_id_of req)) e (events_of conn s'), s')
  else if decide (method = METHOD_TASK_GET) then direct (rpc_get_task req s)
  else if decide (method = METHOD_TASK_CANCEL) then direct (rpc_cancel_task req ex s)
  else if decide (method = METHOD_PUSH_SET) then direct (rpc_set_push req s)
  else if decide (method = METHOD_PUSH_GET) then direct (rpc_get_push req s)
  else if decide (method = METHOD_PUSH_LIST) then direct (rpc_list_push req s)
  else if decide (method = METHOD_PUSH_DELETE) then direct (rpc_delete_push req s)
  else direct (make_error (request_id_of req) (error_code JsonrpcMethodNotFound) ("Method not found: " +:+ method), s).

Definition card_request : Value :=
  JObject [("jsonrpc", JString "2.0"); ("method", JString METHOD_AGENT_CARD_GET); ("id", JNumber (PosInt 1))].
Definition handle_non_streaming_request (req : Value) (req_body method : string) (conn : nat) (ex : Execution)
    (e : Emitter) s : option string * Emitter * ServerState :=
  if decide (req_body = "{}") then (Some (to_json (rpc_get_agent_card card_request)), e, s)
  else process_standard_json_rpc req method conn ex e s.

(** [Inner::handle_request]; [started] is the flag of the server. *)
Definition handle_request (started : bool) (req_body : string) (conn : nat) (ex : Execution) (e : Emitter) s :
    option string * Emitter * ServerState :=
  if negb started then (None, e, s)
  else
    match parse_text req_body with
    | Err err =>
        (Some (to_json (make_error None (error_code JsonrpcInternalError) ("Internal error: " +:+ err))), e, s)
    | Ok req =>
        let method := method_of req in
        if is_supported_streaming_method method then
          let '(e, s) := handle_streaming_request req method conn ex e s in (None, e, s)
        else handle_non_streaming_request req req_body method conn ex e s
    end.

(** The two request paths of http_transport.rs: the chunks of a stream, the
    body of an answer ([None] while nothing was written). *)
Definition is_streaming_body (req_body : string) : bool :=
  match parse_text req_body with
  | Err _ => false
  | Ok value => match vget "method" value ≫= as_str with Some m => is_supported_streaming_method m | None => false end
  end.
Definition serve_streaming (started : bool) (req_body : string) (conn : nat) (ex : Execution) s :
    list string * ServerState :=
  let '(_, e, s) := handle_request started req_body conn ex streaming_emitter s in (em_chunks e, s).
Definition serve_non_streaming (started : bool) (req_body : string) (conn : nat) (ex : Execution) s :
    option string * ServerState :=
  let '(r, e, s) := handle_request started req_body conn ex non_streaming_emitter s in
  let e := match r with Some resp => write_non_streaming_data resp e | None => e end in
  (em_body e, s).
End server.

Section served.
Context `{!A2AEnv, !A2AText} (cfg : HandlerConfig) (card : AgentCardView).
Implicit Types (s : ServerState) (t : Task) (u : TaskUpdater) (e : Emitter).

(** * What an emitter writes *)

(** The chunk of an event, when it serializes. *)
Definition chunk_of {T} `{!WireJson T} (rid : option RequestId) (x : T) : option string :=
  match success_response rid x with Ok resp => Some (to_wire (data_event (to_json resp))) | Err _ => None end.
Fixpoint up_to_final (evs : list StreamEvent) : list StreamEvent :=
  match evs with [] => [] | ev :: evs => ev :: if is_final_event ev then [] else up_to_final evs end.

Lemma stream_emit_closed rid e ev :
  em_streaming e = false → em_chunks (stream_emit rid e ev) = em_chunks e ∧ em_streaming (stream_emit rid e ev) = false.
Proof.
  intros He. unfold stream_emit, write_streaming_data, write_done. rewrite He.
  by destruct (success_response rid ev), (is_final_event ev).
Qed.
Lemma stream_emits_closed rid e evs : em_streaming e = false → em_chunks (foldl (stream_emit rid) e evs) = em_chunks e.
Proof.
  revert e. induction evs as [|ev evs IH]; intros e He; [done|]. destruct (stream_emit_closed rid e ev He) as [<- He'].
  by apply IH.
Qed.
Lemma stream_emit_open rid e ev :
  em_streaming e = true →
  em_chunks (stream_emit rid e ev) = em_chunks e ++ option_list (chunk_of rid ev) ∧
  em_streaming (stream_emit rid e ev) = negb (is_final_event ev).
Proof.
  intros He. unfold stream_emit, chunk_of, write_streaming_data, write_done. rewrite He.
  destruct (success_response rid ev), (is_final_event ev); cbn; by rewrite ?app_nil_r, ?He.
Qed.

Lemma stream_emits rid e evs :
  em_streaming e = true → let e' := foldl (stream_emit rid) e evs in
  em_chunks e' = em_chunks e ++ omap (chunk_of rid) (up_to_final evs) ∧
  em_streaming e' = negb (existsb is_final_event evs).
Proof.
  revert e. induction evs as [|ev evs IH]; intros e He; cbn [foldl]; [by cbn; rewrite app_nil_r|].
  destruct (stream_emit_open rid e ev He) as [Hc Hs]. cbn [up_to_final existsb omap list_omap].
  destruct (is_final_event ev); cbn [negb orb] in *.
  - rewrite stream_emits_closed, Hc by done. split; [by destruct (chunk_of rid ev)|].
    clear IH Hc. revert Hs. generalize (stream_emit rid e ev). induction evs as [|ev' evs IH]; intros e' He'; [done|].
    apply IH. by apply stream_emit_closed.
  - destruct (IH _ Hs) as [-> ->]. rewrite Hc, <-app_assoc. split; [|done]. by destruct (chunk_of rid ev).
Qed.

(** * Streams *)

(** The events of a sequence of calls, up to the one that ends the task's turn. *)
Fixpoint call_events (cs : list UpdaterCall) u s : list StreamEvent :=
  match cs with
  | [] => []
  | c :: cs =>
      let next := call_events cs (updater_call c u s).1 (updater_call c u s).2 in
      match call_event c u s with
      | Some ev => ev :: if closing c then [] else next
      | None => next
      end
  end.

Lemma call_events_final cs u s : up_to_final (call_events cs u s) = call_events cs u s.
Proof.
  revert u s. induction cs as [|c cs IH]; intros u s; [done|]. cbn [call_events].
  destruct (call_event c u s) as [ev|] eqn:Hev; [|apply IH]. cbn [up_to_final]. rewrite (call_event_closing c u s ev Hev).
  destruct (closing c); [done|]. by rewrite IH.
Qed.

Lemma process_stream id conn u s ev t :
  listening id (StreamCb id false conn) false u s → own_event id ev → sv_tasks s !! id = Some t →
  let s' := process id ev s in
  events_of conn s' = events_of conn s ++ [ev] ∧ sv_tasks s' !! id = Some (event_task ev t) ∧
  (if is_final_event ev then sv_exec s' !! id = None else listening id (StreamCb id false conn) false u s').
Proof.
  intros [(t0 & Ht0 & Hid) (a & Hex & Ha) Hu Hcb] Hev Ht. assert (t0 = t) as -> by congruence.
  destruct (saved_event id ev t s Hev Ht Hid) as (Htasks & Hinfos & Hlog & Hexec & Hid').
  cbv zeta. unfold process, process_found. rewrite Hex. set (s1 := save_task_event ev s) in *.
  unfold run_callbacks. rewrite Hinfos, Ha. cbn [fmap option_fmap option_map event_cb default from_option]. unfold Datatypes.id.
  cbn [foldl]. set (s2 := run_callback ev s1 (StreamCb id false conn)).
  assert (sv_tasks s2 = sv_tasks s1 ∧ sv_infos s2 = sv_infos s1 ∧ sv_exec s2 = sv_exec s1 ∧ events_of conn s2 = events_of conn s ++ [ev])
    as (Ht2 & Hi2 & He2 & Hl2).
  { assert (events_of conn (emit conn ev s1) = events_of conn s ++ [ev]) as Hem.
    { rewrite events_of_emit, decide_True by done. unfold events_of. by rewrite Hlog. }
    unfold s2. cbn [run_callback]. destruct (push_sender && negb false); [|done]. by destruct (get_task id _). }
  assert (sv_tasks s2 !! id = Some (event_task ev t)) as Ht3 by (by rewrite Ht2, Htasks, lookup_insert_eq).
  destruct (is_final_event ev).
  - split; [exact Hl2|]. split; [exact Ht3|]. cbn. by rewrite lookup_delete_eq.
  - split; [exact Hl2|]. split; [exact Ht3|]. split; [exists (event_task ev t)|exists a|done|done].
    + by rewrite Ht3.
    + by rewrite He2, Hi2, Hexec, Hinfos.
Qed.

Lemma call_stream id conn u s c ev t :
  listening id (StreamCb id false conn) false u s → call_event c u s = Some ev → sv_tasks s !! id = Some t →
  let '(u', s') := updater_call c u s in
  up_task_id u' = id ∧ events_of conn s' = events_of conn s ++ [ev] ∧ sv_tasks s' !! id = Some (event_task ev t) ∧
  (if closing c then sv_exec s' !! id = None else listening id (StreamCb id false conn) false u' s').
Proof.
  intros Hlis Hev Ht. destruct (lis_updater _ _ _ _ _ Hlis) as [Hu Hterm]. rewrite updater_call_eq, Hev by done.
  pose proof (call_event_own c u s ev Hev) as Hown. rewrite Hu in Hown |- *.
  destruct (drawn_log c s) as (Hl & Htk & He).
  destruct (process_stream id conn u (call_drawn c s) ev t) as (Hev' & Ht' & Hlis');
    [by apply listening_drawn|done|by rewrite Htk|]. rewrite (call_event_closing c u s ev Hev) in Hlis'. split_and!.
  - by destruct c as [st m ts md|p|m|ps md]; cbn; [destruct (is_final st)|..].
  - rewrite Hev'. unfold events_of. by rewrite Hl.
  - exact Ht'.
  - destruct (closing c) eqn:Hc; [done|]. by rewrite closing_terminal.
Qed.

Lemma stream_calls id conn cs u s t :
  listening id (StreamCb id false conn) false u s → sv_tasks s !! id = Some t →
  let s' := (updater_calls cs u s).2 in let evs := call_events cs u s in
  events_of conn s' = events_of conn s ++ evs ∧ sv_tasks s' !! id = Some (foldl (λ t ev, event_task ev t) t evs).
Proof.
  revert u s t. induction cs as [|c cs IH]; intros u s t Hlis Ht; [by cbn; rewrite app_nil_r|].
  cbv zeta. rewrite updater_calls_cons. cbn [call_events]. destruct (call_event c u s) as [ev|] eqn:Hev.
  - pose proof (call_stream id conn u s c ev t Hlis Hev Ht) as Hstep. destruct (updater_call c u s) as [u1 s1]. cbn [fst snd].
    destruct Hstep as (Hu & He & Ht1 & Hl1). destruct (closing c).
    + destruct (calls_silent cs u1 s1) as [Htk Hlog]; [by rewrite Hu|]. unfold events_of at 1. rewrite Hlog, Htk. by split.
    + destruct (IH u1 s1 _ Hl1 Ht1) as [-> ->]. rewrite He, <-app_assoc. by split.
  - pose proof (call_quiet id _ false u s c Hlis Hev) as Hstep. destruct (updater_call c u s) as [u1 s1]. cbn [fst snd].
    destruct Hstep as (Hl1 & Hlog & Htk). destruct (IH u1 s1 t Hl1) as [-> ->]; [by rewrite Htk|]. split; [|done].
    unfold events_of. by rewrite Hlog.
Qed.

(** What [message/stream] leaves for its executor: the snapshot was sent. *)
Lemma stream_listening params conn s u s1 (Hfresh : uuids_fresh) :
  server_inv cfg s → conn_fresh conn s → begin_stream cfg params conn s = (Ok (Some u), s1) →
  let id := up_task_id u in listening id (StreamCb id false conn) false u s1 ∧
  ∃ t, events_of conn s1 = [EvTask t] ∧
    (sv_tasks s !! id = Some t ∨ sv_tasks s1 !! id = Some t ∧ tk_status t = status_new Submitted).
Proof.
  intros Hinv Hc Hb. destruct (wp_Ok _ _ _ _ _ _ (begin_stream_wp cfg Hfresh params conn s Hinv) Hb) as (_ & id & Ht & [= ->]).
  clear Hinv. destruct Ht as (n & t & t0 & push & (_ & Hid & _ & _) & Ht0 & ->). cbn [up_task_id updater_new]. split.
  - split; [exists t; cbn; by rewrite lookup_insert_eq| |done|done].
    exists (length (sv_infos s)). cbn. rewrite lookup_insert_eq. by rewrite lookup_app_r, Nat.sub_diag.
  - exists t0. split; [|destruct Ht0 as [?|[-> Hst]]; [by left|right; cbn; by rewrite lookup_insert_eq]].
    destruct Hc as [_ Hl]. change (events_of conn (opened _ _ _ _ _)) with (events_of conn (emit conn (EvTask t0) (bump n s))).
    rewrite events_of_emit, decide_True by done. change (events_of conn (bump n s)) with (events_of conn s).
    by rewrite (events_of_unused conn s Hl).
Qed.

(** The emitter of [message/stream] after its events and its result. *)
Lemma stream_finish rid (r : result () A2aServerError) evs :
  let e := foldl (stream_emit rid) streaming_emitter evs in
  em_chunks (match r with Ok _ => e | Err err => write_done (write_streaming_data (to_json (server_error_response rid err)) e) end) =
  omap (chunk_of rid) (up_to_final evs) ++
  match r with
  | Ok _ => []
  | Err err => if existsb is_final_event evs then [] else [to_wire (data_event (to_json (server_error_response rid err)))]
  end.
Proof.
  cbv zeta. destruct (stream_emits rid streaming_emitter evs eq_refl) as [Hc Hs].
  destruct r as [[]|err]; [by rewrite Hc, app_nil_r|].
  unfold write_done, write_streaming_data. rewrite Hs.
  destruct (existsb is_final_event evs); cbn [negb em_chunks]; rewrite Hc; [by rewrite app_nil_r|done].
Qed.

(** A request for a stream: the snapshot, and what is written. *)
Lemma serve_stream_eq (Hfresh : uuids_fresh) body req params conn ex s u s1 :
  server_reachable cfg s → conn_fresh conn s →
  parse_text body = Ok req → method_of req = METHOD_MESSAGE_STREAM → params_of req = Ok params →
  card_streaming card = Some true → begin_stream cfg params conn s = (Ok (Some u), s1) →
  let rid := request_id_of req in
  ∃ t, (sv_tasks s !! up_task_id u = Some t ∨
       sv_tasks s1 !! up_task_id u = Some t ∧ tk_status t = status_new Submitted) ∧
    let events := EvTask t :: call_events (ex_calls ex) u s1 in
    serve_streaming cfg card true body conn ex s =
      (omap (chunk_of rid) (up_to_final events) ++
         match ex_result ex with
         | Ok _ => []
         | Err err => if existsb is_final_event events then []
                      else [to_wire (data_event (to_json (server_error_response rid err)))]
         end,
       (updater_calls (ex_calls ex) u s1).2).
Proof.
  intros Hr Hc Hp Hm Hps Hcard Hb rid. pose proof (server_reachable_inv cfg Hfresh s Hr) as Hinv.
  destruct (stream_listening params conn s u s1 Hfresh Hinv Hc Hb) as [Hlis (t & He & Ht)].
  exists t. split; [done|]. cbv zeta. destruct (lis_task _ _ _ _ _ Hlis) as (t1 & Ht1 & _).
  destruct (stream_calls _ conn (ex_calls ex) u s1 t1 Hlis Ht1) as [Hev _]. rewrite He in Hev. cbn [app] in Hev.
  unfold serve_streaming, handle_request. cbn [negb]. rewrite Hp, Hm. cbn [is_supported_streaming_method].
  unfold handle_streaming_request. rewrite Hcard. cbn [default from_option negb]. unfold Datatypes.id. cbn [negb].
  rewrite decide_True by done. unfold rpc_message_stream. rewrite Hps.
  unfold on_send_message_streaming, mbind, op_bind. rewrite Hb. unfold execute. rewrite Hev. fold rid.
  pose proof (stream_finish rid (ex_result ex) (EvTask t :: call_events (ex_calls ex) u s1)) as Hfin. cbv zeta in Hfin.
  destruct (ex_result ex) as [[]|err]; f_equal; exact Hfin.
Qed.

(** A [message/stream] request is served a chunk with the snapshot of its
    task, then a chunk for every event of its execution up to the one that ends
    the task's turn, then the error of an execution that failed before that.
    But when the snapshot is of a task that waits for input or for
    authorization, as it is when the request continues one, the stream is
    closed after the snapshot and none of the events is written. *)
Theorem stream_served (Hfresh : uuids_fresh) body req params conn ex s u s1 :
  server_reachable cfg s → conn_fresh conn s →
  parse_text body = Ok req → method_of req = METHOD_MESSAGE_STREAM → params_of req = Ok params →
  card_streaming card = Some true → begin_stream cfg params conn s = (Ok (Some u), s1) →
  let rid := request_id_of req in
  ∃ t, (sv_tasks s !! up_task_id u = Some t ∨
       sv_tasks s1 !! up_task_id u = Some t ∧ tk_status t = status_new Submitted) ∧
    let events := EvTask t :: call_events (ex_calls ex) u s1 in
    serve_streaming cfg card true body conn ex s =
      (if is_final_event (EvTask t) then omap (chunk_of rid) [EvTask t]
       else omap (chunk_of rid) events ++
         match ex_result ex with
         | Ok _ => []
         | Err err => if existsb is_final_event events then []
                      else [to_wire (data_event (to_json (server_error_response rid err)))]
         end,
       (updater_calls (ex_calls ex) u s1).2).
Proof.
  intros Hr Hc Hp Hm Hps Hcard Hb rid.
  destruct (serve_stream_eq Hfresh body req params conn ex s u s1 Hr Hc Hp Hm Hps Hcard Hb) as (t & Ht & Heq).
  exists t. split; [done|]. cbv zeta. rewrite Heq. cbn [up_to_final existsb]. rewrite call_events_final. fold rid.
  destruct (is_final_event (EvTask t)); [|done]. destruct (ex_result ex); by rewrite ?app_nil_r.
Qed.

(** * Answers *)

(** What [non_stream_emit] writes of an event. *)
Definition answer_text (rid : option RequestId) (ev : StreamEvent) : option string :=
  match ev with
  | EvTask t => match success_response rid (SendTask t) with Ok resp => Some (to_json resp) | Err _ => None end
  | EvMessage m => match success_response rid (SendMessage m) with Ok resp => Some (to_json resp) | Err _ => None end
  | _ => None
  end.

(** A blocking [message/send] request is answered with the message that ends
    the task's turn, or with the task as the ending call leaves it, whatever
    the execution does afterwards; only an answer that does not serialize is
    replaced, by the error of the execution or by nothing. *)
Theorem send_served (Hfresh : uuids_fresh) body req params conn ex s r s1 pre c post :
  server_reachable cfg s → conn_fresh conn s →
  parse_text body = Ok req → body ≠ "{}" → method_of req = METHOD_MESSAGE_SEND → params_of req = Ok params →
  begin_send cfg params conn s = (Ok r, s1) → blocking params = true →
  ex_calls ex = pre ++ c :: post → Forall (λ c, closing c = false) pre → closing c = true →
  let rid := request_id_of req in
  ∃ t, sv_tasks (updater_calls (pre ++ [c]) r.2 s1).2 !! r.1 = Some t ∧
    (serve_non_streaming cfg card true body conn ex s).1 =
      match answer_text rid (match c with SendResponseMessage m => EvMessage m | _ => EvTask t end), ex_result ex with
      | Some text, _ => Some text
      | None, Err err => Some (to_json (server_error_response rid err))
      | None, Ok _ => None
      end.
Proof.
  intros Hr Hc Hp Hbody Hm Hps Hb Hbl Hex Hpre Hclo rid. pose proof (server_reachable_inv cfg Hfresh s Hr) as Hinv.
  destruct (sent_listening cfg Hfresh params conn s r s1 Hinv Hc Hb) as [Hlis Hnil]. rewrite Hbl in Hlis.
  destruct (closing_answer r.1 conn pre c post r.2 s1 Hlis Hpre Hclo) as (t & Ht & _ & Hev). rewrite Hnil in Hev.
  exists t. split; [done|]. unfold serve_non_streaming, handle_request. cbn [negb]. rewrite Hp, Hm. cbn [is_supported_streaming_method].
  unfold handle_non_streaming_request, process_standard_json_rpc. rewrite decide_False by done.
  rewrite decide_False, decide_True by done. unfold rpc_message_send. rewrite Hps. unfold on_send_message, mbind, op_bind. rewrite Hb.
  destruct r as [id u]. cbn [fst snd] in *. unfold execute. rewrite Hex. fold rid.
  set (s2 := (updater_calls (pre ++ c :: post) u s1).2) in *.
  assert (events_of conn (send_push_notification_if_needed id s2) = events_of conn s2) as Hpush.
  { unfold send_push_notification_if_needed. destruct (_ && _); [|done]. by destruct (store_get id s2). }
  destruct (ex_result ex) as [[]|err]; cbn [op_modify fst snd]; rewrite ?Hpush, Hev; cbn [foldl app fmap option_fmap option_map];
    destruct c; cbn [non_stream_emit answer_text];
    match goal with |- context [success_response rid ?x] => destruct (success_response rid x) end; done.
Qed.

(** * Every other request *)

(** A response carries its request's id and a result or an error, not both. *)
Definition answers (rid : option RequestId) (r : Response) : Prop :=
  res_id r = rid ∧ (is_Some (res_result r) ↔ res_error r = None).
Lemma answers_error rid code msg : answers rid (make_error rid code msg).
Proof. split; [done|]. cbn. split; [by intros [? ?]|done]. Qed.
Lemma answers_ok {T} `{!WireJson T} rid (x : T) : answers rid (ok_response rid x).
Proof.
  unfold ok_response, success_response. destruct (to_json_value x); [|apply answers_error].
  split; [done|]. cbn. split; [done|by eexists].
Qed.

Lemma card_answers req : answers (request_id_of req) (rpc_get_agent_card card req).
Proof.
  unfold rpc_get_agent_card. destruct (card_json card); [|apply answers_error]. split; [done|]. split; [done|by eexists].
Qed.

(** Handlers that only look, or that change nothing when they fail. *)
Definition looks {A} (h : Handler A) : Prop := ∀ s, (h s).2 = s.
Definition careful {A} (h : Handler A) : Prop := ∀ s err s', h s = (Err err, s') → s' = s.

Lemma answer_with_answers {P R} `{!WireJson P} req (h : P → Handler R) (answer : option RequestId → R → Response) s :
  (∀ rid p r s', params_of req = Ok p → h p s = (Ok r, s') → answers rid (answer rid r)) →
  answers (request_id_of req) (answer_with req h answer s).1.
Proof.
  intros Hans. unfold answer_with. destruct (params_of req) as [p|err]; [|apply answers_error].
  destruct (h p s) as [[r|err] s'] eqn:Hh; [by eapply Hans|apply answers_error].
Qed.
Lemma answer_with_looks {P R} `{!WireJson P} req (h : P → Handler R) answer s :
  (∀ p, looks (h p)) → (answer_with req h answer s).2 = s.
Proof.
  intros Hl. unfold answer_with. destruct (params_of req) as [p|err]; [|done].
  pose proof (Hl p s). by destruct (h p s) as [[r|err] s'].
Qed.
Lemma answer_with_careful {P R} `{!WireJson P} req (h : P → Handler R) (answer : option RequestId → R → Response) s :
  (∀ p, careful (h p)) → (∀ rid p r s', params_of req = Ok p → h p s = (Ok r, s') → res_error (answer rid r) = None) →
  let '(resp, s') := answer_with req h answer s in res_error resp = None ∨ s' = s.
Proof.
  intros Hc Hans. unfold answer_with. destruct (params_of req) as [p|err]; [|by right].
  destruct (h p s) as [[r|err] s'] eqn:Hh; [left; by eapply Hans|right; by eapply Hc].
Qed.

Lemma looks_get p : looks (on_get_task p).
Proof. intros s. unfold on_get_task, load_task, mbind, op_bind, op_gets. by destruct (store_get _ s). Qed.
Lemma looks_get_push p : looks (on_get_task_push_notification_config cfg p).
Proof.
  intros s. unfold on_get_task_push_notification_config, push_config_store_or_err, require_task, load_task, mbind, op_bind, op_gets.
  destruct (cf_push_store cfg); cbn; [|done]. by destruct (store_get _ s).
Qed.
Lemma looks_list_push p : looks (on_list_task_push_notification_configs cfg p).
Proof.
  intros s. unfold on_list_task_push_notification_configs, push_config_store_or_err, require_task, load_task, mbind, op_bind, op_gets.
  destruct (cf_push_store cfg); cbn; [|done]. by destruct (store_get _ s).
Qed.
Lemma careful_set_push c : careful (_ ← on_set_task_push_notification_config cfg c; mret c).
Proof.
  intros s err s'. unfold on_set_task_push_notification_config, push_config_store_or_err, require_task, load_task, mbind, op_bind, op_gets.
  destruct (cf_push_store cfg); cbn; [|by intros [= _ <-]]. destruct (store_get _ s); cbn; [done|by intros [= _ <-]].
Qed.
Lemma careful_delete_push p : careful (on_delete_task_push_notification_config cfg p).
Proof.
  intros s err s'. unfold on_delete_task_push_notification_config, push_config_store_or_err, require_task, load_task, mbind, op_bind, op_gets.
  destruct (cf_push_store cfg); cbn; [|by intros [= _ <-]]. destruct (store_get _ s); cbn; [done|by intros [= _ <-]].
Qed.
(** A configuration that was read is written. *)
Lemma set_push_answer rid req (c : TaskPushNotificationConfig) : params_of req = Ok c → res_error (ok_response rid c) = None.
Proof.
  unfold params_of. destruct (vget "params" req) as [v|]; [|done]. intros Hc.
  destruct (wire_roundtrips c (wire_sound v c Hc)) as (w & Hw & _). unfold ok_response, success_response. by rewrite Hw.
Qed.

(** The requests that may change something, and those that may do so although
    they fail: cancelling runs the executor. *)
Definition changing_method (method : string) : bool :=
  bool_decide (method ∈ [METHOD_TASK_CANCEL; METHOD_PUSH_SET; METHOD_PUSH_DELETE]).
Definition settles (req : Value) (method : string) s (r : Response * ServerState) : Prop :=
  answers (request_id_of req) r.1 ∧ (changing_method method = false → r.2 = s) ∧
  (method ≠ METHOD_TASK_CANCEL → res_error r.1 = None ∨ r.2 = s).

Lemma settles_look req method s r : answers (request_id_of req) r → settles req method s (r, s).
Proof. intros. split; [done|]. split; auto. Qed.
Lemma settles_looks {P R} `{!WireJson P, !WireJson R} req method (h : P → Handler R) s :
  (∀ p, looks (h p)) → settles req method s (answer_with req h ok_response s).
Proof.
  intros Hl. split; [apply answer_with_answers; intros; apply answers_ok|]; split;
    rewrite (answer_with_looks _ _ _ _ Hl); auto.
Qed.
Lemma settles_set req s : settles req METHOD_PUSH_SET s (rpc_set_push cfg req s).
Proof.
  split; [apply answer_with_answers; intros; apply answers_ok|split; [done|intros _]].
  pose proof (answer_with_careful req (λ c, _ ← on_set_task_push_notification_config cfg c; mret c) ok_response s careful_set_push) as Hc.
  unfold rpc_set_push. destruct (answer_with _ _ _ _) as [resp s']. apply Hc. intros rid p r s'' Hp Hr.
  assert (r = p) as ->; [|by eapply set_push_answer].
  unfold mbind, op_bind in Hr. destruct (on_set_task_push_notification_config cfg p s) as [[] ?]; cbn in Hr; by inv Hr.
Qed.
Lemma settles_delete req s : settles req METHOD_PUSH_DELETE s (rpc_delete_push cfg req s).
Proof.
  split; [apply answer_with_answers|split; [done|intros _]].
  - intros. split; [done|]. split; [done|by eexists].
  - pose proof (answer_with_careful req (on_delete_task_push_notification_config cfg) (λ id _,
      {| res_jsonrpc := JSONRPC_VERSION; res_id := id; res_result := Some JNull; res_error := None |}) s careful_delete_push) as Hc.
    unfold rpc_delete_push. destruct (answer_with _ _ _ _) as [resp s']. by apply Hc.
Qed.

Lemma standard_direct req method conn ex e s :
  method ≠ METHOD_MESSAGE_SEND →
  ∃ r, process_standard_json_rpc cfg card req method conn ex e s = (Some (to_json r.1), e, r.2) ∧ settles req method s r.
Proof.
  intros Hm. unfold process_standard_json_rpc.
  assert (∀ P (D : Decision P) (r : Response * ServerState) (rest : option string * Emitter * ServerState),
    (P → settles req method s r) →
    (¬ P → ∃ r, rest = (Some (to_json r.1), e, r.2) ∧ settles req method s r) →
    ∃ r', (if D then (Some (to_json r.1), e, r.2) else rest) = (Some (to_json r'.1), e, r'.2) ∧ settles req method s r') as Hstep.
  { intros P D r rest Hy Hn. destruct D as [HP|HP]; [exists r; by split; [|apply Hy]|by apply Hn]. }
  apply Hstep; [intros _|intros _].
  { apply settles_look, card_answers. }
  rewrite decide_False by done.
  apply Hstep; [intros _; apply settles_looks, looks_get|intros _].
  apply Hstep; [intros ->|intros _].
  { split; [apply answer_with_answers; intros; apply answers_ok|by split]. }
  apply Hstep; [intros ->; apply settles_set|intros _].
  apply Hstep; [intros _; apply settles_looks, looks_get_push|intros _].
  apply Hstep; [intros _; apply settles_looks, looks_list_push|intros _].
  apply Hstep; [intros ->; apply settles_delete|intros _].
  eexists (_, _). split; [reflexivity|]. apply settles_look, answers_error.
Qed.

(** C29: Every body that is not a [message/send] or a stream is answered, and
    exactly once: text that does not parse with an error (the code of an
    internal error, not of a parse error, and no id), any other with the id of
    the request and either a result or an error.  Only cancelling and the two
    requests that write push configurations change the server, and the latter
    not when they are answered with an error. *)
Theorem request_answered body conn ex s :
  let '(text, s') := serve_non_streaming cfg card true body conn ex s in
  match parse_text body with
  | Err err =>
      text = Some (to_json (make_error None (error_code JsonrpcInternalError) ("Internal error: " +:+ err))) ∧ s' = s
  | Ok req =>
      let method := method_of req in
      let rid := if decide (body = "{}") then Some (Number 1) else request_id_of req in
      is_supported_streaming_method method = true ∨ method = METHOD_MESSAGE_SEND ∧ body ≠ "{}" ∨
      ∃ resp, text = Some (to_json resp) ∧ res_id resp = rid ∧ (is_Some (res_result resp) ↔ res_error resp = None) ∧
        (changing_method method = false → s' = s) ∧
        (method ≠ METHOD_TASK_CANCEL → res_error resp = None ∨ s' = s)
  end.
Proof.
  unfold serve_non_streaming, handle_request. cbn [negb]. destruct (parse_text body) as [req|err]; [|done].
  destruct (is_supported_streaming_method (method_of req)) eqn:Hst; [by destruct (handle_streaming_request _ _ _ _ _ _ _ _); left|].
  unfold handle_non_streaming_request. destruct (decide (body = "{}")) as [->|Hb].
  { right; right. destruct (card_answers card_request) as [Hid Hone]. eexists. split; [reflexivity|]. split; [exact Hid|].
    split; [exact Hone|]. split; auto. }
  destruct (decide (method_of req = METHOD_MESSAGE_SEND)) as [Hm|Hm].
  { destruct (process_standard_json_rpc _ _ _ _ _ _ _ _) as [[]]. by right; left. }
  destruct (standard_direct req (method_of req) conn ex non_streaming_emitter s Hm) as ([resp s'] & -> & [Hid Hone] & Hs & Hc).
  right; right. by exists resp.
Qed.
End served.
