(* ===== verification/A2APush.v ===== *)
(** The in-memory store of push configurations against a plain map from task
    and configuration ids. *)
From S2P Require Import Prelude OpMonad RustMap RustStr Json A2AData A2ATasks A2AHandler.

Implicit Types (s : ServerState) (c : PushNotificationConfig) (l : list PushNotificationConfig).

(** Writes of the store, and what they make of a map. *)
Inductive PushOp := PushSet (task_id : string) (c : PushNotificationConfig) | PushDelete (task_id : string) (config_id : option string).
Definition push_op (o : PushOp) s : ServerState :=
  match o with PushSet task_id c => set_info task_id c s | PushDelete task_id config_id => delete_info task_id config_id s end.
Definition push_run (os : list PushOp) s : ServerState := foldl (λ s o, push_op o s) s os.

Definition with_config_id (id : string) c : PushNotificationConfig :=
  mkPushConfig (pc_authentication c) (pc_config_id c) (Some id) (pc_token c) (pc_url c) (pc_created_at c).
Notation PushMap := (gmap (string * string) PushNotificationConfig).
Definition push_spec_op (o : PushOp) (m : PushMap) : PushMap :=
  match o with
  | PushSet task_id c => let id := default task_id (pc_id c) in <[(task_id, id) := with_config_id id c]> m
  | PushDelete task_id config_id => delete (task_id, default task_id config_id) m
  end.
Definition push_spec (os : list PushOp) : PushMap := foldl (λ m o, push_spec_op o m) ∅ os.

(** * Lists of configurations with distinct ids *)

Definition distinct l : Prop := Forall (λ c, is_Some (pc_id c)) l ∧ NoDup (pc_id <$> l).

Lemma remove_first_elem id l c :
  distinct l → c ∈ remove_first (λ c', bool_decide (pc_id c' = Some id)) l ↔ c ∈ l ∧ pc_id c ≠ Some id.
Proof.
  intros [_ Hn]. unfold remove_first. destruct (list_find _ l) as [[i c0]|] eqn:Hf.
  - apply list_find_Some in Hf as (Hi & Hid & _). rewrite bool_decide_eq_true in Hid.
    rewrite delete_take_drop. rewrite <-(take_drop_middle l i c0 Hi) in Hn. rewrite <-(take_drop_middle l i c0 Hi) at 3.
    rewrite fmap_app, fmap_cons, Hid in Hn. apply NoDup_app in Hn as (_ & Hd & [Hni _]%NoDup_cons).
    assert (∀ c', c' ∈ take i l ∨ c' ∈ drop (S i) l → pc_id c' ≠ Some id) as Hne.
    { intros c' [Hc|Hc] Heq; [apply (Hd (Some id)); [|by left]|apply Hni]; apply list_elem_of_fmap; by eauto. }
    rewrite !elem_of_app, elem_of_cons. naive_solver.
  - apply list_find_None in Hf. rewrite Forall_forall in Hf. split; [|by intros []]. intros Hc. split; [done|].
    intros Hid. apply (Hf c Hc). by apply bool_decide_eq_true.
Qed.
Lemma remove_first_sublist P l : remove_first P l `sublist_of` l.
Proof. unfold remove_first. destruct (list_find _ l) as [[i c0]|]; [apply sublist_delete|done]. Qed.
Lemma distinct_sublist l l' : l' `sublist_of` l → distinct l → distinct l'.
Proof.
  intros Hs [Hi Hn]. rewrite Forall_forall in Hi. split.
  - apply Forall_forall. intros c Hc. apply Hi. by eapply sublist_subseteq.
  - eapply sublist_NoDup; [done|]. by apply (fmap_sublist pc_id).
Qed.
Lemma distinct_replace id l c :
  pc_id c = Some id → distinct l → distinct (remove_first (λ c', bool_decide (pc_id c' = Some id)) l ++ [c]).
Proof.
  intros Hid Hl. destruct (distinct_sublist _ _ (remove_first_sublist (λ c', bool_decide (pc_id c' = Some id)) l) Hl) as [Hi Hn].
  split; [apply Forall_app; split; [done|repeat constructor; by eexists]|]. rewrite fmap_app. apply NoDup_app. split; [done|].
  split; [|by apply NoDup_singleton]. intros o (c' & -> & Hc')%list_elem_of_fmap Ho%list_elem_of_singleton.
  apply remove_first_elem in Hc' as [_ Hne]; [congruence|done].
Qed.

(** * The store *)

(** The vector of every task has distinct ids and holds what the map has. *)
Definition push_refines s (m : PushMap) : Prop :=
  ∀ task_id, distinct (get_info task_id s) ∧
    ∀ c, c ∈ get_info task_id s ↔ ∃ id, pc_id c = Some id ∧ m !! (task_id, id) = Some c.

Lemma get_set task_id task_id' c s :
  get_info task_id' (set_info task_id c s) =
    if decide (task_id' = task_id) then
      let id := default task_id (pc_id c) in
      remove_first (λ c', bool_decide (pc_id c' = Some id)) (get_info task_id s) ++ [with_config_id id c]
    else get_info task_id' s.
Proof.
  unfold get_info, set_info. cbn. destruct (decide (task_id' = task_id)) as [->|Hne]; [|by rewrite lookup_insert_ne].
  rewrite lookup_insert_eq. by destruct c as [? ? [] ? ? ?].
Qed.
Lemma get_delete task_id task_id' config_id s :
  get_info task_id' (delete_info task_id config_id s) =
    if decide (task_id' = task_id)
    then remove_first (λ c', bool_decide (pc_id c' = Some (default task_id config_id))) (get_info task_id s)
    else get_info task_id' s.
Proof.
  unfold get_info, delete_info. destruct (sv_push s !! task_id) as [vec|] eqn:Hv.
  - assert (∀ (v : list PushNotificationConfig),
      default [] (sv_push (match v with [] => set_push (delete task_id (sv_push s)) s | _ => set_push (<[task_id := v]> (sv_push s)) s end) !! task_id')
      = if decide (task_id' = task_id) then v else default [] (sv_push s !! task_id')) as Hg; [|apply Hg].
    intros v. destruct (decide (task_id' = task_id)) as [->|Hne], v; cbn;
      by rewrite ?lookup_delete_eq, ?lookup_insert_eq, ?lookup_delete_ne, ?lookup_insert_ne by done.
  - destruct (decide (task_id' = task_id)) as [->|]; [|done]. by rewrite Hv.
Qed.

Lemma push_op_refines o s m : push_refines s m → push_refines (push_op o s) (push_spec_op o m).
Proof.
  intros Hr task_id'. destruct (Hr task_id') as [Hd Hm]. destruct o as [task_id c|task_id config_id]; cbn [push_op push_spec_op].
  - rewrite get_set. set (id := default task_id (pc_id c)). cbv zeta. destruct (decide (task_id' = task_id)) as [->|Hne].
    + split; [by apply distinct_replace|]. intros c'. rewrite elem_of_app, remove_first_elem, list_elem_of_singleton, Hm by done. split.
      * intros [[(id' & Hid & Hc') Hne]| ->]; [exists id'|exists id; by rewrite lookup_insert_eq].
        rewrite lookup_insert_ne by congruence. done.
      * intros (id' & Hid & Hc'). destruct (decide (id' = id)) as [->|Hne]; [rewrite lookup_insert_eq in Hc'; right; congruence|].
        rewrite lookup_insert_ne in Hc' by congruence. left. split; [eauto|congruence].
    + split; [done|]. intros c'. rewrite Hm. f_equiv. intros id'. by rewrite lookup_insert_ne by congruence.
  - rewrite get_delete. destruct (decide (task_id' = task_id)) as [->|Hne].
    + split; [eapply distinct_sublist; [apply remove_first_sublist|done]|]. intros c'.
      rewrite remove_first_elem, Hm by done. set (id := default task_id config_id). split.
      * intros [(id' & Hid & Hc') Hne]. exists id'. by rewrite lookup_delete_ne by congruence.
      * intros (id' & Hid & [Hne Hc']%lookup_delete_Some). split; [eauto|congruence].
    + split; [done|]. intros c'. rewrite Hm. f_equiv. intros id'. by rewrite lookup_delete_ne by congruence.
Qed.
Lemma push_run_refines os s m : push_refines s m → push_refines (push_run os s) (foldl (λ m o, push_spec_op o m) m os).
Proof. revert s m. induction os as [|o os IH]; intros s m Hr; [done|]. by apply IH, push_op_refines. Qed.

Lemma push_spec_ids os m :
  map_Forall (λ k c, pc_id c = Some k.2) m → map_Forall (λ k c, pc_id c = Some k.2) (foldl (λ (m : PushMap) o, push_spec_op o m) m os).
Proof.
  revert m. induction os as [|o os IH]; intros m Hm; [done|]. apply IH. destruct o as [t c|t i]; cbn.
  - by apply map_Forall_insert_2.
  - by apply map_Forall_delete.
Qed.

(** The store of push configurations is a map from task id and configuration
    id (the task id where none is given): after any writes a task lists each of
    its entries once and nothing else.  But the request for one entry looks at
    the task only: it is answered with the first of them, whichever it names,
    and with an empty configuration where there is none. *)
Theorem push_store_refines s0 os task_id :
  sv_push s0 = ∅ → let s := push_run os s0 in
  NoDup (pc_id <$> get_info task_id s) ∧
  (∀ c, c ∈ get_info task_id s ↔ ∃ id, push_spec os !! (task_id, id) = Some c) ∧
  (∀ cfg p, cf_push_store cfg = true → is_Some (store_get task_id s) → gp_id p = task_id →
     on_get_task_push_notification_config cfg p s =
       (Ok (mkTaskPush (default default_push_config (head (get_info task_id s))) task_id), s)).
Proof.
  intros Hs0. assert (push_refines s0 ∅) as Hr0.
  { intros t. unfold get_info. rewrite Hs0, lookup_empty. split; [by split; constructor|].
    intros c. split; [by intros []%not_elem_of_nil|]. by intros (? & _ & ?). }
  destruct (push_run_refines os s0 ∅ Hr0 task_id) as [[_ Hn] Hm]. split_and!; [done| |].
  - intros c. rewrite Hm. split; [intros (id & _ & Hid); by exists id|]. intros (id & Hid). exists id. split; [|done].
    by apply (push_spec_ids os ∅ (map_Forall_empty _) _ _ Hid).
  - intros cfg p Hcfg [t Ht] <-.
    unfold on_get_task_push_notification_config, push_config_store_or_err, require_task, load_task, mbind, op_bind, op_gets.
    rewrite Hcfg. cbn. by rewrite Ht.
Qed.
