(* ===== verification/A2AClient.v ===== *)
(** The A2A client: client/config.rs, client/transport.rs, the client errors of
    error.rs, client/task_manager.rs and client/default_client.rs.

    One state holds what the client and its transport keep: the requests
    waiting for an answer ([callback_info]), the requests in flight
    ([request_data] of client/jsonrpc_transport.rs), what the handlers and the
    consumers were called with, and how each awaited request ended.  A sender
    that is dropped without sending ends its request as abandoned.  Agent cards
    are a parameter: their type and their reader.

    The JSON-RPC transport of the A2A client and the requests of the client:
    client/jsonrpc_transport.rs, client/interceptor.rs and the request methods
    of client/default_client.rs.

    What the HTTP library answers is data: a failure, or a status, a content
    type and a body that is read whole or in chunks.  Timeouts, headers of the
    response other than the content type and the tokio runtime are left out;
    a header map is only built. *)
From S2P Require Import Prelude OpMonad RustMap RustStr Json Sse A2AData A2ATasks.

Class A2ACard := { AgentCard : Type; read_card : Value → JsonResult AgentCard; card_streams : AgentCard → option bool }.

(** * Errors *)

Inductive A2aClientError :=
| HttpError (status_code : Z) (message : string) | JsonError (code : Z) (message : string)
| TimeoutError (message : string) | OtherError (code : Z) (message : string).

Definition HTTP_PARSE_ERROR : Z := -1.
Definition is_http_status_code (code : Z) : bool := (100 <=? code)%Z && (code <=? 599)%Z.
Definition is_json_related_error_code (code : Z) : bool :=
  (code =? error_code JsonrpcParseError)%Z || (code =? error_code A2aInvalidFormat)%Z || (code =? HTTP_PARSE_ERROR)%Z.
Definition client_error_make (code : Z) (message : string) : A2aClientError :=
  if is_http_status_code code then HttpError code message
  else if is_json_related_error_code code then JsonError code message
  else if (code =? error_code A2aRequestTimeout)%Z then TimeoutError message
  else OtherError code message.
Definition client_error_from_code (code : A2AErrorCode) (message : string) : A2aClientError :=
  client_error_make (error_code code) message.
Definition client_error_code (e : A2aClientError) : Z :=
  match e with HttpError c _ | JsonError c _ | OtherError c _ => c | TimeoutError _ => error_code A2aRequestTimeout end.
Definition client_error_message (e : A2aClientError) : string :=
  match e with HttpError _ m | JsonError _ m | OtherError _ m | TimeoutError m => m end.
Definition client_error_to_a2a (e : A2aClientError) : A2AError :=
  mkA2AError (client_error_code e) None (Some (client_error_message e)).
Definition default_a2a_error : A2AError := mkA2AError (-1) None None.

(** * The task of a stream *)

Definition ClientTaskManager : Type := option Task.

(** The client's version: a chunk of an unknown artifact is added. *)
Definition client_append_artifact (event : TaskArtifactUpdateEvent) (task : Task) : Task :=
  let list := default [] (tk_artifacts task) in
  let new_artifact := au_artifact event in
  let existing := list_find (λ a, art_id a = art_id new_artifact) list in
  with_artifacts (Some
    match default false (au_append event), existing with
    | true, Some (i, slot) => <[i := with_parts (art_parts slot ++ art_parts new_artifact) slot]> list
    | false, Some (i, _) => <[i := new_artifact]> list
    | _, None => list ++ [new_artifact]
    end) task.

Definition client_apply_status (u : TaskStatusUpdateEvent) (task : Task) : Task :=
  let task := match ts_message (su_status u) with
              | Some m => with_history (push_to m (tk_history task)) task
              | None => task
              end in
  let task := match su_metadata u, tk_metadata task with
              | Some m, None => with_metadata (Some m) task
              | _, _ => task
              end in
  with_status (su_status u) task.

Definition shell_task (id context_id : string) (status : TaskStatus) : Task :=
  mkTask None context_id None id None status None None.
Definition client_save_event (ev : StreamEvent) (mgr : ClientTaskManager) : result ClientTaskManager string :=
  match ev with
  | EvTask t =>
      match mgr with
      | Some _ => Err "Task is already set, create new manager for new tasks."
      | None => Ok (Some t)
      end
  | EvMessage _ => Ok mgr
  | EvStatusUpdate u =>
      Ok (Some (client_apply_status u (default (shell_task (su_task_id u) (su_context_id u) (su_status u)) mgr)))
  | EvArtifactUpdate u =>
      Ok (Some (client_append_artifact u (default (shell_task (au_task_id u) (au_context_id u) (status_new Unspecified)) mgr)))
  end.
Definition client_update_with_message (msg : Message) (task : Task) : ClientTaskManager * Task :=
  let task :=
    match ts_message (tk_status task) with
    | Some m =>
        match tk_history task with
        | Some h => with_history (Some (h ++ [m])) task
        | None => with_history (Some [m])
                    (with_status (mkTaskStatus None (ts_state (tk_status task)) (ts_timestamp (tk_status task))) task)
        end
    | None => task
    end in
  let task := with_history (push_to msg (tk_history task)) task in
  (Some task, task).

(** * Events *)

Record TransportError := mkTransportError { te_code : Z; te_info : string }.
Definition stream_end : TransportError := mkTransportError 0 "".

Section client.
Context `{!A2ACard}.

Inductive TransportEvent :=
| TrError (e : TransportError) | TrMessage (m : Message) | TrTask (t : Task)
| TrStatus (u : TaskStatusUpdateEvent) | TrArtifact (a : TaskArtifactUpdateEvent)
| TrPushConfig (c : TaskPushNotificationConfig) | TrPushConfigs (cs : list TaskPushNotificationConfig)
| TrNone | TrCard (c : AgentCard).

Inductive UpdateEvent := UpdNone | UpdStatus (u : TaskStatusUpdateEvent) | UpdArtifact (a : TaskArtifactUpdateEvent).
Inductive ClientEvent := CeMessage (m : Message) | CeError (e : A2AError) | CeTask (t : Task) (u : UpdateEvent).

(** ** The state *)

(** What a request waits for, and what it can end with. *)
Inductive Completion := WaitUnit | WaitTask | WaitPushConfig | WaitPushConfigs | WaitCard.
Inductive Done :=
| DoneUnit | DoneTask (t : Task) | DonePushConfig (c : TaskPushNotificationConfig)
| DonePushConfigs (cs : list TaskPushNotificationConfig) | DoneCard (c : AgentCard).
Definition kind_of (d : Done) : Completion :=
  match d with
  | DoneUnit => WaitUnit | DoneTask _ => WaitTask | DonePushConfig _ => WaitPushConfig
  | DonePushConfigs _ => WaitPushConfigs | DoneCard _ => WaitCard
  end.
#[export] Instance Completion_eq_dec : EqDecision Completion.
Proof. solve_decision. Defined.
Notation Outcome := (result Done A2aClientError).

Record CallbackInfo := mkCallback {
  ci_method : string; ci_completion : option Completion; ci_handler : bool; ci_mgr : option ClientTaskManager
}.
Record UserData := mkUserData { ud_request_id : string; ud_method : string; ud_is_stream : bool; ud_timeout : Z }.

Record ClientState := mkClient {
  cl_callbacks : gmap string CallbackInfo;
  cl_requests : gmap string UserData;
  cl_closed : bool;
  cl_outcomes : list (string * Outcome);
  cl_handled : list (string * ClientEvent);
  cl_consumed : list ClientEvent;
  cl_uuids : nat
}.
Definition new_client : ClientState := mkClient ∅ ∅ false [] [] [] 0.
Implicit Types (s : ClientState) (cb : CallbackInfo) (id : string).

Definition set_callbacks m s : ClientState :=
  mkClient m (cl_requests s) (cl_closed s) (cl_outcomes s) (cl_handled s) (cl_consumed s) (cl_uuids s).
Definition set_requests m s : ClientState :=
  mkClient (cl_callbacks s) m (cl_closed s) (cl_outcomes s) (cl_handled s) (cl_consumed s) (cl_uuids s).
Definition end_request id (o : Outcome) s : ClientState :=
  mkClient (cl_callbacks s) (cl_requests s) (cl_closed s) (cl_outcomes s ++ [(id, o)]) (cl_handled s) (cl_consumed s)
    (cl_uuids s).

Definition set_completion o cb : CallbackInfo := mkCallback (ci_method cb) o (ci_handler cb) (ci_mgr cb).
Definition set_mgr o cb : CallbackInfo := mkCallback (ci_method cb) (ci_completion cb) (ci_handler cb) o.

Definition abandoned : A2aClientError := client_error_from_code A2aStatusError "Request abandoned".
Definition invalid_input : A2aClientError := client_error_from_code A2aInvalidInput "Invalid parameter".
Definition transport_exception (e : A2aClientError) : A2aClientError :=
  client_error_from_code A2aTransportException (client_error_message e).

(** ** Completions *)

(** [if let Some(Completion::K(tx)) = cb.completion.take()]: a sender of
    another kind is dropped. *)
Definition complete id (d : Done) cb s : CallbackInfo * ClientState :=
  match ci_completion cb with
  | Some k => (set_completion None cb, end_request id (if decide (k = kind_of d) then Ok d else Err abandoned) s)
  | None => (cb, s)
  end.
Definition fail_completion id (e : A2aClientError) cb s : CallbackInfo * ClientState :=
  match ci_completion cb with
  | Some _ => (set_completion None cb, end_request id (Err e) s)
  | None => (cb, s)
  end.

Definition register_callback id cb s : ClientState := set_callbacks (<[id := cb]> (cl_callbacks s)) s.
Definition unregister_callback id s : ClientState := set_callbacks (delete id (cl_callbacks s)) s.

(** The end of a callback: the info goes back where it is shared, or it is
    dropped with the sender it may still hold. *)
Definition release id cb s : ClientState :=
  match cl_callbacks s !! id with
  | Some _ => register_callback id cb s
  | None => (fail_completion id abandoned cb s).2
  end.

(** ** Handlers *)

Definition call_handler id (ev : ClientEvent) cb s : ClientState :=
  if ci_handler cb then
    mkClient (cl_callbacks s) (cl_requests s) (cl_closed s) (cl_outcomes s) (cl_handled s ++ [(id, ev)]) (cl_consumed s)
      (cl_uuids s)
  else s.
Definition consume (ev : ClientEvent) s : ClientState :=
  mkClient (cl_callbacks s) (cl_requests s) (cl_closed s) (cl_outcomes s) (cl_handled s) (cl_consumed s ++ [ev]) (cl_uuids s).

Definition handles_events (method : string) : bool :=
  bool_decide (method ∈ [METHOD_MESSAGE_SEND; METHOD_MESSAGE_STREAM; METHOD_TASK_RESUBSCRIBE]).
Definition handler_error_resp id (e : TransportError) cb s : CallbackInfo * ClientState :=
  let err := client_error_make (te_code e) (te_info e) in
  let s := if handles_events (ci_method cb)
           then call_handler id (CeError (mkA2AError (te_code e) None (Some (te_info e)))) cb s else s in
  fail_completion id err cb s.

Definition is_stream_method (method : string) : bool :=
  bool_decide (method ∈ [METHOD_MESSAGE_STREAM; METHOD_TASK_RESUBSCRIBE]).

(** [message/send]. *)
Definition sent_event (event : TransportEvent) : result ClientEvent string :=
  match event with
  | TrMessage m => Ok (CeMessage m)
  | TrTask t => Ok (CeTask t UpdNone)
  | _ => Err "unexpected transport event for SendMessage"
  end.
(** A stream: the manager, the event, and whether it is the last. *)
Definition stream_event (mgr : ClientTaskManager) (event : TransportEvent) : result (ClientTaskManager * ClientEvent * bool) string :=
  match event with
  | TrMessage m => Ok (mgr, CeMessage m, false)
  | TrTask t => let? mgr := client_save_event (EvTask t) mgr in Ok (mgr, CeTask t UpdNone, false)
  | TrStatus u =>
      let? mgr := client_save_event (EvStatusUpdate u) mgr in
      let? task := ok_or mgr "no current Task" in
      Ok (mgr, CeTask task (UpdStatus u), is_final_or_interrupted (ts_state (su_status u)))
  | TrArtifact a =>
      let? mgr := client_save_event (EvArtifactUpdate a) mgr in
      let? task := ok_or mgr "no current Task" in
      Ok (mgr, CeTask task (UpdArtifact a), false)
  | _ => Err "unexpected transport event for stream"
  end.

Definition handler_success_resp id cb (event : TransportEvent) s : result () string * CallbackInfo * ClientState :=
  let finish d := let '(cb, s) := complete id d cb s in (Ok (), cb, s) in
  let method := ci_method cb in
  if decide (method = METHOD_MESSAGE_SEND) then
    match sent_event event with
    | Err e => (Err e, cb, s)
    | Ok ev => let '(cb, s) := complete id DoneUnit cb (consume ev (call_handler id ev cb s)) in (Ok (), cb, s)
    end
  else if is_stream_method method then
    match stream_event (default None (ci_mgr cb)) event with
    | Err e => (Err e, set_mgr (Some (default None (ci_mgr cb))) cb, s)
    | Ok (mgr, ev, last) =>
        let cb := set_mgr (Some mgr) cb in
        let s := consume ev (call_handler id ev cb s) in
        if last then let '(cb, s) := complete id DoneUnit cb s in (Ok (), cb, unregister_callback id s)
        else (Ok (), cb, s)
    end
  else if bool_decide (method ∈ [METHOD_TASK_GET; METHOD_TASK_CANCEL]) then
    match event with TrTask t => finish (DoneTask t) | _ => (Err "expected Task result", cb, s) end
  else if bool_decide (method ∈ [METHOD_PUSH_SET; METHOD_PUSH_GET]) then
    match event with
    | TrPushConfig c => finish (DonePushConfig c)
    | _ => (Err "expected TaskPushNotificationConfig result", cb, s)
    end
  else if decide (method = METHOD_PUSH_LIST) then
    match event with TrPushConfigs cs => finish (DonePushConfigs cs) | _ => (Err "expected list result", cb, s) end
  else if decide (method = METHOD_PUSH_DELETE) then finish DoneUnit
  else if decide (method = METHOD_AGENT_CARD_GET) then
    match event with TrCard c => finish (DoneCard c) | _ => (Err "expected AgentCard result", cb, s) end
  else (Ok (), cb, s).

Definition transport_event_cb id (event : TransportEvent) s : ClientState :=
  match cl_callbacks s !! id with
  | None => s
  | Some cb =>
      let error := match event with TrError e => Some e | _ => None end in
      let s := if bool_decide (is_Some error) || negb (is_stream_method (ci_method cb)) then unregister_callback id s else s in
      match error with
      | Some e =>
          let '(cb, s) :=
            if (te_code e =? 0)%Z then
              match ci_completion cb with
              | Some WaitUnit => complete id DoneUnit cb s
              | _ => fail_completion id (client_error_make 0 "") cb s
              end
            else handler_error_resp id e cb s in
          release id cb s
      | None =>
          match handler_success_resp id cb event s with
          | (Ok _, cb, s) => release id cb s
          | (Err _, cb, s) => (fail_completion id abandoned cb (unregister_callback id s)).2
          end
      end
  end.
End client.

(** [tokio::time::timeout] over reading the body, and what can go wrong. *)
Inductive ReadFailure := ReadTimeout | ReadError (e : string).
Inductive HttpAnswer :=
| HttpNoAnswer (timeout : bool) (e : string)
| HttpResponse (status : Z) (content_type : option string) (chunks : list string) (rest : option ReadFailure).

Notation Headers := (gmap string string).
(** [ClientCallInterceptor]: may change the payload and the headers. *)
Notation Interceptor := (string → string * Headers → string * Headers).
Definition protocol_version_interceptor (version : string) : Interceptor := λ _ ph,
  if str_is_empty version then ph else (ph.1, <["A2A-Version" := version]> ph.2).

Section transport.
Context `{!A2AText, !A2ACard}.
Implicit Types (s : ClientState) (user : UserData) (id : string).

(** * Answers *)

(** [finish]: whether the request was still in flight. *)
Definition finish_request id s : bool * ClientState :=
  (bool_decide (is_Some (cl_requests s !! id)), set_requests (delete id (cl_requests s)) s).

Definition transport_emit id (ev : TransportEvent) s : ClientState := transport_event_cb id ev s.
Definition finish_with user (ev : TransportEvent) s : ClientState :=
  let '(found, s) := finish_request (ud_request_id user) s in
  if found then transport_emit (ud_request_id user) ev s else s.
Definition fail_request user (code : Z) (message : string) s : ClientState :=
  finish_with user (TrError (mkTransportError code message)) s.
Definition on_stream_fin user s : ClientState := finish_with user (TrError stream_end) s.

Definition id_matches (data : Value) id : bool :=
  match vget "id" data with
  | None => true
  | Some (JString i) => bool_decide (i = id)
  | Some (JNumber n) => bool_decide (print_value (JNumber n) = id)
  | Some _ => false
  end.

Definition error_of (err : Value) : TransportError :=
  let e := match from_json_value err with Ok e => e | Err _ => default_a2a_error end in
  mkTransportError (ae_code e) (default "" (ae_message e)).
Definition event_of (ev : StreamEvent) : TransportEvent :=
  match ev with
  | EvTask t => TrTask t | EvMessage m => TrMessage m | EvStatusUpdate u => TrStatus u | EvArtifactUpdate a => TrArtifact a
  end.
Definition id_mismatch : string := "RequestId in response data does not match with requestId in request".

(** Whether the stream stays open. *)
Definition on_stream_resp user (data : Value) s : bool * ClientState :=
  match vget "error" data with
  | Some err => (false, finish_with user (TrError (error_of err)) s)
  | None =>
      if negb (id_matches data (ud_request_id user)) then
        (false, fail_request user (error_code InvalidAgentResponse) id_mismatch s)
      else
        match from_json_value (default JNull (vget "result" data)) with
        | Err e => (false, fail_request user (error_code JsonrpcParseError) e s)
        | Ok ev =>
            let last := match ev with EvStatusUpdate u => is_final_or_interrupted (ts_state (su_status u)) | _ => false end in
            if last then (false, finish_with user (event_of ev) s)
            else (true, transport_emit (ud_request_id user) (event_of ev) s)
        end
  end.

Definition result_of {T} `{!WireJson T} (data : Value) : JsonResult T :=
  let? r := ok_or (vget "result" data) "Response missing 'result' field" in from_json_value r.
Definition parse_result (method : string) (data : Value) : JsonResult TransportEvent :=
  if decide (method = METHOD_MESSAGE_SEND) then
    let? r := result_of data in Ok (match r with SendTask t => TrTask t | SendMessage m => TrMessage m end)
  else if bool_decide (method ∈ [METHOD_TASK_GET; METHOD_TASK_CANCEL]) then let? t := result_of data in Ok (TrTask t)
  else if bool_decide (method ∈ [METHOD_PUSH_SET; METHOD_PUSH_GET]) then let? c := result_of data in Ok (TrPushConfig c)
  else if decide (method = METHOD_PUSH_LIST) then
    let? r := ok_or (vget "result" data) "Response missing 'result' field" in
    let? cs := vec_of r "a sequence" in Ok (TrPushConfigs cs)
  else if decide (method = METHOD_PUSH_DELETE) then Ok TrNone
  else if decide (method = METHOD_AGENT_CARD_GET) then
    let? c := read_card (default data (vget "result" data)) in Ok (TrCard c)
  else Ok (TrError (mkTransportError (error_code JsonrpcMethodNotFound) "Method not found in response data")).

Definition on_non_stream_resp user (data : Value) s : ClientState :=
  let ev :=
    if negb (id_matches data (ud_request_id user)) then
      TrError (mkTransportError (error_code InvalidAgentResponse) id_mismatch)
    else
      match vget "error" data with
      | Some err => TrError (error_of err)
      | None =>
          match parse_result (ud_method user) data with
          | Ok ev => ev
          | Err e => TrError (mkTransportError (error_code A2aInvalidFormat) e)
          end
      end in
  transport_emit (ud_request_id user) ev s.

Definition handle_json_body user (text : string) s : ClientState :=
  if str_is_empty text then
    if ud_is_stream user then s else fail_request user HTTP_PARSE_ERROR "Empty non-streaming response" s
  else
    match parse_text text with
    | Err e => fail_request user (error_code JsonrpcParseError) e s
    | Ok json =>
        if ud_is_stream user then (on_stream_resp user json s).2
        else
          let '(found, s) := finish_request (ud_request_id user) s in
          if found then on_non_stream_resp user json s else s
    end.

(** Whether the stream is finished. *)
Definition deliver_sse_event user (data : string) s : bool * ClientState :=
  if str_is_empty data then (true, on_stream_fin user s)
  else
    match parse_text data with
    | Err e => (true, fail_request user (error_code JsonrpcParseError) e s)
    | Ok json => let '(open, s) := on_stream_resp user json s in (negb open, s)
    end.
(** Events of one chunk, until the stream is finished. *)
Fixpoint deliver_events user (evs : list SseEvent) s : bool * ClientState :=
  match evs with
  | [] => (false, s)
  | ev :: evs =>
      let '(done, s) := deliver_sse_event user (ev_data ev) s in
      if done then (true, s) else deliver_events user evs s
  end.

Definition read_failed user (f : ReadFailure) (timed_out : string) s : ClientState :=
  match f with
  | ReadTimeout => fail_request user (error_code A2aRequestTimeout) timed_out s
  | ReadError e => fail_request user (error_code A2aTransportException) ("HTTP request failed: " +:+ e) s
  end.

(** One chunk of a stream: the parser after it, or the end. *)
Definition sse_chunk user (chunk : string) (p : SseParser) s : option (option SseParser * ClientState) :=
  '(evs, p) ← feed p chunk;
  let '(done, s) := deliver_events user evs s in
  Some (if done then None else Some p, s).
Definition sse_close user (rest : option ReadFailure) (p : SseParser) s : ClientState :=
  match rest with
  | Some f => read_failed user f "SSE read timeout" s
  | None =>
      match (finish p).1 with
      | Some last => let '(done, s) := deliver_sse_event user (ev_data last) s in if done then s else on_stream_fin user s
      | None => on_stream_fin user s
      end
  end.
(** [None] would be a parser that does not return. *)
Fixpoint handle_sse_body user (chunks : list string) (rest : option ReadFailure) (p : SseParser) s : option ClientState :=
  match chunks with
  | [] => Some (sse_close user rest p s)
  | chunk :: chunks =>
      '(p, s) ← sse_chunk user chunk p s;
      match p with Some p => handle_sse_body user chunks rest p s | None => Some s end
  end.

Definition CONTENT_TYPE_JSON : string := "application/json".
Definition CONTENT_TYPE_SSE : string := "text/event-stream".

(** [run_request] from the answer on. *)
Definition run_request user (answer : HttpAnswer) s : option ClientState :=
  match answer with
  | HttpNoAnswer true e => Some (fail_request user (error_code A2aRequestTimeout) ("HTTP request failed: " +:+ e) s)
  | HttpNoAnswer false e => Some (fail_request user (error_code A2aTransportException) ("HTTP request failed: " +:+ e) s)
  | HttpResponse status content_type chunks rest =>
      if (status =? 404)%Z then Some (fail_request user status "Session not found or expired" s)
      else if negb (status =? 200)%Z then Some (fail_request user status "Http status not ok" s)
      else
        match content_type with
        | None => Some (fail_request user HTTP_PARSE_ERROR "Content-Type not found in header" s)
        | Some ct =>
            if str_contains CONTENT_TYPE_JSON ct then
              Some (match rest with
                    | None => handle_json_body user (from_utf8_lossy (String.concat "" chunks)) s
                    | Some f => read_failed user f "HTTP request failed: timeout" s
                    end)
            else if str_contains CONTENT_TYPE_SSE ct then handle_sse_body user chunks rest parser_new s
            else Some (fail_request user HTTP_PARSE_ERROR "application/json or text/event-stream not found in header" s)
        end
  end.

(** * Requests *)

(** What is sent: the method decides between GET and POST, and the headers. *)
Record Sent := mkSent { sent_user : UserData; sent_body : string; sent_headers : Headers }.

Definition transport_closed : A2aClientError := client_error_from_code A2aTransportException "transport exception".
Definition submit user (body : string) (headers : Headers) s : result Sent A2aClientError * ClientState :=
  if cl_closed s then (Err transport_closed, s)
  else (Ok (mkSent user body headers), set_requests (<[ud_request_id user := user]> (cl_requests s)) s).

Definition apply_interceptors (interceptors : list Interceptor) (method payload : string) : string * Headers :=
  foldl (λ ph i, i method ph) (payload, ∅) interceptors.
Definition rpc_request id (method : string) (payload : Value) : Value :=
  JObject [("jsonrpc", JString "2.0"); ("id", JString id); ("method", JString method); ("params", payload)].
Definition transport_send (interceptors : list Interceptor) id (method : string) (payload : Value) (timeout : Z) s :
    result Sent A2aClientError * ClientState :=
  let '(data, headers) := apply_interceptors interceptors method (print_value (rpc_request id method payload)) in
  submit (mkUserData id method (is_stream_method method) timeout) data headers s.
(** The request methods of the transport: serialize, then [send]. *)
Definition transport_call {T} `{!WireJson T} (interceptors : list Interceptor) id (method : string) (params : T) (timeout : Z) s :
    result Sent A2aClientError * ClientState :=
  match to_json_value params with
  | Err e => (Err (client_error_from_code A2aInvalidInput e), s)
  | Ok payload => transport_send interceptors id method payload timeout s
  end.

(** [close]: what is pending fails, in the order of the map. *)
Definition transport_close s : ClientState :=
  let pending := map_to_list (cl_requests s) in
  let s := mkClient (cl_callbacks s) ∅ true (cl_outcomes s) (cl_handled s) (cl_consumed s) (cl_uuids s) in
  foldl (λ s p, transport_emit p.1 (TrError (mkTransportError (error_code A2aStatusError) "Transport is closed")) s) s pending.

(** ** The client *)

Record ClientConfig := mkClientConfig {
  cc_streaming : bool; cc_polling : bool; cc_output_modes : option (list string);
  cc_push_configs : list PushNotificationConfig; cc_interceptors : list Interceptor
}.
Context `{!A2AEnv} (config : ClientConfig) (card : AgentCard).

Definition can_stream : bool := cc_streaming config && default false (card_streams card).
Definition client_uuid s : string * ClientState :=
  (uuid_at (cl_uuids s),
   mkClient (cl_callbacks s) (cl_requests s) (cl_closed s) (cl_outcomes s) (cl_handled s) (cl_consumed s) (S (cl_uuids s))).

(** Registers, sends, and unregisters again when sending fails; the request
    that is awaited otherwise. *)
Definition start_request (cb : CallbackInfo) (send : string → ClientState → result Sent A2aClientError * ClientState) s :
    result Sent A2aClientError * ClientState :=
  let '(id, s) := client_uuid s in
  match send id (register_callback id cb s) with
  | (Ok sent, s) => (Ok sent, s)
  | (Err e, s) => (Err (transport_exception e), unregister_callback id s)
  end.
Definition stream_callback (method : string) : CallbackInfo :=
  mkCallback method (Some WaitUnit) true (if decide (method = METHOD_MESSAGE_SEND) then None else Some None).
Definition simple_callback (method : string) (wait : Completion) : CallbackInfo := mkCallback method (Some wait) false None.

Definition process_message_request (params : MessageSendParams) (timeout : Z) (method : string) s :
    result Sent A2aClientError * ClientState :=
  let m := sp_message params in
  if str_is_empty (msg_id m) || bool_decide (msg_parts m = []) then (Err invalid_input, s)
  else start_request (stream_callback method) (λ id, transport_call (cc_interceptors config) id method params timeout) s.

Definition client_params (msg : Message) : MessageSendParams :=
  mkSendParams
    (Some (mkSendConfig (cc_output_modes config) None (head (cc_push_configs config)) (Some (cc_polling config)))) msg None.
Definition client_send_message (msg : Message) (timeout : Z) : ClientState → result Sent A2aClientError * ClientState :=
  process_message_request (client_params msg) timeout
    (if can_stream then METHOD_MESSAGE_STREAM else METHOD_MESSAGE_SEND).
Definition simple_request {T} `{!WireJson T} (valid : bool) (method : string) (wait : Completion) (params : T) (timeout : Z) s :
    result Sent A2aClientError * ClientState :=
  if valid then
    start_request (simple_callback method wait) (λ id, transport_call (cc_interceptors config) id method params timeout) s
  else (Err invalid_input, s).
Definition client_get_task (p : TaskQueryParams) :=
  simple_request (negb (str_is_empty (q_id p))) METHOD_TASK_GET WaitTask p.
Definition client_cancel_task (p : TaskIdParams) :=
  simple_request (negb (str_is_empty (ip_id p))) METHOD_TASK_CANCEL WaitTask p.
Definition client_set_push (c : TaskPushNotificationConfig) :=
  simple_request (negb (str_is_empty (tp_task_id c))) METHOD_PUSH_SET WaitPushConfig c.
Definition client_get_push (p : GetTaskPushNotificationConfigParams) :=
  simple_request (negb (str_is_empty (gp_id p))) METHOD_PUSH_GET WaitPushConfig p.
Definition client_list_push (p : ListTaskPushNotificationConfigParams) :=
  simple_request (negb (str_is_empty (lp_id p))) METHOD_PUSH_LIST WaitPushConfigs p.
Definition client_delete_push (p : DeleteTaskPushNotificationConfigParams) :=
  simple_request (negb (str_is_empty (dp_id p))) METHOD_PUSH_DELETE WaitUnit p.
Definition client_resubscribe (p : TaskIdParams) (timeout : Z) s : result Sent A2aClientError * ClientState :=
  if can_stream then
    start_request (mkCallback METHOD_TASK_RESUBSCRIBE (Some WaitUnit) true (Some None))
      (λ id, transport_call (cc_interceptors config) id METHOD_TASK_RESUBSCRIBE p timeout) s
  else (Err (client_error_from_code UnsupportedOperation "client and/or server do not support resubscription."), s).
Definition client_get_card (timeout : Z) : ClientState → result Sent A2aClientError * ClientState :=
  start_request (simple_callback METHOD_AGENT_CARD_GET WaitCard)
    (λ id, submit (mkUserData id METHOD_AGENT_CARD_GET false timeout) "" ∅).
End transport.
