(* ===== verification/A2AEndToEnd.v ===== *)
(** One stream as the client hears it: every response of the server becomes
    one call of the handler, and the end of the stream one outcome.

    A client and a server of A2A together: what the executor does to a task is
    what the handler of the client sees, over JSON, Server-Sent Events and any
    way the network cuts the stream. *)
From S2P Require Import Prelude OpMonad RustMap RustStr Json Sse JsonRpc A2AData A2AWireFacts A2ATasks A2AHandler A2AServerReach A2AServerFacts A2AAnswers A2AServer A2AClient.

(** Text that serde_json reads back as the value it wrote, and that fits the
    event format. *)
Class A2ATextLaws `{!A2AText} := {
  text_ok : Value → Prop;
  text_roundtrip v : text_ok v → parse_text (print_value v) = Ok v;
  text_clean v : data_ok (print_value v) ∧ str_is_empty (print_value v) = false
}.

(** * What the handler is called with *)

Section view.
Context `{!A2ACard}.

Fixpoint client_view (mgr : ClientTaskManager) (evs : list StreamEvent) : list ClientEvent :=
  match evs with
  | [] => []
  | ev :: evs => match stream_event mgr (event_of ev) with Ok (mgr, ce, _) => ce :: client_view mgr evs | Err _ => [] end
  end.
Definition seen_task (ce : ClientEvent) : option Task := match ce with CeTask t _ => Some t | _ => None end.
Definition last_seen (ces : list ClientEvent) : option Task := last (omap seen_task ces).

(** Events of one stream: the snapshot comes first. *)
Definition after_snapshot (evs : list StreamEvent) : Prop := Forall (λ ev, match ev with EvTask _ => False | _ => True end) evs.
Definition client_event_task (ev : StreamEvent) (t : Task) : Task :=
  match ev with
  | EvStatusUpdate u => client_apply_status u t
  | EvArtifactUpdate a => client_append_artifact a t
  | _ => t
  end.
Definition update_of (ev : StreamEvent) (t : Task) : ClientEvent :=
  match ev with
  | EvStatusUpdate u => CeTask t (UpdStatus u)
  | EvArtifactUpdate a => CeTask t (UpdArtifact a)
  | EvTask t' => CeTask t' UpdNone
  | EvMessage m => CeMessage m
  end.
Definition last_event (ev : StreamEvent) : bool :=
  match ev with EvStatusUpdate u => is_final_or_interrupted (ts_state (su_status u)) | _ => false end.

Lemma stream_event_first t : stream_event None (event_of (EvTask t)) = Ok (Some t, CeTask t UpdNone, false).
Proof. done. Qed.
Lemma stream_event_next t ev :
  match ev with EvTask _ => False | _ => True end →
  stream_event (Some t) (event_of ev) = Ok (Some (client_event_task ev t), update_of ev (client_event_task ev t), last_event ev).
Proof. by destruct ev. Qed.

Lemma client_view_next t evs :
  after_snapshot evs →
  last (t :: omap seen_task (client_view (Some t) evs)) = Some (foldl (λ t ev, client_event_task ev t) t evs).
Proof.
  intros Hevs. revert t. induction Hevs as [|ev evs Hev _ IH]; intros t; [done|].
  cbn [client_view foldl]. rewrite stream_event_next by done. rewrite <-IH. by destruct ev.
Qed.
Lemma client_view_last t evs :
  after_snapshot evs → last_seen (client_view None (EvTask t :: evs)) = Some (foldl (λ t ev, client_event_task ev t) t evs).
Proof. intros Hevs. rewrite <-(client_view_next t evs Hevs). done. Qed.
End view.

(** * One request *)

Section hearing.
Context `{!A2AText, !A2ACard, !A2ATextLaws}.
Implicit Types (c : ClientState) (user : UserData) (id : string).

(** The stream [user] is in flight and its handler waits, with [mgr]. *)
Definition hearing user mgr c : Prop :=
  let id := ud_request_id user in
  (∃ method, is_stream_method method = true ∧
     cl_callbacks c !! id = Some (mkCallback method (Some WaitUnit) true (Some mgr))) ∧
  is_Some (cl_requests c !! id).
(** It ended well. *)
Definition ended user c c' : Prop :=
  let id := ud_request_id user in
  cl_callbacks c' !! id = None ∧ cl_requests c' !! id = None ∧ cl_outcomes c' = cl_outcomes c ++ [(id, Ok DoneUnit)].

Lemma stream_not_send method : is_stream_method method = true → method ≠ METHOD_MESSAGE_SEND.
Proof. intros Hm ->. done. Qed.

(** An event that arrives while the stream is open. *)
Lemma event_heard user mgr c ev mgr' ce :
  hearing user mgr c → stream_event mgr (event_of ev) = Ok (mgr', ce, false) →
  let c' := transport_emit (ud_request_id user) (event_of ev) c in
  hearing user mgr' c' ∧ cl_handled c' = cl_handled c ++ [(ud_request_id user, ce)] ∧ cl_outcomes c' = cl_outcomes c.
Proof.
  intros [(m & Hm & Hcb) Hreq] Hev. cbv zeta. unfold transport_emit, transport_event_cb. rewrite Hcb.
  assert (match event_of ev with TrError e => Some e | _ => None end = None) as -> by (by destruct ev).
  rewrite bool_decide_false by (by intros []). cbn [ci_method orb]. rewrite Hm. cbn [negb].
  unfold handler_success_resp. cbn [ci_method ci_mgr default from_option]. unfold Datatypes.id.
  rewrite decide_False by (by apply stream_not_send). rewrite Hm, Hev.
  unfold release. cbn [consume call_handler ci_handler cl_callbacks set_mgr ci_method ci_completion ci_mgr]. rewrite Hcb.
  split; [split|done]; [|exact Hreq]. exists m. split; [done|]. cbn. by rewrite lookup_insert_eq.
Qed.
(** The event that ends it: the request is no longer in flight. *)
Lemma last_heard user mgr c ev mgr' ce :
  hearing user mgr c → stream_event mgr (event_of ev) = Ok (mgr', ce, true) →
  let c' := finish_with user (event_of ev) c in
  ended user c c' ∧ cl_handled c' = cl_handled c ++ [(ud_request_id user, ce)].
Proof.
  intros [(m & Hm & Hcb) Hreq] Hev. cbv zeta. unfold finish_with, finish_request. rewrite bool_decide_true by done.
  unfold transport_emit, transport_event_cb. cbn [cl_callbacks set_requests]. rewrite Hcb.
  assert (match event_of ev with TrError e => Some e | _ => None end = None) as -> by (by destruct ev).
  rewrite bool_decide_false by (by intros []). cbn [ci_method orb]. rewrite Hm. cbn [negb].
  unfold handler_success_resp. cbn [ci_method ci_mgr default from_option]. unfold Datatypes.id.
  rewrite decide_False by (by apply stream_not_send). rewrite Hm, Hev.
  unfold complete. cbn [set_mgr ci_completion ci_method ci_handler ci_mgr kind_of]. rewrite decide_True by done.
  unfold release. cbn. rewrite lookup_delete_eq. cbn. split; [|done]. split; [|split]; cbn; by rewrite ?lookup_delete_eq.
Qed.
(** The end of the connection. *)
Lemma fin_heard user mgr c :
  hearing user mgr c → let c' := on_stream_fin user c in ended user c c' ∧ cl_handled c' = cl_handled c.
Proof.
  intros [(m & Hm & Hcb) Hreq]. cbv zeta. unfold on_stream_fin, finish_with, finish_request. rewrite bool_decide_true by done.
  unfold transport_emit, transport_event_cb. cbn [cl_callbacks set_requests]. rewrite Hcb.
  rewrite bool_decide_true by (by eexists). cbn [orb te_code stream_end Z.eqb ci_completion].
  unfold complete. cbn [ci_completion kind_of]. rewrite decide_True by done.
  unfold release. cbn. rewrite lookup_delete_eq. cbn. split; [|done]. split; [|split]; cbn; by rewrite ?lookup_delete_eq.
Qed.

(** ** Responses *)

(** The response that carries an event. *)
Definition event_response id (ev : StreamEvent) (v : Value) : Prop :=
  ∃ w, to_json_value ev = Ok w ∧ v = JObject [("jsonrpc", JString JSONRPC_VERSION); ("id", JString id); ("result", w)].

Lemma resp_heard user ev v c :
  wire_ok ev → event_response (ud_request_id user) ev v →
  on_stream_resp user v c =
    if last_event ev then (false, finish_with user (event_of ev) c)
    else (true, transport_emit (ud_request_id user) (event_of ev) c).
Proof.
  intros Hok (w & Hw & ->). destruct (wire_roundtrips ev Hok) as (w' & Hw' & Hr). assert (w' = w) as -> by congruence.
  set (v := JObject _). assert (id_matches v (ud_request_id user) = true) as Hid.
  { unfold id_matches, v. cbn. by apply bool_decide_eq_true. }
  assert (vget "error" v = None ∧ vget "result" v = Some w) as [He Hv] by done.
  unfold on_stream_resp. rewrite Hid, He, Hv. cbn [negb default from_option]. unfold Datatypes.id. rewrite Hr. by destruct ev.
Qed.

Lemma deliver_heard user ev v c :
  text_ok v → wire_ok ev → event_response (ud_request_id user) ev v →
  deliver_sse_event user (print_value v) c =
    if last_event ev then (true, finish_with user (event_of ev) c)
    else (false, transport_emit (ud_request_id user) (event_of ev) c).
Proof.
  intros Ht Hok Hev. unfold deliver_sse_event. destruct (text_clean v) as [_ ->]. rewrite text_roundtrip by done.
  rewrite (resp_heard user ev) by done. by destruct (last_event ev).
Qed.

(** ** A stream *)

(** Responses that carry the events. *)
Definition carried id (ev : StreamEvent) (d : string) : Prop :=
  wire_ok ev ∧ ∃ v, text_ok v ∧ event_response id ev v ∧ d = print_value v.
(** Only the first event is a snapshot. *)
Definition viewable (mgr : ClientTaskManager) (evs : list StreamEvent) : Prop :=
  match mgr, evs with
  | Some _, _ => after_snapshot evs
  | None, EvTask _ :: evs => after_snapshot evs
  | None, evs => evs = []
  end.
Lemma viewable_cons mgr ev evs :
  viewable mgr (ev :: evs) → ∃ t ce, stream_event mgr (event_of ev) = Ok (Some t, ce, last_event ev) ∧ after_snapshot evs.
Proof.
  destruct mgr as [t|]; cbn [viewable].
  - intros [Hev Hevs]%Forall_cons. eexists _, _. split; [by apply stream_event_next|done].
  - destruct ev as [t| | |]; [|done..]. intros Hevs. by eexists _, _.
Qed.
Lemma last_final ev : last_event ev = true → is_final_event ev = true.
Proof. by destruct ev. Qed.

Lemma events_heard user mgr c evs ds :
  hearing user mgr c → viewable mgr evs → up_to_final evs = evs → Forall2 (carried (ud_request_id user)) evs ds →
  let '(done, c') := deliver_events user (data_event <$> ds) c in
  cl_handled c' = cl_handled c ++ (pair (ud_request_id user) <$> client_view mgr evs) ∧
  if done then ended user c c' else ∃ mgr', hearing user mgr' c' ∧ cl_outcomes c' = cl_outcomes c.
Proof.
  intros Hc Hv Hf Hds. revert mgr c Hc Hv Hf. induction Hds as [|ev d evs ds (Hok & v & Ht & Hev & ->) Hds IH]; intros mgr c Hc Hv Hf.
  { cbn. rewrite app_nil_r. split; [done|]. by exists mgr. }
  destruct (viewable_cons mgr ev evs Hv) as (t & ce & Hse & Hevs).
  cbn [fmap list_fmap deliver_events ev_data data_event client_view]. rewrite (deliver_heard user ev v) by done. rewrite Hse.
  cbn [up_to_final] in Hf. destruct (last_event ev) eqn:Hl.
  - rewrite (last_final ev Hl) in Hf. injection Hf as <-. inv Hds. cbn [client_view fmap list_fmap].
    destruct (last_heard user mgr c ev (Some t) ce Hc Hse) as [He Hh]. by split.
  - destruct (event_heard user mgr c ev (Some t) ce Hc Hse) as (Hc' & Hh & Ho).
    assert (up_to_final evs = evs) as Hf' by (destruct (is_final_event ev); injection Hf as Hf; [by rewrite <-Hf|done]).
    specialize (IH (Some t) _ Hc' Hevs Hf'). destruct (deliver_events _ _ _) as [done c2]. destruct IH as [Hh2 Hd].
    rewrite Hh2, Hh, <-app_assoc. split; [done|]. destruct done.
    + destruct Hd as (? & ? & Hout). split; [done|]. split; [done|]. by rewrite Hout, Ho.
    + destruct Hd as (mgr' & ? & Hout). exists mgr'. split; [done|]. by rewrite Hout, Ho.
Qed.

(** ** The body *)

Lemma deliver_events_app user e1 e2 c :
  deliver_events user (e1 ++ e2) c =
  let '(done, c) := deliver_events user e1 c in if done then (true, c) else deliver_events user e2 c.
Proof.
  revert c. induction e1 as [|ev e1 IH]; intros c; [done|]. cbn [app deliver_events].
  destruct (deliver_sse_event user (ev_data ev) c) as [[] c']; [done|]. apply IH.
Qed.
(** Reading chunk by chunk delivers the events of all of them. *)
Lemma sse_body_events user chunks rest p c evs q :
  feed_all p chunks = Some (evs, q) →
  handle_sse_body user chunks rest p c =
    let '(done, c) := deliver_events user evs c in Some (if done then c else sse_close user rest q c).
Proof.
  revert p c evs q. induction chunks as [|chunk chunks IH]; intros p c evs q; cbn [feed_all handle_sse_body].
  - by intros [= <- <-].
  - unfold sse_chunk. destruct (feed p chunk) as [[e1 p1]|]; [|done]. cbn.
    destruct (feed_all p1 chunks) as [[e2 p2]|] eqn:H2; [|done]. cbn. intros [= <- <-]. rewrite deliver_events_app.
    destruct (deliver_events user e1 c) as [[] c']; [done|]. cbn. by apply IH.
Qed.

Lemma idle_close user p c : idle p → sse_close user None p c = on_stream_fin user c.
Proof.
  intros [Hb (_ & _ & _ & _ & Hs) _]. unfold sse_close, finish. rewrite Hb. cbn. unfold dispatch. by rewrite Hs.
Qed.

Lemma carried_clean id evs ds : Forall2 (carried id) evs ds → Forall data_ok ds.
Proof. induction 1 as [|ev d evs ds (_ & v & _ & _ & ->) _ IH]; constructor; [apply text_clean|done]. Qed.

(** A stream of responses, however it is cut: every event is heard, once, and
    the request ends once and well. *)
Lemma stream_heard user mgr c evs ds chunks :
  hearing user mgr c → viewable mgr evs → up_to_final evs = evs → Forall2 (carried (ud_request_id user)) evs ds →
  String.concat "" chunks = wire_of ds →
  ∃ c', run_request user (HttpResponse 200 (Some CONTENT_TYPE_SSE) chunks None) c = Some c' ∧ ended user c c' ∧
    cl_handled c' = cl_handled c ++ (pair (ud_request_id user) <$> client_view mgr evs).
Proof.
  intros Hc Hv Hf Hds Hch. destruct (feed_all_events parser_new ds chunks idle_new (carried_clean _ _ _ Hds) Hch) as (q & Hq & Hqi).
  pose proof (events_heard user mgr c evs ds Hc Hv Hf Hds) as Hev. unfold run_request. cbn [Z.eqb Pos.eqb negb].
  replace (str_contains CONTENT_TYPE_JSON CONTENT_TYPE_SSE) with false by done.
  replace (str_contains CONTENT_TYPE_SSE CONTENT_TYPE_SSE) with true by done.
  rewrite (sse_body_events user chunks None parser_new c _ q Hq).
  destruct (deliver_events user (data_event <$> ds) c) as [done c1]. destruct Hev as [Hh Hd]. eexists. split; [reflexivity|].
  destruct done; [by split|]. destruct Hd as (mgr' & Hc1 & Ho). rewrite idle_close by done.
  destruct (fin_heard user mgr' c1 Hc1) as [(Hcb & Hrq & Hout) Hhd]. rewrite Hhd, Hh. split; [|done].
  split; [done|]. split; [done|]. by rewrite Hout, Ho.
Qed.
End hearing.

(** * The two views of a task *)

(** The client keeps the message of the current status in the history, the
    server takes it there when the status is replaced. *)
Record follows (ts tc : Task) : Prop := {
  fo_ids : tk_id tc = tk_id ts ∧ tk_context_id tc = tk_context_id ts;
  fo_status : tk_status tc = tk_status ts;
  fo_artifacts : tk_artifacts tc = tk_artifacts ts;
  fo_metadata : tk_metadata tc = tk_metadata ts;
  fo_history : default [] (tk_history tc) = default [] (tk_history ts) ++ option_list (ts_message (tk_status ts))
}.

(** Where the two disagree: a chunk to be appended to an artifact nobody has
    seen, and metadata for a task that has some. *)
Definition tame_event (t : Task) (ev : StreamEvent) : Prop :=
  match ev with
  | EvArtifactUpdate e =>
      default false (au_append e) = true → ∃ a, a ∈ default [] (tk_artifacts t) ∧ art_id a = art_id (au_artifact e)
  | EvStatusUpdate u => su_metadata u = None ∨ tk_metadata t = None
  | _ => True
  end.
Fixpoint tame (t : Task) (evs : list StreamEvent) : Prop :=
  match evs with [] => True | ev :: evs => tame_event t ev ∧ tame (event_task ev t) evs end.

Lemma follows_status u ts tc :
  follows ts tc → su_metadata u = None ∨ tk_metadata ts = None → follows (apply_status u ts) (client_apply_status u tc).
Proof.
  intros [[Hi Hc] Hs Ha Hm Hh] Ht. unfold apply_status, client_apply_status, flush_status_message.
  destruct ts as [a1 c1 h1 i1 m1 [msg st ti] ca lm], tc as [a2 c2 h2 i2 m2 s2 ca2 lm2]. cbn in *. subst.
  destruct u as [uc um [smsg sst sti] ui]. cbn in *.
  assert (merge_metadata m1 um = match um with Some _ => um | None => m1 end) as Hmerge.
  { destruct um as [um|]; [destruct Ht as [|Ht]; [done|by subst]|]. by destruct m1 as [[]|]. }
  destruct msg as [msg|], smsg as [smsg|], um as [um|], m1 as [m1|];
    (split; cbn in *; [done|done|done|try done; by destruct Ht|unfold push_to; cbn; by rewrite ?Hh, ?app_nil_r]).
Qed.

Lemma follows_artifact e ts tc :
  follows ts tc → tame_event ts (EvArtifactUpdate e) → follows (append_artifact_to_task e ts) (client_append_artifact e tc).
Proof.
  intros [Hi Hs Ha Hm Hh] Ht. unfold append_artifact_to_task, client_append_artifact. rewrite Ha.
  split; cbn [with_artifacts tk_id tk_context_id tk_status tk_artifacts tk_metadata tk_history]; [done|done| |done|done].
  cbn [tame_event] in Ht. f_equal. destruct (default false (au_append e)), (list_find _ _) as [[i slot]|] eqn:Hf; try done.
  exfalso. destruct (Ht eq_refl) as (a & Hin & Hid). apply list_find_None in Hf. rewrite Forall_forall in Hf. by apply (Hf a).
Qed.

Lemma follows_events evs ts tc :
  after_snapshot evs → follows ts tc → tame ts evs →
  follows (foldl (λ t ev, event_task ev t) ts evs) (foldl (λ t ev, client_event_task ev t) tc evs).
Proof.
  intros Hevs. revert ts tc. induction Hevs as [|ev evs Hev _ IH]; intros ts tc Hf Ht; [done|]. cbn [foldl].
  destruct Ht as [Hte Ht]. apply IH; [|done]. destruct ev; [done|done|by apply follows_artifact|by apply follows_status].
Qed.
Lemma follows_refl t : ts_message (tk_status t) = None → follows t t.
Proof. intros Hm. split; try done. by rewrite Hm, app_nil_r. Qed.

(** * Events as text *)

Section wire.
Context `{!A2AEnv, !A2AText, !A2ACard, !A2ATextLaws}.

Definition response_json (id : string) (w : Value) : Value :=
  JObject [("jsonrpc", JString JSONRPC_VERSION); ("id", JString id); ("result", w)].
(** Every event can be written, and its text read back. *)
Definition speakable (id : string) (evs : list StreamEvent) : Prop :=
  Forall (λ ev, wire_ok ev ∧ ∀ w, to_json_value ev = Ok w → text_ok (response_json id w)) evs.

Lemma chunks_carried id evs :
  speakable id evs → ∃ ds, Forall2 (carried id) evs ds ∧ String.concat "" (omap (chunk_of (Some (Str id))) evs) = wire_of ds.
Proof.
  induction 1 as [|ev evs [Hok Ht] _ (ds & Hds & Hc)]; [by exists []|].
  destruct (wire_roundtrips ev Hok) as (w & Hw & _). exists (print_value (response_json id w) :: ds). split.
  - constructor; [|done]. split; [done|]. exists (response_json id w). split; [by apply Ht|]. split; [by exists w|done].
  - cbn [omap list_omap]. unfold chunk_of at 1, success_response. rewrite Hw. rewrite concat_cons, Hc.
    unfold wire_of. cbn [fmap list_fmap]. rewrite concat_cons. done.
Qed.

(** * The request *)

Definition quiet_interceptors (config : ClientConfig) : Prop :=
  Forall (λ i : Interceptor, ∀ method payload headers, (i method (payload, headers)).1 = payload) (cc_interceptors config).

Lemma intercepted l method payload :
  Forall (λ i : Interceptor, ∀ method payload headers, (i method (payload, headers)).1 = payload) l →
  (apply_interceptors l method payload).1 = payload.
Proof.
  unfold apply_interceptors. generalize (∅ : gmap string string). intros hs Hl. revert hs.
  induction Hl as [|i l Hi _ IH]; intros hs; [done|]. cbn [foldl].
  pose proof (Hi method payload hs). destruct (i method (payload, hs)) as [p hs']. cbn in *. subst. apply IH.
Qed.

(** A stream that was asked for: what is on the wire, and who waits. *)
Lemma stream_requested config card msg timeout c sent c1 :
  can_stream config card = true → quiet_interceptors config →
  client_send_message config card msg timeout c = (Ok sent, c1) →
  let id := uuid_at (cl_uuids c) in
  ∃ payload, to_json_value (client_params config msg) = Ok payload ∧
    sent_body sent = print_value (rpc_request id METHOD_MESSAGE_STREAM payload) ∧
    sent_user sent = mkUserData id METHOD_MESSAGE_STREAM true timeout ∧
    hearing (sent_user sent) None c1 ∧ cl_outcomes c1 = cl_outcomes c ∧ cl_handled c1 = cl_handled c.
Proof.
  intros Hcan Hq. unfold client_send_message, process_message_request, start_request, transport_call, transport_send, submit.
  rewrite Hcan. cbv zeta. destruct (_ || _); [done|]. cbn [client_uuid].
  destruct (to_json_value (client_params config msg)) as [payload|]; [|done].
  pose proof (intercepted (cc_interceptors config) METHOD_MESSAGE_STREAM
    (print_value (rpc_request (uuid_at (cl_uuids c)) METHOD_MESSAGE_STREAM payload)) Hq) as Hp.
  destruct (apply_interceptors _ _ _) as [data headers]. cbn in Hp. subst. cbn [cl_closed register_callback set_callbacks].
  destruct (cl_closed c); [done|]. intros [= <- <-]. exists payload. split_and!; try done. cbn. split.
  - exists METHOD_MESSAGE_STREAM. split; [done|]. cbn. by rewrite lookup_insert_eq.
  - cbn. rewrite lookup_insert_eq. by eexists.
Qed.

(** * The events *)

Lemma up_to_final_idem evs : up_to_final (up_to_final evs) = up_to_final evs.
Proof. induction evs as [|ev evs IH]; [done|]. cbn. destruct (is_final_event ev) eqn:Hf; [done|]. by rewrite IH. Qed.
Lemma up_to_final_Forall (P : StreamEvent → Prop) evs : Forall P evs → Forall P (up_to_final evs).
Proof. induction 1 as [|ev evs Hev _ IH]; [constructor|]. cbn. constructor; [done|]. by destruct (is_final_event ev). Qed.
Lemma call_events_after cs u s : after_snapshot (call_events cs u s).
Proof.
  revert u s. induction cs as [|c cs IH]; intros u s; [constructor|]. cbn [call_events].
  destruct (call_event c u s) as [ev|] eqn:Hev; [|apply IH]. constructor; [by destruct c; cbn in Hev; inv Hev|].
  destruct (closing c); [constructor|apply IH].
Qed.

(** A new task: the last view of the client and the stored task. *)
Lemma new_task_followed cfg (Hfresh : uuids_fresh) params conn s u s1 cs :
  server_inv cfg s → conn_fresh conn s → begin_stream cfg params conn s = (Ok (Some u), s1) →
  ∀ t, sv_tasks s1 !! up_task_id u = Some t → tk_status t = status_new Submitted → tame t (call_events cs u s1) →
  ∃ ts tc, sv_tasks (updater_calls cs u s1).2 !! up_task_id u = Some ts ∧
    last_seen (client_view None (up_to_final (EvTask t :: call_events cs u s1))) = Some tc ∧ follows ts tc.
Proof.
  intros Hinv Hc Hb t Ht Hst Htame. destruct (stream_listening cfg params conn s u s1 Hfresh Hinv Hc Hb) as [Hlis _].
  destruct (stream_calls _ conn cs u s1 t Hlis Ht) as [_ Hts]. eexists _, _. split; [exact Hts|]. split.
  - cbn [up_to_final is_final_event]. rewrite Hst. cbn [ts_state status_new].
    change (is_final_or_interrupted Submitted || bool_decide (Submitted = Unspecified)) with false. cbv iota.
    rewrite call_events_final. apply client_view_last, call_events_after.
  - apply follows_events; [apply call_events_after| |done]. apply follows_refl. by rewrite Hst.
Qed.

(** * The theorem *)

End wire.
