(* ===== verification/A2AClientRun.v ===== *)
(** The requests of an A2A client in any interleaving: each ends at most once,
    and ends when the exchange that carries it does.

    A client at work: its calls, the awaits of their exchanges and its close,
    in any order; what a request is waiting for when its exchange is over. *)
From S2P Require Import Prelude OpMonad RustMap RustStr Json Sse A2AData A2ATasks A2AServerFacts A2AClient.

Section reach.
Context `{!A2AText, !A2ACard}.
Implicit Types (c s : ClientState) (user : UserData) (id : string) (cb : CallbackInfo) (ev : TransportEvent).

(** * One event for a request that waits *)

(** Nothing but callbacks, outcomes and calls of handlers. *)
Definition same_transport c c' : Prop :=
  cl_requests c' = cl_requests c ∧ cl_uuids c' = cl_uuids c ∧ cl_closed c' = cl_closed c.

Lemma complete_spec id d cb s k :
  ci_completion cb = Some k →
  ∃ o, complete id d cb s = (set_completion None cb, end_request id o s).
Proof. intros Hk. unfold complete. rewrite Hk. by eexists. Qed.
Lemma fail_spec id e cb s k :
  ci_completion cb = Some k → fail_completion id e cb s = (set_completion None cb, end_request id (Err e) s).
Proof. intros Hk. unfold fail_completion. by rewrite Hk. Qed.

(** What a handler leaves: the request waits on, or it has ended. *)
Definition waits_on k cb cb' s s' : Prop :=
  (ci_completion cb' = Some k ∧ ci_method cb' = ci_method cb) ∧ cl_callbacks s' = cl_callbacks s ∧ cl_outcomes s' = cl_outcomes s.
Definition ends id cb cb' s s' : Prop :=
  ci_completion cb' = None ∧ (∃ o, cl_outcomes s' = cl_outcomes s ++ [(id, o)]) ∧
  cl_callbacks s' = if is_stream_method (ci_method cb) then delete id (cl_callbacks s) else cl_callbacks s.

Definition settled k id cb (r : result () string * CallbackInfo * ClientState) s : Prop :=
  same_transport s r.2 ∧ (waits_on k cb r.1.2 s r.2 ∨ r.1.1 = Ok () ∧ ends id cb r.1.2 s r.2).

(** Handlers and consumers are called. *)
Lemma call_handler_same id ce cb s :
  cl_callbacks (call_handler id ce cb s) = cl_callbacks s ∧ cl_outcomes (call_handler id ce cb s) = cl_outcomes s.
Proof. unfold call_handler. by destruct (ci_handler cb). Qed.
Lemma called_same id ce cb s :
  let s' := consume ce (call_handler id ce cb s) in
  same_transport s s' ∧ cl_callbacks s' = cl_callbacks s ∧ cl_outcomes s' = cl_outcomes s.
Proof. unfold call_handler. by destruct (ci_handler cb). Qed.

Lemma settled_done k id cb d s s0 :
  ci_completion cb = Some k → is_stream_method (ci_method cb) = false →
  same_transport s0 s → cl_callbacks s = cl_callbacks s0 → cl_outcomes s = cl_outcomes s0 →
  settled k id cb (let '(cb, s) := complete id d cb s in (Ok (), cb, s)) s0.
Proof.
  intros Hk Hst Hs Hc Ho. destruct (complete_spec id d cb s k Hk) as [o ->]. split; [exact Hs|]. right. split; [done|].
  split; [done|]. rewrite Hst. cbn. rewrite Hc, Ho. split; [by exists o|done].
Qed.
Lemma settled_err k id cb cb' e s :
  ci_completion cb' = Some k → ci_method cb' = ci_method cb → settled k id cb (Err e, cb', s) s.
Proof. intros Hk Hm. split; [done|]. by left. Qed.

Lemma settled_stream k id cb ev s :
  ci_completion cb = Some k → is_stream_method (ci_method cb) = true → settled k id cb (handler_success_resp id cb ev s) s.
Proof.
  intros Hk Hst. unfold handler_success_resp. rewrite decide_False by (by intros Heq; rewrite Heq in Hst). rewrite Hst.
  destruct (stream_event _ ev) as [[[mgr ce] last]|e]; [|by apply (settled_err k id)].
  destruct (called_same id ce (set_mgr (Some mgr) cb) s) as (Hs & Hc & Ho). revert Hs Hc Ho. generalize (consume ce (call_handler id ce (set_mgr (Some mgr) cb) s)). intros s1 Hs Hc Ho. destruct last.
  - destruct (complete_spec id DoneUnit (set_mgr (Some mgr) cb) s1 k Hk) as [o ->]. split; [exact Hs|]. right. split; [done|].
    split; [done|]. rewrite Hst. cbn. rewrite Hc, Ho. split; [by exists o|done].
  - split; [exact Hs|]. by left.
Qed.
Lemma settled_other k id cb ev s : ci_completion cb = Some k → settled k id cb (handler_success_resp id cb ev s) s.
Proof.
  intros Hk. destruct (is_stream_method (ci_method cb)) eqn:Hst; [by apply settled_stream|]. unfold handler_success_resp. rewrite Hst.
  assert (∀ d, settled k id cb (let '(cb, s) := complete id d cb s in (Ok (), cb, s)) s) as Hd by (intros d; by apply settled_done).
  assert (∀ e, settled k id cb (Err e, cb, s) s) as He by (intros e; by apply settled_err).
  destruct (decide (ci_method cb = METHOD_MESSAGE_SEND)) as [Hm|_].
  { destruct (sent_event ev) as [ce|e]; [|apply He]. destruct (called_same id ce cb s) as (Hs & Hc & Ho). by apply settled_done. }
  repeat match goal with |- context [if ?b then _ else _] => destruct b end;
    try (destruct ev; first [apply Hd|apply He]); try apply Hd. split; [done|]. by left.
Qed.

(** One event for a request that waits: it goes on waiting, or ends. *)
Definition is_error_event ev : bool := match ev with TrError _ => true | _ => false end.
Lemma transport_cb_spec id ev c cb k :
  cl_callbacks c !! id = Some cb → ci_completion cb = Some k →
  let c' := transport_event_cb id ev c in
  same_transport c c' ∧
  ((is_error_event ev = false ∧ is_stream_method (ci_method cb) = true ∧ cl_outcomes c' = cl_outcomes c ∧
    ∃ cb', (ci_completion cb' = Some k ∧ ci_method cb' = ci_method cb) ∧ cl_callbacks c' = <[id := cb']> (cl_callbacks c)) ∨
   (cl_callbacks c' = delete id (cl_callbacks c) ∧ ∃ o, cl_outcomes c' = cl_outcomes c ++ [(id, o)])).
Proof.
  intros Hcb Hk. cbv zeta. unfold transport_event_cb. rewrite Hcb.
  assert (∀ s cb', cl_callbacks s !! id = None → ci_completion cb' = None → release id cb' s = s) as Hrel.
  { intros s cb' Hs Hn. unfold release, fail_completion. by rewrite Hs, Hn. }
  destruct (is_error_event ev) eqn:He.
  - destruct ev as [e| | | | | | | |]; try done. rewrite bool_decide_true by (by eexists). cbn [orb].
    set (s1 := unregister_callback id c). assert (cl_callbacks s1 !! id = None) as Hs1 by (cbn; by rewrite lookup_delete_eq).
    assert (∃ o s2, (if (te_code e =? 0)%Z then
        match ci_completion cb with
        | Some WaitUnit => complete id DoneUnit cb s1
        | _ => fail_completion id (client_error_make 0 "") cb s1
        end else handler_error_resp id e cb s1) = (set_completion None cb, s2) ∧ same_transport c s2 ∧
        cl_callbacks s2 = cl_callbacks s1 ∧ cl_outcomes s2 = cl_outcomes s1 ++ [(id, o)]) as (o & s2 & -> & Hsame & Hc2 & Ho2).
    { destruct (te_code e =? 0)%Z.
      - rewrite Hk. destruct (complete_spec id DoneUnit cb s1 k Hk) as [o Heq].
        destruct k; rewrite ?Heq, ?(fail_spec id _ cb s1 _ Hk); by eexists _, _.
      - unfold handler_error_resp. rewrite (fail_spec id _ cb _ k Hk). eexists _, _. split; [reflexivity|].
        unfold call_handler. by destruct (handles_events _), (ci_handler cb). }
    rewrite Hrel by (rewrite ?Hc2; done). split; [done|]. right. split; [by rewrite Hc2|]. by exists o.
  - assert (match ev with TrError e => Some e | _ => None end = None) as -> by (by destruct ev).
    rewrite bool_decide_false by (by intros []). cbn [orb].
    destruct (is_stream_method (ci_method cb)) eqn:Hst; cbn [negb].
    + destruct (settled_other k id cb ev c Hk) as [Hsame Hw].
      destruct (handler_success_resp id cb ev c) as [[r cb'] s2]. cbn [fst snd] in *.
      destruct Hw as [([Hk' Hm'] & Hc2 & Ho2)|(-> & Hn & Ho2 & Hc2)]; [destruct r as [[]|e]|].
      * unfold release. rewrite Hc2, Hcb. split; [done|]. left. split_and!; [done..|]. exists cb'. split; [done|]. cbn. by rewrite Hc2.
      * rewrite (fail_spec id _ cb' _ k Hk'). split; [done|]. right. cbn. rewrite Hc2, Ho2. eauto.
      * rewrite Hst in Hc2. rewrite Hrel by (rewrite ?Hc2, ?lookup_delete_eq; done). split; [done|]. by right.
    + set (s1 := unregister_callback id c). assert (cl_callbacks s1 !! id = None) as Hs1 by (cbn; by rewrite lookup_delete_eq).
      destruct (settled_other k id cb ev s1 Hk) as [Hsame Hw].
      destruct (handler_success_resp id cb ev s1) as [[r cb'] s2]. cbn [fst snd] in *.
      destruct Hw as [([Hk' Hm'] & Hc2 & Ho2)|(-> & Hn & Ho2 & Hc2)]; [destruct r as [[]|e]|].
      * unfold release. rewrite Hc2, Hs1, (fail_spec id _ cb' _ k Hk'). split; [done|]. right. cbn. rewrite Hc2, Ho2. eauto.
      * rewrite (fail_spec id _ cb' _ k Hk'). split; [done|]. right. cbn. rewrite Hc2, Ho2. cbn. rewrite delete_delete_eq. eauto.
      * rewrite Hst in Hc2. rewrite Hrel by (rewrite ?Hc2; done). split; [done|]. right. by rewrite Hc2.
Qed.

(** * Every state of a client *)

Context `{!A2AEnv}.

Definition ended_ids c : list string := (cl_outcomes c).*1.
Record client_inv c : Prop := {
  ci_waiting id cb : cl_callbacks c !! id = Some cb → is_Some (ci_completion cb);
  ci_once : NoDup (ended_ids c);
  ci_apart id : is_Some (cl_callbacks c !! id) → id ∉ ended_ids c;
  ci_ids id : is_Some (cl_callbacks c !! id) ∨ id ∈ ended_ids c → ∃ i, i < cl_uuids c ∧ id = uuid_at i
}.

(** A request has ended, or it waits and its exchange goes on. *)
Definition pending user c : Prop := let id := ud_request_id user in
  cl_requests c !! id = Some user ∧ ∃ cb, cl_callbacks c !! id = Some cb ∧ ud_is_stream user = is_stream_method (ci_method cb).
Definition alive user c : Prop := pending user c ∨ ud_request_id user ∈ ended_ids c.

(** What an event about [j] does to others, and to [j]. *)
Record moves (j : string) c c' : Prop := {
  mv_inv : client_inv c → client_inv c';
  mv_ended : ended_ids c ⊆ ended_ids c';
  mv_other id : id ≠ j → cl_callbacks c' !! id = cl_callbacks c !! id ∧ cl_requests c' !! id = cl_requests c !! id
}.
Lemma moves_refl j c : moves j c c.
Proof. by split. Qed.
Lemma moves_trans j c1 c2 c3 : moves j c1 c2 → moves j c2 c3 → moves j c1 c3.
Proof.
  intros [I1 E1 O1] [I2 E2 O2]. split; [auto|set_solver|]. intros id Hid.
  destruct (O1 id Hid) as [<- <-], (O2 id Hid) as [<- <-]. done.
Qed.
Lemma moves_alive user j c c' : moves j c c' → ud_request_id user ≠ j → alive user c → alive user c'.
Proof.
  intros [_ He Ho] Hid [Hp|Ha]; [|right; by apply He]. left. destruct (Ho _ Hid) as [Heq1 Heq2].
  unfold pending. by rewrite Heq1, Heq2.
Qed.

Lemma moves_requests j m c :
  (∀ id, id ≠ j → m !! id = cl_requests c !! id) → moves j c (set_requests m c).
Proof. intros Hm. split; [by intros [? ? ? ?]|done|]. intros id Hid. split; [done|by apply Hm]. Qed.

Lemma emit_moves id ev c : client_inv c → moves id c (transport_emit id ev c).
Proof.
  intros Hinv. unfold transport_emit. destruct (cl_callbacks c !! id) as [cb|] eqn:Hcb; cycle 1.
  { unfold transport_event_cb. rewrite Hcb. apply moves_refl. }
  destruct (ci_waiting c Hinv id cb Hcb) as [k Hk].
  destruct (transport_cb_spec id ev c cb k Hcb Hk) as [(Hr & Hu & _) Hcase].
  set (c' := transport_event_cb id ev c) in *. clearbody c'.
  destruct Hcase as [(_ & _ & Ho & cb' & [Hk' _] & Hc)|(Hc & o & Ho)].
  - split; [|by unfold ended_ids; rewrite Ho|intros j Hj; by rewrite Hc, Hr, lookup_insert_ne].
    intros [W N A I]. unfold ended_ids in *. split; unfold ended_ids; rewrite ?Hc, ?Ho, ?Hu.
    + intros j cbj [[<- <-]|[_ Hj]]%lookup_insert_Some; [by eexists|by apply (W j)].
    + done.
    + intros j Hj. apply A. destruct (decide (j = id)) as [->|Hne]; [by eexists|by rewrite lookup_insert_ne in Hj].
    + intros j Hj. apply I. destruct (decide (j = id)) as [->|Hne]; [left; by eexists|by rewrite lookup_insert_ne in Hj].
  - split; [|unfold ended_ids; rewrite Ho, fmap_app; set_solver|intros j Hj; by rewrite Hc, Hr, lookup_delete_ne].
    intros [W N A I]. unfold ended_ids in *. split; unfold ended_ids; rewrite ?Hc, ?Ho, ?Hu, ?fmap_app; cbn [fmap list_fmap fst].
    + intros j cbj [_ Hj]%lookup_delete_Some. by apply (W j).
    + apply NoDup_app. split; [done|]. split; [|by apply NoDup_singleton].
      intros j Hj ->%list_elem_of_singleton. by apply (A id); [eexists|].
    + intros j [cbj [Hne Hj]%lookup_delete_Some]. rewrite elem_of_app, list_elem_of_singleton.
      intros [Hin| ->]; [|done]. by apply (A j); [eexists|].
    + intros j [[cbj [_ Hj]%lookup_delete_Some]|Hj]; [apply I; left; by eexists|].
      rewrite elem_of_app, list_elem_of_singleton in Hj. destruct Hj as [Hj| ->]; apply I; [by right|left; by eexists].
Qed.

(** An error ends a request that waits, any other event leaves it alive. *)
Lemma emit_error_ends id e c : client_inv c → is_Some (cl_callbacks c !! id) → id ∈ ended_ids (transport_emit id (TrError e) c).
Proof.
  intros Hinv [cb Hcb]. destruct (ci_waiting c Hinv id cb Hcb) as [k Hk].
  destruct (transport_cb_spec id (TrError e) c cb k Hcb Hk) as [_ [(? & _)|(_ & o & Ho)]]; [done|].
  unfold ended_ids, transport_emit. rewrite Ho, fmap_app. set_solver.
Qed.
Lemma emit_alive user ev c : client_inv c → alive user c → alive user (transport_emit (ud_request_id user) ev c).
Proof.
  intros Hinv [(Hr & cb & Hcb & Hst)|Ha]; [|right; by apply (mv_ended _ _ _ (emit_moves (ud_request_id user) ev c Hinv))].
  destruct (ci_waiting c Hinv _ cb Hcb) as [k Hk].
  destruct (transport_cb_spec _ ev c cb k Hcb Hk) as [(Hrq & _) [(_ & _ & _ & cb' & [_ Hm] & Hc)|(_ & o & Ho)]].
  - left. unfold transport_emit. split; [by rewrite Hrq|]. exists cb'. by rewrite Hc, lookup_insert_eq, Hm.
  - right. unfold ended_ids, transport_emit. rewrite Ho, fmap_app. set_solver.
Qed.
(** So does the last event of a stream, and any event for other requests. *)
Lemma emit_last_ends id ev c cb :
  client_inv c → cl_callbacks c !! id = Some cb →
  is_stream_method (ci_method cb) = false ∨ (∃ u, ev = TrStatus u ∧ is_final_or_interrupted (ts_state (su_status u)) = true) →
  id ∈ ended_ids (transport_emit id ev c).
Proof.
  intros Hinv Hcb Hev. destruct (ci_waiting c Hinv id cb Hcb) as [k Hk].
  destruct (transport_cb_spec id ev c cb k Hcb Hk) as [_ [(He & Hst & Ho & _)|(_ & o & Ho)]]; cycle 1.
  { unfold ended_ids, transport_emit. rewrite Ho, fmap_app. set_solver. }
  exfalso. destruct Hev as [Hns|(u & -> & Hu)]; [congruence|].
  assert (length (cl_outcomes (transport_event_cb id (TrStatus u) c)) = S (length (cl_outcomes c))) as Hlen; [|rewrite Ho in Hlen; lia].
  clear Ho. unfold transport_event_cb. rewrite Hcb. rewrite bool_decide_false by (by intros []). rewrite Hst. cbn [orb negb].
  unfold handler_success_resp. rewrite decide_False by (by intros Heq; rewrite Heq in Hst). rewrite Hst.
  cbn [stream_event client_save_event ok_or]. rewrite Hu.
  match goal with |- context [complete id DoneUnit ?cb' ?s'] => destruct (complete_spec id DoneUnit cb' s' k Hk) as [o ->] end.
  unfold release. cbn. rewrite lookup_delete_eq. cbn. rewrite (proj2 (call_handler_same _ _ _ _)), length_app. cbn. lia.
Qed.
End reach.

Section run.
Context `{!A2AText, !A2ACard, !A2AEnv}.
Implicit Types (c s : ClientState) (user : UserData) (id : string) (ev : TransportEvent).

(** * One exchange *)

(** The calls of a client. *)
Inductive ClientCall :=
| CallSend (m : Message) | CallGet (p : TaskQueryParams) | CallCancel (p : TaskIdParams)
| CallSetPush (p : TaskPushNotificationConfig) | CallGetPush (p : GetTaskPushNotificationConfigParams)
| CallListPush (p : ListTaskPushNotificationConfigParams) | CallDeletePush (p : DeleteTaskPushNotificationConfigParams)
| CallResubscribe (p : TaskIdParams) | CallCard.
Definition client_call (config : ClientConfig) (card : AgentCard) (call : ClientCall) (timeout : Z) :
    ClientState → result Sent A2aClientError * ClientState :=
  match call with
  | CallSend m => client_send_message config card m timeout
  | CallGet p => client_get_task config p timeout
  | CallCancel p => client_cancel_task config p timeout
  | CallSetPush p => client_set_push config p timeout
  | CallGetPush p => client_get_push config p timeout
  | CallListPush p => client_list_push config p timeout
  | CallDeletePush p => client_delete_push config p timeout
  | CallResubscribe p => client_resubscribe config card p timeout
  | CallCard => client_get_card timeout
  end.

Definition is_sse (answer : HttpAnswer) : bool :=
  match answer with
  | HttpResponse status (Some ct) _ _ =>
      (status =? 200)%Z && negb (str_contains CONTENT_TYPE_JSON ct) && str_contains CONTENT_TYPE_SSE ct
  | _ => false
  end.
(** A streaming request answered with one JSON document that is not its end. *)
Definition left_open user (answer : HttpAnswer) s : bool :=
  ud_is_stream user &&
  match answer with
  | HttpResponse status (Some ct) chunks None =>
      (status =? 200)%Z && str_contains CONTENT_TYPE_JSON ct &&
      let text := from_utf8_lossy (String.concat "" chunks) in
      str_is_empty text || match parse_text text with Ok json => (on_stream_resp user json s).1 | Err _ => false end
  | _ => false
  end.

(** What the exchange of a request awaits. *)
Inductive Exchange := Asked | Reading (p : SseParser) | Over (open : bool).
Inductive exchange_step user : Exchange → ClientState → Exchange → ClientState → Prop :=
| step_answered answer s s' :
    is_sse answer = false → run_request user answer s = Some s' →
    exchange_step user Asked s (Over (left_open user answer s)) s'
| step_stream s : exchange_step user Asked s (Reading parser_new) s
| step_chunk p chunk p' s s' :
    sse_chunk user chunk p s = Some (p', s') →
    exchange_step user (Reading p) s (from_option Reading (Over false) p') s'
| step_closed p rest s : exchange_step user (Reading p) s (Over false) (sse_close user rest p s).

Definition Running : Type := ClientState * gmap string (UserData * Exchange).
Inductive client_step (config : ClientConfig) (card : AgentCard) : Running → Running → Prop :=
| step_sent call timeout s sent s' X :
    client_call config card call timeout s = (Ok sent, s') →
    client_step config card (s, X) (s', <[ud_request_id (sent_user sent) := (sent_user sent, Asked)]> X)
| step_refused call timeout s e s' X :
    client_call config card call timeout s = (Err e, s') → client_step config card (s, X) (s', X)
| step_exchange id user e e' s s' X :
    X !! id = Some (user, e) → exchange_step user e s e' s' → client_step config card (s, X) (s', <[id := (user, e')]> X)
| step_close s X : client_step config card (s, X) (transport_close s, X).

(** * The operations of an exchange *)

(** Events that end any request they reach. *)
Definition closing_event user ev : Prop :=
  is_error_event ev = true ∨ ud_is_stream user = false ∨
  ∃ u, ev = TrStatus u ∧ is_final_or_interrupted (ts_state (su_status u)) = true.

Notation uid := ud_request_id.
Definition is_ended user c : Prop := uid user ∈ ended_ids c.

(** [user] alive leads to [user] ended, and nothing else moves. *)
Definition ends_now user c c' : Prop := moves (uid user) c c' ∧ (alive user c → is_ended user c').
Definition goes_on user c c' : Prop := moves (uid user) c c' ∧ (alive user c → alive user c').

Lemma ends_goes_on user c c' : ends_now user c c' → goes_on user c c'.
Proof. intros [Hm He]. split; [done|]. intros Ha. right. by apply He. Qed.
Lemma goes_on_refl user c : goes_on user c c.
Proof. split; [apply moves_refl|done]. Qed.

Lemma emit_on user ev c : client_inv c → goes_on user c (transport_emit (uid user) ev c).
Proof. intros Hinv. split; [by apply emit_moves|by apply emit_alive]. Qed.
Lemma emit_closing user ev c :
  client_inv c → alive user c → closing_event user ev → is_ended user (transport_emit (uid user) ev c).
Proof.
  intros Hinv [(_ & cb & Hcb & Hst)|Ha] Hcl; [|by apply (mv_ended _ _ _ (emit_moves (uid user) ev c Hinv))].
  destruct Hcl as [He|Hl].
  - destruct ev as [e| | | | | | | |]; try done. apply emit_error_ends; [done|by eexists].
  - apply (emit_last_ends _ _ _ cb); [done..|]. rewrite <- Hst. by destruct Hl as [->|(u & -> & ?)]; [left|right; exists u].
Qed.

(** [finish] takes the request out; the callback is still there. *)
Lemma finish_moves user c : moves (uid user) c (finish_request (uid user) c).2.
Proof. apply moves_requests. intros id Hid. by rewrite lookup_delete_ne. Qed.
Lemma alive_finish user c :
  alive user c →
  is_ended user c ∨
  (finish_request (uid user) c).1 = true ∧
  ∃ cb, cl_callbacks (finish_request (uid user) c).2 !! uid user = Some cb ∧ ud_is_stream user = is_stream_method (ci_method cb).
Proof.
  intros [(Hr & Hcb)|Ha]; [right|by left]. split; [|exact Hcb]. cbn. rewrite Hr. by rewrite bool_decide_true by (by eexists).
Qed.
Lemma finished_emit user ev c (b := finish_request (uid user) c) :
  client_inv c → closing_event user ev → ends_now user c (if b.1 then transport_emit (uid user) ev b.2 else b.2).
Proof.
  intros Hinv Hcl. assert (moves (uid user) c b.2) as Hm by apply finish_moves. pose proof (mv_inv _ _ _ Hm Hinv) as Hi2.
  split.
  - destruct b.1; [|done]. eapply moves_trans; [done|by apply emit_moves].
  - intros [He|(Hb & cb & Hcb & Hst)]%alive_finish.
    { destruct b.1; [|by apply (mv_ended _ _ _ Hm)]. apply (mv_ended _ _ _ (emit_moves (uid user) ev b.2 Hi2)). by apply (mv_ended _ _ _ Hm). }
    fold b in Hb, Hcb. rewrite Hb. unfold is_ended. destruct Hcl as [He|Hl].
    + destruct ev as [e| | | | | | | |]; try done. apply emit_error_ends; [done|by eexists].
    + apply (emit_last_ends _ _ _ cb); [done..|]. rewrite <- Hst. by destruct Hl as [->|(u & -> & ?)]; [left|right; exists u].
Qed.

Lemma finish_with_ends user ev c : client_inv c → closing_event user ev → ends_now user c (finish_with user ev c).
Proof. intros Hinv Hcl. exact (finished_emit user ev c Hinv Hcl). Qed.
Lemma fail_request_ends user code m c : client_inv c → ends_now user c (fail_request user code m c).
Proof. intros Hinv. apply finish_with_ends; [done|by left]. Qed.
Lemma on_stream_fin_ends user c : client_inv c → ends_now user c (on_stream_fin user c).
Proof. intros Hinv. apply finish_with_ends; [done|by left]. Qed.

Lemma on_stream_resp_ends user data c (r := on_stream_resp user data c) :
  client_inv c → if r.1 then goes_on user c r.2 else ends_now user c r.2.
Proof.
  intros Hinv. subst r. unfold on_stream_resp. destruct (vget "error" data); [by apply finish_with_ends; [|left]|].
  destruct (negb _); [by apply fail_request_ends|].
  destruct (from_json_value _) as [sev|e]; [|by apply fail_request_ends].
  destruct sev as [t|m|a|u]; cbn; try by apply emit_on.
  destruct (is_final_or_interrupted _) eqn:Hf; cbn; [|by apply emit_on].
  apply finish_with_ends; [done|]. right. right. by exists u.
Qed.

Lemma handle_json_ends user text c (open := ud_is_stream user &&
    (str_is_empty text || match parse_text text with Ok json => (on_stream_resp user json c).1 | Err _ => false end)) :
  client_inv c → if open then goes_on user c (handle_json_body user text c) else ends_now user c (handle_json_body user text c).
Proof.
  intros Hinv. subst open. unfold handle_json_body. destruct (str_is_empty text).
  { cbn [orb]. rewrite andb_true_r. destruct (ud_is_stream user); [apply goes_on_refl|by apply fail_request_ends]. }
  cbn [orb]. destruct (parse_text text) as [json|e]; cycle 1.
  { rewrite andb_false_r. by apply fail_request_ends. }
  destruct (ud_is_stream user) eqn:Hst; cbn [andb]; [by apply on_stream_resp_ends|].
  pose proof (λ ev, finished_emit user ev c Hinv (or_intror (or_introl Hst))) as He.
  destruct (finish_request (uid user) c) as [found c1] eqn:Hf. unfold on_non_stream_resp.
  destruct found; [apply He|exact (He TrNone)].
Qed.

Lemma deliver_sse_event_ends user data c (r := deliver_sse_event user data c) :
  client_inv c → if r.1 then ends_now user c r.2 else goes_on user c r.2.
Proof.
  intros Hinv. subst r. unfold deliver_sse_event. destruct (str_is_empty data); [by apply on_stream_fin_ends|].
  destruct (parse_text data) as [json|e]; [|by apply fail_request_ends].
  pose proof (on_stream_resp_ends user json c Hinv) as Hr. by destruct (on_stream_resp user json c) as [[] c'].
Qed.
Lemma goes_then user c1 c2 c3 : goes_on user c1 c2 → goes_on user c2 c3 → goes_on user c1 c3.
Proof. intros [M1 A1] [M2 A2]. split; [by eapply moves_trans|auto]. Qed.
Lemma ends_after user c1 c2 c3 : goes_on user c1 c2 → ends_now user c2 c3 → ends_now user c1 c3.
Proof. intros [M1 A1] [M2 A2]. split; [by eapply moves_trans|auto]. Qed.
Lemma goes_inv user c c' : client_inv c → goes_on user c c' → client_inv c'.
Proof. intros Hinv [[Hm _ _] _]. auto. Qed.

Lemma deliver_events_ends user evs c (r := deliver_events user evs c) :
  client_inv c → if r.1 then ends_now user c r.2 else goes_on user c r.2.
Proof.
  subst r. revert c. induction evs as [|ev evs IH]; intros c Hinv; cbn [deliver_events]; [apply goes_on_refl|].
  pose proof (deliver_sse_event_ends user (ev_data ev) c Hinv) as Hd.
  destruct (deliver_sse_event user (ev_data ev) c) as [[] c1]; [done|]. cbn [fst snd] in Hd.
  specialize (IH c1 (goes_inv _ _ _ Hinv Hd)). destruct (deliver_events user evs c1) as [[] c2]; cbn [fst snd] in *.
  - by eapply ends_after.
  - by eapply goes_then.
Qed.
Lemma sse_chunk_ends user chunk p p' c c' :
  client_inv c → sse_chunk user chunk p c = Some (p', c') →
  match p' with Some _ => goes_on user c c' | None => ends_now user c c' end.
Proof.
  intros Hinv Hc. unfold sse_chunk in Hc. destruct (feed p chunk) as [[evs p1]|]; [cbn in Hc|done].
  pose proof (deliver_events_ends user evs c Hinv) as Hd.
  destruct (deliver_events user evs c) as [[] c1]; by injection Hc as <- <-.
Qed.
Lemma read_failed_ends user f m c : client_inv c → ends_now user c (read_failed user f m c).
Proof. intros Hinv. by destruct f; apply fail_request_ends. Qed.
Lemma sse_close_ends user rest p c : client_inv c → ends_now user c (sse_close user rest p c).
Proof.
  intros Hinv. unfold sse_close. destruct rest as [f|]; [by apply read_failed_ends|].
  destruct (finish p).1 as [l|]; [|by apply on_stream_fin_ends].
  pose proof (deliver_sse_event_ends user (ev_data l) c Hinv) as Hd.
  destruct (deliver_sse_event user (ev_data l) c) as [[] c1]; [done|]. cbn [fst snd] in Hd.
  eapply ends_after; [done|]. apply on_stream_fin_ends. by eapply goes_inv.
Qed.
Lemma sse_body_ends user chunks rest p c c' :
  client_inv c → handle_sse_body user chunks rest p c = Some c' → ends_now user c c'.
Proof.
  revert p c. induction chunks as [|chunk chunks IH]; intros p c Hinv; cbn [handle_sse_body].
  { intros [= <-]. by apply sse_close_ends. }
  destruct (sse_chunk user chunk p c) as [[[p1|] c1]|] eqn:Hc; cbn; [intros Hb|intros [= <-]|done];
    pose proof (sse_chunk_ends _ _ _ _ _ _ Hinv Hc) as Hg; [|done].
  eapply ends_after; [exact Hg|]. apply (IH p1); [exact (goes_inv _ _ _ Hinv Hg)|exact Hb].
Qed.

(** An answer ends its request, unless it leaves a stream open. *)
Lemma run_request_ends user answer c c' :
  client_inv c → run_request user answer c = Some c' →
  if left_open user answer c then goes_on user c c' else ends_now user c c'.
Proof.
  intros Hinv. assert (∀ code m, ends_now user c (fail_request user code m c)) as Hfail by (intros; by apply fail_request_ends).
  destruct answer as [[] e|status ct chunks rest]; unfold left_open; cbn [run_request]; rewrite ?andb_false_r; try (by intros [= <-]).
  destruct (status =? 404)%Z eqn:H4; cbn [orb].
  { apply Z.eqb_eq in H4 as ->. destruct ct, rest; cbn [andb Z.eqb]; rewrite andb_false_r; by intros [= <-]. }
  destruct (status =? 200)%Z; cbn [negb andb]; [|destruct ct, rest; rewrite andb_false_r; by intros [= <-]].
  destruct ct as [ct|]; [|rewrite andb_false_r; by intros [= <-]].
  destruct (str_contains CONTENT_TYPE_JSON ct); cbn [andb].
  { destruct rest as [f|]; intros [= <-]; [rewrite andb_false_r; by apply read_failed_ends|by apply handle_json_ends]. }
  assert (match rest with Some _ => false | None => false end = false) as -> by (by destruct rest). rewrite andb_false_r.
  destruct (str_contains CONTENT_TYPE_SSE ct); [|by intros [= <-]]. by apply sse_body_ends.
Qed.

(** * The calls *)

(** A [send] that submits the request of [id], or changes nothing. *)
Definition submits (cb : CallbackInfo) (send : string → ClientState → result Sent A2aClientError * ClientState) : Prop :=
  ∀ id s, match send id s with
          | (Ok sent, s') =>
              uid (sent_user sent) = id ∧ ud_is_stream (sent_user sent) = is_stream_method (ci_method cb) ∧
              s' = set_requests (<[id := sent_user sent]> (cl_requests s)) s
          | (Err _, s') => s' = s
          end.
Lemma submit_submits cb user body headers s :
  ud_is_stream user = is_stream_method (ci_method cb) →
  match submit user body headers s with
  | (Ok sent, s') =>
      uid (sent_user sent) = uid user ∧ ud_is_stream (sent_user sent) = is_stream_method (ci_method cb) ∧
      s' = set_requests (<[uid user := sent_user sent]> (cl_requests s)) s
  | (Err _, s') => s' = s
  end.
Proof. intros Hst. unfold submit. by destruct (cl_closed s). Qed.
Lemma transport_call_submits {T} `{!WireJson T} cb interceptors method (params : T) timeout :
  ci_method cb = method → submits cb (λ id, transport_call interceptors id method params timeout).
Proof.
  intros <- id s. unfold transport_call, transport_send. destruct (to_json_value params); [|done].
  destruct (apply_interceptors _ _ _) as [data headers]. by apply (submit_submits cb (mkUserData id _ _ timeout)).
Qed.

(** What a call does: one new request, alive, or none. *)
Definition starts (call : ClientState → result Sent A2aClientError * ClientState) : Prop :=
  ∀ s, client_inv s →
    moves (uuid_at (cl_uuids s)) s (call s).2 ∧
    match (call s).1 with
    | Ok sent => uid (sent_user sent) = uuid_at (cl_uuids s) ∧ alive (sent_user sent) (call s).2
    | Err _ => True
    end.
Lemma starts_refused e : starts (λ s, (Err e, s)).
Proof. intros s _. split; [apply moves_refl|done]. Qed.

Hypothesis Hfresh : uuids_fresh.
Lemma fresh_id s : client_inv s → cl_callbacks s !! uuid_at (cl_uuids s) = None ∧ uuid_at (cl_uuids s) ∉ ended_ids s.
Proof.
  intros Hinv. split.
  - apply eq_None_not_Some. intros Hs. destruct (ci_ids s Hinv _ (or_introl Hs)) as (i & Hi & Heq). apply Hfresh in Heq. lia.
  - intros Hs. destruct (ci_ids s Hinv _ (or_intror Hs)) as (i & Hi & Heq). apply Hfresh in Heq. lia.
Qed.
Lemma uuid_moves id s : moves id s (client_uuid s).2.
Proof.
  split; [|done|done]. intros [W N A I]. split; [done..|]. intros j Hj. destruct (I j Hj) as (i & Hi & Heq). exists i. cbn. split; [lia|done].
Qed.
Lemma register_moves s cb :
  is_Some (ci_completion cb) → client_inv s →
  moves (uuid_at (cl_uuids s)) s (register_callback (uuid_at (cl_uuids s)) cb (client_uuid s).2).
Proof.
  intros Hcb Hinv. destruct (fresh_id s Hinv) as [Hf He]. split; [|done|intros j Hj; split; [by apply lookup_insert_ne|done]].
  intros [W N A I]. split; cbn [register_callback client_uuid set_callbacks cl_callbacks cl_uuids ended_ids cl_outcomes snd].
  - intros j cbj [[<- <-]|[_ Hj]]%lookup_insert_Some; [done|by apply (W j)].
  - done.
  - intros j Hj. destruct (decide (j = uuid_at (cl_uuids s))) as [->|Hne]; [done|]. apply A. by rewrite lookup_insert_ne in Hj.
  - intros j Hj. destruct (decide (j = uuid_at (cl_uuids s))) as [->|Hne]; [exists (cl_uuids s); split; [lia|done]|].
    rewrite lookup_insert_ne in Hj by done. destruct (I j Hj) as (i & Hi & Heq). exists i. split; [lia|done].
Qed.
Lemma unregister_moves id s : moves id s (unregister_callback id s).
Proof.
  split; [|done|intros j Hj; split; [by apply lookup_delete_ne|done]].
  intros [W N A I]. split; cbn [unregister_callback set_callbacks cl_callbacks cl_uuids ended_ids cl_outcomes].
  - intros j cbj [_ Hj]%lookup_delete_Some. by apply (W j).
  - done.
  - intros j [cbj [_ Hj]%lookup_delete_Some]. apply A. by eexists.
  - intros j [[cbj [_ Hj]%lookup_delete_Some]|Hj]; apply I; [left; by eexists|by right].
Qed.

Lemma start_request_starts cb send : is_Some (ci_completion cb) → submits cb send → starts (start_request cb send).
Proof.
  intros Hcb Hsend s Hinv. unfold start_request. pose proof (register_moves s cb Hcb Hinv) as Hreg.
  destruct (client_uuid s) as [id s1] eqn:Hu. injection Hu as <- <-.
  specialize (Hsend (uuid_at (cl_uuids s)) (register_callback (uuid_at (cl_uuids s)) cb (client_uuid s).2)).
  cbn [client_uuid snd] in *. destruct (send _ _) as [[sent|e] s2]; cbn [fst snd].
  - destruct Hsend as (Hid & Hst & ->). split.
    { eapply moves_trans; [done|]. apply moves_requests. intros j Hj. by rewrite lookup_insert_ne. }
    split; [done|]. left. unfold pending. rewrite Hid. cbn. split; [by rewrite lookup_insert_eq|]. exists cb. by rewrite lookup_insert_eq.
  - subst s2. split; [|done]. eapply moves_trans; [done|apply unregister_moves].
Qed.

Lemma client_call_starts config card call timeout : starts (client_call config card call timeout).
Proof.
  assert (∀ cb T (W : WireJson T) i m (p : T), is_Some (ci_completion cb) → ci_method cb = m →
    starts (start_request cb (λ id, transport_call i id m p timeout))) as Hcall.
  { intros cb T W i m p Hcb Hm. apply start_request_starts; [done|by apply transport_call_submits]. }
  assert (∀ T (W : WireJson T) v m w (p : T), starts (simple_request config v m w p timeout)) as Hsimple.
  { intros T W v m w p. unfold simple_request. destruct v; [|apply starts_refused]. by apply Hcall; [eexists|]. }
  destruct call; cbn [client_call]; try by apply Hsimple.
  - unfold client_send_message, process_message_request. destruct (_ || _); [apply starts_refused|]. by apply Hcall; [eexists|].
  - unfold client_resubscribe. destruct (can_stream _ _); [|apply starts_refused]. by apply Hcall; [eexists|].
  - apply start_request_starts; [by eexists|]. intros id s. by apply (submit_submits _ (mkUserData id METHOD_AGENT_CARD_GET false timeout)).
Qed.

(** * Close *)

Definition closed_error : TransportEvent := TrError (mkTransportError (error_code A2aStatusError) "Transport is closed").
Lemma close_all (l : list (string * UserData)) c (c' := foldl (λ s p, transport_emit p.1 closed_error s) c l) :
  client_inv c →
  client_inv c' ∧ ended_ids c ⊆ ended_ids c' ∧
  ∀ id, id ∈ l.*1 → is_Some (cl_callbacks c !! id) → id ∈ ended_ids c'.
Proof.
  subst c'. revert c. induction l as [|[j u] l IH]; intros c Hinv; cbn [foldl fst].
  { split_and!; [done..|]. by intros id ?%elem_of_nil. }
  pose proof (emit_moves j closed_error c Hinv) as [Hi He Ho].
  destruct (IH (transport_emit j closed_error c) (Hi Hinv)) as (Hi' & He' & Hl). split_and!; [done|set_solver|].
  intros id Hid Hcb. destruct (decide (id = j)) as [->|Hne]; [apply He'; by apply emit_error_ends|].
  apply elem_of_cons in Hid as [Heq|Hid]; [done|]. apply Hl; [done|]. by rewrite (proj1 (Ho id Hne)).
Qed.
(** Closing the transport ends every request. *)
Lemma close_ends user c : client_inv c → client_inv (transport_close c) ∧ (alive user c → is_ended user (transport_close c)).
Proof.
  intros Hinv. unfold transport_close.
  set (c0 := mkClient _ _ _ _ _ _ _). assert (client_inv c0) as Hi0 by (by destruct Hinv; split).
  destruct (close_all (map_to_list (cl_requests c)) c0 Hi0) as (Hi & He & Hl). split; [done|].
  intros [(Hr & cb & Hcb & _)|Ha]; [|by apply He]. apply Hl; [|by eexists].
  apply list_elem_of_fmap. exists (uid user, user). split; [done|]. by apply elem_of_map_to_list.
Qed.

(** * Every state *)

Definition exchange_ok user (e : Exchange) c : Prop := match e with Over false => is_ended user c | _ => alive user c end.
Definition running_inv (r : Running) : Prop :=
  client_inv r.1 ∧ ∀ id user e, r.2 !! id = Some (user, e) → uid user = id ∧ exchange_ok user e r.1.

Lemma exchange_alive user e c : exchange_ok user e c → alive user c.
Proof. destruct e as [|p|[]]; try done. by right. Qed.
Lemma exchange_moves user e c c' j : moves j c c' → uid user ≠ j → exchange_ok user e c → exchange_ok user e c'.
Proof.
  intros Hm Hne Ho. assert (alive user c → alive user c') as Ha by (by apply (moves_alive _ j)).
  destruct e as [|p|[]]; cbn in *; auto. by apply (mv_ended _ _ _ Hm).
Qed.
Lemma exchange_step_ok user e c e' c' :
  client_inv c → exchange_step user e c e' c' → alive user c → moves (uid user) c c' ∧ exchange_ok user e' c'.
Proof.
  intros Hinv Hstep Ha.
  assert (∀ c' e', ends_now user c c' → e' = Over false → moves (uid user) c c' ∧ exchange_ok user e' c') as He.
  { intros c1 e1 [Hm He] ->. split; [done|]. by apply He. }
  destruct Hstep as [answer s s' Hsse Hrun|s|p chunk p' s s' Hc|p rest s].
  - pose proof (run_request_ends _ _ _ _ Hinv Hrun) as Hr. destruct (left_open user answer s); [|by apply He].
    destruct Hr as [Hm Hr]. split; [done|]. by apply Hr.
  - split; [apply moves_refl|done].
  - pose proof (sse_chunk_ends _ _ _ _ _ _ Hinv Hc) as Hr. destruct p'; [|by apply He].
    destruct Hr as [Hm Hr]. split; [done|]. by apply Hr.
  - apply He; [by apply sse_close_ends|done].
Qed.

Lemma client_step_inv config card r r' : client_step config card r r' → running_inv r → running_inv r'.
Proof.
  intros Hstep [Hinv HX]. destruct Hstep as [call t s sent s' X Hc|call t s e s' X Hc|id user e e' s s' X HXi He|s X]; cbn [fst snd] in *.
  - pose proof (client_call_starts config card call t s Hinv) as [Hm Hs]. rewrite Hc in Hm, Hs. cbn [fst snd] in *.
    destruct Hs as [Hid Ha]. split; [by apply (mv_inv _ _ _ Hm)|].
    intros id user e; cbn [fst snd]; intros [[<- [= <- <-]]|[Hne Hlk]]%lookup_insert_Some; [done|].
    destruct (HX id user e Hlk) as [<- Hok]. split; [done|]. apply (exchange_moves _ _ _ _ _ Hm); [congruence|done].
  - pose proof (client_call_starts config card call t s Hinv) as [Hm _]. rewrite Hc in Hm. cbn [fst snd] in *.
    split; [by apply (mv_inv _ _ _ Hm)|]. intros id user e1; cbn [fst snd]; intros Hlk. destruct (HX id user e1 Hlk) as [<- Hok]. split; [done|].
    apply (exchange_moves _ _ _ _ _ Hm); [|done]. intros Heq. destruct (fresh_id s Hinv) as [Hn He].
    destruct (exchange_alive _ _ _ Hok) as [(_ & cb & Hcb & _)|Hd]; [by rewrite Heq, Hn in Hcb|by rewrite Heq in Hd].
  - destruct (HX id user e HXi) as [<- Hok]. destruct (exchange_step_ok _ _ _ _ _ Hinv He (exchange_alive _ _ _ Hok)) as [Hm Hok'].
    split; [by apply (mv_inv _ _ _ Hm)|]. intros j u e1; cbn [fst snd]; intros [[<- [= <- <-]]|[Hne Hlk]]%lookup_insert_Some; [done|].
    destruct (HX j u e1 Hlk) as [<- Hoku]. split; [done|]. apply (exchange_moves _ _ _ _ _ Hm); [congruence|done].
  - split; [by apply (close_ends (mkUserData "" "" false 0))|]. intros id user e; cbn [fst snd]; intros Hlk. destruct (HX id user e Hlk) as [<- Hok].
    split; [done|]. pose proof (proj2 (close_ends user s Hinv) (exchange_alive _ _ _ Hok)) as Hd.
    destruct e as [|p|[]]; [by right..|done].
Qed.

Lemma new_running : running_inv (new_client, ∅).
Proof.
  split; [|done]. split; cbn.
  - intros id cb Hcb. by rewrite lookup_empty in Hcb.
  - constructor.
  - intros id [? Hs]. by rewrite lookup_empty in Hs.
  - intros id [[? Hs]|Hs]; [by rewrite lookup_empty in Hs|by apply elem_of_nil in Hs].
Qed.
Lemma reached_inv config card r : rtc (client_step config card) (new_client, ∅) r → running_inv r.
Proof.
  intros Hr. pose proof new_running as Hinv. revert Hr Hinv. generalize ((new_client, ∅) : Running). intros r0 Hr.
  induction Hr as [r|r1 r2 r3 Hs _ IH]; [done|]. intros Hinv. apply IH. by eapply client_step_inv.
Qed.

(** The outcomes of a request. *)
Definition outcomes_of id c : list (string * result Done A2aClientError) := filter (λ p, p.1 = id) (cl_outcomes c).
Lemma ended_once c id : client_inv c → id ∈ ended_ids c → ∃ o, outcomes_of id c = [(id, o)].
Proof.
  intros Hinv. pose proof (ci_once c Hinv) as Hn. unfold ended_ids, outcomes_of in *. clear Hinv. revert Hn.
  induction (cl_outcomes c) as [|[j o] l IH]; cbn [fmap list_fmap fst]; [by intros _ ?%elem_of_nil|]. intros [Hj Hn]%NoDup_cons Hid.
  assert (id ∉ l.*1 → filter (λ p : string * result Done A2aClientError, p.1 = id) l = []) as Hnone.
  { intros Hni. clear -Hni. induction l as [|[k o] l IH]; [done|]. rewrite filter_cons_False by (cbn; set_solver). apply IH. set_solver. }
  destruct (decide (j = id)) as [->|Hne].
  - rewrite filter_cons_True by done. rewrite Hnone by done. by exists o.
  - rewrite filter_cons_False by done. apply IH; [done|]. by apply elem_of_cons in Hid as [->|].
Qed.
Lemma feed_some p chunk : last_was_cr p = false → ∃ evs q, feed p chunk = Some (evs, q) ∧ last_was_cr q = false.
Proof.
  intros Hcr. rewrite feed_feed_ref by done. unfold feed_ref. destruct (check_bom _) as [q|] eqn:Hq.
  - destruct (check_bom_Some _ _ Hq) as (_ & Hc & _). pose proof (feed_lines_flags q) as [_ Hc'].
    exists (feed_lines q).1, (feed_lines q).2. split; [by destruct (feed_lines q)|]. by rewrite Hc', Hc.
  - by eexists _, _.
Qed.
Lemma handle_sse_returns user chunks rest p s : last_was_cr p = false → is_Some (handle_sse_body user chunks rest p s).
Proof.
  revert p s. induction chunks as [|chunk chunks IH]; intros p s Hp; cbn [handle_sse_body]; [by eexists|]. unfold sse_chunk.
  destruct (feed_some p chunk Hp) as (evs & p' & -> & Hp'). cbn. destruct (deliver_events user evs s) as [[] s']; cbn; [by eexists|by apply IH].
Qed.
Lemma run_request_returns user answer s : is_Some (run_request user answer s).
Proof.
  destruct answer as [[] e|status ct chunks rest]; cbn [run_request]; [by eexists..|].
  repeat first [by eexists | match goal with |- context [if ?b then _ else _] => destruct b end | destruct ct].
  by apply handle_sse_returns.
Qed.

(** C9: In every state of a client, reached by calls, awaits of their exchanges and
    closing_event in any order: no request has two outcomes; a request whose exchange
    is over has exactly one, and so has every request after the transport is
    closed; and a request still waiting for its answer has, whatever
    the answer, exactly one once it is handled - unless it asked for a stream
    and was answered with a JSON document that does not end it. *)
Theorem request_ends config card s X :
  rtc (client_step config card) (new_client, ∅) (s, X) →
  NoDup (ended_ids s) ∧
  ∀ id user e, X !! id = Some (user, e) →
    (e = Over false → ∃ o, outcomes_of id s = [(id, o)]) ∧
    (∃ o, outcomes_of id (transport_close s) = [(id, o)]) ∧
    (e = Asked → ∀ answer, ∃ s', run_request user answer s = Some s' ∧
      (left_open user answer s = false → ∃ o, outcomes_of id s' = [(id, o)])).
Proof.
  intros [Hinv HX]%reached_inv. cbn [fst snd] in *. split; [by apply ci_once|]. intros id user e Hid.
  destruct (HX id user e Hid) as [<- Hok]. pose proof (exchange_alive _ _ _ Hok) as Ha. split_and!.
  - intros ->. by apply ended_once.
  - destruct (close_ends user s Hinv) as [Hi He]. apply ended_once; [done|by apply He].
  - intros _ answer. destruct (run_request_returns user answer s) as [s' Hs']. exists s'. split; [done|]. intros Hl.
    pose proof (run_request_ends _ _ _ _ Hinv Hs') as Hr. rewrite Hl in Hr. destruct Hr as [Hm He].
    apply ended_once; [by apply (mv_inv _ _ _ Hm)|by apply He].
Qed.
End run.
