(* ===== verification/A2AExamples.v ===== *)
(** A concrete A2A server on which the theorems about tasks, answers, streams
    and push configurations apply.

    A client beside it: a JSON codec on which the
    theorems about streams end to end and about the requests of a client apply. *)
From S2P Require Import Prelude OpMonad RustMap RustStr Json Sse JsonRpc Canonical A2AData A2AWireFacts A2ATasks A2AHandler A2AServerReach A2AServerFacts A2AAnswers A2AServer A2APush A2AClient A2AEndToEnd A2AClientRun.

#[local] Instance toy_env : A2AEnv := {| uuid_at := λ n, pretty n; timestamp_at := λ n, pretty n; push_sender := true |}.
Lemma toy_fresh : uuids_fresh.
Proof. intros i j. apply (inj pretty). Qed.

Definition toy_config : HandlerConfig := mkConfig true true.
Definition toy_message (id : string) (task : option string) : Message :=
  mkMessage None None id None [part_text "hello"] None RUser task.
Definition toy_params (task : option string) : MessageSendParams := mkSendParams None (toy_message "m1" task) None.
Definition toy_nonblocking : MessageSendParams :=
  mkSendParams (Some (mkSendConfig None None None (Some true))) (toy_message "m2" None) None.
Definition reply : Message := mkMessage None None "r1" None [part_text "done"] None RAgent None.

(** The first task is the first of two uuids: the other is its context id. *)
Definition first_id : string := "task-0".
Definition sent_state : ServerState := (begin_send toy_config (toy_params None) 1 empty_server).2.
Definition first_updater : TaskUpdater := updater_new first_id "1".
Definition asking_state : ServerState := (updater_call (up_requires_input (Some reply)) first_updater sent_state).2.
Definition finished_state : ServerState := (updater_call (up_complete (Some reply)) first_updater sent_state).2.

Lemma sent_reachable : server_reachable toy_config sent_state.
Proof. eapply rtc_once, step_send. split; cbn; by intros []%not_elem_of_nil. Defined.
Lemma asking_reachable : server_reachable toy_config asking_state.
Proof. eapply rtc_r; [exact sent_reachable|]. by apply step_update. Defined.
Lemma finished_reachable : server_reachable toy_config finished_state.
Proof. eapply rtc_r; [exact sent_reachable|]. by apply step_update. Defined.
Lemma empty_fresh conn : conn_fresh conn empty_server.
Proof. split; cbn; by intros []%not_elem_of_nil. Defined.
Lemma asking_fresh : conn_fresh 2 asking_state.
Proof. split; eapply bool_decide_eq_false_1; vm_compute; reflexivity. Defined.

(** A finished task stays finished when another message names it. *)
Lemma final_task_frozen_witness :
  sv_tasks (begin_send toy_config (toy_params (Some first_id)) 2 finished_state).2 !! first_id =
  sv_tasks finished_state !! first_id.
Proof.
  set (t := sv_tasks finished_state !! first_id). vm_compute in t. subst t.
  match goal with |- _ = Some ?t => eapply (final_task_frozen toy_config toy_fresh finished_state _ first_id t) end.
  - exact finished_reachable.
  - apply rtc_once, step_send. split; eapply bool_decide_eq_false_1; vm_compute; reflexivity.
  - vm_compute; reflexivity.
  - vm_compute; reflexivity.
Defined.

(** A first message is answered once when its task is cancelled behind its
    executor. *)
Lemma first_sent_eq : begin_send toy_config (toy_params None) 1 empty_server = (Ok (first_id, first_updater), sent_state).
Proof. vm_compute. reflexivity. Defined.

Lemma send_answered_once_witness :
  length (events_of 1 finished_state) ≤ 1 ∧ Forall is_answer (events_of 1 finished_state).
Proof.
  apply (send_answered_once toy_config toy_fresh (toy_params None) 1 empty_server (first_id, first_updater) sent_state).
  - apply rtc_refl.
  - apply empty_fresh.
  - exact first_sent_eq.
  - apply rtc_once. by apply step_update.
Defined.

(** A blocking request waits for the end, whatever is said before and after. *)
Definition working : UpdaterCall := up_start_work None.
Definition chunk (text : string) : UpdaterCall :=
  AddArtifact (mkArtifactParam [part_text text] (Some "a") None None true false []).
Definition toy_calls : list UpdaterCall := [working; chunk "x"; up_complete (Some reply); chunk "late"].


(** A task that is cancelled while a message is on its way to it comes back. *)
Definition cancel_first (s : ServerState) : ServerState :=
  match store_get first_id s with Some t => (cancel_task t s).2 | None => s end.
Definition waiting_task : option Task := Eval vm_compute in sv_tasks asking_state !! first_id.

Lemma raced_send_revives_witness :
  (∀ t, sv_tasks (cancel_first asking_state) !! first_id = Some t → task_final t) ∧
  ∃ s', (begin_send_amid toy_config cancel_first (toy_params (Some first_id)) 2 asking_state).2 = s' ∧
    ∀ t', sv_tasks s' !! first_id = Some t' → ts_state (tk_status t') = InputRequired.
Proof.
  split; [vm_compute; by intros t [= <-]|].
  assert (sv_tasks asking_state !! first_id = waiting_task) as Hw by by vm_compute.
  unfold waiting_task in Hw. match type of Hw with _ = Some ?x => set (t := x) in Hw end.
  destruct (raced_send_revives toy_config cancel_first (toy_params (Some first_id)) 2 asking_state t first_id)
    as (s' & Hb & _ & Hs & _); [done..|exact Hw|done|by vm_compute|].
  exists s'. rewrite Hb. split; [done|]. intros t' Ht'. by rewrite (Hs t' Ht').
Defined.

(** ** Bodies *)

Definition toy_request (id : Z) (method : string) (params : MessageSendParams) : Value :=
  JObject [("jsonrpc", JString "2.0"); ("method", JString method); ("id", JNumber (PosInt id));
           ("params", match to_json_value params with Ok v => v | Err _ => JNull end)].
Definition send_request : Value := toy_request 7 METHOD_MESSAGE_SEND (toy_params None).
Definition continue_request : Value := toy_request 8 METHOD_MESSAGE_STREAM (toy_params (Some first_id)).
#[local] Instance toy_text : A2AText := {|
  parse_text body :=
    if decide (body = "send") then Ok send_request
    else if decide (body = "continue") then Ok continue_request else Err "expected value at line 1 column 1";
  print_value _ := "{}"
|}.
Definition toy_card : AgentCardView := mkCard (Some true) (Ok JNull).
Definition toy_execution : Execution := mkExecution toy_calls (Ok ()).

Lemma send_served_witness :
  ∃ t, sv_tasks finished_state !! first_id ≠ None ∧
    answer_text (Some (Number 7)) (EvTask t) = Some "{}" ∧
    (serve_non_streaming toy_config toy_card true "send" 1 toy_execution empty_server).1 = Some "{}".
Proof.
  destruct (send_served toy_config toy_card toy_fresh "send" send_request (toy_params None) 1 toy_execution empty_server
    (first_id, first_updater) sent_state [working; chunk "x"] (up_complete (Some reply)) [chunk "late"]
    (rtc_refl _ _) (empty_fresh 1) ltac:(by vm_compute) ltac:(discriminate) ltac:(by vm_compute)) as (t & Ht & Hs).
  - by vm_compute.
  - exact first_sent_eq.
  - reflexivity.
  - reflexivity.
  - repeat constructor.
  - reflexivity.
  - exists t. vm_compute in Ht. injection Ht as <-. split; [by vm_compute|]. split; [by vm_compute|]. rewrite Hs. by vm_compute.
Defined.

(** A task that waits for input is continued: one chunk, whatever the executor
    says. *)
Lemma stream_served_witness :
  length (serve_streaming toy_config toy_card true "continue" 2 toy_execution asking_state).1 = 1.
Proof.
  destruct (stream_served toy_config toy_card toy_fresh "continue" continue_request (toy_params (Some first_id)) 2 toy_execution
    asking_state first_updater (begin_stream toy_config (toy_params (Some first_id)) 2 asking_state).2
    asking_reachable asking_fresh ltac:(by vm_compute) ltac:(by vm_compute)) as (t & Ht & Hs).
  - by vm_compute.
  - reflexivity.
  - by vm_compute.
  - rewrite Hs. clear Hs. destruct Ht as [Ht|[Ht _]]; vm_compute in Ht; injection Ht as <-; by vm_compute.
Defined.

(** ** Push configurations *)

Definition toy_push (id : option string) : PushNotificationConfig := mkPushConfig None None id None "https://hook" None.
Lemma push_store_refines_witness :
  let s := push_run [PushSet first_id (toy_push (Some "a")); PushSet first_id (toy_push None)] sent_state in
  on_get_task_push_notification_config toy_config (mkGetPush first_id None (Some "a")) s =
  on_get_task_push_notification_config toy_config (mkGetPush first_id None (Some "b")) s.
Proof.
  destruct (push_store_refines sent_state [PushSet first_id (toy_push (Some "a")); PushSet first_id (toy_push None)] first_id eq_refl)
    as (_ & _ & Hg).
  cbv zeta. rewrite !Hg; try done; by vm_compute; eexists.
Defined.

#[local] Existing Instance toy_env.
#[local] Instance codec_text : A2AText := {|
  print_value := value_text;
  parse_text := λ s, match text_value s with Some v => Ok v | None => Err "not JSON" end
|}.
#[local] Instance toy_cards : A2ACard := {| AgentCard := bool; read_card := λ _, Err "no card"; card_streams := Some |}.

Definition toy_agent : AgentCard := true.

Lemma digits_data_ok s : all_chars is_digit s = true → data_ok s.
Proof.
  unfold data_ok. induction s as [|c s IH]; [by split; [constructor|]|]. cbn. intros [Hc Hs]%andb_true_iff.
  destruct (IH Hs) as [Hu Hcr]. rewrite Hcr, orb_false_r.
  split; [apply utf8_1; [|done]|]; by destruct c as [[] [] [] [] [] [] [] []].
Qed.
#[local] Instance codec_laws : A2ATextLaws.
Proof.
  refine {| text_ok := λ _, True |}; cbn [print_value parse_text codec_text].
  - intros v _. by rewrite text_value_text.
  - intros v. split; [apply digits_data_ok, value_text_digits|].
    pose proof (value_text_nonempty v) as Hne. by destruct (value_text v).
Defined.

(** * A stream *)

Definition toy_client : ClientConfig := mkClientConfig true false None [] [protocol_version_interceptor "0.3.0"].
Definition hello : Message := toy_message "m1" None.
Definition asked : result Sent A2aClientError * ClientState := client_send_message toy_client toy_agent hello 5 new_client.
Definition asked_params : MessageSendParams := client_params toy_client hello.
Definition streamed_state : ServerState := (begin_stream toy_config asked_params 1 empty_server).2.

Lemma asked_wire : wire_ok asked_params.
Proof.
  apply (wire_sound (match to_json_value asked_params with Ok v => v | Err _ => JNull end)). vm_compute. reflexivity.
Defined.
Definition said : list UpdaterCall :=
  [working; AddArtifact (mkArtifactParam [part_text "x"] (Some "a") None None false false []); chunk "y"; up_complete (Some reply)].
Definition said_events (t : Task) : list StreamEvent := EvTask t :: call_events said first_updater streamed_state.
Lemma streamed_first t :
  sv_tasks empty_server !! first_id = Some t ∨ sv_tasks streamed_state !! first_id = Some t →
  Some t = sv_tasks streamed_state !! first_id.
Proof. by intros [Ht|Ht]. Qed.

Lemma event_speakable (ev : StreamEvent) id :
  from_json_value (match to_json_value ev with Ok v => v | Err _ => JNull end) = Ok ev →
  wire_ok ev ∧ ∀ w, to_json_value ev = Ok w → text_ok (response_json id w).
Proof. intros Hev. split; [by eapply wire_sound|done]. Qed.
Lemma said_speakable t : Some t = sv_tasks streamed_state !! first_id → speakable "0" (said_events t).
Proof.
  intros Ht. vm_compute in Ht. injection Ht as ->. unfold speakable, said_events.
  match goal with |- Forall _ (_ :: ?l) => let l' := eval vm_compute in l in change l with l' end.
  repeat first [apply Forall_nil_2|apply Forall_cons_2]; apply event_speakable; vm_compute; reflexivity.
Qed.
Lemma said_tame t : Some t = sv_tasks streamed_state !! first_id → tame t (call_events said first_updater streamed_state).
Proof.
  intros Ht. vm_compute in Ht. injection Ht as ->.
  match goal with |- tame _ ?l => let l' := eval vm_compute in l in change l with l' end.
  split; [by left|]. split; [done|]. split; [|by split; [left|]].
  intros _. eexists. split; [vm_compute; by apply list_elem_of_singleton|done].
Qed.


(** * Requests *)

(** A request that was sent, and another whose exchange failed. *)
Definition toy_query : TaskQueryParams := mkTaskQuery None "task-0" None.
Definition first_user : UserData := mkUserData "0" METHOD_TASK_GET false 5.
Definition second_user : UserData := mkUserData "1" METHOD_MESSAGE_STREAM true 5.
Definition no_answer : HttpAnswer := HttpNoAnswer false "connection reset".
Definition first_sent : ClientState := (client_call toy_client toy_agent (CallGet toy_query) 5 new_client).2.
Definition second_sent : ClientState := (client_call toy_client toy_agent (CallSend hello) 5 first_sent).2.
Definition second_failed : ClientState :=
  fail_request second_user (error_code A2aTransportException) "HTTP request failed: connection reset" second_sent.

Lemma first_call :
  ∃ sent, client_call toy_client toy_agent (CallGet toy_query) 5 new_client = (Ok sent, first_sent) ∧ sent_user sent = first_user.
Proof. eexists. split; reflexivity. Qed.
Lemma second_call :
  ∃ sent, client_call toy_client toy_agent (CallSend hello) 5 first_sent = (Ok sent, second_sent) ∧ sent_user sent = second_user.
Proof. eexists. split; reflexivity. Qed.

Lemma request_ends_witness :
  ∃ X, rtc (client_step toy_client toy_agent) (new_client, ∅) (second_failed, X) ∧
    (∃ o, outcomes_of "1" second_failed = [("1", o)]) ∧ outcomes_of "0" second_failed = [] ∧
    ∃ s', run_request first_user no_answer second_failed = Some s' ∧ ∃ o, outcomes_of "0" s' = [("0", o)].
Proof.
  destruct first_call as (sent1 & Hc1 & Hu1), second_call as (sent2 & Hc2 & Hu2).
  set (X := <["1" := (second_user, Over false)]> (<["1" := (second_user, Asked)]> (<["0" := (first_user, Asked)]> ∅)) : gmap string (UserData * Exchange)).
  assert (rtc (client_step toy_client toy_agent) (new_client, ∅) (second_failed, X)) as Hr.
  { eapply rtc_l; [by apply (step_sent _ _ _ _ _ _ _ _ Hc1)|]. rewrite Hu1.
    eapply rtc_l; [by apply (step_sent _ _ _ _ _ _ _ _ Hc2)|]. rewrite Hu2. apply rtc_once.
    eapply (step_exchange _ _ "1" second_user Asked); [done|]. by apply (step_answered second_user no_answer). }
  exists X. split; [done|].
  destruct (request_ends toy_fresh toy_client toy_agent second_failed X Hr) as [_ He].
  split; [by apply (proj1 (He "1" second_user _ eq_refl))|]. split; [reflexivity|].
  destruct (proj2 (proj2 (He "0" first_user Asked eq_refl)) eq_refl no_answer) as (s' & Hs & Ho). exists s'. split; [done|by apply Ho].
Defined.
